(* ===== verification/_CoqProject ===== *)
-Q . S2P
Prelude.v
GoBytes.v
Semver.v
Resolver.v
Authz.v
Kinds.v
Lifecycle.v
Sql.v
Store.v
Engine.v
Supervisor.v
CfgDoc.v
AlertEval.v
AlertStore.v
Sched.v
PowerCut.v
Submit.v
Paths.v
Installer.v
InstallFS.v
InstallLaws.v
InstallSafe.v
ParkSafe.v
InstallWitness.v
UserStore.v
UserLaws.v
AccountSafe.v
Argon.v
Auth.v
AuthSafe.v
AccountApi.v
AuthWitness.v
Keeper.v
KeeperSafe.v
Rotation.v
RotationSafe.v
KeyLoss.v
KeyLossSafe.v
SecretWitness.v
Netip.v
Limiter.v
Errcode.v
Middleware.v
MiddlewareSafe.v
MiddlewareWitness.v
Retention.v
RemoteStore.v
RemoteCopy.v
RemoteLaws.v
RemoteSafe.v
RemoteWork.v
Pruner.v
RemoteWitness.v
Topic.v
Ring.v
Hub.v
HubSafe.v
HubWitness.v
Lease.v
Launch.v
PanelRows.v
Runners.v
FinishLaws.v
RunnersSafe.v
RunnersWitness.v
ModQueue.v
ModQueueSafe.v
ModQueueWitness.v
Rcon.v
Command.v
CommandSafe.v
Chain.v
ChainSafe.v
ChainWitness.v
