(* ===== verification/Prelude.v ===== *)
(** * Valmin: a verification library for the panel's core

    Valmin is a self-hosted panel for Valheim servers: a Go daemon that keeps
    its state in SQLite, signs people in and decides what each may do, runs long
    operations as jobs under locks, watches Docker containers, installs mods into
    server trees, archives worlds and copies the archives off the host, seals its
    secrets under a master key, streams consoles to browsers, and announces alerts.
    This library models the parts that decide and record, and proves what makes
    them correct.  Sources are named by their path under src/internal/.

    ** Parts, and the code they follow

    - Prelude: results, tactics, and list, lookup and comparison lemmas.
      GoBytes: Go's [strings] and [strconv] on byte strings.
    - Semver (mods/semver) and Resolver (mods/resolver): the order on mod
      versions, and the dependency closure of an install with held packages and
      cycles.
    - Authz (authz): the action registry, grants and the one decision [Can].
    - Kinds (jobs/kind.go) and Lifecycle (instance/state.go, observe.go,
      reconcile.go): job kinds and lock keys; the state table every instance
      moves along, the compare-and-swap that moves it and the observer.
    - Sql (store/db.go): transactions under driver faults, generic in the tables;
      Store (store/jobs.go, store/instances.go): claims, leases, finishes, locks
      and the instance rows on them.
    - Engine (jobs/): the job engine over Store, each method, renewal and end of
      a runner one step; Supervisor (instance/control/supervisor.go): the boot
      sweep and the observer's pass over Engine and Lifecycle.
    - CfgDoc (mods/config): configuration files that keep every byte they do not
      edit, with diffs, overlays, tweaks and merges.
    - AlertEval (alerts/) and AlertStore (store/alerts.go, alerts/scan,
      notify/delivery/alerts.go): which conditions hold, and each edge of one
      announced once to each rule.
    - Sched (scheduler/scheduler.go), PowerCut (scheduler/shutdown.go) and Submit
      (scheduler/submit.go): the clocks, and what a due run becomes.
    - Paths and Installer (mods/installer/plan.go, diff.go): where a package's
      files belong and what installing them would change; InstallFS (apply.go,
      park.go, mods/fsutil): the installer's file operations, one system call at a
      time; InstallLaws, InstallSafe and ParkSafe: their laws and properties;
      InstallWitness: the servers the properties are tried on.
    - UserStore (store/users.go, sessions.go, invites.go, and the two rows auth
      keeps in kv.go): the account tables under the schema's constraints and
      cascades, each exported statement and transaction; UserLaws: their
      well-formedness and the operations as one step type; AccountSafe: what each
      operation does.  Argon (auth/argon2.go, token.go): stored hashes and tokens
      as text.  Auth (auth/session.go, invite.go, bootstrap.go, device.go): signing
      in, invites, first-run setup, trusted devices; AuthSafe: their properties.
      AccountApi (api/users.go, grants.go, invites.go): the handlers an admin
      reaches.  AuthWitness: the panels the properties are tried on.
    - Keeper (crypto/crypto.go, masterkey.go): the envelope every secret is stored
      in, the master key's file, and the start that settles its salt and checks it;
      Rotation (crypto/rotation, store/rotate.go): the job that moves every secret
      to a new generation beside other writers; KeyLoss (cmd/valmind/keyloss.go):
      the panel that goes on with a new key.  KeeperSafe, RotationSafe and
      KeyLossSafe: their properties; SecretWitness: the panels these are tried on.
    - Netip (Go's net/netip): addresses and prefixes as text.  Limiter
      (ratelimit/limiter.go, api/limits.go): the token bucket on IEEE doubles.
      Errcode (errcode/code.go): the closed registry.  Middleware (api/middleware,
      api/errors): the layers every API request passes, each a function from
      handlers to handlers, and the error answer; MiddlewareSafe: their properties;
      MiddlewareWitness: the requests these are tried on.
    - Retention (backup/prune.go): which archives retention removes, and the
      reference it equals.  RemoteStore (store/backups.go, remote_copies.go,
      remote_retention.go, remote_destinations.go, setups.go's links): the archive
      catalogue and the copies of archives elsewhere; RemoteCopy (backup/remotecopy,
      the deletion of instance/control/submissions.go): the worker that uploads,
      retries and cleans up; RemoteLaws: the panel as a step relation and its
      invariant; RemoteSafe and RemoteWork: what the copies, their retention, the
      worker's turns and the transfers promise.  Pruner (instance/control/prune.go,
      backup.go's end): the retention job over the catalogue.  RemoteWitness: the
      panels these are tried on.
    - Topic (ws/topic.go, message.go), Ring (instance/logreader.go's history and
      api/ws.go's replay of it) and Hub (ws/hub.go, conn.go, subscribe.go): what a
      browser may listen to, the recent lines it is shown, and the hub with every
      goroutine of its connections, one critical section, channel operation or
      database read at a time.  HubSafe: its invariant and properties; HubWitness:
      the runs these are tried on.
    - Lease (store/lease.go): one daemon per data root, by a file lock and a
      heartbeat row, with any number of daemons on any hosts.
    - Launch (instance/validate.go, container.go): the rules a server's settings
      obey and the container they become.  PanelRows (store/instances.go,
      mod_queue.go and the reads of other tables): the rest of the database the
      control jobs use.  Runners (instance/control/start.go, stop.go, restart.go,
      backup.go, submissions.go): the jobs themselves, each statement and call a
      step between which everybody else may write.  RunnersSafe: where each leaves
      its server; RunnersWitness: the hosts this is tried on.
    - ModQueue (instance/control/mod_queue.go, the check of mods/manager's
      update_selection.go and the submission of its install.go): the installs that
      wait for a server to stop.  ModQueueSafe and ModQueueWitness: its property and
      the queues it is tried on.
    - Rcon (command/rcon.go) and Command (command/manager.go): the packets and the
      exchange on a connection, and the rules, the plugin's file and the send above
      them; CommandSafe: their properties.  Chain (instance/control/chain.go,
      chain_steps.go, chain_wait.go): lists of steps run against a server; ChainSafe:
      its properties; ChainWitness: the panels these and the commands are tried on.

    How they interact: Supervisor and Submit submit through Engine's claims, which
    are Store's transactions; Lifecycle's writers and Store's instance rows meet in
    [TxUpdateInstanceState]; Resolver compares with Semver; Installer's [Plan] and
    [Diff] feed InstallFS's [Apply], whose undoing is [Rollback]; the grants table of
    UserStore is an instance of the grant lookups Authz decides by, AccountApi asks
    [Can] before it reaches Auth and UserStore, and an audit row of any of them is
    Store's [writeAuditLog]; a transfer is a job under Store's locks, an instance is
    deleted only when no upload of it is due, and Pruner asks Retention and deletes
    through RemoteStore; Rotation and KeyLoss open and seal through Keeper what the
    other writers of the same columns store; Middleware reads the session by Auth's
    [Authenticate] and [LoginTrusted] over UserStore's tables, checks the token
    Keeper's [MAC] derives, and counts on Limiter under the address Netip parsed.  The
    control jobs move instances by Lifecycle's writes, end a backup by Pruner's
    finish, build containers by Launch and are submitted through Store's claims;
    ModQueue asks Authz for each requester and submits mod installs and the start
    owed; Chain submits the same jobs and speaks through Command, which keeps its
    file by CfgDoc and InstallFS, counts on Limiter and frames by Rcon; Hub asks
    [Can] and replays Ring.  A
    part that the code reaches through an interface is a class with laws (grant
    lookups, the cron parser, submissions, temporary names, Unicode tables, remote
    storage, the cipher, a chain's command channel, whose law Command's send is
    proved to keep), a class without any (Docker, logs and archives for the control
    jobs, the dialer, the mod catalogue: their answers are arbitrary) or an argument
    (argon2, SHA-256, HMAC, the random source, the order of a range over a map), and
    its witnesses instantiate it with a concrete function.

    ** State and operations

    A component's state is a record (Store's [DB], UserStore's [UDB], Engine's
    [Engine], Sched's [Clock], InstallFS's [FS], Hub's
    [Hub]), an exported method is a definition on it, and a
    concurrent or crashing execution is a sequence of such steps.  Failures are
    inputs: a stream of booleans decides which statement or system call fails, and
    a stream of failures from some point on is a killed process, so "for every
    stream" is "wherever it stops".  Clock readings and fresh identifiers are
    arguments.  Instants and durations are integers of nanoseconds or seconds as
    the code has them; where arithmetic can reach its width (Go's [Atoi], a
    limiter's doubles and durations, a generation's number) the width is modelled.

    ** What the theorems show

    - Exclusion: under any interleaving and any fault, two running jobs never share
      a lock key and each live runner holds its own (Store, Engine); after a
      restart every dead job is closed and only honoured resumptions are owed
      (Supervisor); two daemons never run on one data root or under live claims
      (Lease).
    - The lifecycle: every write follows the table, the observer settles in two
      passes and never writes a locked instance (Lifecycle, Supervisor); every start,
      stop and restart leaves its server where its kind and result say, and a backup
      gives the server back, with the one case where the code does not
      (RunnersSafe).
    - Waiting work: no queued mod install is run on authority that is gone, or lost but
      where the grant cannot be read (ModQueueSafe); a chain refines its steps in order, waits for the server after
      a backup and sends each command at most once (ChainSafe).
    - The console: packets survive any cutting of the stream (Rcon); the plugin's
      password is minted once and kept, and only an allowed line goes out, once, after
      a login was answered (CommandSafe).
    - Streams: a connection loses what its user or session may no longer have,
      the gaps reported are the lines dropped, and a console replays its whole
      history (HubSafe, Ring).
    - Files: a rollback gives back every file wherever the install stopped, an
      install writes only what its diff allows, and an interrupted disable or
      enable is settled (InstallSafe, ParkSafe); plans and destinations are what
      the code documents (Installer, Paths).
    - Accounts: the tables stay well formed and the owner stays an enabled admin
      through every operation and fault, a first admin is made once and an invite
      redeemed once, a listing shows exactly what [Can] opens (UserLaws,
      AccountSafe); a cookie opens only a live session of an enabled account, a
      password change ends the other sessions, and hashes, device tokens and setup
      tokens do what they were made for (Argon, AuthSafe); the account routes are
      closed to everyone but an admin (AccountApi).
    - Backups: retention removes what it documents, in the catalogue and on the
      destination, and forecasts it rightly (Retention, RemoteSafe, Pruner); one
      upload runs at a time, with its archive under it, and a copy's status follows
      one graph (RemoteSafe); nothing deletes an archive a copy or a setup needs, a
      turn of the worker starts what is due, and a transfer leaves on record what it
      put and deletes nothing else (Pruner, RemoteWork).
    - Secrets: a sealed secret opens under its keeper and every later generation and
      nowhere else; a new panel opens however many starts died before, always with
      one key; a rotation loses no secret whatever else writes, fails or restarts,
      ends once left alone, and leaves nothing behind unless a value sealed before
      the flip is stored after it; adopting a new key always succeeds when retried
      and empties nothing that can be read (KeeperSafe, RotationSafe, KeyLossSafe).
    - Requests: the chain around any handler is one list of questions, whoever gets
      through has been asked all of them, a refusal is one error answer, a request
      counts under the address of its nearest untrusted hop (MiddlewareSafe), and a
      fresh key passes exactly its burst (Limiter).
    - Decisions: [Can] against its specification (Authz), the closure of an
      install (Resolver), the order on versions (Semver), the alert conditions and
      the reconciliation of their rows (AlertEval, AlertStore), edits of
      configuration files (CfgDoc).
    - Clocks: runs are spaced and respect edits and holds, stops end before the
      power goes, a skip leaves one inert row (Sched, PowerCut, Submit).
    - Liveness where the code has it: waits are answered, an owed stop is kept
      until it happened, the resolver returns on every finite index.

    ** Fuel

    [Resolver.Resolve] runs on fuel, and [Resolve_terminates] shows that any fuel above
    the number of packages in reach never runs out; [Engine.waitLoop] runs on
    one more than the signals it is given; [GoBytes.iterTrim] on the length of the
    string ([iterTrim_fuel]); [Pruner.readPages] on more than the archives of an
    instance, as [Runners.selectPruned] gives it; [Launch.fieldsFrom] on one more
    than the length of the string; [Argon.decDigits] on twenty digits, more than a 64-bit
    number has; [Netip.v6Groups] on the eight groups of an address, [Netip.hexDigits]
    on the four digits of a group; [Keeper.uvarint] on the ten bytes of a 64-bit length.  Every other recursion is structural.

    ** Not modelled

    The HTTP handlers beyond the account routes and the middleware (api): they
    decode, call the parts below them and shape answers.  The Discord bot (discord)
    and the delivery of notifications beyond alerts (notify): clients of services
    and text templates.  The container runtime (runtime), the clients of remote
    storage and the archives (backup, export): Docker, rclone, WebDAV, tar and gzip,
    whose answers are inputs here.  The jobs that provision, clone, update, restore
    and delete servers (instance/control, instance): SteamCMD runs and swaps of
    directory trees.  Log patterns and player tracking, world files and ports
    (instance): regular expressions, files and sockets.  The Thunderstore client,
    zip extraction, the cache and the jobs around the installer (mods/manager,
    thunderstore, extract, cache, profile), sharing formats (sharecode, setupblob,
    templaterepo), configuration, diagnostics and probes (config, diag,
    reachability): I/O around libraries.  Within the modelled parts: symbolic links
    and file modes, SQL pragmas and migrations, goroutine memory effects below the
    step granularity, the watchers that wake a waiting chain, and log output beyond
    the lines a job keeps. *)
From stdpp Require Export base gmap sets list strings sorting.
From Stdlib Require Export Ascii ZArith Lia.

(** ** Go strings

    A Go string is a sequence of bytes.  Where the code looks inside a string
    the model uses [bytes]; [L] reads a literal. *)
Abbreviation bytes := (list ascii).
Abbreviation L := String.list_ascii_of_string.
Abbreviation S_ := String.string_of_list_ascii.

(** The opaque identifiers (instance ids, job ids, lock keys) are [string]s. *)

(** ** Results *)

Inductive result (E A : Type) : Type :=
| Ok (a : A)
| Err (e : E).
Arguments Ok {E A} a.
Arguments Err {E A} e.

Definition rbind {E A B} (r : result E A) (k : A -> result E B) : result E B :=
  match r with
  | Ok a => k a
  | Err e => Err e
  end.

Declare Scope go_scope.
Delimit Scope go_scope with go.
Notation "'let?' x := r 'in' k" := (rbind r (fun x => k))
  (at level 10, x pattern, r at level 100, k at level 200) : go_scope.
Notation "'when' b 'fail' e 'then' k" := (if b then Err e else k)
  (at level 10, b at level 100, e at level 100, k at level 200) : go_scope.
Open Scope go_scope.

#[export] Instance result_eq_dec {E A} `{EqDecision E, EqDecision A} : EqDecision (result E A).
Proof. solve_decision. Defined.

Definition is_ok {E A} (r : result E A) : bool :=
  match r with Ok _ => true | Err _ => false end.

(** ** Tactics *)

(** Case analysis on the scrutinee of a match or an if in the goal or in a
    hypothesis, keeping the equation. *)
Ltac case_goal :=
  match goal with
  | |- context [match ?x with _ => _ end] =>
      lazymatch x with
      | context [match _ with _ => _ end] => fail
      | _ => destruct x eqn:?
      end
  end.
Ltac case_hyp H :=
  match type of H with
  | context [match ?x with _ => _ end] =>
      lazymatch x with
      | context [match _ with _ => _ end] => fail
      | _ => destruct x eqn:?
      end
  end.

(** Turn boolean tests into propositions. *)
Ltac prop_bool :=
  repeat match goal with
  | H : _ && _ = true |- _ => apply andb_true_iff in H; destruct H
  | H : _ || _ = false |- _ => apply orb_false_iff in H; destruct H
  | H : negb _ = true |- _ => apply negb_true_iff in H
  | H : negb _ = false |- _ => apply negb_false_iff in H
  | H : bool_decide _ = true |- _ => apply bool_decide_eq_true in H
  | H : bool_decide _ = false |- _ => apply bool_decide_eq_false in H
  | H : (_ <=? _)%Z = true |- _ => apply Z.leb_le in H
  | H : (_ <=? _)%Z = false |- _ => apply Z.leb_gt in H
  | H : (_ <? _)%Z = true |- _ => apply Z.ltb_lt in H
  | H : (_ <? _)%Z = false |- _ => apply Z.ltb_ge in H
  | H : (_ =? _)%Z = true |- _ => apply Z.eqb_eq in H
  | H : (_ =? _)%Z = false |- _ => apply Z.eqb_neq in H
  end.

(** Close the goals that follow by case analysis and congruence. *)
Ltac crush :=
  repeat (simplify_eq/=; prop_bool; try done; case_goal); simplify_eq/=; try done; eauto.

(** ** Booleans *)

Lemma existsb_elem_of {A} (f : A -> bool) (l : list A) :
  existsb f l = true <-> exists x, x ∈ l /\ f x = true.
Proof.
  rewrite existsb_exists. setoid_rewrite list_elem_of_In. done.
Qed.

Lemma forallb_elem_of {A} (f : A -> bool) (l : list A) :
  forallb f l = true <-> forall x, x ∈ l -> f x = true.
Proof.
  rewrite forallb_forall. setoid_rewrite list_elem_of_In. done.
Qed.

(** Boolean tests as the propositions they decide: [autorewrite with reflect]. *)
Create HintDb reflect.
#[export] Hint Rewrite @existsb_elem_of @forallb_elem_of andb_true_iff orb_true_iff negb_true_iff
  @bool_decide_eq_true @bool_decide_eq_false Z.leb_le Z.ltb_lt Z.eqb_eq : reflect.

(** ** Folds

    An invariant of the accumulator that every step keeps holds at the end. *)
Lemma fold_left_inv {A B} (P : A -> Prop) (f : A -> B -> A) (l : list B) (a : A) :
  P a -> (forall a x, x ∈ l -> P a -> P (f a x)) -> P (fold_left f l a).
Proof.
  revert a. induction l as [|x l IH]; intros a Ha Hf; simpl; [done|].
  apply IH.
  - apply Hf; [left | done].
  - intros a' y Hy. apply Hf. by right.
Qed.

Lemma NoDup_length_le {A} `{EqDecision A} (l u : list A) :
  NoDup l -> (forall x, x ∈ l -> x ∈ u) -> (length l <= length u)%nat.
Proof.
  intros Hnd Hsub. apply submseteq_length. apply NoDup_submseteq; done.
Qed.

Lemma filter_iff_in {A} (P Q : A -> Prop) `{forall x, Decision (P x), forall x, Decision (Q x)} (l : list A) :
  (forall x, x ∈ l -> P x <-> Q x) -> filter P l = filter Q l.
Proof.
  induction l as [|x l IH]; intros HPQ; [done|]. rewrite !filter_cons.
  rewrite IH by (intros y Hy; apply HPQ; by right).
  assert (P x <-> Q x) by (apply HPQ; left). repeat destruct (decide _); tauto.
Qed.

(** ** Lookups *)

Lemma lookup_insert_cases {K A} `{Countable K} (m : gmap K A) i j x y :
  <[i := x]> m !! j = Some y -> (i = j /\ x = y) \/ (i <> j /\ m !! j = Some y).
Proof. rewrite lookup_insert_Some. naive_solver. Qed.

Lemma lookup_insert_is_Some_cases {K A} `{Countable K} (m : gmap K A) i j x :
  is_Some (<[i := x]> m !! j) <-> i = j \/ is_Some (m !! j).
Proof.
  destruct (decide (i = j)) as [->|Hne].
  - rewrite lookup_insert_eq. naive_solver.
  - rewrite lookup_insert_ne by done. naive_solver.
Qed.

(** ** Comparisons

    Go's three-way comparisons return an [int] whose sign matters. *)
Definition sgn (c : comparison) : Z :=
  match c with Lt => -1 | Eq => 0 | Gt => 1 end.

Lemma sgn_opp c : sgn (CompOpp c) = (- sgn c)%Z.
Proof. by destruct c. Qed.
Lemma sgn_pos c : (0 < sgn c)%Z <-> c = Gt.
Proof. destruct c; simpl; split; intros ?; try lia; done. Qed.
Lemma sgn_zero c : sgn c = 0%Z <-> c = Eq.
Proof. destruct c; simpl; split; intros ?; try lia; done. Qed.
Lemma sgn_inj c d : sgn c = sgn d -> c = d.
Proof. by destruct c, d. Qed.

(** Lexicographic comparison of lists, a proper prefix being smaller. *)
Fixpoint lex {A} (c : A -> A -> comparison) (a b : list A) : comparison :=
  match a, b with
  | [], [] => Eq
  | [], _ :: _ => Lt
  | _ :: _, [] => Gt
  | x :: a', y :: b' =>
      match c x y with
      | Eq => lex c a' b'
      | r => r
      end
  end.

Lemma lex_antisym {A} (c : A -> A -> comparison) (a b : list A) :
  (forall x y, x ∈ a -> y ∈ b -> c y x = CompOpp (c x y)) ->
  lex c b a = CompOpp (lex c a b).
Proof.
  revert b. induction a as [|x a IH]; intros [|y b] Hc; simpl; try done.
  rewrite (Hc x y) by (by left). destruct (c x y); simpl; try done.
  apply IH. intros; apply Hc; by right.
Qed.

Lemma lex_eq {A} (c : A -> A -> comparison) (a b : list A) :
  (forall x y, x ∈ a -> y ∈ b -> c x y = Eq -> x = y) ->
  lex c a b = Eq -> a = b.
Proof.
  revert b. induction a as [|x a IH]; intros [|y b] Hc; simpl; try done.
  destruct (c x y) eqn:E; try done. intros H.
  f_equal; [apply Hc; [by left | by left | done] | apply IH; [|done]].
  intros; apply Hc; [by right | by right | done].
Qed.

Lemma lex_refl {A} (c : A -> A -> comparison) (a : list A) :
  (forall x, c x x = Eq) -> lex c a a = Eq.
Proof. intros Hc. induction a as [|x a IH]; simpl; [done|]. by rewrite Hc. Qed.

(** A comparison that is reflexive, whose [Eq] is equality and whose [Lt]
    composes on the values satisfying [P], lifts to lists of such values. *)
Lemma lex_lt_trans {A} (P : A -> Prop) (c : A -> A -> comparison) :
  (forall x, c x x = Eq) ->
  (forall x y, P x -> P y -> c x y = Eq -> x = y) ->
  (forall x y z, P x -> P y -> P z -> c x y = Lt -> c y z = Lt -> c x z = Lt) ->
  forall a b d, Forall P a -> Forall P b -> Forall P d ->
  lex c a b = Lt -> lex c b d = Lt -> lex c a d = Lt.
Proof.
  intros Hrefl Heq Htr. induction a as [|x a IH]; intros [|y b] [|z d]; simpl; try done.
  rewrite !Forall_cons. intros [Hx Ha] [Hy Hb] [Hz Hd].
  destruct (c x y) eqn:Exy; destruct (c y z) eqn:Eyz; try done; intros Hab Hbd.
  - apply Heq in Exy as ->; [|done..]. apply Heq in Eyz as ->; [|done..].
    rewrite Hrefl. by apply (IH b d).
  - apply Heq in Exy as ->; [|done..]. by rewrite Eyz.
  - apply Heq in Eyz as ->; [|done..]. by rewrite Exy.
  - by rewrite (Htr x y z).
Qed.

Lemma size_list_to_set_le {A} `{Countable A} (l : list A) :
  (size (list_to_set l : gset A) <= length l)%nat.
Proof.
  induction l as [|x l IH]; [by rewrite list_to_set_nil, size_empty|].
  rewrite list_to_set_cons, size_union_alt, size_singleton, length_cons.
  assert (size (list_to_set l ∖ {[x]} : gset A) <= size (list_to_set l : gset A))%nat
    by (apply subseteq_size; set_solver).
  lia.
Qed.
