(* ===== verification/GoBytes.v ===== *)
(** Go's [strings] and [strconv] on byte strings, as far as the modelled code
    calls them: prefixes and suffixes, [Cut], [Split], [Join], the trimming
    functions, [ToLower] and [Atoi], with the laws the components use. *)
From S2P Require Import Prelude.

Open Scope nat_scope.

(** ** Bytes *)

Definition code (c : ascii) : N := N_of_ascii c.
Definition in_range (lo hi : N) (c : ascii) : bool := (lo <=? code c)%N && (code c <=? hi)%N.
Definition is_digit (c : ascii) : bool := in_range 48 57 c.
Definition is_upper (c : ascii) : bool := in_range 65 90 c.
Definition is_lower (c : ascii) : bool := in_range 97 122 c.
Definition is_alnum (c : ascii) : bool := is_digit c || is_lower c || is_upper c.
Definition is_byte (x c : ascii) : bool := bool_decide (c = x).
Definition one_of (cutset : bytes) (c : ascii) : bool := bool_decide (c ∈ cutset).

Definition byte_compare (x y : ascii) : comparison := N.compare (code x) (code y).

(** Go compares strings bytewise. *)
Definition bytes_compare : bytes -> bytes -> comparison := lex byte_compare.

(** ** Package strings *)

Fixpoint hasPrefix (p s : bytes) : bool :=
  match p, s with
  | [], _ => true
  | _ :: _, [] => false
  | x :: p', y :: s' => is_byte x y && hasPrefix p' s'
  end.

Definition hasSuffix (p s : bytes) : bool := hasPrefix (rev p) (rev s).

(** [strings.CutPrefix]. *)
Definition cutPrefix (p s : bytes) : option bytes :=
  if hasPrefix p s then Some (drop (length p) s) else None.

Definition trimPrefix (p s : bytes) : bytes := default s (cutPrefix p s).
Definition trimSuffix (p s : bytes) : bytes :=
  if hasSuffix p s then take (length s - length p) s else s.

Fixpoint contains (sub s : bytes) : bool :=
  hasPrefix sub s || match s with [] => false | _ :: s' => contains sub s' end.

Definition containsAny (chars s : bytes) : bool := existsb (one_of chars) s.

(** [strings.Cut] at a one-byte separator: around its first occurrence. *)
Fixpoint cut (c : ascii) (s : bytes) : option (bytes * bytes) :=
  match s with
  | [] => None
  | x :: s' => if is_byte c x then Some ([], s')
               else match cut c s' with
                    | Some (a, b) => Some (x :: a, b)
                    | None => None
                    end
  end.

(** The split around the last occurrence, what [strings.LastIndex] finds. *)
Fixpoint cutLast (c : ascii) (s : bytes) : option (bytes * bytes) :=
  match s with
  | [] => None
  | x :: s' => match cutLast c s' with
               | Some (a, b) => Some (x :: a, b)
               | None => if is_byte c x then Some ([], s') else None
               end
  end.

(** [strings.Split] with a one-byte separator: never empty. *)
Fixpoint split (c : ascii) (s : bytes) : list bytes :=
  match s with
  | [] => [[]]
  | x :: s' => if is_byte c x then [] :: split c s'
               else match split c s' with
                    | w :: ws => (x :: w) :: ws
                    | [] => [[x]]
                    end
  end.

Fixpoint join (sep : bytes) (l : list bytes) : bytes :=
  match l with
  | [] => []
  | [w] => w
  | w :: ws => w ++ sep ++ join sep ws
  end.

(** [strings.TrimLeft] and [strings.TrimRight] with an ASCII cutset. *)
Fixpoint trimLeft (cutset s : bytes) : bytes :=
  match s with
  | [] => []
  | x :: s' => if one_of cutset x then trimLeft cutset s' else s
  end.
Definition trimRight (cutset s : bytes) : bytes := rev (trimLeft cutset (rev s)).

(** [strings.Lines]: every line with its terminating newline. *)
Definition nl : ascii := "010"%char.
Fixpoint lines (s : bytes) : list bytes :=
  match s with
  | [] => []
  | x :: s' => if is_byte nl x then [x] :: lines s'
               else match lines s' with
                    | w :: ws => (x :: w) :: ws
                    | [] => [[x]]
                    end
  end.

(** The UTF-8 encodings of the code points [unicode.IsSpace] accepts. *)
Definition utf8 (l : list N) : bytes := map ascii_of_N l.
Definition spaces : list bytes :=
  map (fun c => utf8 [c]) [9; 10; 11; 12; 13; 32]%N ++
  [utf8 [194; 133]; utf8 [194; 160]; utf8 [225; 154; 128]]%N ++
  map (fun c => utf8 [226; 128; c])%N [128; 129; 130; 131; 132; 133; 134; 135; 136; 137; 138; 168; 169; 175]%N ++
  [utf8 [226; 129; 159]; utf8 [227; 128; 128]]%N.

(** [strings.TrimSpace]: a leading (or trailing) code point is decoded and
    dropped while it is a space.  A multi-byte space can only be decoded from
    exactly its own encoding, so matching the encodings is the same test. *)
Definition stripSpace (s : bytes) : option bytes :=
  list_find (fun sp => hasPrefix sp s = true) spaces ≫= fun '(_, sp) => cutPrefix sp s.
Definition stripSpaceRight (s : bytes) : option bytes :=
  list_find (fun sp => hasSuffix sp s = true) spaces ≫= fun '(_, sp) => Some (trimSuffix sp s).
Fixpoint iterTrim (strip : bytes -> option bytes) (fuel : nat) (s : bytes) : bytes :=
  match fuel with
  | O => s
  | S n => match strip s with Some s' => iterTrim strip n s' | None => s end
  end.
Definition trimSpace (s : bytes) : bytes :=
  let l := iterTrim stripSpace (length s) s in
  iterTrim stripSpaceRight (length l) l.

Definition isASCII (s : bytes) : bool := forallb (fun c => (code c <? 128)%N) s.
Definition lower_byte (c : ascii) : ascii := if is_upper c then ascii_of_N (code c + 32) else c.

(** [strings.ToLower] maps the bytes of an ASCII string itself and hands any
    other string to the Unicode tables, which are an argument here. *)
Class UnicodeTables := { unicode_lower : bytes -> bytes }.
Definition toLower `{UnicodeTables} (s : bytes) : bytes :=
  if isASCII s then map lower_byte s else unicode_lower s.

(** Lowering maps a string rune by rune: an ASCII first byte is lowered by
    itself. *)
Class UnicodeLaws `{UnicodeTables} : Prop :=
  lower_head : forall c s, (code c < 128)%N -> exists s', unicode_lower (c :: s) = lower_byte c :: s'.

(** Tables that leave every non-ASCII rune alone, for concrete runs. *)
Definition ascii_tables : UnicodeTables := {| unicode_lower := map lower_byte |}.

Lemma ascii_tables_laws : @UnicodeLaws ascii_tables.
Proof. intros c s _. by eexists. Qed.

(** ** Package strconv *)

Fixpoint digits_val (acc : Z) (s : bytes) : option Z :=
  match s with
  | [] => Some acc
  | c :: s' => if is_digit c then digits_val (acc * 10 + (Z.of_N (code c) - 48)) s' else None
  end.

Definition max_int : Z := 2 ^ 63 - 1.

(** [strconv.Atoi]: an optional sign, then decimal digits, in the range of a
    64-bit [int]. *)
Definition Atoi (s : bytes) : option Z :=
  let '(neg, ds) := match s with
                    | c :: r => if is_byte "-"%char c then (true, r)
                                else if is_byte "+"%char c then (false, r)
                                else (false, s)
                    | [] => (false, s)
                    end in
  match ds with
  | [] => None
  | _ :: _ =>
      match digits_val 0 ds with
      | None => None
      | Some n => if neg then (if (n <=? max_int + 1)%Z then Some (- n)%Z else None)
                  else (if (n <=? max_int)%Z then Some n else None)
      end
  end.

(** ** Laws *)

Lemma is_byte_spec x c : is_byte x c = true <-> c = x.
Proof. apply bool_decide_eq_true. Qed.
Lemma is_byte_false x c : is_byte x c = false <-> c <> x.
Proof. apply bool_decide_eq_false. Qed.
Lemma one_of_spec s c : one_of s c = true <-> c ∈ s.
Proof. apply bool_decide_eq_true. Qed.

Lemma hasPrefix_spec p s : hasPrefix p s = true <-> exists k, s = p ++ k.
Proof.
  revert s. induction p as [|x p IH]; intros s; simpl.
  - split; [eauto | done].
  - destruct s as [|y s]; [split; [done | by intros [k ?]]|].
    rewrite andb_true_iff, is_byte_spec, IH. split.
    + intros [-> [k ->]]. eauto.
    + intros [k [= -> ->]]. eauto.
Qed.

Lemma hasPrefix_app p k : hasPrefix p (p ++ k) = true.
Proof. apply hasPrefix_spec. eauto. Qed.

Lemma hasSuffix_spec p s : hasSuffix p s = true <-> exists k, s = k ++ p.
Proof.
  unfold hasSuffix. rewrite hasPrefix_spec. split; intros [k Hk].
  - exists (rev k). rewrite <- (rev_involutive s), Hk, rev_app_distr, rev_involutive. done.
  - exists (rev k). by rewrite Hk, rev_app_distr.
Qed.

Lemma cutPrefix_Some p s r : cutPrefix p s = Some r <-> s = p ++ r.
Proof.
  unfold cutPrefix. destruct (hasPrefix p s) eqn:E.
  - apply hasPrefix_spec in E as [k ->]. rewrite drop_app_length. naive_solver.
  - split; [done|]. intros ->. by rewrite hasPrefix_app in E.
Qed.

Lemma trimSuffix_app s p : trimSuffix p (s ++ p) = s.
Proof.
  unfold trimSuffix. replace (hasSuffix p (s ++ p)) with true.
  - rewrite length_app, Nat.add_sub, take_app_length. done.
  - symmetry. apply hasSuffix_spec. eauto.
Qed.

Lemma cut_Some c s a b : cut c s = Some (a, b) <-> s = a ++ c :: b /\ c ∉ a.
Proof.
  revert a b. induction s as [|x s IH]; intros a b; simpl.
  - split; [done|]. intros [H _]. by destruct a.
  - destruct (is_byte c x) eqn:E.
    + apply is_byte_spec in E as ->. split.
      * intros [= <- <-]. split; [done | apply not_elem_of_nil].
      * intros [H Ha]. destruct a as [|y a]; simplify_eq/=; [done|].
        by rewrite not_elem_of_cons in Ha; destruct Ha.
    + apply is_byte_false in E. destruct (cut c s) as [[a' b']|] eqn:Ec.
      * split.
        -- intros [= <- <-]. destruct (proj1 (IH a' b') eq_refl) as [-> Hn].
           split; [done|]. rewrite not_elem_of_cons. done.
        -- intros [H Hn]. destruct a as [|y a]; simplify_eq/=.
           rewrite not_elem_of_cons in Hn. destruct Hn as [Hy Hn].
           assert (Some (a', b') = Some (a, b)) as [= -> ->] by (by apply IH).
           done.
      * split; [done|]. intros [H Hn]. destruct a as [|y a]; simplify_eq/=.
        rewrite not_elem_of_cons in Hn. destruct Hn as [Hy Hn].
        assert (None = Some (a, b)) by (by apply IH). done.
Qed.

Lemma cut_None c s : cut c s = None <-> c ∉ s.
Proof.
  induction s as [|x s IH]; simpl.
  - split; [intros _; apply not_elem_of_nil | done].
  - rewrite not_elem_of_cons. destruct (is_byte c x) eqn:E.
    + apply is_byte_spec in E. naive_solver.
    + apply is_byte_false in E. destruct (cut c s) as [[? ?]|]; naive_solver.
Qed.

Lemma split_not_nil c s : split c s <> [].
Proof. destruct s as [|x s]; simpl; [done|]. repeat case_match; done. Qed.

Lemma L_append x y : L (String.append x y) = L x ++ L y.
Proof. induction x as [|c x IH]; [done|]. exact (f_equal (cons c) IH). Qed.

Lemma join_split c s : join [c] (split c s) = s.
Proof.
  induction s as [|x s IH]; simpl; [done|].
  pose proof (split_not_nil c s). destruct (is_byte c x) eqn:E.
  - apply is_byte_spec in E as ->. destruct (split c s) as [|w ws]; [done|].
    simpl in *. by rewrite IH.
  - destruct (split c s) as [|w ws]; [done|]. simpl in *.
    destruct ws; simpl in *; by rewrite IH.
Qed.

Lemma split_no_sep c s w : w ∈ split c s -> c ∉ w.
Proof.
  revert w. induction s as [|x s IH]; intros w; simpl.
  - rewrite list_elem_of_singleton. intros ->. apply not_elem_of_nil.
  - destruct (is_byte c x) eqn:E.
    + rewrite elem_of_cons. intros [->|Hw]; [apply not_elem_of_nil | by apply IH].
    + apply is_byte_false in E. pose proof (split_not_nil c s).
      destruct (split c s) as [|v ws]; [done|]. rewrite elem_of_cons. intros [->|Hw].
      * rewrite not_elem_of_cons. split; [done|]. apply IH. by left.
      * apply IH. by right.
Qed.

Lemma split_nosep c w : c ∉ w -> split c w = [w].
Proof.
  induction w as [|x w IH]; simpl; [done|]. rewrite not_elem_of_cons. intros [Hx Hw].
  rewrite (proj2 (is_byte_false c x)) by done. by rewrite IH.
Qed.

Lemma split_app c w s : c ∉ w -> split c (w ++ c :: s) = w :: split c s.
Proof.
  induction w as [|x w IH]; simpl; intros Hw.
  - by rewrite (proj2 (is_byte_spec c c)).
  - rewrite not_elem_of_cons in Hw. destruct Hw as [Hx Hw].
    rewrite (proj2 (is_byte_false c x)) by done. by rewrite IH.
Qed.

Lemma split_join c l : l <> [] -> (forall w, w ∈ l -> c ∉ w) -> split c (join [c] l) = l.
Proof.
  induction l as [|w l IH]; [done|]. intros _ Hl. destruct l as [|v l].
  - apply split_nosep, Hl. by left.
  - change (join [c] (w :: v :: l)) with (w ++ c :: join [c] (v :: l)).
    rewrite split_app by (apply Hl; by left). f_equal. apply IH; [done|].
    intros u Hu. apply Hl. by right.
Qed.

Lemma concat_lines s : concat (lines s) = s.
Proof.
  induction s as [|x s IH]; simpl; [done|].
  destruct (is_byte nl x); simpl; [by rewrite IH|].
  destruct (lines s); simpl in *; by rewrite <- IH.
Qed.

Lemma code_inj x y : code x = code y -> x = y.
Proof.
  unfold code. intros H%(f_equal ascii_of_N). by rewrite !ascii_N_embedding in H.
Qed.

Lemma byte_compare_refl x : byte_compare x x = Eq.
Proof. apply N.compare_refl. Qed.
Lemma byte_compare_eq x y : byte_compare x y = Eq -> x = y.
Proof.
  unfold byte_compare. intros H%N.compare_eq_iff. by apply code_inj.
Qed.
Lemma byte_compare_antisym x y : byte_compare y x = CompOpp (byte_compare x y).
Proof. apply N.compare_antisym. Qed.
Lemma byte_compare_trans x y z :
  byte_compare x y = Lt -> byte_compare y z = Lt -> byte_compare x z = Lt.
Proof.
  unfold byte_compare. intros H1%N.compare_lt_iff H2%N.compare_lt_iff.
  apply N.compare_lt_iff. by etrans.
Qed.

Lemma bytes_compare_refl a : bytes_compare a a = Eq.
Proof. apply lex_refl, byte_compare_refl. Qed.
Lemma bytes_compare_eq a b : bytes_compare a b = Eq -> a = b.
Proof. apply lex_eq. intros x y _ _. apply byte_compare_eq. Qed.
Lemma bytes_compare_antisym a b : bytes_compare b a = CompOpp (bytes_compare a b).
Proof. apply lex_antisym. intros; apply byte_compare_antisym. Qed.
Lemma bytes_compare_trans a b d :
  bytes_compare a b = Lt -> bytes_compare b d = Lt -> bytes_compare a d = Lt.
Proof.
  apply (lex_lt_trans (fun _ => True)); try (apply Forall_true; done).
  - apply byte_compare_refl.
  - intros x y _ _. apply byte_compare_eq.
  - intros x y z _ _ _. apply byte_compare_trans.
Qed.

(** The digits of a number can be read back in only one way. *)
Lemma digit_bounds c : is_digit c = true -> (0 <= Z.of_N (code c) - 48 <= 9)%Z.
Proof.
  unfold is_digit, in_range. intros [?%N.leb_le ?%N.leb_le]%andb_true_iff. lia.
Qed.
Lemma digits_val_ge s acc n : (0 <= acc)%Z -> digits_val acc s = Some n -> (acc <= n)%Z.
Proof.
  revert acc. induction s as [|c s IH]; simpl; intros acc Hacc H; [by simplify_eq|].
  destruct (is_digit c) eqn:E; [|done]. apply digit_bounds in E.
  apply IH in H; lia.
Qed.
Lemma digits_val_inj s t acc n m :
  length s = length t -> digits_val acc s = Some n -> digits_val m t = Some n ->
  (0 <= acc)%Z -> (0 <= m)%Z -> acc = m /\ s = t.
Proof.
  revert t acc m. induction s as [|c s IH]; intros [|d t] acc m Hlen; simpl; try done.
  - naive_solver.
  - destruct (is_digit c) eqn:Ec; [|done]. destruct (is_digit d) eqn:Ed; [|done].
    intros H1 H2 Ha Hm. apply digit_bounds in Ec as Bc. apply digit_bounds in Ed as Bd.
    simpl in Hlen. destruct (IH t _ _ ltac:(lia) H1 H2 ltac:(lia) ltac:(lia)) as [Hv ->].
    assert (acc = m) by lia. split; [done|]. f_equal.
    apply code_inj. lia.
Qed.

#[export] Hint Resolve split_not_nil hasPrefix_app bytes_compare_refl : core.

(** ** Lines and trimming *)

(** What [lines] produces: newline-terminated lines, the last one possibly
    unterminated. *)
Inductive Lines : list bytes -> Prop :=
| Lines_nil : Lines []
| Lines_last w : w <> [] -> nl ∉ w -> Lines [w]
| Lines_cons w l : nl ∉ w -> Lines l -> Lines ((w ++ [nl]) :: l).

Lemma lines_nosep w : nl ∉ w -> w <> [] -> lines w = [w].
Proof.
  induction w as [|x w IH]; [done|]. rewrite not_elem_of_cons. intros [Hx Hw] _. simpl.
  rewrite (proj2 (is_byte_false nl x)) by done. destruct w as [|y w]; [done|]. by rewrite IH.
Qed.

Lemma lines_app w s : nl ∉ w -> lines (w ++ nl :: s) = (w ++ [nl]) :: lines s.
Proof.
  induction w as [|x w IH]; simpl; [done|]. rewrite not_elem_of_cons. intros [Hx Hw].
  rewrite (proj2 (is_byte_false nl x)) by done. by rewrite IH.
Qed.

Lemma Lines_lines s : Lines (lines s).
Proof.
  induction s as [|x s IH]; simpl; [constructor|]. destruct (is_byte nl x) eqn:E.
  - apply is_byte_spec in E as ->. apply (Lines_cons [] _ (not_elem_of_nil _) IH).
  - apply is_byte_false in E. destruct IH as [|w Hne Hw|w l Hw Hl].
    + apply Lines_last; [done|]. by apply not_elem_of_cons; split; [|apply not_elem_of_nil].
    + apply Lines_last; [done|]. by rewrite not_elem_of_cons.
    + apply (Lines_cons (x :: w)); [|done]. by rewrite not_elem_of_cons.
Qed.

Lemma lines_concat l : Lines l -> lines (concat l) = l.
Proof.
  induction 1 as [|w Hne Hw|w l Hw Hl IH]; simpl; [done|by rewrite app_nil_r, lines_nosep|].
  rewrite <- app_assoc. simpl. by rewrite lines_app, IH.
Qed.

(** Editing a line without its end keeps the line structure. *)
Lemma Lines_insert l i a b v : Lines l -> l !! i = Some (a ++ b) -> nl ∉ v -> nl ∉ a ->
  v ++ b <> [] -> a ++ b <> [] -> Lines (<[i := v ++ b]> l).
Proof.
  intros Hl. revert i. induction Hl as [|w Hne Hw|w l Hw Hl IH]; intros [|i] Hi Hv Ha Hvb Hab; simplify_eq/=.
  - apply Lines_last; [done|]. apply not_elem_of_app in Hw. apply not_elem_of_app. tauto.
  - destruct b as [|x b _] using rev_ind.
    + exfalso. apply Ha. rewrite app_nil_r in Hi. rewrite <- Hi. apply elem_of_app. right. left.
    + rewrite app_assoc in Hi. apply app_inj_2 in Hi as [-> [= <-]]; [|done]. rewrite app_assoc.
      apply not_elem_of_app in Hw. apply Lines_cons; [|done]. apply not_elem_of_app. tauto.
  - apply Lines_cons; [done|]. by apply IH.
Qed.

Lemma trimLeft_app cs l r : Forall (fun c => c ∈ cs) l -> trimLeft cs (l ++ r) = trimLeft cs r.
Proof. induction 1 as [|c l Hc _ IH]; simpl; [done|]. by rewrite (proj2 (one_of_spec cs c)). Qed.

Definition headNotIn (cs s : bytes) : Prop := match s with [] => True | c :: _ => c ∉ cs end.

Lemma trimLeft_id cs s : headNotIn cs s -> trimLeft cs s = s.
Proof. destruct s as [|c s]; simpl; [done|]. intros Hc. destruct (one_of cs c) eqn:E; [|done]. by apply one_of_spec in E. Qed.

Lemma trimLeft_split cs s : exists l, s = l ++ trimLeft cs s /\ Forall (fun c => c ∈ cs) l /\ headNotIn cs (trimLeft cs s).
Proof.
  induction s as [|c s (l & Hs & Hl & Hh)]; simpl; [by exists []|]. destruct (one_of cs c) eqn:E.
  - exists (c :: l). simpl. rewrite <- Hs. split_and!; [done| |done]. constructor; [by apply one_of_spec|done].
  - exists []. split_and!; [done|constructor|]. simpl. intros Hc. apply one_of_spec in Hc. congruence.
Qed.

Definition lastNotIn (cs s : bytes) : Prop := headNotIn cs (rev s).

Lemma trimRight_app cs l r : Forall (fun c => c ∈ cs) r -> trimRight cs (l ++ r) = trimRight cs l.
Proof. intros Hr. unfold trimRight. rewrite rev_app_distr, trimLeft_app; [done|]. by apply Forall_rev. Qed.
Lemma trimRight_id cs s : lastNotIn cs s -> trimRight cs s = s.
Proof. intros Hs. unfold trimRight. rewrite trimLeft_id by done. apply rev_involutive. Qed.
Lemma trimRight_split cs s : exists r, s = trimRight cs s ++ r /\ Forall (fun c => c ∈ cs) r /\ lastNotIn cs (trimRight cs s).
Proof.
  destruct (trimLeft_split cs (rev s)) as (l & Hs & Hl & Hh). exists (rev l). unfold trimRight, lastNotIn.
  rewrite rev_involutive. split_and!; [|by apply Forall_rev|done].
  rewrite <- rev_app_distr, <- Hs. by rewrite rev_involutive.
Qed.

(** Trimming stops at a byte outside the cutset. *)
Lemma trimRight_keep cs a x b : x ∉ cs -> exists b', trimRight cs (a ++ x :: b) = a ++ x :: b'.
Proof.
  intros Hx. destruct (trimRight_split cs (a ++ x :: b)) as (r & Hs & Hr & _).
  destruct (trimRight_split cs (x :: b)) as (r' & Hs' & Hr' & Hl').
  assert (trimRight cs (a ++ x :: b) = a ++ trimRight cs (x :: b)) as ->.
  { rewrite Hs' at 1. rewrite app_assoc, trimRight_app by done. apply trimRight_id.
    unfold lastNotIn in *. rewrite rev_app_distr. destruct (rev (trimRight cs (x :: b))) eqn:E; [|done].
    assert (trimRight cs (x :: b) = []) as E' by (by rewrite <- (rev_involutive (trimRight _ _)), E).
    rewrite E' in Hs'. simpl in Hs'. rewrite <- Hs' in Hr'. inversion Hr'; done. }
  destruct (trimRight cs (x :: b)) as [|y b'] eqn:E.
  - simpl in Hs'. rewrite <- Hs' in Hr'. inversion Hr'; done.
  - simpl in Hs'. injection Hs' as -> _. by exists b'.
Qed.

(** [TrimSpace] up to an equals sign: no encoding of a space holds one. *)
Lemma spaces_no (x : ascii) sp : (32 < code x < 127)%N -> sp ∈ spaces -> x ∉ sp.
Proof.
  intros Hx Hsp Hin. assert (Forall (fun sp => Forall (fun c => (code c <= 32 \/ 127 < code c)%N) sp) spaces) as HF.
  { apply (bool_decide_unpack _). by vm_compute. }
  rewrite Forall_forall in HF. specialize (HF sp Hsp). rewrite Forall_forall in HF. specialize (HF x Hin). lia.
Qed.

Lemma hasPrefix_upto x p a b : x ∉ p -> hasPrefix p (a ++ x :: b) = hasPrefix p a.
Proof.
  revert a. induction p as [|c p IH]; intros a Hp; [done|]. rewrite not_elem_of_cons in Hp. destruct Hp as [Hc Hp].
  destruct a as [|y a]; simpl; [by rewrite (proj2 (is_byte_false c x))|]. by rewrite IH.
Qed.

Lemma spaces_not_nil sp : sp ∈ spaces -> sp <> [].
Proof.
  assert (Forall (fun sp => sp <> []) spaces) as HF by (apply (bool_decide_unpack _); by vm_compute).
  rewrite Forall_forall in HF. apply HF.
Qed.

Lemma stripSpace_spec s s' : stripSpace s = Some s' -> exists sp, sp ∈ spaces /\ s = sp ++ s'.
Proof.
  unfold stripSpace. destruct (list_find _ spaces) as [[i sp]|] eqn:E; [|done]. simpl.
  apply list_find_Some in E as (Hi & _). intros Hc%cutPrefix_Some. exists sp. split; [by eapply list_elem_of_lookup_2|done].
Qed.

Lemma list_find_iff {A} (P Q : A -> Prop) `{forall x, Decision (P x), forall x, Decision (Q x)} (l : list A) :
  (forall x, x ∈ l -> P x <-> Q x) -> list_find P l = list_find Q l.
Proof.
  induction l as [|x l IH]; intros Hpq; [done|]. simpl. assert (P x <-> Q x) by (apply Hpq; left).
  rewrite IH by (intros y Hy; apply Hpq; by right). repeat case_decide; tauto.
Qed.

Lemma stripSpace_upto (x : ascii) a b : (32 < code x < 127)%N ->
  stripSpace (a ++ x :: b) = (fun a' => a' ++ x :: b) <$> stripSpace a.
Proof.
  intros Hx. unfold stripSpace.
  rewrite (list_find_iff (fun sp => hasPrefix sp (a ++ x :: b) = true) (fun sp => hasPrefix sp a = true)).
  - destruct (list_find _ spaces) as [[i sp]|] eqn:E; [|done]. simpl.
    apply list_find_Some in E as (Hi & Hp & _). apply hasPrefix_spec in Hp as [k ->].
    assert (cutPrefix sp (sp ++ k) = Some k) as -> by by apply cutPrefix_Some.
    apply cutPrefix_Some. by rewrite <- app_assoc.
  - intros sp Hsp. rewrite hasPrefix_upto; [done|]. by apply spaces_no.
Qed.

Lemma stripSpace_shorter s s' : stripSpace s = Some s' -> (length s' < length s)%nat.
Proof.
  intros (sp & Hsp & ->)%stripSpace_spec. rewrite length_app. pose proof (spaces_not_nil sp Hsp).
  destruct sp; [done|]. simpl. lia.
Qed.

(** Enough fuel is enough. *)
Lemma iterTrim_fuel strip n s : (forall s s', strip s = Some s' -> (length s' < length s)%nat) ->
  (length s <= n)%nat -> iterTrim strip n s = iterTrim strip (length s) s.
Proof.
  intros Hs. revert s. induction n as [n IH] using lt_wf_ind. intros s Hn.
  destruct n as [|n]; [by destruct s; simpl in *; [|lia]|].
  destruct (strip s) as [s'|] eqn:E.
  - pose proof (Hs _ _ E) as Hlt. destruct (length s) as [|m] eqn:Em; [lia|]. simpl. rewrite E.
    rewrite (IH n) by lia. destruct (decide (m <= n)%nat); [|lia].
    rewrite (IH m) by lia. done.
  - simpl. rewrite E. destruct (length s); simpl; [done|by rewrite E].
Qed.

Definition trimSpaceLeft (s : bytes) : bytes := iterTrim stripSpace (length s) s.

Lemma trimSpaceLeft_upto (x : ascii) a b : (32 < code x < 127)%N ->
  trimSpaceLeft (a ++ x :: b) = trimSpaceLeft a ++ x :: b.
Proof.
  intros Hx. unfold trimSpaceLeft.
  rewrite <- (iterTrim_fuel stripSpace (length (a ++ x :: b)) a stripSpace_shorter) by (rewrite length_app; lia).
  generalize (length (a ++ x :: b)). intros n. revert a. induction n as [|n IH]; intros a; simpl; [done|].
  rewrite stripSpace_upto by done. destruct (stripSpace a) as [a'|]; simpl; [|done]. apply IH.
Qed.

Lemma iterTrimRight_keep (x : ascii) n a b : (32 < code x < 127)%N ->
  exists b', iterTrim stripSpaceRight n (a ++ x :: b) = a ++ x :: b'.
Proof.
  intros Hx. revert b. induction n as [|n IH]; intros b; simpl; [by exists b|].
  destruct (stripSpaceRight (a ++ x :: b)) as [s|] eqn:E; [|by exists b].
  unfold stripSpaceRight in E. destruct (list_find _ spaces) as [[i sp]|] eqn:Ef; [|done]. simpl in E. injection E as <-.
  apply list_find_Some in Ef as (Hi & Hp & _). apply hasSuffix_spec in Hp as [k Hk]. rewrite Hk, trimSuffix_app.
  assert (x ∉ sp) as Hn by (apply spaces_no; [done|by eapply list_elem_of_lookup_2]).
  assert (exists b', k = a ++ x :: b') as [b' ->]; [|apply IH].
  apply app_eq_inv in Hk as [(m & -> & ->)|(m & -> & Hm)].
  - exfalso. apply Hn, elem_of_app. right. left.
  - destruct m as [|y m]; simplify_eq/=; [exfalso; apply Hn; left|by eexists].
Qed.

Lemma iterTrimRight_prefix n s : exists r, s = iterTrim stripSpaceRight n s ++ r.
Proof.
  revert s. induction n as [|n IH]; intros s; simpl; [exists []; by rewrite app_nil_r|].
  destruct (stripSpaceRight s) as [s'|] eqn:E; [|exists []; by rewrite app_nil_r].
  unfold stripSpaceRight in E. destruct (list_find _ spaces) as [[i sp]|] eqn:Ef; [|done]. simpl in E. injection E as <-.
  apply list_find_Some in Ef as (_ & Hp & _). apply hasSuffix_spec in Hp as [k ->]. rewrite trimSuffix_app.
  destruct (IH k) as [r Hr]. exists (r ++ sp). by rewrite app_assoc, <- Hr.
Qed.

(** A text whose part before an equals sign (or any such byte) trims to
    [c :: _] itself trims to something starting with [c]. *)
Lemma trimSpace_head (x c : ascii) a b k : (32 < code x < 127)%N ->
  trimSpace a = c :: k -> exists k', trimSpace (a ++ x :: b) = c :: k'.
Proof.
  intros Hx Ha. unfold trimSpace in *. fold (trimSpaceLeft a) in Ha. fold (trimSpaceLeft (a ++ x :: b)).
  rewrite trimSpaceLeft_upto by done.
  destruct (iterTrimRight_keep x (length (trimSpaceLeft a ++ x :: b)) (trimSpaceLeft a) b Hx) as [b' ->].
  destruct (iterTrimRight_prefix (length (trimSpaceLeft a)) (trimSpaceLeft a)) as [r Hr].
  rewrite Ha in Hr. rewrite Hr. by eexists.
Qed.

(** A newline in a line is its last byte. *)
Lemma Lines_elem l w : Lines l -> w ∈ l -> nl ∉ w \/ exists x, w = x ++ [nl] /\ nl ∉ x.
Proof.
  induction 1 as [|x Hne Hx|x l Hx Hl IH]; [by intros ?%not_elem_of_nil| |].
  - intros ->%list_elem_of_singleton. by left.
  - intros [->|Hw]%elem_of_cons; [right; by exists x|by apply IH].
Qed.

Lemma Lines_front l w a c b : Lines l -> w ∈ l -> w = a ++ c :: b -> nl ∉ a.
Proof.
  intros Hl Hw Heq Hin. destruct (Lines_elem _ _ Hl Hw) as [Hn|(x & -> & Hx)].
  - apply Hn. rewrite Heq. apply elem_of_app. by left.
  - destruct b as [|y b _] using rev_ind.
    + apply app_inj_2 in Heq as [-> _]; done.
    + change (c :: b ++ [y]) with ((c :: b) ++ [y]) in Heq. rewrite app_assoc in Heq.
      apply app_inj_2 in Heq as [-> _]; [|done]. apply Hx, elem_of_app. by left.
Qed.
