(* ===== verification/Semver.v ===== *)
(** internal/mods/semver: strict [major.minor.patch] versions with an optional
    pre-release suffix, and the order the resolver compares them with. *)
From S2P Require Import Prelude GoBytes.

Definition dot : ascii := "."%char.
Definition dash : ascii := "-"%char.

(** ** Data and operations *)

(** The [[3]int] of a parsed core. *)
Definition Core : Type := Z * Z * Z.

(** One component of the core: [strconv.Atoi] and not negative. *)
Definition component (p : bytes) : option Z :=
  match Atoi p with
  | Some n => if (n <? 0)%Z then None else Some n
  | None => None
  end.

(** [Parse]. *)
Definition Parse (v : bytes) : option Core :=
  match split dot v with
  | [p0; p1; p2] =>
      match component p0, component p1, component p2 with
      | Some a, Some b, Some c => Some (a, b, c)
      | _, _, _ => None
      end
  | _ => None
  end.

(** [Greater]: the first differing component decides. *)
Definition Greater (a b : Core) : bool :=
  let '(a0, a1, a2) := a in
  let '(b0, b1, b2) := b in
  if negb (a0 =? b0)%Z then (b0 <? a0)%Z
  else if negb (a1 =? b1)%Z then (b1 <? a1)%Z
  else if negb (a2 =? b2)%Z then (b2 <? a2)%Z
  else false.

Record Version := mkVersion { vCore : Core; Pre : bytes }.

#[export] Instance Version_eq_dec : EqDecision Version.
Proof. solve_decision. Defined.

(** The characters a pre-release identifier may hold. *)
Definition preChar (c : ascii) : bool := is_digit c || is_lower c || is_upper c || is_byte dash c.

Definition validPreRelease (pre : bytes) : bool :=
  forallb (fun id => negb (bool_decide (id = [])) && forallb preChar id) (split dot pre).

(** [ParseVersion]: the part before the first dash is the core. *)
Definition ParseVersion (v : bytes) : option Version :=
  match cut dash v with
  | None => match Parse v with
            | Some core => Some (mkVersion core [])
            | None => None
            end
  | Some (core, pre) =>
      match Parse core with
      | None => None
      | Some parsed => if validPreRelease pre then Some (mkVersion parsed pre) else None
      end
  end.

Definition IsPreRelease (v : Version) : bool := negb (bool_decide (Pre v = [])).

(** [numericIdentifier]. *)
Definition numericIdentifier (s : bytes) : option Z :=
  match Atoi s with
  | Some n => if (n <? 0)%Z || bool_decide (s = []) then None else Some n
  | None => None
  end.

(** The verdict of the loop body of [comparePreRelease] on two identifiers
    that differ. *)
Definition compareIdentifiers (x y : bytes) : Z :=
  match numericIdentifier x, numericIdentifier y with
  | Some an, Some bn => if (bn <? an)%Z then 1 else -1
  | Some _, None => -1
  | None, Some _ => 1
  | None, None => match bytes_compare x y with Gt => 1 | _ => -1 end
  end.

(** The loop of [comparePreRelease] and the length comparison after it. *)
Fixpoint compareIdents (xs ys : list bytes) : Z :=
  match xs, ys with
  | x :: xs', y :: ys' => if bool_decide (x = y) then compareIdents xs' ys' else compareIdentifiers x y
  | [], [] => 0
  | _ :: _, [] => 1
  | [], _ :: _ => -1
  end.

Definition comparePreRelease (a b : bytes) : Z := compareIdents (split dot a) (split dot b).

Definition compareCore (a b : Core) : Z :=
  let '(a0, a1, a2) := a in
  let '(b0, b1, b2) := b in
  if negb (a0 =? b0)%Z then (if (b0 <? a0)%Z then 1 else -1)
  else if negb (a1 =? b1)%Z then (if (b1 <? a1)%Z then 1 else -1)
  else if negb (a2 =? b2)%Z then (if (b2 <? a2)%Z then 1 else -1)
  else 0.

(** [Compare]. *)
Definition Compare (a b : Version) : Z :=
  if (compareCore (vCore a) (vCore b) =? 0)%Z then
    if bool_decide (Pre a = Pre b) then 0
    else if bool_decide (Pre a = []) then 1
    else if bool_decide (Pre b = []) then -1
    else comparePreRelease (Pre a) (Pre b)
  else compareCore (vCore a) (vCore b).

(** An identifier whose text is the only one for its value: not numeric, or
    digits without a leading zero. *)
Definition canonicalId (s : bytes) : bool :=
  match numericIdentifier s with
  | None => true
  | Some _ => forallb is_digit s && (bool_decide (length s = 1%nat) || negb (is_byte "0"%char (default dot (head s))))
  end.
Definition canonical (v : Version) : bool := forallb canonicalId (split dot (Pre v)).

(** ** Lemmas *)

Lemma digits_val_bounds s acc n :
  (0 <= acc)%Z -> digits_val acc s = Some n ->
  (acc * 10 ^ Z.of_nat (length s) <= n < (acc + 1) * 10 ^ Z.of_nat (length s))%Z.
Proof.
  revert acc. induction s as [|c s IH]; intros acc Hacc H; simpl in H.
  - simplify_eq/=. lia.
  - destruct (is_digit c) eqn:E; [|done]. apply digit_bounds in E.
    apply IH in H; [|lia]. rewrite length_cons, Nat2Z.inj_succ, Z.pow_succ_r by lia.
    remember (10 ^ Z.of_nat (length s))%Z as p. assert (0 < p)%Z by (subst; lia). nia.
Qed.

Lemma digits_canonical_inj s t n :
  forallb is_digit s = true -> forallb is_digit t = true ->
  digits_val 0 s = Some n -> digits_val 0 t = Some n ->
  (length s = 1%nat \/ head s <> Some "0"%char) -> (length t = 1%nat \/ head t <> Some "0"%char) ->
  s <> [] -> t <> [] -> s = t.
Proof.
  intros Ds Dt Hs Ht Cs Ct Ns Nt.
  assert (forall u m, forallb is_digit u = true -> digits_val 0 u = Some m -> u <> [] ->
            (length u = 1%nat \/ head u <> Some "0"%char) ->
            (m < 10 ^ Z.of_nat (length u) /\ (length u = 1%nat \/ 10 ^ Z.of_nat (length u - 1) <= m))%Z) as Hb.
  { intros u m Du Hu Nu Cu. split; [apply digits_val_bounds in Hu; lia|].
    destruct Cu as [|Cu]; [by left|right]. destruct u as [|c u]; [done|]. simpl in *.
    destruct (is_digit c) eqn:Ec; [|done]. apply digits_val_bounds in Hu; [|apply digit_bounds in Ec; lia].
    assert (Z.of_N (code c) - 48 <> 0)%Z.
    { intros Hc. apply Cu. f_equal. apply code_inj. change (code "0"%char) with 48%N.
      apply digit_bounds in Ec. lia. }
    apply digit_bounds in Ec. rewrite Nat.sub_0_r.
    assert (0 < 10 ^ Z.of_nat (length u))%Z by lia. nia. }
  destruct (Hb s n Ds Hs Ns Cs) as [Us Ls]. destruct (Hb t n Dt Ht Nt Ct) as [Ut Lt].
  assert (0 <= n)%Z by (apply digits_val_ge in Hs; lia).
  assert (length s = length t).
  { assert (length s <> 0 /\ length t <> 0) as [Ps Pt] by (destruct s, t; done).
    destruct (decide (length s < length t)) as [Hlt|]; [exfalso|].
    - destruct Lt as [|Lt]; [lia|].
      assert (10 ^ Z.of_nat (length s) <= 10 ^ Z.of_nat (length t - 1))%Z by (apply Z.pow_le_mono_r; lia). lia.
    - destruct (decide (length t < length s)) as [Hlt|]; [exfalso|lia].
      destruct Ls as [|Ls]; [lia|].
      assert (10 ^ Z.of_nat (length t) <= 10 ^ Z.of_nat (length s - 1))%Z by (apply Z.pow_le_mono_r; lia). lia. }
  by eapply digits_val_inj.
Qed.

Lemma Atoi_digits s n :
  forallb is_digit s = true -> Atoi s = Some n -> digits_val 0 s = Some n /\ s <> [].
Proof.
  unfold Atoi. destruct s as [|c s]; [done|]. intros D. simpl in D. apply andb_true_iff in D as [Dc D].
  assert (is_byte "-"%char c = false /\ is_byte "+"%char c = false) as [-> ->].
  { rewrite !is_byte_false. split; intros ->; by vm_compute in Dc. }
  destruct (digits_val 0 (c :: s)) as [m|]; [|done]. destruct (m <=? max_int)%Z; [|done].
  by intros [= ->].
Qed.

Lemma canonicalId_inj x y n :
  canonicalId x = true -> canonicalId y = true ->
  numericIdentifier x = Some n -> numericIdentifier y = Some n -> x = y.
Proof.
  assert (forall s m, canonicalId s = true -> numericIdentifier s = Some m ->
            forallb is_digit s = true /\ digits_val 0 s = Some m /\ s <> [] /\
            (length s = 1 \/ head s <> Some "0"%char)) as Hc.
  { intros s m. unfold canonicalId. intros Hs Hn. rewrite Hn in Hs.
    apply andb_true_iff in Hs as [Ds Hs]. unfold numericIdentifier in Hn.
    destruct (Atoi s) as [k|] eqn:E; [|done]. case_match; simplify_eq.
    destruct (Atoi_digits s m Ds E) as [Hv Hne]. do 3 (split; [done|]).
    apply orb_true_iff in Hs as [Hl%bool_decide_eq_true|Hh]; [by left|right].
    apply negb_true_iff, is_byte_false in Hh. destruct s as [|c s]; [done|]. simpl in *. congruence. }
  intros Cx Cy Nx Ny.
  destruct (Hc x n Cx Nx) as (Dx & Vx & Ex & Lx). destruct (Hc y n Cy Ny) as (Dy & Vy & Ey & Ly).
  by apply (digits_canonical_inj x y n).
Qed.

(** The identifier order as a three-way comparison. *)
Definition idc (x y : bytes) : comparison :=
  match numericIdentifier x, numericIdentifier y with
  | Some an, Some bn => (an ?= bn)%Z
  | Some _, None => Lt
  | None, Some _ => Gt
  | None, None => bytes_compare x y
  end.

Lemma idc_refl x : idc x x = Eq.
Proof. unfold idc. destruct (numericIdentifier x); [apply Z.compare_refl | apply bytes_compare_refl]. Qed.

Lemma idc_antisym x y : idc y x = CompOpp (idc x y).
Proof.
  unfold idc. destruct (numericIdentifier x), (numericIdentifier y); try done;
    [apply Z.compare_antisym | apply bytes_compare_antisym].
Qed.

Lemma idc_eq x y : canonicalId x = true -> canonicalId y = true -> idc x y = Eq -> x = y.
Proof.
  unfold idc. intros Cx Cy.
  destruct (numericIdentifier x) eqn:Ex, (numericIdentifier y) eqn:Ey; try done.
  - intros ->%Z.compare_eq_iff. by eapply canonicalId_inj.
  - apply bytes_compare_eq.
Qed.

Lemma idc_trans x y z : idc x y = Lt -> idc y z = Lt -> idc x z = Lt.
Proof.
  unfold idc. destruct (numericIdentifier x), (numericIdentifier y), (numericIdentifier z); try done.
  - rewrite !Z.compare_lt_iff. intros. lia.
  - apply bytes_compare_trans.
Qed.

Lemma compareIdents_lex xs ys :
  Forall (fun x => canonicalId x = true) xs -> Forall (fun x => canonicalId x = true) ys ->
  compareIdents xs ys = sgn (lex idc xs ys).
Proof.
  revert ys. induction xs as [|x xs IH]; intros [|y ys]; simpl; try done.
  rewrite !Forall_cons. intros [Cx Hx] [Cy Hy]. case_bool_decide as Hxy.
  - subst. rewrite idc_refl. by apply IH.
  - destruct (idc x y) eqn:E; [by apply idc_eq in E| |];
      unfold compareIdentifiers; unfold idc in E;
      destruct (numericIdentifier x) as [n|], (numericIdentifier y) as [m|]; try done.
    + rewrite Z.compare_lt_iff in E. destruct (Z.ltb_spec m n); [lia|done].
    + by rewrite E.
    + rewrite Z.compare_gt_iff in E. destruct (Z.ltb_spec m n); [done|lia].
    + by rewrite E.
Qed.

(** The order of whole versions: cores, then "no pre-release" on top, then
    the identifier lists. *)
Definition ccmp (a b : Core) : comparison :=
  let '(a0, a1, a2) := a in let '(b0, b1, b2) := b in lex Z.compare [a0; a1; a2] [b0; b1; b2].

Definition prec (a b : bytes) : comparison :=
  if bool_decide (a = b) then Eq
  else if bool_decide (a = []) then Gt
  else if bool_decide (b = []) then Lt
  else lex idc (split dot a) (split dot b).

Definition vcmp (a b : Version) : comparison :=
  match ccmp (vCore a) (vCore b) with
  | Eq => prec (Pre a) (Pre b)
  | r => r
  end.

Lemma component_compare x y k :
  (if negb (x =? y)%Z then (if (y <? x)%Z then 1 else -1)%Z else k) =
  match (x ?= y)%Z with Eq => k | c => sgn c end.
Proof.
  destruct (Z.compare_spec x y), (Z.eqb_spec x y), (Z.ltb_spec y x); simpl; try lia; done.
Qed.

Lemma compareCore_ccmp a b : compareCore a b = sgn (ccmp a b).
Proof.
  destruct a as [[a0 a1] a2], b as [[b0 b1] b2]. unfold compareCore, ccmp. simpl.
  rewrite !component_compare.
  destruct (a0 ?= b0)%Z, (a1 ?= b1)%Z, (a2 ?= b2)%Z; done.
Qed.

Lemma canonical_Forall v : canonical v = true -> Forall (fun x => canonicalId x = true) (split dot (Pre v)).
Proof. intros H. apply Forall_forall. by apply forallb_elem_of. Qed.

Lemma Compare_vcmp a b : canonical a = true -> canonical b = true -> Compare a b = sgn (vcmp a b).
Proof.
  intros Ca%canonical_Forall Cb%canonical_Forall. unfold Compare, vcmp, prec.
  rewrite compareCore_ccmp. destruct (ccmp (vCore a) (vCore b)); simpl; try done.
  repeat (case_bool_decide; [done|]). by apply compareIdents_lex.
Qed.

Lemma ccmp_eq a b : ccmp a b = Eq -> a = b.
Proof.
  destruct a as [[a0 a1] a2], b as [[b0 b1] b2]. unfold ccmp. intros H.
  apply lex_eq in H; [naive_solver|]. intros x y _ _. apply Z.compare_eq.
Qed.
Lemma ccmp_antisym a b : ccmp b a = CompOpp (ccmp a b).
Proof.
  destruct a as [[a0 a1] a2], b as [[b0 b1] b2]. apply lex_antisym.
  intros; apply Z.compare_antisym.
Qed.
Lemma ccmp_trans a b d : ccmp a b = Lt -> ccmp b d = Lt -> ccmp a d = Lt.
Proof.
  destruct a as [[a0 a1] a2], b as [[b0 b1] b2], d as [[d0 d1] d2].
  apply (lex_lt_trans (fun _ => True)); try (apply Forall_true; done).
  - apply Z.compare_refl.
  - intros x y _ _. apply Z.compare_eq.
  - intros x y z _ _ _. rewrite !Z.compare_lt_iff. intros. lia.
Qed.

Lemma prec_antisym a b : prec b a = CompOpp (prec a b).
Proof.
  unfold prec. repeat case_bool_decide; simplify_eq; try done.
  apply lex_antisym. intros; apply idc_antisym.
Qed.
Lemma prec_eq a b :
  Forall (fun x => canonicalId x = true) (split dot a) ->
  Forall (fun x => canonicalId x = true) (split dot b) -> prec a b = Eq -> a = b.
Proof.
  rewrite !Forall_forall. intros Ca Cb. unfold prec. repeat (case_bool_decide; [done|]).
  intros Hl. rewrite <- (join_split dot a), <- (join_split dot b). f_equal.
  revert Hl. apply lex_eq. intros x y Hx Hy. by apply idc_eq; [apply Ca|apply Cb].
Qed.
Lemma prec_trans a b d :
  Forall (fun x => canonicalId x = true) (split dot a) ->
  Forall (fun x => canonicalId x = true) (split dot b) ->
  Forall (fun x => canonicalId x = true) (split dot d) ->
  prec a b = Lt -> prec b d = Lt -> prec a d = Lt.
Proof.
  intros Ca Cb Cd Hab Hbd.
  assert (a <> d).
  { intros <-. rewrite prec_antisym, Hab in Hbd. done. }
  unfold prec in *. repeat case_bool_decide; simplify_eq; try done.
  revert Hab Hbd. eapply (lex_lt_trans (fun x => canonicalId x = true)); eauto.
  - apply idc_refl.
  - apply idc_eq.
  - intros x y z _ _ _. apply idc_trans.
Qed.

Lemma vcmp_antisym a b : vcmp b a = CompOpp (vcmp a b).
Proof.
  unfold vcmp. rewrite (ccmp_antisym (vCore a)).
  destruct (ccmp (vCore a) (vCore b)); simpl; try done. apply prec_antisym.
Qed.
Lemma ccmp_refl a : ccmp a a = Eq.
Proof. destruct a as [[a0 a1] a2]. apply lex_refl, Z.compare_refl. Qed.
Lemma vcmp_eq a b : canonical a = true -> canonical b = true -> vcmp a b = Eq <-> a = b.
Proof.
  intros Ca%canonical_Forall Cb%canonical_Forall. unfold vcmp. split.
  - destruct (ccmp (vCore a) (vCore b)) eqn:E; try done.
    intros H%prec_eq; [|done..]. apply ccmp_eq in E. destruct a, b; simpl in *; congruence.
  - intros ->. rewrite ccmp_refl. unfold prec. by case_bool_decide.
Qed.
Lemma vcmp_trans a b d :
  canonical a = true -> canonical b = true -> canonical d = true ->
  vcmp a b = Lt -> vcmp b d = Lt -> vcmp a d = Lt.
Proof.
  intros Ca%canonical_Forall Cb%canonical_Forall Cd%canonical_Forall. unfold vcmp.
  destruct (ccmp (vCore a) (vCore b)) eqn:E1; destruct (ccmp (vCore b) (vCore d)) eqn:E2; try done.
  - apply ccmp_eq in E1. apply ccmp_eq in E2. rewrite E1, E2, ccmp_refl. by apply prec_trans.
  - apply ccmp_eq in E1. by rewrite E1, E2.
  - apply ccmp_eq in E2. by rewrite <- E2, E1.
  - by rewrite (ccmp_trans _ _ _ E1 E2).
Qed.

Lemma canonicalId_nil : canonicalId [] = true.
Proof. reflexivity. Qed.

(** ** Properties *)

(** On versions whose identifiers are canonical (no leading zeros),
    [Compare] is a total order: it is zero exactly on equal versions, swapping
    the arguments flips its sign, and "below" composes. *)
Theorem Compare_total_order (a b d : Version) :
  canonical a = true -> canonical b = true -> canonical d = true ->
  (Compare a b = 0 <-> a = b)%Z /\
  (Compare b a = - Compare a b)%Z /\
  (Compare a b < 0 -> Compare b d < 0 -> Compare a d < 0)%Z.
Proof.
  intros Ca Cb Cd. rewrite !Compare_vcmp by done. split; [|split].
  - rewrite sgn_zero. by apply vcmp_eq.
  - by rewrite vcmp_antisym, sgn_opp.
  - assert (forall c, (sgn c < 0)%Z <-> c = Lt) as Hs by (intros []; simpl; split; intros; try lia; done).
    rewrite !Hs. by apply vcmp_trans.
Qed.

Example Compare_total_order_witness :
  let v1 := mkVersion (2, 0, 14)%Z (L "beta.2") in
  let v2 := mkVersion (2, 0, 14)%Z (L "beta.11") in
  let v3 := mkVersion (2, 0, 14)%Z [] in
  (Compare v1 v2 = 0 <-> v1 = v2)%Z /\ (Compare v2 v1 = - Compare v1 v2)%Z /\
  (Compare v1 v2 < 0 -> Compare v2 v3 < 0 -> Compare v1 v3 < 0)%Z.
Proof. apply Compare_total_order; vm_compute; reflexivity. Defined.

(** Outside canonical identifiers the order is not antisymmetric: each of
    [1.0.0-01] and [1.0.0-1] is reported below the other. *)
Theorem Compare_leading_zero :
  exists a b, ParseVersion (L "1.0.0-01") = Some a /\ ParseVersion (L "1.0.0-1") = Some b /\
    (Compare a b < 0)%Z /\ (Compare b a < 0)%Z.
Proof. do 2 eexists. repeat split; vm_compute; reflexivity. Qed.

(** [Atoi]'s sign is let through: the "strict" [Parse] reads [+1.-0.3]. *)
Theorem Parse_signed : Parse (L "+1.-0.3") = Some (1, 0, 3)%Z.
Proof. vm_compute. reflexivity. Qed.
