(* ===== verification/Resolver.v ===== *)
(** internal/mods/resolver: the dependency closure of a mod install (diamond
    resolution, cycle detection, held packages) and the check of the edges a
    plan leaves unmet. *)
From S2P Require Import Prelude GoBytes Semver.

(** ** Data *)

Record Request := mkRequest { rFullName : bytes; rVersion : bytes }.

Record Node := mkNode { nFullName : bytes; nVersion : bytes; nTransitive : bool; nNoOp : bool }.

Definition Closure : Type := list Node.

(** What the caller supplies: the cached index and the installed set. *)
Class Index := {
  Dependencies : bytes -> bytes -> option (list bytes);
  Installed : bytes -> option bytes;
  Held : bytes -> bool
}.

Inductive Error :=
| HeldError (fullName version requested : bytes)
| UnresolvedError (fullName version : bytes)
| MalformedDependencyError (fullName version dependency : bytes)
| BadVersionError (fullName version : bytes)
| CycleError (cycle : list bytes).

(** Recursive calls run on fuel; [None] is running out of it. *)
Definition M (A : Type) : Type := option (result Error A).
Definition mret {A} (a : A) : M A := Some (Ok a).
Definition mfail {A} (e : Error) : M A := Some (Err e).
Definition mbind {A B} (m : M A) (k : A -> M B) : M B :=
  match m with
  | None => None
  | Some (Err e) => Some (Err e)
  | Some (Ok a) => k a
  end.

Fixpoint mfold {A B} (f : A -> B -> M A) (l : list B) (a : A) : M A :=
  match l with
  | [] => mret a
  | x :: l' => mbind (f a x) (mfold f l')
  end.

(** ** Dependency idents *)

Definition digits1 (s : bytes) : bool := negb (bool_decide (s = [])) && forallb is_digit s.

(** The second group of [depPattern]: \d+\.\d+\.\d+(?:-[0-9A-Za-z.-]+)? *)
Definition versionShape (s : bytes) : bool :=
  let coreOk core := match split dot core with
                     | [a; b; c] => digits1 a && digits1 b && digits1 c
                     | _ => false
                     end in
  match cut dash s with
  | None => coreOk s
  | Some (core, pre) =>
      coreOk core && negb (bool_decide (pre = [])) && forallb (fun c => preChar c || is_byte dot c) pre
  end.

(** The greedy first group takes the last dash that leaves a version. *)
Fixpoint depSplit (seen s : bytes) : option (bytes * bytes) :=
  match s with
  | [] => None
  | c :: s' =>
      match depSplit (c :: seen) s' with
      | Some r => Some r
      | None =>
          if is_byte dash c && negb (bool_decide (seen = [])) && forallb (fun x => negb (is_byte nl x)) seen
             && versionShape s'
          then Some (rev seen, s')
          else None
      end
  end.

(** [ParseDependency]. *)
Definition ParseDependency (ident : bytes) : option (bytes * bytes) := depSplit [] ident.

(** [higher]. *)
Definition higher (a b : bytes) : bool :=
  match ParseVersion a, ParseVersion b with
  | Some pa, Some pb => (0 <? Compare pa pb)%Z
  | _, _ => false
  end.

(** ** The resolve state *)

Record resolveState := mkState {
  highest : gmap bytes bytes;
  fixed : gmap bytes bytes;
  explicit : gset bytes;
  expanded : gset bytes;
  order : list bytes
}.

Definition key (fullName version : bytes) : bytes := fullName ++ L "@" ++ version.

Definition recordHighest (s : resolveState) (fullName version : bytes) : resolveState :=
  match highest s !! fullName with
  | None => mkState (<[fullName := version]> (highest s)) (fixed s) (explicit s) (expanded s) (order s ++ [fullName])
  | Some cur =>
      if higher version cur
      then mkState (<[fullName := version]> (highest s)) (fixed s) (explicit s) (expanded s) (order s)
      else s
  end.

Definition setFixed (s : resolveState) (fullName version : bytes) : resolveState :=
  mkState (highest s) (<[fullName := version]> (fixed s)) (explicit s) (expanded s) (order s).

Definition setExplicit (s : resolveState) (fullName : bytes) : resolveState :=
  mkState (highest s) (fixed s) ({[fullName]} ∪ explicit s) (expanded s) (order s).

Definition setExpanded (s : resolveState) (k : bytes) : resolveState :=
  mkState (highest s) (fixed s) (explicit s) ({[k]} ∪ expanded s) (order s).

(** The version the closure holds a package at; a Go map yields [""] for an
    absent key. *)
Definition chosen (s : resolveState) (fullName : bytes) : bytes :=
  match fixed s !! fullName with
  | Some v => v
  | None => default [] (highest s !! fullName)
  end.

Definition appendPath (path : list bytes) (fullName : bytes) : list bytes := path ++ [fullName].

Definition checkCycle (path : list bytes) (fullName : bytes) : option Error :=
  if bool_decide (fullName ∈ path) then Some (CycleError (appendPath path fullName)) else None.

(** ** Resolve *)

Section Resolve.
Context `{Index}.

(** [installedSatisfies]: [None] is not installed or too low. *)
Definition installedSatisfies (fullName version : bytes) : result Error (option bytes) :=
  match Installed fullName with
  | None => Ok None
  | Some installed =>
      match ParseVersion installed with
      | None => Err (BadVersionError fullName installed)
      | Some _ => Ok (if higher version installed then None else Some installed)
      end
  end.

(** [walk] visits one dependency edge; [exp] is the recursive [expand]. *)
Definition walk (exp : bytes -> bytes -> list bytes -> resolveState -> M resolveState)
    (fullName version : bytes) (path : list bytes) (s : resolveState) : M resolveState :=
  match checkCycle path fullName with
  | Some e => mfail e
  | None =>
      match fixed s !! fullName with
      | Some _ => mret s
      | None =>
          match (if Held fullName then Installed fullName else None) with
          | Some installed => mret (recordHighest (setFixed s fullName installed) fullName installed)
          | None =>
              match installedSatisfies fullName version with
              | Err e => mfail e
              | Ok (Some installed) => mret (recordHighest s fullName installed)
              | Ok None => exp fullName version path s
              end
          end
      end
  end.

(** [expand] looks the exact version up, records it, and walks its edges once
    per version. *)
Fixpoint expand (fuel : nat) (fullName version : bytes) (path : list bytes) (s : resolveState)
  : M resolveState :=
  match fuel with
  | O => None
  | S n =>
      match Dependencies fullName version with
      | None => mfail (UnresolvedError fullName version)
      | Some deps =>
          let s1 := recordHighest s fullName version in
          if bool_decide (key fullName version ∈ expanded s1) then mret s1
          else
            mfold (fun st dep =>
                     match ParseDependency dep with
                     | None => mfail (MalformedDependencyError fullName version dep)
                     | Some (dn, dv) => walk (expand n) dn dv (appendPath path fullName) st
                     end)
                  deps (setExpanded s1 (key fullName version))
      end
  end.

(** The first loop of [Resolve]: every request is checked and pinned. *)
Definition pinRequest (s : resolveState) (req : Request) : M resolveState :=
  match ParseVersion (rVersion req) with
  | None => mfail (BadVersionError (rFullName req) (rVersion req))
  | Some _ =>
      let pinned := setFixed (setExplicit s (rFullName req)) (rFullName req) (rVersion req) in
      match Installed (rFullName req) with
      | None => mret pinned
      | Some installed =>
          match ParseVersion installed with
          | None => mfail (BadVersionError (rFullName req) installed)
          | Some _ =>
              if Held (rFullName req) && negb (bool_decide (installed = rVersion req))
              then mfail (HeldError (rFullName req) installed (rVersion req))
              else mret pinned
          end
      end
  end.

(** The second loop: an installed version is recorded, any other expanded. *)
Definition expandRequest (fuel : nat) (s : resolveState) (req : Request) : M resolveState :=
  if bool_decide (Installed (rFullName req) = Some (rVersion req))
  then mret (recordHighest s (rFullName req) (rVersion req))
  else expand fuel (rFullName req) (rVersion req) [] s.

Definition emptyState : resolveState := mkState ∅ ∅ ∅ ∅ [].

(** [reachable]'s [visit]. *)
Fixpoint visit (fuel : nat) (s : resolveState) (seen : gset bytes) (fullName : bytes) : option (gset bytes) :=
  match fuel with
  | O => None
  | S n =>
      if bool_decide (fullName ∈ seen) then Some seen
      else
        let seen1 := {[fullName]} ∪ seen in
        let version := chosen s fullName in
        if bool_decide (key fullName version ∈ expanded s) then
          foldl (fun acc dep =>
                   acc ≫= fun sn =>
                   match ParseDependency dep with
                   | Some (dn, _) => visit n s sn dn
                   | None => Some sn
                   end)
                (Some seen1) (default [] (Dependencies fullName version))
        else Some seen1
  end.

(** The set does not depend on the order the explicit names are visited in;
    Go ranges over a map, the model over its elements. *)
Definition reachable (fuel : nat) (s : resolveState) : option (gset bytes) :=
  foldl (fun acc fn => acc ≫= fun seen => visit fuel s seen fn) (Some ∅) (elements (explicit s)).

Definition mkNodeOf (s : resolveState) (fn : bytes) : Node :=
  mkNode fn (chosen s fn) (negb (bool_decide (fn ∈ explicit s)))
         (bool_decide (Installed fn = Some (chosen s fn))).

(** [closure]: the kept packages in discovery order. *)
Definition closure (fuel : nat) (s : resolveState) : option Closure :=
  keep ← reachable fuel s;
  Some (map (mkNodeOf s) (filter (fun fn => fn ∈ keep) (order s))).

(** [Resolve]. *)
Definition Resolve (fuel : nat) (requests : list Request) : M Closure :=
  mbind (mfold pinRequest requests emptyState) (fun s1 =>
  mbind (mfold (expandRequest fuel) requests s1) (fun s2 =>
  match closure fuel s2 with
  | Some c => mret c
  | None => None
  end)).

(** ** Check *)

Record Conflict := mkConflict {
  cFullName : bytes; cVersion : bytes; cDependency : bytes; cRequires : bytes; cHave : bytes
}.

Definition bytes_le (a b : bytes) : Prop := bytes_compare a b <> Gt.
#[global] Instance bytes_le_dec a b : Decision (bytes_le a b).
Proof. unfold bytes_le. apply _. Defined.

(** The conflicts one planned package contributes. *)
Definition checkPackage (planned : gmap bytes bytes) (changed : gset bytes) (name : bytes) : list Conflict :=
  let version := default [] (planned !! name) in
  match Dependencies name version with
  | None => []
  | Some deps =>
      omap (fun dep =>
        match ParseDependency dep with
        | None => None
        | Some (depName, depVersion) =>
            if negb (bool_decide (name ∈ changed)) && negb (bool_decide (depName ∈ changed)) then None
            else match planned !! depName with
                 | Some have =>
                     if negb (higher depVersion have) then None
                     else Some (mkConflict name version depName depVersion have)
                 | None => Some (mkConflict name version depName depVersion [])
                 end
        end) deps
  end.

(** [Check]: packages in sorted order, edges in their listed order. *)
Definition Check (planned : gmap bytes bytes) (changed : gset bytes) : list Conflict :=
  mjoin (map (checkPackage planned changed) (merge_sort bytes_le (elements (dom planned)))).

End Resolve.

(** ** The error monad *)

Lemma mbind_Ok {A B} (m : M A) (k : A -> M B) b :
  mbind m k = Some (Ok b) -> exists a, m = Some (Ok a) /\ k a = Some (Ok b).
Proof. destruct m as [[a|e]|]; simpl; [eauto|done|done]. Qed.

Lemma mfold_total {A B} (f : A -> B -> M A) l a :
  (forall a x, x ∈ l -> f a x <> None) -> mfold f l a <> None.
Proof.
  revert a. induction l as [|x l IH]; intros a Hf; simpl; [done|].
  pose proof (Hf a x ltac:(by left)). destruct (f a x) as [[b|e]|]; [|done|done].
  simpl. apply IH. intros c y Hy. apply Hf. by right.
Qed.

(** An invariant [P] and a relation [R] that every step of a fold keeps hold
    over the whole fold; [Q] collects what each element leaves behind. *)
Lemma mfold_rel {A B} (P : A -> Prop) (R : A -> A -> Prop) (Q : B -> A -> Prop) (f : A -> B -> M A) l a a' :
  (forall x, P x -> R x x) -> (forall x y z, R x y -> R y z -> R x z) ->
  (forall q x y, P x -> P y -> Q q x -> R x y -> Q q y) ->
  (forall a x b, x ∈ l -> P a -> f a x = Some (Ok b) -> P b /\ R a b /\ Q x b) ->
  P a -> mfold f l a = Some (Ok a') -> P a' /\ R a a' /\ forall x, x ∈ l -> Q x a'.
Proof.
  intros Hr Ht Hm. revert a. induction l as [|x l IH]; intros a Hf Ha H.
  - injection H as ->. split; [done|]. split; [by apply Hr|]. intros x Hx. by apply not_elem_of_nil in Hx.
  - apply mbind_Ok in H as (b & Hb & H).
    destruct (Hf a x b ltac:(by left) Ha Hb) as (Pb & Hab & Hxb).
    destruct (IH b) as (Pa' & Hba' & Hl); [|done|done|].
    { intros c y d Hy. apply Hf. by right. }
    split; [done|]. split; [by eapply Ht|].
    intros y Hy. apply elem_of_cons in Hy as [->|Hy]; [by apply (Hm x b a')|by apply Hl].
Qed.

Lemma mfold_inv {A B} (P : A -> Prop) (f : A -> B -> M A) l a a' :
  (forall a x b, x ∈ l -> P a -> f a x = Some (Ok b) -> P b) ->
  P a -> mfold f l a = Some (Ok a') -> P a'.
Proof.
  intros Hf Ha H. eapply (mfold_rel P (fun _ _ => True) (fun _ _ => True)) in H; naive_solver.
Qed.

(** ** Termination *)

Section Termination.
Context `{Index} (U : list bytes).

(** Every dependency the index names is one of the packages [U]. *)
Definition closedUnder : Prop :=
  forall fn ver deps dep dn dv, Dependencies fn ver = Some deps -> dep ∈ deps ->
    ParseDependency dep = Some (dn, dv) -> dn ∈ U.
Hypothesis Hclosed : closedUnder.

Lemma walk_total exp fn ver path s :
  (fn ∉ path -> exp fn ver path s <> None) -> walk exp fn ver path s <> None.
Proof.
  unfold walk, checkCycle. case_bool_decide; [done|]. intros He.
  repeat case_match; first [done | by apply He].
Qed.

Lemma expand_total fuel fn ver path s :
  NoDup path -> (forall x, x ∈ path -> x ∈ U) -> fn ∉ path -> fn ∈ U ->
  (length U < fuel + length path)%nat -> expand fuel fn ver path s <> None.
Proof.
  revert fn ver path s. induction fuel as [|n IH]; intros fn ver path s Hnd HU Hfn HfnU Hlen; simpl.
  - assert (length (fn :: path) <= length U)%nat; [|simpl in *; lia].
    apply NoDup_length_le; [by constructor|]. intros x. rewrite elem_of_cons. naive_solver.
  - destruct (Dependencies fn ver) as [deps|] eqn:Hd; [|done]. case_bool_decide; [done|].
    apply mfold_total. intros st dep Hdep.
    destruct (ParseDependency dep) as [[dn dv]|] eqn:Hp; [|done].
    apply walk_total. intros Hdn. apply IH; unfold appendPath in *.
    + apply NoDup_app. split; [done|]. split; [|apply NoDup_singleton].
      intros x Hx. rewrite list_elem_of_singleton. by intros ->.
    + intros x. rewrite elem_of_app, list_elem_of_singleton. naive_solver.
    + done.
    + eapply Hclosed; eauto.
    + rewrite length_app. simpl. lia.
Qed.

Lemma visit_total fuel s seen fn :
  fn ∈ U -> (size (list_to_set U ∖ seen : gset bytes) < fuel)%nat ->
  exists seen', visit fuel s seen fn = Some seen' /\ seen ⊆ seen'.
Proof.
  revert seen fn. induction fuel as [|n IH]; intros seen fn Hfn Hsz; [lia|]. simpl.
  case_bool_decide as Hin; [eauto|].
  assert (size (list_to_set U ∖ ({[fn]} ∪ seen) : gset bytes) < n)%nat as Hsz1.
  { eapply Nat.lt_le_trans; [|apply Nat.lt_succ_r, Hsz].
    apply subset_size. split; [set_solver|]. intros Hsub.
    assert (fn ∈ (list_to_set U ∖ seen : gset bytes)) as Hf by (set_solver).
    apply Hsub in Hf. set_solver. }
  case_bool_decide; [|eexists; split; [done|set_solver]].
  assert (forall deps sn, {[fn]} ∪ seen ⊆ sn -> (forall dep dn dv, dep ∈ deps ->
            ParseDependency dep = Some (dn, dv) -> dn ∈ U) ->
          exists seen', foldl (fun acc dep => acc ≫= fun sn =>
             match ParseDependency dep with Some (dn, _) => visit n s sn dn | None => Some sn end)
             (Some sn) deps = Some seen' /\ sn ⊆ seen') as Hloop.
  { induction deps as [|dep deps IHd]; intros sn Hsn Hdeps; simpl; [eauto|].
    destruct (ParseDependency dep) as [[dn dv]|] eqn:Hp.
    - destruct (IH sn dn) as (sn' & -> & Hsub).
      + eapply Hdeps; [by left|done].
      + eapply Nat.le_lt_trans; [|exact Hsz1]. apply subseteq_size. set_solver.
      + destruct (IHd sn') as (sn'' & -> & ?); [set_solver| |].
        { intros ???? ?. eapply Hdeps; [by right|done]. }
        eexists; split; [done|]. by etrans.
    - apply IHd; [done|]. intros ???? ?. eapply Hdeps; [by right|done]. }
  destruct (Hloop (default [] (Dependencies fn (chosen s fn))) ({[fn]} ∪ seen)) as (s' & -> & Hs').
  - done.
  - intros dep dn dv Hdep Hp. destruct (Dependencies fn (chosen s fn)) as [deps|] eqn:Hd; simpl in Hdep.
    + eapply Hclosed; eauto.
    + by apply not_elem_of_nil in Hdep.
  - eexists; split; [done|]. set_solver.
Qed.

Lemma reachable_total fuel s :
  (forall x, x ∈ explicit s -> x ∈ U) -> (length U < fuel)%nat -> is_Some (reachable fuel s).
Proof.
  intros He Hlen. unfold reachable.
  assert (forall l seen, (forall x, x ∈ l -> x ∈ U) ->
            is_Some (foldl (fun acc fn => acc ≫= fun sn => visit fuel s sn fn) (Some seen) l)) as Hl.
  { induction l as [|x l IH]; intros seen Hx; simpl; [eauto|].
    destruct (visit_total fuel s seen x) as (seen' & -> & _).
    - apply Hx. by left.
    - eapply Nat.le_lt_trans; [|exact Hlen].
      etrans; [apply (subseteq_size _ (list_to_set U)); set_solver | apply size_list_to_set_le].
    - apply IH. intros y Hy. apply Hx. by right. }
  apply Hl. intros x Hx. apply He. by apply elem_of_elements.
Qed.
End Termination.

(** ** Versions the resolver compares *)

(** A version whose text is canonical: the order on these is total. *)
Definition okv (v : bytes) : Prop := exists p, ParseVersion v = Some p /\ canonical p = true.

Lemma higher_spec a b pa pb :
  ParseVersion a = Some pa -> ParseVersion b = Some pb -> canonical pa = true -> canonical pb = true ->
  higher a b = true <-> vcmp pa pb = Gt.
Proof.
  intros Ha Hb Ca Cb. unfold higher. rewrite Ha, Hb, Compare_vcmp, Z.ltb_lt by done. apply sgn_pos.
Qed.

Lemma higher_asym a b : okv a -> okv b -> higher a b = true -> higher b a = false.
Proof.
  intros (pa & Ha & Ca) (pb & Hb & Cb) H. rewrite (higher_spec a b pa pb) in H by done.
  apply not_true_is_false. rewrite (higher_spec b a pb pa) by done. by rewrite vcmp_antisym, H.
Qed.

Lemma higher_refl a : okv a -> higher a a = false.
Proof.
  intros Ha. destruct (higher a a) eqn:E; [|done]. by rewrite (higher_asym a a) in E.
Qed.

Lemma not_higher_trans a b d :
  okv a -> okv b -> okv d -> higher a b = false -> higher b d = false -> higher a d = false.
Proof.
  intros (pa & Ha & Ca) (pb & Hb & Cb) (pd & Hd & Cd) Hab Hbd. apply not_true_is_false.
  rewrite <- not_true_iff_false in Hab, Hbd.
  rewrite (higher_spec a b pa pb) in Hab by done. rewrite (higher_spec b d pb pd) in Hbd by done.
  rewrite (higher_spec a d pa pd) by done. intros Had.
  assert (vcmp pd pa = Lt) as Hda by (by rewrite vcmp_antisym, Had).
  destruct (vcmp pa pb) eqn:E1; [|clear Hab|done].
  - apply vcmp_eq in E1 as ->; done.
  - pose proof (vcmp_trans pd pa pb Cd Ca Cb Hda E1) as E2. apply Hbd. by rewrite vcmp_antisym, E2.
Qed.

(** A parsed version holds no [@], so the text of a [key] determines it. *)
Lemma Atoi_chars s n c : Atoi s = Some n -> c ∈ s -> is_digit c = true \/ c = dash \/ c = "+"%char.
Proof.
  assert (forall s acc m, digits_val acc s = Some m -> c ∈ s -> is_digit c = true) as Hd.
  { clear. induction s as [|x s IH]; intros acc m Hm Hc; [by apply not_elem_of_nil in Hc|].
    simpl in Hm. destruct (is_digit x) eqn:E; [|done]. apply elem_of_cons in Hc as [->|]; [done|by eapply IH]. }
  unfold Atoi. destruct s as [|x s]; [done|].
  destruct (is_byte "-"%char x) eqn:E1; [|destruct (is_byte "+"%char x) eqn:E2].
  1, 2: apply is_byte_spec in E1 || apply is_byte_spec in E2; subst;
    destruct s as [|y s]; [done|]; destruct (digits_val 0 (y :: s)) eqn:Ev; [|done];
    intros _ [->|Hc]%elem_of_cons; [unfold dash; tauto|left; by eapply Hd].
  destruct (digits_val 0 (x :: s)) eqn:Ev; [|done]. intros _ Hc. left. by eapply Hd.
Qed.

Lemma join_chars sep l c : c ∈ join sep l -> c ∈ sep \/ exists w, w ∈ l /\ c ∈ w.
Proof.
  induction l as [|w l IH]; [by intros ?%not_elem_of_nil|]. destruct l as [|v l].
  - intros Hc. right. exists w. split; [by left|done].
  - change (join sep (w :: v :: l)) with (w ++ sep ++ join sep (v :: l)).
    rewrite !elem_of_app. intros [Hc|[Hc|Hc]]; [right; exists w; split; [by left|done]|by left|].
    destruct (IH Hc) as [?|(u & Hu & ?)]; [by left|]. right. exists u. split; [by right|done].
Qed.

Lemma Parse_chars s p c : Parse s = Some p -> c ∈ s -> is_digit c = true \/ c = dash \/ c = "+"%char \/ c = dot.
Proof.
  intros Hp Hc. rewrite <- (join_split dot s) in Hc. unfold Parse in Hp.
  apply join_chars in Hc as [Hc%list_elem_of_singleton|(w & Hw & Hc)]; [tauto|].
  assert (exists n, Atoi w = Some n) as [n Hn].
  { destruct (split dot s) as [|p0 [|p1 [|p2 [|]]]]; try done.
    unfold component in Hp. rewrite !elem_of_cons in Hw.
    destruct (Atoi p0) eqn:?, (Atoi p1) eqn:?, (Atoi p2) eqn:?; repeat case_match; try done.
    destruct Hw as [->|[->|[->|Hw]]]; eauto. by apply not_elem_of_nil in Hw. }
  destruct (Atoi_chars w n c Hn Hc) as [|[|]]; tauto.
Qed.

Lemma ParseVersion_no_at v p : ParseVersion v = Some p -> "@"%char ∉ v.
Proof.
  assert (forall s q, Parse s = Some q -> "@"%char ∉ s) as Hp.
  { intros s q Hq Hc. destruct (Parse_chars s q _ Hq Hc) as [H|[H|[H|H]]]; by vm_compute in H. }
  unfold ParseVersion. destruct (cut dash v) as [[core pre]|] eqn:Hc.
  - apply cut_Some in Hc as [-> _]. destruct (Parse core) eqn:Hq; [|done].
    destruct (validPreRelease pre) eqn:Hv; [|done]. intros _.
    rewrite elem_of_app, elem_of_cons. intros [Hc|[Hc|Hc]]; [by eapply Hp|done|].
    rewrite <- (join_split dot pre) in Hc.
    apply join_chars in Hc as [Hc%list_elem_of_singleton|(w & Hw & Hc)]; [done|].
    unfold validPreRelease in Hv. rewrite forallb_elem_of in Hv.
    apply Hv, andb_true_iff in Hw as [_ Hw]. rewrite forallb_elem_of in Hw. by apply Hw in Hc.
  - destruct (Parse v) eqn:Hq; [|done]. intros _. by eapply Hp.
Qed.

Lemma key_inj fn v fn' v' : okv v -> okv v' -> key fn v = key fn' v' -> fn = fn' /\ v = v'.
Proof.
  intros (p & Hp%ParseVersion_no_at & _) (p' & Hp'%ParseVersion_no_at & _) Hk.
  assert (forall a x : bytes, "@"%char ∉ x ->
            cutLast "@"%char (a ++ L "@" ++ x) = Some (a, x)) as Hcut.
  { clear. intros a x Hx. assert (cutLast "@"%char x = None) as Hn.
    { induction x as [|c x IH]; [done|]. rewrite not_elem_of_cons in Hx. destruct Hx as [Hc Hx].
      simpl. rewrite (IH Hx). by rewrite (proj2 (is_byte_false _ _)). }
    induction a as [|c a IH]; simpl in *; [by rewrite Hn|]. by rewrite IH. }
  unfold key in Hk.
  assert (Some (fn, v) = Some (fn', v')) as [= -> ->]; [|done].
  rewrite <- (Hcut fn v), <- (Hcut fn' v') by done.
  by rewrite Hk.
Qed.

(** ** What a resolve run maintains *)

Section Invariant.
Context `{Index}.

(** Every version the index names or an instance holds is canonical. *)
Record CanonicalIndex : Prop := {
  deps_canonical fn ver deps dep dn dv : Dependencies fn ver = Some deps -> dep ∈ deps ->
    ParseDependency dep = Some (dn, dv) -> okv dv;
  installed_canonical fn v : Installed fn = Some v -> okv v
}.

(** The facts about the version order hold under [C]; the rest always does. *)
Context (C : Prop) (HC : C -> CanonicalIndex).
Definition okc (v : bytes) : Prop := C -> okv v.
Definition lec (v w : bytes) : Prop := C -> higher v w = false.

Record inv (s : resolveState) : Prop := {
  inv_ok fn v : highest s !! fn = Some v -> okc v;
  inv_order fn : fn ∈ order s <-> is_Some (highest s !! fn);
  inv_nodup : NoDup (order s);
  inv_src fn v : highest s !! fn = Some v ->
    (key fn v ∈ expanded s /\ is_Some (Dependencies fn v)) \/ Installed fn = Some v;
  inv_fixed fn v : fixed s !! fn = Some v ->
    (Held fn = true /\ Installed fn = Some v /\ is_Some (highest s !! fn)) \/ fn ∈ explicit s;
  inv_held fn v : is_Some (highest s !! fn) \/ is_Some (fixed s !! fn) ->
    Held fn = true -> Installed fn = Some v -> fixed s !! fn = Some v
}.

Record ext (s s' : resolveState) : Prop := {
  ext_explicit : explicit s' = explicit s;
  ext_fixed : fixed s ⊆ fixed s';
  ext_expanded : expanded s ⊆ expanded s';
  ext_highest fn v : highest s !! fn = Some v -> exists v', highest s' !! fn = Some v' /\ lec v v'
}.

(** An edge is met: its target is pinned, or recorded at no lower a version. *)
Definition edge_ok (s : resolveState) (dn dv : bytes) : Prop :=
  is_Some (fixed s !! dn) \/ exists v, highest s !! dn = Some v /\ lec dv v.

Definition dep_ok (s : resolveState) (dep : bytes) : Prop :=
  exists dn dv, ParseDependency dep = Some (dn, dv) /\ okc dv /\ edge_ok s dn dv.

Definition edges_ok (s : resolveState) (fn ver : bytes) : Prop :=
  forall deps dep, Dependencies fn ver = Some deps -> dep ∈ deps -> dep_ok s dep.

Definition keys_ok (s s' : resolveState) : Prop :=
  forall k, k ∈ expanded s' -> k ∈ expanded s \/
    exists fn ver, k = key fn ver /\ okc ver /\ edges_ok s' fn ver.

Definition rel (s s' : resolveState) : Prop := inv s /\ inv s' /\ ext s s' /\ keys_ok s s'.

Definition heldcond (s : resolveState) (fn : bytes) : Prop :=
  forall v, Held fn = true -> Installed fn = Some v -> fixed s !! fn = Some v.

Lemma lec_refl v : okc v -> lec v v.
Proof. intros Hv HCc. by apply higher_refl, Hv. Qed.
Lemma lec_trans u v w : okc u -> okc v -> okc w -> lec u v -> lec v w -> lec u w.
Proof. intros Hu Hv Hw Huv Hvw HCc. eapply (not_higher_trans u v w); eauto. Qed.

Lemma ext_refl s : inv s -> ext s s.
Proof.
  intros Hi. split; try done. intros fn v Hv. exists v. split; [done|]. by eapply lec_refl, inv_ok.
Qed.
Lemma ext_trans s1 s2 s3 : inv s1 -> inv s2 -> inv s3 -> ext s1 s2 -> ext s2 s3 -> ext s1 s3.
Proof.
  intros I1 I2 I3 H12 H23. split.
  - by rewrite (ext_explicit _ _ H23), (ext_explicit _ _ H12).
  - etrans; [apply (ext_fixed _ _ H12)|apply (ext_fixed _ _ H23)].
  - etrans; [apply (ext_expanded _ _ H12)|apply (ext_expanded _ _ H23)].
  - intros fn v Hv. destruct (ext_highest _ _ H12 fn v Hv) as (v2 & Hv2 & L12).
    destruct (ext_highest _ _ H23 fn v2 Hv2) as (v3 & Hv3 & L23).
    exists v3. split; [done|]. eapply (lec_trans v v2 v3); eauto using inv_ok.
Qed.

Lemma dep_mono s s' dep : inv s -> inv s' -> ext s s' -> dep_ok s dep -> dep_ok s' dep.
Proof.
  intros Is Is' He (dn & dv & Hp & Hdv & Hedge). exists dn, dv. do 2 (split; [done|]).
  destruct Hedge as [[w Hw]|(v & Hv & Hle)].
  - left. exists w. by eapply lookup_weaken, ext_fixed.
  - right. destruct (ext_highest _ _ He dn v Hv) as (v' & Hv' & Hle'). exists v'. split; [done|].
    eapply (lec_trans dv v v'); eauto using inv_ok.
Qed.

Lemma rel_refl s : inv s -> rel s s.
Proof. intros Hi. repeat split; try apply Hi; try (by apply ext_refl). intros k Hk. by left. Qed.

Lemma rel_trans s1 s2 s3 : rel s1 s2 -> rel s2 s3 -> rel s1 s3.
Proof.
  intros (I1 & I2 & E12 & K12) (_ & I3 & E23 & K23). split; [done|]. split; [done|].
  split; [by apply (ext_trans s1 s2 s3)|]. intros k Hk. destruct (K23 k Hk) as [Hk2|?]; [|by right].
  destruct (K12 k Hk2) as [?|(fn & ver & -> & Hok & He)]; [by left|right].
  exists fn, ver. do 2 (split; [done|]). intros deps dep Hd Hin.
  eapply (dep_mono s2 s3); eauto.
Qed.

Definition withExpanded (s : resolveState) (E : gset bytes) : resolveState :=
  mkState (highest s) (fixed s) (explicit s) E (order s).

(** Recording keeps the higher version and appends a new name to the order. *)
Lemma recordHighest_spec s fn v :
  inv s -> okc v ->
  exists w o, recordHighest s fn v = mkState (<[fn := w]> (highest s)) (fixed s) (explicit s) (expanded s) o /\
    (w = v \/ highest s !! fn = Some w) /\ lec v w /\
    (forall cur, highest s !! fn = Some cur -> lec cur w) /\
    (forall x, x ∈ o <-> x = fn \/ x ∈ order s) /\ NoDup o.
Proof.
  intros Hi Hv. unfold recordHighest. destruct (highest s !! fn) as [cur|] eqn:Hcur.
  - assert (forall x, x ∈ order s <-> x = fn \/ x ∈ order s) as Ho.
    { intros x. split; [by right|]. intros [->|?]; [|done]. apply (inv_order s Hi). by exists cur. }
    pose proof (inv_ok s Hi fn cur Hcur) as Hokc. destruct (higher v cur) eqn:Hhi.
    + exists v, (order s). split_and!; [done|by left|by apply lec_refl| |done|apply Hi].
      intros cur' [= <-] HCc. apply higher_asym; auto.
    + exists cur, (order s). split_and!; [|by right|by intros _| |done|apply Hi].
      * rewrite insert_id by done. by destruct s.
      * intros cur' [= <-]. by apply lec_refl.
  - exists v, (order s ++ [fn]). split_and!; [done|by left|by apply lec_refl|done| |].
    + intros x. rewrite elem_of_app, list_elem_of_singleton. tauto.
    + apply NoDup_app. split; [apply Hi|]. split; [|apply NoDup_singleton].
      intros x Hx. rewrite list_elem_of_singleton. intros ->.
      apply (inv_order s Hi) in Hx as [? ?]. congruence.
Qed.

(** Recording a version that is being expanded, or that is installed. *)
Lemma record_step s fn v E :
  inv s -> expanded s ⊆ E -> okc v ->
  (key fn v ∈ E /\ is_Some (Dependencies fn v)) \/ Installed fn = Some v -> heldcond s fn ->
  let s' := withExpanded (recordHighest s fn v) E in
  inv s' /\ ext s s' /\ exists w, highest s' !! fn = Some w /\ lec v w.
Proof.
  intros Hi HE Hv Hsrc Hheld.
  destruct (recordHighest_spec s fn v Hi Hv) as (w & o & -> & Hw & Hvw & Hcw & Ho & Hnd).
  simpl. unfold withExpanded. simpl. split_and!.
  - split; simpl.
    + intros fn' v' [[-> ->]|[_ Hl]]%lookup_insert_cases; [|by eapply inv_ok].
      destruct Hw as [->|Hw]; [done|by eapply inv_ok].
    + intros x. rewrite Ho, lookup_insert_is_Some_cases, (inv_order s Hi). naive_solver.
    + done.
    + intros fn' v' Hl.
      assert (highest s !! fn' = Some v' \/ (fn' = fn /\ v' = v)) as [Hl'|[-> ->]]; [|clear Hl|done].
      { apply lookup_insert_cases in Hl as [[-> ->]|[_ ?]]; [|by left]. destruct Hw as [->|]; auto. }
      destruct (inv_src s Hi fn' v' Hl') as [[? ?]|?]; [left|by right]. split; [set_solver|done].
    + intros fn' v' Hf. destruct (inv_fixed s Hi fn' v' Hf) as [(? & ? & ?)|?]; [left|by right].
      split_and!; [done|done|]. apply lookup_insert_is_Some_cases. by right.
    + intros fn' v' Hd. rewrite lookup_insert_is_Some_cases in Hd.
      destruct Hd as [[->|Hd]|Hd]; intros; [by apply Hheld|..]; (eapply (inv_held s Hi); [|done..]); auto.
  - split; simpl; [done..|]. intros fn' v' Hl. destruct (decide (fn = fn')) as [->|Hne].
    + rewrite lookup_insert_eq. exists w. split; [done|]. by apply Hcw.
    + rewrite lookup_insert_ne by done. exists v'. split; [done|]. by eapply lec_refl, inv_ok.
  - exists w. by rewrite lookup_insert_eq.
Qed.

Lemma withExpanded_same s : withExpanded s (expanded s) = s.
Proof. by destruct s. Qed.

(** Pinning a held package at its installed version. *)
Lemma pin_step s fn v :
  inv s -> fixed s !! fn = None -> Held fn = true -> Installed fn = Some v ->
  inv (recordHighest (setFixed s fn v) fn v) /\ ext s (recordHighest (setFixed s fn v) fn v).
Proof.
  intros Hi Hnf Hh Hv.
  assert (okc v) as Hok by (intros HCc; by apply (installed_canonical (HC HCc) fn)).
  assert (highest s !! fn = None) as Hnone.
  { destruct (highest s !! fn) eqn:E; [|done].
    rewrite (inv_held s Hi fn v) in Hnf; [done|left; by rewrite E|done..]. }
  unfold recordHighest, setFixed. simpl. rewrite Hnone. split; split; simpl.
  - intros fn' v' [[-> ->]|[_ Hl]]%lookup_insert_cases; [done|by eapply inv_ok].
  - intros x. rewrite elem_of_app, list_elem_of_singleton, lookup_insert_is_Some_cases, (inv_order s Hi).
    naive_solver.
  - apply NoDup_app. split; [apply Hi|]. split; [|apply NoDup_singleton].
    intros x Hx. rewrite list_elem_of_singleton. intros ->. apply (inv_order s Hi) in Hx as [? ?]. congruence.
  - intros fn' v' [[-> ->]|[_ Hl]]%lookup_insert_cases; [by right|]. by apply (inv_src s Hi).
  - intros fn' v' [[-> ->]|[_ Hl]]%lookup_insert_cases.
    + left. split_and!; [done|done|]. apply lookup_insert_is_Some_cases. by left.
    + destruct (inv_fixed s Hi fn' v' Hl) as [(? & ? & ?)|?]; [left|by right].
      split_and!; [done|done|]. apply lookup_insert_is_Some_cases. by right.
  - intros fn' v' Hd Hh' Hv'. rewrite !lookup_insert_is_Some_cases in Hd. destruct (decide (fn = fn')) as [->|Hne].
    + rewrite lookup_insert_eq. congruence.
    + rewrite lookup_insert_ne by done. eapply (inv_held s Hi); [naive_solver|done..].
  - done.
  - by apply insert_subseteq.
  - done.
  - intros fn' v' Hl. rewrite lookup_insert_ne by congruence.
    exists v'. split; [done|]. by eapply lec_refl, inv_ok.
Qed.

Lemma walk_spec exp fn ver path s s' :
  (forall t t', inv t -> heldcond t fn -> exp fn ver path t = Some (Ok t') ->
     rel t t' /\ exists w, highest t' !! fn = Some w /\ lec ver w) ->
  inv s -> okc ver -> walk exp fn ver path s = Some (Ok s') -> rel s s' /\ edge_ok s' fn ver.
Proof.
  intros Hexp Hi Hver. unfold walk. destruct (checkCycle path fn); [done|].
  destruct (fixed s !! fn) as [v|] eqn:Hf.
  { intros [= <-]. split; [by apply rel_refl|]. left. eauto. }
  assert (forall t, ext s t -> expanded t = expanded s -> keys_ok s t) as Hkeys.
  { intros t _ He k Hk. left. congruence. }
  destruct (if Held fn then Installed fn else None) as [inst|] eqn:Hh.
  - destruct (Held fn) eqn:Hheld; [|done]. intros [= <-].
    destruct (pin_step s fn inst Hi Hf Hheld Hh) as [Hi' He].
    split; [split_and!; try done; apply Hkeys; [done|]|].
    + unfold recordHighest, setFixed. simpl. repeat case_match; done.
    + left. exists inst. unfold recordHighest, setFixed. simpl. repeat case_match; apply lookup_insert_eq.
  - assert (heldcond s fn) as Hhc. { intros v Hheld Hv. rewrite Hheld in Hh. congruence. }
    unfold installedSatisfies. destruct (Installed fn) as [inst|] eqn:Hinst.
    + destruct (ParseVersion inst) eqn:Hp; [|done]. destruct (higher ver inst) eqn:Hhi.
      * intros He. apply Hexp in He as [Hrel Hw]; [|done..]. split; [done|]. by right.
      * intros [= <-]. destruct (record_step s fn inst (expanded s) Hi) as (Hi' & He & w & Hw & Hle);
          [done| |by right|done|].
        { intros HCc. by apply (installed_canonical (HC HCc) fn). }
        assert (withExpanded (recordHighest s fn inst) (expanded s) = recordHighest s fn inst) as Heq.
        { unfold recordHighest, withExpanded. repeat case_match; try done. by destruct s. }
        rewrite Heq in *. split; [split_and!; try done; apply Hkeys; [done|by rewrite <- Heq]|].
        right. exists w. split; [done|]. eapply (lec_trans ver inst w); eauto using inv_ok.
        -- intros HCc. by apply (installed_canonical (HC HCc) fn).
        -- by intros _.
    + intros He. apply Hexp in He as [Hrel Hw]; [|done..]. split; [done|]. by right.
Qed.

Lemma expand_spec fuel fn ver path s s' :
  inv s -> okc ver -> heldcond s fn -> expand fuel fn ver path s = Some (Ok s') ->
  rel s s' /\ (exists w, highest s' !! fn = Some w /\ lec ver w) /\
  key fn ver ∈ expanded s' /\ is_Some (Dependencies fn ver).
Proof.
  revert fn ver path s s'. induction fuel as [|n IH]; intros fn ver path s s' Hi Hver Hheld; [done|].
  simpl. destruct (Dependencies fn ver) as [deps|] eqn:Hd; [|done].
  assert (expanded (recordHighest s fn ver) = expanded s) as Hexp by (unfold recordHighest; repeat case_match; done).
  rewrite Hexp. case_bool_decide as Hin.
  - intros [= <-]. destruct (record_step s fn ver (expanded s) Hi) as (Hi' & He & Hw); [done..|by left|done|].
    assert (withExpanded (recordHighest s fn ver) (expanded s) = recordHighest s fn ver) as Heq
      by (rewrite <- Hexp; apply withExpanded_same).
    rewrite Heq in *. split; [|split; [done|split; [by rewrite Hexp|by eexists]]]. split_and!; try done.
    intros k Hk. left. by rewrite Hexp in Hk.
  - intros Hloop.
    destruct (record_step s fn ver ({[key fn ver]} ∪ expanded s) Hi) as (Hi' & He & Hw);
      [set_solver|done|left; split; [set_solver|done]|done|].
    assert (setExpanded (recordHighest s fn ver) (key fn ver)
            = withExpanded (recordHighest s fn ver) ({[key fn ver]} ∪ expanded s)) as Heq
      by (unfold setExpanded, withExpanded; by rewrite Hexp).
    rewrite Heq in Hloop. remember (withExpanded _ _) as s2 eqn:Hs2.
    apply (mfold_rel inv rel (fun dep t => dep_ok t dep)) in Hloop as (Hi3 & Hr & Hq).
    + destruct Hr as (_ & _ & E23 & K23). split; [|split; [|split; [|by eexists]]].
      * split; [done|]. split; [done|]. split; [by apply (ext_trans s s2 s')|].
        intros k Hk. destruct (K23 k Hk) as [Hk2|?]; [|by right].
        assert (k = key fn ver \/ k ∈ expanded s) as [->|?] by (subst s2; set_solver); [right|by left].
        exists fn, ver. do 2 (split; [done|]). intros deps' dep Hd' Hdep. simplify_eq. by apply Hq.
      * destruct Hw as (w & Hw & Hle). destruct (ext_highest _ _ E23 fn w Hw) as (w' & Hw' & Hle').
        exists w'. split; [done|]. eapply (lec_trans ver w w'); eauto using inv_ok.
      * apply (ext_expanded _ _ E23). subst s2. simpl. set_solver.
    + apply rel_refl.
    + apply rel_trans.
    + intros q x y Ix Iy Hq (_ & _ & Hx & _). by apply (dep_mono x y).
    + intros t dep t' Hdep It. destruct (ParseDependency dep) as [[dn dv]|] eqn:Hp; [|done].
      assert (okc dv) as Hdv by (intros HCc; by eapply (deps_canonical (HC HCc))).
      intros Hwalk. apply walk_spec in Hwalk as [Hr Hedge]; [| |done|done].
      * split; [apply Hr|]. split; [done|]. by exists dn, dv.
      * intros u u' Iu Hu Hx. destruct (IH _ _ _ _ _ Iu Hdv Hu Hx) as (? & ? & _). done.
    + done.
Qed.

(** ** The whole run *)

(** The version the last request naming a package asks for. *)
Definition requested (requests : list Request) (fn : bytes) : option bytes :=
  foldl (fun acc r => if bool_decide (rFullName r = fn) then Some (rVersion r) else acc) None requests.

Lemma requested_acc rs fn (acc : option bytes) :
  foldl (fun acc r => if bool_decide (rFullName r = fn) then Some (rVersion r) else acc) acc rs =
  match requested rs fn with Some v => Some v | None => acc end.
Proof.
  unfold requested. revert acc. induction rs as [|r rs IH]; intros acc; simpl; [done|].
  rewrite IH, (IH (if bool_decide _ then _ else None)).
  destruct (foldl _ None rs); [done|]. by case_bool_decide.
Qed.

Lemma requested_In rs fn v : requested rs fn = Some v -> mkRequest fn v ∈ rs.
Proof.
  induction rs as [|r rs IH]; [done|]. unfold requested. simpl. rewrite requested_acc.
  destruct (requested rs fn) as [w|] eqn:E.
  - intros [= <-]. right. by apply IH.
  - case_bool_decide; [|done]. intros [= <-]. subst. destruct r. by left.
Qed.

Lemma requested_is_Some rs r : r ∈ rs -> is_Some (requested rs (rFullName r)).
Proof.
  induction rs as [|r' rs IH]; [by intros ?%not_elem_of_nil|].
  intros Hr. unfold requested. simpl. rewrite requested_acc.
  apply elem_of_cons in Hr as [->|Hr]; [|destruct (IH Hr) as [? ->]; by eexists].
  rewrite bool_decide_true by done. by destruct (requested rs _); eexists.
Qed.

Definition heldReq (fn v : bytes) : Prop := forall w, Held fn = true -> Installed fn = Some w -> v = w.

Lemma pin_spec rs s0 s1 :
  mfold pinRequest rs s0 = Some (Ok s1) ->
  highest s1 = highest s0 /\ expanded s1 = expanded s0 /\ order s1 = order s0 /\
  (forall fn, fixed s1 !! fn = match requested rs fn with Some v => Some v | None => fixed s0 !! fn end) /\
  (forall fn, fn ∈ explicit s1 <-> fn ∈ explicit s0 \/ is_Some (requested rs fn)) /\
  (forall r, r ∈ rs -> heldReq (rFullName r) (rVersion r)).
Proof.
  revert s0. induction rs as [|r rs IH]; intros s0 H1.
  - injection H1 as ->. split_and!; try done.
    + intros fn. split; [by left|]. intros [?|[? ?]]; done.
    + intros r Hr. by apply not_elem_of_nil in Hr.
  - apply mbind_Ok in H1 as (sm & Hpin & H1). destruct (IH sm H1) as (Hh & He & Ho & Hf & Hx & Hheld).
    assert (sm = setFixed (setExplicit s0 (rFullName r)) (rFullName r) (rVersion r) /\
            heldReq (rFullName r) (rVersion r)) as [-> Hr].
    { unfold pinRequest in Hpin. destruct (ParseVersion (rVersion r)); [|done].
      destruct (Installed (rFullName r)) as [inst|] eqn:Hi; [|injection Hpin as <-; split; [done|]; intros w; congruence].
      destruct (ParseVersion inst); [|done]. destruct (Held (rFullName r) && _) eqn:Hc; [done|].
      injection Hpin as <-. split; [done|]. intros w Hw Hiw. rewrite Hw in Hc. simpl in Hc.
      apply negb_false_iff, bool_decide_eq_true in Hc. congruence. }
    unfold setFixed, setExplicit in *; simpl in *. split_and!; try done.
    + intros fn. rewrite Hf. unfold requested at 2. simpl. rewrite requested_acc.
      destruct (requested rs fn); [done|]. case_bool_decide as Hfn.
      * by rewrite Hfn, lookup_insert_eq.
      * by rewrite lookup_insert_ne.
    + intros fn. rewrite Hx. unfold requested at 2. simpl. rewrite requested_acc, elem_of_union, elem_of_singleton.
      destruct (requested rs fn) as [w|]; [|case_bool_decide]; naive_solver.
    + intros q. rewrite elem_of_cons. intros [->|?]; [done|by apply Hheld].
Qed.

(** What a request leaves behind: its package is recorded, and its version is
    installed or expanded. *)
Definition request_done (r : Request) (s : resolveState) : Prop :=
  is_Some (highest s !! rFullName r) /\
  (Installed (rFullName r) = Some (rVersion r) \/
   (key (rFullName r) (rVersion r) ∈ expanded s /\ is_Some (Dependencies (rFullName r) (rVersion r)))).

Lemma expandRequest_spec fuel s r s' :
  inv s -> is_Some (fixed s !! rFullName r) -> okc (rVersion r) ->
  expandRequest fuel s r = Some (Ok s') -> rel s s' /\ request_done r s'.
Proof.
  intros Hi Hf Hok. unfold expandRequest.
  assert (heldcond s (rFullName r)) as Hh by (intros w; apply (inv_held s Hi); by right).
  case_bool_decide as Hinst.
  - intros [= <-]. destruct (record_step s (rFullName r) (rVersion r) (expanded s) Hi)
      as (Hi' & He & w & Hw & _); [done..|by right|done|].
    assert (withExpanded (recordHighest s (rFullName r) (rVersion r)) (expanded s)
            = recordHighest s (rFullName r) (rVersion r)) as Heq.
    { unfold recordHighest, withExpanded. repeat case_match; try done. by destruct s. }
    rewrite Heq in *. split; [|split; [by eexists|by left]].
    split_and!; try done. intros k Hk. left. by rewrite <- Heq in Hk.
  - intros Hx. apply expand_spec in Hx as (Hr & (w & Hw & _) & Hk); [|done..].
    split; [done|]. split; [by eexists|by right].
Qed.

(** The state a successful resolve ends in. *)
Record final (requests : list Request) (s : resolveState) : Prop := {
  fin_inv : inv s;
  fin_keys k : k ∈ expanded s -> exists fn ver, k = key fn ver /\ okc ver /\ edges_ok s fn ver;
  fin_requested fn v : requested requests fn = Some v -> fixed s !! fn = Some v;
  fin_explicit fn : fn ∈ explicit s <-> is_Some (requested requests fn);
  fin_done r : r ∈ requests -> request_done r s
}.

Lemma run_final fuel requests s1 s2 :
  (C -> forall r, r ∈ requests -> okv (rVersion r)) ->
  mfold pinRequest requests emptyState = Some (Ok s1) ->
  mfold (expandRequest fuel) requests s1 = Some (Ok s2) -> final requests s2.
Proof.
  intros Hok Hpin Hrun. destruct (pin_spec _ _ _ Hpin) as (Hh & He & Ho & Hf & Hx & Hheld). simpl in *.
  assert (forall fn, fixed s1 !! fn = requested requests fn) as Hf'.
  { intros fn. rewrite Hf, lookup_empty. by destruct (requested requests fn). }
  assert (forall fn, fn ∈ explicit s1 <-> is_Some (requested requests fn)) as Hx' by (set_solver).
  assert (inv s1) as Hi1.
  { split; rewrite ?Hh, ?Ho.
    - intros fn v. by rewrite lookup_empty.
    - intros fn. rewrite lookup_empty. split; [by intros ?%not_elem_of_nil|by intros [? ?]].
    - apply NoDup_nil_2.
    - intros fn v. by rewrite lookup_empty.
    - intros fn v Hfn. right. rewrite Hx', <- Hf'. by eexists.
    - intros fn v Hs Hheld' Hv. rewrite lookup_empty, Hf' in Hs. destruct Hs as [[? ?]|[w Hw]]; [done|].
      rewrite Hf', Hw. f_equal. by apply (Hheld _ (requested_In _ _ _ Hw)). }
  apply (mfold_rel (fun s => inv s /\ ext s1 s) rel request_done) in Hrun as ((Hi2 & E12) & Hr & Hq).
  - destruct Hr as (_ & _ & _ & K). split; [done| | | |done].
    + intros k Hk. destruct (K k Hk) as [Hk1|?]; [|done]. rewrite He in Hk1. set_solver.
    + intros fn v Hv. eapply lookup_weaken; [|apply (ext_fixed _ _ E12)]. by rewrite Hf'.
    + intros fn. by rewrite (ext_explicit _ _ E12).
  - intros s [? _]. by apply rel_refl.
  - apply rel_trans.
  - intros r x y [Ix _] [Iy _] [[w Hw] Hd] (_ & _ & Exy & _). split.
    + destruct (ext_highest _ _ Exy _ _ Hw) as (w' & ? & _). by eexists.
    + destruct Hd as [?|[Hk ?]]; [by left|right]. split; [|done]. by apply (ext_expanded _ _ Exy).
  - intros s r s' Hr [Is Es] Hs.
    assert (is_Some (fixed s !! rFullName r)) as Hfr.
    { destruct (requested_is_Some _ _ Hr) as [v Hv]. exists v.
      eapply lookup_weaken; [|apply (ext_fixed _ _ Es)]. by rewrite Hf'. }
    apply expandRequest_spec in Hs as [Hrel Hd]; [|done|done|by intros HCc; apply Hok].
    destruct Hrel as (_ & Is' & Ess' & K). split; [|done]. split; [done|]. by apply (ext_trans s1 s s').
  - split; [done|by apply ext_refl].
Qed.

(** The kept set holds the explicit names and is closed under the edges of
    the chosen versions. *)
Definition closedAt (s : resolveState) (K : gset bytes) (x : bytes) : Prop :=
  key x (chosen s x) ∈ expanded s -> forall deps dep dn dv,
    Dependencies x (chosen s x) = Some deps -> dep ∈ deps -> ParseDependency dep = Some (dn, dv) -> dn ∈ K.

Lemma visit_spec fuel s seen fn seen' :
  visit fuel s seen fn = Some seen' ->
  fn ∈ seen' /\ seen ⊆ seen' /\ forall x, x ∈ seen' -> x ∈ seen \/ closedAt s seen' x.
Proof.
  revert seen fn seen'. induction fuel as [|n IH]; intros seen fn seen'; [done|]. simpl.
  case_bool_decide as Hin; [intros [= <-]; split_and!; auto|].
  case_bool_decide as Hk.
  2: { intros [= <-]. split; [set_solver|]. split; [set_solver|]. intros x Hx.
       apply elem_of_union in Hx as [->%elem_of_singleton|?]; [right|by left]. by intros ?. }
  assert (forall deps sn sn', foldl (fun acc dep => acc ≫= fun sn =>
             match ParseDependency dep with Some (dn, _) => visit n s sn dn | None => Some sn end)
             (Some sn) deps = Some sn' ->
           sn ⊆ sn' /\ (forall x, x ∈ sn' -> x ∈ sn \/ closedAt s sn' x) /\
           forall dep dn dv, dep ∈ deps -> ParseDependency dep = Some (dn, dv) -> dn ∈ sn') as Hloop.
  { induction deps as [|dep deps IHd]; intros sn sn'; simpl.
    - intros [= <-]. split_and!; [done|by left|]. intros dep dn dv Hd. by apply not_elem_of_nil in Hd.
    - set (step := match ParseDependency dep with Some (dn, _) => visit n s sn dn | None => Some sn end).
      destruct step as [sm|] eqn:Hs; simpl.
      2: { intros Hx. exfalso. clear -Hx. induction deps; simpl in *; auto. done. }
      intros (Hsub & Hcl & Hall)%IHd.
      assert (sn ⊆ sm /\ (forall x, x ∈ sm -> x ∈ sn \/ closedAt s sm x) /\
              forall dn dv, ParseDependency dep = Some (dn, dv) -> dn ∈ sm) as (Hsub1 & Hcl1 & Hin1).
      { unfold step in Hs. destruct (ParseDependency dep) as [[dn dv]|].
        - apply IH in Hs as (? & ? & ?). split_and!; [done|done|]. by intros ?? [= <- <-].
        - injection Hs as <-. split_and!; [done|by left|done]. }
      split; [set_solver|]. split.
      + intros x Hx. destruct (Hcl x Hx) as [Hm|]; [|by right].
        destruct (Hcl1 x Hm) as [|Hc]; [by left|right]. intros Hkx deps' d dn dv Hd Hdin Hp.
        apply Hsub. by eapply Hc.
      + intros d dn dv [->|Hd]%elem_of_cons Hp; [apply Hsub; by eapply Hin1|by eapply Hall]. }
  intros (Hsub & Hcl & Hall)%Hloop. split; [set_solver|]. split; [set_solver|].
  intros x Hx. destruct (Hcl x Hx) as [Hs|]; [|by right].
  apply elem_of_union in Hs as [->%elem_of_singleton|?]; [right|by left].
  intros _ deps dep dn dv Hd Hdep Hp. rewrite Hd in Hall. by eapply Hall.
Qed.

Lemma reachable_spec fuel s K :
  reachable fuel s = Some K -> (forall x, x ∈ explicit s -> x ∈ K) /\ forall x, x ∈ K -> closedAt s K x.
Proof.
  unfold reachable.
  assert (forall l sn, foldl (fun acc fn => acc ≫= fun seen => visit fuel s seen fn) (Some sn) l = Some K ->
            (forall x, x ∈ sn -> closedAt s sn x) ->
            (forall x, x ∈ l -> x ∈ K) /\ sn ⊆ K /\ forall x, x ∈ K -> closedAt s K x) as Hl.
  { induction l as [|y l IH]; intros sn; simpl.
    - intros [= <-] Hc. split_and!; [|done|done]. intros x Hx. by apply not_elem_of_nil in Hx.
    - destruct (visit fuel s sn y) as [sm|] eqn:Hv; simpl.
      2: { intros Hx. exfalso. clear -Hx. induction l; simpl in *; auto. done. }
      intros Hf Hc. apply visit_spec in Hv as (Hy & Hsub & Hcl).
      destruct (IH sm Hf) as (Hall & HsubK & HK).
      { intros x Hx. destruct (Hcl x Hx) as [Hxs|]; [|done].
        intros Hk deps dep dn dv Hd Hin Hp. apply Hsub. by eapply Hc. }
      split; [|split; [set_solver|done]]. intros x [->|Hx]%elem_of_cons; [set_solver|by apply Hall]. }
  intros Hr. apply Hl in Hr as (Hall & _ & HK); [|intros x Hx; set_solver].
  split; [|done]. intros x Hx. apply Hall. by apply elem_of_elements.
Qed.

Lemma Resolve_final fuel requests c :
  (C -> forall r, r ∈ requests -> okv (rVersion r)) ->
  Resolve fuel requests = Some (Ok c) ->
  exists s K, final requests s /\ (forall x, x ∈ explicit s -> x ∈ K) /\
    (forall x, x ∈ K -> closedAt s K x) /\
    forall n, n ∈ c <-> exists fn, n = mkNodeOf s fn /\ fn ∈ K /\ fn ∈ order s.
Proof.
  intros Hok H1. unfold Resolve in H1. apply mbind_Ok in H1 as (s1 & Hpin & H1).
  apply mbind_Ok in H1 as (s2 & Hrun & H1). unfold closure in H1.
  destruct (reachable fuel s2) as [K|] eqn:HK; simpl in H1; [|done]. injection H1 as <-.
  destruct (reachable_spec _ _ _ HK) as [Hexp Hcl].
  exists s2, K. split; [by eapply run_final|]. split; [done|]. split; [done|].
  intros n. rewrite list_elem_of_fmap. setoid_rewrite list_elem_of_filter. done.
Qed.

(** The version of a kept package is one the run looked up or found installed. *)
Lemma chosen_src requests s fn :
  final requests s -> fn ∈ order s -> Installed fn <> Some (chosen s fn) ->
  key fn (chosen s fn) ∈ expanded s /\ is_Some (Dependencies fn (chosen s fn)) /\
  ((C -> forall r, r ∈ requests -> okv (rVersion r)) -> okc (chosen s fn)).
Proof.
  intros F Ho Hni. pose proof (fin_inv _ _ F) as Hi. unfold chosen in *.
  apply (inv_order s Hi) in Ho as [h Hh]. destruct (fixed s !! fn) as [v|] eqn:Hf.
  - destruct (inv_fixed s Hi fn v Hf) as [(? & ? & _)|Hx]; [done|].
    apply (fin_explicit _ _ F) in Hx as [w Hw]. pose proof (fin_requested _ _ F _ _ Hw) as Hw'. simplify_eq.
    pose proof (requested_In _ _ _ Hw) as Hr. destruct (fin_done _ _ F _ Hr) as [_ [?|[? ?]]]; [done|].
    simpl in *. split_and!; [done|done|]. intros Hok HCc. apply (Hok HCc _ Hr).
  - rewrite Hh in *. simpl in *. destruct (inv_src s Hi fn h Hh) as [[? ?]|?]; [|done].
    split_and!; [done|done|]. intros _. by eapply inv_ok.
Qed.
End Invariant.

(** ** A concrete index, for the witnesses *)

Definition tableIndex (t : list (bytes * bytes * list bytes)) (inst : list (bytes * bytes)) (held : list bytes) : Index := {|
  Dependencies fn ver :=
    snd <$> (snd <$> list_find (fun row => row.1 = (fn, ver)) t);
  Installed fn := snd <$> (snd <$> list_find (fun row => row.1 = fn) inst);
  Held fn := bool_decide (fn ∈ held)
|}.

Definition okvb (v : bytes) : bool :=
  match ParseVersion v with Some p => canonical p | None => false end.
Lemma okvb_spec v : okvb v = true -> okv v.
Proof. unfold okvb, okv. destruct (ParseVersion v); [eauto|done]. Qed.

Definition tableDeps (p : bytes * bytes -> bool) (t : list (bytes * bytes * list bytes)) : bool :=
  forallb (fun row => forallb (fun dep => match ParseDependency dep with Some d => p d | None => true end) row.2) t.

Lemma tableDeps_spec p t inst held fn ver deps dep dn dv :
  tableDeps p t = true -> @Dependencies (tableIndex t inst held) fn ver = Some deps -> dep ∈ deps ->
  ParseDependency dep = Some (dn, dv) -> p (dn, dv) = true.
Proof.
  unfold tableDeps. rewrite forallb_elem_of. simpl. intros Ht Hd Hdep Hp.
  destruct (list_find _ t) as [[i row]|] eqn:Hf; [|done]. simpl in Hd. simplify_eq.
  apply list_find_Some in Hf as (Hrow & _). apply list_elem_of_lookup_2, Ht in Hrow.
  rewrite forallb_elem_of in Hrow. specialize (Hrow dep Hdep). by rewrite Hp in Hrow.
Qed.

Lemma tableIndex_canonical t inst held :
  tableDeps (fun d => okvb d.2) t = true -> forallb (fun row => okvb row.2) inst = true ->
  @CanonicalIndex (tableIndex t inst held).
Proof.
  intros Ht Hi. split.
  - intros fn ver deps dep dn dv Hd Hdep Hp. apply okvb_spec.
    by apply (tableDeps_spec _ _ _ _ _ _ _ _ _ _ Ht Hd Hdep Hp).
  - intros fn v. simpl. destruct (list_find _ inst) as [[i row]|] eqn:Hf; [|done]. simpl. intros [= <-].
    apply list_find_Some in Hf as (Hrow & _). apply list_elem_of_lookup_2 in Hrow.
    rewrite forallb_elem_of in Hi. apply okvb_spec. by apply (Hi row).
Qed.

Lemma tableIndex_closed t inst held U :
  tableDeps (fun d => bool_decide (d.1 ∈ U)) t = true -> @closedUnder (tableIndex t inst held) U.
Proof.
  intros Ht fn ver deps dep dn dv Hd Hdep Hp.
  pose proof (tableDeps_spec _ _ _ _ _ _ _ _ _ _ Ht Hd Hdep Hp) as H1.
  by apply bool_decide_eq_true in H1.
Qed.

(** A diamond: [ns-A] needs [ns-B] and [ns-C], which need [ns-D] at 1.0.0 and
    at 1.1.0; [ns-E] is installed and held. *)
Definition diamond : Index := tableIndex
  [ (L "ns-A", L "1.0.0", [L "ns-B-1.0.0"; L "ns-C-1.0.0"; L "ns-E-2.0.0"]);
    (L "ns-B", L "1.0.0", [L "ns-D-1.0.0"]);
    (L "ns-C", L "1.0.0", [L "ns-D-1.1.0"]);
    (L "ns-D", L "1.0.0", []);
    (L "ns-D", L "1.1.0", []) ]
  [(L "ns-E", L "1.0.0")] [L "ns-E"].
Definition diamondNames : list bytes := [L "ns-A"; L "ns-B"; L "ns-C"; L "ns-D"; L "ns-E"].
Definition diamondRequests : list Request := [mkRequest (L "ns-A") (L "1.0.0")].

Example diamond_closure :
  @Resolve diamond 6 diamondRequests = Some (Ok
    [ mkNode (L "ns-A") (L "1.0.0") false false;
      mkNode (L "ns-B") (L "1.0.0") true false;
      mkNode (L "ns-D") (L "1.1.0") true false;
      mkNode (L "ns-C") (L "1.0.0") true false;
      mkNode (L "ns-E") (L "1.0.0") true true ]).
Proof. vm_compute. reflexivity. Qed.

(** ** Properties *)

(** Resolving terminates: when the requests and every dependency the index
    names are among the packages [U], fuel above their number is enough,
    whatever cycles the index has. *)
Theorem Resolve_terminates `{Index} (U : list bytes) (fuel : nat) (requests : list Request) :
  closedUnder U -> (forall r, r ∈ requests -> rFullName r ∈ U) -> (length U < fuel)%nat ->
  Resolve fuel requests <> None.
Proof.
  intros Hcl HU Hfuel. unfold Resolve.
  assert (mfold pinRequest requests emptyState <> None) as Hp.
  { apply mfold_total. intros s r _. unfold pinRequest. repeat case_match; done. }
  destruct (mfold pinRequest requests emptyState) as [[s1|e]|] eqn:E1; simpl; [|done|done].
  assert (mfold (expandRequest fuel) requests s1 <> None) as Hr.
  { apply mfold_total. intros s r Hin. unfold expandRequest. case_bool_decide; [done|].
    apply (expand_total U Hcl); [apply NoDup_nil_2|by intros ? ?%not_elem_of_nil|apply not_elem_of_nil|auto|simpl; lia]. }
  destruct (mfold (expandRequest fuel) requests s1) as [[s2|e]|] eqn:E2; simpl; [|done|done].
  assert (final False requests s2) as F by (eapply run_final; [done|by intros []|done|done]).
  destruct (reachable_total U Hcl fuel s2) as [K HK]; [|done|].
  - intros x [v Hv]%(fin_explicit _ _ _ F). by apply (HU _ (requested_In _ _ _ Hv)).
  - unfold closure. by rewrite HK.
Qed.

Example Resolve_terminates_witness : @Resolve diamond 6 diamondRequests <> None.
Proof.
  apply (@Resolve_terminates diamond diamondNames).
  - apply tableIndex_closed. vm_compute. reflexivity.
  - intros r ->%list_elem_of_singleton. apply (bool_decide_unpack _). vm_compute. exact I.
  - vm_compute. lia.
Defined.



(** A request is exact: a successful closure holds the package a request
    names, not as a transitive one, at the version the last request for it
    asked for, and an explicit node is always such a request. *)
Theorem Resolve_requests_exact `{Index} (fuel : nat) (requests : list Request) (c : Closure) :
  Resolve fuel requests = Some (Ok c) ->
  (forall fn v, requested requests fn = Some v ->
     exists n, n ∈ c /\ nFullName n = fn /\ nVersion n = v /\ nTransitive n = false) /\
  (forall n, n ∈ c -> nTransitive n = false -> requested requests (nFullName n) = Some (nVersion n)).
Proof.
  intros Hres. destruct (Resolve_final False ltac:(done) fuel requests c) as (s & K & F & HX & HK & Hc);
    [by intros []|done|]. split.
  - intros fn v Hv. exists (mkNodeOf s fn). assert (fn ∈ explicit s) as Hx by (apply (fin_explicit _ _ _ F); by eexists).
    split_and!; simpl.
    + apply Hc. exists fn. split_and!; [done|by apply HX|]. apply (inv_order _ _ (fin_inv _ _ _ F)).
      apply (fin_done _ _ _ F _ (requested_In _ _ _ Hv)).
    + done.
    + unfold chosen. by rewrite (fin_requested _ _ _ F _ _ Hv).
    + by rewrite bool_decide_true.
  - intros n (fn & -> & _ & _)%Hc. simpl. intros Hx%negb_false_iff%bool_decide_eq_true.
    apply (fin_explicit _ _ _ F) in Hx as [v Hv]. unfold chosen. by rewrite (fin_requested _ _ _ F _ _ Hv).
Qed.

Example Resolve_requests_exact_witness :
  exists n, n ∈ default [] (match @Resolve diamond 6 diamondRequests with Some (Ok c) => Some c | _ => None end) /\
    nFullName n = L "ns-A" /\ nVersion n = L "1.0.0" /\ nTransitive n = false.
Proof.
  refine (proj1 (@Resolve_requests_exact diamond 6 diamondRequests _ _) (L "ns-A") (L "1.0.0") _).
  - rewrite diamond_closure. reflexivity.
  - vm_compute. reflexivity.
Defined.

(** No request and no dependency edge moves a held package: wherever a
    held, installed package is in a successful closure, it is a no-op at its
    installed version. *)
Theorem Resolve_held_fixed `{Index} (fuel : nat) (requests : list Request) (c : Closure) (n : Node) (v : bytes) :
  Resolve fuel requests = Some (Ok c) -> n ∈ c ->
  Held (nFullName n) = true -> Installed (nFullName n) = Some v -> nVersion n = v /\ nNoOp n = true.
Proof.
  intros Hres Hn Hheld Hinst.
  destruct (Resolve_final False ltac:(done) fuel requests c) as (s & K & F & HX & HK & Hc);
    [by intros []|done|].
  apply Hc in Hn as (fn & -> & _ & Ho). simpl in *.
  assert (fixed s !! fn = Some v) as Hf.
  { apply (inv_held _ _ (fin_inv _ _ _ F)); [|done|done]. left. by apply (inv_order _ _ (fin_inv _ _ _ F)). }
  unfold chosen. rewrite Hf. split; [done|]. by apply bool_decide_eq_true.
Qed.

Example Resolve_held_fixed_witness :
  nVersion (mkNode (L "ns-E") (L "1.0.0") true true) = L "1.0.0" /\
  nNoOp (mkNode (L "ns-E") (L "1.0.0") true true) = true.
Proof.
  apply (@Resolve_held_fixed diamond 6 diamondRequests _ _ (L "1.0.0") diamond_closure).
  - do 4 right. left.
  - vm_compute. reflexivity.
  - vm_compute. reflexivity.
Defined.

(** [Check] reports exactly the unmet edges a change touches: a planned
    package's listed dependency, parsed, whose target is planned lower than
    required or not at all, with the dependent or the target changed. *)
Theorem Check_spec `{Index} (planned : gmap bytes bytes) (changed : gset bytes) (k : Conflict) :
  k ∈ Check planned changed <->
  exists name version deps dep depName depVersion have,
    planned !! name = Some version /\ Dependencies name version = Some deps /\ dep ∈ deps /\
    ParseDependency dep = Some (depName, depVersion) /\ (name ∈ changed \/ depName ∈ changed) /\
    ((planned !! depName = None /\ have = []) \/
     (planned !! depName = Some have /\ higher depVersion have = true)) /\
    k = mkConflict name version depName depVersion have.
Proof.
  unfold Check. rewrite list_elem_of_join. setoid_rewrite list_elem_of_fmap. split.
  - intros (l & Hk & name & -> & Hname). rewrite merge_sort_Permutation in Hname.
    apply elem_of_elements, elem_of_dom in Hname as [version Hv].
    unfold checkPackage in Hk. rewrite Hv in Hk. simpl in Hk.
    destruct (Dependencies name version) as [deps|] eqn:Hd; [|by apply not_elem_of_nil in Hk].
    apply list_elem_of_omap in Hk as (dep & Hdep & Hk).
    destruct (ParseDependency dep) as [[dn dv]|] eqn:Hp; [|done].
    destruct (negb _ && negb _) eqn:Hch; [done|].
    assert (name ∈ changed \/ dn ∈ changed) as Hch' by (do 2 case_bool_decide; naive_solver).
    destruct (planned !! dn) as [have|] eqn:Hdn.
    + destruct (higher dv have) eqn:Hh; [|done]. simpl in Hk. simplify_eq.
      exists name, version, deps, dep, dn, dv, have. split_and!; auto.
    + simplify_eq. exists name, version, deps, dep, dn, dv, []. split_and!; auto.
  - intros (name & version & deps & dep & dn & dv & have & Hv & Hd & Hdep & Hp & Hch & Hh & ->).
    exists (checkPackage planned changed name). split.
    + unfold checkPackage. rewrite Hv. simpl. rewrite Hd. apply list_elem_of_omap. exists dep. split; [done|].
      rewrite Hp. replace (negb _ && negb _) with false by (do 2 case_bool_decide; naive_solver).
      destruct Hh as [[-> ->]|[-> ->]]; done.
    + exists name. split; [done|]. rewrite merge_sort_Permutation. apply elem_of_elements, elem_of_dom. by eexists.
Qed.

(** A dependency ident's pattern lets through versions [ParseVersion] refuses.
    Such an edge is never "higher" than what is installed, so any installed
    version passes as satisfying it. *)
Theorem malformed_version_satisfied :
  ParseDependency (L "ns-B-9.0.0-a..b") = Some (L "ns-B", L "9.0.0-a..b") /\
  ParseVersion (L "9.0.0-a..b") = None /\
  @Resolve (tableIndex [(L "ns-A", L "1.0.0", [L "ns-B-9.0.0-a..b"])] [(L "ns-B", L "0.0.1")] []) 3
    [mkRequest (L "ns-A") (L "1.0.0")]
  = Some (Ok [mkNode (L "ns-A") (L "1.0.0") false false; mkNode (L "ns-B") (L "0.0.1") true true]).
Proof. vm_compute. done. Qed.
