(* ===== verification/Authz.v ===== *)
(** internal/authz: the closed registry of actions, what each grant role and
    grantable extra carries, and the single [Can] decision. *)
From S2P Require Import Prelude.

(** ** The registry (action.go) *)

Inductive Action : Set :=
| InstanceView | ConsoleRead | StatsRead | BackupsList | ModsList | ConfigRead | InstanceStart
| InstanceStop | InstanceRestart | BackupsCreate | BackupsDownload | PlayersManage
| CommandsSend | ModsManage | ConfigEdit | ConfigRaw | BackupsRestore | WorldImport
| InstanceSettings | NotificationsManage | InstanceCreate | InstanceDelete | InstanceClone
| InstanceAdopt | InstanceLimits | InstanceExtraArgs | InstanceImage | InstanceUpdate
| SetupsManage | WorldTools | CommandsUnrestricted | UsersManage | InvitesManage | GrantsManage
| SchedulesGlobal | PanelSettings | AuditRead.

#[export] Instance Action_eq_dec : EqDecision Action.
Proof. solve_decision. Defined.

(** The wire form. *)
Definition name (a : Action) : string :=
  match a with
  | InstanceView => "instance.view"
  | ConsoleRead => "console.read"
  | StatsRead => "stats.read"
  | BackupsList => "backups.list"
  | ModsList => "mods.list"
  | ConfigRead => "config.read"
  | InstanceStart => "instance.start"
  | InstanceStop => "instance.stop"
  | InstanceRestart => "instance.restart"
  | BackupsCreate => "backups.create"
  | BackupsDownload => "backups.download"
  | PlayersManage => "players.manage"
  | CommandsSend => "commands.send"
  | ModsManage => "mods.manage"
  | ConfigEdit => "config.edit"
  | ConfigRaw => "config.raw"
  | BackupsRestore => "backups.restore"
  | WorldImport => "world.import"
  | InstanceSettings => "instance.settings"
  | NotificationsManage => "notifications.manage"
  | InstanceCreate => "instance.create"
  | InstanceDelete => "instance.delete"
  | InstanceClone => "instance.clone"
  | InstanceAdopt => "instance.adopt"
  | InstanceLimits => "instance.limits"
  | InstanceExtraArgs => "instance.extra_args"
  | InstanceImage => "instance.image"
  | InstanceUpdate => "instance.update"
  | SetupsManage => "setups.manage"
  | WorldTools => "world.tools"
  | CommandsUnrestricted => "commands.unrestricted"
  | UsersManage => "users.manage"
  | InvitesManage => "invites.manage"
  | GrantsManage => "grants.manage"
  | SchedulesGlobal => "schedules.global"
  | PanelSettings => "panel.settings"
  | AuditRead => "audit.read"
  end.

Definition viewerActions : list Action :=
  [InstanceView; ConsoleRead; StatsRead; BackupsList; ModsList; ConfigRead].
Definition operatorExtra : list Action :=
  [InstanceStart; InstanceStop; InstanceRestart; BackupsCreate; BackupsDownload; PlayersManage;
   CommandsSend].
Definition grantableExtras : list Action :=
  [ModsManage; ConfigEdit; ConfigRaw; BackupsRestore; WorldImport; InstanceSettings;
   NotificationsManage].
Definition neverGrantable : list Action :=
  [InstanceCreate; InstanceDelete; InstanceClone; InstanceAdopt; InstanceLimits;
   InstanceExtraArgs; InstanceImage; InstanceUpdate; SetupsManage; WorldTools;
   CommandsUnrestricted; UsersManage; InvitesManage; GrantsManage; SchedulesGlobal;
   PanelSettings; AuditRead].

(** Every registered action, in the order [byName] is filled. *)
Definition allActions : list Action := viewerActions ++ operatorExtra ++ grantableExtras ++ neverGrantable.

(** [byName] and [ParseAction]. *)
Definition ParseAction (s : string) : option Action :=
  snd <$> list_find (fun a => name a = s) allActions.

#[export] Instance Action_countable : Countable Action.
Proof. refine (inj_countable name ParseAction _). by intros []. Defined.

Definition setOf (actions : list Action) : gset Action := list_to_set actions.

(** [roleActions]: a Go map, so an unknown role has no entry. *)
Definition roleActions (role : string) : gset Action :=
  if bool_decide (role = "viewer") then setOf viewerActions
  else if bool_decide (role = "operator") then setOf (viewerActions ++ operatorExtra)
  else ∅.

Definition neverGrantableSet : gset Action := setOf neverGrantable.

Definition Grantable (act : Action) : bool := negb (bool_decide (act ∈ neverGrantableSet)).

(** [everything]. *)
Definition everything : gset Action := setOf allActions.

Definition name_le (x y : Action) : Prop := String.le (name x) (name y).
#[export] Instance name_le_dec x y : Decision (name_le x y).
Proof. unfold name_le. apply _. Defined.

(** [sorted]: by wire name. *)
Definition sorted (m : gset Action) : list Action := merge_sort name_le (elements m).

Record GrantRoleOption := mkRoleOption { optRole : string; AllowedActions : list Action }.
Record GrantExtraOption := mkExtraOption { optAction : Action; Risk : string }.

Definition GrantRoleOptions : list GrantRoleOption :=
  [mkRoleOption "viewer" (sorted (roleActions "viewer"));
   mkRoleOption "operator" (sorted (roleActions "operator"))].

Definition GrantExtraOptions : list GrantExtraOption :=
  [mkExtraOption ModsManage "Can install, update, and extract arbitrary third-party archives.";
   mkExtraOption ConfigEdit "Can change mod settings through validated forms.";
   mkExtraOption ConfigRaw "Can write arbitrary bytes to mod configuration files, and everything config.edit allows.";
   mkExtraOption BackupsRestore "Can replace the live world, permanently delete backup archives, and set how many are kept here and off-host.";
   mkExtraOption WorldImport "Can upload and replace the live world.";
   mkExtraOption InstanceSettings "Can change the server name, password, discovery, crossplay, and world rules.";
   mkExtraOption NotificationsManage "Can add webhooks for this server, which the panel then posts to, and choose what it posts about this server, including to shared webhooks."].

(** ** Users and grants (internal/store) *)

Record User := mkUser { userID : string; userRole : string; Disabled : bool }.
Definition RoleAdmin : string := "admin".

Record Grant := mkGrant { grantRole : string; Perms : list string }.

(** What [Can] needs from the database; [None] is a lookup error, [Some None]
    no live grant. *)
Class Grants := {
  GrantFor : string -> string -> option (option Grant);
  GrantedInstances : string -> option (list string)
}.

(** ** The decision (authz.go) *)

(** One entry of a grant's perms, added to the set so far. *)
Definition addPerm (out : gset Action) (perm : string) : gset Action :=
  match ParseAction perm with
  | None => out
  | Some act => if bool_decide (act ∈ neverGrantableSet) then out else {[act]} ∪ out
  end.

(** [granted]. *)
Definition granted (g : Grant) : gset Action :=
  let out := fold_left addPerm (Perms g) (roleActions (grantRole g)) in
  if bool_decide (ConfigRaw ∈ out) then {[ConfigEdit]} ∪ out else out.

Section Authz.
Context `{Grants}.

(** [decide]: the verdict and the reason a denial is logged with. *)
Definition decide_ (u : option User) (act : Action) (instanceID : string) : bool * string :=
  match u with
  | None => (false, "no authenticated user")
  | Some u =>
      if Disabled u then (false, "user is disabled")
      else if bool_decide (userRole u = RoleAdmin) then (true, "")
      else if bool_decide (act ∈ neverGrantableSet) then (false, "action is never grantable to a member")
      else if bool_decide (instanceID = "") then (false, "member holds no global capability")
      else match GrantFor (userID u) instanceID with
           | None => (false, "grant lookup failed")
           | Some None => (false, "no live grant on this instance")
           | Some (Some grant) =>
               if negb (bool_decide (act ∈ granted grant)) then (false, "grant does not carry this action")
               else (true, "")
           end
  end.

(** [Can], less its log line. *)
Definition Can (u : option User) (act : Action) (instanceID : string) : bool :=
  fst (decide_ u act instanceID).

(** [Allowed]; [None] is the lookup error. *)
Definition Allowed (u : option User) (instanceID : string) : option (list Action) :=
  match u with
  | None => Some []
  | Some u =>
      if Disabled u then Some []
      else if bool_decide (userRole u = RoleAdmin) then Some (sorted everything)
      else match GrantFor (userID u) instanceID with
           | None => None
           | Some None => Some []
           | Some (Some grant) => Some (sorted (granted grant))
           end
  end.

(** [VisibleInstances]: the ids, and whether everything is visible. *)
Definition VisibleInstances (u : option User) : option (list string * bool) :=
  match u with
  | None => Some ([], false)
  | Some u =>
      if Disabled u then Some ([], false)
      else if bool_decide (userRole u = RoleAdmin) then Some ([], true)
      else match GrantedInstances (userID u) with
           | None => None
           | Some ids => Some (ids, false)
           end
  end.

End Authz.

(** ** Lemmas *)

Lemma ParseAction_name a : ParseAction (name a) = Some a.
Proof. by destruct a. Qed.

Lemma ParseAction_Some s a : ParseAction s = Some a <-> s = name a.
Proof.
  split; [|intros ->; apply ParseAction_name].
  unfold ParseAction. destruct (list_find _ allActions) as [[i b]|] eqn:E; [|done].
  apply list_find_Some in E as (_ & Hb & _). simpl. intros [= <-]. done.
Qed.

Lemma elem_of_sorted act m : act ∈ sorted m <-> act ∈ m.
Proof. unfold sorted. rewrite merge_sort_Permutation. apply elem_of_elements. Qed.

Lemma elem_of_everything act : act ∈ everything.
Proof. apply elem_of_list_to_set, (bool_decide_unpack _). by destruct act. Qed.

Lemma elem_of_addPerms perms out act :
  act ∈ fold_left addPerm perms out <->
  act ∈ out \/ (name act ∈ perms /\ act ∉ neverGrantableSet).
Proof.
  revert out. induction perms as [|p perms IH]; intros out; cbn [fold_left].
  - split; [by left|]. intros [?|[?%not_elem_of_nil _]]; done.
  - rewrite IH, elem_of_cons. unfold addPerm. destruct (ParseAction p) as [a|] eqn:Hp.
    + apply ParseAction_Some in Hp as ->. assert (name act = name a <-> act = a) as Hinj.
      { split; [|by intros ->]. intros Hn. apply (f_equal ParseAction) in Hn.
        rewrite !ParseAction_name in Hn. congruence. }
      case_bool_decide; rewrite ?elem_of_union, ?elem_of_singleton; naive_solver.
    + assert (name act <> p) by (intros <-; by rewrite ParseAction_name in Hp). naive_solver.
Qed.

Lemma roleActions_grantable role act : act ∈ roleActions role -> act ∉ neverGrantableSet.
Proof.
  unfold roleActions, setOf, neverGrantableSet, setOf. rewrite elem_of_list_to_set. intros Hact.
  repeat case_bool_decide; [| |set_solver];
    rewrite elem_of_list_to_set in Hact; apply (bool_decide_pack _) in Hact;
    intros Hn; apply (bool_decide_pack _) in Hn; by destruct act; vm_compute in Hact, Hn.
Qed.

Lemma roleActions_no_raw role : ConfigRaw ∉ roleActions role.
Proof.
  unfold roleActions. repeat case_bool_decide; [| |exact (not_elem_of_empty _)];
    apply (bool_decide_unpack _); by vm_compute.
Qed.

(** What a grant carries, as a predicate on the stored row. *)
Definition carries (g : Grant) (act : Action) : Prop :=
  act ∈ roleActions (grantRole g) \/
  (name act ∈ Perms g /\ act ∉ neverGrantableSet) \/
  (act = ConfigEdit /\ name ConfigRaw ∈ Perms g).

Lemma elem_of_granted g act : act ∈ granted g <-> carries g act.
Proof.
  unfold granted, carries.
  assert (ConfigRaw ∈ fold_left addPerm (Perms g) (roleActions (grantRole g)) <-> name ConfigRaw ∈ Perms g) as Hraw.
  { rewrite elem_of_addPerms. split; [|intros ?; right; split; [done|by vm_compute]].
    intros [Hr|[? _]]; [|done]. by destruct (roleActions_no_raw (grantRole g)). }
  case_bool_decide as Hc; rewrite Hraw in Hc.
  - rewrite elem_of_union, elem_of_singleton, elem_of_addPerms. naive_solver.
  - rewrite elem_of_addPerms. naive_solver.
Qed.

#[local] Opaque roleActions neverGrantableSet everything.

Lemma carries_grantable g act : carries g act -> act ∉ neverGrantableSet.
Proof.
  intros [Hr|[[_ Hn]|[-> _]]]; [exact (roleActions_grantable _ _ Hr)|exact Hn|].
  apply (bool_decide_unpack _). by vm_compute.
Qed.

(** [Can] as a predicate on the user, the action and the grant looked up. *)
Lemma Can_char `{Grants} (u : option User) (act : Action) (instanceID : string) :
  Can u act instanceID = true <->
  exists usr, u = Some usr /\ Disabled usr = false /\
    (userRole usr = RoleAdmin \/
     (instanceID <> "" /\ exists g, GrantFor (userID usr) instanceID = Some (Some g) /\ carries g act)).
Proof.
  unfold Can, decide_. destruct u as [usr|]; [|naive_solver].
  destruct (Disabled usr) eqn:Hd; [naive_solver|].
  case_bool_decide as Ha; [naive_solver|].
  case_bool_decide as Hn.
  { split; [done|]. intros (? & [= <-] & _ & [Ha'|(_ & g & _ & Hg)]); [destruct (Ha Ha')|].
    destruct (carries_grantable _ _ Hg Hn). }
  case_bool_decide as Hi; [naive_solver|].
  destruct (GrantFor (userID usr) instanceID) as [[g|]|] eqn:Hg; [|naive_solver|naive_solver].
  case_bool_decide as Hin; rewrite elem_of_granted in Hin; naive_solver.
Qed.

(** ** Properties *)

(** C28. [Can] answers true exactly for an enabled admin, or for an enabled
    member asking about a named instance on which a live grant carries the
    action; a missing or disabled user, a failing lookup and an absent grant
    are all denials. *)
Theorem Can_spec `{Grants} (u : option User) (act : Action) (instanceID : string) :
  Can u act instanceID = true <->
  exists usr, u = Some usr /\ Disabled usr = false /\
    (userRole usr = RoleAdmin \/
     (instanceID <> "" /\ exists g, GrantFor (userID usr) instanceID = Some (Some g) /\ carries g act)).
Proof. exact (Can_char u act instanceID). Qed.

(** No grant row, whatever its role and perms say, gives a non-admin an
    action kept admin-only. *)
Theorem never_grantable_denied `{Grants} (usr : User) (act : Action) (instanceID : string) :
  userRole usr <> RoleAdmin -> Grantable act = false -> Can (Some usr) act instanceID = false.
Proof.
  unfold Grantable. intros Hr Hg%negb_false_iff%bool_decide_eq_true.
  apply not_true_is_false. intros (u & [= <-] & _ & [Ha|(_ & g & _ & Hc)])%Can_char; [destruct (Hr Ha)|].
  destruct (carries_grantable _ _ Hc Hg).
Qed.

Definition rowGrants (g : Grant) : Grants :=
  {| GrantFor _ _ := Some (Some g); GrantedInstances _ := Some [] |}.

Example never_grantable_denied_witness :
  @Can (rowGrants (mkGrant "operator" ["instance.delete"; "mods.manage"]))
    (Some (mkUser "u1" "member" false)) InstanceDelete "i1" = false.
Proof. apply never_grantable_denied; [done | vm_compute; reflexivity]. Defined.

(** The [allowed_actions] payload is what [Can] enforces: on a named
    instance, whenever the lookup answers, an action is listed exactly when
    [Can] allows it. *)
Theorem Allowed_Can `{Grants} (u : option User) (instanceID : string) (l : list Action) (act : Action) :
  instanceID <> "" -> Allowed u instanceID = Some l ->
  (act ∈ l <-> Can u act instanceID = true).
Proof.
  intros Hi Hl. rewrite Can_char. unfold Allowed in Hl. destruct u as [usr|].
  2: { apply (inj Some) in Hl as <-. split; [intros Hx; by apply not_elem_of_nil in Hx|intros (? & ? & Hx & _); congruence]. }
  destruct (Disabled usr) eqn:Hd.
  { apply (inj Some) in Hl as <-. split; [intros Hx; by apply not_elem_of_nil in Hx|intros (? & ? & Hx & _); congruence]. }
  case_bool_decide as Ha.
  { apply (inj Some) in Hl as <-. rewrite elem_of_sorted. split; [|intros _; apply elem_of_everything].
    intros _. exists usr. exact (conj eq_refl (conj Hd (or_introl Ha))). }
  destruct (GrantFor (userID usr) instanceID) as [[g|]|] eqn:Hg; [| |done]; apply (inj Some) in Hl as <-.
  - rewrite elem_of_sorted, elem_of_granted. split.
    + intros Hc. exists usr. refine (conj eq_refl (conj Hd (or_intror (conj Hi _)))). by exists g.
    + intros (? & [= <-] & _ & [Ha'|(_ & g' & Hg' & Hc)]); [by destruct (Ha Ha')|].
      rewrite Hg in Hg'. by injection Hg' as <-.
  - split; [intros Hx; by apply not_elem_of_nil in Hx|].
    intros (? & [= <-] & _ & [Ha'|(_ & g' & Hg' & Hc)]); [by destruct (Ha Ha')|].
    by rewrite Hg in Hg'.
Qed.

Example Allowed_Can_witness :
  let G := rowGrants (mkGrant "viewer" ["config.raw"]) in
  ConfigEdit ∈ default [] (@Allowed G (Some (mkUser "u1" "member" false)) "i1") <->
  @Can G (Some (mkUser "u1" "member" false)) ConfigEdit "i1" = true.
Proof. apply Allowed_Can; [done | vm_compute; reflexivity]. Defined.
