(* ===== verification/Kinds.v ===== *)
(** internal/jobs/kind.go: the closed register of job kinds, which of them need
    disk room and honour a resume intent, and the lock keys. *)
From S2P Require Import Prelude.

(** A kind is a wire name behind an unexported field; the zero [Kind] and
    [Kind{j.Kind}] of an unread row carry names outside the register. *)
Record Kind := mkKind { kindName : string }.

#[export] Instance Kind_eq_dec : EqDecision Kind.
Proof. solve_decision. Defined.
#[export] Instance Kind_countable : Countable Kind.
Proof. refine (inj_countable' kindName mkKind _). by intros []. Defined.

Definition KindProvision : Kind := mkKind "provision".
Definition KindStart : Kind := mkKind "start".
Definition KindStop : Kind := mkKind "stop".
Definition KindRestart : Kind := mkKind "restart".
Definition KindDelete : Kind := mkKind "delete".
Definition KindWorldImport : Kind := mkKind "world_import".
Definition KindThunderstoreSync : Kind := mkKind "thunderstore_sync".
Definition KindModInstall : Kind := mkKind "mod_install".
Definition KindModUninstall : Kind := mkKind "mod_uninstall".
Definition KindModToggle : Kind := mkKind "mod_toggle".
Definition KindBackup : Kind := mkKind "backup".
Definition KindRemoteCopy : Kind := mkKind "remote_copy".
Definition KindRemoteTest : Kind := mkKind "remote_test".
Definition KindRemotePrune : Kind := mkKind "remote_prune".
Definition KindRemoteCreate : Kind := mkKind "remote_create".
Definition KindRestore : Kind := mkKind "restore".
Definition KindPrune : Kind := mkKind "prune".
Definition KindDiagnose : Kind := mkKind "diagnose".
Definition KindUpdateCheck : Kind := mkKind "update_check".
Definition KindGameUpdate : Kind := mkKind "game_update".
Definition KindClone : Kind := mkKind "clone".
Definition KindConfigApply : Kind := mkKind "config_apply".
Definition KindKeyRotate : Kind := mkKind "key_rotate".
Definition KindWebhookDeliver : Kind := mkKind "webhook_deliver".
Definition KindWorldDelete : Kind := mkKind "world_delete".
Definition KindAdopt : Kind := mkKind "adopt".
Definition KindSetupSave : Kind := mkKind "setup_save".
Definition KindSetupRestore : Kind := mkKind "setup_restore".
Definition KindSetupDelete : Kind := mkKind "setup_delete".
Definition KindWorldTool : Kind := mkKind "world_tool".
Definition KindAlertScan : Kind := mkKind "alert_scan".
Definition KindChain : Kind := mkKind "chain".
Definition KindUpdateTest : Kind := mkKind "update_test".
Definition KindUpdateApply : Kind := mkKind "update_apply".
Definition KindExport : Kind := mkKind "export".

(** [resumeIntentHonoured]: a map with one entry. *)
Definition ResumeIntentHonoured (k : Kind) : bool := bool_decide (k = KindBackup).

(** [needsDiskRoom], as the table it is in the code. *)
Definition needsDiskRoom : list (Kind * bool) :=
  map (fun k => (k, true))
  [KindProvision; KindWorldImport; KindModInstall; KindBackup; KindRestore; KindGameUpdate;
   KindClone; KindSetupSave; KindSetupRestore; KindWorldTool; KindUpdateTest; KindUpdateApply;
   KindExport] ++
  map (fun k => (k, false))
  [KindStart; KindStop; KindRestart; KindDelete; KindThunderstoreSync; KindModUninstall;
   KindModToggle; KindPrune; KindUpdateCheck; KindConfigApply; KindAdopt; KindWorldDelete;
   KindSetupDelete; KindKeyRotate; KindWebhookDeliver; KindAlertScan; KindDiagnose; KindChain;
   KindRemoteCopy; KindRemoteTest; KindRemotePrune; KindRemoteCreate].

(** A missing key reads as the zero value. *)
Definition NeedsDiskRoom (k : Kind) : bool :=
  from_option snd false (list_find (fun e => e.1 = k) needsDiskRoom ≫= fun r => Some r.2).

Definition allKinds : list Kind :=
  [KindProvision; KindStart; KindStop; KindRestart; KindDelete; KindWorldImport;
   KindThunderstoreSync; KindModInstall; KindModUninstall; KindModToggle; KindBackup;
   KindRestore; KindPrune; KindUpdateCheck; KindGameUpdate; KindClone; KindConfigApply;
   KindAdopt; KindWorldDelete; KindSetupSave; KindSetupRestore; KindSetupDelete; KindKeyRotate;
   KindWebhookDeliver; KindAlertScan; KindDiagnose; KindRemoteCopy; KindRemoteTest;
   KindRemotePrune; KindRemoteCreate; KindWorldTool; KindChain; KindUpdateTest; KindUpdateApply;
   KindExport].

Definition Kinds : list Kind := allKinds.

(** [ByName]; [None] is an unknown kind. *)
Definition ByName (n : string) : option Kind :=
  snd <$> list_find (fun k => kindName k = n) allKinds.

Definition InstanceLockKey (instanceID : string) : string := "instance:" +:+ instanceID.
Definition ChainLockKey (instanceID : string) : string := "chain:" +:+ instanceID.
Definition GlobalLockKey (k : Kind) : string := "global:" +:+ kindName k.

(** ** Lemmas *)

Lemma ByName_Some n k : ByName n = Some k <-> k ∈ allKinds /\ kindName k = n.
Proof.
  split.
  - unfold ByName. destruct (list_find _ allKinds) as [[i k']|] eqn:E; [|done].
    simpl. intros [= ->]. apply list_find_Some in E as (Hi & Hn & _). split; [|done].
    by eapply list_elem_of_lookup_2.
  - intros [Hk <-]. revert k Hk. apply Forall_forall. by repeat constructor.
Qed.

(** Kinds outside the register, such as the zero kind, need no room and honour
    nothing. *)
Lemma NeedsDiskRoom_registered k : NeedsDiskRoom k = true -> k ∈ allKinds.
Proof.
  unfold NeedsDiskRoom. destruct (list_find _ needsDiskRoom) as [[i [k' b]]|] eqn:E; [|done].
  apply list_find_Some in E as (Hi & Hk & _). simpl in *. subst k'. intros _.
  apply list_elem_of_lookup_2 in Hi. revert Hi.
  assert (Forall (fun e => e.1 ∈ allKinds) needsDiskRoom) as HF.
  { apply (bool_decide_unpack _). by vm_compute. }
  rewrite Forall_forall in HF. apply HF.
Qed.

Lemma app_inj_prefix (p a b : string) : p +:+ a = p +:+ b -> a = b.
Proof. induction p as [|c p IH]; [done|]. intros [= H]. by apply IH. Qed.

(** ** Properties *)

(** A kind is stored by its wire name and read back by [ByName]; every
    registered kind has made its disk-room choice exactly once, which is what
    the comment on the table asks for. *)
Theorem kind_register_complete (k : Kind) :
  k ∈ allKinds ->
  ByName (kindName k) = Some k /\
  (exists b, filter (fun e => e.1 = k) needsDiskRoom = [(k, b)] /\ NeedsDiskRoom k = b).
Proof.
  intros Hk. split; [by apply ByName_Some|].
  revert k Hk. apply Forall_forall. by repeat (constructor; [eexists; split; vm_compute; reflexivity|]).
Qed.

Example kind_register_complete_witness :
  ByName "backup" = Some KindBackup /\
  (exists b, filter (fun e => e.1 = KindBackup) needsDiskRoom = [(KindBackup, b)] /\
    NeedsDiskRoom KindBackup = b).
Proof. apply (kind_register_complete KindBackup). apply (bool_decide_unpack _). by vm_compute. Defined.

(** The three lock-key families never meet, and within a family the key
    determines its instance or kind: two jobs contend for a key exactly when
    they are about the same thing. *)
Theorem lock_keys_disjoint (i j : string) (k k' : Kind) :
  InstanceLockKey i <> ChainLockKey j /\ InstanceLockKey i <> GlobalLockKey k /\
  ChainLockKey i <> GlobalLockKey k /\
  (InstanceLockKey i = InstanceLockKey j <-> i = j) /\
  (ChainLockKey i = ChainLockKey j <-> i = j) /\
  (GlobalLockKey k = GlobalLockKey k' <-> k = k').
Proof.
  split_and!; try (by intros [=]).
  - split; [apply app_inj_prefix|by intros ->].
  - split; [apply app_inj_prefix|by intros ->].
  - split; [|by intros ->]. intros H%app_inj_prefix. destruct k, k'. simpl in H. by subst.
Qed.
