(* ===== verification/Lifecycle.v ===== *)
(** internal/instance state.go, observe.go and reconcile.go: the lifecycle
    table, the compare-and-swap that writes it, the states a job kind may be
    claimed from, and the observer's verdicts. *)
From S2P Require Import Prelude Kinds.

(** ** The lifecycle table (state.go) *)

Abbreviation State := string (only parsing).
Definition StateCreated : State := "created".
Definition StateProvisioning : State := "provisioning".
Definition StateStopped : State := "stopped".
Definition StateStarting : State := "starting".
Definition StateRunning : State := "running".
Definition StateStopping : State := "stopping".
Definition StateBackingUp : State := "backing_up".
Definition StateRestoring : State := "restoring".
Definition StateUpdating : State := "updating".
Definition StateDeleting : State := "deleting".
Definition StateError : State := "error".

(** The eleven states of the schema's CHECK constraint. *)
Definition states : list State :=
  [StateCreated; StateProvisioning; StateStopped; StateStarting; StateRunning; StateStopping;
   StateBackingUp; StateRestoring; StateUpdating; StateDeleting; StateError].

Definition edgeList : list (State * State) :=
  [(StateCreated, StateProvisioning);
   (StateError, StateProvisioning);
   (StateProvisioning, StateStopped);
   (StateProvisioning, StateError);
   (StateStopped, StateStarting);
   (StateStopped, StateError);
   (StateStarting, StateRunning);
   (StateStarting, StateError);
   (StateStarting, StateStopped);
   (StateRunning, StateStopping);
   (StateStopping, StateStarting);
   (StateStopping, StateStopped);
   (StateStopping, StateError);
   (StateRunning, StateStopped);
   (StateRunning, StateError);
   (StateStopped, StateRunning);
   (StateStopped, StateBackingUp);
   (StateStopped, StateRestoring);
   (StateStopped, StateUpdating);
   (StateBackingUp, StateStopped);
   (StateBackingUp, StateRunning);
   (StateRestoring, StateStopped);
   (StateRestoring, StateError);
   (StateUpdating, StateStopped);
   (StateUpdating, StateError);
   (StateStopped, StateDeleting);
   (StateError, StateDeleting);
   (StateError, StateStopped);
   (StateError, StateRunning)].

Definition edges : gset (State * State) := list_to_set edgeList.

Definition Valid (from to : State) : bool := bool_decide ((from, to) ∈ edges).

(** ** Writing the state

    Errors of the writers: the illegal edge, or what the database said. *)
Inductive StateError_ :=
| IllegalTransition (from to : State)
| NotInState (id : string) (from : State)
| DriverError.

Definition ValidateTransition (from to : State) : result StateError_ unit :=
  if negb (Valid from to) then Err (IllegalTransition from to) else Ok tt.

(** [StateWriter]: one compare-and-swap on a store of type [DB]; it answers
    whether a row moved. *)
Class StateWriter (DB : Type) := {
  UpdateInstanceState : string -> State -> State -> DB -> result StateError_ bool * DB
}.

Section SetState.
Context {DB : Type} `{StateWriter DB}.

Definition SetState (id : string) (from to : State) (db : DB) : result StateError_ bool * DB :=
  match ValidateTransition from to with
  | Err e => (Err e, db)
  | Ok _ =>
      let '(r, db') := UpdateInstanceState id from to db in
      match r with
      | Err e => (Err e, db')
      | Ok ok => (Ok ok, db')
      end
  end.

(** [HoldStateTx]: the same write with no edge, asserting the state. *)
Definition HoldState (id : string) (s : State) (db : DB) : result StateError_ bool * DB :=
  UpdateInstanceState id s s db.

End SetState.

(** ** The states a kind is claimed from *)

Definition requires (kind : Kind) : list State :=
  if bool_decide (kind = KindProvision) then [StateCreated; StateError]
  else if bool_decide (kind = KindStart) then [StateStopped]
  else if bool_decide (kind = KindStop) then [StateRunning]
  else if bool_decide (kind = KindRestart) then [StateRunning]
  else if bool_decide (kind = KindDelete) then [StateStopped; StateError]
  else if bool_decide (kind = KindWorldImport) then [StateStopped]
  else if bool_decide (kind = KindBackup) then [StateStopped; StateRunning]
  else if bool_decide (kind = KindRestore) then [StateStopped]
  else if bool_decide (kind = KindGameUpdate) then [StateStopped]
  else if bool_decide (kind = KindClone) then [StateStopped]
  else if bool_decide (kind = KindSetupSave) then [StateStopped]
  else if bool_decide (kind = KindSetupRestore) then [StateStopped]
  else if bool_decide (kind = KindWorldTool) then [StateStopped]
  else if bool_decide (kind = KindChain) then [StateStopped; StateRunning]
  else if bool_decide (kind = KindUpdateTest) then [StateStopped; StateRunning]
  else if bool_decide (kind = KindUpdateApply) then [StateStopped; StateRunning]
  else [].

(** Sorted by wire name. *)
Definition AllowedFrom (kind : Kind) : list State := merge_sort String.le (requires kind).

(** ** Docker's side (observe.go, reconcile.go) *)

Record Reality := mkReality {
  Found : bool;
  Running : bool;
  OOMKilled : bool;
  RestartCount : Z;
  CrashLooping : bool
}.

Definition noReality : Reality := mkReality false false false 0 false.

Record Verdict := mkVerdict {
  To : State;
  Reason : string;
  Stop : bool;
  Recheck : bool;
  Rerun : Kind
}.

#[export] Instance Verdict_eq_dec : EqDecision Verdict.
Proof. solve_decision. Defined.

(** The zero values: no kind, leave the row alone. *)
Definition noKind : Kind := mkKind "".
Definition noVerdict : Verdict := mkVerdict "" "" false false noKind.
Definition moveTo (to : State) (reason : string) : Verdict := mkVerdict to reason false false noKind.

Definition up (r : Reality) : bool := Found r && Running r.

Definition observeRunning (r : Reality) : Verdict :=
  if negb (Found r) then moveTo StateError "container disappeared"
  else if OOMKilled r then
    mkVerdict StateError "container was killed by the out-of-memory killer; the world may be damaged" true false noKind
  else if CrashLooping r then mkVerdict StateError "container is restarting repeatedly" true false noKind
  else if negb (Running r) then moveTo StateStopped "container exited"
  else noVerdict.

Definition Observe (state : State) (r : Reality) : Verdict :=
  if bool_decide (state = StateCreated \/ state = StateError) then noVerdict
  else if bool_decide (state = StateRunning) then observeRunning r
  else if bool_decide (state = StateStopped) then
    if up r then moveTo StateRunning "container is running; Docker wins" else noVerdict
  else if bool_decide (state = StateProvisioning) then
    mkVerdict StateError "provisioning was interrupted and cannot be resumed" false false KindProvision
  else if bool_decide (state = StateStarting) then
    if up r then mkVerdict StateRunning "start was interrupted; rechecking readiness" false true noKind
    else moveTo StateStopped "the start did not happen"
  else if bool_decide (state = StateStopping) then
    if up r then moveTo StateError "a stop was requested and demonstrably did not complete"
    else moveTo StateStopped "container exited"
  else if bool_decide (state = StateBackingUp) then
    if up r then moveTo StateRunning "hot copy was interrupted; the server never stopped"
    else moveTo StateStopped "backup was interrupted; the world was never touched"
  else if bool_decide (state = StateRestoring) then
    moveTo StateError "a restore was interrupted; the world on disk is unproven"
  else if bool_decide (state = StateUpdating) then
    moveTo StateError "a game update was interrupted; the server tree is unproven"
  else if bool_decide (state = StateDeleting) then
    mkVerdict "" "delete was interrupted" false false KindDelete
  else noVerdict.

(** [CrashLoop]: the observer's memory of each container's restart count. *)
Record crashMark := mkMark { count : Z; markAt : Z }.
Record CrashLoop := mkCrash { Threshold : Z; Window : Z; marks : gmap string crashMark }.

(** Nanoseconds. *)
Definition minute : Z := 60 * 1000000000.
Definition CrashLoopThreshold : Z := 3.
Definition CrashLoopWindow : Z := 10 * minute.
Definition NewCrashLoop : CrashLoop := mkCrash CrashLoopThreshold CrashLoopWindow ∅.

Definition Looping (c : CrashLoop) (containerID : string) (restartCount now : Z) : CrashLoop * bool :=
  let rebase := (mkCrash (Threshold c) (Window c)
                  (<[containerID := mkMark restartCount now]> (marks c)), false) in
  match marks c !! containerID with
  | None => rebase
  | Some mark =>
      if (restartCount <? count mark)%Z || (Window c <? now - markAt mark)%Z then rebase
      else (c, (Threshold c <=? restartCount - count mark)%Z)
  end.

Definition Forget (c : CrashLoop) (containerID : string) : CrashLoop :=
  mkCrash (Threshold c) (Window c) (delete containerID (marks c)).

(** What [Inspect] answers: a container's running flag, not found, or another
    error. *)
Inductive Inspected := InspectNotFound | InspectError | InspectOk (running : bool).

(** [Reconcile]: what an acknowledged error row becomes. *)
Definition Reconcile (Inspect : string -> Inspected) (containerID : string) : result unit State :=
  if bool_decide (containerID = "") then Ok StateStopped
  else match Inspect containerID with
       | InspectNotFound => Ok StateStopped
       | InspectError => Err tt
       | InspectOk true => Ok StateRunning
       | InspectOk false => Ok StateStopped
       end.

(** ** The state machine as a relation *)

Definition step (from to : State) : Prop := Valid from to = true.

(** A path given by the states it visits. *)
Fixpoint walk (from : State) (path : list State) : bool :=
  match path with
  | [] => true
  | to :: path => Valid from to && walk to path
  end.

Lemma walk_rtc from path to :
  walk from path = true -> last (from :: path) = Some to -> rtc step from to.
Proof.
  revert from. induction path as [|s path IH]; intros from; simpl.
  - intros _ [= ->]. done.
  - intros [He Hw]%andb_true_iff Hl. eapply rtc_l; [exact He|]. by apply IH.
Qed.

Lemma Valid_irrefl s : Valid s s = false.
Proof.
  unfold Valid, edges. apply bool_decide_eq_false. rewrite elem_of_list_to_set.
  assert (Forall (fun e => e.1 <> e.2) edgeList) as HF by (apply (bool_decide_unpack _); by vm_compute).
  rewrite Forall_forall in HF. intros Hin. by apply (HF _ Hin).
Qed.

Lemma Valid_states from to : Valid from to = true -> from ∈ states /\ to ∈ states.
Proof.
  unfold Valid, edges. rewrite bool_decide_eq_true, elem_of_list_to_set.
  assert (Forall (fun e => e.1 ∈ states /\ e.2 ∈ states) edgeList) as HF
    by (apply (bool_decide_unpack _); by vm_compute).
  rewrite Forall_forall in HF. apply (HF (from, to)).
Qed.

(** A closed statement about every state, by evaluation. *)
Lemma states_ind (P : State -> Prop) :
  Forall P states -> forall s, s ∈ states -> P s.
Proof. by rewrite Forall_forall. Qed.

(** The laws of a compare-and-swap on the state column. *)
Class StateWriterLaws (DB : Type) `{StateWriter DB} := {
  stateOf : string -> DB -> option State;
  update_ok id from to db db' :
    UpdateInstanceState id from to db = (Ok true, db') ->
    stateOf id db = Some from /\ stateOf id db' = Some to /\
    forall j, j <> id -> stateOf j db' = stateOf j db;
  update_miss id from to db db' :
    UpdateInstanceState id from to db = (Ok false, db') ->
    stateOf id db <> Some from /\ forall j, stateOf j db' = stateOf j db;
  update_err id from to db db' e :
    UpdateInstanceState id from to db = (Err e, db') -> forall j, stateOf j db' = stateOf j db
}.

(** A table with one row, for the witnesses. *)
Definition oneRow := (string * State)%type.
#[export] Instance oneRow_writer : StateWriter oneRow := {
  UpdateInstanceState id from to db :=
    if bool_decide (db = (id, from)) then (Ok true, (id, to)) else (Ok false, db)
}.
#[export] Program Instance oneRow_laws : StateWriterLaws oneRow := {
  stateOf id db := if bool_decide (db.1 = id) then Some db.2 else None
}.
Next Obligation.
  intros id from to db db'. unfold UpdateInstanceState, oneRow_writer.
  case_bool_decide as Hd; intros [= <-]. subst db. cbn [fst snd].
  rewrite !bool_decide_eq_true_2 by done. split_and!; [done..|].
  intros j Hj. by rewrite !bool_decide_eq_false_2 by done.
Qed.
Next Obligation.
  intros id from to db db'. unfold UpdateInstanceState, oneRow_writer.
  case_bool_decide as Hd; intros [= <-]. split; [|done].
  case_bool_decide; [|done]. intros [= <-]. apply Hd. destruct db; simpl in *. by subst.
Qed.
Next Obligation.
  intros id from to db db' e. unfold UpdateInstanceState, oneRow_writer.
  case_bool_decide; intros [=].
Qed.

Section writers.
Context {DB : Type} `{StateWriterLaws DB}.

Lemma SetState_Ok id from to db db' :
  SetState id from to db = (Ok true, db') ->
  Valid from to = true /\ stateOf id db = Some from /\ stateOf id db' = Some to /\
  forall j, j <> id -> stateOf j db' = stateOf j db.
Proof.
  unfold SetState, ValidateTransition. destruct (Valid from to); simpl; [|done].
  destruct (UpdateInstanceState id from to db) as [[[]|] d] eqn:E; intros [= <-].
  split; [done|]. by apply update_ok.
Qed.

Lemma SetState_unchanged id from to db db' r :
  SetState id from to db = (r, db') -> r <> Ok true -> forall j, stateOf j db' = stateOf j db.
Proof.
  unfold SetState, ValidateTransition. destruct (Valid from to); simpl; [|by intros [= _ <-]].
  destruct (UpdateInstanceState id from to db) as [[[]|] d] eqn:E; intros [= <- <-] Hr; try done.
  - by eapply update_miss.
  - by eapply update_err.
Qed.

Lemma SetState_step id from to db db' r j :
  SetState id from to db = (r, db') ->
  stateOf j db' = stateOf j db \/
  exists s s', stateOf j db = Some s /\ stateOf j db' = Some s' /\ step s s'.
Proof.
  intros E. assert (r = Ok true \/ r <> Ok true) as [->|Hr] by (destruct r as [[]|]; auto).
  - apply SetState_Ok in E as (Hv & Ho & Hn & Hj). destruct (decide (j = id)) as [->|]; [|left; auto].
    right. by exists from, to.
  - left. by eapply SetState_unchanged.
Qed.

(** A sequence of writes by whoever writes. *)
Definition SetStates (ops : list (string * State * State)) (db : DB) : DB :=
  fold_left (fun db op => (SetState op.1.1 op.1.2 op.2 db).2) ops db.

End writers.

Create HintDb lifecycle.
#[export] Hint Resolve SetState_unchanged : lifecycle.

Lemma Observe_unknown s r : s ∉ states -> Observe s r = noVerdict.
Proof.
  intros Hs. unfold Observe.
  rewrite (bool_decide_eq_false_2 (_ \/ _)).
  2: { intros [->| ->]; apply Hs, (bool_decide_unpack _); by vm_compute. }
  repeat (rewrite bool_decide_eq_false_2; [|intros ->; apply Hs, (bool_decide_unpack _); by vm_compute]).
  done.
Qed.

(** Marks are remembered observations. *)
Definition observed (h : list (string * Z * Z)) (c : CrashLoop) : Prop :=
  forall id m, marks c !! id = Some m -> (id, count m, markAt m) ∈ h.

Definition Loopings (c : CrashLoop) (h : list (string * Z * Z)) : CrashLoop :=
  fold_left (fun c o => (Looping c o.1.1 o.1.2 o.2).1) h c.

Lemma Looping_config c id n now :
  Threshold (Looping c id n now).1 = Threshold c /\ Window (Looping c id n now).1 = Window c.
Proof. unfold Looping. repeat case_match; done. Qed.

Lemma Looping_observed h c id n now :
  observed h c -> observed (h ++ [(id, n, now)]) (Looping c id n now).1.
Proof.
  intros Hc. assert (observed (h ++ [(id, n, now)]) c) as Hc'.
  { intros j m Hj. apply elem_of_app. left. by apply Hc. }
  assert (observed (h ++ [(id, n, now)]) (mkCrash (Threshold c) (Window c) (<[id := mkMark n now]> (marks c)))).
  { intros j m. cbn [marks]. intros [[-> <-]|[_ Hj]]%lookup_insert_cases; [|by apply Hc'].
    apply elem_of_app. right. by apply list_elem_of_singleton. }
  unfold Looping. repeat case_match; done.
Qed.

Lemma Loopings_observed h0 c h :
  observed h0 c -> observed (h0 ++ h) (Loopings c h) /\
  Threshold (Loopings c h) = Threshold c /\ Window (Loopings c h) = Window c.
Proof.
  revert h0 c. induction h as [|[[id n] now] h IH]; intros h0 c Hc; [by rewrite app_nil_r|].
  specialize (IH (h0 ++ [(id, n, now)]) (Looping c id n now).1 (Looping_observed _ _ _ _ _ Hc)).
  rewrite <- app_assoc in IH. simpl in IH. unfold Loopings in *. cbn [fold_left fst snd] in *.
  destruct (Looping_config c id n now) as [<- <-]. exact IH.
Qed.

(** ** Properties *)

(** The lifecycle has no dead end and no orphan: every state is reached from
    [created], every state but [deleting] leads back to [stopped], and
    [deleting] has no successor. *)
Theorem lifecycle_reachability (s : State) :
  s ∈ states ->
  rtc step StateCreated s /\
  (s <> StateDeleting -> rtc step s StateStopped) /\
  (s = StateDeleting -> forall t, Valid s t = false).
Proof.
  intros Hs. split; [|split].
  - revert s Hs. apply states_ind. pose (p := [StateProvisioning; StateStopped]).
    repeat (apply Forall_cons; split); try apply Forall_nil; try exact I.
    1: apply (walk_rtc _ []); by vm_compute.
    1: apply (walk_rtc _ [StateProvisioning]); by vm_compute.
    1: apply (walk_rtc _ p); by vm_compute.
    1: apply (walk_rtc _ (p ++ [StateStarting])); by vm_compute.
    1: apply (walk_rtc _ (p ++ [StateRunning])); by vm_compute.
    1: apply (walk_rtc _ (p ++ [StateRunning; StateStopping])); by vm_compute.
    all: match goal with |- rtc _ _ ?t => apply (walk_rtc _ (p ++ [t])); by vm_compute end.
  - revert s Hs. apply (states_ind (fun s => s <> StateDeleting -> rtc step s StateStopped)).
    repeat (apply Forall_cons; split); try apply Forall_nil; try exact I; intros Hne.
    1: apply (walk_rtc _ [StateProvisioning; StateStopped]); by vm_compute.
    2: apply (walk_rtc _ []); by vm_compute.
    8: by destruct Hne.
    all: apply (walk_rtc _ [StateStopped]); by vm_compute.
  - intros -> t. unfold Valid, edges. apply bool_decide_eq_false. rewrite elem_of_list_to_set.
    assert (Forall (fun e => e.1 <> StateDeleting) edgeList) as HF
      by (apply (bool_decide_unpack _); by vm_compute).
    rewrite Forall_forall in HF. intros Hin. by apply (HF _ Hin).
Qed.

Example lifecycle_reachability_witness :
  rtc step StateCreated StateUpdating /\
  (StateUpdating <> StateDeleting -> rtc step StateUpdating StateStopped) /\
  (StateUpdating = StateDeleting -> forall t, Valid StateUpdating t = false).
Proof. apply lifecycle_reachability. apply (bool_decide_unpack _). by vm_compute. Defined.

(** Whatever sequence of writes the panel's two writers attempt, each
    instance's state only ever moves along the lifecycle table, and of two
    writers that saw the same state at most one moves it. *)
Theorem SetStates_reachable {DB} `{StateWriterLaws DB} (ops : list (string * State * State)) (db : DB) :
  (forall j s, stateOf j db = Some s -> exists s', stateOf j (SetStates ops db) = Some s' /\ rtc step s s') /\
  (forall id from to1 to2 db1, SetState id from to1 db = (Ok true, db1) ->
     (SetState id from to2 db1).1 <> Ok true).
Proof.
  split.
  - intros j. unfold SetStates. revert db. induction ops as [|[[id from] to] ops IH]; intros db s Hs; [by exists s|].
    cbn [fold_left fst snd]. destruct (SetState id from to db) as [r d] eqn:E. cbn [snd].
    destruct (SetState_step _ _ _ _ _ _ j E) as [Heq|(s0 & s1 & Hs0 & Hs1 & Hst)].
    + apply IH. by rewrite Heq.
    + rewrite Hs0 in Hs. injection Hs as ->. destruct (IH d s1 Hs1) as (s' & ? & ?).
      exists s'. split; [done|]. by eapply rtc_l.
  - intros id from to1 to2 db1 (Hv & _ & Hd1 & _)%SetState_Ok.
    destruct (SetState id from to2 db1) as [r d] eqn:E. cbn [fst]. intros ->.
    destruct (SetState_Ok _ _ _ _ _ E) as (_ & Hd2 & _). rewrite Hd1 in Hd2. injection Hd2 as ->.
    by rewrite Valid_irrefl in Hv.
Qed.

Example SetStates_reachable_witness :
  let db : oneRow := ("i1", StateStopped) in
  (forall j s, stateOf j db = Some s ->
     exists s', stateOf j (SetStates [("i1", StateStopped, StateStarting); ("i1", StateStopped, StateDeleting)] db) = Some s' /\ rtc step s s') /\
  (forall id from to1 to2 db1, SetState id from to1 db = (Ok true, db1) ->
     (SetState id from to2 db1).1 <> Ok true).
Proof. apply SetStates_reachable. Defined.

(** The observer never asks for an illegal write: whatever Docker says, the
    state a verdict moves to is a legal successor, both outcomes of a
    readiness recheck included, and [created] and [error] are never moved. *)
Theorem Observe_legal (s : State) (r : Reality) :
  (To (Observe s r) <> "" -> Valid s (To (Observe s r)) = true) /\
  (Recheck (Observe s r) = true -> Valid s StateRunning = true /\ Valid s StateError = true) /\
  (s = StateCreated \/ s = StateError -> Observe s r = noVerdict).
Proof.
  split_and!.
  - destruct (decide (s ∈ states)) as [Hs|Hs]; [|by rewrite Observe_unknown].
    revert s Hs. destruct r as [f ru o n c].
    refine (states_ind (fun s => To (Observe s _) <> "" -> Valid s (To (Observe s _)) = true) _).
    destruct f, ru, o, c; repeat (apply Forall_cons; split); try apply Forall_nil; vm_compute; auto.
  - destruct (decide (s ∈ states)) as [Hs|Hs]; [|by rewrite Observe_unknown].
    revert s Hs. destruct r as [f ru o n c].
    refine (states_ind (fun s => Recheck (Observe s _) = true -> Valid s StateRunning = true /\ Valid s StateError = true) _).
    destruct f, ru, o, c; repeat (apply Forall_cons; split); try apply Forall_nil; vm_compute; auto.
  - intros H. unfold Observe. by rewrite bool_decide_eq_true_2.
Qed.

(** The write one pass makes when Docker keeps answering [r] and a recheck
    answers running. *)
Definition settle (r : Reality) (s : State) : State :=
  if bool_decide (To (Observe s r) = "") then s else To (Observe s r).

(** The observer converges: from any state, against a container that does not
    change, it has nothing left to write after two passes, and the row then
    agrees with Docker: [running] exactly a container that is up, [stopped]
    one that is not, unless it is parked, being created or being deleted. *)
Theorem Observe_settles (s : State) (r : Reality) :
  s ∈ states ->
  let s' := settle r (settle r s) in
  To (Observe s' r) = "" /\
  (s' = StateCreated \/ s' = StateError \/ s' = StateDeleting \/
   (s' = StateRunning /\ up r = true /\ OOMKilled r = false /\ CrashLooping r = false) \/
   (s' = StateStopped /\ up r = false)).
Proof.
  intros Hs. destruct r as [f ru o n c]. revert s Hs.
  apply states_ind. destruct f, ru, o, c; repeat (apply Forall_cons; split); try apply Forall_nil;
    try exact I; split; try (vm_compute; reflexivity); vm_compute; auto 10.
Qed.

Example Observe_settles_witness :
  let s' := settle (mkReality true true true 0 false) (settle (mkReality true true true 0 false) StateStarting) in
  To (Observe s' (mkReality true true true 0 false)) = "" /\
  (s' = StateCreated \/ s' = StateError \/ s' = StateDeleting \/
   (s' = StateRunning /\ up (mkReality true true true 0 false) = true /\ true = false /\ false = false) \/
   (s' = StateStopped /\ up (mkReality true true true 0 false) = false)).
Proof.
  apply (Observe_settles StateStarting (mkReality true true true 0 false)).
  apply (bool_decide_unpack _). by vm_compute.
Defined.

(** A crash loop is only reported on evidence: some earlier observation of the
    same container, at most the window ago, had a restart count lower by at
    least the threshold. *)
Theorem Looping_sound (h : list (string * Z * Z)) (id : string) (n now : Z) :
  (Looping (Loopings NewCrashLoop h) id n now).2 = true ->
  exists n0 t0, (id, n0, t0) ∈ h /\ (now - t0 <= CrashLoopWindow)%Z /\ (CrashLoopThreshold <= n - n0)%Z.
Proof.
  destruct (Loopings_observed [] NewCrashLoop h) as (Ho & Ht & Hw).
  { intros j m. unfold NewCrashLoop. cbn [marks]. by rewrite lookup_empty. }
  unfold Looping. rewrite Ht, Hw. destruct (marks _ !! id) as [m|] eqn:Hm; [|done].
  destruct (_ || _) eqn:Hb; [done|]. cbn [snd]. intros Hl. prop_bool.
  apply Z.leb_le in Hl. exists (count m), (markAt m). split; [by apply Ho|]. simpl in *. lia.
Qed.

Example Looping_sound_witness :
  exists n0 t0, ("c1", n0, t0) ∈ [("c1", 4, 0); ("c1", 6, minute)]%Z /\
    (2 * minute - t0 <= CrashLoopWindow)%Z /\ (CrashLoopThreshold <= 7 - n0)%Z.
Proof. apply Looping_sound. vm_compute. reflexivity. Defined.

(** The converse fails: the window is anchored at a baseline up to ten minutes
    old, so three restarts two minutes apart go unreported. *)
Lemma Looping_window_missed :
  (Looping (Loopings NewCrashLoop [("c1", 0, 0); ("c1", 0, 9 * minute)]%Z) "c1" 3 (11 * minute)).2 = false.
Proof. reflexivity. Qed.

(** [allowed_states] is the Requires column, sorted and free of repeats, and
    names lifecycle states only. *)
Theorem AllowedFrom_spec (k : Kind) (s : State) :
  (s ∈ AllowedFrom k <-> s ∈ requires k) /\ Sorted String.le (AllowedFrom k) /\
  NoDup (AllowedFrom k) /\ (s ∈ AllowedFrom k -> s ∈ states).
Proof.
  assert (AllowedFrom k ≡ₚ requires k) as Hp by apply merge_sort_Permutation.
  split_and!.
  - by rewrite Hp.
  - apply Sorted_merge_sort, _.
  - rewrite Hp. unfold requires.
    repeat (case_bool_decide; [apply (bool_decide_unpack _); by vm_compute|]). constructor.
  - rewrite Hp. revert s. apply Forall_forall.
    unfold requires.
    repeat (case_bool_decide; [apply (bool_decide_unpack _); by vm_compute|]). constructor.
Qed.

Lemma Reconcile_Ok Inspect containerID s :
  Reconcile Inspect containerID = Ok s ->
  (s = StateRunning <-> containerID <> "" /\ Inspect containerID = InspectOk true) /\
  (s = StateRunning \/ s = StateStopped) /\ Valid StateError s = true.
Proof.
  unfold Reconcile. case_bool_decide; [|destruct (Inspect containerID) as [| |[]]];
    intros [= <-]; (split; [|split; [auto|by vm_compute]]); naive_solver.
Qed.
