(* ===== verification/Sql.v ===== *)
(** Transactions over the panel's SQLite tables (internal/store/db.go): a
    statement is a function on the tables; a fault stream decides which
    statements, begins and commits the driver fails, so a theorem about every
    stream covers every point a transaction can stop at.

    [D] is the record of tables a component touches. *)
From S2P Require Import Prelude Lifecycle.

(** ** Transactions *)

Inductive TxErr :=
| EDriver                              (* the driver failed the statement *)
| EUnique                              (* a UNIQUE or PRIMARY KEY collision *)
| EConstraint                          (* a foreign key or CHECK violation *)
| EEmptyLockKey
| EConflict (jobID kind : string)      (* *JobConflict *)
| EHolder (key : string)               (* the holder of a held lock is unreadable *)
| EState (e : StateError_)
| EHook (what : string).               (* an error of a caller's own hook *)

Definition faults := list bool.

Section Tx.
Context {D : Type}.

Definition TxS := (D * faults)%type.
Definition Tx (A : Type) := TxS -> result TxErr A * TxS.

Definition tret {A} (a : A) : Tx A := fun s => (Ok a, s).
Definition tfail {A} (e : TxErr) : Tx A := fun s => (Err e, s).
Definition tbind {A B} (m : Tx A) (k : A -> Tx B) : Tx B := fun s =>
  match m s with
  | (Ok a, s') => k a s'
  | (Err e, s') => (Err e, s')
  end.
#[local] Notation "'let!' x := m 'in' k" := (tbind m (fun x => k))
  (at level 10, x pattern, m at level 100, k at level 200) : go_scope.

(** One statement: the driver may fail it; a statement that errs writes
    nothing. *)
Definition stmt {A} (f : D -> result TxErr (A * D)) : Tx A := fun '(db, fs) =>
  match fs with
  | true :: fs' => (Err EDriver, (db, fs'))
  | _ =>
      match f db with
      | Ok (a, db') => (Ok a, (db', tail fs))
      | Err e => (Err e, (db, tail fs))
      end
  end.

(** A begin or a commit, which touches no row. *)
Definition point : Tx unit := stmt (fun db => Ok (tt, db)).

(** [BeginTx], the body, [Commit], and the deferred [Rollback]. *)
Definition inTx {A} (body : Tx A) : Tx A := fun '(db, fs) =>
  match (let! _ := point in let! a := body in let! _ := point in tret a) (db, fs) with
  | (Ok a, s') => (Ok a, s')
  | (Err e, (_, fs')) => (Err e, (db, fs'))
  end.

(** A read outside any transaction. *)
Definition readq {A} (f : D -> A) : Tx A := stmt (fun db => Ok (f db, db)).

(** A statement outside any transaction, with no constraint to violate. *)
Definition writeq (f : D -> D) : Tx unit := stmt (fun db => Ok (tt, f db)).

(** An [UPDATE]'s affected rows against what the caller needs. *)
Definition must (n : bool) (e : TxErr) : Tx unit := if n then tret tt else tfail e.

(** ** Lemmas on transactions *)

Lemma tbind_Ok {A B} (m : Tx A) (k : A -> Tx B) s b s' :
  tbind m k s = (Ok b, s') -> exists a s1, m s = (Ok a, s1) /\ k a s1 = (Ok b, s').
Proof. unfold tbind. destruct (m s) as [[a|e] s1]; intros H; [by exists a, s1|done]. Qed.

Lemma stmt_Ok {A} (f : D -> result TxErr (A * D)) s a s' :
  stmt f s = (Ok a, s') -> f s.1 = Ok (a, s'.1) /\ s'.2 = tail s.2.
Proof. destruct s as [db [|[] fs]]; simpl; [|done|]; destruct (f db) as [[? ?]|]; by intros [= <- <-]. Qed.

Lemma stmt_Err {A} (f : D -> result TxErr (A * D)) s e s' :
  stmt f s = (Err e, s') -> s'.1 = s.1 /\ s'.2 = tail s.2.
Proof. destruct s as [db [|[] fs]]; simpl; [|by intros [= <- <-]|]; destruct (f db) as [[? ?]|]; by intros [= <- <-]. Qed.

(** Without faults a statement does what its function does. *)
Lemma stmt_run {A} (f : D -> result TxErr (A * D)) db :
  stmt f (db, []) = match f db with Ok (a, db') => (Ok a, (db', [])) | Err e => (Err e, (db, [])) end.
Proof. reflexivity. Qed.

Lemma point_Ok s u s' : point s = (Ok u, s') -> s'.1 = s.1.
Proof. intros [H _]%stmt_Ok. by injection H. Qed.

Lemma readq_state {A} (f : D -> A) s r s' : readq f s = (r, s') -> s'.1 = s.1.
Proof.
  unfold readq. destruct r as [a|e]; [intros [H _]%stmt_Ok; by injection H|intros [H _]%stmt_Err; done].
Qed.

Lemma readq_Ok {A} (f : D -> A) s a s' : readq f s = (Ok a, s') -> a = f s.1 /\ s'.1 = s.1.
Proof. intros [H _]%stmt_Ok. by injection H as <- ->. Qed.

Lemma writeq_cases (f : D -> D) s r s' : writeq f s = (r, s') ->
  (r = Ok tt /\ s'.1 = f s.1) \/ ((exists e, r = Err e) /\ s'.1 = s.1).
Proof.
  unfold writeq. destruct r as [[]|e]; [intros [H _]%stmt_Ok; left; by injection H|intros [H _]%stmt_Err; right; by eauto].
Qed.

Lemma inTx_Err {A} (m : Tx A) s e s' : inTx m s = (Err e, s') -> s'.1 = s.1.
Proof. unfold inTx. destruct s as [db fs]. destruct (tbind _ _ _) as [[a|e'] [d fs']]; by intros [= _ <-]. Qed.

(** A transaction that commits ran its body from the tables it began on. *)
Lemma inTx_Ok {A} (m : Tx A) s a s' :
  inTx m s = (Ok a, s') -> exists fs1 s1, m (s.1, fs1) = (Ok a, s1) /\ s'.1 = s1.1.
Proof.
  unfold inTx. destruct s as [db fs]. destruct (tbind _ _ _) as [[b|e] [d fs']] eqn:E; [|done].
  intros [= -> <-]. apply tbind_Ok in E as (u & s1 & H1 & E). apply tbind_Ok in E as (b & s2 & H2 & E).
  apply tbind_Ok in E as (v & s3 & H3 & E). injection E as -> ->. apply point_Ok in H1, H3.
  destruct s1 as [d1 fs1]. simpl in *. subst d1. exists fs1, s2. done.
Qed.

(** Without faults it commits exactly when its body succeeds. *)
Lemma inTx_run {A} (m : Tx A) db :
  inTx m (db, []) =
  match m (db, []) with
  | (Ok a, (db', fs)) => match point (db', fs) with
                         | (Ok _, s) => (Ok a, s)
                         | (Err e, (_, fs')) => (Err e, (db, fs'))
                         end
  | (Err e, (_, fs)) => (Err e, (db, fs))
  end.
Proof.
  unfold inTx, tbind. change (point (db, [])) with ((Ok tt, (db, [])) : result TxErr unit * TxS).
  cbv beta iota. destruct (m (db, [])) as [[a|e] [d fs]]; [|done].
  destruct (point (d, fs)) as [[u|e] [d' fs']]; reflexivity.
Qed.

End Tx.
Arguments TxS D : clear implicits.
Arguments Tx D A : clear implicits.

Notation "'let!' x := m 'in' k" := (tbind m (fun x => k))
  (at level 10, x pattern, m at level 100, k at level 200) : go_scope.

(** ** Computations that keep a predicate on the tables *)

Class Inv {D} (P : D -> Prop) {A} (m : Tx D A) : Prop :=
  inv : forall s r s', m s = (r, s') -> P s.1 -> P s'.1.

Section Inv.
Context {D : Type} (P : D -> Prop).

#[export] Instance tret_Inv {A} (a : A) : Inv P (tret a).
Proof. by intros s r s' [= <- <-]. Qed.

#[export] Instance tfail_Inv {A} e : Inv P (@tfail D A e).
Proof. by intros s r s' [= <- <-]. Qed.

#[export] Instance tbind_Inv {A B} (m : Tx D A) (k : A -> Tx D B) :
  Inv P m -> (forall a, Inv P (k a)) -> Inv P (tbind m k).
Proof.
  intros Hm Hk s r s'. unfold tbind. destruct (m s) as [[a|e] s1] eqn:E.
  - intros H Hp. exact (Hk a _ _ _ H (Hm _ _ _ E Hp)).
  - intros [= <- <-]. exact (Hm _ _ _ E).
Qed.

Lemma stmt_Inv {A} (f : D -> result TxErr (A * D)) :
  (forall db a db', f db = Ok (a, db') -> P db -> P db') -> Inv P (stmt f).
Proof.
  intros Hf s r s' H Hp. destruct r as [a|e].
  - apply stmt_Ok in H as [H _]. exact (Hf _ _ _ H Hp).
  - apply stmt_Err in H as [-> _]. exact Hp.
Qed.

#[export] Instance readq_Inv {A} (f : D -> A) : Inv P (readq f).
Proof. intros s r s' H%readq_state. by rewrite H. Qed.

Lemma writeq_Inv (f : D -> D) : (forall db, P db -> P (f db)) -> Inv P (writeq f).
Proof. intros Hf. apply stmt_Inv. intros db a db' [= _ <-]. apply Hf. Qed.

#[export] Instance must_Inv n e : Inv P (@must D n e).
Proof. destruct n; apply _. Qed.

#[export] Instance inTx_Inv {A} (m : Tx D A) : Inv P m -> Inv P (inTx m).
Proof.
  intros Hm s r s' H Hp. destruct r as [a|e].
  - apply inTx_Ok in H as (fs & s1 & H1 & ->). exact (Hm _ _ _ H1 Hp).
  - apply inTx_Err in H as ->. exact Hp.
Qed.

#[export] Instance if_Inv {A} (b : bool) (m m' : Tx D A) : Inv P m -> Inv P m' -> Inv P (if b then m else m').
Proof. by destruct b. Qed.

End Inv.

#[export] Hint Extern 3 (Inv _ (match ?x with _ => _ end)) => destruct x : typeclass_instances.
