(* ===== verification/Store.v ===== *)
(** internal/store: the tables the job engine and the lifecycle write
    (job_runs, job_locks, instances, audit_log) and the transactions and
    queries of jobs.go and instances.go over them. *)
From S2P Require Import Prelude Kinds Lifecycle Sql.

(** ** Tables *)

(** Timestamps are the stored instants; their fixed-width text form orders as
    they do. *)
Abbreviation Time := Z (only parsing).

Record Job := mkJob {
  ID : string; JKind : string; Status : string; LockKey : string;
  InstanceID : option string; InstanceName : string;
  ScheduleID : option string; Scheduled : bool; Payload : string;
  Checkpoint : option string; ResumeAfter : bool; Progress : Z; Message : option string;
  LeaseOwner : option string; LeaseUntil : option Time; CancelRequestedAt : option Time;
  Clean : option bool; RequestedBy : option string; Attempt : Z;
  ErrorCode : option string; Error : option string; Log : option string;
  CreatedAt : Time; StartedAt : option Time; FinishedAt : option Time
}.

#[export] Instance Job_eq_dec : EqDecision Job.
Proof. solve_decision. Defined.

Record Inst := mkInst {
  iName : string; iState : State; iContainerID : option string; iGameBuildID : option string;
  iRestartRequired : bool; iPendingRestart : bool; iContainerStartedAt : option Time;
  iUpdatedAt : Time
}.

Record AuditEntry := mkAudit {
  aID : string; aUserID : string; aInstanceID : string; aAction : string; aDetail : string;
  aIP : string; aActorName : string; aInstanceName : string; aJobID : string; aOutcome : string
}.

(** An audit_log row, with its NULLs. *)
Record AuditRow := mkAuditRow {
  rUser : option string; rInstance : option string; rAction : string; rDetail : string;
  rIP : option string; rCreated : Time; rActor : option string; rInstanceName : option string;
  rJob : option string; rOutcome : string
}.

Record DB := mkDB {
  runs : gmap string Job;
  locks : gmap string (string * Time);
  instances : gmap string Inst;
  users : gmap string string;
  schedules : gset string;
  auditLog : gmap string AuditRow
}.

Definition withRuns (f : gmap string Job -> gmap string Job) (db : DB) : DB :=
  mkDB (f (runs db)) (locks db) (instances db) (users db) (schedules db) (auditLog db).
Definition withLocks (f : gmap string (string * Time) -> gmap string (string * Time)) (db : DB) : DB :=
  mkDB (runs db) (f (locks db)) (instances db) (users db) (schedules db) (auditLog db).
Definition withInstances (f : gmap string Inst -> gmap string Inst) (db : DB) : DB :=
  mkDB (runs db) (locks db) (f (instances db)) (users db) (schedules db) (auditLog db).
Definition withAudit (f : gmap string AuditRow -> gmap string AuditRow) (db : DB) : DB :=
  mkDB (runs db) (locks db) (instances db) (users db) (schedules db) (f (auditLog db)).

Abbreviation TxS := (Sql.TxS DB).
Abbreviation Tx := (Sql.Tx DB).

(** ** job_runs and job_locks (jobs.go) *)

Definition StatusSucceeded : string := "succeeded".
Definition StatusFailed : string := "failed".
Definition StatusCancelled : string := "cancelled".
Definition StatusRunning : string := "running".
Definition StatusQueued : string := "queued".
Definition terminal (status : string) : bool :=
  bool_decide (status = StatusSucceeded) || bool_decide (status = StatusFailed) ||
  bool_decide (status = StatusCancelled).
Definition statusChecked (status : string) : bool :=
  terminal status || bool_decide (status = StatusQueued) || bool_decide (status = StatusRunning).

Definition lock_le (x y : string) : Prop := String.le x y.

(** [slices.Compact]. *)
Fixpoint compact (l : list string) : list string :=
  match l with
  | [] => []
  | x :: l =>
      match l with
      | y :: _ => if bool_decide (x = y) then compact l else x :: compact l
      | [] => [x]
      end
  end.

(** The keys a claim takes, in the order it takes them. *)
Definition claimKeys (lockKey : string) (supplemental : list string) : list string :=
  compact (merge_sort String.le (lockKey :: supplemental)).

(** One [INSERT INTO job_locks]; on a collision, the holder is looked up. *)
Definition acquireLock (jobID : string) (now : Time) (key : string) : Tx unit :=
  if bool_decide (key = "") then tfail EEmptyLockKey
  else fun s =>
    let insert := stmt (fun db => if decide (is_Some (locks db !! key)) then Err EUnique
                                  else Ok (tt, withLocks <[key := (jobID, now)]> db)) in
    match insert s with
    | (Err EUnique, s') =>
        match stmt (fun db => match locks db !! key with
                              | Some (holder, _) =>
                                  match runs db !! holder with
                                  | Some jr => Ok ((ID jr, JKind jr), db)
                                  | None => Err (EHolder key)
                                  end
                              | None => Err (EHolder key)
                              end) s' with
        | (Ok (id, kind), s'') => (Err (EConflict id kind), s'')
        | (Err _, s'') => (Err (EHolder key), s'')
        end
    | r => r
    end.

Fixpoint acquireLocks (jobID : string) (now : Time) (keys : list string) : Tx unit :=
  match keys with
  | [] => tret tt
  | key :: keys => let! _ := acquireLock jobID now key in acquireLocks jobID now keys
  end.

(** The row a claim inserts. *)
Definition claimedRow (j : Job) (owner : string) (leaseUntil now : Time) : Job :=
  mkJob (ID j) (JKind j) StatusRunning (LockKey j) (InstanceID j) (InstanceName j) (ScheduleID j)
    (bool_decide (is_Some (ScheduleID j))) (Payload j) None (ResumeAfter j) 0 None
    (Some owner) (Some leaseUntil) None None (RequestedBy j) 1 None None None now (Some now) None.

(** The struct handed back: the caller's, with the claim's fields set. *)
Definition claimedJob (j : Job) (owner : string) (leaseUntil now : Time) : Job :=
  mkJob (ID j) (JKind j) StatusRunning (LockKey j) (InstanceID j) (InstanceName j) (ScheduleID j)
    (Scheduled j) (Payload j) (Checkpoint j) (ResumeAfter j) (Progress j) (Message j)
    (Some owner) (Some leaseUntil) (CancelRequestedAt j) (Clean j) (RequestedBy j) 1
    (ErrorCode j) (Error j) (Log j) now (Some now) (FinishedAt j).

Definition refOk {A} (t : gmap string A) (r : option string) : bool :=
  match r with None => true | Some id => bool_decide (is_Some (t !! id)) end.

Definition insertRun (row : Job) : Tx unit := stmt (fun db =>
  if decide (is_Some (runs db !! ID row)) then Err EUnique
  else if negb (refOk (instances db) (InstanceID row) && refOk (users db) (RequestedBy row) &&
                match ScheduleID row with None => true | Some s => bool_decide (s ∈ schedules db) end)
  then Err EConstraint
  else Ok (tt, withRuns <[ID row := row]> db)).

(** [ClaimJobWithLocks]; [now] is the one clock reading it takes. *)
Definition ClaimJobWithLocks (j : Job) (supplemental : list string) (owner : string)
    (leaseUntil now : Time) (onClaim : option (Tx unit)) : Tx Job :=
  inTx (
    let! _ := acquireLocks (ID j) now (claimKeys (LockKey j) supplemental) in
    let! _ := match onClaim with None => tret tt | Some h => h end in
    let! _ := insertRun (claimedRow j owner leaseUntil now) in
    tret (claimedJob j owner leaseUntil now)).

Definition ClaimJob (j : Job) (owner : string) (leaseUntil now : Time) (onClaim : option (Tx unit)) : Tx Job :=
  ClaimJobWithLocks j [] owner leaseUntil now onClaim.

(** The assignments of the UPDATE statements. *)
Definition setLease (until : Time) (j : Job) : Job :=
  mkJob (ID j) (JKind j) (Status j) (LockKey j) (InstanceID j) (InstanceName j) (ScheduleID j)
    (Scheduled j) (Payload j) (Checkpoint j) (ResumeAfter j) (Progress j) (Message j) (LeaseOwner j)
    (Some until) (CancelRequestedAt j) (Clean j) (RequestedBy j) (Attempt j) (ErrorCode j) (Error j)
    (Log j) (CreatedAt j) (StartedAt j) (FinishedAt j).
Definition setProgress (progress : Z) (message : string) (j : Job) : Job :=
  mkJob (ID j) (JKind j) (Status j) (LockKey j) (InstanceID j) (InstanceName j) (ScheduleID j)
    (Scheduled j) (Payload j) (Checkpoint j) (ResumeAfter j) progress (Some message) (LeaseOwner j)
    (LeaseUntil j) (CancelRequestedAt j) (Clean j) (RequestedBy j) (Attempt j) (ErrorCode j) (Error j)
    (Log j) (CreatedAt j) (StartedAt j) (FinishedAt j).
Definition setCheckpoint (checkpoint : string) (j : Job) : Job :=
  mkJob (ID j) (JKind j) (Status j) (LockKey j) (InstanceID j) (InstanceName j) (ScheduleID j)
    (Scheduled j) (Payload j) (Some checkpoint) (ResumeAfter j) (Progress j) (Message j) (LeaseOwner j)
    (LeaseUntil j) (CancelRequestedAt j) (Clean j) (RequestedBy j) (Attempt j) (ErrorCode j) (Error j)
    (Log j) (CreatedAt j) (StartedAt j) (FinishedAt j).
Definition setFinished (status : string) (progress : Z) (errorCode errMsg log : option string)
    (clean : option bool) (finishedAt : Time) (j : Job) : Job :=
  mkJob (ID j) (JKind j) status (LockKey j) (InstanceID j) (InstanceName j) (ScheduleID j)
    (Scheduled j) (Payload j) (Checkpoint j) (ResumeAfter j) progress (Message j) None None
    (CancelRequestedAt j) clean (RequestedBy j) (Attempt j) errorCode errMsg log (CreatedAt j)
    (StartedAt j) (Some finishedAt).
Definition setCancelled (now : Time) (j : Job) : Job :=
  mkJob (ID j) (JKind j) StatusCancelled (LockKey j) (InstanceID j) (InstanceName j) (ScheduleID j)
    (Scheduled j) (Payload j) (Checkpoint j) (ResumeAfter j) (Progress j) (Message j) (LeaseOwner j)
    (LeaseUntil j) (CancelRequestedAt j) (Clean j) (RequestedBy j) (Attempt j) (ErrorCode j) (Error j)
    (Log j) (CreatedAt j) (StartedAt j) (Some now).
Definition setCancelRequested (now : Time) (j : Job) : Job :=
  mkJob (ID j) (JKind j) (Status j) (LockKey j) (InstanceID j) (InstanceName j) (ScheduleID j)
    (Scheduled j) (Payload j) (Checkpoint j) (ResumeAfter j) (Progress j) (Message j) (LeaseOwner j)
    (LeaseUntil j) (Some now) (Clean j) (RequestedBy j) (Attempt j) (ErrorCode j) (Error j)
    (Log j) (CreatedAt j) (StartedAt j) (FinishedAt j).
Definition clearInstance (id : string) (j : Job) : Job :=
  if bool_decide (InstanceID j = Some id) then
    mkJob (ID j) (JKind j) (Status j) (LockKey j) None (InstanceName j) (ScheduleID j)
      (Scheduled j) (Payload j) (Checkpoint j) (ResumeAfter j) (Progress j) (Message j) (LeaseOwner j)
      (LeaseUntil j) (CancelRequestedAt j) (Clean j) (RequestedBy j) (Attempt j) (ErrorCode j) (Error j)
      (Log j) (CreatedAt j) (StartedAt j) (FinishedAt j)
  else j.

(** [UPDATE job_runs SET f WHERE id = ? AND p]: whether a row matched. *)
Definition updateRun (jobID : string) (p : Job -> bool) (f : Job -> Job) : Tx bool := stmt (fun db =>
  match runs db !! jobID with
  | Some j => if p j then Ok (true, withRuns <[jobID := f j]> db) else Ok (false, db)
  | None => Ok (false, db)
  end).

Definition always (j : Job) : bool := true.

Definition RenewJobLease (jobID owner : string) (until : Time) : Tx bool :=
  updateRun jobID (fun j => bool_decide (LeaseOwner j = Some owner) && bool_decide (Status j = StatusRunning))
    (setLease until).

Definition UpdateJobProgress (jobID : string) (progress : Z) (message : string) : Tx unit :=
  let! _ := updateRun jobID always (setProgress progress message) in tret tt.

Definition UpdateJobCheckpoint (jobID checkpoint : string) : Tx unit :=
  let! _ := updateRun jobID always (setCheckpoint checkpoint) in tret tt.

(** [DELETE FROM job_locks WHERE job_id = ?]. *)
Definition releaseLocks (jobID : string) : Tx unit := stmt (fun db =>
  Ok (tt, withLocks (filter (fun kv => kv.2.1 <> jobID)) db)).

Definition FinishJob (jobID status : string) (progress : Z) (errorCode errMsg log : option string)
    (clean : option bool) (finishedAt : Time) (onFinish : option (Tx unit)) : Tx unit :=
  inTx (
    let! _ := (if statusChecked status
               then updateRun jobID always (setFinished status progress errorCode errMsg log clean finishedAt)
               else stmt (fun db => match runs db !! jobID with
                                    | Some _ => Err EConstraint
                                    | None => Ok (false, db)
                                    end)) in
    let! _ := releaseLocks jobID in
    match onFinish with None => tret tt | Some h => h end).

(** [CancelQueuedJob]: a row that is not queued rolls back and answers false. *)
Definition CancelQueuedJob (jobID : string) (now : Time) : Tx bool := fun '(db, fs) =>
  match (let! _ := point in
         let! n := updateRun jobID (fun j => bool_decide (Status j = StatusQueued)) (setCancelled now) in
         if negb n then tret false
         else let! _ := releaseLocks jobID in let! _ := point in tret true) (db, fs) with
  | (Ok true, s') => (Ok true, s')
  | (r, (_, fs')) => (r, (db, fs'))
  end.

Definition RequestJobCancel (jobID : string) (now : Time) : Tx unit :=
  let! _ := updateRun jobID (fun j => bool_decide (CancelRequestedAt j = None)) (setCancelRequested now) in tret tt.

(** *** Reads

    [ORDER BY created_at]; SQL leaves the order of equal instants open. *)
Definition created_le (x y : Job) : Prop := (CreatedAt x <= CreatedAt y)%Z.
#[export] Instance created_le_dec x y : Decision (created_le x y).
Proof. unfold created_le. apply _. Defined.
Definition created_ge (x y : Job) : Prop := (CreatedAt y <= CreatedAt x)%Z.
#[export] Instance created_ge_dec x y : Decision (created_ge x y).
Proof. unfold created_ge. apply _. Defined.

Definition rows (db : DB) : list Job := snd <$> map_to_list (runs db).

Definition JobByID (id : string) (db : DB) : option Job := runs db !! id.
Definition StaleJobs (owner : string) (db : DB) : list Job :=
  merge_sort created_le (filter (fun j => Status j = StatusRunning /\ LeaseOwner j <> Some owner) (rows db)).
Definition LockHolder (key : string) (db : DB) : option string := fst <$> locks db !! key.
Definition HeldLockKeys (db : DB) : gset string := dom (locks db).
Definition LastJobForInstance (instanceID : string) (db : DB) : option Job :=
  head (merge_sort created_ge (filter (fun j => InstanceID j = Some instanceID) (rows db))).
Definition JobRanAt (instanceID : string) (t : Time) (db : DB) : bool :=
  existsb (fun j => bool_decide (InstanceID j = Some instanceID) &&
    match StartedAt j with Some s => (s <=? t)%Z | None => false end &&
    match FinishedAt j with Some f => (t <=? f)%Z | None => true end) (rows db).
Definition RunningJobs (db : DB) : list Job :=
  filter (fun j => Status j = StatusRunning) (rows db).

(** [SweepTerminalJobs]: the retention DELETE.  [terminalRows] is the ranked
    subquery's input, newest first; a row's rank is one more than the rows of
    its instance before it. *)
Definition maxTerminal : nat := 500.
Definition terminalRows (db : DB) : list Job :=
  merge_sort created_ge (filter (fun j => terminal (Status j) = true) (rows db)).
Fixpoint sweptFrom (cutoff : Time) (before l : list Job) : list Job :=
  match l with
  | [] => []
  | j :: l =>
      let rn := S (length (filter (fun x => InstanceID x = InstanceID j) before)) in
      if bool_decide (maxTerminal < rn)%nat || (CreatedAt j <? cutoff)%Z
      then j :: sweptFrom cutoff (j :: before) l
      else sweptFrom cutoff (j :: before) l
  end.
Definition sweptRows (cutoff : Time) (db : DB) : list Job := sweptFrom cutoff [] (terminalRows db).
Definition SweepTerminalJobs (cutoff : Time) : Tx nat := stmt (fun db =>
  let gone := sweptRows cutoff db in
  Ok (length gone, withRuns (filter (fun kv => kv.1 ∉ (ID <$> gone))) db)).

(** ** instances (instances.go) *)

Definition setState (to : State) (now : Time) (i : Inst) : Inst :=
  mkInst (iName i) to (iContainerID i) (iGameBuildID i) (iRestartRequired i) (iPendingRestart i)
    (iContainerStartedAt i) now.

(** [UPDATE instances SET f WHERE id = ? AND state = ?]: whether a row moved. *)
Definition casInstance (id : string) (from to : State) (f : Inst -> Inst) : Tx bool := stmt (fun db =>
  match instances db !! id with
  | Some i =>
      if bool_decide (iState i = from) then
        if bool_decide (to ∈ states) then Ok (true, withInstances <[id := f i]> db) else Err EConstraint
      else Ok (false, db)
  | None => Ok (false, db)
  end).

Definition updateInstance (id : string) (f : Inst -> Inst) : Tx unit := stmt (fun db =>
  Ok (tt, withInstances (fun m => match m !! id with Some i => <[id := f i]> m | None => m end) db)).

Definition TxUpdateInstanceState (now : Time) (id : string) (from to : State) : Tx bool :=
  casInstance id from to (setState to now).

Definition SetContainerStartedAt (id : string) (at_ : Time) : Tx unit :=
  updateInstance id (fun i => mkInst (iName i) (iState i) (iContainerID i) (iGameBuildID i)
    (iRestartRequired i) (iPendingRestart i) (Some at_) (iUpdatedAt i)).

Definition TxSetInstanceBuildID (now : Time) (id gameBuildID : string) : Tx unit :=
  updateInstance id (fun i => mkInst (iName i) (iState i) (iContainerID i) (Some gameBuildID)
    (iRestartRequired i) (iPendingRestart i) (iContainerStartedAt i) now).

Definition SetInstanceContainerID (now : Time) (id containerID : string) : Tx unit :=
  updateInstance id (fun i => mkInst (iName i) (iState i) (Some containerID) (iGameBuildID i)
    (iRestartRequired i) (iPendingRestart i) (iContainerStartedAt i) now).

Definition TxFinishProvisioning (now : Time) (id : string) (from to : State) (containerID gameBuildID : string) : Tx unit :=
  let! n := casInstance id from to (fun i => mkInst (iName i) to (Some containerID) (Some gameBuildID)
    (iRestartRequired i) (iPendingRestart i) (iContainerStartedAt i) now) in
  must n (EState (NotInState id from)).

Definition TxFinishStart (now : Time) (id : string) (from to : State) : Tx unit :=
  let! n := casInstance id from to (fun i => mkInst (iName i) to (iContainerID i) (iGameBuildID i)
    false false (iContainerStartedAt i) now) in
  must n (EState (NotInState id from)).

(** [TxDeleteInstance], with the schema's ON DELETE SET NULL on job_runs. *)
Definition TxDeleteInstance (id : string) (from : State) : Tx unit :=
  let! n := stmt (fun db =>
    match instances db !! id with
    | Some i =>
        if bool_decide (iState i = from)
        then Ok (true, withRuns (fmap (clearInstance id)) (withInstances (delete id) db))
        else Ok (false, db)
    | None => Ok (false, db)
    end) in
  must n (EState (NotInState id from)).

(** [writeAuditLog]; [newID] is the identifier it draws when the entry has
    none. *)
Definition AuditSucceeded : string := "succeeded".
Definition AuditRequested : string := "requested".
Definition nullIf (s : string) : option string := if bool_decide (s = "") then None else Some s.

Definition writeAuditLog (newID : string) (now : Time) (e : AuditEntry) : Tx unit := stmt (fun db =>
  let id := if bool_decide (aID e = "") then newID else aID e in
  let outcome := if bool_decide (aOutcome e = "") then
                   if bool_decide (aJobID e = "") then AuditSucceeded else AuditRequested
                 else aOutcome e in
  let row := mkAuditRow (nullIf (aUserID e)) (nullIf (aInstanceID e)) (aAction e) (aDetail e)
    (nullIf (aIP e)) now
    (match nullIf (aActorName e) with Some n => Some n | None => users db !! aUserID e end)
    (match nullIf (aInstanceName e) with Some n => Some n | None => iName <$> instances db !! aInstanceID e end)
    (nullIf (aJobID e)) outcome in
  if decide (is_Some (auditLog db !! id)) then Err EUnique
  else Ok (tt, withAudit <[id := row]> db)).

Definition UpdateInstanceStateAudited (newID : string) (now : Time) (id : string) (from to : State)
    (audit : AuditEntry) : Tx bool :=
  inTx (let! moved := TxUpdateInstanceState now id from to in
        if negb moved then tret false
        else let! _ := writeAuditLog newID now audit in tret true).

(** ** state.go over the tables

    The two [StateWriter]s of the code, the autocommit one and
    [txStateWriter], are the same statement on the tables. *)
Definition liftState {A} (now : Time) (r : result TxErr A) : result StateError_ A :=
  match r with
  | Ok a => Ok a
  | Err (EState e) => Err e
  | Err _ => Err DriverError
  end.

Definition clockedTx := (Time * TxS)%type.
#[export] Instance TxS_writer : StateWriter clockedTx := {
  UpdateInstanceState id from to s :=
    let '(r, s') := TxUpdateInstanceState s.1 id from to s.2 in (liftState s.1 r, (s.1, s'))
}.

Definition FinishStartTx (now : Time) (id : string) (from to : State) : Tx unit :=
  match ValidateTransition from to with
  | Err e => tfail (EState e)
  | Ok _ => TxFinishStart now id from to
  end.

Definition FinishProvisioningTx (now : Time) (id : string) (from to : State) (containerID gameBuildID : string) : Tx unit :=
  match ValidateTransition from to with
  | Err e => tfail (EState e)
  | Ok _ => TxFinishProvisioning now id from to containerID gameBuildID
  end.

Definition SetStateAudited (newID : string) (now : Time) (id : string) (from to : State) (audit : AuditEntry) : Tx bool :=
  match ValidateTransition from to with
  | Err e => tfail (EState e)
  | Ok _ => UpdateInstanceStateAudited newID now id from to audit
  end.

(** ** The job tables' frame

    What the locking discipline depends on of a row, and the computations that
    leave it alone: every hook the engine runs inside its transactions. *)
Definition core (j : Job) : string * string * string * option string :=
  (ID j, Status j, LockKey j, LeaseOwner j).

Definition same_jobs (db db' : DB) : Prop :=
  locks db' = locks db /\ forall id, core <$> runs db' !! id = core <$> runs db !! id.

#[export] Instance same_jobs_equiv : Equivalence same_jobs.
Proof.
  unfold same_jobs. split; [done| |].
  - intros x y [? ?]. by split.
  - intros x y z [? Hxy] [? Hyz]. split; [congruence|]. intros id. by rewrite Hyz, Hxy.
Qed.

Class JobFrame {A} (m : Tx A) : Prop := job_frame s : same_jobs s.1 (m s).2.1.

#[export] Instance tret_frame {A} (a : A) : JobFrame (tret a).
Proof. intros s. reflexivity. Qed.
#[export] Instance tfail_frame {A} e : JobFrame (tfail (A:=A) e).
Proof. intros s. reflexivity. Qed.
#[export] Instance must_frame b e : JobFrame (must b e).
Proof. intros s. by destruct b. Qed.
#[export] Instance tbind_frame {A B} (m : Tx A) (k : A -> Tx B) :
  JobFrame m -> (forall a, JobFrame (k a)) -> JobFrame (tbind m k).
Proof.
  intros Hm Hk s. unfold tbind. specialize (Hm s). destruct (m s) as [[a|e] s1]; simpl in *; [|done].
  etrans; [exact Hm|apply Hk].
Qed.
Lemma stmt_frame {A} (f : DB -> result TxErr (A * DB)) :
  (forall db a db', f db = Ok (a, db') -> same_jobs db db') -> JobFrame (stmt f).
Proof.
  intros Hf s. destruct (stmt f s) as [[a|e] s'] eqn:E; simpl.
  - apply stmt_Ok in E as [E _]. by eapply Hf.
  - apply stmt_Err in E as [-> _]. reflexivity.
Qed.
#[export] Instance point_frame : JobFrame point.
Proof. apply stmt_frame. intros db a db' [= _ <-]. reflexivity. Qed.
#[export] Instance inTx_frame {A} (m : Tx A) : JobFrame m -> JobFrame (inTx m).
Proof.
  intros Hm s. destruct (inTx m s) as [[a|e] s'] eqn:E; simpl.
  - apply inTx_Ok in E as (fs1 & s1 & E & ->). specialize (Hm (s.1, fs1)). by rewrite E in Hm.
  - by apply inTx_Err in E as ->.
Qed.

Lemma withInstances_frame f db : same_jobs db (withInstances f db).
Proof. done. Qed.
Lemma withAudit_frame f db : same_jobs db (withAudit f db).
Proof. done. Qed.
(** Rewriting one row without its status, id or lock. *)
Lemma updateRow_frame id (f : Job -> Job) db j :
  runs db !! id = Some j -> core (f j) = core j -> same_jobs db (withRuns <[id := f j]> db).
Proof.
  intros Hj Hc. split; [done|]. intros i. simpl. destruct (decide (i = id)) as [->|Hne].
  - by rewrite lookup_insert_eq, Hj; simpl; rewrite Hc.
  - by rewrite lookup_insert_ne.
Qed.
Lemma updateRun_frame id p f : (forall j, core (f j) = core j) -> JobFrame (updateRun id p f).
Proof.
  intros Hf. apply stmt_frame. intros db a db'. destruct (runs db !! id) as [j|] eqn:Hj; [destruct (p j)|];
    intros [= _ <-]; try reflexivity. by apply updateRow_frame.
Qed.
#[export] Instance RenewJobLease_frame id owner until : JobFrame (RenewJobLease id owner until).
Proof. by apply updateRun_frame. Qed.
#[export] Instance UpdateJobProgress_frame id p m : JobFrame (UpdateJobProgress id p m).
Proof. apply tbind_frame; [by apply updateRun_frame|apply _]. Qed.
#[export] Instance UpdateJobCheckpoint_frame id c : JobFrame (UpdateJobCheckpoint id c).
Proof. apply tbind_frame; [by apply updateRun_frame|apply _]. Qed.
#[export] Instance RequestJobCancel_frame id now : JobFrame (RequestJobCancel id now).
Proof. apply tbind_frame; [by apply updateRun_frame|apply _]. Qed.
#[export] Instance casInstance_frame id from to f : JobFrame (casInstance id from to f).
Proof. apply stmt_frame. intros db a db' H. repeat case_match; simplify_eq; done. Qed.
#[export] Instance updateInstance_frame id f : JobFrame (updateInstance id f).
Proof. apply stmt_frame. intros db a db' [= _ <-]. done. Qed.
#[export] Instance writeAuditLog_frame i now e : JobFrame (writeAuditLog i now e).
Proof. apply stmt_frame. intros db a db'. cbv zeta. destruct (decide _); intros [= _ <-]. done. Qed.
Lemma clearInstance_core id j : core (clearInstance id j) = core j.
Proof. unfold clearInstance. by case_bool_decide. Qed.
#[export] Instance TxDeleteInstance_frame id from : JobFrame (TxDeleteInstance id from).
Proof.
  apply tbind_frame; [|intros []; apply _]. apply stmt_frame. intros db a db' H.
  repeat case_match; simplify_eq; try done. split; [done|]. intros jid. simpl.
  rewrite lookup_fmap, <- option_fmap_compose. apply option_fmap_ext. intros j. apply clearInstance_core.
Qed.
#[export] Instance TxFinishStart_frame now id from to : JobFrame (TxFinishStart now id from to).
Proof. apply _. Qed.
#[export] Instance TxFinishProvisioning_frame now id from to c b : JobFrame (TxFinishProvisioning now id from to c b).
Proof. apply _. Qed.
#[export] Instance FinishStartTx_frame now id from to : JobFrame (FinishStartTx now id from to).
Proof. unfold FinishStartTx. case_match; apply _. Qed.
#[export] Instance FinishProvisioningTx_frame now id from to c b : JobFrame (FinishProvisioningTx now id from to c b).
Proof. unfold FinishProvisioningTx. case_match; apply _. Qed.
#[export] Instance SetStateAudited_frame i now id from to a : JobFrame (SetStateAudited i now id from to a).
Proof.
  unfold SetStateAudited. case_match; [|apply _]. apply inTx_frame, tbind_frame; [apply _|].
  intros []; apply _.
Qed.

(** ** Claims *)

Definition takeKeys (jobID : string) (now : Time) (keys : list string)
    (l : gmap string (string * Time)) : gmap string (string * Time) :=
  fold_left (fun l key => <[key := (jobID, now)]> l) keys l.

Lemma takeKeys_lookup jobID now keys l key :
  takeKeys jobID now keys l !! key = if decide (key ∈ keys) then Some (jobID, now) else l !! key.
Proof.
  revert l. induction keys as [|k keys IH]; intros l; [done|].
  unfold takeKeys in *. cbn [fold_left]. rewrite IH. destruct (decide (key ∈ keys)) as [Hin|Hin].
  - rewrite decide_True; [done|set_solver].
  - destruct (decide (key = k)) as [->|Hne].
    + rewrite lookup_insert_eq, decide_True; [done|set_solver].
    + rewrite lookup_insert_ne, decide_False; [done|set_solver|done].
Qed.

Lemma withLocks_id db : withLocks id db = db.
Proof. by destruct db. Qed.

Lemma acquireLock_Ok jobID now key s u s' :
  acquireLock jobID now key s = (Ok u, s') ->
  key <> "" /\ locks s.1 !! key = None /\ s'.1 = withLocks <[key := (jobID, now)]> s.1.
Proof.
  unfold acquireLock. case_bool_decide; [done|]. destruct (stmt _ s) as [[v|e] s1] eqn:E.
  - intros [= _ <-]. apply stmt_Ok in E as [E _]. destruct (decide _) as [|Hn]; [done|]. injection E as _ <-.
    split_and!; [done| |done]. by apply eq_None_not_Some.
  - destruct e; try done. by destruct (stmt _ s1) as [[[]|] ?].
Qed.

Lemma acquireLocks_Ok jobID now keys s u s' :
  acquireLocks jobID now keys s = (Ok u, s') ->
  (forall key, key ∈ keys -> key <> "" /\ locks s.1 !! key = None) /\
  s'.1 = withLocks (takeKeys jobID now keys) s.1.
Proof.
  revert s. induction keys as [|k keys IH]; intros s; simpl.
  - intros [= _ <-]. split; [by intros key Hk%not_elem_of_nil|by destruct s as [[]]].
  - intros (v & s1 & H1 & H2)%tbind_Ok. apply acquireLock_Ok in H1 as (Hk & Hn & E1).
    apply IH in H2 as (Hall & E2). rewrite E1 in Hall, E2. split; [|by rewrite E2; destruct (s.1)].
    intros key [->|Hin]%elem_of_cons; [done|]. apply Hall in Hin as [? Hl]. split; [done|].
    simpl in Hl. by apply lookup_insert_None in Hl as [? _].
Qed.

Lemma compact_elem l x : x ∈ compact l <-> x ∈ l.
Proof.
  induction l as [|y l IH]; [done|]. destruct l as [|z l]; [done|].
  cbn [compact] in *. case_bool_decide as Hyz; rewrite ?elem_of_cons in *; naive_solver.
Qed.

Lemma claimKeys_elem lockKey supplemental key :
  key ∈ claimKeys lockKey supplemental <-> key = lockKey \/ key ∈ supplemental.
Proof. unfold claimKeys. by rewrite compact_elem, merge_sort_Permutation, elem_of_cons. Qed.

(** What a committed claim did. *)
Lemma Claim_Ok j supplemental owner leaseUntil now onClaim s j' s' :
  ClaimJobWithLocks j supplemental owner leaseUntil now onClaim s = (Ok j', s') ->
  let keys := claimKeys (LockKey j) supplemental in
  let h := default (tret tt) onClaim in
  exists fs1 s2 fs2,
    (forall key, key ∈ keys -> key <> "" /\ locks s.1 !! key = None) /\
    h (withLocks (takeKeys (ID j) now keys) s.1, fs1) = (Ok tt, (s2, fs2)) /\
    runs s2 !! ID j = None /\
    s'.1 = withRuns <[ID j := claimedRow j owner leaseUntil now]> s2 /\
    j' = claimedJob j owner leaseUntil now.
Proof.
  unfold ClaimJobWithLocks. intros (fs0 & s1 & E & ->)%inTx_Ok.
  apply tbind_Ok in E as (? & [d1 fs1] & H1 & E). apply acquireLocks_Ok in H1 as [Hall Hd]. simpl in Hall, Hd.
  apply tbind_Ok in E as ([] & [d2 fs2] & H2 & E). apply tbind_Ok in E as (? & s3 & H3 & E).
  injection E as <- <-. unfold insertRun in H3. apply stmt_Ok in H3 as [H3 _]. cbn [fst snd ID claimedRow] in H3.
  destruct (decide _) as [|Hn]; [done|]. destruct (negb _); [done|]. injection H3 as _ <-.
  exists fs1, d2, fs2. rewrite Hd in H2. split_and!; try done.
  by apply eq_None_not_Some.
Qed.

(** A keys collision, faults aside, names the holder of the first held key. *)
Lemma acquireLock_conflict jobID now key holder t jr db :
  key <> "" -> locks db !! key = Some (holder, t) -> runs db !! holder = Some jr ->
  acquireLock jobID now key (db, []) = (Err (EConflict (ID jr) (JKind jr)), (db, [])).
Proof.
  intros Hk Hl Hr. unfold acquireLock. rewrite bool_decide_eq_false_2 by done.
  rewrite stmt_run. rewrite decide_True by eauto. rewrite stmt_run, Hl, Hr. done.
Qed.

Lemma acquireLock_free jobID now key db :
  key <> "" -> locks db !! key = None ->
  acquireLock jobID now key (db, []) = (Ok tt, (withLocks <[key := (jobID, now)]> db, [])).
Proof.
  intros Hk Hl. unfold acquireLock. rewrite bool_decide_eq_false_2 by done.
  rewrite stmt_run, decide_False; [done|]. rewrite Hl. by intros [? ?].
Qed.

Lemma compact_cons x y l :
  compact (x :: y :: l) = if bool_decide (x = y) then compact (y :: l) else x :: compact (y :: l).
Proof. reflexivity. Qed.

(** The keys of a claim are sorted and distinct. *)
Lemma compact_NoDup l : StronglySorted String.le l -> NoDup (compact l).
Proof.
  induction l as [|x l IH]; intros Hs; [constructor|]. apply StronglySorted_inv in Hs as [Hs Hx].
  specialize (IH Hs). destruct l as [|y l]; [by apply NoDup_singleton|].
  rewrite compact_cons. case_bool_decide as Hxy; [exact IH|].
  apply NoDup_cons. split; [|exact IH]. rewrite compact_elem. intros Hin. apply Hxy.
  apply StronglySorted_inv in Hs as [_ Hy]. rewrite Forall_forall in Hx, Hy.
  assert (String.le x y) by (apply Hx; left).
  apply elem_of_cons in Hin as [->|Hin]; [done|]. apply (anti_symm String.le); [done|by apply Hy].
Qed.

Lemma claimKeys_NoDup lockKey supplemental : NoDup (claimKeys lockKey supplemental).
Proof. apply compact_NoDup, StronglySorted_merge_sort; apply _. Qed.

(** ** The locking invariant *)

Record jobs_ok (db : DB) : Prop := {
  ok_id id j : runs db !! id = Some j -> ID j = id;
  ok_holder key id t : locks db !! key = Some (id, t) ->
    exists j, runs db !! id = Some j /\ terminal (Status j) = false;
  ok_lock id j : runs db !! id = Some j -> Status j = StatusRunning ->
    exists t, locks db !! LockKey j = Some (id, t)
}.

Lemma same_jobs_Some db db' id j' :
  same_jobs db db' -> runs db' !! id = Some j' -> exists j, runs db !! id = Some j /\ core j = core j'.
Proof.
  intros [_ Hr] Hj. specialize (Hr id). rewrite Hj in Hr. simpl in Hr. symmetry in Hr.
  apply fmap_Some in Hr as (j & ? & ?). by exists j.
Qed.

Lemma core_eq j j' : core j = core j' ->
  ID j = ID j' /\ Status j = Status j' /\ LockKey j = LockKey j' /\ LeaseOwner j = LeaseOwner j'.
Proof. unfold core. intros [= ? ? ? ?]. done. Qed.

Lemma same_jobs_ok db db' : same_jobs db db' -> jobs_ok db -> jobs_ok db'.
Proof.
  intros Hs [Hid Hho Hlo]. pose proof Hs as [Hl Hr]. split.
  - intros id j (j0 & Hj0 & Hc)%(same_jobs_Some db); [|done]. apply core_eq in Hc as (<- & _ & _). by eapply Hid.
  - intros key id t. rewrite Hl. intros (j & Hj & Ht)%Hho. specialize (Hr id). rewrite Hj in Hr.
    apply fmap_Some in Hr as (j' & ? & Hc). exists j'. split; [done|].
    apply core_eq in Hc as (_ & <- & _). done.
  - intros id j (j0 & Hj0 & Hc)%(same_jobs_Some db) Hst; [|done]. apply core_eq in Hc as (_ & Hs0 & <- & _).
    rewrite Hl. eapply Hlo; [done|]. by rewrite Hs0.
Qed.

(** Taking free keys and then inserting the running row. *)
Lemma claim_jobs_ok db keys now row s2 :
  jobs_ok db -> (forall key, key ∈ keys -> locks db !! key = None) -> LockKey row ∈ keys ->
  Status row = StatusRunning ->
  same_jobs (withLocks (takeKeys (ID row) now keys) db) s2 -> runs s2 !! ID row = None ->
  jobs_ok (withRuns <[ID row := row]> s2).
Proof.
  intros [Hid Hho Hlo] Hfree Hkey Hst [Hl Hr] Hnew. simpl in Hl, Hr.
  assert (forall id j', runs s2 !! id = Some j' -> exists j, runs db !! id = Some j /\ core j = core j') as Hback.
  { intros id j' Hj'. apply (same_jobs_Some (withLocks (takeKeys (ID row) now keys) db) s2); done. }
  split; simpl.
  - intros id j [[<- <-]|[_ (j0 & Hj0 & Hc)%Hback]]%lookup_insert_cases; [done|].
    apply core_eq in Hc as (<- & _ & _). by eapply Hid.
  - intros key id t. rewrite Hl, takeKeys_lookup. destruct (decide (key ∈ keys)).
    + intros [= <- <-]. exists row. by rewrite lookup_insert_eq, Hst.
    + intros (j & Hj & Ht)%Hho. specialize (Hr id). rewrite Hj in Hr. apply fmap_Some in Hr as (j' & Hj' & Hc).
      assert (id <> ID row) by (intros ->; by rewrite Hnew in Hj').
      exists j'. rewrite lookup_insert_ne by done. apply core_eq in Hc as (_ & <- & _). done.
  - intros id j [[<- <-]|[Hne (j0 & Hj0 & Hc)%Hback]]%lookup_insert_cases Hrun; rewrite Hl, takeKeys_lookup.
    + rewrite decide_True by done. by eexists.
    + apply core_eq in Hc as (_ & Hs & Hk & _). rewrite <- Hk. destruct (Hlo id j0 Hj0) as [t Ht]; [by rewrite Hs|].
      rewrite decide_False; [by exists t|]. intros Hin%Hfree. by rewrite Hin in Ht.
Qed.

(** Closing a row: a terminal status and no lock left. *)
Lemma close_jobs_ok db id (f : Job -> Job) j :
  jobs_ok db -> runs db !! id = Some j -> terminal (Status (f j)) = true -> ID (f j) = ID j ->
  jobs_ok (withLocks (filter (fun kv => kv.2.1 <> id)) (withRuns <[id := f j]> db)).
Proof.
  intros [Hid Hho Hlo] Hj Hterm Hidf. split; simpl.
  - intros i j' [[<- <-]|[_ Hj']]%lookup_insert_cases; [rewrite Hidf; by apply Hid|by apply Hid].
  - intros key i t [Hl Hne]%map_lookup_filter_Some. simpl in Hne. apply Hho in Hl as (j' & Hj' & Ht).
    exists j'. by rewrite lookup_insert_ne.
  - intros i j' [[<- <-]|[Hne Hj']]%lookup_insert_cases Hrun; [by rewrite Hrun in Hterm|].
    destruct (Hlo i j' Hj' Hrun) as [t Ht]. exists t. apply map_lookup_filter_Some. split; [done|]. simpl. congruence.
Qed.

Lemma releaseLocks_absent db id :
  jobs_ok db -> runs db !! id = None -> filter (fun kv : string * (string * Z) => kv.2.1 <> id) (locks db) = locks db.
Proof.
  intros Hok Hn. apply map_filter_id. intros key [i t] Hl. simpl. intros ->.
  apply (ok_holder _ Hok) in Hl as (j & Hj & _). by rewrite Hn in Hj.
Qed.

Lemma jobs_ok_eq db db' : runs db' = runs db -> locks db' = locks db -> jobs_ok db -> jobs_ok db'.
Proof. intros Hr Hl. apply same_jobs_ok. split; [done|]. intros id. by rewrite Hr. Qed.

Lemma updateRun_Ok id p f s b s' :
  updateRun id p f s = (Ok b, s') ->
  (exists j, runs s.1 !! id = Some j /\ p j = true /\ b = true /\ s'.1 = withRuns <[id := f j]> s.1) \/
  (b = false /\ s'.1 = s.1 /\ (runs s.1 !! id = None \/ exists j, runs s.1 !! id = Some j /\ p j = false)).
Proof.
  intros [H _]%stmt_Ok. destruct (runs s.1 !! id) as [j|]; [destruct (p j) eqn:Hp|]; injection H as <- <-.
  - left. by exists j.
  - right. split_and!; [done|done|]. right. by exists j.
  - right. auto.
Qed.

(** What a committed finish did. *)
Lemma Finish_Ok jobID status progress code msg log clean at_ onFinish s u s' :
  FinishJob jobID status progress code msg log clean at_ onFinish s = (Ok u, s') ->
  exists fs1 fs2,
    (runs s.1 !! jobID = None \/ statusChecked status = true) /\
    default (tret tt) onFinish
      (withLocks (filter (fun kv => kv.2.1 <> jobID))
        (withRuns (fun m => match m !! jobID with
                            | Some j => <[jobID := setFinished status progress code msg log clean at_ j]> m
                            | None => m end) s.1), fs1) = (Ok u, (s'.1, fs2)).
Proof.
  unfold FinishJob. intros (fs0 & s1 & E & ->)%inTx_Ok.
  apply tbind_Ok in E as (b & sa & H1 & E). apply tbind_Ok in E as (? & [d2 fs2] & H2 & E).
  apply stmt_Ok in H2 as [H2 _]. injection H2 as _ H2. destruct s1 as [d1 fs1]. exists fs2, fs1.
  assert ((runs s.1 !! jobID = None \/ statusChecked status = true) /\
          sa.1 = withRuns (fun m => match m !! jobID with
                            | Some j => <[jobID := setFinished status progress code msg log clean at_ j]> m
                            | None => m end) s.1) as [Hc Ha].
  { destruct (statusChecked status).
    - apply updateRun_Ok in H1 as [(j & Hj & _ & _ & ->)|(_ & -> & Hn)]; (split; [by right|]); simpl in *.
      + by unfold withRuns; rewrite Hj.
      + destruct Hn as [Hn|(? & ? & [=])]. unfold withRuns. rewrite Hn. by destruct (s.1).
    - apply stmt_Ok in H1 as [H1 _]. simpl in H1. destruct (runs s.1 !! jobID) eqn:Hn; [done|].
      injection H1 as _ <-. split; [by left|]. unfold withRuns. rewrite Hn. by destruct (s.1). }
  split; [done|]. simpl. rewrite <- Ha, H2. destruct onFinish; exact E.
Qed.

(** ** Reachable tables

    Everything the daemon does to the job tables, under any faults. *)
Inductive jstep : TxS -> TxS -> Prop :=
| JClaim j supplemental owner until now hook s :
    JobFrame (default (tret tt) hook) ->
    jstep s (ClaimJobWithLocks j supplemental owner until now hook s).2
| JRenew id owner until s : jstep s (RenewJobLease id owner until s).2
| JProgress id p m s : jstep s (UpdateJobProgress id p m s).2
| JCheckpoint id c s : jstep s (UpdateJobCheckpoint id c s).2
| JFinish id status p code msg log clean at_ hook s :
    terminal status = true -> JobFrame (default (tret tt) hook) ->
    jstep s (FinishJob id status p code msg log clean at_ hook s).2
| JCancelQueued id now s : jstep s (CancelQueuedJob id now s).2
| JRequestCancel id now s : jstep s (RequestJobCancel id now s).2
| JSweep cutoff s : jstep s (SweepTerminalJobs cutoff s).2
| JOther {A} (m : Tx A) s : JobFrame m -> jstep s (m s).2
| JTime db fs fs' : jstep (db, fs) (db, fs').

Lemma sweptFrom_elem cutoff before l j : j ∈ sweptFrom cutoff before l -> j ∈ l.
Proof.
  revert before. induction l as [|x l IH]; intros before; [done|]. cbn [sweptFrom]. cbv zeta.
  destruct (_ || _); rewrite ?elem_of_cons; intros H; naive_solver.
Qed.

Lemma elem_of_rows db j : jobs_ok db -> j ∈ rows db <-> runs db !! ID j = Some j.
Proof.
  intros Hok. unfold rows. rewrite list_elem_of_fmap. split.
  - intros ([id j'] & -> & Hj%elem_of_map_to_list). simpl in *. by rewrite (ok_id _ Hok _ _ Hj).
  - intros Hj. exists (ID j, j). split; [done|]. by apply elem_of_map_to_list.
Qed.

Lemma sweptRows_terminal db cutoff j : jobs_ok db ->
  j ∈ sweptRows cutoff db -> runs db !! ID j = Some j /\ terminal (Status j) = true.
Proof.
  intros Hok Hj%sweptFrom_elem. unfold terminalRows in Hj.
  rewrite merge_sort_Permutation, list_elem_of_filter, elem_of_rows in Hj; [tauto|done].
Qed.

Lemma sweep_jobs_ok db cutoff : jobs_ok db ->
  jobs_ok (withRuns (filter (fun kv => kv.1 ∉ (ID <$> sweptRows cutoff db))) db).
Proof.
  intros Hok. split; simpl.
  - intros id j [Hj _]%map_lookup_filter_Some. by apply (ok_id _ Hok).
  - intros key id t (j & Hj & Ht)%(ok_holder _ Hok). exists j. split; [|done].
    apply map_lookup_filter_Some. split; [done|]. simpl. intros (j' & -> & Hin)%list_elem_of_fmap.
    apply sweptRows_terminal in Hin as [Hj' Ht']; [|done]. rewrite Hj in Hj'. injection Hj' as ->.
    by rewrite Ht in Ht'.
  - intros id j [Hj _]%map_lookup_filter_Some Hr. by apply (ok_lock _ Hok).
Qed.

Lemma cancelQueued_ok id now s : jobs_ok s.1 -> jobs_ok (CancelQueuedJob id now s).2.1.
Proof.
  intros Hok. unfold CancelQueuedJob. destruct s as [db fs].
  destruct (tbind _ _ _) as [[[]|e] s1] eqn:E; [|by destruct s1..]. cbn [snd].
  apply tbind_Ok in E as (? & sa & H1 & E). apply point_Ok in H1.
  apply tbind_Ok in E as (n & sb & H2 & E). destruct n; [|by injection E].
  apply updateRun_Ok in H2 as [(j & Hj & _ & _ & Hb)|([=] & _)]. simpl in E.
  apply tbind_Ok in E as (? & sc & H3 & E). apply stmt_Ok in H3 as [H3 _]. injection H3 as _ H3.
  apply tbind_Ok in E as (? & sd & H4 & E). injection E as <-. apply point_Ok in H4.
  rewrite H4, <- H3, Hb, H1 in *. by apply (close_jobs_ok db id (setCancelled now) j).
Qed.

Lemma jstep_ok s s' : jstep s s' -> jobs_ok s.1 -> jobs_ok s'.1.
Proof.
  assert (forall {A} (m : Tx A) s, JobFrame m -> jobs_ok s.1 -> jobs_ok (m s).2.1) as Hframe.
  { intros A m s0 Hm. apply same_jobs_ok, Hm. }
  intros [j supplemental owner until now hook s1 Hf|id owner until s1|id p m s1|id c s1
    |id status p code msg log clean at_ hook s1 Ht Hf|id now s1|id now s1|cutoff s1|A m s1 Hf|db fs fs'] Hok; try (apply Hframe; [apply _|done]).
  - destruct (ClaimJobWithLocks _ _ _ _ _ _ s1) as [[j'|e] s2] eqn:E; simpl.
    + apply Claim_Ok in E as (fs1 & d & fs2 & Hfree & Hh & Hnew & -> & _).
      pose proof (Hf (withLocks (takeKeys (ID j) now (claimKeys (LockKey j) supplemental)) s1.1, fs1)) as Hfr.
      rewrite Hh in Hfr. simpl in Hfr.
      apply (claim_jobs_ok s1.1 (claimKeys (LockKey j) supplemental) now (claimedRow j owner until now)); try done.
      * intros key Hk. by apply Hfree.
      * apply claimKeys_elem. by left.
    + by apply inTx_Err in E as ->.
  - destruct (FinishJob _ _ _ _ _ _ _ _ _ s1) as [[u|e] s2] eqn:E; simpl.
    + apply Finish_Ok in E as (fs1 & fs2 & _ & Hh). destruct u.
      match type of Hh with _ (?d, _) = _ => pose proof (Hf (d, fs1)) as Hfr; rewrite Hh in Hfr; simpl in Hfr;
        apply (same_jobs_ok d); [exact Hfr|] end.
      destruct (runs s1.1 !! id) as [j|] eqn:Hj.
      * eapply jobs_ok_eq; [| |apply (close_jobs_ok s1.1 id (setFinished status p code msg log clean at_) j); done];
          simpl; by rewrite ?Hj.
      * apply (jobs_ok_eq s1.1); [|exact (releaseLocks_absent s1.1 id Hok Hj)|done]. simpl. by rewrite Hj.
    + by apply inTx_Err in E as ->.
  - by apply cancelQueued_ok.
  - unfold SweepTerminalJobs. destruct (stmt _ s1) as [[n|e] s2] eqn:E; simpl.
    + apply stmt_Ok in E as [E _]. cbv zeta in E. injection E as _ <-. by apply sweep_jobs_ok.
    + by apply stmt_Err in E as [-> _].
  - done.
Qed.

Lemma Claim_Err j supplemental owner leaseUntil now onClaim s e s' :
  ClaimJobWithLocks j supplemental owner leaseUntil now onClaim s = (Err e, s') -> s'.1 = s.1.
Proof. apply inTx_Err. Qed.

Lemma Finish_Err jobID status p code msg log clean at_ onFinish s e s' :
  FinishJob jobID status p code msg log clean at_ onFinish s = (Err e, s') -> s'.1 = s.1.
Proof. apply inTx_Err. Qed.

(** Claims and finishes leave the other rows' cores alone. *)
Lemma Claim_rows j supplemental owner leaseUntil now onClaim s j' s' :
  JobFrame (default (tret tt) onClaim) ->
  ClaimJobWithLocks j supplemental owner leaseUntil now onClaim s = (Ok j', s') ->
  j' = claimedJob j owner leaseUntil now /\ runs s.1 !! ID j = None /\
  runs s'.1 !! ID j = Some (claimedRow j owner leaseUntil now) /\
  forall id, id <> ID j -> core <$> runs s'.1 !! id = core <$> runs s.1 !! id.
Proof.
  intros Hf (fs1 & d & fs2 & Hfree & Hh & Hnew & -> & ->)%Claim_Ok.
  pose proof (Hf (withLocks (takeKeys (ID j) now (claimKeys (LockKey j) supplemental)) s.1, fs1)) as [_ Hr].
  rewrite Hh in Hr. simpl in Hr |- *. split_and!; [done| |apply lookup_insert_eq|].
  - specialize (Hr (ID j)). rewrite Hnew in Hr. by destruct (runs s.1 !! ID j).
  - intros id Hne. by rewrite lookup_insert_ne.
Qed.

Lemma Finish_rows jobID status p code msg log clean at_ onFinish s u s' id :
  JobFrame (default (tret tt) onFinish) ->
  FinishJob jobID status p code msg log clean at_ onFinish s = (Ok u, s') ->
  id <> jobID -> core <$> runs s'.1 !! id = core <$> runs s.1 !! id.
Proof.
  intros Hf (fs1 & fs2 & _ & Hh)%Finish_Ok Hne. destruct u.
  match type of Hh with _ (?d, _) = _ => pose proof (Hf (d, fs1)) as [_ Hr]; rewrite Hh in Hr; simpl in Hr end.
  rewrite Hr. destruct (runs s.1 !! jobID); [|done]. by rewrite lookup_insert_ne.
Qed.

Lemma Finish_status jobID status p code msg log clean at_ onFinish s u s' :
  JobFrame (default (tret tt) onFinish) ->
  FinishJob jobID status p code msg log clean at_ onFinish s = (Ok u, s') ->
  forall j, runs s'.1 !! jobID = Some j -> Status j = status.
Proof.
  intros Hf (fs1 & fs2 & _ & Hh)%Finish_Ok j Hj. destruct u.
  match type of Hh with _ (?d, _) = _ => pose proof (Hf (d, fs1)) as [_ Hr]; rewrite Hh in Hr; simpl in Hr end.
  specialize (Hr jobID). rewrite Hj in Hr. destruct (runs s.1 !! jobID) as [j0|] eqn:Hj0.
  - rewrite lookup_insert_eq in Hr. injection Hr as _ Hst _ _. done.
  - by rewrite Hj0 in Hr.
Qed.

Lemma cancelQueued_rows id now s i : i <> id ->
  core <$> runs (CancelQueuedJob id now s).2.1 !! i = core <$> runs s.1 !! i.
Proof.
  intros Hne. unfold CancelQueuedJob. destruct s as [db fs].
  destruct (tbind _ _ _) as [[[]|e] s1] eqn:E; [|by destruct s1..]. cbn [snd].
  apply tbind_Ok in E as (? & sa & H1 & E). apply point_Ok in H1.
  apply tbind_Ok in E as (n & sb & H2 & E). destruct n; [|by injection E].
  apply updateRun_Ok in H2 as [(j & Hj & _ & _ & Hb)|([=] & _)]. simpl in E.
  apply tbind_Ok in E as (? & sc & H3 & E). apply stmt_Ok in H3 as [H3 _]. injection H3 as _ H3.
  apply tbind_Ok in E as (? & sd & H4 & E). injection E as <-. apply point_Ok in H4.
  rewrite H4, <- H3, Hb, H1. simpl. by rewrite lookup_insert_ne.
Qed.

(** The tables' writer discharges the lifecycle's interface. *)
Lemma casInstance_Ok id from to f s b s' :
  casInstance id from to f s = (Ok b, s') ->
  (exists i, instances s.1 !! id = Some i /\ iState i = from /\ to ∈ states /\ b = true /\
     s'.1 = withInstances <[id := f i]> s.1) \/
  (b = false /\ s'.1 = s.1 /\ forall i, instances s.1 !! id = Some i -> iState i <> from).
Proof.
  intros [H _]%stmt_Ok. destruct (instances s.1 !! id) as [i|]; [case_bool_decide as Hf|].
  - case_bool_decide as Ht; [|done]. injection H as <- <-. left. by exists i.
  - injection H as <- <-. right. split_and!; [done..|]. by intros ? [= <-].
  - injection H as <- <-. by right.
Qed.

Lemma casInstance_Err id from to f s e s' : casInstance id from to f s = (Err e, s') -> s'.1 = s.1.
Proof. by intros [? _]%stmt_Err. Qed.

#[export] Program Instance TxS_laws : StateWriterLaws clockedTx := {
  stateOf id s := iState <$> instances s.2.1 !! id
}.
Next Obligation.
  intros id from to [now s] db'. simpl. destruct (TxUpdateInstanceState now id from to s) as [[b|e] s'] eqn:E;
    [|by destruct e]. intros [= -> <-].
  apply casInstance_Ok in E as [(i & Hi & <- & _ & _ & E)|([=] & _)]. simpl. rewrite E, Hi. simpl.
  rewrite lookup_insert_eq. split_and!; [done..|]. intros j Hj. by rewrite lookup_insert_ne.
Qed.
Next Obligation.
  intros id from to [now s] db'. simpl. destruct (TxUpdateInstanceState now id from to s) as [[b|e] s'] eqn:E;
    [|by destruct e]. intros [= -> <-].
  apply casInstance_Ok in E as [(i & _ & _ & _ & [=] & _)|(_ & E & Hn)]. simpl. rewrite E. split; [|done].
  intros (i & Hi & Hf)%fmap_Some. by apply (Hn i).
Qed.
Next Obligation.
  intros id from to [now s] db' e. simpl. destruct (TxUpdateInstanceState now id from to s) as [[b|e'] s'] eqn:E;
    [done|]. intros [= _ <-] j. simpl. by rewrite (casInstance_Err _ _ _ _ _ _ _ E).
Qed.

(** ** A claim without faults *)

Lemma acquireLocks_free jobID now keys db :
  NoDup keys -> (forall key, key ∈ keys -> key <> "" /\ locks db !! key = None) ->
  acquireLocks jobID now keys (db, []) = (Ok tt, (withLocks (takeKeys jobID now keys) db, [])).
Proof.
  revert db. induction keys as [|k keys IH]; intros db Hnd Hall; [by destruct db|].
  apply NoDup_cons in Hnd as [Hk Hnd]. cbn [acquireLocks]. unfold tbind.
  destruct (Hall k) as [Hne Hf]; [by left|]. rewrite acquireLock_free by done.
  rewrite IH; [by destruct db|done|]. intros key Hin. destruct (Hall key) as [? Hl]; [by right|]. split; [done|].
  simpl. rewrite lookup_insert_ne; [done|]. by intros ->.
Qed.

Lemma acquireLocks_conflict jobID now keys db db1 :
  NoDup keys -> (forall key, key ∈ keys -> key <> "") ->
  (forall key holder t, locks db !! key = Some (holder, t) -> is_Some (runs db !! holder)) ->
  (exists key, key ∈ keys /\ is_Some (locks db !! key)) ->
  (forall key, key ∈ keys -> locks db1 !! key = locks db !! key) -> runs db1 = runs db ->
  exists key holder t jr db', key ∈ keys /\ locks db !! key = Some (holder, t) /\ runs db !! holder = Some jr /\
    acquireLocks jobID now keys (db1, []) = (Err (EConflict (ID jr) (JKind jr)), (db', [])).
Proof.
  intros Hnd Hne Hh. revert db1.
  induction Hnd as [|k keys Hk Hnd IH]; intros db1 (key & Hkey & Hheld) Hl1 Hr1; [by apply not_elem_of_nil in Hkey|].
  cbn [acquireLocks]. unfold tbind.
  assert (k <> "") by (apply Hne; left). destruct (locks db !! k) as [[holder t]|] eqn:Hl.
  - destruct (Hh _ _ _ Hl) as [jr Hjr]. exists k, holder, t, jr, db1.
    rewrite (acquireLock_conflict jobID now k holder t jr) by (rewrite ?Hr1, ?Hl1 by left; done).
    split_and!; [left|done..].
  - rewrite acquireLock_free by (rewrite ?Hl1 by left; done).
    apply elem_of_cons in Hkey as [->|Hkey]; [rewrite Hl in Hheld; by destruct Hheld|].
    destruct (IH (fun key H => Hne key (list_elem_of_further key k keys H))
      (withLocks <[k := (jobID, now)]> db1)) as (key' & h & t & jr & db' & Hin & Hrest); [by eauto| |done|].
    { intros key' Hin. simpl. rewrite lookup_insert_ne by (by intros ->). apply Hl1. by right. }
    exists key', h, t, jr, db'. split; [by right|done].
Qed.

Lemma jsteps_ok s s' : rtc jstep s s' -> jobs_ok s.1 -> jobs_ok s'.1.
Proof. induction 1 as [|s1 s2 s3 Hst _ IH]; [done|]. intros H. by apply IH, (jstep_ok s1). Qed.

Lemma empty_jobs_ok db : runs db = ∅ -> locks db = ∅ -> jobs_ok db.
Proof. intros Hr Hl. split; rewrite ?Hr, ?Hl; intros *; by rewrite lookup_empty. Qed.

(** ** Properties *)

(** C17. From empty tables, whatever claims, renewals, finishes, cancellations and
    sweeps run, in any order and however many statements the driver fails, no
    two running jobs ever share a lock key, every held lock belongs to a job
    row that is not terminal, and a running job holds its own lock. *)
Theorem running_jobs_exclusive (db0 : DB) (fs0 : faults) (s : TxS) :
  runs db0 = ∅ -> locks db0 = ∅ -> rtc jstep (db0, fs0) s ->
  (forall id1 j1 id2 j2, runs s.1 !! id1 = Some j1 -> runs s.1 !! id2 = Some j2 ->
    Status j1 = StatusRunning -> Status j2 = StatusRunning -> LockKey j1 = LockKey j2 -> id1 = id2) /\
  (forall key id t, locks s.1 !! key = Some (id, t) ->
    exists j, runs s.1 !! id = Some j /\ terminal (Status j) = false) /\
  (forall id j, runs s.1 !! id = Some j -> Status j = StatusRunning ->
    LockHolder (LockKey j) s.1 = Some id).
Proof.
  intros Hr Hl Hsteps. assert (jobs_ok s.1) as Hok by exact (jsteps_ok _ _ Hsteps (empty_jobs_ok _ Hr Hl)).
  split_and!; [|by apply (ok_holder _ Hok)|].
  - intros id1 j1 id2 j2 H1 H2 Hs1 Hs2 Hk.
    destruct (ok_lock _ Hok _ _ H1 Hs1) as [t1 Ht1]. destruct (ok_lock _ Hok _ _ H2 Hs2) as [t2 Ht2].
    rewrite Hk, Ht2 in Ht1. by injection Ht1.
  - intros id j Hj Hst. unfold LockHolder. by destruct (ok_lock _ Hok _ _ Hj Hst) as [t ->].
Qed.

(** A submission as the engine builds it. *)
Definition aJob (id kind lockKey : string) (instanceID : option string) : Job :=
  mkJob id kind "" lockKey instanceID "" None false "{}" None false 0 None None None None None None 0
    None None None 0 None None.

Definition noDB : DB := mkDB ∅ ∅ ∅ ∅ ∅ ∅.

Example running_jobs_exclusive_witness :
  let s := (ClaimJob (aJob "j1" "start" "instance:i" None) "p:b" 9 1 None (noDB, [false; true])).2 in
  (forall id1 j1 id2 j2, runs s.1 !! id1 = Some j1 -> runs s.1 !! id2 = Some j2 ->
    Status j1 = StatusRunning -> Status j2 = StatusRunning -> LockKey j1 = LockKey j2 -> id1 = id2) /\
  (forall key id t, locks s.1 !! key = Some (id, t) ->
    exists j, runs s.1 !! id = Some j /\ terminal (Status j) = false) /\
  (forall id j, runs s.1 !! id = Some j -> Status j = StatusRunning ->
    LockHolder (LockKey j) s.1 = Some id).
Proof.
  apply (running_jobs_exclusive noDB [false; true]); [done|done|].
  apply rtc_once, (JClaim _ []), tret_frame.
Defined.

(** A claim is all or nothing.  When it answers a job, every key was free and
    is now held by it, no other lock moved, and its row is running under the
    caller's lease; when it errs, at whatever statement, no table changed. *)
Theorem ClaimJobWithLocks_atomic (j : Job) (supplemental : list string) (owner : string)
    (leaseUntil now : Z) (onClaim : option (Tx unit)) (s : TxS) :
  JobFrame (default (tret tt) onClaim) ->
  match ClaimJobWithLocks j supplemental owner leaseUntil now onClaim s with
  | (Err _, s') => s'.1 = s.1
  | (Ok j', s') =>
      (forall key, key = LockKey j \/ key ∈ supplemental -> key <> "" /\ locks s.1 !! key = None) /\
      (forall key, locks s'.1 !! key =
        if decide (key = LockKey j \/ key ∈ supplemental) then Some (ID j, now) else locks s.1 !! key) /\
      runs s.1 !! ID j = None /\
      runs s'.1 !! ID j = Some (claimedRow j owner leaseUntil now) /\
      (forall id, id <> ID j -> core <$> runs s'.1 !! id = core <$> runs s.1 !! id)
  end.
Proof.
  intros Hf. destruct (ClaimJobWithLocks _ _ _ _ _ _ s) as [[j'|e] s'] eqn:E; [|by apply inTx_Err in E].
  apply Claim_Ok in E as (fs1 & d & fs2 & Hfree & Hh & Hnew & -> & _).
  pose proof (Hf (withLocks (takeKeys (ID j) now (claimKeys (LockKey j) supplemental)) s.1, fs1)) as [Hl Hr].
  rewrite Hh in Hl, Hr. simpl in Hl, Hr. setoid_rewrite claimKeys_elem in Hfree.
  split_and!; [done| |..]; simpl.
  - intros key. rewrite Hl, takeKeys_lookup. pose proof (claimKeys_elem (LockKey j) supplemental key) as Hke.
    destruct (decide (key ∈ claimKeys _ _)), (decide (key = _ \/ _)); tauto.
  - specialize (Hr (ID j)). rewrite Hnew in Hr. by destruct (runs s.1 !! ID j).
  - apply lookup_insert_eq.
  - intros id Hne. by rewrite lookup_insert_ne.
Qed.

Example ClaimJobWithLocks_atomic_witness :
  match ClaimJobWithLocks (aJob "j1" "clone" "instance:a" None) ["instance:b"] "p:b" 9 1 None (noDB, [false; false; true]) with
  | (Err _, s') => s'.1 = noDB
  | (Ok j', s') => False
  end.
Proof.
  exact (ClaimJobWithLocks_atomic (aJob "j1" "clone" "instance:a" None) ["instance:b"] "p:b" 9 1 None
    (noDB, [false; false; true]) (tret_frame tt)).
Defined.

(** Reject, do not queue: with no fault, a claim naming a held key answers the
    conflict of the job that holds one of its keys and changes nothing, and a
    claim whose keys are all free, whose id is new and whose references exist
    succeeds. *)
Theorem ClaimJobWithLocks_decides (j : Job) (supplemental : list string) (owner : string)
    (leaseUntil now : Z) (db : DB) :
  jobs_ok db -> (forall key, key = LockKey j \/ key ∈ supplemental -> key <> "") ->
  ((exists key, (key = LockKey j \/ key ∈ supplemental) /\ is_Some (locks db !! key)) ->
   exists key t jr, (key = LockKey j \/ key ∈ supplemental) /\ locks db !! key = Some (ID jr, t) /\
     runs db !! ID jr = Some jr /\
     ClaimJobWithLocks j supplemental owner leaseUntil now None (db, []) =
       (Err (EConflict (ID jr) (JKind jr)), (db, []))) /\
  ((forall key, key = LockKey j \/ key ∈ supplemental -> locks db !! key = None) ->
   runs db !! ID j = None -> InstanceID j = None -> RequestedBy j = None -> ScheduleID j = None ->
   (ClaimJobWithLocks j supplemental owner leaseUntil now None (db, [])).1 =
     Ok (claimedJob j owner leaseUntil now)).
Proof.
  intros Hok Hne. setoid_rewrite <- claimKeys_elem in Hne.
  pose proof (claimKeys_NoDup (LockKey j) supplemental) as Hnd. split.
  - intros (key & Hkey & Hheld). apply claimKeys_elem in Hkey.
    destruct (acquireLocks_conflict (ID j) now (claimKeys (LockKey j) supplemental) db db)
      as (k & holder & t & jr & db' & Hk & Hl & Hr & E); try done; [|by exists key|].
    { intros k h t (jr & ? & _)%(ok_holder _ Hok). by exists jr. }
    assert (ID jr = holder) as <- by by apply (ok_id _ Hok).
    exists k, t, jr. rewrite <- claimKeys_elem. split_and!; [done..|].
    unfold ClaimJobWithLocks. rewrite inTx_run. unfold tbind at 1. by rewrite E.
  - intros Hfree Hnew Hi Hu Hs. setoid_rewrite <- claimKeys_elem in Hfree.
    unfold ClaimJobWithLocks. rewrite inTx_run. unfold tbind at 1. rewrite acquireLocks_free by (done || auto).
    unfold tbind, insertRun. cbn [fst tret]. rewrite stmt_run. cbn [ID claimedRow InstanceID RequestedBy ScheduleID].
    rewrite Hi, Hu, Hs. rewrite decide_False; [done|]. simpl. rewrite Hnew. by intros [? ?].
Qed.

Example ClaimJobWithLocks_decides_witness :
  let db := (ClaimJob (aJob "j1" "start" "instance:i" None) "p:b" 9 1 None (noDB, [])).2.1 in
  exists key t jr, (key = "instance:i" \/ key ∈ []) /\ locks db !! key = Some (ID jr, t) /\
     runs db !! ID jr = Some jr /\
     ClaimJobWithLocks (aJob "j2" "stop" "instance:i" None) [] "p:b" 9 2 None (db, []) =
       (Err (EConflict (ID jr) (JKind jr)), (db, [])).
Proof.
  apply (ClaimJobWithLocks_decides (aJob "j2" "stop" "instance:i" None)).
  - apply (jsteps_ok (noDB, [])); [apply rtc_once, (JClaim _ []), tret_frame|by apply empty_jobs_ok].
  - intros key [->|Hk]; [done|by apply not_elem_of_nil in Hk].
  - exists "instance:i". split; [by left|]. eexists; vm_compute; reflexivity.
Defined.

(** A finish closes the row and lets go of every lock in one step: after it
    the row has the terminal status, no lease and none of the locks, every
    other job's locks stand, and no renewal of its lease succeeds again; a
    finish that errs, in the hook or in the driver, changed nothing. *)
Theorem FinishJob_atomic (jobID status : string) (p : Z) (code msg log : option string)
    (clean : option bool) (at_ : Z) (onFinish : option (Tx unit)) (s : TxS) :
  JobFrame (default (tret tt) onFinish) -> terminal status = true ->
  match FinishJob jobID status p code msg log clean at_ onFinish s with
  | (Err _, s') => s'.1 = s.1
  | (Ok _, s') =>
      (forall j, runs s.1 !! jobID = Some j ->
         exists j', runs s'.1 !! jobID = Some j' /\ ID j' = ID j /\ Status j' = status) /\
      (forall key id t, locks s'.1 !! key = Some (id, t) <-> id <> jobID /\ locks s.1 !! key = Some (id, t)) /\
      (forall owner until fs, (RenewJobLease jobID owner until (s'.1, fs)).1 <> Ok true)
  end.
Proof.
  intros Hf Ht. destruct (FinishJob _ _ _ _ _ _ _ _ _ s) as [[[]|e] s'] eqn:E; [|by apply inTx_Err in E].
  apply Finish_Ok in E as (fs1 & fs2 & _ & Hh).
  match type of Hh with _ (?d, _) = _ => pose proof (Hf (d, fs1)) as [Hl Hr]; rewrite Hh in Hl, Hr; simpl in Hl, Hr end.
  assert (forall j, runs s.1 !! jobID = Some j ->
     exists j', runs s'.1 !! jobID = Some j' /\ ID j' = ID j /\ Status j' = status) as Hrow.
  { intros j Hj. specialize (Hr jobID). rewrite Hj, lookup_insert_eq in Hr.
    apply fmap_Some in Hr as (j' & Hj' & Hc). apply core_eq in Hc as (? & ? & _). by exists j'. }
  split_and!; [done| |].
  - intros key id t. rewrite Hl, map_lookup_filter_Some. simpl. tauto.
  - intros owner until fs Hren. destruct (RenewJobLease jobID owner until (s'.1, fs)) as [r s2] eqn:E.
    simpl in Hren. subst r. unfold RenewJobLease in E. apply updateRun_Ok in E as [(j' & Hj' & Hp & _)|([=] & _)]. simpl in Hj'.
    apply andb_true_iff in Hp as [_ Hp%bool_decide_eq_true].
    specialize (Hr jobID). destruct (runs s.1 !! jobID) as [j|] eqn:Hj; [|by rewrite Hj, Hj' in Hr].
    destruct (Hrow j) as (j'' & Hj'' & _ & Hst); [done|]. rewrite Hj' in Hj''. injection Hj'' as <-.
    rewrite Hp in Hst. by subst status.
Qed.

Example FinishJob_atomic_witness :
  let r := FinishJob "j1" StatusFailed 40 (Some "boom") None None None 7 None
             ((ClaimJob (aJob "j1" "start" "instance:i" None) "p:b" 9 1 None (noDB, [])).2.1, []) in
  r.1 = Ok tt /\ forall owner until fs, (RenewJobLease "j1" owner until (r.2.1, fs)).1 <> Ok true.
Proof.
  split; [vm_compute; reflexivity|].
  exact (proj2 (proj2 (FinishJob_atomic "j1" StatusFailed 40 (Some "boom") None None None 7 None
    ((ClaimJob (aJob "j1" "start" "instance:i" None) "p:b" 9 1 None (noDB, [])).2.1, [])
    (tret_frame tt) eq_refl))).
Defined.

(** An audited move writes the state and its record together or neither. *)
Theorem SetStateAudited_atomic (newID : string) (now : Z) (id : string) (from to : State)
    (audit : AuditEntry) (s : TxS) :
  match SetStateAudited newID now id from to audit s with
  | (Ok true, s') =>
      Valid from to = true /\
      (exists i, instances s.1 !! id = Some i /\ iState i = from /\
         instances s'.1 = <[id := setState to now i]> (instances s.1)) /\
      let aid := if bool_decide (aID audit = "") then newID else aID audit in
      auditLog s.1 !! aid = None /\
      (exists row, auditLog s'.1 = <[aid := row]> (auditLog s.1) /\ rAction row = aAction audit)
  | (_, s') => s'.1 = s.1
  end.
Proof.
  unfold SetStateAudited, ValidateTransition. destruct (Valid from to); [|done]. simpl.
  unfold UpdateInstanceStateAudited. destruct (inTx _ s) as [[b|e] s'] eqn:E; [|by apply inTx_Err in E].
  apply inTx_Ok in E as (fs1 & s1 & E & Hs'). apply tbind_Ok in E as (n & s2 & H1 & E).
  unfold TxUpdateInstanceState in H1. apply casInstance_Ok in H1 as [(i & Hi & Hst & _ & -> & H2)|(-> & H2 & _)]; simpl in *.
  2: { injection E as <- <-. by rewrite Hs', H2. }
  apply tbind_Ok in E as (u & s3 & H3 & E). injection E as <- <-.
  unfold writeAuditLog in H3. apply stmt_Ok in H3 as [H3 _]. cbv zeta in H3.
  destruct (decide _) as [|Hn]; [done|]. injection H3 as _ H3. rewrite Hs', <- H3, H2. simpl.
  rewrite H2 in Hn. simpl in Hn. split_and!; [done|by exists i|by apply eq_None_not_Some|].
  eexists. split; [done|]. done.
Qed.

(** ** The retention sweep *)

Lemma NoDup_rows db : jobs_ok db -> NoDup (rows db).
Proof.
  intros Hok. apply (NoDup_fmap_1 ID). unfold rows. rewrite <- list_fmap_compose.
  assert ((ID ∘ snd) <$> map_to_list (runs db) = fst <$> map_to_list (runs db)) as ->.
  { apply list_fmap_ext. intros i [id j] Hi. apply list_elem_of_lookup_2, elem_of_map_to_list in Hi.
    by apply (ok_id _ Hok). }
  apply NoDup_fst_map_to_list.
Qed.

Lemma NoDup_terminalRows db : jobs_ok db -> NoDup (terminalRows db).
Proof. intros Hok. unfold terminalRows. rewrite merge_sort_Permutation. by apply NoDup_filter, NoDup_rows. Qed.

Lemma sweptFrom_old cutoff before l j :
  j ∈ l -> (CreatedAt j < cutoff)%Z -> j ∈ sweptFrom cutoff before l.
Proof.
  revert before. induction l as [|x l IH]; intros before Hj Ho; [done|]. cbn [sweptFrom]. cbv zeta.
  destruct (_ || _) eqn:E; apply elem_of_cons in Hj as [->|Hj].
  - left.
  - right. by apply IH.
  - apply orb_false_iff in E as [_ E%Z.ltb_ge]. lia.
  - by apply IH.
Qed.

Lemma sweptFrom_why cutoff before l j :
  j ∈ sweptFrom cutoff before l ->
  (CreatedAt j < cutoff)%Z \/ (maxTerminal < length (filter (fun x => InstanceID x = InstanceID j) (l ++ before)))%nat.
Proof.
  revert before. induction l as [|x l IH]; intros before; [by intros ?%not_elem_of_nil|].
  assert (forall P `{forall y, Decision (P y)}, length (filter P (l ++ x :: before)) = length (filter P ((x :: l) ++ before))) as Hperm.
  { intros P ?. apply Permutation_length. by rewrite <- Permutation_middle. }
  cbn [sweptFrom]. cbv zeta. destruct (_ || _) eqn:E; [intros [->|Hj]%elem_of_cons|intros Hj].
  - apply orb_true_iff in E as [E%bool_decide_eq_true|E%Z.ltb_lt]; [right|by left].
    eapply Nat.lt_le_trans; [exact E|]. rewrite filter_app, length_app, filter_cons_True by done. simpl. lia.
  - apply IH in Hj. by rewrite Hperm in Hj.
  - apply IH in Hj. by rewrite Hperm in Hj.
Qed.

Lemma sweptFrom_kept cutoff before l i : NoDup l ->
  (length (filter (fun x => InstanceID x = i) (filter (fun x => x ∉ sweptFrom cutoff before l) l)) <=
   maxTerminal - length (filter (fun x => InstanceID x = i) before))%nat.
Proof.
  intros Hnd. revert before. induction Hnd as [|x l Hx Hnd IH]; intros before; [simpl; lia|].
  specialize (IH (x :: before)). rewrite filter_cons in IH. cbn [sweptFrom]. cbv zeta.
  assert (x ∉ sweptFrom cutoff (x :: before) l) as Hnx by (by intros ?%sweptFrom_elem).
  destruct (_ || _) eqn:E.
  - rewrite filter_cons_False by (intros Hn; apply Hn; left).
    rewrite (filter_iff_in (fun y => y ∉ x :: sweptFrom cutoff (x :: before) l) (fun y => y ∉ sweptFrom cutoff (x :: before) l)).
    + destruct (decide (InstanceID x = i)); rewrite ?length_cons in IH; lia.
    + intros y Hy. assert (y <> x) by (by intros ->). rewrite not_elem_of_cons. tauto.
  - apply orb_false_iff in E as [E%bool_decide_eq_false _].
    rewrite filter_cons_True by done. rewrite filter_cons.
    destruct (decide (InstanceID x = i)) as [<-|]; rewrite ?length_cons in *; lia.
Qed.

Lemma terminalRows_swept db cutoff i : jobs_ok db ->
  filter (fun j => terminal (Status j) = true /\ InstanceID j = i)
    (rows (withRuns (filter (fun kv => kv.1 ∉ (ID <$> sweptRows cutoff db))) db)) ≡ₚ
  filter (fun x => InstanceID x = i) (filter (fun x => x ∉ sweptRows cutoff db) (terminalRows db)).
Proof.
  intros Hok. pose proof (sweep_jobs_ok db cutoff Hok) as Hok'.
  apply NoDup_Permutation; [by apply NoDup_filter, NoDup_rows|by repeat apply NoDup_filter; apply NoDup_terminalRows|].
  intros j. rewrite !list_elem_of_filter, elem_of_rows by done. unfold terminalRows.
  rewrite merge_sort_Permutation, list_elem_of_filter, elem_of_rows by done. simpl.
  rewrite map_lookup_filter_Some. simpl. split.
  - intros [[Ht Hi] [Hj Hn]]. split_and!; try done. intros Hs. apply Hn, list_elem_of_fmap. by exists j.
  - intros (Hi & Hn & Ht & Hj). split_and!; try done. intros (j' & Hid & Hs)%list_elem_of_fmap.
    apply Hn. pose proof Hs as [Hj' _]%(sweptRows_terminal db); [|done]. rewrite <- Hid, Hj in Hj'.
    by injection Hj' as ->.
Qed.

Lemma sweep_running db cutoff fs id j : jobs_ok db ->
  runs db !! id = Some j -> Status j = StatusRunning ->
  runs (SweepTerminalJobs cutoff (db, fs)).2.1 !! id = Some j.
Proof.
  intros Hok Hj Hs. unfold SweepTerminalJobs. destruct (stmt _ _) as [[n|e] s'] eqn:E.
  - apply stmt_Ok in E as [E _]. cbv zeta in E. injection E as _ E. simpl in E |- *. rewrite <- E.
    apply map_lookup_filter_Some. split; [done|].
    simpl. intros (j' & -> & [Hj' Ht]%(sweptRows_terminal db))%list_elem_of_fmap; [|done].
    rewrite Hj in Hj'. injection Hj' as ->. by rewrite Hs in Ht.
  - apply stmt_Err in E as [E _]. simpl in *. by rewrite E.
Qed.

(** The retention sweep deletes terminal rows only, so no running job and no
    lock is touched; afterwards every terminal row is at least as recent as
    the cutoff and no instance has more than five hundred of them; and a
    recent row of an instance with at most five hundred terminal rows stays. *)
Theorem SweepTerminalJobs_spec (cutoff : Z) (db : DB) :
  jobs_ok db ->
  let db' := (SweepTerminalJobs cutoff (db, [])).2.1 in
  locks db' = locks db /\
  (forall id j, runs db' !! id = Some j -> runs db !! id = Some j) /\
  (forall id j, runs db !! id = Some j -> terminal (Status j) = false -> runs db' !! id = Some j) /\
  (forall id j, runs db' !! id = Some j -> terminal (Status j) = true -> (cutoff <= CreatedAt j)%Z) /\
  (forall i, length (filter (fun j => terminal (Status j) = true /\ InstanceID j = i) (rows db')) <= maxTerminal)%nat /\
  (forall id j, runs db !! id = Some j -> (cutoff <= CreatedAt j)%Z ->
     (length (filter (fun x => InstanceID x = InstanceID j) (terminalRows db)) <= maxTerminal)%nat ->
     runs db' !! id = Some j).
Proof.
  intros Hok. unfold SweepTerminalJobs. rewrite stmt_run. cbn [snd fst].
  assert (forall id j, runs db !! id = Some j -> j ∉ sweptRows cutoff db ->
    filter (fun kv => kv.1 ∉ (ID <$> sweptRows cutoff db)) (runs db) !! id = Some j) as Hkeep.
  { intros id j Hj Hn. apply map_lookup_filter_Some. split; [done|]. simpl.
    intros (j' & -> & Hs)%list_elem_of_fmap. pose proof Hs as [Hj' _]%(sweptRows_terminal db); [|done].
    rewrite Hj in Hj'. by injection Hj' as ->. }
  split_and!; [done|..]; simpl.
  - by intros id j [Hj _]%map_lookup_filter_Some.
  - intros id j Hj Ht. apply Hkeep; [done|]. intros [_ Ht']%(sweptRows_terminal db); [|done]. by rewrite Ht in Ht'.
  - intros id j [Hj Hn]%map_lookup_filter_Some Ht. apply Z.le_ngt. intros Hold. apply Hn. simpl.
    rewrite <- (ok_id _ Hok _ _ Hj). apply list_elem_of_fmap. exists j. split; [done|].
    apply sweptFrom_old; [|done]. unfold terminalRows.
    rewrite merge_sort_Permutation, list_elem_of_filter, elem_of_rows by done. split; [done|].
    by rewrite (ok_id _ Hok _ _ Hj).
  - intros i. rewrite terminalRows_swept by done. unfold sweptRows.
    etrans; [by apply sweptFrom_kept, NoDup_terminalRows|]. apply Nat.le_sub_l.
  - intros id j Hj Hc Hlen. apply Hkeep; [done|]. intros [Hlt|Hlt]%sweptFrom_why; [lia|].
    rewrite app_nil_r in Hlt. lia.
Qed.

Example SweepTerminalJobs_spec_witness :
  let db := (FinishJob "j1" StatusFailed 0 None None None None 7 None
    (ClaimJob (aJob "j1" "start" "instance:i" None) "p:b" 9 5 None (noDB, [])).2).2.1 in
  let db' := (SweepTerminalJobs 6 (db, [])).2.1 in
  (runs db !! "j1" <> None /\ runs db' !! "j1" = None) /\
  forall id j, runs db' !! id = Some j -> terminal (Status j) = true -> (6 <= CreatedAt j)%Z.
Proof.
  split; [by split; vm_compute|].
  refine (proj1 (proj2 (proj2 (proj2 (SweepTerminalJobs_spec 6 _ _))))).
  pose (s1 := (ClaimJob (aJob "j1" "start" "instance:i" None) "p:b" 9 5 None (noDB, [])).2).
  apply (jsteps_ok (noDB, []) (FinishJob "j1" StatusFailed 0 None None None None 7 None s1).2);
    [|by apply empty_jobs_ok].
  apply (rtc_l _ _ s1).
  - apply (JClaim _ [] _ _ _ None), tret_frame.
  - apply rtc_once, (JFinish _ _ _ _ _ _ _ _ None); [done|apply tret_frame].
Defined.
