(* ===== verification/Engine.v ===== *)
(** internal/jobs engine.go, cancel.go, handle.go, broker.go, log.go and
    wait.go: submission, the work and finish phases, lease renewal,
    cancellation, shutdown, and the event broker.

    The engine's goroutines interleave as steps on one engine state: each
    exported method, each renewal tick and the end of each runner is a step.
    The runners are the callers' code; a step takes what the runner returned. *)
From S2P Require Import Prelude Kinds Lifecycle Sql Store.

(** ** The capped log (log.go) *)

Record cappedLog := mkLog { cap : Z; lines : list bytes; size : Z; truncated : bool }.

Definition newCappedLog (capBytes : Z) : cappedLog := mkLog capBytes [] 0 false.

Definition zlen (l : bytes) : Z := Z.of_nat (length l).

(** The eviction loop of [Append]. *)
Fixpoint evict (cap : Z) (lines : list bytes) (size : Z) (truncated : bool) : cappedLog :=
  match lines with
  | l :: (_ :: _) as rest =>
      if (cap <? size)%Z then evict cap rest (size - (zlen l + 1)) true
      else mkLog cap lines size truncated
  | _ => mkLog cap lines size truncated
  end.

Definition Append (b : cappedLog) (line : bytes) : cappedLog :=
  evict (cap b) (lines b ++ [line]) (size b + zlen line + 1) (truncated b).

Definition newline : ascii := Ascii.ascii_of_nat 10.
(** The marker is UTF-8: an ellipsis of three bytes. *)
Definition truncatedMarker : bytes :=
  [Ascii.ascii_of_nat 226; Ascii.ascii_of_nat 128; Ascii.ascii_of_nat 166] ++ L " (truncated)" ++ [newline].

(** [String]; a byte slice from [len(out) - cap]. *)
Definition LogString (b : cappedLog) : bytes :=
  match lines b with
  | [] => []
  | _ =>
      let out := (if truncated b then truncatedMarker else []) ++ concat (map (fun l => l ++ [newline]) (lines b)) in
      if (cap b <? zlen out)%Z then drop (Z.to_nat (zlen out - cap b)) out else out
  end.

(** ** The broker (broker.go)

    A subscriber is the number it was registered under. *)
Record Event := mkEvent { evJob : string; evStatus : string; evProgress : Z; evMessage : string; LogLine : string }.
Record broker := mkBroker { next : Z; subs : gmap string (gset Z) }.

Definition newBroker : broker := mkBroker 0 ∅.
Definition Subscribe (b : broker) (jobID : string) : broker * Z :=
  let id := (next b + 1)%Z in
  (mkBroker id (<[jobID := {[id]} ∪ default ∅ (subs b !! jobID)]> (subs b)), id).
Definition unsubscribe (b : broker) (jobID : string) (id : Z) : broker :=
  let rest := default ∅ (subs b !! jobID) ∖ {[id]} in
  mkBroker (next b) (if decide (rest = ∅) then delete jobID (subs b) else <[jobID := rest]> (subs b)).

(** What the engine does to the outside, in order. *)
Inductive Act :=
| Published (subscriber : Z) (ev : Event)
| Announced (publisher : nat) (instanceID : string)
| AfterFinished (jobID : string).

Definition publish (b : broker) (jobID : string) (ev : Event) : list Act :=
  map (fun s => Published s ev) (elements (default ∅ (subs b !! jobID) : gset Z)).

(** ** The engine (engine.go) *)

Record Config := mkConfig {
  LeaseTTL : Z; ProgressInterval : Z; LogCap : Z;
  FreeSpace : option (result unit N);    (* nil, or what the reading answers *)
  FreeSpaceFloor : N
}.

Record Handle := mkHandle {
  hProgress : Z; hMessage : string; lastWriteAt : Z; lastWriteP : Z; lastWriteM : string;
  hLog : cappedLog; cancelWake : bool
}.

Definition newHandle (cfg : Config) : Handle :=
  mkHandle 0 "" 0 0 "" (newCappedLog (LogCap cfg)) false.

(** [CancelPolicy]. *)
Definition CancelPolicy := string -> bool * string.

Record Spec := mkSpec {
  sKind : Kind; sLockKey : string; sLockKeys : list string; sInstanceID : option string;
  sInstanceName : string;
  sPayload : option string;    (* its JSON, or [None] where it has none *)
  sRequestedBy : string; sScheduleID : string; sResumeAfter : bool;
  sOnClaim : option (Tx unit); sAudit : option AuditEntry
}.

Record Outcome := mkOutcome {
  oStatus : string; oErrorCode : string; oError : string; oClean : option bool;
  oOnFinish : option (Tx unit);
  oAfterFinish : bool    (* set; its call is an action *)
}.

(** A worker goroutine: its spec, whether its renewal found the lease gone
    (which also cancels its context), and the claim it runs under. *)
Record worker := mkWorker { wSpec : Spec; leaseLost : bool }.

Record FinishedJob := mkFinished {
  fID : string; fKind : Kind; fInstanceID : option string; fInstanceName : string;
  fPayload : option string; fRequestedBy : string; fStatus : string; fError : string
}.

Record Engine := mkEngine {
  db : DB; owner : string; cfg : Config; events : broker;
  draining : bool; stopped : bool;
  workers : gmap string worker; policies : gmap Kind CancelPolicy; handles : gmap string Handle;
  announce : nat; onFinish : option (FinishedJob -> Tx unit);
  trace : list Act
}.

Inductive EngineErr :=
| ErrStore (e : TxErr) | ErrPayload | ErrFreeSpace | LowDiskError (free floor : N)
| ErrShuttingDown | ErrConflict (jobID kind : string)
| ErrJobNotFound | ErrJobTerminal | ErrNotCancellable (phase : string) | ErrCancelRequested | ErrContext.

Definition withDB (d : DB) (e : Engine) : Engine :=
  mkEngine d (owner e) (cfg e) (events e) (draining e) (stopped e) (workers e) (policies e) (handles e)
    (announce e) (onFinish e) (trace e).
Definition withWorkers (f : gmap string worker -> gmap string worker) (e : Engine) : Engine :=
  mkEngine (db e) (owner e) (cfg e) (events e) (draining e) (stopped e) (f (workers e)) (policies e) (handles e)
    (announce e) (onFinish e) (trace e).
Definition withHandles (f : gmap string Handle -> gmap string Handle) (e : Engine) : Engine :=
  mkEngine (db e) (owner e) (cfg e) (events e) (draining e) (stopped e) (workers e) (policies e) (f (handles e))
    (announce e) (onFinish e) (trace e).
Definition act (l : list Act) (e : Engine) : Engine :=
  mkEngine (db e) (owner e) (cfg e) (events e) (draining e) (stopped e) (workers e) (policies e) (handles e)
    (announce e) (onFinish e) (trace e ++ l).

(** [Announce], [OnFinish], [RegisterCancelPolicy]. *)
Definition Announce (e : Engine) : Engine :=
  mkEngine (db e) (owner e) (cfg e) (events e) (draining e) (stopped e) (workers e) (policies e) (handles e)
    (S (announce e)) (onFinish e) (trace e).
Definition OnFinish (hook : FinishedJob -> Tx unit) (e : Engine) : Engine :=
  mkEngine (db e) (owner e) (cfg e) (events e) (draining e) (stopped e) (workers e) (policies e) (handles e)
    (announce e) (Some hook) (trace e).
Definition RegisterCancelPolicy (k : Kind) (p : CancelPolicy) (e : Engine) : Engine :=
  mkEngine (db e) (owner e) (cfg e) (events e) (draining e) (stopped e) (workers e) (<[k := p]> (policies e))
    (handles e) (announce e) (onFinish e) (trace e).

(** [announced]: every registered publisher, for a named instance. *)
Definition announced (instanceID : option string) (e : Engine) : Engine :=
  match instanceID with
  | None => e
  | Some id => if bool_decide (id = "") then e
               else act (map (fun fn => Announced fn id) (seq 0 (announce e))) e
  end.

Definition New (d : DB) (own : string) (c : Config) : Engine :=
  mkEngine d own c newBroker false false ∅ ∅ ∅ 0 None [].

Definition checkDiskRoom (e : Engine) (k : Kind) : result EngineErr unit :=
  match FreeSpace (cfg e) with
  | None => Ok tt
  | Some r =>
      if negb (NeedsDiskRoom k) then Ok tt
      else match r with
           | Err _ => Err ErrFreeSpace
           | Ok free => if (free <? FreeSpaceFloor (cfg e))%N then Err (LowDiskError free (FreeSpaceFloor (cfg e)))
                        else Ok tt
           end
  end.

(** [claimHook]: the caller's OnClaim, then the audit entry with the job's id. *)
Definition withJobID (jobID : string) (a : AuditEntry) : AuditEntry :=
  mkAudit (aID a) (aUserID a) (aInstanceID a) (aAction a) (aDetail a) (aIP a) (aActorName a)
    (aInstanceName a) jobID (aOutcome a).

Definition claimHook (spec : Spec) (jobID auditID : string) (now : Z) : option (Tx unit) :=
  match sAudit spec with
  | None => sOnClaim spec
  | Some entry => Some (
      let! _ := match sOnClaim spec with None => tret tt | Some h => h end in
      writeAuditLog auditID now (withJobID jobID entry))
  end.

Definition nonEmpty (s : string) : option string := if bool_decide (s = "") then None else Some s.

Definition submittedJob (spec : Spec) (jobID payload : string) : Job :=
  mkJob jobID (kindName (sKind spec)) "" (sLockKey spec) (sInstanceID spec) (sInstanceName spec)
    (nonEmpty (sScheduleID spec)) false payload None (sResumeAfter spec) 0 None None None None None
    (nonEmpty (sRequestedBy spec)) 0 None None None 0 None None.

(** [Submit], to the moment the worker goroutine exists.  [jobID] and
    [auditID] are the ids it draws, [now] the clock, [fs] what the driver
    fails.  The worker starts by registering its handle. *)
Definition Submit (e : Engine) (spec : Spec) (jobID auditID : string) (now : Z) (fs : faults)
    : result EngineErr Job * Engine :=
  match checkDiskRoom e (sKind spec) with
  | Err err => (Err err, e)
  | Ok _ =>
      match sPayload spec with
      | None => (Err ErrPayload, e)
      | Some payload =>
          if draining e then (Err ErrShuttingDown, e)
          else
            let j := submittedJob spec jobID payload in
            match ClaimJobWithLocks j (sLockKeys spec) (owner e) (now + LeaseTTL (cfg e)) now
                    (claimHook spec jobID auditID now) (db e, fs) with
            | (Err (EConflict id kind), (d, _)) => (Err (ErrConflict id kind), withDB d e)
            | (Err err, (d, _)) => (Err (ErrStore err), withDB d e)
            | (Ok j', (d, _)) =>
                let e := withWorkers <[jobID := mkWorker spec false]> (withDB d e) in
                let e := announced (sInstanceID spec) e in
                (Ok j', withHandles <[jobID := newHandle (cfg e)]> e)
            end
      end
  end.

(** [PrependFinish] and the hook wrapper of [hooked]. *)
Definition PrependFinish (o : Outcome) (first : option (Tx unit)) : Outcome :=
  match first with
  | None => o
  | Some f =>
      mkOutcome (oStatus o) (oErrorCode o) (oError o) (oClean o)
        (Some (let! _ := f in match oOnFinish o with None => tret tt | Some h => h end)) (oAfterFinish o)
  end.

Definition hooked (e : Engine) (jobID : string) (spec : Spec) (o : Outcome) : Outcome :=
  match onFinish e with
  | None => o
  | Some hook =>
      let fin := mkFinished jobID (sKind spec) (sInstanceID spec) (sInstanceName spec) (sPayload spec)
                   (sRequestedBy spec) (oStatus o) (oError o) in
      mkOutcome (oStatus o) (oErrorCode o) (oError o) (oClean o)
        (Some (let! _ := match oOnFinish o with None => tret tt | Some h => h end in hook fin))
        (oAfterFinish o)
  end.

(** The end of [run], from the runner's return: nothing is written once the
    engine is stopped or the lease is lost.  The worker and its handle go on
    every path. *)
Definition runEnd (e : Engine) (jobID : string) (outcome : Outcome) (now : Z) (fs : faults) : Engine :=
  match workers e !! jobID, handles e !! jobID with
  | Some w, Some h =>
      let o := hooked e jobID (wSpec w) outcome in
      let gone := fun e => withHandles (delete jobID) (withWorkers (delete jobID) e) in
      if stopped e then gone e
      else if leaseLost w then gone e
      else
        let log := LogString (hLog h) in
        match FinishJob jobID (oStatus o) (hProgress h) (nonEmpty (oErrorCode o)) (nonEmpty (oError o))
                (nonEmpty (String.string_of_list_ascii log)) (oClean o) now (oOnFinish o) (db e, fs) with
        | (Err _, (d, _)) => gone (withDB d e)
        | (Ok _, (d, _)) =>
            let e := withDB d e in
            let e := act (publish (events e) jobID (mkEvent jobID (oStatus o) (hProgress h) "" "")) e in
            let e := announced (sInstanceID (wSpec w)) e in
            let e := if oAfterFinish o then act [AfterFinished jobID] e else e in
            gone e
        end
  | _, _ => e
  end.

(** One tick of [renewLease]; a cancelled worker's ticker has returned. *)
Definition renewTick (e : Engine) (jobID : string) (now : Z) (fs : faults) : Engine :=
  match workers e !! jobID with
  | None => e
  | Some w =>
      if stopped e || leaseLost w then e
      else match RenewJobLease jobID (owner e) (now + LeaseTTL (cfg e)) (db e, fs) with
           | (Err _, (d, _)) => withDB d e
           | (Ok true, (d, _)) => withDB d e
           | (Ok false, (d, _)) => withWorkers <[jobID := mkWorker (wSpec w) true]> (withDB d e)
           end
  end.

(** [Shutdown]: refuse new work, and at the deadline, or when the last worker
    is gone, cancel every context. *)
Definition drain (e : Engine) : Engine :=
  mkEngine (db e) (owner e) (cfg e) (events e) true (stopped e) (workers e) (policies e) (handles e)
    (announce e) (onFinish e) (trace e).
Definition stop (e : Engine) : Engine :=
  mkEngine (db e) (owner e) (cfg e) (events e) (draining e) true (workers e) (policies e) (handles e)
    (announce e) (onFinish e) (trace e).

(** ** Handles (handle.go) *)

(** [Progress]: what the handle becomes, and whether the row is written. *)
Definition progressed (c : Config) (h : Handle) (pct : Z) (message : string) (now : Z) : Handle * bool :=
  let stepped := negb (bool_decide (message = lastWriteM h)) in
  let moved := negb (bool_decide (pct = lastWriteP h)) && (ProgressInterval c <=? now - lastWriteAt h)%Z in
  if stepped || moved then (mkHandle pct message now pct message (hLog h) (cancelWake h), true)
  else (mkHandle pct message (lastWriteAt h) (lastWriteP h) (lastWriteM h) (hLog h) (cancelWake h), false).

Definition Progress (e : Engine) (jobID : string) (pct : Z) (message : string) (now : Z) (fs : faults) : Engine :=
  match handles e !! jobID with
  | None => e
  | Some h =>
      let '(h', write) := progressed (cfg e) h pct message now in
      let e := withHandles <[jobID := h']> e in
      let e := act (publish (events e) jobID (mkEvent jobID StatusRunning pct message "")) e in
      if negb write then e
      else withDB (UpdateJobProgress jobID pct message (db e, fs)).2.1 e
  end.

Definition LogLine_ (e : Engine) (jobID : string) (line : string) : Engine :=
  match handles e !! jobID with
  | None => e
  | Some h =>
      let h' := mkHandle (hProgress h) (hMessage h) (lastWriteAt h) (lastWriteP h) (lastWriteM h)
                  (Append (hLog h) (String.list_ascii_of_string line)) (cancelWake h) in
      act (publish (events e) jobID (mkEvent jobID "" 0 "" line)) (withHandles <[jobID := h']> e)
  end.

Definition Checkpoint_ (e : Engine) (jobID checkpoint : string) (fs : faults) : result EngineErr unit * Engine :=
  match UpdateJobCheckpoint jobID checkpoint (db e, fs) with
  | (Ok _, (d, _)) => (Ok tt, withDB d e)
  | (Err err, (d, _)) => (Err (ErrStore err), withDB d e)
  end.

(** [CancelRequested]; a failed read answers false. *)
Definition CancelRequested (e : Engine) (jobID : string) (readFails : bool) : bool :=
  if readFails then false
  else match JobByID jobID (db e) with
       | None => false
       | Some j => bool_decide (is_Some (CancelRequestedAt j))
       end.

(** ** Cancellation (cancel.go) *)

Definition wakeCancel (jobID : string) (e : Engine) : Engine :=
  withHandles (alter (fun h => mkHandle (hProgress h) (hMessage h) (lastWriteAt h) (lastWriteP h) (lastWriteM h)
                                (hLog h) true) jobID) e.

(** [Cancel], reading the row as it is. *)
Definition Cancel (e : Engine) (jobID : string) (now : Z) (fs : faults) : result EngineErr unit * Engine :=
  match JobByID jobID (db e) with
  | None => (Err ErrJobNotFound, e)
  | Some j =>
      if bool_decide (Status j = StatusQueued) then
        match CancelQueuedJob jobID now (db e, fs) with
        | (Err err, (d, _)) => (Err (ErrStore err), withDB d e)
        | (Ok false, (d, _)) => (Err ErrJobTerminal, withDB d e)
        | (Ok true, (d, _)) =>
            (Ok tt, act (publish (events e) jobID (mkEvent jobID StatusCancelled 0 "" "")) (withDB d e))
        end
      else if bool_decide (Status j = StatusRunning) then
        let checkpoint := default "" (Checkpoint j) in
        match policies e !! mkKind (JKind j) with
        | None => (Err (ErrNotCancellable (Status j)), e)
        | Some policy =>
            let '(cancellable, phase) := policy checkpoint in
            if negb cancellable then (Err (ErrNotCancellable phase), e)
            else match RequestJobCancel jobID now (db e, fs) with
                 | (Err err, (d, _)) => (Err (ErrStore err), withDB d e)
                 | (Ok _, (d, _)) => (Ok tt, wakeCancel jobID (withDB d e))
                 end
        end
      else (Err ErrJobTerminal, e)
  end.

(** ** Waiting (wait.go)

    What wakes a wait, with the tables the next read sees. *)
Inductive Signal :=
| SigWoke (d : DB) | SigRecheck (d : DB) | SigMoved (message : string) | SigCancelled | SigCtxDone.

(** [wait]'s loop over the signals that arrive: the answer, if one is reached
    before they run out, and the messages relayed. *)
Fixpoint idle (sigs : list Signal) : option (result EngineErr DB * list Signal) * list string :=
  match sigs with
  | [] => (None, [])
  | SigCtxDone :: _ => (Some (Err ErrContext, []), [])
  | SigCancelled :: _ => (Some (Err ErrCancelRequested, []), [])
  | SigMoved m :: sigs => let '(r, ms) := idle sigs in (r, m :: ms)
  | SigWoke d :: sigs => (Some (Ok d, sigs), [])
  | SigRecheck d :: sigs => (Some (Ok d, sigs), [])
  end.

Fixpoint waitLoop (fuel : nat) (first : bool) (id : string) (d : DB) (sigs : list Signal)
    : option (result EngineErr Job) * list string :=
  match fuel with
  | O => (None, [])
  | S fuel =>
      match JobByID id d with
      | None => (Some (Err ErrJobNotFound), [])
      | Some row =>
          if terminal (Status row) then (Some (Ok row), [])
          else
            let relayed := if first then match Message row with
                                         | Some m => if bool_decide (m = "") then [] else [m]
                                         | None => []
                                         end
                           else [] in
            match idle sigs with
            | (None, ms) => (None, relayed ++ ms)
            | (Some (Err err, _), ms) => (Some (Err err), relayed ++ ms)
            | (Some (Ok d', sigs'), ms) =>
                let '(r, ms') := waitLoop fuel false id d' sigs' in (r, relayed ++ ms ++ ms')
            end
      end
  end.

Definition wait (id : string) (d : DB) (sigs : list Signal) : option (result EngineErr Job) * list string :=
  waitLoop (S (length sigs)) true id d sigs.

(** ** The capped log stays within its cap *)

Definition lineCost (l : list bytes) : Z := fold_right (fun x n => zlen x + 1 + n)%Z 0%Z l.

Lemma lineCost_app l l' : lineCost (l ++ l') = (lineCost l + lineCost l')%Z.
Proof. unfold lineCost. induction l as [|x l IH]; simpl; lia. Qed.

Lemma lineCost_nonneg l : (0 <= lineCost l)%Z.
Proof. unfold lineCost, zlen. induction l as [|x l IH]; simpl; lia. Qed.

(** [size] counts the lines kept, [lines] is a suffix of what was appended,
    and nothing was dropped while everything fitted. *)
Record log_ok (c : Z) (all : list bytes) (b : cappedLog) : Prop := {
  lo_cap : cap b = c;
  lo_size : size b = lineCost (lines b);
  lo_suffix : exists gone, all = gone ++ lines b /\ (truncated b = false <-> gone = []) /\
    (lineCost all <= c -> gone = [])%Z
}.

Lemma evict_ok c all ls s t gone :
  s = lineCost ls -> all = gone ++ ls -> (t = false <-> gone = []) -> ((lineCost all <= c)%Z -> gone = []) ->
  log_ok c all (evict c ls s t).
Proof.
  revert s t gone. induction ls as [|l ls IH]; intros s t gone Hs Hall Ht Hfit.
  { split; simpl; eauto. }
  destruct ls as [|l' ls]; [split; simpl; eauto|].
  cbn [evict]. destruct (c <? s)%Z eqn:E; [|split; simpl; eauto].
  apply Z.ltb_lt in E. apply (IH _ _ (gone ++ [l])).
  - subst s. unfold lineCost. simpl. lia.
  - by rewrite Hall, <- app_assoc.
  - split; [done|]. intros H. by destruct gone.
  - intros Hle. exfalso. rewrite Hall, lineCost_app in Hle. pose proof (lineCost_nonneg gone). lia.
Qed.

Lemma Append_ok c all b line : log_ok c all b -> log_ok c (all ++ [line]) (Append b line).
Proof.
  intros [Hc Hs (gone & Hall & Ht & Hfit)]. unfold Append. rewrite Hc. apply (evict_ok _ _ _ _ _ gone).
  - rewrite Hs, lineCost_app. unfold lineCost. simpl. lia.
  - by rewrite Hall, app_assoc.
  - done.
  - intros Hle. apply Hfit. rewrite lineCost_app in Hle. pose proof (lineCost_nonneg [line]). lia.
Qed.

Lemma Appends_ok c ls : log_ok c ls (fold_left Append ls (newCappedLog c)).
Proof.
  induction ls as [|x ls IH] using rev_ind.
  - split; [done..|]. exists []. done.
  - rewrite fold_left_app. by apply Append_ok.
Qed.

Lemma concat_lines_length ls : zlen (concat (map (fun l => l ++ [newline]) ls)) = lineCost ls.
Proof.
  induction ls as [|l ls IH]; [done|]. unfold lineCost in *. cbn [map concat fold_right]. rewrite <- IH.
  unfold zlen. rewrite !length_app. cbn [length]. lia.
Qed.

(** ** Engine steps *)

Definition hookFrame (h : option (Tx unit)) : Prop := JobFrame (default (tret tt) h).

Inductive estep : Engine -> Engine -> Prop :=
| ESubmit e spec jobID auditID now fs :
    hookFrame (sOnClaim spec) -> estep e (Submit e spec jobID auditID now fs).2
| ERunEnd e jobID o now fs :
    terminal (oStatus o) = true -> hookFrame (oOnFinish o) -> estep e (runEnd e jobID o now fs)
| ERenew e jobID now fs : estep e (renewTick e jobID now fs)
| EProgress e jobID pct m now fs : estep e (Progress e jobID pct m now fs)
| ELog e jobID line : estep e (LogLine_ e jobID line)
| ECheckpoint e jobID c fs : estep e (Checkpoint_ e jobID c fs).2
| ECancel e jobID now fs : estep e (Cancel e jobID now fs).2
| ESweep e cutoff fs : estep e (withDB (SweepTerminalJobs cutoff (db e, fs)).2.1 e)
| EAnnounce e : estep e (Announce e)
| EOnFinish e hook : (forall f, JobFrame (hook f)) -> estep e (OnFinish hook e)
| EPolicy e k p : estep e (RegisterCancelPolicy k p e)
| EDrain e : estep e (drain e)
| EStop e : estep e (stop e)
| EOther {A} e (m : Tx A) fs : JobFrame m -> estep e (withDB (m (db e, fs)).2.1 e).

Definition hookOk (e : Engine) : Prop :=
  match onFinish e with None => True | Some h => forall f, JobFrame (h f) end.

Definition workerOk (e : Engine) (id : string) (w : worker) : Prop :=
  leaseLost w = false /\ is_Some (handles e !! id) /\
  exists j, runs (db e) !! id = Some j /\ Status j = StatusRunning /\
    LeaseOwner j = Some (owner e) /\ LockKey j = sLockKey (wSpec w).

Record engine_ok (e : Engine) : Prop := {
  eo_jobs : jobs_ok (db e);
  eo_hook : hookOk e;
  eo_worker id w : workers e !! id = Some w -> workerOk e id w
}.

Lemma row_core d d' id j :
  core <$> runs d' !! id = core <$> runs d !! id -> runs d !! id = Some j ->
  exists j', runs d' !! id = Some j' /\ core j' = core j.
Proof. intros Hc Hj. rewrite Hj in Hc. apply fmap_Some in Hc as (j' & ? & ?). by exists j'. Qed.

(** A worker only depends on its own row's core and its handle's presence. *)
Lemma workerOk_keep e e' id w :
  owner e' = owner e -> (is_Some (handles e !! id) -> is_Some (handles e' !! id)) ->
  core <$> runs (db e') !! id = core <$> runs (db e) !! id -> workerOk e id w -> workerOk e' id w.
Proof.
  intros Ho Hh Hc (Hl & Hi & j & Hj & Hs & Hw & Hk). destruct (row_core _ _ _ _ Hc Hj) as (j' & Hj' & Hcj).
  apply core_eq in Hcj as (_ & Hs' & Hk' & Hw'). split_and!; [done|auto|].
  exists j'. split_and!; [done|congruence..].
Qed.

(** Steps that keep the job tables' cores, the workers and the handles' keys. *)
Lemma engine_ok_keep e e' :
  owner e' = owner e -> workers e' = workers e -> onFinish e' = onFinish e ->
  (forall id, is_Some (handles e !! id) -> is_Some (handles e' !! id)) ->
  same_jobs (db e) (db e') -> engine_ok e -> engine_ok e'.
Proof.
  intros Ho Hw Hf Hh Hd [Hj Hk Hwk]. split.
  - by apply (same_jobs_ok (db e)).
  - unfold hookOk. by rewrite Hf.
  - intros id w. rewrite Hw. intros Hid. apply (workerOk_keep e); [done|apply Hh|apply Hd|by apply Hwk].
Qed.

Lemma frame_db {A} (m : Tx A) d fs : JobFrame m -> same_jobs d (m (d, fs)).2.1.
Proof. intros Hm. apply (Hm (d, fs)). Qed.

Lemma hook_then_frame h (m : Tx unit) : hookFrame h -> JobFrame m ->
  JobFrame (let! _ := match h with None => tret tt | Some h => h end in m).
Proof. intros Hh Hm. apply tbind_frame; [by destruct h|done]. Qed.

Lemma claimHook_frame spec jobID auditID now : hookFrame (sOnClaim spec) -> hookFrame (claimHook spec jobID auditID now).
Proof. intros Hh. unfold claimHook. destruct (sAudit spec); [|done]. apply hook_then_frame; [done|apply _]. Qed.

Lemma hooked_frame e jobID spec o : hookOk e -> hookFrame (oOnFinish o) -> hookFrame (oOnFinish (hooked e jobID spec o)).
Proof. unfold hookOk, hooked. destruct (onFinish e); [|done]. intros Hk Ho. by apply hook_then_frame. Qed.

Lemma hooked_status e jobID spec o : oStatus (hooked e jobID spec o) = oStatus o.
Proof. unfold hooked. by destruct (onFinish e). Qed.

Lemma announced_same id e :
  db (announced id e) = db e /\ owner (announced id e) = owner e /\ workers (announced id e) = workers e /\
  handles (announced id e) = handles e /\ onFinish (announced id e) = onFinish e /\ cfg (announced id e) = cfg e.
Proof. unfold announced. destruct id; [case_bool_decide|]; done. Qed.

Lemma submit_ok e spec jobID auditID now fs :
  hookFrame (sOnClaim spec) -> engine_ok e -> engine_ok (Submit e spec jobID auditID now fs).2.
Proof.
  intros Hh He. pose proof He as [Hj Hk Hw]. unfold Submit. destruct (checkDiskRoom _ _); [|done].
  destruct (sPayload spec) as [payload|]; [|done]. destruct (draining e); [done|]. cbv zeta.
  pose proof (claimHook_frame spec jobID auditID now Hh) as Hcf.
  pose proof (jstep_ok _ _ (JClaim (submittedJob spec jobID payload) (sLockKeys spec) (owner e)
    (now + LeaseTTL (cfg e)) now (claimHook spec jobID auditID now) (db e, fs) Hcf) Hj) as Hj'.
  destruct (ClaimJobWithLocks _ _ _ _ _ _ (db e, fs)) as [[j'|err] [d fs']] eqn:E; simpl in Hj'.
  - apply Claim_rows in E as (_ & Hnew & Hrow & Hrest); [|done]. simpl in Hnew, Hrow, Hrest. cbn [snd].
    set (e1 := withWorkers _ _). destruct (announced_same (sInstanceID spec) e1) as (E1 & E2 & E3 & E4 & E5 & _).
    split; simpl; [by rewrite E1|by unfold hookOk; simpl; rewrite E5|].
    intros id w. rewrite E3. simpl. intros [[<- <-]|[Hne Hid]]%lookup_insert_cases.
    + split_and!; [done|simpl; by rewrite lookup_insert_eq|].
      eexists. simpl. rewrite E1, E2. simpl. split_and!; [exact Hrow|done..].
    + apply (workerOk_keep e); [by simpl; rewrite E2| | |by apply Hw].
      * simpl. rewrite E4. simpl. by rewrite lookup_insert_ne.
      * simpl. rewrite E1. simpl. by apply Hrest.
  - apply Claim_Err in E. simpl in E. subst d. by destruct err; apply (engine_ok_keep e).
Qed.

Lemma runEnd_ok e jobID o now fs :
  terminal (oStatus o) = true -> hookFrame (oOnFinish o) -> engine_ok e -> engine_ok (runEnd e jobID o now fs).
Proof.
  intros Ht Hh He. pose proof He as [Hj Hk Hw]. unfold runEnd.
  destruct (workers e !! jobID) as [w|] eqn:Hwid; [|done]. destruct (handles e !! jobID) as [h|] eqn:Hhid; [|done].
  cbv beta zeta.
  pose (gone e0 := withHandles (delete jobID) (withWorkers (delete jobID) e0)).
  assert (forall e', owner e' = owner e -> workers e' = workers e -> handles e' = handles e -> onFinish e' = onFinish e ->
    jobs_ok (db e') -> (forall id, id <> jobID -> core <$> runs (db e') !! id = core <$> runs (db e) !! id) ->
    engine_ok (gone e')) as Hgone.
  { intros e' Ho Hwk Hhd Hf Hj' Hr. unfold gone. split; simpl; [done|by unfold hookOk; simpl; rewrite Hf|].
    intros id w'. simpl. rewrite Hwk, lookup_delete_Some. intros [Hne Hid].
    apply (workerOk_keep e); [done| |by apply Hr|by apply Hw]. simpl. rewrite Hhd. by rewrite lookup_delete_ne. }
  destruct (stopped e); [by apply Hgone|]. destruct (leaseLost w); [by apply Hgone|].
  pose proof (hooked_frame e jobID (wSpec w) o Hk Hh) as Hhf.
  match goal with |- context [FinishJob ?a ?b ?c ?d ?f ?g ?i ?k ?l ?s] =>
    pose proof (jstep_ok _ _ (JFinish a b c d f g i k l s ltac:(by rewrite hooked_status) Hhf) Hj) as Hj';
    destruct (FinishJob a b c d f g i k l s) as [[u|err] [d' fs']] eqn:E end; simpl in Hj'.
  - pose proof (fun id => Finish_rows _ _ _ _ _ _ _ _ _ _ _ _ id Hhf E) as Hr. simpl in Hr.
    set (e1 := act _ (withDB d' e)). destruct (announced_same (sInstanceID (wSpec w)) e1) as (E1 & E2 & E3 & E4 & E5 & _).
    destruct (oAfterFinish _); apply Hgone; simpl; rewrite ?E1, ?E2, ?E3, ?E4, ?E5; done.
  - apply Finish_Err in E. simpl in E. subst d'. by apply Hgone.
Qed.

(** A live worker's renewal always finds its row. *)
Lemma renew_found d id own until fs j :
  runs d !! id = Some j -> Status j = StatusRunning -> LeaseOwner j = Some own ->
  (RenewJobLease id own until (d, fs)).1 <> Ok false.
Proof.
  intros Hj Hs Ho. unfold RenewJobLease. destruct (updateRun _ _ _ _) as [r s'] eqn:E. simpl. intros ->.
  apply updateRun_Ok in E as [(? & _ & _ & [=] & _)|(_ & _ & [Hn|(j' & Hj' & Hp)])]; simpl in *.
  - by rewrite Hj in Hn.
  - rewrite Hj in Hj'. injection Hj' as <-. by rewrite Ho, Hs, !bool_decide_eq_true_2 in Hp.
Qed.

Lemma renewTick_ok e jobID now fs : engine_ok e -> engine_ok (renewTick e jobID now fs).
Proof.
  intros He. pose proof He as [Hj Hk Hw]. unfold renewTick. destruct (workers e !! jobID) as [w|] eqn:Hwid; [|done].
  destruct (stopped e || leaseLost w); [done|].
  destruct (Hw _ _ Hwid) as (_ & _ & j & Hrow & Hs & Ho & _).
  pose proof (renew_found (db e) jobID (owner e) (now + LeaseTTL (cfg e)) fs j Hrow Hs Ho) as Hne.
  pose proof (frame_db (RenewJobLease jobID (owner e) (now + LeaseTTL (cfg e))) (db e) fs _) as Hfr.
  destruct (RenewJobLease _ _ _ _) as [[[]|err] [d fs']]; simpl in *; try done; by apply (engine_ok_keep e).
Qed.

Lemma alter_is_Some {K A} `{Countable K} (m : gmap K A) f i j : is_Some (m !! j) -> is_Some (alter f i m !! j).
Proof. intros [x Hx]. destruct (decide (i = j)) as [->|]; [rewrite lookup_alter_eq, Hx; by eexists|rewrite lookup_alter_ne; eauto]. Qed.

Lemma insert_keeps {K A} `{Countable K} (m : gmap K A) i j x : is_Some (m !! j) -> is_Some (<[i := x]> m !! j).
Proof. rewrite lookup_insert_is_Some_cases. by right. Qed.

Lemma cancel_ok e jobID now fs : engine_ok e -> engine_ok (Cancel e jobID now fs).2.
Proof.
  intros He. pose proof He as [Hj Hk Hw]. unfold Cancel. destruct (JobByID jobID (db e)) as [j|] eqn:Hid; [|done].
  case_bool_decide as Hq.
  - pose proof (jstep_ok _ _ (JCancelQueued jobID now (db e, fs)) Hj) as Hj'.
    assert (forall id w, workers e !! id = Some w ->
      core <$> runs (CancelQueuedJob jobID now (db e, fs)).2.1 !! id = core <$> runs (db e) !! id) as Hr.
    { intros id w Hwid. apply cancelQueued_rows. intros ->. destruct (Hw _ _ Hwid) as (_ & _ & j' & Hj'' & Hs & _).
      unfold JobByID in Hid. rewrite Hid in Hj''. injection Hj'' as <-. by rewrite Hs in Hq. }
    assert (forall l, engine_ok (act l (withDB (CancelQueuedJob jobID now (db e, fs)).2.1 e))) as Hall.
    { intros l. split; [done|done|]. intros id w Hwid. apply (workerOk_keep e); [done|done| |by apply Hw].
      simpl. by eapply Hr. }
    destruct (CancelQueuedJob _ _ _) as [[[]|err] [d fs']]; simpl in *; [apply Hall|..];
      specialize (Hall []); by apply (engine_ok_keep _ (withDB d e)) in Hall.
  - case_bool_decide; [|done]. destruct (policies e !! _) as [p|]; [|done]. destruct (p _) as [c ph].
    destruct (negb c); [done|].
    pose proof (frame_db (RequestJobCancel jobID now) (db e) fs _) as Hfr.
    destruct (RequestJobCancel _ _ _) as [[[]|err] [d fs']]; simpl in *; apply (engine_ok_keep e); try done.
    intros id Hs. simpl. by apply alter_is_Some.
Qed.

Lemma progress_ok e jobID pct m now fs : engine_ok e -> engine_ok (Progress e jobID pct m now fs).
Proof.
  intros He. unfold Progress. destruct (handles e !! jobID) as [h|]; [|done]. destruct (progressed _ _ _ _ _) as [h' []]; simpl.
  - apply (engine_ok_keep e); try done; [intros id; simpl; apply insert_keeps|]. simpl. by apply frame_db, _.
  - apply (engine_ok_keep e); try done. intros id. simpl. apply insert_keeps.
Qed.

Lemma sweep_engine_ok e cutoff fs : engine_ok e -> engine_ok (withDB (SweepTerminalJobs cutoff (db e, fs)).2.1 e).
Proof.
  intros [Hj Hk Hw]. split; [apply (jstep_ok _ _ (JSweep cutoff (db e, fs)) Hj)|done|].
  intros id w Hid. pose proof (Hw _ _ Hid) as (_ & _ & j & Hrow & Hs & _).
  apply (workerOk_keep e); [done|done| |by apply Hw]. cbn [db withDB].
  by rewrite (sweep_running _ cutoff fs id j Hj Hrow Hs), Hrow.
Qed.

Lemma estep_ok e e' : estep e e' -> engine_ok e -> engine_ok e'.
Proof.
  intros [e0 spec jobID auditID now fs Hh|e0 jobID o now fs Ht Hh|e0 jobID now fs|e0 jobID pct m now fs|e0 jobID line
    |e0 jobID c fs|e0 jobID now fs|e0 cutoff fs|e0|e0 hook Hh|e0 k p|e0|e0|A e0 m fs Hm] He.
  - by apply submit_ok.
  - by apply runEnd_ok.
  - by apply renewTick_ok.
  - by apply progress_ok.
  - unfold LogLine_. destruct (handles e0 !! jobID); [|done]. apply (engine_ok_keep e0); try done.
    intros id. simpl. apply insert_keeps.
  - unfold Checkpoint_. pose proof (frame_db (UpdateJobCheckpoint jobID c) (db e0) fs _) as Hfr.
    destruct (UpdateJobCheckpoint _ _ _) as [[[]|err] [d fs']]; by apply (engine_ok_keep e0).
  - by apply cancel_ok.
  - by apply sweep_engine_ok.
  - by apply (engine_ok_keep e0).
  - destruct He as [Hj Hk Hw]. by split.
  - by apply (engine_ok_keep e0).
  - by apply (engine_ok_keep e0).
  - by apply (engine_ok_keep e0).
  - apply (engine_ok_keep e0); try done. by apply frame_db.
Qed.

Lemma esteps_ok e e' : rtc estep e e' -> engine_ok e -> engine_ok e'.
Proof. induction 1 as [|e1 e2 e3 Hst _ IH]; [done|]. intros H. by apply IH, (estep_ok e1). Qed.

Lemma New_ok d own c : jobs_ok d -> engine_ok (New d own c).
Proof. intros Hj. by split. Qed.

Lemma worker_row_running e id w own : engine_ok e -> workers e !! id = Some w -> own <> owner e ->
  exists j, j ∈ StaleJobs own (db e) /\ ID j = id.
Proof.
  intros He Hid Hne. destruct (eo_worker _ He _ _ Hid) as (_ & _ & j & Hj & Hs & Ho & _).
  pose proof (ok_id _ (eo_jobs _ He) _ _ Hj) as Hjid. exists j. split; [|done].
  unfold StaleJobs. rewrite merge_sort_Permutation, list_elem_of_filter, elem_of_rows by apply He.
  rewrite Hjid. split_and!; [done|congruence|done].
Qed.

(** A wait over signals that settle it answers. *)
Definition settles (id : string) (s : Signal) : Prop :=
  match s with
  | SigCancelled | SigCtxDone => True
  | SigMoved _ => False
  | SigWoke d | SigRecheck d => match JobByID id d with None => True | Some j => terminal (Status j) = true end
  end.

Lemma idle_spec sigs :
  match (idle sigs).1 with
  | None => forall s, s ∈ sigs -> exists m, s = SigMoved m
  | Some (Err err, _) => (err = ErrCancelRequested /\ SigCancelled ∈ sigs) \/ (err = ErrContext /\ SigCtxDone ∈ sigs)
  | Some (Ok d, rest) => exists before, sigs = before ++ rest /\ before <> [] /\
      (SigWoke d ∈ before \/ SigRecheck d ∈ before) /\
      (forall s, s ∈ before -> (exists m, s = SigMoved m) \/ s = SigWoke d \/ s = SigRecheck d)
  end.
Proof.
  induction sigs as [|[d|d|m| |] sigs IH]; simpl.
  - by intros s ?%not_elem_of_nil.
  - exists [SigWoke d]. split_and!; [done..|left; left|]. intros s ->%list_elem_of_singleton. auto.
  - exists [SigRecheck d]. split_and!; [done..|right; left|]. intros s ->%list_elem_of_singleton. auto.
  - destruct (idle sigs) as [[[[d|err] rest]|] ms]; simpl in *.
    + destruct IH as (b & -> & ? & Hd & Hall). exists (SigMoved m :: b). split_and!; [done..| |].
      * rewrite !elem_of_cons. naive_solver.
      * intros s [->|Hs]%elem_of_cons; [left; eauto|auto].
    + rewrite !elem_of_cons. tauto.
    + intros s [->|Hs]%elem_of_cons; [by eexists|auto].
  - left. split; [done|left].
  - right. split; [done|left].
Qed.

Lemma waitLoop_spec fuel first id d sigs : (length sigs < fuel)%nat ->
  match (waitLoop fuel first id d sigs).1 with
  | None => forall s, s ∈ sigs -> ~ settles id s
  | Some (Ok row) => terminal (Status row) = true /\
      (JobByID id d = Some row \/ exists d', (SigWoke d' ∈ sigs \/ SigRecheck d' ∈ sigs) /\ JobByID id d' = Some row)
  | Some (Err ErrCancelRequested) => SigCancelled ∈ sigs
  | Some (Err ErrJobNotFound) => JobByID id d = None \/ exists d', (SigWoke d' ∈ sigs \/ SigRecheck d' ∈ sigs) /\ JobByID id d' = None
  | Some (Err _) => SigCtxDone ∈ sigs
  end.
Proof.
  revert first d sigs. induction fuel as [|fuel IH]; intros first d sigs Hlen; [lia|]. cbn [waitLoop].
  destruct (JobByID id d) as [row|] eqn:Hd; [|by left].
  destruct (terminal (Status row)) eqn:Ht; [by split; [|left]|]. cbv zeta. pose proof (idle_spec sigs) as Hi.
  destruct (idle sigs) as [[[[d'|err] rest]|] ms]; simpl in Hi.
  - destruct Hi as (before & -> & Hne & Hd' & Hall). rewrite length_app in Hlen.
    assert (length before <> 0)%nat by (by destruct before). specialize (IH false d' rest ltac:(lia)).
    destruct (waitLoop fuel false id d' rest) as [[[row'|err]|] ms'] eqn:E; cbn [fst] in *.
    + destruct IH as [? [Hr|(d2 & Hin & Hr)]]; (split; [done|right]).
      * exists d'. rewrite !elem_of_app. tauto.
      * exists d2. rewrite !elem_of_app. tauto.
    + destruct err; rewrite ?elem_of_app; try (by right).
      destruct IH as [Hr|(d2 & Hin & Hr)]; right; [exists d'|exists d2]; rewrite !elem_of_app; tauto.
    + intros s [Hs|Hs]%elem_of_app; [|by apply IH]. destruct fuel as [|fuel]; [lia|]. cbn [waitLoop] in E.
      destruct (JobByID id d') as [r|] eqn:Hr; [|done]. destruct (terminal (Status r)) eqn:Htr; [done|].
      destruct (Hall s Hs) as [[m ->]|[->| ->]]; simpl; rewrite ?Hr, ?Htr; auto.
  - by destruct Hi as [[-> ?]|[-> ?]].
  - intros s Hs. destruct (Hi s Hs) as [m ->]. auto.
Qed.

(** ** Properties *)

(** C1. However the engine's goroutines interleave and whatever the driver fails,
    a runner that is still working holds its lock in the tables under the
    engine's own lease, its renewal has never been refused, and no two runners
    are at work under one lock key. *)
Theorem runners_exclusive (d : DB) (own : string) (c : Config) (e : Engine) :
  jobs_ok d -> rtc estep (New d own c) e ->
  (forall id w, workers e !! id = Some w ->
     leaseLost w = false /\ LockHolder (sLockKey (wSpec w)) (db e) = Some id) /\
  (forall id1 w1 id2 w2, workers e !! id1 = Some w1 -> workers e !! id2 = Some w2 ->
     sLockKey (wSpec w1) = sLockKey (wSpec w2) -> id1 = id2).
Proof.
  intros Hd Hsteps. pose proof (esteps_ok _ _ Hsteps (New_ok d own c Hd)) as [Hj _ Hw].
  assert (forall id w, workers e !! id = Some w ->
     leaseLost w = false /\ LockHolder (sLockKey (wSpec w)) (db e) = Some id) as Hhold.
  { intros id w Hid. destruct (Hw _ _ Hid) as (Hl & _ & j & Hrow & Hs & _ & Hk). split; [done|].
    rewrite <- Hk. unfold LockHolder. by destruct (ok_lock _ Hj _ _ Hrow Hs) as [t ->]. }
  split; [done|]. intros id1 w1 id2 w2 H1 H2 Hk. destruct (Hhold _ _ H1) as [_ E1]. destruct (Hhold _ _ H2) as [_ E2].
  rewrite Hk, E2 in E1. by injection E1.
Qed.

Definition aConfig : Config := mkConfig 30 1 4096 None 0.
Definition aSpec (k : Kind) (key : string) : Spec :=
  mkSpec k key [] None "" (Some "{}") "" "" false None None.

Example runners_exclusive_witness :
  let e := (Submit (New noDB "p:b" aConfig) (aSpec KindStart "instance:i") "j1" "a1" 5 []).2 in
  is_Some (workers e !! "j1") /\
  (forall id w, workers e !! id = Some w ->
     leaseLost w = false /\ LockHolder (sLockKey (wSpec w)) (db e) = Some id).
Proof.
  split; [eexists; vm_compute; reflexivity|].
  refine (proj1 (runners_exclusive noDB "p:b" aConfig _ _ _)); [by apply empty_jobs_ok|].
  apply rtc_once, ESubmit, tret_frame.
Defined.

(** Shutdown leaves an interrupted job to recovery: once the engine is
    stopped, a runner that returns writes nothing and announces nothing, and
    the row of every runner still at work is among the stale jobs a daemon
    with another owner sees. *)
Theorem stopped_engine_leaves_jobs (d : DB) (own own' : string) (c : Config) (e : Engine)
    (jobID : string) (o : Outcome) (now : Z) (fs : faults) :
  jobs_ok d -> rtc estep (New d own c) e -> stopped e = true -> own' <> owner e ->
  db (runEnd e jobID o now fs) = db e /\ trace (runEnd e jobID o now fs) = trace e /\
  workers (runEnd e jobID o now fs) !! jobID = None /\
  (forall id w, workers e !! id = Some w -> exists j, j ∈ StaleJobs own' (db (runEnd e jobID o now fs)) /\ ID j = id).
Proof.
  intros Hd Hsteps Hstop Hne. pose proof (esteps_ok _ _ Hsteps (New_ok d own c Hd)) as He.
  assert (db (runEnd e jobID o now fs) = db e) as Hdb.
  { unfold runEnd. destruct (workers e !! jobID), (handles e !! jobID); try done. by rewrite Hstop. }
  split_and!; [done| | |].
  - unfold runEnd. destruct (workers e !! jobID), (handles e !! jobID); try done. by rewrite Hstop.
  - unfold runEnd. destruct (workers e !! jobID) as [w|] eqn:Hw; [|done].
    destruct (eo_worker _ He _ _ Hw) as (_ & [h ->] & _). rewrite Hstop. simpl. apply lookup_delete_eq.
  - intros id w Hid. rewrite Hdb. by eapply worker_row_running.
Qed.

Example stopped_engine_leaves_jobs_witness :
  let e := stop (Submit (New noDB "p:b" aConfig) (aSpec KindStart "instance:i") "j1" "a1" 5 []).2 in
  let e' := runEnd e "j1" (mkOutcome StatusSucceeded "" "" None None false) 9 [] in
  workers e' !! "j1" = None /\ exists j, j ∈ StaleJobs "p:next" (db e') /\ ID j = "j1".
Proof.
  set (e := stop _). cbv zeta.
  destruct (stopped_engine_leaves_jobs noDB "p:b" "p:next" aConfig e "j1"
    (mkOutcome StatusSucceeded "" "" None None false) 9 []) as (_ & _ & Hgone & Hstale).
  - by apply empty_jobs_ok.
  - eapply rtc_l; [apply (ESubmit _ (aSpec KindStart "instance:i") "j1" "a1" 5 []), tret_frame|].
    apply rtc_once, EStop.
  - done.
  - by vm_compute.
  - split; [exact Hgone|]. apply (Hstale "j1" (mkWorker (aSpec KindStart "instance:i") false)). by vm_compute.
Defined.

(** Cancelling is a request that respects the kind's points of no return.  A
    queued row is cancelled on the spot; a running row keeps running and is
    only flagged, and only where its kind registered a policy that allows it
    at the row's checkpoint; every refusal leaves the tables alone. *)
Theorem Cancel_spec (e : Engine) (jobID : string) (now : Z) (fs : faults) :
  engine_ok e ->
  match Cancel e jobID now fs with
  | (Ok _, e') =>
      exists j j', runs (db e) !! jobID = Some j /\ runs (db e') !! jobID = Some j' /\
        ((Status j = StatusQueued /\ Status j' = StatusCancelled) \/
         (Status j = StatusRunning /\ core j' = core j /\ is_Some (CancelRequestedAt j') /\
          (exists p ph, policies e !! mkKind (JKind j) = Some p /\ p (default "" (Checkpoint j)) = (true, ph)) /\
          (forall h, handles e' !! jobID = Some h -> cancelWake h = true)))
  | (Err _, e') => db e' = db e /\ trace e' = trace e
  end.
Proof.
  intros He. unfold Cancel. destruct (JobByID jobID (db e)) as [j|] eqn:Hj; [|done]. unfold JobByID in Hj.
  case_bool_decide as Hq; [|case_bool_decide as Hr; [|done]].
  - destruct (CancelQueuedJob jobID now (db e, fs)) as [r [d fs']] eqn:E. unfold CancelQueuedJob in E.
    destruct (tbind _ _ _) as [[[]|err] s1] eqn:Et; simpl in E; [|destruct s1; by injection E as <- <- <-..].
    injection E as <- E. subst s1. exists j. simpl.
    apply tbind_Ok in Et as (? & sa & H1 & Et). apply point_Ok in H1.
    apply tbind_Ok in Et as (n & sb & H2 & Et). destruct n; [|by injection Et].
    apply updateRun_Ok in H2 as [(j0 & Hj0 & _ & _ & Hb)|([=] & _)]. simpl in Et.
    apply tbind_Ok in Et as (? & sc & H3 & Et). apply stmt_Ok in H3 as [H3 _]. injection H3 as _ H3.
    apply tbind_Ok in Et as (? & sd & H4 & Et). injection Et as Et. apply point_Ok in H4.
    rewrite Et in H4. simpl in H4. rewrite H1 in Hj0. simpl in Hj0. rewrite Hj in Hj0. injection Hj0 as <-.
    exists (setCancelled now j). split_and!; [done| |by left].
    rewrite H4, <- H3, Hb. simpl. apply lookup_insert_eq.
  - destruct (policies e !! mkKind (JKind j)) as [p|] eqn:Hp; [|done].
    destruct (p (default "" (Checkpoint j))) as [[] ph] eqn:Hpc; simpl; [|done].
    destruct (RequestJobCancel jobID now (db e, fs)) as [[u|err] [d fs']] eqn:E; simpl.
    + unfold RequestJobCancel in E. apply tbind_Ok in E as (n & s1 & H1 & E). injection E as _ ->.
      assert (forall h, alter (fun h0 => mkHandle (hProgress h0) (hMessage h0) (lastWriteAt h0) (lastWriteP h0)
        (lastWriteM h0) (hLog h0) true) jobID (handles e) !! jobID = Some h -> cancelWake h = true) as Hwake.
      { intros h. rewrite lookup_alter_eq. intros (h0 & _ & ->)%fmap_Some. done. }
      apply updateRun_Ok in H1 as [(j0 & Hj0 & _ & _ & Hb)|(_ & Hb & Hn)]; simpl in *; subst d.
      * rewrite Hj in Hj0. injection Hj0 as <-. exists j, (setCancelRequested now j).
        split_and!; [done|simpl; apply lookup_insert_eq|]. right. split_and!; try done; by exists p, ph.
      * destruct Hn as [Hn|(j0 & Hj0 & Hc)]; [by rewrite Hj in Hn|]. rewrite Hj in Hj0. injection Hj0 as <-.
        apply bool_decide_eq_false in Hc. exists j, j. split_and!; [done..|]. right.
        split_and!; try done; [by apply not_eq_None_Some|by exists p, ph].
    + unfold RequestJobCancel, tbind in E. destruct (updateRun _ _ _ _) as [[b|er] s1] eqn:Eu; [done|].
      injection E as <- ->. unfold updateRun in Eu. apply stmt_Err in Eu as [Eu _]. by simpl in Eu; subst d.
Qed.

Example Cancel_spec_witness :
  let e := RegisterCancelPolicy KindProvision (fun c => (bool_decide (c = ""), "container_created"))
    (Submit (New noDB "p:b" aConfig) (aSpec KindProvision "instance:i") "j1" "a1" 5 []).2 in
  match Cancel e "j1" 7 [] with
  | (Ok _, e') => exists j j', runs (db e) !! "j1" = Some j /\ runs (db e') !! "j1" = Some j' /\
        ((Status j = StatusQueued /\ Status j' = StatusCancelled) \/
         (Status j = StatusRunning /\ core j' = core j /\ is_Some (CancelRequestedAt j') /\
          (exists p ph, policies e !! mkKind (JKind j) = Some p /\ p (default "" (Checkpoint j)) = (true, ph)) /\
          (forall h, handles e' !! "j1" = Some h -> cancelWake h = true)))
  | (Err _, e') => db e' = db e /\ trace e' = trace e
  end.
Proof.
  apply Cancel_spec. apply (esteps_ok (New noDB "p:b" aConfig)); [|by apply New_ok, empty_jobs_ok].
  eapply rtc_l; [apply (ESubmit _ (aSpec KindProvision "instance:i") "j1" "a1" 5 []), tret_frame|].
  apply rtc_once, EPolicy.
Defined.

(** A job's persisted log never exceeds its cap, marker included; while
    everything logged fits it is every line in order, and otherwise what is
    kept is the most recent lines. *)
Theorem cappedLog_bounded (c : Z) (ls : list bytes) :
  (0 <= c)%Z ->
  let b := fold_left Append ls (newCappedLog c) in
  (zlen (LogString b) <= c)%Z /\
  (exists gone, ls = gone ++ lines b) /\
  ((lineCost ls <= c)%Z -> LogString b = concat (map (fun l => l ++ [newline]) ls)).
Proof.
  intros Hc b. destruct (Appends_ok c ls) as [Hcap Hsize (gone & Hall & Ht & Hfit)]. fold b in Hcap, Hsize, Hall, Ht.
  split_and!; [|by exists gone|].
  - unfold LogString. rewrite Hcap. destruct (lines b); [done|]. cbv zeta. set (out := _ ++ _).
    destruct (c <? zlen out)%Z eqn:E; [|by apply Z.ltb_ge in E]. apply Z.ltb_lt in E.
    unfold zlen in *. rewrite length_drop. lia.
  - intros Hle. specialize (Hfit Hle). subst gone. simpl in Hall. rewrite Hall. unfold LogString.
    assert (truncated b = false) as -> by by apply Ht. rewrite Hcap. rewrite Hall in Hle.
    destruct (lines b) as [|l r]; [done|]. cbv zeta. cbn [app].
    rewrite concat_lines_length. by rewrite (proj2 (Z.ltb_ge _ _) Hle).
Qed.

Example cappedLog_bounded_witness :
  let b := fold_left Append [L "one"; L "two"; L "three"] (newCappedLog 12) in
  truncated b = true /\ (zlen (LogString b) <= 12)%Z.
Proof. split; [done|]. apply (cappedLog_bounded 12 [L "one"; L "two"; L "three"]). lia. Defined.

(** A wait for a job returns a row only once it is terminal, reports a cancel
    only if one was requested, and does answer: it is still waiting only if
    nothing that arrived settles it. *)
Theorem wait_spec (id : string) (d : DB) (sigs : list Signal) :
  match (wait id d sigs).1 with
  | None => forall s, s ∈ sigs -> ~ settles id s
  | Some (Ok row) => terminal (Status row) = true /\
      (JobByID id d = Some row \/ exists d', (SigWoke d' ∈ sigs \/ SigRecheck d' ∈ sigs) /\ JobByID id d' = Some row)
  | Some (Err ErrCancelRequested) => SigCancelled ∈ sigs
  | Some (Err ErrJobNotFound) => JobByID id d = None \/ exists d', (SigWoke d' ∈ sigs \/ SigRecheck d' ∈ sigs) /\ JobByID id d' = None
  | Some (Err _) => SigCtxDone ∈ sigs
  end.
Proof. apply waitLoop_spec. lia. Qed.
