(* ===== verification/Supervisor.v ===== *)
(** internal/instance/control/supervisor.go: the boot-time sweep of dead jobs
    and the observer's reconciliation pass, over the engine and the tables.

    The submissions a re-run makes (provision, delete) are an interface, as
    the code holds them in other types; console streams and staging files are
    outside the model. *)
From S2P Require Import Prelude Kinds Lifecycle Sql Store Engine.

Record Container := mkContainer {
  cID : string; cRunning : bool; cOOMKilled : bool; cRestartCount : Z;
  cStartedAt : option Z    (* [None] is the zero time *)
}.

(** What the supervisor does outside the tables. *)
Inductive SupAct :=
| PublishState (instanceID : string) (state : State) (restartRequired pendingRestart : bool)
| RecordIncident (instanceID reason : string)
| NotifyUnexpectedStop (instanceID : string) (to : State) (reason : string)
| RuntimeStop (containerID : string).

Record Supervisor := mkSup {
  eng : Engine; crash : CrashLoop; owedStops : gmap string string; stopping : gset string;
  notifier : bool; acts : list SupAct
}.

Definition withEng (e : Engine) (s : Supervisor) : Supervisor :=
  mkSup e (crash s) (owedStops s) (stopping s) (notifier s) (acts s).
Definition withCrash (c : CrashLoop) (s : Supervisor) : Supervisor :=
  mkSup (eng s) c (owedStops s) (stopping s) (notifier s) (acts s).
Definition withOwed (f : gmap string string -> gmap string string) (s : Supervisor) : Supervisor :=
  mkSup (eng s) (crash s) (f (owedStops s)) (stopping s) (notifier s) (acts s).
Definition withStopping (f : gset string -> gset string) (s : Supervisor) : Supervisor :=
  mkSup (eng s) (crash s) (owedStops s) (f (stopping s)) (notifier s) (acts s).
Definition did (l : list SupAct) (s : Supervisor) : Supervisor :=
  mkSup (eng s) (crash s) (owedStops s) (stopping s) (notifier s) (acts s ++ l).

(** One statement of the supervisor's own, from a fault stream. *)
Definition exec {A} (m : Tx A) (s : Supervisor) (fs : faults) : result TxErr A * Supervisor * faults :=
  let '(r, (d, fs')) := m (db (eng s), fs) in (r, withEng (withDB d (eng s)) s, fs').

(** ** Collaborators *)

Class SupEnv := {
  (* Logs.CheckReady *)
  CheckReady : string -> result unit bool;
  (* Provisioner.Submit of the row's stored run with the payload of the
     interrupted job, after its passwords are decrypted; [None] is an error *)
  submitProvision : Engine -> string -> string -> option Engine;
  (* json.Unmarshal of a delete payload's keep_worlds *)
  decodeKeepWorlds : string -> option bool;
  (* Deleter.Submit *)
  submitDelete : Engine -> string -> bool -> option Engine;
  (* the decode and decrypt steps before a resumed provision is submitted *)
  provisionReadable : string -> string -> bool
}.

(** What the submissions promise: only the named instance's row may change,
    and its state along a legal edge. *)
Definition moved (d d' : DB) (id : string) : Prop :=
  (forall j, j <> id -> instances d' !! j = instances d !! j) /\
  (forall i, instances d !! id = Some i -> exists i', instances d' !! id = Some i' /\
     (iState i' = iState i \/ step (iState i) (iState i'))).

Class SupEnvLaws `{SupEnv} := {
  submitProvision_moved e id payload e' : submitProvision e id payload = Some e' -> moved (db e) (db e') id;
  submitDelete_moved e id keep e' : submitDelete e id keep = Some e' -> moved (db e) (db e') id
}.

Section Supervisor.
Context `{SupEnv}.

(** ** The observer *)

Definition wasUp (state : State) : bool :=
  bool_decide (state = StateRunning) || bool_decide (state = StateStarting).

Definition reportDown (id : string) (to : State) (reason : string) (s : Supervisor) : Supervisor :=
  let s := did [RecordIncident id reason] s in
  if notifier s then did [NotifyUnexpectedStop id to reason] s else s.

Definition notifyIfDown (id : string) (inst : Inst) (to : State) (reason : string) (s : Supervisor) : Supervisor :=
  if negb (wasUp (iState inst)) || wasUp to then s else reportDown id to reason s.

Definition restartedOutside : string :=
  "it restarted outside the panel, after a host reboot, a Docker restart or a crash Docker recovered it from".

Definition noticeRestart (id : string) (inst : Inst) (c : option Container) (report : bool)
    (s : Supervisor) (fs : faults) : Supervisor * faults :=
  match c with
  | Some (mkContainer _ true _ _ (Some startedAt)) =>
      let prev := iContainerStartedAt inst in
      if bool_decide (prev = Some startedAt) then (s, fs)
      else
        let '(r, s, fs) := exec (SetContainerStartedAt id startedAt) s fs in
        match r with
        | Err _ => (s, fs)
        | Ok _ =>
            if bool_decide (prev = None) || negb report || negb (bool_decide (iState inst = StateRunning)) then (s, fs)
            else if JobRanAt id startedAt (db (eng s)) then (s, fs)
            else (reportDown id (iState inst) restartedOutside s, fs)
        end
  | _ => (s, fs)
  end.

Definition stillOwed (containerID : string) (reality : Reality) (verdict : Verdict) (s : Supervisor)
    : Supervisor * Verdict :=
  if bool_decide (containerID = "") then (s, verdict)
  else match owedStops s !! containerID with
       | None => (s, verdict)
       | Some reason =>
           if negb (Found reality) || negb (Running reality) then
             (withOwed (delete containerID) s,
              mkVerdict StateError reason false (Recheck verdict) (Rerun verdict))
           else if bool_decide (To verdict = "") then
             (s, mkVerdict StateError reason true (Recheck verdict) (Rerun verdict))
           else (s, mkVerdict (To verdict) (Reason verdict) true (Recheck verdict) (Rerun verdict))
       end.

(** [stopInBackground]: one stop in flight per container; [stopDone] is the
    end of that goroutine, whether the stop worked or not. *)
Definition stopInBackground (containerID : string) (s : Supervisor) : Supervisor :=
  if bool_decide (containerID ∈ stopping s) then s
  else did [RuntimeStop containerID] (withStopping (fun st => {[containerID]} ∪ st) s).
Definition stopDone (containerID : string) (s : Supervisor) : Supervisor :=
  withStopping (fun st => st ∖ {[containerID]}) s.

(** [park]: whether the caller may go on to write the state. *)
Definition park (containerID : string) (verdict : Verdict) (s : Supervisor) : Supervisor * bool :=
  if negb (Stop verdict) || bool_decide (containerID = "") then (s, true)
  else (stopInBackground containerID (withOwed <[containerID := Reason verdict]> s), false).

Definition recheckReadiness (containerID : string) : State :=
  match CheckReady containerID with
  | Err _ => StateError
  | Ok _ => StateRunning
  end.

Definition resumeProvision (s : Supervisor) (id : string) (last : option Job) : option Engine :=
  match last with
  | None => None
  | Some last =>
      if negb (bool_decide (JKind last = kindName KindProvision)) || bool_decide (Checkpoint last = None) then None
      else if negb (provisionReadable id (Payload last)) then None
      else submitProvision (eng s) id (Payload last)
  end.

(** Worlds are kept unless the interrupted delete's payload says otherwise. *)
Definition keepWorldsOf (last : option Job) : bool :=
  match last with
  | Some last =>
      if bool_decide (JKind last = kindName KindDelete) then default true (decodeKeepWorlds (Payload last)) else true
  | None => true
  end.

Definition resumeDelete (s : Supervisor) (id : string) (last : option Job) : option Engine :=
  submitDelete (eng s) id (keepWorldsOf last).

Definition rerun (s : Supervisor) (id : string) (kind : Kind) : option Engine :=
  let last := LastJobForInstance id (db (eng s)) in
  if bool_decide (kind = KindProvision) then
    match last with
    | Some l => if bool_decide (JKind l = kindName KindClone) then None else resumeProvision s id last
    | None => resumeProvision s id last
    end
  else if bool_decide (kind = KindDelete) then resumeDelete s id last
  else None.

Definition realityOf (c : option Container) (looping : bool) : Reality :=
  match c with
  | None => noReality
  | Some c => mkReality true (cRunning c) (cOOMKilled c) (cRestartCount c) looping
  end.

(** The write at the end of [reconcileOne]. *)
Definition writeVerdict (id : string) (inst : Inst) (to : State) (verdict : Verdict) (now : Z)
    (s : Supervisor) (fs : faults) : Supervisor * faults :=
  let '(r, (_, (d, fs'))) := SetState id (iState inst) to (now, (db (eng s), fs)) in
  let s := withEng (withDB d (eng s)) s in
  match r with
  | Err _ => (s, fs')
  | Ok false => (s, fs')
  | Ok true =>
      let s := did [PublishState id to (iRestartRequired inst) (iPendingRestart inst)] s in
      (notifyIfDown id inst to (Reason verdict) s, fs')
  end.

Definition reconcileOne (id : string) (inst : Inst) (c : option Container) (now : Z)
    (s : Supervisor) (fs : faults) : Supervisor * faults :=
  let '(crash', looping) := match c with
                            | None => (crash s, false)
                            | Some c => Looping (crash s) (cID c) (cRestartCount c) now
                            end in
  let containerID := match c with None => "" | Some c => cID c end in
  let reality := realityOf c looping in
  let s := withCrash crash' s in
  let '(s, fs) := match c with
                  | Some c => if bool_decide (iContainerID inst = Some (cID c)) then (s, fs)
                              else let '(_, s, fs) := exec (SetInstanceContainerID now id (cID c)) s fs in (s, fs)
                  | None => (s, fs)
                  end in
  let '(s, verdict) := stillOwed containerID reality (Observe (iState inst) reality) s in
  let '(s, fs) := noticeRestart id inst c (bool_decide (verdict = noVerdict)) s fs in
  if bool_decide (verdict = noVerdict) then (s, fs)
  else
    let resubmitted := if bool_decide (Rerun verdict = noKind) then None else rerun s id (Rerun verdict) in
    match resubmitted with
    | Some e => (withEng e s, fs)
    | None =>
        if negb (bool_decide (Rerun verdict = noKind)) && bool_decide (To verdict = "") then (s, fs)
        else
          let to := if Recheck verdict then recheckReadiness containerID else To verdict in
          let '(s, go) := park containerID verdict s in
          if go then writeVerdict id inst to verdict now s fs else (s, fs)
    end.

(** [Reconcile], less the console streams: locked instances are skipped on the
    locks read at the start of the pass. *)
Definition ReconcilePass (rows : list (string * Inst)) (containers : gmap string Container) (now : Z)
    (s : Supervisor) (fs : faults) : Supervisor * faults :=
  let held := HeldLockKeys (db (eng s)) in
  fold_left (fun '(s, fs) '(id, inst) =>
    if bool_decide (InstanceLockKey id ∈ held) then (s, fs)
    else reconcileOne id inst (containers !! id) now s fs) rows (s, fs).

End Supervisor.

(** ** The boot sweep *)

Definition interruptedCode : string := "interrupted".
Definition interruptedMessage : string := "The panel stopped while this job was running.".

(** The submission of [UpdateChecker.Submit]. *)
Definition updateCheckSpec (scheduleID : string) : Spec :=
  mkSpec KindUpdateCheck (GlobalLockKey KindUpdateCheck) [] None "" (Some "{}") "" scheduleID false None None.

Definition resumeOwed (j : Job) : option string :=
  match ByName (JKind j) with
  | Some kind => if ResumeAfter j && ResumeIntentHonoured kind then InstanceID j else None
  | None => None
  end.

(** One stale row: closed as interrupted; an update check is resubmitted.  A
    write that fails ends the sweep with its error. *)
Definition sweepJob (newID : string -> string) (now : Z) (j : Job) (e : Engine) (fs : faults)
    : result EngineErr Engine * faults :=
  match FinishJob (ID j) StatusFailed (Store.Progress j) (Some interruptedCode) (Some interruptedMessage)
          (Log j) (Clean j) now None (db e, fs) with
  | (Err err, (_, fs')) => (Err (ErrStore err), fs')
  | (Ok _, (d, fs')) =>
      let e := withDB d e in
      if bool_decide (ByName (JKind j) = Some KindUpdateCheck) && bool_decide (InstanceID j = None) then
        match Submit e (updateCheckSpec (default "" (ScheduleID j))) (newID (ID j)) "" now fs' with
        | (Err err, _) => (Err err, [])
        | (Ok _, e) => (Ok e, [])
        end
      else (Ok e, fs')
  end.

Fixpoint sweepJobs (newID : string -> string) (now : Z) (stale : list Job) (e : Engine) (fs : faults)
    : result EngineErr (Engine * list string) :=
  match stale with
  | [] => Ok (e, [])
  | j :: stale =>
      match sweepJob newID now j e fs with
      | (Err err, _) => Err err
      | (Ok e, fs) =>
          let? (e, resume) := sweepJobs newID now stale e fs in
          Ok (e, match resumeOwed j with Some id => id :: resume | None => resume end)
      end
  end.

Definition Sweep (newID : string -> string) (now : Z) (e : Engine) (fs : faults) : result EngineErr (Engine * list string) :=
  sweepJobs newID now (StaleJobs (owner e) (db e)) e fs.

(** ** Lemmas: what a pass may change of the instances *)

Definition kept (d d' : DB) : Prop :=
  forall j, match instances d !! j with
            | None => instances d' !! j = None
            | Some i => exists i', instances d' !! j = Some i' /\ iState i' = iState i
            end.

Definition only (d d' : DB) (id : string) : Prop := forall j, j <> id -> instances d' !! j = instances d !! j.

Lemma kept_refl d : kept d d.
Proof. intros j. destruct (instances d !! j) as [i|]; [by exists i|done]. Qed.

Lemma kept_trans d1 d2 d3 : kept d1 d2 -> kept d2 d3 -> kept d1 d3.
Proof.
  intros H1 H2 j. specialize (H1 j). destruct (instances d1 !! j) as [i|].
  - destruct H1 as (i1 & Hi1 & <-). specialize (H2 j). rewrite Hi1 in H2. destruct H2 as (i2 & ? & <-). by exists i2.
  - specialize (H2 j). by rewrite H1 in H2.
Qed.

Lemma kept_moved d1 d2 d3 id : kept d1 d2 -> only d1 d2 id -> moved d2 d3 id -> moved d1 d3 id.
Proof.
  intros Hk Ho [Hm1 Hm2]. split.
  - intros j Hj. rewrite Hm1 by done. by apply Ho.
  - intros i Hi. specialize (Hk id). rewrite Hi in Hk. destruct Hk as (i2 & Hi2 & Hs).
    destruct (Hm2 _ Hi2) as (i3 & ? & Hst). exists i3. split; [done|]. by rewrite Hs in Hst.
Qed.

Lemma moved_of_kept d d' id : kept d d' -> only d d' id -> moved d d' id.
Proof. intros Hk Ho. apply (kept_moved d d' d' id Hk Ho). split; [done|]. intros i Hi. exists i. auto. Qed.

Lemma updateInstance_kept id f d fs :
  (forall i, iState (f i) = iState i) ->
  kept d (updateInstance id f (d, fs)).2.1 /\ only d (updateInstance id f (d, fs)).2.1 id.
Proof.
  intros Hf. destruct (updateInstance id f (d, fs)) as [[u|e] s'] eqn:E; unfold updateInstance in E.
  - apply stmt_Ok in E as [E _]. injection E as _ E. simpl in E. cbn [snd]. rewrite <- E. unfold kept, only. simpl.
    destruct (instances d !! id) as [i|] eqn:Hi.
    + split.
      * intros j. destruct (decide (j = id)) as [->|Hne].
        -- rewrite Hi. exists (f i). by rewrite lookup_insert_eq.
        -- rewrite lookup_insert_ne by done. apply kept_refl.
      * intros j Hj. by rewrite lookup_insert_ne.
    + split; [apply kept_refl|done].
  - apply stmt_Err in E as [E _]. simpl in E |- *. rewrite E. split; [apply kept_refl|done].
Qed.

Lemma exec_db {A} (m : Tx A) s fs r s' fs' :
  exec m s fs = (r, s', fs') -> s' = withEng (withDB (m (db (eng s), fs)).2.1 (eng s)) s.
Proof. unfold exec. destruct (m (db (eng s), fs)) as [r0 [d fs0]]. by intros [= _ <- _]. Qed.

Section moves.
Context `{SupEnvLaws}.

Lemma reportDown_eng id to reason s : eng (reportDown id to reason s) = eng s.
Proof. unfold reportDown. by destruct (notifier _). Qed.

Lemma noticeRestart_kept id inst c report s fs :
  let s' := (noticeRestart id inst c report s fs).1 in
  kept (db (eng s)) (db (eng s')) /\ only (db (eng s)) (db (eng s')) id /\
  owedStops s' = owedStops s /\ stopping s' = stopping s.
Proof.
  unfold noticeRestart. destruct c as [[ci [] oom n [st|]]|]; try (split_and!; [apply kept_refl|done..]).
  case_bool_decide; [split_and!; [apply kept_refl|done..]|].
  destruct (exec _ _ _) as [[r s1] fs1] eqn:E. apply exec_db in E.
  destruct (updateInstance_kept id (fun i => mkInst (iName i) (iState i) (iContainerID i) (iGameBuildID i)
    (iRestartRequired i) (iPendingRestart i) (Some st) (iUpdatedAt i)) (db (eng s)) fs) as [Hk Ho]; [done|].
  assert (forall s2, eng s2 = eng s1 -> owedStops s2 = owedStops s1 -> stopping s2 = stopping s1 ->
    kept (db (eng s)) (db (eng s2)) /\ only (db (eng s)) (db (eng s2)) id /\
    owedStops s2 = owedStops s /\ stopping s2 = stopping s) as Hall.
  { intros s2 -> -> ->. rewrite E. simpl. done. }
  destruct r; [|by apply Hall]. destruct (_ || _); [by apply Hall|]. destruct (JobRanAt _ _ _); [by apply Hall|].
  apply Hall; unfold reportDown; by destruct (notifier _).
Qed.

Lemma stillOwed_eng cid r v s : eng (stillOwed cid r v s).1 = eng s /\ stopping (stillOwed cid r v s).1 = stopping s.
Proof. unfold stillOwed. repeat case_match; done. Qed.

Lemma rerun_moved s id k e : rerun s id k = Some e -> moved (db (eng s)) (db e) id.
Proof.
  unfold rerun, resumeProvision, resumeDelete. intros Hr.
  repeat case_match; try done; eauto using submitProvision_moved, submitDelete_moved.
Qed.

Lemma park_eng cid v s : eng (park cid v s).1 = eng s.
Proof. unfold park, stopInBackground. by repeat case_match. Qed.

Lemma notifyIfDown_eng id inst to reason s : eng (notifyIfDown id inst to reason s) = eng s.
Proof. unfold notifyIfDown. case_match; [done|]. apply reportDown_eng. Qed.

Lemma setState_moved id from to now d fs :
  moved d (SetState id from to (now, (d, fs))).2.2.1 id.
Proof.
  unfold SetState. destruct (ValidateTransition from to) eqn:Hv; [|by split; [|intros i Hi; exists i; auto]].
  unfold UpdateInstanceState, TxS_writer. cbn [fst snd].
  destruct (TxUpdateInstanceState now id from to (d, fs)) as [[b|e] s'] eqn:E; unfold TxUpdateInstanceState in E;
    destruct s' as [d' fs'].
  - apply casInstance_Ok in E as [(i & Hi & Hst & _ & -> & Hs)|(-> & Hs & _)]; simpl in *; subst d'.
    + split; simpl; [intros j Hj; by rewrite lookup_insert_ne|]. intros i' Hi'. rewrite Hi in Hi'. injection Hi' as <-.
      exists (setState to now i). rewrite lookup_insert_eq. split; [done|]. right. rewrite Hst. simpl.
      unfold ValidateTransition in Hv. unfold step. by destruct (Valid from to).
    + split; [done|]. intros i Hi. exists i. auto.
  - apply casInstance_Err in E. simpl in E. subst d'. destruct e; simpl; (split; [done|]; intros i Hi; exists i; auto).
Qed.

Lemma writeVerdict_eng id inst to v now s fs :
  db (eng (writeVerdict id inst to v now s fs).1) = (SetState id (iState inst) to (now, (db (eng s), fs))).2.2.1.
Proof.
  unfold writeVerdict. destruct (SetState _ _ _ _) as [[[]|e] [t [d fs']]]; simpl; [|done..].
  rewrite notifyIfDown_eng. done.
Qed.

Lemma reconcileOne_moved id inst c now s fs :
  moved (db (eng s)) (db (eng (reconcileOne id inst c now s fs).1)) id.
Proof.
  unfold reconcileOne. destruct (match c with Some c0 => Looping _ _ _ _ | None => _ end) as [cr looping].
  set (s0 := withCrash cr s). change (db (eng s)) with (db (eng s0)).
  match goal with |- context [let '(_, _) := ?x in _] => destruct x as [s1 fs1] eqn:E1 end.
  assert (kept (db (eng s0)) (db (eng s1)) /\ only (db (eng s0)) (db (eng s1)) id) as [Hk1 Ho1].
  { destruct c as [c|]; [|injection E1 as <- <-; split; [apply kept_refl|done]].
    case_bool_decide; [injection E1 as <- <-; split; [apply kept_refl|done]|].
    destruct (exec _ _ _) as [[r s2] fs2] eqn:E. injection E1 as <- <-. apply exec_db in E as ->. simpl.
    by apply updateInstance_kept. }
  match goal with |- context [stillOwed ?a ?b ?v s1] => pose proof (stillOwed_eng a b v s1) as [Hs _]; destruct (stillOwed a b v s1) as [s2 verdict] end.
  simpl in Hs. rewrite <- Hs in Hk1, Ho1. clear Hs E1.
  match goal with |- context [noticeRestart ?a ?b ?x ?r s2 fs1] =>
    pose proof (noticeRestart_kept a b x r s2 fs1) as (Hk2 & Ho2 & _); destruct (noticeRestart a b x r s2 fs1) as [s3 fs3] end.
  simpl in Hk2, Ho2.
  assert (kept (db (eng s0)) (db (eng s3))) as Hk by (by apply (kept_trans _ (db (eng s2)))).
  assert (only (db (eng s0)) (db (eng s3)) id) as Ho by (intros j Hj; rewrite Ho2, Ho1; done).
  case_bool_decide; [by apply moved_of_kept|].
  destruct (if bool_decide (Rerun verdict = noKind) then None else rerun s3 id (Rerun verdict)) as [e|] eqn:Er.
  { apply (kept_moved _ (db (eng s3))); [done..|]. case_bool_decide; [done|]. by apply rerun_moved in Er. }
  destruct (_ && _); [by apply moved_of_kept|]. cbv zeta. pose proof (park_eng (match c with Some c0 => cID c0 | None => "" end) verdict s3) as Hp.
  destruct (park _ verdict s3) as [s4 []]; simpl in Hp; cbn [fst].
  - rewrite writeVerdict_eng, Hp. apply (kept_moved _ (db (eng s3))); [done..|]. apply setState_moved.
  - rewrite Hp. by apply moved_of_kept.
Qed.

End moves.

(** A pass over distinct rows moves each row at most once. *)
Lemma pass_moved `{SupEnvLaws} (held : gset string) rows (containers : gmap string Container) now s fs :
  NoDup rows.*1 ->
  let s' := (fold_left (fun '(s, fs) '(id, inst) =>
    if bool_decide (InstanceLockKey id ∈ held) then (s, fs)
    else reconcileOne id inst (containers !! id) now s fs) rows (s, fs) : Supervisor * faults).1 in
  (forall j, j ∉ rows.*1 \/ InstanceLockKey j ∈ held -> instances (db (eng s')) !! j = instances (db (eng s)) !! j) /\
  (forall j i, instances (db (eng s)) !! j = Some i -> exists i', instances (db (eng s')) !! j = Some i' /\
     (iState i' = iState i \/ step (iState i) (iState i'))).
Proof.
  revert s fs. induction rows as [|[id inst] rows IH]; intros s fs Hnd.
  { split; [done|]. intros j i Hi. exists i. auto. }
  rewrite fmap_cons in Hnd. apply NoDup_cons in Hnd as [Hid Hnd]. simpl in Hid. cbn [fold_left].
  case_bool_decide as Hheld.
  - destruct (IH s fs Hnd) as [H1 H2]. split; [|exact H2]. intros j Hj. apply H1.
    rewrite fmap_cons, not_elem_of_cons in Hj. tauto.
  - destruct (reconcileOne id inst (containers !! id) now s fs) as [s1 fs1] eqn:E.
    pose proof (reconcileOne_moved id inst (containers !! id) now s fs) as [Ho Hm]. rewrite E in Ho, Hm. simpl in Ho, Hm.
    destruct (IH s1 fs1 Hnd) as [H1 H2]. split.
    + intros j Hj. rewrite fmap_cons, not_elem_of_cons in Hj. simpl in Hj.
      assert (j <> id) by (destruct Hj as [[? _]|?]; [done|by intros ->]).
      rewrite H1 by tauto. by apply Ho.
    + intros j i Hi. destruct (decide (j = id)) as [->|Hne].
      * destruct (Hm i Hi) as (i' & Hi' & Hst). exists i'. rewrite H1 by auto. done.
      * apply H2. by rewrite Ho.
Qed.

(** A supervisor with nothing to submit to, for the witnesses. *)
Definition idleEnv : SupEnv := {|
  CheckReady _ := Ok true; submitProvision _ _ _ := None; decodeKeepWorlds _ := None;
  submitDelete _ _ _ := None; provisionReadable _ _ := false |}.
#[export] Instance idleEnv_laws : @SupEnvLaws idleEnv.
Proof. by split. Qed.

Definition anInst (st : State) : Inst := mkInst "midgard" st (Some "c1") None false false None 0.
Definition aDB (st : State) : DB := mkDB ∅ ∅ {[ "i1" := anInst st ]} ∅ ∅ ∅.
Definition aSup (d : DB) : Supervisor := mkSup (New d "p:b" aConfig) NewCrashLoop ∅ ∅ true [].

Lemma Observe_no_rerun st r : st ∈ [StateRunning; StateStopped; StateStarting; StateStopping] ->
  Rerun (Observe st r) = noKind.
Proof.
  destruct r as [f ru o n c]. revert st. apply Forall_forall.
  repeat (apply Forall_cons; split); try apply Forall_nil; by destruct f, ru, o, c.
Qed.

Lemma Observe_recheck_up st r : up r = false -> Recheck (Observe st r) = false.
Proof.
  intros Hu. destruct (decide (st ∈ states)) as [Hs|Hs]; [|by rewrite Observe_unknown].
  revert st Hs. destruct r as [f ru o n c].
  refine (states_ind (fun st => Recheck (Observe st _) = false) _).
  repeat (apply Forall_cons; split); try apply Forall_nil; by destruct f, ru, o, c.
Qed.

Lemma stillOwed_rerun cid r v s : Rerun (stillOwed cid r v s).2 = Rerun v.
Proof. unfold stillOwed. by repeat case_match. Qed.

Lemma exec_nil {A} (f : DB -> result TxErr (A * DB)) s r s' fs' : exec (stmt f) s [] = (r, s', fs') -> fs' = [].
Proof. unfold exec. simpl. by destruct (f (db (eng s))) as [[? ?]|]; intros [= _ _ <-]. Qed.

(** The repointing of a stale container id, without faults. *)
Lemma repoint_kept id inst c now s : exists s1,
  (if bool_decide (iContainerID inst = Some (cID c)) then (s, [] : faults)
   else let '(_, s1, fs1) := exec (SetInstanceContainerID now id (cID c)) s [] in (s1, fs1)) = (s1, []) /\
  kept (db (eng s)) (db (eng s1)) /\ owedStops s1 = owedStops s /\ stopping s1 = stopping s.
Proof.
  case_bool_decide; [exists s; split_and!; [done|apply kept_refl|done..]|].
  destruct (exec _ _ _) as [[r s2] fs2] eqn:E. pose proof (exec_nil _ _ _ _ _ E) as ->.
  apply exec_db in E as ->. eexists. split; [done|]. split_and!; [|done..].
  cbn [eng withEng db withDB]. by apply updateInstance_kept.
Qed.

Lemma stopInBackground_in cid s :
  cid ∈ stopping (stopInBackground cid s) /\ owedStops (stopInBackground cid s) = owedStops s /\
  eng (stopInBackground cid s) = eng s.
Proof. unfold stopInBackground. case_bool_decide; [done|]. simpl. split; [set_solver|done]. Qed.

Lemma kept_state d d' id : kept d d' -> iState <$> instances d' !! id = iState <$> instances d !! id.
Proof.
  intros Hk. specialize (Hk id). destruct (instances d !! id) as [i|]; [|by rewrite Hk].
  destruct Hk as (i' & -> & Hs). simpl. by rewrite Hs.
Qed.

Lemma noticeRestart_nil id inst c report s : (noticeRestart id inst c report s []).2 = [].
Proof.
  unfold noticeRestart. destruct c as [[ci [] oom n [st|]]|]; try done. case_bool_decide; [done|].
  destruct (exec _ _ _) as [[r s1] fs1] eqn:E. apply exec_nil in E as ->. repeat case_match; done.
Qed.

Lemma writeVerdict_owed id inst to v now s fs : owedStops (writeVerdict id inst to v now s fs).1 = owedStops s.
Proof.
  unfold writeVerdict. destruct (SetState _ _ _ _) as [[[]|e] [t [d fs']]]; simpl; [|done..].
  unfold notifyIfDown, reportDown. repeat case_match; done.
Qed.

Lemma error_reachable st : st ∈ [StateRunning; StateStopped; StateStarting; StateStopping] -> Valid st StateError = true.
Proof. revert st. apply Forall_forall. repeat (apply Forall_cons; split); try apply Forall_nil; by vm_compute. Qed.

Lemma SetState_run id from to now d :
  Valid from to = true -> iState <$> instances d !! id = Some from ->
  iState <$> instances (SetState id from to (now, (d, []))).2.2.1 !! id = Some to.
Proof.
  intros Hv (i & Hi & Hs)%fmap_Some. unfold SetState, ValidateTransition. rewrite Hv. cbn [negb].
  unfold UpdateInstanceState, TxS_writer. cbn [fst snd]. unfold TxUpdateInstanceState, casInstance.
  rewrite stmt_run, Hi, <- Hs, bool_decide_eq_true_2 by done.
  rewrite bool_decide_eq_true_2 by (by apply Valid_states in Hv as [_ ?]).
  cbn -[withInstances setState]. simpl. by rewrite lookup_insert_eq.
Qed.

(** *** The sweep *)

Lemma Submit_rows e spec jobID auditID now fs j e' :
  hookFrame (sOnClaim spec) -> jobs_ok (db e) ->
  Submit e spec jobID auditID now fs = (Ok j, e') ->
  owner e' = owner e /\ jobs_ok (db e') /\
  forall id r, runs (db e') !! id = Some r ->
    (exists r0, runs (db e) !! id = Some r0 /\ core r0 = core r) \/ LeaseOwner r = Some (owner e).
Proof.
  intros Hh Hj. unfold Submit. destruct (checkDiskRoom _ _); [|done]. destruct (sPayload spec) as [payload|]; [|done].
  destruct (draining e); [done|]. cbv zeta. pose proof (claimHook_frame spec jobID auditID now Hh) as Hcf.
  pose proof (jstep_ok _ _ (JClaim (submittedJob spec jobID payload) (sLockKeys spec) (owner e)
    (now + LeaseTTL (cfg e)) now (claimHook spec jobID auditID now) (db e, fs) Hcf) Hj) as Hj'.
  destruct (ClaimJobWithLocks _ _ _ _ _ _ (db e, fs)) as [[j'|err] [d fs']] eqn:E; [|by destruct err].
  intros [= _ <-]. simpl in Hj'. apply Claim_rows in E as (_ & _ & Hrow & Hrest); [|done]. simpl in Hrow, Hrest.
  set (e1 := withWorkers _ _). destruct (announced_same (sInstanceID spec) e1) as (E1 & E2 & _).
  cbn [owner db withHandles]. rewrite E1, E2. split_and!; [done|done|]. intros id r. simpl. intros Hr.
  destruct (decide (id = jobID)) as [->|Hne].
  - right. rewrite Hrow in Hr. by injection Hr as <-.
  - left. specialize (Hrest id Hne). rewrite Hr in Hrest. symmetry in Hrest.
    apply fmap_Some in Hrest as (r0 & ? & ?). by exists r0.
Qed.

(** What is left to sweep: the running rows of other owners are in the list. *)
Definition toSweep (own : string) (stale : list Job) (e : Engine) : Prop :=
  jobs_ok (db e) /\ owner e = own /\
  forall id r, runs (db e) !! id = Some r -> Status r = StatusRunning ->
    LeaseOwner r = Some own \/ id ∈ ID <$> stale.

Lemma sweepJob_toSweep newID now own j stale e e' fs fs' :
  toSweep own (j :: stale) e -> sweepJob newID now j e fs = (Ok e', fs') -> toSweep own stale e'.
Proof.
  intros (Hj & Ho & Hrun). unfold sweepJob.
  pose proof (jstep_ok _ _ (JFinish (ID j) StatusFailed (Store.Progress j) (Some interruptedCode)
    (Some interruptedMessage) (Log j) (Clean j) now None (db e, fs) eq_refl (tret_frame tt)) Hj) as Hj'.
  destruct (FinishJob _ _ _ _ _ _ _ _ _ _) as [[u|err] [d fs1]] eqn:E; [|done]. simpl in Hj'.
  assert (toSweep own stale (withDB d e)) as Ht.
  { split_and!; [done|done|]. intros id r Hr Hs. simpl in Hr.
    pose proof (Finish_rows _ _ _ _ _ _ _ _ _ _ _ _ id (tret_frame tt : JobFrame (default (tret tt) None)) E) as Hrest.
    pose proof (Finish_status _ _ _ _ _ _ _ _ _ _ _ _ (tret_frame tt : JobFrame (default (tret tt) None)) E r) as Hst.
    destruct (decide (id = ID j)) as [->|Hne]; [by rewrite (Hst Hr) in Hs|].
    specialize (Hrest Hne). simpl in Hrest. rewrite Hr in Hrest. symmetry in Hrest.
    apply fmap_Some in Hrest as (r0 & Hr0 & Hc). apply core_eq in Hc as (_ & Hs0 & _ & Hl0).
    rewrite Hs0 in Hs. rewrite Hl0. destruct (Hrun id r0 Hr0 Hs) as [?|Hin]; [by left|right].
    rewrite fmap_cons, elem_of_cons in Hin. tauto. }
  case_match; [|by intros [= <- _]].
  destruct (Submit _ _ _ _ _ _) as [[j'|err] e2] eqn:Es; [|done]. intros [= <- _].
  destruct Ht as (Hj2 & Ho2 & Hrun2).
  destruct (Submit_rows _ _ _ _ _ _ _ _ (tret_frame tt : hookFrame (sOnClaim (updateCheckSpec _))) Hj2 Es) as (Ho3 & Hj3 & Hrows).
  split_and!; [done|by rewrite Ho3|]. intros id r Hr Hs.
  destruct (Hrows id r Hr) as [(r0 & Hr0 & Hc)|Hl]; [|left; by rewrite Hl, <- Ho2].
  apply core_eq in Hc as (_ & Hs0 & _ & Hl0). rewrite <- Hl0. apply (Hrun2 id r0); [done|]. by rewrite Hs0.
Qed.

Lemma sweepJobs_toSweep newID now own stale e fs e' resume :
  toSweep own stale e -> sweepJobs newID now stale e fs = Ok (e', resume) ->
  toSweep own [] e' /\ resume = omap resumeOwed stale.
Proof.
  revert e fs resume. induction stale as [|j stale IH]; intros e fs resume Ht; simpl.
  - by intros [= <- <-].
  - destruct (sweepJob newID now j e fs) as [[e1|err] fs1] eqn:E; [|done].
    apply sweepJob_toSweep with (own := own) (stale := stale) in E; [|done].
    destruct (sweepJobs newID now stale e1 fs1) as [[e2 rs]|] eqn:Er; [|done]. simpl.
    intros [= <- <-]. destruct (IH _ _ _ E Er) as [? ->]. split; [done|]. by destruct (resumeOwed j).
Qed.

(** Without faults a finish outside a hook succeeds. *)
Lemma Finish_run jobID p code msg log clean at_ d :
  (FinishJob jobID StatusFailed p code msg log clean at_ None (d, [])).1 = Ok tt /\
  (FinishJob jobID StatusFailed p code msg log clean at_ None (d, [])).2.2 = [].
Proof.
  unfold FinishJob. change (statusChecked StatusFailed) with true. cbv iota.
  unfold inTx, tbind, point, updateRun, releaseLocks, stmt. cbn [fst snd tail].
  destruct (runs d !! jobID) as [j|]; split; reflexivity.
Qed.

Lemma sweepJobs_Ok newID now stale e :
  (forall j, j ∈ stale -> JKind j <> kindName KindUpdateCheck) ->
  exists e' resume, sweepJobs newID now stale e [] = Ok (e', resume).
Proof.
  revert e. induction stale as [|j stale IH]; intros e Hn; [by eexists _, _|]. cbn [sweepJobs]. unfold sweepJob.
  destruct (Finish_run (ID j) (Store.Progress j) (Some interruptedCode) (Some interruptedMessage) (Log j) (Clean j) now (db e)) as [H1 H2].
  destruct (FinishJob _ _ _ _ _ _ _ _ _ _) as [[u|err] [d fs1]]; [|done]. simpl in H2. subst fs1.
  rewrite (bool_decide_eq_false_2 (ByName (JKind j) = _)).
  2: { intros [_ Hk]%ByName_Some. by apply (Hn j (list_elem_of_here _ _)). }
  cbn [andb]. destruct (IH (withDB d e)) as (e' & resume & ->); [|by eexists _, _].
  intros j' Hj'. apply Hn. by right.
Qed.

(** ** Properties *)

(** C27. The boot sweep closes every dead job.  When it answers, no row of another
    daemon is running any more, so every lock still held is held by this
    daemon's own work, and the restarts it owes are exactly those of the
    stale jobs that recorded a resume intent of a kind that honours one; with
    no driver fault and no interrupted update check to resubmit it always
    answers. *)
Theorem Sweep_closes_dead_jobs (newID : string -> string) (now : Z) (e : Engine) (fs : faults) :
  jobs_ok (db e) ->
  (forall e' resume, Sweep newID now e fs = Ok (e', resume) ->
     jobs_ok (db e') /\
     (forall id j, runs (db e') !! id = Some j -> Status j = StatusRunning -> LeaseOwner j = Some (owner e)) /\
     (forall id, id ∈ resume <-> exists j, j ∈ StaleJobs (owner e) (db e) /\ resumeOwed j = Some id)) /\
  (fs = [] -> (forall j, j ∈ StaleJobs (owner e) (db e) -> JKind j <> kindName KindUpdateCheck) ->
     exists e' resume, Sweep newID now e fs = Ok (e', resume)).
Proof.
  intros Hj. split.
  - intros e' resume HS. unfold Sweep in HS.
    apply (sweepJobs_toSweep _ _ (owner e)) in HS as [(Hj' & _ & Hrun) ->].
    + split_and!; [done| |].
      * intros id j Hid Hs. destruct (Hrun id j Hid Hs) as [?|Hin]; [done|by apply not_elem_of_nil in Hin].
      * intros id. rewrite list_elem_of_omap. naive_solver.
    + split_and!; [done|done|]. intros id r Hr Hs.
      destruct (decide (LeaseOwner r = Some (owner e))) as [|Hne]; [by left|right].
      apply list_elem_of_fmap. exists r. pose proof (ok_id _ Hj _ _ Hr) as <-. split; [done|].
      unfold StaleJobs. rewrite merge_sort_Permutation, list_elem_of_filter, elem_of_rows by done. done.
  - intros -> Hn. unfold Sweep. by apply sweepJobs_Ok.
Qed.

Example Sweep_closes_dead_jobs_witness :
  let old := (Submit (New noDB "p:old" aConfig) (aSpec KindBackup "instance:i") "j1" "a1" 5 []).2 in
  let e := New (db old) "p:new" aConfig in
  (exists e' resume, Sweep (fun id => id) 9 e [] = Ok (e', resume)) /\
  LockHolder "instance:i" (db e) = Some "j1".
Proof.
  set (old := (Submit _ _ _ _ _ _).2). cbv zeta. split; [|by vm_compute].
  refine (proj2 (Sweep_closes_dead_jobs (fun id => id) 9 (New (db old) "p:new" aConfig) [] _) eq_refl _).
  - apply (eo_jobs old), (estep_ok (New noDB "p:old" aConfig)).
    + apply (ESubmit _ (aSpec KindBackup "instance:i") "j1" "a1" 5 []), tret_frame.
    + by apply New_ok, empty_jobs_ok.
  - intros j Hj. assert (StaleJobs "p:new" (db old) = [claimedRow (submittedJob (aSpec KindBackup "instance:i") "j1" "{}") "p:old" 35 5]) as Hs
      by (vm_compute; reflexivity).
    change (j ∈ StaleJobs "p:new" (db old)) in Hj. rewrite Hs in Hj. apply list_elem_of_singleton in Hj as ->. done.
Defined.

(** One observer pass, whatever Docker says, whatever its re-runs submit and
    whatever the driver fails, never writes the row of an instance whose lock
    was held when it began, and moves every other row along at most one legal
    lifecycle edge. *)
Theorem ReconcilePass_legal `{SupEnvLaws} (rows : list (string * Inst)) (containers : gmap string Container)
    (now : Z) (s : Supervisor) (fs : faults) :
  NoDup rows.*1 ->
  let s' := (ReconcilePass rows containers now s fs).1 in
  (forall j, InstanceLockKey j ∈ HeldLockKeys (db (eng s)) ->
     instances (db (eng s')) !! j = instances (db (eng s)) !! j) /\
  (forall j i, instances (db (eng s)) !! j = Some i -> exists i', instances (db (eng s')) !! j = Some i' /\
     (iState i' = iState i \/ step (iState i) (iState i'))).
Proof.
  intros Hnd. destruct (pass_moved (HeldLockKeys (db (eng s))) rows containers now s fs Hnd) as [H1 H2].
  split; [|exact H2]. intros j Hj. apply H1. by right.
Qed.

Example ReconcilePass_legal_witness :
  let s := aSup (aDB StateRunning) in
  let s' := (@ReconcilePass idleEnv [("i1", anInst StateRunning)] ∅ 7 s []).1 in
  iState <$> instances (db (eng s')) !! "i1" = Some StateError /\
  exists i', instances (db (eng s')) !! "i1" = Some i' /\ (iState i' = StateRunning \/ step StateRunning (iState i')).
Proof.
  split; [vm_compute; reflexivity|].
  refine (proj2 (ReconcilePass_legal (H0 := idleEnv_laws) [("i1", anInst StateRunning)] ∅ 7
    (aSup (aDB StateRunning)) [] _) "i1" (anInst StateRunning) _).
  - apply NoDup_singleton.
  - vm_compute. reflexivity.
Defined.

(** A protective stop is never forgotten: once one is owed for a container, a
    pass that finds it running leaves it owed, has a stop in flight for it and
    does not write the row; the pass that finds it down clears the debt and,
    if nothing moved the row meanwhile, parks it in [error] with the reason
    that owed the stop. *)
Theorem owed_stop_kept `{SupEnvLaws} (id : string) (inst : Inst) (c : Container) (reason : string) (now : Z)
    (s : Supervisor) :
  owedStops s !! cID c = Some reason -> cID c <> "" -> reason <> "" ->
  iState inst ∈ [StateRunning; StateStopped; StateStarting; StateStopping] ->
  let s' := (reconcileOne id inst (Some c) now s []).1 in
  (cRunning c = true ->
     is_Some (owedStops s' !! cID c) /\ cID c ∈ stopping s' /\
     iState <$> instances (db (eng s')) !! id = iState <$> instances (db (eng s)) !! id) /\
  (cRunning c = false ->
     owedStops s' !! cID c = None /\
     (iState <$> instances (db (eng s)) !! id = Some (iState inst) ->
      iState <$> instances (db (eng s')) !! id = Some StateError)).
Proof.
  intros Howed Hc Hre Hst s'.
  assert (forall r, Rerun (Observe (iState inst) r) = noKind /\ (up r = false -> Recheck (Observe (iState inst) r) = false)) as Hobs.
  { intros r. split; [by apply Observe_no_rerun|]. by apply Observe_recheck_up. }
  destruct (Looping (crash s) (cID c) (cRestartCount c) now) as [cr looping] eqn:EL.
  destruct (repoint_kept id inst c now (withCrash cr s)) as (s1 & E1 & Hk1 & Ho1 & Hp1).
  pose (r := realityOf (Some c) looping). destruct (Hobs r) as [Hrr Hrc].
  assert (s' = (let '(s2, verdict) := stillOwed (cID c) r (Observe (iState inst) r) s1 in
    let '(s3, fs3) := noticeRestart id inst (Some c) (bool_decide (verdict = noVerdict)) s2 [] in
    if bool_decide (verdict = noVerdict) then s3 else
    let '(s4, go) := park (cID c) verdict s3 in
    if go then (writeVerdict id inst (if Recheck verdict then recheckReadiness (cID c) else To verdict) verdict now s4 fs3).1 else s4)) as ->.
  { subst s'. unfold reconcileOne. rewrite EL. fold r. cbv zeta. rewrite E1. cbv beta iota.
    pose proof (stillOwed_rerun (cID c) r (Observe (iState inst) r) s1) as Hrer.
    destruct (stillOwed _ _ _ s1) as [s2 verdict]. simpl in Hrer. rewrite Hrr in Hrer.
    destruct (noticeRestart _ _ _ _ s2 []) as [s3 fs3]. destruct (bool_decide (verdict = noVerdict)); [done|].
    rewrite Hrer. rewrite bool_decide_eq_true_2 by done. cbn [negb andb].
    by destruct (park _ _ s3) as [s4 []]. }
  unfold stillOwed. rewrite bool_decide_eq_false_2 by done. rewrite Ho1. cbn [owedStops withCrash]. rewrite Howed.
  assert (Found r = true) as Hfo by done. assert (Running r = cRunning c) as Hru by done.
  assert (up r = cRunning c) as Hup by done. clearbody r. rewrite Hfo, Hru. rewrite Hup in Hrc.
  split; intros Hrun; rewrite Hrun in Hrc |- *; cbn [negb orb].
  - set (v := if bool_decide (To _ = "") then _ else _).
    assert (exists verdict, v = (s1, verdict) /\ Stop verdict = true) as (verdict & Hv & Hstop)
      by (unfold v; destruct (bool_decide (To _ = "")); eexists; split; reflexivity).
    rewrite Hv. clear v Hv.
    cbv beta iota.
    pose proof (noticeRestart_kept id inst (Some c) (bool_decide (verdict = noVerdict)) s1 []) as (Hk2 & _ & Ho2 & Hp2).
    destruct (noticeRestart _ _ _ _ s1 []) as [s3 fs3]. cbn [fst] in *.
    rewrite bool_decide_eq_false_2 by (by intros ->).
    unfold park. rewrite Hstop, bool_decide_eq_false_2 by done. cbn [negb orb].
    destruct (stopInBackground_in (cID c) (withOwed <[cID c := Reason verdict]> s3)) as (Hin & Hko & Heng).
    split_and!; [rewrite Hko; simpl; rewrite lookup_insert_eq; by eexists|done|].
    rewrite Heng. cbn [eng withOwed]. apply kept_state, (kept_trans _ _ _ Hk1 Hk2).
  - specialize (Hrc eq_refl).
    set (verdict := mkVerdict StateError reason false _ _). set (s2 := withOwed _ s1).
    pose proof (noticeRestart_kept id inst (Some c) (bool_decide (verdict = noVerdict)) s2 []) as (Hk2 & _ & Ho2 & _).
    pose proof (noticeRestart_nil id inst (Some c) (bool_decide (verdict = noVerdict)) s2) as Hnil.
    destruct (noticeRestart _ _ _ _ s2 []) as [s3 fs3]. cbn [fst snd] in *. subst fs3.
    rewrite bool_decide_eq_false_2 by done. unfold park. cbn [Stop verdict negb orb fst].
    change (Recheck verdict) with (Recheck (Observe (iState inst) r)). rewrite Hrc. split.
    + rewrite writeVerdict_owed, Ho2. apply lookup_delete_eq.
    + intros Hrow. rewrite writeVerdict_eng. apply SetState_run; [by apply error_reachable|].
      rewrite <- Hrow. apply kept_state, (kept_trans _ _ _ Hk1 Hk2).
Qed.

Example owed_stop_kept_witness :
  let s := withOwed <["c1" := "container is restarting repeatedly"]> (aSup (aDB StateRunning)) in
  let c := mkContainer "c1" false false 0 None in
  let s' := (@reconcileOne idleEnv "i1" (anInst StateRunning) (Some c) 7 s []).1 in
  owedStops s' !! "c1" = None /\
  (Some StateRunning = Some StateRunning -> iState <$> instances (db (eng s')) !! "i1" = Some StateError).
Proof.
  set (s := withOwed _ _). cbv zeta.
  refine (proj2 (owed_stop_kept (H0 := idleEnv_laws) "i1" (anInst StateRunning) (mkContainer "c1" false false 0 None)
    "container is restarting repeatedly" 7 s _ _ _ _) eq_refl); try done.
  left.
Defined.
