(* ===== verification/CfgDoc.v ===== *)
(** internal/mods/config: BepInEx .cfg files as documents that keep every byte
    they do not edit (document.go), and what is built on them: diffs (diff.go),
    overlays of pending edits (pending.go), tweaks and merges (tweaks.go) and the
    console switch (console.go). *)
From S2P Require Import Prelude GoBytes.
Open Scope nat_scope.

Section Document.
Context `{UnicodeTables}.

(** ** Documents (document.go) *)

Inductive lineKind := kindOther | kindComment | kindSetting.

#[export] Instance lineKind_eq_dec : EqDecision lineKind.
Proof. solve_decision. Defined.

(** [valStart] and [valEnd] bound the value within [raw]. *)
Record docLine := mkLine {
  raw : bytes; kind : lineKind; section : bytes; key : bytes; valStart : nat; valEnd : nat
}.

Record Document := mkDoc { docLines : list docLine; index : gmap (bytes * bytes) nat }.

Record Setting := mkSetting { sSection : bytes; sKey : bytes; sValue : bytes; Comments : list bytes }.

Inductive SetError := ErrNoSuchSetting | ErrValueSpansLines.

Definition chr (n : N) : ascii := ascii_of_N n.
Definition cr : ascii := chr 13.
Definition tab : ascii := chr 9.
Definition crlf : bytes := [cr; nl].
Definition blank : bytes := [" "%char; tab].
Definition blankEnd : bytes := [" "%char; tab; cr; nl].

(** The first [=] separates; the value is bounded by blanks. *)
Definition splitAssignment (text : bytes) : option (bytes * nat * nat) :=
  match cut "="%char text with
  | None => None
  | Some (before, rest) =>
      let k := trimSpace before in
      if bool_decide (k = []) then None
      else
        let eq := length before in
        let lead := length rest - length (trimLeft blank rest) in
        let trail := Nat.max (length (trimRight blankEnd rest)) lead in
        Some (k, eq + 1 + lead, eq + 1 + trail)
  end.

(** One line under the section in force: the line, and the section after it. *)
Definition parseLine (sec text : bytes) : docLine * bytes :=
  let body := trimSpace (trimRight crlf text) in
  if hasPrefix (L "[") body && hasSuffix (L "]") body then
    (mkLine text kindOther sec [] 0 0, take (length body - 2) (drop 1 body))
  else if hasPrefix (L "#") body then (mkLine text kindComment sec [] 0 0, sec)
  else match splitAssignment text with
       | Some (k, s, e) => (mkLine text kindSetting sec k s e, sec)
       | None => (mkLine text kindOther sec [] 0 0, sec)
       end.

Definition settingKey (ln : docLine) : bytes * bytes := (section ln, toLower (key ln)).

(** Appending a line: the first of two equal keys keeps the index. *)
Definition addLine (doc : Document) (ln : docLine) : Document :=
  mkDoc (docLines doc ++ [ln])
    (if bool_decide (kind ln = kindSetting) && bool_decide (index doc !! settingKey ln = None)
     then <[settingKey ln := length (docLines doc)]> (index doc) else index doc).

Definition Parse (text : bytes) : Document :=
  fst (fold_left (fun '(doc, sec) line => let '(ln, sec') := parseLine sec line in (addLine doc ln, sec'))
         (lines text) (mkDoc [] ∅, [])).

Definition Bytes (d : Document) : bytes := concat (map raw (docLines d)).

Definition value (ln : docLine) : bytes := take (valEnd ln - valStart ln) (drop (valStart ln) (raw ln)).

Definition lineAt (d : Document) (sec k : bytes) : option (nat * docLine) :=
  match index d !! (sec, toLower k) with
  | None => None
  | Some i => match docLines d !! i with Some ln => Some (i, ln) | None => None end
  end.

Definition Get (d : Document) (sec k : bytes) : option bytes := value ∘ snd <$> lineAt d sec k.

Definition setValue (v : bytes) (ln : docLine) : docLine :=
  mkLine (take (valStart ln) (raw ln) ++ v ++ drop (valEnd ln) (raw ln)) (kind ln) (section ln) (key ln)
    (valStart ln) (valStart ln + length v).

Definition Set_ (d : Document) (sec k v : bytes) : result SetError Document :=
  when contains [nl] v fail ErrValueSpansLines then
  match lineAt d sec k with
  | None => Err ErrNoSuchSetting
  | Some (i, ln) => Ok (mkDoc (<[i := setValue v ln]> (docLines d)) (index d))
  end.

(** [commentsAbove]: the run of comments ending just above line [i]. *)
Fixpoint commentRun (above : list docLine) : list bytes :=
  match above with
  | [] => []
  | ln :: above => if bool_decide (kind ln = kindComment)
                   then commentRun above ++ [trimRight crlf (raw ln)] else []
  end.
Definition commentsAbove (d : Document) (i : nat) : list bytes := commentRun (rev (take i (docLines d))).

Definition effective (d : Document) (i : nat) (ln : docLine) : bool :=
  bool_decide (kind ln = kindSetting) && bool_decide (index d !! settingKey ln = Some i).

Definition settingOf (d : Document) (i : nat) (ln : docLine) : Setting :=
  mkSetting (section ln) (key ln) (value ln) (commentsAbove d i).

Definition Settings (d : Document) : list Setting :=
  omap (fun '(i, ln) => if effective d i ln then Some (settingOf d i ln) else None)
    (imap pair (docLines d)).

(** ** Diffs (diff.go) *)

Record Change := mkChange { cKey : bytes; From : option bytes; To : option bytes; Secret : bool }.

Definition secretMarkers : list bytes :=
  map L ["password"; "passwd"; "secret"; "token"; "apikey"; "api_key"; "webhook"; "credential"].

Definition SecretKey (k : bytes) : bool := existsb (fun m => contains m (toLower k)) secretMarkers.

Definition newChange (sec k : bytes) (from to : option bytes) : Change :=
  let name := if bool_decide (sec = []) then k else sec ++ L "." ++ k in
  if SecretKey k then mkChange name None None true else mkChange name from to false.

Definition Diff (before after : bytes) : list Change :=
  let was := Parse before in
  let isNow := Parse after in
  omap (fun s => match Get isNow (sSection s) (sKey s) with
                 | None => Some (newChange (sSection s) (sKey s) (Some (sValue s)) None)
                 | Some now => if bool_decide (now = sValue s) then None
                               else Some (newChange (sSection s) (sKey s) (Some (sValue s)) (Some now))
                 end) (Settings was) ++
  omap (fun s => match Get was (sSection s) (sKey s) with
                 | Some _ => None
                 | None => Some (newChange (sSection s) (sKey s) None (Some (sValue s)))
                 end) (Settings isNow).

(** ** Overlays (pending.go)

    [_ = doc.Set(...)]: an error would leave the document as it is. *)
Definition setOrKeep (d : Document) (sec k v : bytes) : Document :=
  match Set_ d sec k v with Ok d' => d' | Err _ => d end.

Definition overlayOne (d : Document) (s : Setting) : Document :=
  match Get d (sSection s) (sKey s) with
  | Some v => if bool_decide (v = sValue s) then d else setOrKeep d (sSection s) (sKey s) (sValue s)
  | None => d
  end.

Definition overlayDoc (base over : bytes) : Document := fold_left overlayOne (Settings (Parse over)) (Parse base).
Definition Overlay (base over : bytes) : bytes := Bytes (overlayDoc base over).

(** ** Tweaks and merges (tweaks.go) *)

(** [cut] of schema.go: the trimmed rest of a prefixed line. *)
Definition cutMeta (line prefix : bytes) : option bytes := trimSpace <$> cutPrefix prefix line.

Fixpoint declaredDefault (comments : list bytes) : option bytes :=
  match comments with
  | [] => None
  | c :: comments => match cutMeta c (L "# Default value:") with
                     | Some def => Some def
                     | None => declaredDefault comments
                     end
  end.

(** [writeSetting]: what is appended after the section written last. *)
Definition writeSetting (s : Setting) (last : bytes) (first : bool) : bytes :=
  (if (first && negb (bool_decide (sSection s = []))) || (negb first && negb (bool_decide (sSection s = last)))
   then L "[" ++ sSection s ++ L "]" ++ [nl] else []) ++
  sKey s ++ L " = " ++ sValue s ++ [nl].

Record tweakState := mkTweak { tOut : bytes; tLast : bytes; tKept : nat; tSecrets : nat }.

Definition tweakOne (was : Document) (withSecrets : bool) (st : tweakState) (s : Setting) : tweakState :=
  let same := match Get was (sSection s) (sKey s) with
              | Some v => bool_decide (v = sValue s)
              | None => match declaredDefault (Comments s) with
                        | Some def => bool_decide (def = sValue s)
                        | None => false
                        end
              end in
  if same then st
  else if negb withSecrets && SecretKey (sKey s) then mkTweak (tOut st) (tLast st) (tKept st) (S (tSecrets st))
  else mkTweak (tOut st ++ writeSetting s (tLast st) (bool_decide (tKept st = 0))) (sSection s)
         (S (tKept st)) (tSecrets st).

Definition Tweaks (orig current : bytes) (withSecrets : bool) : bytes * nat * nat :=
  let st := fold_left (tweakOne (Parse orig) withSecrets) (Settings (Parse current)) (mkTweak [] [] 0 0) in
  (tOut st, tKept st, tSecrets st).

Record mergeState := mkMerge { mDoc : Document; mHead : bytes; mTail : bytes; mLast : bytes }.

Definition mergeOne (st : mergeState) (s : Setting) : mergeState :=
  match Get (mDoc st) (sSection s) (sKey s) with
  | Some _ => mkMerge (setOrKeep (mDoc st) (sSection s) (sKey s) (sValue s)) (mHead st) (mTail st) (mLast st)
  | None =>
      if bool_decide (sSection s = []) && bool_decide (mTail st = [])
      then mkMerge (mDoc st) (mHead st ++ writeSetting s (mLast st) true) (mTail st) (sSection s)
      else mkMerge (mDoc st) (mHead st)
             (mTail st ++ writeSetting s (mLast st) (bool_decide (mTail st = []))) (sSection s)
  end.

Definition mergeDoc (base over : bytes) : mergeState :=
  fold_left mergeOne (Settings (Parse over)) (mkMerge (Parse base) [] [] []).

Definition Merge (base over : bytes) : bytes :=
  let st := mergeDoc base over in
  let out := Bytes (mDoc st) in
  let out := if negb (bool_decide (mTail st = [])) && negb (bool_decide (out = [])) && negb (hasSuffix [nl] out)
             then out ++ [nl] else out in
  mHead st ++ out ++ mTail st.

(** ** The console switch (console.go) *)

(** [strings.EqualFold] against an ASCII string: simple folding also equates
    the long s with [s] and the Kelvin sign with [k]. *)
Fixpoint foldASCII (s : bytes) : bytes :=
  match s with
  | a :: ((b :: r') as r) =>
      if bool_decide (code a = 197%N) && bool_decide (code b = 191%N) then "s"%char :: foldASCII r'
      else match r' with
           | c :: r'' =>
               if bool_decide (code a = 226%N) && bool_decide (code b = 132%N) && bool_decide (code c = 170%N)
               then "k"%char :: foldASCII r'' else lower_byte a :: foldASCII r
           | [] => lower_byte a :: foldASCII r
           end
  | [a] => [lower_byte a]
  | [] => []
  end.
Definition equalFold (s asciiText : bytes) : bool := bool_decide (foldASCII s = map lower_byte asciiText).

Definition consoleSection : bytes := L "Logging.Console".
Definition consoleKey : bytes := L "Enabled".

Inductive ConsoleError := ErrConsoleKeyMissing | ErrConsoleSet (e : SetError).

(** [enableConsole]: the text, whether it changed, or the error. *)
Definition enableConsole (text : bytes) : result ConsoleError (bytes * bool) :=
  let doc := Parse text in
  match Get doc consoleSection consoleKey with
  | None => Err ErrConsoleKeyMissing
  | Some v =>
      if negb (equalFold v (L "false")) then Ok (text, false)
      else match Set_ doc consoleSection consoleKey (L "true") with
           | Err e => Err (ErrConsoleSet e)
           | Ok doc' => Ok (Bytes doc', true)
           end
  end.

(** The documents a caller can hold: parsed, then edited. *)
Inductive edited : Document -> Prop :=
| edited_parse text : edited (Parse text)
| edited_set d sec k v d' : edited d -> Set_ d sec k v = Ok d' -> edited d'.

(** ** Lemmas: one line *)

Lemma blank_End c : c ∈ blank -> c ∈ blankEnd.
Proof. unfold blank, blankEnd. rewrite !elem_of_cons. tauto. Qed.

(** The shape of an assignment, and the bounds it gives the value. *)
Record shape (text pre lead val tail : bytes) : Prop := {
  sh_text : text = pre ++ "="%char :: lead ++ val ++ tail;
  sh_pre : "="%char ∉ pre;
  sh_key : trimSpace pre <> [];
  sh_lead : Forall (fun c => c ∈ blank) lead;
  sh_tail : Forall (fun c => c ∈ blankEnd) tail;
  sh_head : headNotIn blank (val ++ tail);
  sh_last : lastNotIn blankEnd val
}.

Lemma shape_split text pre lead val tail : shape text pre lead val tail ->
  splitAssignment text = Some (trimSpace pre, length pre + 1 + length lead, length pre + 1 + length lead + length val).
Proof.
  intros [-> Hpre Hkey Hlead Htail Hhead Hlast]. unfold splitAssignment.
  assert (cut "="%char (pre ++ "="%char :: lead ++ val ++ tail) = Some (pre, lead ++ val ++ tail)) as ->
    by by apply cut_Some.
  rewrite bool_decide_eq_false_2 by done.
  rewrite trimLeft_app, (trimLeft_id blank (val ++ tail)) by done.
  rewrite app_assoc, (trimRight_app blankEnd (lead ++ val) tail) by done.
  rewrite !length_app. destruct val as [|c val].
  - assert (trimRight blankEnd (lead ++ []) = []) as ->.
    { rewrite app_nil_r, <- (app_nil_l lead), trimRight_app; [done|]. eapply Forall_impl; [exact Hlead|]. apply blank_End. }
    simpl. f_equal. f_equal; [f_equal|]; lia.
  - rewrite trimRight_id.
    + rewrite length_app. simpl. f_equal. f_equal; [f_equal|]; lia.
    + unfold lastNotIn in *. rewrite rev_app_distr. destruct (rev (c :: val)) eqn:E; [|done].
      apply (f_equal (@length _)) in E. by rewrite length_rev in E.
Qed.

Lemma split_shape text k s e : splitAssignment text = Some (k, s, e) ->
  exists pre lead val tail, shape text pre lead val tail /\ k = trimSpace pre /\
    s = length pre + 1 + length lead /\ e = s + length val.
Proof.
  intros Hs. pose proof Hs as Hs'. unfold splitAssignment in Hs.
  destruct (cut "="%char text) as [[pre rest]|] eqn:Ec; [|done]. apply cut_Some in Ec as [Ht Hpre].
  case_bool_decide as Hk; [done|]. clear Hs.
  destruct (trimLeft_split blank rest) as (lead & Hr & Hlead & Hhead).
  destruct (trimRight_split blankEnd (trimLeft blank rest)) as (tail & Hv & Htail & Hlast).
  exists pre, lead, (trimRight blankEnd (trimLeft blank rest)), tail.
  assert (shape text pre lead (trimRight blankEnd (trimLeft blank rest)) tail) as Hsh.
  { split; try done; [by rewrite Ht, <- Hv, <- Hr|by rewrite <- Hv]. }
  split; [done|]. rewrite (shape_split _ _ _ _ _ Hsh) in Hs'. by injection Hs' as <- <- <-.
Qed.

(** Replacing the value of an assignment by a trimmed, nonempty one. *)
Definition trimmed (v : bytes) : Prop := v <> [] /\ headNotIn blank v /\ lastNotIn blankEnd v /\ nl ∉ v.

Lemma shape_replace text pre lead val tail v : trimmed v -> shape text pre lead val tail ->
  shape (pre ++ "="%char :: lead ++ v ++ tail) pre lead v tail.
Proof. intros (Hne & Hh & Hl & _) [-> Hpre Hkey Hlead Htail Hhead Hlast]. split; try done. by destruct v. Qed.

Lemma shape_body text pre lead val tail c k : shape text pre lead val tail -> trimSpace pre = c :: k ->
  exists k', trimSpace (trimRight crlf text) = c :: k'.
Proof.
  intros [-> _ _ _ _ _ _] Hk.
  destruct (trimRight_keep crlf pre "="%char (lead ++ val ++ tail)) as [b' ->].
  { by apply (bool_decide_unpack _); vm_compute. }
  by eapply trimSpace_head.
Qed.

(** A setting line whose key does not open a bracket parses as a setting,
    whatever its value. *)
Lemma parse_shape sec text pre lead val tail c k :
  shape text pre lead val tail -> trimSpace pre = c :: k -> c <> "["%char -> c <> "#"%char ->
  parseLine sec text =
    (mkLine text kindSetting sec (c :: k) (length pre + 1 + length lead) (length pre + 1 + length lead + length val), sec).
Proof.
  intros Hsh Hk Hb Hc. unfold parseLine. destruct (shape_body _ _ _ _ _ _ _ Hsh Hk) as [k' ->].
  cbn [hasPrefix L String.list_ascii_of_string andb].
  rewrite (proj2 (is_byte_false _ _)), (proj2 (is_byte_false _ _)) by done. cbn [andb].
  by rewrite (shape_split _ _ _ _ _ Hsh), Hk.
Qed.

(** What a setting line is. *)
Lemma parseLine_setting sec text ln sec' : parseLine sec text = (ln, sec') -> kind ln = kindSetting ->
  raw ln = text /\ section ln = sec /\ sec' = sec /\ exists pre lead val tail c k, shape text pre lead val tail /\
    trimSpace pre = c :: k /\ key ln = c :: k /\ c <> "#"%char /\ (c = "["%char -> hasSuffix (L "]") (trimSpace (trimRight crlf text)) = false) /\
    valStart ln = length pre + 1 + length lead /\ valEnd ln = valStart ln + length val /\ value ln = val.
Proof.
  unfold parseLine. intros Hp Hk. destruct (_ && _) eqn:Eb; [by injection Hp as <- _|].
  destruct (hasPrefix (L "#") _) eqn:Eh; [by injection Hp as <- _|].
  destruct (splitAssignment text) as [[[k s] e]|] eqn:Es; [|by injection Hp as <- _]. injection Hp as <- <-.
  split_and!; [done..|]. apply split_shape in Es as (pre & lead & val & tail & Hsh & -> & -> & ->).
  destruct (trimSpace pre) as [|c k] eqn:Ek; [by destruct (sh_key _ _ _ _ _ Hsh)|].
  exists pre, lead, val, tail, c, k. destruct (shape_body _ _ _ _ _ _ _ Hsh Ek) as [k' Hbody].
  rewrite Hbody in *. split_and!; try done.
  - intros ->. by simpl in Eh.
  - intros ->. apply andb_false_iff in Eb as [Eb|Eb]; [by simpl in Eb|done].
  - unfold value. cbn [raw valStart valEnd]. rewrite (sh_text _ _ _ _ _ Hsh).
    rewrite Nat.add_comm, Nat.add_sub.
    replace (length pre + 1 + length lead) with (length (pre ++ "="%char :: lead)) by (rewrite length_app; simpl; lia).
    replace (pre ++ "="%char :: lead ++ val ++ tail) with ((pre ++ "="%char :: lead) ++ val ++ tail) by (by rewrite <- app_assoc).
    by rewrite drop_app_length, take_app_length.
Qed.

(** ** Lemmas: documents *)

Fixpoint scan (sec : bytes) (texts : list bytes) : list docLine :=
  match texts with
  | [] => []
  | text :: texts => let '(ln, sec') := parseLine sec text in ln :: scan sec' texts
  end.

Definition emptyDoc : Document := mkDoc [] ∅.

Lemma Parse_scan text : Parse text = fold_left addLine (scan [] (lines text)) emptyDoc.
Proof.
  unfold Parse. fold emptyDoc. generalize emptyDoc, ([] : bytes). induction (lines text) as [|w ws IH]; intros d sec; [done|].
  simpl. destruct (parseLine sec w) as [ln sec']. simpl. apply IH.
Qed.

Lemma parseLine_raw sec text : raw (parseLine sec text).1 = text.
Proof. unfold parseLine. repeat case_match; done. Qed.

Lemma scan_raw sec texts : map raw (scan sec texts) = texts.
Proof.
  revert sec. induction texts as [|w ws IH]; intros sec; [done|]. simpl.
  pose proof (parseLine_raw sec w). destruct (parseLine sec w) as [ln sec']. simpl in *. by rewrite IH, H0.
Qed.

Lemma addLines_lines ls d : docLines (fold_left addLine ls d) = docLines d ++ ls.
Proof. revert d. induction ls as [|ln ls IH]; intros d; simpl; [by rewrite app_nil_r|]. rewrite IH. simpl. by rewrite <- app_assoc. Qed.

Lemma Parse_lines text : docLines (Parse text) = scan [] (lines text).
Proof. by rewrite Parse_scan, addLines_lines. Qed.

Lemma Bytes_Parse_eq text : Bytes (Parse text) = text.
Proof. unfold Bytes. by rewrite Parse_lines, scan_raw, concat_lines. Qed.

(** The index points at the first line of each key, and the bounds of every
    setting lie within its line. *)
Record doc_ok (d : Document) : Prop := {
  do_index kk i : index d !! kk = Some i ->
    exists ln, docLines d !! i = Some ln /\ kind ln = kindSetting /\ settingKey ln = kk;
  do_first i ln : docLines d !! i = Some ln -> kind ln = kindSetting ->
    exists j, index d !! settingKey ln = Some j /\ j <= i;
  do_bounds i ln : docLines d !! i = Some ln -> kind ln = kindSetting ->
    exists a b, raw ln = a ++ value ln ++ b /\ valStart ln = length a /\ valEnd ln = length a + length (value ln)
}.

Lemma lookup_snoc {A} (l : list A) x i y : (l ++ [x]) !! i = Some y -> l !! i = Some y \/ (i = length l /\ x = y).
Proof.
  intros [Hi|[Hlen Hi]]%lookup_app_Some; [by left|right].
  destruct (i - length l) as [|m] eqn:E; [|by destruct m]. simpl in Hi. split; [lia|by injection Hi].
Qed.

Definition bounded (ln : docLine) : Prop := kind ln = kindSetting ->
  exists a b, raw ln = a ++ value ln ++ b /\ valStart ln = length a /\ valEnd ln = length a + length (value ln).

Lemma addLine_ok d ln : bounded ln -> doc_ok d -> doc_ok (addLine d ln).
Proof.
  intros Hb [Hi Hf Hbd]. split; simpl.
  - intros kk i. destruct (_ && _) eqn:E.
    + apply andb_true_iff in E as [Hk%bool_decide_eq_true Hn%bool_decide_eq_true].
      intros [[<- <-]|[_ Hkk]]%lookup_insert_cases.
      * exists ln. split_and!; [|done..]. by rewrite lookup_app_r, Nat.sub_diag by lia.
      * destruct (Hi _ _ Hkk) as (l & Hl & ?). exists l. split; [|done]. by apply lookup_app_l_Some.
    + intros Hkk. destruct (Hi _ _ Hkk) as (l & Hl & ?). exists l. split; [|done]. by apply lookup_app_l_Some.
  - intros i l [Hl|[-> ->]]%lookup_snoc Hk.
    + destruct (Hf _ _ Hl Hk) as (j & Hj & Hle). exists j. split; [|done].
      destruct (_ && _) eqn:E; [|done]. apply andb_true_iff in E as [_ Hn%bool_decide_eq_true].
      rewrite lookup_insert_ne; [done|]. intros Heq. by rewrite Heq, Hj in Hn.
    + destruct (index d !! settingKey l) as [j|] eqn:Hj.
      * exists j. rewrite (bool_decide_eq_false_2 (_ = None)), andb_false_r by done. split; [done|].
        destruct (Hi _ _ Hj) as (l' & Hl' & _). apply lookup_lt_Some in Hl'. lia.
      * exists (length (docLines d)). rewrite !bool_decide_eq_true_2 by done. simpl. by rewrite lookup_insert_eq.
  - intros i l [Hl|[-> ->]]%lookup_snoc Hk; [by eapply Hbd|by apply Hb].
Qed.

Lemma parseLine_bounded sec text : bounded (parseLine sec text).1.
Proof.
  intros Hk. destruct (parseLine sec text) as [ln sec'] eqn:E. simpl in *.
  destruct (parseLine_setting _ _ _ _ E Hk) as (Hr & _ & _ & pre & lead & val & tail & c & k & Hsh & _ & _ & _ & _ & Hs & He & Hv).
  exists (pre ++ "="%char :: lead), tail. rewrite Hr, Hv, (sh_text _ _ _ _ _ Hsh), He, Hs, <- app_assoc.
  rewrite length_app. simpl. split_and!; [done|lia..].
Qed.

Lemma scan_bounded sec texts : Forall bounded (scan sec texts).
Proof.
  revert sec. induction texts as [|w ws IH]; intros sec; [constructor|]. simpl.
  pose proof (parseLine_bounded sec w). destruct (parseLine sec w). by constructor.
Qed.

Lemma Parse_ok text : doc_ok (Parse text).
Proof.
  rewrite Parse_scan. pose proof (scan_bounded [] (lines text)) as HF.
  assert (doc_ok emptyDoc) as H0 by (split; intros *; by rewrite ?lookup_empty, ?lookup_nil).
  revert H0. generalize emptyDoc. induction HF as [|ln ls Hln _ IH]; intros d Hd; [done|]. by apply IH, addLine_ok.
Qed.

Lemma lineAt_Some d sec k i ln : doc_ok d -> lineAt d sec k = Some (i, ln) <->
  index d !! (sec, toLower k) = Some i /\ docLines d !! i = Some ln.
Proof.
  intros Hd. unfold lineAt. destruct (index d !! (sec, toLower k)) as [j|]; [|naive_solver].
  destruct (docLines d !! j) eqn:E; naive_solver.
Qed.

Lemma lineAt_setting d sec k i ln : doc_ok d -> lineAt d sec k = Some (i, ln) ->
  kind ln = kindSetting /\ settingKey ln = (sec, toLower k).
Proof.
  intros Hd [Hx Hi]%lineAt_Some; [|done]. destruct (do_index _ Hd _ _ Hx) as (ln' & Hl & ? & ?).
  rewrite Hi in Hl. by injection Hl as ->.
Qed.

Lemma contains_nl v : contains [nl] v = true <-> nl ∈ v.
Proof.
  induction v as [|c v IH]; [split; [done|by intros ?%not_elem_of_nil]|]. cbn [contains hasPrefix].
  rewrite orb_true_iff, andb_true_r, is_byte_spec, IH, elem_of_cons. naive_solver.
Qed.

Lemma setValue_value v ln a b : raw ln = a ++ value ln ++ b -> valStart ln = length a ->
  valEnd ln = length a + length (value ln) ->
  raw (setValue v ln) = a ++ v ++ b /\ value (setValue v ln) = v.
Proof.
  intros Hr Hs He. assert (raw (setValue v ln) = a ++ v ++ b) as Hraw.
  { simpl. rewrite Hs, He, Hr, take_app_length. f_equal. f_equal.
    rewrite app_assoc, drop_app_ge by (rewrite length_app; lia). rewrite length_app, Nat.sub_diag. done. }
  split; [done|]. unfold value at 1. rewrite Hraw. cbn [valStart valEnd setValue].
  rewrite Hs, drop_app_length, Nat.add_comm, Nat.add_sub. apply take_app_length.
Qed.

(** What a successful [Set] did. *)
Lemma Set_Ok d sec k v d' : doc_ok d -> Set_ d sec k v = Ok d' ->
  nl ∉ v /\ exists i ln, lineAt d sec k = Some (i, ln) /\ d' = mkDoc (<[i := setValue v ln]> (docLines d)) (index d).
Proof.
  intros Hd. unfold Set_. destruct (contains [nl] v) eqn:E; [done|].
  destruct (lineAt d sec k) as [[i ln]|]; [|done]. intros [= <-]. split; [|by eauto].
  intros Hin. apply contains_nl in Hin. congruence.
Qed.

Lemma Set_run d sec k v i ln : lineAt d sec k = Some (i, ln) -> nl ∉ v ->
  Set_ d sec k v = Ok (mkDoc (<[i := setValue v ln]> (docLines d)) (index d)).
Proof.
  intros Hl Hv. unfold Set_. rewrite Hl. destruct (contains [nl] v) eqn:E; [|done]. by apply contains_nl in E.
Qed.

Lemma insert_line_ok d i ln v : doc_ok d -> docLines d !! i = Some ln -> kind ln = kindSetting ->
  doc_ok (mkDoc (<[i := setValue v ln]> (docLines d)) (index d)).
Proof.
  intros [Hi Hf Hb] Hl Hk. split; simpl.
  - intros kk j Hj. destruct (Hi _ _ Hj) as (l & Hjl & Hkl & Hkk). destruct (decide (i = j)) as [->|].
    + rewrite Hl in Hjl. injection Hjl as <-. exists (setValue v ln). split; [|done].
      apply list_lookup_insert_eq. by eapply lookup_lt_Some.
    + exists l. by rewrite list_lookup_insert_ne.
  - intros j l [(<- & <- & _)|[Hne Hj]]%list_lookup_insert_Some Hkl; [exact (Hf _ _ Hl Hk)|by apply Hf].
  - intros j l [(<- & <- & _)|[Hne Hj]]%list_lookup_insert_Some Hkl; [|by eapply Hb].
    destruct (Hb _ _ Hl Hk) as (a & b & Hr & Hs & He). destruct (setValue_value v ln a b Hr Hs He) as [Hr' Hv'].
    exists a, b. rewrite Hr', Hv'. cbn [valStart valEnd setValue]. by rewrite Hs.
Qed.

Lemma Set_get d sec k v d' : doc_ok d -> Set_ d sec k v = Ok d' ->
  doc_ok d' /\ Get d' sec k = Some v /\
  forall sec' k', (sec', toLower k') <> (sec, toLower k) -> Get d' sec' k' = Get d sec' k'.
Proof.
  intros Hd HS. destruct (Set_Ok _ _ _ _ _ Hd HS) as (_ & i & ln & Hl & ->).
  pose proof (lineAt_setting _ _ _ _ _ Hd Hl) as [Hk Hkey]. apply lineAt_Some in Hl as [Hx Hi]; [|done].
  pose proof (insert_line_ok d i ln v Hd Hi Hk) as Hd'. split; [done|].
  destruct (do_bounds _ Hd _ _ Hi Hk) as (a & b & Hr & Hs & He). split.
  - unfold Get. rewrite (proj2 (lineAt_Some _ _ _ i (setValue v ln) Hd')).
    + simpl. f_equal. by apply (setValue_value v ln a b).
    + split; [done|]. simpl. apply list_lookup_insert_eq. by eapply lookup_lt_Some.
  - intros sec' k' Hne. unfold Get, lineAt. simpl. destruct (index d !! (sec', toLower k')) as [j|] eqn:Hj; [|done].
    destruct (decide (i = j)) as [->|]; [|by rewrite list_lookup_insert_ne].
    destruct (do_index _ Hd _ _ Hj) as (l & Hl & _ & Hlk). rewrite Hi in Hl. injection Hl as <-. congruence.
Qed.

(** ** Lemmas: an edit survives a re-parse *)

Lemma scan_insert sec texts i ln ln' text' :
  scan sec texts !! i = Some ln -> kind ln = kindSetting ->
  parseLine (section ln) text' = (ln', section ln) ->
  scan sec (<[i := text']> texts) = <[i := ln']> (scan sec texts).
Proof.
  revert sec i. induction texts as [|w ws IH]; intros sec i; [done|]. simpl.
  destruct (parseLine sec w) as [l sec'] eqn:E. destruct i as [|i]; simpl.
  - intros [= ->] Hk Hp. destruct (parseLine_setting _ _ _ _ E Hk) as (_ & <- & -> & _). by rewrite Hp.
  - intros Hi Hk Hp. rewrite E. by rewrite (IH sec' i).
Qed.

Lemma scan_lookup sec texts i ln : scan sec texts !! i = Some ln ->
  exists sec0 sec1, parseLine sec0 (raw ln) = (ln, sec1) /\ texts !! i = Some (raw ln).
Proof.
  intros Hi. assert (texts !! i = Some (raw ln)) as Hr.
  { rewrite <- (scan_raw sec texts). by rewrite list_lookup_fmap, Hi. }
  revert sec i Hi Hr. induction texts as [|w ws IH]; intros sec i; [done|]. simpl.
  destruct (parseLine sec w) as [l sec'] eqn:E. destruct i as [|i]; simpl.
  - intros [= <-] [= ->]. eauto.
  - intros Hi Hr. destruct (IH _ _ Hi Hr) as (s0 & s1 & Hp & _). eauto.
Qed.

(** The index depends on the kinds and keys only. *)
Lemma addLines_index ls ls' d d' :
  Forall2 (fun a b => kind a = kind b /\ settingKey a = settingKey b) ls ls' ->
  index d = index d' -> length (docLines d) = length (docLines d') ->
  index (fold_left addLine ls d) = index (fold_left addLine ls' d').
Proof.
  intros HF. revert d d'. induction HF as [|a b ls ls' [Hk Hs] _ IH]; intros d d' Hi Hl; [done|].
  simpl. apply IH; simpl; [|rewrite !length_app; simpl; lia]. by rewrite Hk, Hs, Hi, Hl.
Qed.

Definition parsed (d : Document) : Prop := d = Parse (Bytes d).

Lemma parsed_eq d : parsed d -> docLines d = scan [] (map raw (docLines d)) /\ Lines (map raw (docLines d)).
Proof.
  intros Hd. assert (docLines d = scan [] (lines (Bytes d))) as Hl.
  { etrans; [apply (f_equal docLines Hd)|apply Parse_lines]. }
  assert (map raw (docLines d) = lines (Bytes d)) as Hr by (rewrite Hl at 1; apply scan_raw).
  rewrite Hr. split; [done|]. apply Lines_lines.
Qed.

(** The bytes of a line up to the end of its value hold no line break. *)
Lemma shape_front ws w pre lead val tail : Lines ws -> w ∈ ws -> shape w pre lead val tail ->
  nl ∉ pre ++ "="%char :: lead ++ val.
Proof.
  intros Hws Hw [Ht Hpre Hkey Hlead Htail Hhead Hlast].
  assert (nl ∉ lead) as Hl.
  { intros Hin. rewrite Forall_forall in Hlead. specialize (Hlead _ Hin). revert Hlead.
    unfold blank. rewrite !elem_of_cons. intros [?|[?|?%not_elem_of_nil]]; done. }
  assert (nl ∉ pre) as Hp by (by eapply Lines_front).
  assert (nl ∉ val) as Hv.
  { destruct val as [|x val _] using rev_ind; [apply not_elem_of_nil|].
    unfold lastNotIn in Hlast. rewrite rev_app_distr in Hlast. simpl in Hlast.
    assert (nl ∉ pre ++ "="%char :: lead ++ val) as Hf.
    { eapply (Lines_front _ _ _ x tail); [done..|]. rewrite Ht. rewrite <- !app_assoc. simpl. by rewrite <- !app_assoc. }
    rewrite not_elem_of_app, not_elem_of_cons, not_elem_of_app in Hf.
    rewrite not_elem_of_app, list_elem_of_singleton. split; [tauto|]. intros <-. apply Hlast.
    unfold blankEnd. rewrite !elem_of_cons. tauto. }
  rewrite not_elem_of_app, not_elem_of_cons, not_elem_of_app. split_and!; done.
Qed.

(** Replacing one scanned line by a line of the same kind and key. *)
Lemma Parse_insert d i ln v : parsed d -> docLines d !! i = Some ln -> kind ln = kindSetting ->
  Lines (<[i := raw (setValue v ln)]> (map raw (docLines d))) ->
  parseLine (section ln) (raw (setValue v ln)) = (setValue v ln, section ln) ->
  parsed (mkDoc (<[i := setValue v ln]> (docLines d)) (index d)).
Proof.
  intros Hp Hi Hk HL Hpl. destruct (parsed_eq d Hp) as [Hscan _].
  pose proof Hi as Hi'. rewrite Hscan in Hi'.
  pose proof (scan_insert [] (map raw (docLines d)) i ln _ _ Hi' Hk Hpl) as Hins. rewrite <- Hscan in Hins.
  unfold parsed. unfold Bytes. cbn [docLines].
  assert (map raw (<[i:=setValue v ln]> (docLines d)) = <[i:=raw (setValue v ln)]> (map raw (docLines d))) as ->
    by apply list_fmap_insert.
  rewrite Parse_scan, lines_concat, Hins by exact HL.
  destruct (fold_left addLine _ emptyDoc) as [ls ix] eqn:E. f_equal.
  - pose proof (addLines_lines (<[i:=setValue v ln]> (docLines d)) emptyDoc) as Hl. by rewrite E in Hl.
  - change ix with (index (mkDoc ls ix)). rewrite <- E.
    transitivity (index (fold_left addLine (docLines d) emptyDoc)).
    { rewrite Hscan. rewrite <- (lines_concat (map raw (docLines d))) at 1 by apply (parsed_eq d Hp).
      rewrite <- Parse_scan. exact (f_equal index Hp). }
    apply addLines_index; [|done..]. apply Forall2_same_length_lookup_2; [by rewrite length_insert|].
    intros j a b Ha Hb. apply list_lookup_insert_Some in Hb as [(<- & <- & _)|[Hne Hb]].
    + rewrite Hi in Ha. by injection Ha as <-.
    + rewrite Ha in Hb. by injection Hb as <-.
Qed.

Lemma Set_parsed d sec k v d' :
  parsed d -> trimmed v -> Set_ d sec k v = Ok d' ->
  (forall i ln, lineAt d sec k = Some (i, ln) -> hasPrefix (L "[") (key ln) = false) ->
  parsed d'.
Proof.
  intros Hp Hv HS Hbr. assert (doc_ok d) as Hd by (rewrite Hp; apply Parse_ok).
  destruct (Set_Ok _ _ _ _ _ Hd HS) as (Hnl & i & ln & Hl & ->). specialize (Hbr _ _ Hl).
  pose proof (lineAt_setting _ _ _ _ _ Hd Hl) as [Hk _]. apply lineAt_Some in Hl as [_ Hi]; [|done].
  destruct (parsed_eq d Hp) as [Hscan HL]. pose proof Hi as Hi0. rewrite Hscan in Hi.
  destruct (scan_lookup _ _ _ _ Hi) as (s0 & s1 & Hpl & Hri).
  destruct (parseLine_setting _ _ _ _ Hpl Hk) as (_ & Hsec & _ & pre & lead & val & tail & c & kk & Hsh & Hpre & Hkey & Hh & _ & Hs & He & Hval).
  assert (raw (setValue v ln) = pre ++ "="%char :: lead ++ v ++ tail) as Hraw.
  { destruct (setValue_value v ln (pre ++ "="%char :: lead) tail) as [-> _].
    - by rewrite Hval, <- app_assoc, (sh_text _ _ _ _ _ Hsh).
    - rewrite Hs, length_app. simpl. lia.
    - rewrite He, Hs, Hval, length_app. simpl. lia.
    - by rewrite <- app_assoc. }
  apply Parse_insert; [done..| |].
  - rewrite Hraw.
    replace (pre ++ "="%char :: lead ++ v ++ tail) with ((pre ++ "="%char :: lead ++ v) ++ tail)
      by (by rewrite <- app_assoc; simpl; rewrite <- app_assoc).
    pose proof (shape_front _ _ _ _ _ _ HL (list_elem_of_lookup_2 _ _ _ Hri) Hsh) as Hfr.
    assert (raw ln = (pre ++ "="%char :: lead ++ val) ++ tail) as Hr0
      by (rewrite (sh_text _ _ _ _ _ Hsh), <- app_assoc; simpl; by rewrite <- app_assoc).
    apply (Lines_insert _ _ (pre ++ "="%char :: lead ++ val)); [done|by rewrite Hri, Hr0| |done|by destruct pre|by destruct pre].
    rewrite not_elem_of_app, not_elem_of_cons, not_elem_of_app in *. tauto.
  - rewrite Hraw. rewrite (parse_shape _ _ pre lead v tail c kk); [|by eapply shape_replace|done| |done].
    + unfold setValue at 1. rewrite Hk, Hkey, Hs. f_equal. f_equal. symmetry. rewrite <- Hraw. by rewrite <- Hs.
    + intros ->. by rewrite Hkey in Hbr.
Qed.

(** ** Lemmas: settings and overlays *)

Lemma edited_ok d : edited d -> doc_ok d.
Proof. induction 1 as [text|d sec k v d' _ IH HS]; [apply Parse_ok|by eapply Set_get]. Qed.

(** The bytes an edit touches are exactly the value's. *)
Lemma Set_frame d sec k v d' : doc_ok d -> Set_ d sec k v = Ok d' ->
  exists a old b, Get d sec k = Some old /\ Bytes d = a ++ old ++ b /\ Bytes d' = a ++ v ++ b.
Proof.
  intros Hd HS. destruct (Set_Ok _ _ _ _ _ Hd HS) as (_ & i & ln & Hl & ->).
  pose proof (lineAt_setting _ _ _ _ _ Hd Hl) as [Hk _]. pose proof Hl as Hg.
  apply lineAt_Some in Hl as [_ Hi]; [|done]. destruct (do_bounds _ Hd _ _ Hi Hk) as (a & b & Hr & Hs & He).
  destruct (setValue_value v ln a b Hr Hs He) as [Hr' _].
  exists (concat (map raw (take i (docLines d))) ++ a), (value ln), (b ++ concat (map raw (drop (S i) (docLines d)))).
  split; [by unfold Get; rewrite Hg|]. unfold Bytes. cbn [docLines].
  rewrite insert_take_drop by (by eapply lookup_lt_Some).
  rewrite <- (take_drop_middle (docLines d) i ln Hi) at 1.
  rewrite !map_app, !concat_app. cbn [map concat]. rewrite Hr, Hr'. by rewrite <- !app_assoc.
Qed.

Lemma Settings_elem d s : s ∈ Settings d <->
  exists i ln, docLines d !! i = Some ln /\ effective d i ln = true /\ s = settingOf d i ln.
Proof.
  unfold Settings. rewrite list_elem_of_omap. split.
  - intros ([i ln] & Hin & Hs). apply elem_of_lookup_imap in Hin as (j & l & [= -> ->] & Hj).
    destruct (effective d j l) eqn:E; [|done]. exists j, l. by injection Hs as <-.
  - intros (i & ln & Hi & He & ->). exists (i, ln). rewrite He. split; [|done].
    apply elem_of_lookup_imap. eauto.
Qed.

Lemma effective_spec d i ln : effective d i ln = true <-> kind ln = kindSetting /\ index d !! settingKey ln = Some i.
Proof. unfold effective. by rewrite andb_true_iff, !bool_decide_eq_true. Qed.

Definition keyOf (s : Setting) : bytes * bytes := (sSection s, toLower (sKey s)).

Lemma Settings_get d s : doc_ok d -> s ∈ Settings d -> Get d (sSection s) (sKey s) = Some (sValue s).
Proof.
  intros Hd (i & ln & Hi & [Hk Hx]%effective_spec & ->)%Settings_elem. unfold Get.
  by rewrite (proj2 (lineAt_Some d _ _ i ln Hd)).
Qed.

Lemma get_Settings d sec k v : doc_ok d -> Get d sec k = Some v ->
  exists s, s ∈ Settings d /\ keyOf s = (sec, toLower k) /\ sValue s = v.
Proof.
  intros Hd. unfold Get. destruct (lineAt d sec k) as [[i ln]|] eqn:Hl; [|done]. simpl. intros [= <-].
  destruct (lineAt_setting _ _ _ _ _ Hd Hl) as [Hk Hkk]. apply lineAt_Some in Hl as [Hx Hi]; [|done].
  exists (settingOf d i ln). split_and!; [|done..]. apply Settings_elem. exists i, ln. split_and!; [done| |done].
  apply effective_spec. by rewrite Hkk.
Qed.

Lemma Get_key d s sec k : keyOf s = (sec, toLower k) -> Get d (sSection s) (sKey s) = Get d sec k.
Proof. unfold keyOf, Get, lineAt. by intros [= -> ->]. Qed.

(** A value of a parsed text holds no line break. *)
Lemma Parse_value_nl text sec k v : Get (Parse text) sec k = Some v -> nl ∉ v.
Proof.
  unfold Get. destruct (lineAt _ sec k) as [[i ln]|] eqn:Hl; [|done]. simpl. intros [= <-].
  destruct (lineAt_setting _ _ _ _ _ (Parse_ok text) Hl) as [Hk _].
  apply lineAt_Some in Hl as [_ Hi]; [|apply Parse_ok]. rewrite Parse_lines in Hi.
  destruct (scan_lookup _ _ _ _ Hi) as (s0 & s1 & Hpl & Hri).
  destruct (parseLine_setting _ _ _ _ Hpl Hk) as (_ & _ & _ & pre & lead & val & tail & c & kk & Hsh & _ & _ & _ & _ & _ & _ & Hval).
  pose proof (shape_front _ _ _ _ _ _ (Lines_lines text) (list_elem_of_lookup_2 _ _ _ Hri) Hsh) as Hf.
  rewrite Hval. rewrite not_elem_of_app, not_elem_of_cons, not_elem_of_app in Hf. tauto.
Qed.

(** Laying one setting over a document, seen through [Get]. *)
Definition layOne (kk : bytes * bytes) (v : option bytes) (s : Setting) : option bytes :=
  if bool_decide (keyOf s = kk) then (fun _ => sValue s) <$> v else v.

Lemma setOrKeep_get d s sec k : doc_ok d -> nl ∉ sValue s ->
  doc_ok (setOrKeep d (sSection s) (sKey s) (sValue s)) /\
  Get (setOrKeep d (sSection s) (sKey s) (sValue s)) sec k = layOne (sec, toLower k) (Get d sec k) s.
Proof.
  intros Hd Hv. unfold layOne, setOrKeep. destruct (Set_ d _ _ _) as [d'|e] eqn:HS.
  - destruct (Set_get _ _ _ _ _ Hd HS) as (Hd' & Hg & Hne). split; [done|]. case_bool_decide as Hk.
    + rewrite <- (Get_key d' s sec k Hk), Hg, <- (Get_key d s sec k Hk).
      destruct (Set_frame _ _ _ _ _ Hd HS) as (_ & old & _ & -> & _). done.
    + apply Hne. intros Heq. by apply Hk.
  - split; [done|]. case_bool_decide as Hk; [|done]. rewrite <- (Get_key d s sec k Hk).
    unfold Get. destruct (lineAt d (sSection s) (sKey s)) as [[i ln]|] eqn:Hl; [|done].
    by rewrite (Set_run _ _ _ _ _ _ Hl Hv) in HS.
Qed.

Lemma overlayOne_get d s sec k : doc_ok d -> nl ∉ sValue s ->
  doc_ok (overlayOne d s) /\ Get (overlayOne d s) sec k = layOne (sec, toLower k) (Get d sec k) s.
Proof.
  intros Hd Hv. unfold overlayOne. destruct (Get d (sSection s) (sKey s)) as [v|] eqn:Hg.
  - case_bool_decide as Heq; [|by apply setOrKeep_get]. split; [done|]. unfold layOne. case_bool_decide as Hk; [|done].
    rewrite <- (Get_key d s sec k Hk), Hg. simpl. congruence.
  - split; [done|]. unfold layOne. case_bool_decide as Hk; [|done]. by rewrite <- (Get_key d s sec k Hk), Hg.
Qed.

Lemma overlay_fold l d sec k : doc_ok d -> Forall (fun s => nl ∉ sValue s) l ->
  doc_ok (fold_left overlayOne l d) /\
  Get (fold_left overlayOne l d) sec k = fold_left (layOne (sec, toLower k)) l (Get d sec k).
Proof.
  intros Hd Hl. revert d Hd. induction Hl as [|s l Hs _ IH]; intros d Hd; [done|]. simpl.
  destruct (overlayOne_get d s sec k Hd Hs) as [Hd' <-]. by apply IH.
Qed.

Lemma merge_fold l st sec k : doc_ok (mDoc st) -> Forall (fun s => nl ∉ sValue s) l ->
  Get (mDoc (fold_left mergeOne l st)) sec k = fold_left (layOne (sec, toLower k)) l (Get (mDoc st) sec k).
Proof.
  intros Hd Hl. revert st Hd. induction Hl as [|s l Hs _ IH]; intros st Hd; [done|]. simpl.
  destruct (Get (mDoc st) (sSection s) (sKey s)) eqn:Hg; unfold mergeOne at 2; rewrite Hg.
  - destruct (setOrKeep_get (mDoc st) s sec k Hd Hs) as [Hd' <-]. by apply (IH (mkMerge _ _ _ _)).
  - assert (layOne (sec, toLower k) (Get (mDoc st) sec k) s = Get (mDoc st) sec k) as ->.
    { unfold layOne. case_bool_decide as Hk; [|done]. by rewrite <- (Get_key _ s sec k Hk), Hg. }
    by destruct (_ && _); apply (IH (mkMerge _ _ _ _)).
Qed.

Lemma lay_fold l kk b v : (forall s, s ∈ l -> keyOf s = kk -> sValue s = v) ->
  fold_left (layOne kk) l b = if existsb (fun s => bool_decide (keyOf s = kk)) l then (fun _ => v) <$> b else b.
Proof.
  revert b. induction l as [|s l IH]; intros b Hv; [done|]. simpl. rewrite IH by (intros; apply Hv; [by right|done]).
  unfold layOne. case_bool_decide as Hk; simpl.
  - rewrite (Hv s) by (done || by left). destruct b; simpl; by destruct (existsb _ l).
  - done.
Qed.

(** Laying every setting of a text over a value. *)
Lemma lay_Settings text sec k b :
  fold_left (layOne (sec, toLower k)) (Settings (Parse text)) b =
  match b, Get (Parse text) sec k with Some _, Some v => Some v | _, _ => b end.
Proof.
  pose proof (Parse_ok text) as Hd. destruct (Get (Parse text) sec k) as [v|] eqn:Hg.
  - rewrite (lay_fold _ _ _ v).
    + destruct (get_Settings _ _ _ _ Hd Hg) as (s & Hs & Hk & _).
      rewrite (proj2 (existsb_elem_of _ _)); [by destruct b|]. exists s. by rewrite bool_decide_eq_true.
    + intros s Hs Hk. apply Settings_get in Hs; [|done]. rewrite (Get_key _ s sec k Hk), Hg in Hs. by injection Hs.
  - rewrite (lay_fold _ _ _ []).
    + destruct (existsb _ _) eqn:E; [|by destruct b]. apply existsb_elem_of in E as (s & Hs & Hk%bool_decide_eq_true).
      apply Settings_get in Hs; [|done]. by rewrite (Get_key _ s sec k Hk), Hg in Hs.
    + intros s Hs Hk. apply Settings_get in Hs; [|done]. by rewrite (Get_key _ s sec k Hk), Hg in Hs.
Qed.

Lemma Settings_nl text : Forall (fun s => nl ∉ sValue s) (Settings (Parse text)).
Proof. apply Forall_forall. intros s Hs. eapply Parse_value_nl, Settings_get; [apply Parse_ok|done]. Qed.

Lemma parsed_Parse text : parsed (Parse text).
Proof. unfold parsed. by rewrite Bytes_Parse_eq. Qed.

Lemma toLower_head `{!UnicodeLaws} c s : (code c < 128)%N -> exists s', toLower (c :: s) = lower_byte c :: s'.
Proof. intros Hc. unfold toLower. destruct (isASCII (c :: s)); [by eexists|by apply lower_head]. Qed.

Lemma diff_was before after c :
  c ∈ omap (fun s => match Get (Parse after) (sSection s) (sKey s) with
                     | None => Some (newChange (sSection s) (sKey s) (Some (sValue s)) None)
                     | Some now => if bool_decide (now = sValue s) then None
                                   else Some (newChange (sSection s) (sKey s) (Some (sValue s)) (Some now))
                     end) (Settings (Parse before)) <->
  exists s, s ∈ Settings (Parse before) /\ Get (Parse after) (sSection s) (sKey s) <> Some (sValue s) /\
    c = newChange (sSection s) (sKey s) (Some (sValue s)) (Get (Parse after) (sSection s) (sKey s)).
Proof.
  rewrite list_elem_of_omap. apply exist_proper. intros s.
  destruct (Get (Parse after) _ _) as [now|]; [case_bool_decide; naive_solver|naive_solver].
Qed.

Lemma diff_now before after c :
  c ∈ omap (fun s => match Get (Parse before) (sSection s) (sKey s) with
                     | Some _ => None
                     | None => Some (newChange (sSection s) (sKey s) None (Some (sValue s)))
                     end) (Settings (Parse after)) <->
  exists s, s ∈ Settings (Parse after) /\ Get (Parse before) (sSection s) (sKey s) = None /\
    c = newChange (sSection s) (sKey s) None (Some (sValue s)).
Proof.
  rewrite list_elem_of_omap. apply exist_proper. intros s. destruct (Get (Parse before) _ _); naive_solver.
Qed.

(** ** Properties *)

(** [Bytes] gives back the text that was parsed, byte for byte, whatever the
    text is. *)
Theorem Bytes_Parse text : Bytes (Parse text) = text.
Proof. apply Bytes_Parse_eq. Qed.

(** [Set] on any document a caller can hold, on every branch: a value with a
    line break is refused, an unknown key is refused, and otherwise [Get]
    reads the value back, every other key keeps its value, and of the file's
    bytes only those of the old value change. *)
Theorem Set_spec d sec k v : edited d ->
  match Set_ d sec k v with
  | Err ErrValueSpansLines => nl ∈ v
  | Err ErrNoSuchSetting => nl ∉ v /\ Get d sec k = None
  | Ok d' =>
      nl ∉ v /\ Get d' sec k = Some v /\
      (forall sec' k', (sec', toLower k') <> (sec, toLower k) -> Get d' sec' k' = Get d sec' k') /\
      exists a old b, Get d sec k = Some old /\ Bytes d = a ++ old ++ b /\ Bytes d' = a ++ v ++ b
  end.
Proof.
  intros Hd%edited_ok. destruct (Set_ d sec k v) as [d'|e] eqn:HS.
  - destruct (Set_Ok _ _ _ _ _ Hd HS) as (Hv & _). destruct (Set_get _ _ _ _ _ Hd HS) as (_ & Hg & Hne).
    split_and!; [done..|by eapply Set_frame].
  - unfold Set_ in HS. destruct (contains [nl] v) eqn:Hc.
    + injection HS as <-. by apply contains_nl.
    + unfold Get. destruct (lineAt d sec k) as [[]|]; [done|]. injection HS as <-. split; [|done].
      intros Hin%contains_nl. congruence.
Qed.

(** An edit survives the file: the edited document is the parse of its own
    bytes, index and value bounds included, when the value is what a reader
    would read back (nonempty, not blank at either end) and the line's key
    does not open a bracket. *)
Theorem Set_reparse text sec k v d' : Set_ (Parse text) sec k v = Ok d' ->
  v <> [] -> headNotIn blank v -> lastNotIn blankEnd v ->
  (forall i ln, lineAt (Parse text) sec k = Some (i, ln) -> hasPrefix (L "[") (key ln) = false) ->
  Parse (Bytes d') = d'.
Proof.
  intros HS Hne Hh Hl Hk. destruct (Set_Ok _ _ _ _ _ (Parse_ok text) HS) as (Hv & _).
  symmetry. by apply (Set_parsed _ _ _ _ _ (parsed_Parse text) (conj Hne (conj Hh (conj Hl Hv))) HS).
Qed.

(** [Overlay] lays the pending edits over the file: each key the file has
    takes the pending value where there is one and keeps its own otherwise,
    and a key the file lacks is not added. [Merge] gives the file's part the
    same values. *)
Theorem Overlay_spec base over :
  Overlay base over = Bytes (overlayDoc base over) /\
  forall sec k,
    Get (overlayDoc base over) sec k =
      match Get (Parse base) sec k, Get (Parse over) sec k with Some _, Some v => Some v | own, _ => own end /\
    Get (mDoc (mergeDoc base over)) sec k = Get (overlayDoc base over) sec k.
Proof.
  split; [done|]. intros sec k. pose proof (Settings_nl over) as Hl.
  destruct (overlay_fold (Settings (Parse over)) (Parse base) sec k (Parse_ok base) Hl) as [_ Ho].
  pose proof (merge_fold (Settings (Parse over)) (mkMerge (Parse base) [] [] []) sec k (Parse_ok base) Hl) as Hm.
  unfold overlayDoc, mergeDoc. rewrite Hm, Ho. cbn [mDoc]. rewrite lay_Settings. split; [|done].
  by destruct (Get (Parse base) sec k), (Get (Parse over) sec k).
Qed.

(** [Diff] reports exactly the keys whose value differs between the two
    texts, with both values, and no value at all for a secret key. *)
Theorem Diff_spec before after :
  (forall c, c ∈ Diff before after -> exists sec k,
     Get (Parse before) sec k <> Get (Parse after) sec k /\
     c = newChange sec k (Get (Parse before) sec k) (Get (Parse after) sec k)) /\
  (forall sec k, Get (Parse before) sec k <> Get (Parse after) sec k -> exists k', toLower k' = toLower k /\
     newChange sec k' (Get (Parse before) sec k) (Get (Parse after) sec k) ∈ Diff before after) /\
  (forall c, c ∈ Diff before after -> Secret c = true -> From c = None /\ To c = None).
Proof.
  unfold Diff. split_and!.
  - intros c [(s & Hs & Hne & ->)%diff_was|(s & Hs & Hn & ->)%diff_now]%elem_of_app;
      apply Settings_get in Hs; [|apply Parse_ok| |apply Parse_ok];
      exists (sSection s), (sKey s); rewrite Hs; [by split|by rewrite Hn].
  - intros sec k Hne. setoid_rewrite elem_of_app. destruct (Get (Parse before) sec k) as [v|] eqn:Hb.
    + destruct (get_Settings _ _ _ _ (Parse_ok before) Hb) as (s & Hs & Hk & <-).
      exists (sKey s). pose proof Hk as [= <- <-]. split; [done|]. left. apply diff_was. exists s.
      rewrite (Get_key (Parse after) s _ _ Hk). done.
    + destruct (Get (Parse after) sec k) as [v|] eqn:Ha; [|done].
      destruct (get_Settings _ _ _ _ (Parse_ok after) Ha) as (s & Hs & Hk & <-).
      exists (sKey s). pose proof Hk as [= <- <-]. split; [done|]. right. apply diff_now. exists s.
      by rewrite (Get_key (Parse before) s _ _ Hk).
  - intros c [(s & _ & _ & ->)%diff_was|(s & _ & _ & ->)%diff_now]%elem_of_app;
      unfold newChange; by destruct (SecretKey (sKey s)).
Qed.

(** Switching the console on is idempotent and touches nothing else: after a
    successful run a second run finds nothing to do, the switch no longer
    reads false, and every other key reads as before. *)
Theorem enableConsole_idempotent `{!UnicodeLaws} text out changed : enableConsole text = Ok (out, changed) ->
  enableConsole out = Ok (out, false) /\
  (forall sec k, (sec, toLower k) <> (consoleSection, toLower consoleKey) ->
     Get (Parse out) sec k = Get (Parse text) sec k) /\
  (changed = true -> Get (Parse out) consoleSection consoleKey = Some (L "true")).
Proof.
  unfold enableConsole at 1. destruct (Get (Parse text) consoleSection consoleKey) as [v|] eqn:Hg; [|done].
  destruct (negb (equalFold v (L "false"))) eqn:Hf.
  - intros [= <- <-]. split_and!; [|done..]. unfold enableConsole. by rewrite Hg, Hf.
  - destruct (Set_ _ _ _ _) as [d'|] eqn:HS; [|done]. intros [= <- <-].
    assert (Parse (Bytes d') = d') as Hp.
    { symmetry. refine (Set_parsed _ _ _ _ _ (parsed_Parse text) _ HS _).
      - split_and!; [done|by apply (bool_decide_unpack _); vm_compute..].
      - intros i ln Hl. destruct (lineAt_setting _ _ _ _ _ (Parse_ok text) Hl) as [_ Hk].
        injection Hk as _ Hk. destruct (key ln) as [|c s] eqn:Hkl; [done|]. cbn [hasPrefix L String.list_ascii_of_string].
        rewrite andb_true_r. apply is_byte_false. intros ->. destruct (toLower_head "["%char s) as [s' Hs']; [done|].
        rewrite Hs' in Hk. by vm_compute in Hk. }
    destruct (Set_get _ _ _ _ _ (Parse_ok text) HS) as (_ & Hg' & Hne).
    unfold enableConsole. rewrite Hp, Hg'. split_and!; [by vm_compute|done..].
Qed.

End Document.

(** ** Witnesses *)

Definition sampleText : bytes :=
  L "# console" ++ [nl] ++ L "[Logging.Console]" ++ [nl] ++ L "Enabled = false " ++ crlf ++ L "Token=abc".

Lemma Set_spec_witness :
  @edited ascii_tables (@Parse ascii_tables sampleText) /\
  match @Set_ ascii_tables (@Parse ascii_tables sampleText) consoleSection (L "enabled") (L "yes") with
  | Ok d' => @Get ascii_tables d' consoleSection (L "ENABLED") = Some (L "yes")
  | Err _ => False
  end.
Proof.
  split; [constructor|].
  pose proof (@Set_spec ascii_tables (@Parse ascii_tables sampleText) consoleSection (L "enabled") (L "yes") (edited_parse _)) as H.
  destruct (Set_ _ _ _ _) as [d'|e] eqn:E; [|by vm_compute in E].
  destruct H as (_ & H & _). exact H.
Defined.

Lemma Set_reparse_witness : exists d',
  @Set_ ascii_tables (@Parse ascii_tables sampleText) consoleSection (L "token") (L "[x]=y") = Ok d' /\
  @Parse ascii_tables (Bytes d') = d'.
Proof.
  destruct (@Set_ ascii_tables (@Parse ascii_tables sampleText) consoleSection (L "token") (L "[x]=y")) as [d'|e] eqn:E;
    [|by vm_compute in E].
  exists d'. split; [done|]. apply (@Set_reparse ascii_tables _ _ _ _ _ E); [done|by apply (bool_decide_unpack _); vm_compute..|].
  intros i ln Hl. vm_compute in Hl. by injection Hl as <- <-.
Defined.

Lemma enableConsole_idempotent_witness : exists out,
  @enableConsole ascii_tables sampleText = Ok (out, true) /\ @enableConsole ascii_tables out = Ok (out, false).
Proof.
  destruct (@enableConsole ascii_tables sampleText) as [[out b]|e] eqn:E; [|by vm_compute in E].
  exists out. destruct b; [|by vm_compute in E]. split; [done|].
  apply (@enableConsole_idempotent ascii_tables ascii_tables_laws _ _ _ E).
Defined.
