(* ===== verification/AlertEval.v ===== *)
(** internal/alerts: which operational conditions are true of a snapshot of the
    panel (evaluate.go, condition.go), the thresholds rules set, what a rule
    covers and when it keeps quiet (rules.go). *)
From Stdlib Require Import QArith.
From S2P Require Import Prelude GoBytes Kinds Lifecycle Sql Store.
Open Scope string_scope.
Open Scope list_scope.
Open Scope Z_scope.

(** ** Conditions (condition.go) *)

Definition KindJobFailed : string := "job_failed".
Definition KindLowDisk : string := "low_disk".
Definition KindStaleBackup : string := "stale_backup".
Definition KindUncleanStop : string := "unclean_stop".
Definition KindRestartRequired : string := "restart_required".
Definition KindUpdateAvailable : string := "update_available".
Definition KindInstanceError : string := "instance_error".
Definition KindCrashLoop : string := "crash_loop".
Definition KindJobStuck : string := "job_stuck".
Definition KindBackupAttention : string := "backup_attention".

(** The values of a condition's detail, before they are formatted. *)
Inductive DetailValue :=
| DInt (n : Z) | DText (s : string) | DDuration (ns : Z) | DMinutes (ns : Z) | DInstant (t : Time) | DTexts (l : list string).

#[export] Instance DetailValue_eq_dec : EqDecision DetailValue.
Proof. solve_decision. Defined.

Record Condition := mkCondition { cKind : string; cInstance : string; cDetail : gmap string DetailValue }.

#[export] Instance Condition_eq_dec : EqDecision Condition.
Proof. solve_decision. Defined.

(** Durations are nanoseconds; [StaleFactor], a finite float64, is the rational
    it denotes. *)
Record Params := mkParams { CrashCount : Z; CrashWindow : Z; StuckAfter : Z; StaleFactor : Q }.

Definition noParams : Params := mkParams 0 0 0 0.
Definition Minute : Z := 60 * 10 ^ 9.
Definition Hour : Z := 60 * Minute.

Definition Defaults (p : Params) : Params :=
  mkParams (if CrashCount p <=? 0 then 3 else CrashCount p)
    (if CrashWindow p <=? 0 then 30 * Minute else CrashWindow p)
    (if StuckAfter p <=? 0 then Hour else StuckAfter p)
    (if Qle_bool (StaleFactor p) 1 then 2%Q else StaleFactor p).

Definition Resolver := string -> string -> Params.

(** ** The snapshot (evaluate.go) *)

(** The fields of store.Instance the evaluator reads. *)
Record InstanceRow := mkInstanceRow { rowID : string; rowState : string; rowRestartRequired : bool; rowGameBranch : string }.

Record BackupSchedule := mkBackupSchedule {
  bsInstance : string; Interval : Z; Missed : Z; LastRunAt : option Time
}.

(** The fields of store.Backup the evaluator reads. *)
Record FlaggedBackup := mkFlagged { WorldAttention : list string; fbCreatedAt : Time }.

Record Snapshot := mkSnapshot {
  Instances : list InstanceRow;
  LatestTerminalJobs : list Job;
  CleanSignals : list Job;
  Running : list Job;
  BackupSchedules : list BackupSchedule;
  LastBackups : gmap string Time;
  FlaggedBackups : gmap string FlaggedBackup;
  Incidents : gmap string (list Time);
  InstalledBuilds : gmap string string;
  BranchBuilds : gmap string string;
  FreeBytes : Z;
  AlarmBytes : Z;
  Now : Time
}.

(** A missing map key reads as the zero value. *)
Definition lookupStr (m : gmap string string) (k : string) : string := default "" (m !! k).
Definition deref (s : option string) : string := default "" s.

(** [strconv.ParseUint(s, 10, 64)]. *)
Definition ParseUint (s : string) : option Z :=
  if bool_decide (s = "") then None
  else match digits_val 0 (L s) with
       | Some n => if n <? 2 ^ 64 then Some n else None
       | None => None
       end.

Definition knownBuild (id : string) : bool := match ParseUint id with Some n => 0 <? n | None => false end.

(** [time.Time.Sub] saturates at an int64 duration. *)
Definition timeSub (a b : Time) : Z := Z.max (- 2 ^ 63) (Z.min (2 ^ 63 - 1) (a - b)).

Definition stateError : string := "error".

Definition lowDisk (s : Snapshot) : list Condition :=
  if (AlarmBytes s =? 0) || (AlarmBytes s <=? FreeBytes s) then []
  else [mkCondition KindLowDisk "" {["Free" := DInt (FreeBytes s); "Alarm" := DInt (AlarmBytes s)]}].

Definition updateAvailable (s : Snapshot) (inst : InstanceRow) : option Condition :=
  let installed := lookupStr (InstalledBuilds s) (rowID inst) in
  let available := lookupStr (BranchBuilds s) (rowGameBranch inst) in
  if negb (knownBuild installed) || negb (knownBuild available) || bool_decide (installed = available) then None
  else Some (mkCondition KindUpdateAvailable (rowID inst) {["Installed" := DText installed; "Available" := DText available]}).

(** How many of the instance's incidents fall inside the window. *)
Definition stopsWithin (s : Snapshot) (id : string) (window : Z) : Z :=
  Z.of_nat (length (filter (fun at_ => Now s - window < at_) (default [] (Incidents s !! id)))).

Definition crashLoop (s : Snapshot) (id : string) (p : Params) : option Condition :=
  let n := stopsWithin s id (CrashWindow p) in
  if n <? CrashCount p then None
  else Some (mkCondition KindCrashLoop id {["Stops" := DInt n; "Window" := DDuration (CrashWindow p)]}).

Definition perInstance (s : Snapshot) (params : Resolver) : list Condition :=
  flat_map (fun inst =>
    (if rowRestartRequired inst then [mkCondition KindRestartRequired (rowID inst) ∅] else []) ++
    (if bool_decide (rowState inst = stateError) then [mkCondition KindInstanceError (rowID inst) ∅] else []) ++
    option_list (updateAvailable s inst) ++
    option_list (crashLoop s (rowID inst) (params KindCrashLoop (rowID inst)))) (Instances s).

Definition jobDetail (j : Job) : gmap string DetailValue := {["Job" := DText (JKind j)]}.
Definition addText (k : string) (v : option string) (m : gmap string DetailValue) : gmap string DetailValue :=
  match v with Some t => <[k := DText t]> m | None => m end.

Definition failedJobs (s : Snapshot) : list Condition :=
  omap (fun j =>
    if negb (bool_decide (Status j = StatusFailed)) || bool_decide (JKind j = kindName KindWebhookDeliver) then None
    else Some (mkCondition KindJobFailed (deref (InstanceID j))
                 (addText "Reason" (Error j) (addText "Error" (ErrorCode j) (jobDetail j))))) (LatestTerminalJobs s).

Definition uncleanStops (s : Snapshot) : list Condition :=
  omap (fun j => match Clean j with
                 | Some false => Some (mkCondition KindUncleanStop (deref (InstanceID j)) (jobDetail j))
                 | _ => None
                 end) (CleanSignals s).

Definition staleBackups (s : Snapshot) (params : Resolver) : list Condition :=
  omap (fun sc =>
    if bool_decide (LastRunAt sc = None) || (Interval sc <=? 0) then None
    else let p := params KindStaleBackup (bsInstance sc) in
         let last := LastBackups s !! bsInstance sc in
         if bool_decide (is_Some last) && negb (Qle_bool (StaleFactor p) (inject_Z (Missed sc))) then None
         else Some (mkCondition KindStaleBackup (bsInstance sc)
                      (match last with Some t => <["Last" := DInstant t]> | None => id end
                         {["Every" := DDuration (Interval sc)]}))) (BackupSchedules s).

(** Map iteration: the order is unspecified, here that of [map_to_list]. *)
Definition flaggedBackups (s : Snapshot) : list Condition :=
  map (fun '(id, b) => mkCondition KindBackupAttention id
                         {["Reason" := DTexts (WorldAttention b); "Backup" := DInstant (fbCreatedAt b)]})
    (map_to_list (FlaggedBackups s)).

Definition stuckJobs (s : Snapshot) (params : Resolver) : list Condition :=
  omap (fun j => match StartedAt j with
                 | None => None
                 | Some at_ =>
                     let id := deref (InstanceID j) in
                     let running := timeSub (Now s) at_ in
                     if running <=? StuckAfter (params KindJobStuck id) then None
                     else Some (mkCondition KindJobStuck id (<["Running" := DMinutes running]> (jobDetail j)))
                 end) (Running s).

Definition Evaluate (s : Snapshot) (resolve : option Resolver) : list Condition :=
  let resolve := default (fun _ _ => noParams) resolve in
  let params k id := Defaults (resolve k id) in
  lowDisk s ++ perInstance s params ++ failedJobs s ++ uncleanStops s ++ staleBackups s params ++
  flaggedBackups s ++ stuckJobs s params.

(** ** Rules (rules.go) *)

Record AlertRule := mkRule {
  ruID : string; ruInstance : option string; ruKind : string; ruParams : string;
  QuietStart : option Z; QuietEnd : option Z; QuietTZ : option string; Enabled : bool;
  WebhookIDs : list string
}.

#[export] Instance AlertRule_eq_dec : EqDecision AlertRule.
Proof. solve_decision. Defined.

Record ParamsWire := mkWire { wCrashCount : Z; wCrashWindowSeconds : Z; wStuckAfterSeconds : Z; wStaleFactor : Q }.

(** An int64 product wraps. *)
Definition wrap64 (n : Z) : Z := (n + 2 ^ 63) mod 2 ^ 64 - 2 ^ 63.
Definition Second : Z := 10 ^ 9.

Definition wireParams (w : ParamsWire) : Params :=
  mkParams (wCrashCount w) (wrap64 (wCrashWindowSeconds w * Second)) (wrap64 (wStuckAfterSeconds w * Second)) (wStaleFactor w).

(** The stored thresholds are JSON; the decoder, where unreadable text yields
    the zero value, is an argument. *)
Class ParamsCodec := { ParamsWireOf : string -> ParamsWire }.

Section Rules.
Context `{ParamsCodec}.

Definition DecodeParams (raw : string) : Params := wireParams (ParamsWireOf raw).

(** One step of the choice: the rule chosen so far against the next. *)
Definition preferRule (kind id : string) (chosen : option AlertRule) (r : AlertRule) : option AlertRule :=
  if negb (Enabled r) || negb (bool_decide (ruKind r = kind)) then chosen
  else match ruInstance r with
       | Some i =>
           if negb (bool_decide (i = id)) then chosen
           else match chosen with
                | None => Some r
                | Some c => if bool_decide (ruInstance c = None) then Some r else chosen
                end
       | None => match chosen with None => Some r | Some _ => chosen end
       end.

Definition RuleResolver (rules : list AlertRule) : Resolver := fun kind id =>
  match fold_left (preferRule kind id) rules None with
  | None => noParams
  | Some r => DecodeParams (ruParams r)
  end.

End Rules.

(** A rule against a stored condition's kind and instance. *)
Definition Matches (r : AlertRule) (kind : string) (instanceID : option string) : bool :=
  if negb (Enabled r) || negb (bool_decide (ruKind r = kind)) then false
  else match ruInstance r with
       | None => true
       | Some i => bool_decide (instanceID = Some i)
       end.

(** The zone database: the minutes since midnight of an instant in a zone,
    [None] for a zone the host does not know. *)
Class Zones := { localMinutes : string -> Time -> option Z }.

Definition Quiet `{Zones} (r : AlertRule) (now : Time) : bool :=
  match QuietStart r, QuietEnd r, QuietTZ r with
  | Some start, Some end_, Some tz =>
      match localMinutes tz now with
      | None => false
      | Some minutes =>
          if start <=? end_ then (start <=? minutes) && (minutes <? end_)
          else (start <=? minutes) || (minutes <? end_)
      end
  | _, _, _ => false
  end.

(** A rule in force for one instance, and one in force for every instance. *)
Definition names (kind id : string) (r : AlertRule) : bool :=
  Enabled r && bool_decide (ruKind r = kind) && bool_decide (ruInstance r = Some id).
Definition covers (kind : string) (r : AlertRule) : bool :=
  Enabled r && bool_decide (ruKind r = kind) && bool_decide (ruInstance r = None).

(** ** Specification: what each condition means *)

Inductive Holds (s : Snapshot) (params : Resolver) : string -> string -> Prop :=
| holds_low_disk : AlarmBytes s <> 0 -> FreeBytes s < AlarmBytes s -> Holds s params KindLowDisk ""
| holds_restart inst : inst ∈ Instances s -> rowRestartRequired inst = true ->
    Holds s params KindRestartRequired (rowID inst)
| holds_error inst : inst ∈ Instances s -> rowState inst = stateError -> Holds s params KindInstanceError (rowID inst)
| holds_update inst installed available n m : inst ∈ Instances s ->
    InstalledBuilds s !! rowID inst = Some installed -> BranchBuilds s !! rowGameBranch inst = Some available ->
    ParseUint installed = Some n -> 0 < n -> ParseUint available = Some m -> 0 < m -> installed <> available ->
    Holds s params KindUpdateAvailable (rowID inst)
| holds_crash_loop inst : inst ∈ Instances s ->
    CrashCount (params KindCrashLoop (rowID inst)) <=
      stopsWithin s (rowID inst) (CrashWindow (params KindCrashLoop (rowID inst))) ->
    Holds s params KindCrashLoop (rowID inst)
| holds_failed j : j ∈ LatestTerminalJobs s -> Status j = StatusFailed -> JKind j <> kindName KindWebhookDeliver ->
    Holds s params KindJobFailed (deref (InstanceID j))
| holds_unclean j : j ∈ CleanSignals s -> Clean j = Some false -> Holds s params KindUncleanStop (deref (InstanceID j))
| holds_stale sc t : sc ∈ BackupSchedules s -> LastRunAt sc = Some t -> 0 < Interval sc ->
    (LastBackups s !! bsInstance sc = None \/
     (StaleFactor (params KindStaleBackup (bsInstance sc)) <= inject_Z (Missed sc))%Q) ->
    Holds s params KindStaleBackup (bsInstance sc)
| holds_flagged id b : FlaggedBackups s !! id = Some b -> Holds s params KindBackupAttention id
| holds_stuck j t : j ∈ Running s -> StartedAt j = Some t ->
    StuckAfter (params KindJobStuck (deref (InstanceID j))) < timeSub (Now s) t ->
    Holds s params KindJobStuck (deref (InstanceID j)).

(** ** Lemmas *)

Definition reports (l : list Condition) (k id : string) : Prop :=
  exists c, c ∈ l /\ cKind c = k /\ cInstance c = id.

Lemma reports_app l l' k id : reports (l ++ l') k id <-> reports l k id \/ reports l' k id.
Proof. unfold reports. setoid_rewrite elem_of_app. naive_solver. Qed.

Lemma reports_nil k id : ~ reports [] k id.
Proof. by intros (c & ?%not_elem_of_nil & _). Qed.

Lemma reports_one c k id : reports [c] k id <-> cKind c = k /\ cInstance c = id.
Proof. unfold reports. setoid_rewrite list_elem_of_singleton. naive_solver. Qed.

Lemma reports_omap {A} (f : A -> option Condition) l k id :
  reports (omap f l) k id <-> exists x c, x ∈ l /\ f x = Some c /\ cKind c = k /\ cInstance c = id.
Proof. unfold reports. setoid_rewrite list_elem_of_omap. naive_solver. Qed.

Lemma reports_flat_map {A} (f : A -> list Condition) l k id :
  reports (flat_map f l) k id <-> exists x, x ∈ l /\ reports (f x) k id.
Proof.
  induction l as [|x l IH]; simpl.
  - split; [by intros ?%reports_nil|by intros (x & ?%not_elem_of_nil & _)].
  - rewrite reports_app, IH. setoid_rewrite elem_of_cons. naive_solver.
Qed.

Lemma reports_option o k id : reports (option_list o) k id <-> exists c, o = Some c /\ cKind c = k /\ cInstance c = id.
Proof.
  destruct o as [c|]; simpl.
  - rewrite reports_one. naive_solver.
  - split; [by intros ?%reports_nil|naive_solver].
Qed.

Lemma knownBuild_spec m k : knownBuild (lookupStr m k) = true <->
  exists b n, m !! k = Some b /\ ParseUint b = Some n /\ 0 < n.
Proof.
  unfold knownBuild, lookupStr. destruct (m !! k) as [b|]; simpl.
  - destruct (ParseUint b) as [n|] eqn:E.
    + rewrite Z.ltb_lt. split; [eauto|]. intros (b' & n' & [= <-] & Hn & ?). rewrite E in Hn. by injection Hn as ->.
    + split; [done|]. intros (b' & n' & [= <-] & Hn & ?). by rewrite E in Hn.
  - split; [done|]. by intros (b' & n' & ? & _).
Qed.

Lemma updateAvailable_spec s inst k id :
  (exists c, updateAvailable s inst = Some c /\ cKind c = k /\ cInstance c = id) <->
  k = KindUpdateAvailable /\ id = rowID inst /\ exists installed available n m,
    InstalledBuilds s !! rowID inst = Some installed /\ BranchBuilds s !! rowGameBranch inst = Some available /\
    ParseUint installed = Some n /\ 0 < n /\ ParseUint available = Some m /\ 0 < m /\ installed <> available.
Proof.
  unfold updateAvailable. destruct (knownBuild (lookupStr (InstalledBuilds s) _)) eqn:Hi; simpl.
  2:{ split; [naive_solver|]. intros (_ & _ & i & a & n & m & H1 & _ & H2 & H3 & _).
      rewrite (proj2 (knownBuild_spec _ _)) in Hi by eauto. done. }
  destruct (knownBuild (lookupStr (BranchBuilds s) _)) eqn:Ha; simpl.
  2:{ split; [naive_solver|]. intros (_ & _ & i & a & n & m & _ & H1 & _ & _ & H2 & H3 & _).
      rewrite (proj2 (knownBuild_spec _ _)) in Ha by eauto. done. }
  apply knownBuild_spec in Hi as (i & n & Hi & Hn & Hn0). apply knownBuild_spec in Ha as (a & m & Ha & Hm & Hm0).
  unfold lookupStr. rewrite Hi, Ha. simpl. case_bool_decide; naive_solver.
Qed.

Lemma perInstance_spec s params k id : reports (perInstance s params) k id <->
  exists inst, inst ∈ Instances s /\ id = rowID inst /\
    ((k = KindRestartRequired /\ rowRestartRequired inst = true) \/
     (k = KindInstanceError /\ rowState inst = stateError) \/
     (k = KindUpdateAvailable /\ exists installed available n m,
        InstalledBuilds s !! rowID inst = Some installed /\ BranchBuilds s !! rowGameBranch inst = Some available /\
        ParseUint installed = Some n /\ 0 < n /\ ParseUint available = Some m /\ 0 < m /\ installed <> available) \/
     (k = KindCrashLoop /\ CrashCount (params KindCrashLoop (rowID inst)) <=
        stopsWithin s (rowID inst) (CrashWindow (params KindCrashLoop (rowID inst))))).
Proof.
  unfold perInstance. rewrite reports_flat_map. apply exist_proper. intros inst.
  rewrite !reports_app, !reports_option, updateAvailable_spec.
  assert (reports (if rowRestartRequired inst then [mkCondition KindRestartRequired (rowID inst) ∅] else []) k id <->
    k = KindRestartRequired /\ id = rowID inst /\ rowRestartRequired inst = true) as ->.
  { destruct (rowRestartRequired inst); [rewrite reports_one; naive_solver|]. split; [by intros ?%reports_nil|naive_solver]. }
  assert (reports (if bool_decide (rowState inst = stateError) then [mkCondition KindInstanceError (rowID inst) ∅] else []) k id <->
    k = KindInstanceError /\ id = rowID inst /\ rowState inst = stateError) as ->.
  { case_bool_decide; [rewrite reports_one; naive_solver|]. split; [by intros ?%reports_nil|naive_solver]. }
  assert ((exists c, crashLoop s (rowID inst) (params KindCrashLoop (rowID inst)) = Some c /\ cKind c = k /\ cInstance c = id) <->
    k = KindCrashLoop /\ id = rowID inst /\ CrashCount (params KindCrashLoop (rowID inst)) <=
        stopsWithin s (rowID inst) (CrashWindow (params KindCrashLoop (rowID inst)))) as ->.
  { unfold crashLoop. destruct (_ <? _) eqn:E; prop_bool; [|naive_solver]. split; [naive_solver|]. intros (_ & _ & ?). lia. }
  tauto.
Qed.

Lemma lowDisk_spec s k id : reports (lowDisk s) k id <->
  k = KindLowDisk /\ id = "" /\ AlarmBytes s <> 0 /\ FreeBytes s < AlarmBytes s.
Proof.
  unfold lowDisk. destruct (_ || _) eqn:E.
  - split; [by intros ?%reports_nil|]. intros (_ & _ & Hn & Hl). apply orb_true_iff in E as [?%Z.eqb_eq|?%Z.leb_le]; lia.
  - prop_bool. rewrite reports_one. simpl. naive_solver.
Qed.

Lemma failedJobs_spec s k id : reports (failedJobs s) k id <->
  exists j, j ∈ LatestTerminalJobs s /\ k = KindJobFailed /\ id = deref (InstanceID j) /\
    Status j = StatusFailed /\ JKind j <> kindName KindWebhookDeliver.
Proof.
  unfold failedJobs. rewrite reports_omap. apply exist_proper. intros j.
  destruct (bool_decide (Status j = StatusFailed)) eqn:E1, (bool_decide (JKind j = _)) eqn:E2; prop_bool; naive_solver.
Qed.

Lemma uncleanStops_spec s k id : reports (uncleanStops s) k id <->
  exists j, j ∈ CleanSignals s /\ k = KindUncleanStop /\ id = deref (InstanceID j) /\ Clean j = Some false.
Proof.
  unfold uncleanStops. rewrite reports_omap. apply exist_proper. intros j.
  destruct (Clean j) as [[]|]; naive_solver.
Qed.

Lemma staleBackups_spec s params k id : reports (staleBackups s params) k id <->
  exists sc, sc ∈ BackupSchedules s /\ k = KindStaleBackup /\ id = bsInstance sc /\ is_Some (LastRunAt sc) /\
    0 < Interval sc /\ (LastBackups s !! bsInstance sc = None \/
                        (StaleFactor (params KindStaleBackup (bsInstance sc)) <= inject_Z (Missed sc))%Q).
Proof.
  unfold staleBackups. rewrite reports_omap. apply exist_proper. intros sc.
  destruct (LastRunAt sc) as [t|]; simpl.
  2:{ split; [naive_solver|]. intros (_ & _ & _ & ?%is_Some_None & _). done. }
  destruct (Interval sc <=? 0) eqn:Ei; prop_bool; [naive_solver lia|]. simpl.
  destruct (LastBackups s !! bsInstance sc) as [u|]; simpl; [|naive_solver].
  destruct (Qle_bool _ _) eqn:Eq; simpl; [apply Qle_bool_iff in Eq; naive_solver|].
  split; [naive_solver|]. intros (_ & _ & _ & _ & _ & [?|Hq%Qle_bool_iff]); congruence.
Qed.

Lemma flaggedBackups_spec s k id : reports (flaggedBackups s) k id <->
  k = KindBackupAttention /\ is_Some (FlaggedBackups s !! id).
Proof.
  unfold flaggedBackups, reports, is_Some. setoid_rewrite list_elem_of_fmap. split.
  - intros (c & ([i b] & -> & Hin%elem_of_map_to_list) & <- & <-). eauto.
  - intros (-> & b & Hb). eexists. split; [exists (id, b); split; [reflexivity|by apply elem_of_map_to_list]|done].
Qed.

Lemma stuckJobs_spec s params k id : reports (stuckJobs s params) k id <->
  exists j t, j ∈ Running s /\ k = KindJobStuck /\ id = deref (InstanceID j) /\ StartedAt j = Some t /\
    StuckAfter (params KindJobStuck (deref (InstanceID j))) < timeSub (Now s) t.
Proof.
  unfold stuckJobs. rewrite reports_omap. apply exist_proper. intros j.
  destruct (StartedAt j) as [t|]; [|naive_solver]. destruct (_ <=? _) eqn:E; prop_bool; [naive_solver lia|naive_solver].
Qed.

Lemma resolver_prefer kind id rules chosen :
  fold_left (preferRule kind id) rules chosen =
  match chosen with
  | Some c =>
      if bool_decide (ruInstance c = None)
      then match List.find (names kind id) rules with Some r => Some r | None => Some c end
      else Some c
  | None =>
      match List.find (names kind id) rules with
      | Some r => Some r
      | None => List.find (covers kind) rules
      end
  end.
Proof.
  revert chosen. induction rules as [|r rules IH]; intros chosen; simpl.
  - destruct chosen as [c|]; [by case_bool_decide|done].
  - rewrite IH. unfold preferRule, names, covers.
    destruct (Enabled r), (bool_decide (ruKind r = kind)); simpl; try done.
    destruct (ruInstance r) as [i|] eqn:Hi; simpl.
    + destruct (bool_decide (i = id)) eqn:E; prop_bool.
      * subst i. rewrite (bool_decide_eq_true_2 (Some id = Some id)) by done.
        destruct chosen as [c|]; [destruct (bool_decide (ruInstance c = None)) eqn:E2|]; cbn [andb negb]; rewrite ?Hi, ?E2; done.
      * rewrite (bool_decide_eq_false_2 (Some i = Some id)) by congruence. done.
    + destruct chosen as [c|]; [done|]. rewrite Hi. done.
Qed.

(** ** Properties *)

(** The evaluator reports a condition for an instance exactly when the
    condition holds of the snapshot under that instance's thresholds, a
    threshold left unset reading as its default. *)
Theorem Evaluate_spec s resolve k id :
  (exists c, c ∈ Evaluate s resolve /\ cKind c = k /\ cInstance c = id) <->
  Holds s (fun k id => Defaults (default (fun _ _ => noParams) resolve k id)) k id.
Proof.
  change (reports (Evaluate s resolve) k id <-> Holds s (fun k id => Defaults (default (fun _ _ => noParams) resolve k id)) k id).
  unfold Evaluate. rewrite !reports_app, lowDisk_spec, perInstance_spec, failedJobs_spec, uncleanStops_spec,
    staleBackups_spec, flaggedBackups_spec, stuckJobs_spec. split.
  - intros [(-> & -> & ? & ?)|[(inst & Hin & -> & [[-> ?]|[[-> ?]|[(-> & i & a & n & m & ? & ? & ? & ? & ? & ? & ?)|[-> ?]]]])|
      [(j & ? & -> & -> & ? & ?)|[(j & ? & -> & -> & ?)|[(sc & ? & -> & -> & [t ?] & ? & ?)|[[-> [b ?]]|
       (j & t & ? & -> & -> & ? & ?)]]]]]]; econstructor; eassumption.
  - intros HH. destruct HH; [left; tauto|right; left; eexists; split_and!; [eassumption|done|]..| | | | |]; [tauto|tauto| |tauto| | | | |].
    + right. right. left. split; [done|]. exists installed, available, n, m. tauto.
    + right. right. left. eauto 10.
    + right. right. right. left. eauto 10.
    + right. right. right. right. left. exists sc. split_and!; [done..|by eexists|done|done].
    + right. right. right. right. right. left. split; [done|by eexists].
    + right. right. right. right. right. right. eauto 10.
Qed.

(** The thresholds of a kind for an instance come from the first enabled rule
    that names the instance, else from the first enabled rule for every
    instance, else they are the defaults. *)
Theorem RuleResolver_spec `{ParamsCodec} rules kind id :
  RuleResolver rules kind id =
  match List.find (names kind id) rules, List.find (covers kind) rules with
  | Some r, _ | None, Some r => DecodeParams (ruParams r)
  | None, None => noParams
  end.
Proof.
  unfold RuleResolver. rewrite resolver_prefer. by destruct (List.find (names kind id) rules), (List.find (covers kind) rules).
Qed.

(** Quiet hours are the arc of the day's circle from start to end, end
    excluded, midnight or not. *)
Theorem Quiet_arc `{Zones} r start end_ tz now m :
  QuietStart r = Some start -> QuietEnd r = Some end_ -> QuietTZ r = Some tz -> localMinutes tz now = Some m ->
  0 <= start < 1440 -> 0 <= end_ < 1440 -> 0 <= m < 1440 ->
  Quiet r now = true <-> (m - start) mod 1440 < (end_ - start) mod 1440.
Proof.
  intros Hs He Ht Hm Hsb Heb Hmb. unfold Quiet. rewrite Hs, He, Ht, Hm.
  assert (forall a, 0 <= a < 1440 -> (a - start) mod 1440 = if start <=? a then a - start else a - start + 1440) as Hmod.
  { intros a Ha. destruct (start <=? a) eqn:E; prop_bool.
    - apply Z.mod_small. lia.
    - rewrite <- (Z.mod_add _ 1) by lia. apply Z.mod_small. lia. }
  rewrite !Hmod by done.
  destruct (start <=? end_) eqn:E1, (start <=? m) eqn:E2, (m <? end_) eqn:E3; prop_bool; simpl; split; intros; try lia; done.
Qed.

(** ** Witnesses *)

Definition utcOnly : Zones :=
  {| localMinutes := fun tz now => if bool_decide (tz = "UTC") then Some ((now / Minute) mod 1440) else None |}.

(** A window from 22:00 to 06:00 covers 23:30. *)
Definition nightRule : AlertRule := mkRule "r" None KindCrashLoop "" (Some 1320) (Some 360) (Some "UTC") true [].

Lemma Quiet_arc_witness :
  @Quiet utcOnly nightRule (1410 * Minute) = true <-> (1410 - 1320) mod 1440 < (360 - 1320) mod 1440.
Proof. apply (@Quiet_arc utcOnly nightRule 1320 360 "UTC"); (reflexivity || (split; reflexivity || discriminate)). Defined.
