(* ===== verification/AlertStore.v ===== *)
(** The alert conditions the panel keeps (internal/store/alerts.go), the scan
    that reconciles them (internal/alerts/scan/scan.go) and the announcement
    of their edges (internal/notify/delivery/alerts.go).

    The evaluator's answer becomes the set of open rows; each rule announces
    each edge of a row at most once, a claim and its deliveries in one
    transaction. *)
From S2P Require Import Prelude GoBytes Kinds Lifecycle Sql Store AlertEval.
Open Scope string_scope.
Open Scope list_scope.
Open Scope Z_scope.

(** ** Tables *)

Record AlertCondition := mkRow {
  acID : string; acInstance : option string; acKind : string; acDetail : gmap string DetailValue;
  FirstSeenAt : Time; LastSeenAt : Time; ResolvedAt : option Time
}.

#[export] Instance AlertCondition_eq_dec : EqDecision AlertCondition.
Proof. solve_decision. Defined.

Record ObservedCondition := mkObserved { oKind : string; oInstance : option string; oDetail : gmap string DetailValue }.

Record ConditionDiff := mkDiff { Opened : list AlertCondition; Resolved : list AlertCondition }.

Inductive Edge := EdgeOpened | EdgeResolved.

#[export] Instance Edge_eq_dec : EqDecision Edge.
Proof. solve_decision. Defined.
#[export] Instance Edge_countable : Countable Edge.
Proof.
  apply (inj_countable' (fun e => match e with EdgeOpened => true | EdgeResolved => false end)
    (fun b => if b : bool then EdgeOpened else EdgeResolved)). by intros [].
Defined.

(** The columns of a delivery the claim writes; the rest is its rendering. *)
Record Delivery := mkDelivery { dID : string; dWebhook : string; dEvent : string; dPayload : string; dRule : string; dEdits : option string }.

(** One edge of one condition for one rule: the primary key of
    alert_notifications. *)
Abbreviation NoteKey := (string * string * Edge)%type.

Record AlertDB := mkAlertDB {
  known : gset string;                          (* instances.id, the foreign key's target *)
  conditions : gmap string AlertCondition;
  rules : list AlertRule;
  hooks : gset string;                          (* webhooks.id *)
  notifications : gmap NoteKey string;          (* the event the edge was sent as *)
  deliveries : gmap string Delivery
}.

Abbreviation ATx := (Sql.Tx AlertDB).
Abbreviation ATxS := (Sql.TxS AlertDB).

Definition withConditions (f : gmap string AlertCondition -> gmap string AlertCondition) (db : AlertDB) : AlertDB :=
  mkAlertDB (known db) (f (conditions db)) (rules db) (hooks db) (notifications db) (deliveries db).
Definition withNotifications (f : gmap NoteKey string -> gmap NoteKey string) (db : AlertDB) : AlertDB :=
  mkAlertDB (known db) (conditions db) (rules db) (hooks db) (f (notifications db)) (deliveries db).
Definition withDeliveries (f : gmap string Delivery -> gmap string Delivery) (db : AlertDB) : AlertDB :=
  mkAlertDB (known db) (conditions db) (rules db) (hooks db) (notifications db) (f (deliveries db)).

(** ** Reconciling (store/alerts.go) *)

Definition NUL : string := String (ascii_of_N 0) EmptyString.
Definition conditionKey (kind : string) (instanceID : option string) : string :=
  String.append kind (String.append NUL (deref instanceID)).
Definition rowKey (c : AlertCondition) : string := conditionKey (acKind c) (acInstance c).
Definition obsKey (o : ObservedCondition) : string := conditionKey (oKind o) (oInstance o).

(** [WHERE resolved_at IS NULL]; the order is the database's. *)
Definition openRows (db : AlertDB) : list AlertCondition :=
  filter (fun c => ResolvedAt c = None) (map snd (map_to_list (conditions db))).

(** What idx_alert_conditions_unique indexes. *)
Definition indexed (c : AlertCondition) : string * string * option Time := (acKind c, deref (acInstance c), ResolvedAt c).

(** Whether a row may be written beside the others. *)
Definition admits (db : AlertDB) (c : AlertCondition) : bool :=
  forallb (fun c' => bool_decide (acID c' = acID c) || negb (bool_decide (indexed c' = indexed c)))
    (map snd (map_to_list (conditions db))).

Definition instanceExists (db : AlertDB) (id : option string) : bool :=
  match id with None => true | Some i => bool_decide (i ∈ known db) end.

(** [UPDATE alert_conditions SET ... WHERE id = ?]. *)
Definition updateRow (id : string) (f : AlertCondition -> AlertCondition) : ATx unit :=
  stmt (fun db => match conditions db !! id with
                  | None => Ok (tt, db)
                  | Some c => if admits db (f c) then Ok (tt, withConditions <[id := f c]> db) else Err EUnique
                  end).

Definition insertRow (c : AlertCondition) : ATx unit :=
  stmt (fun db => if bool_decide (is_Some (conditions db !! acID c)) then Err EUnique
                  else if negb (admits db c) then Err EUnique
                  else if negb (instanceExists db (acInstance c)) then Err EConstraint
                  else Ok (tt, withConditions <[acID c := c]> db)).

Definition touch (detail : gmap string DetailValue) (now : Time) (c : AlertCondition) : AlertCondition :=
  mkRow (acID c) (acInstance c) (acKind c) detail (FirstSeenAt c) now (ResolvedAt c).
Definition resolveAt (now : Time) (c : AlertCondition) : AlertCondition :=
  mkRow (acID c) (acInstance c) (acKind c) (acDetail c) (FirstSeenAt c) (LastSeenAt c) (Some now).
Definition openedRow (newID : string) (o : ObservedCondition) (now : Time) : AlertCondition :=
  mkRow newID (oInstance o) (oKind o) (oDetail o) now now None.

Definition upsertCondition (newID : string) (o : ObservedCondition) (existing : option AlertCondition) (now : Time)
    : ATx (option AlertCondition) :=
  match existing with
  | Some c => let! _ := updateRow (acID c) (touch (oDetail o) now) in tret None
  | None => let! _ := insertRow (openedRow newID o now) in tret (Some (openedRow newID o now))
  end.

(** Open rows by key; a later row of the same key would win. *)
Definition byKeyOf (open : list AlertCondition) : gmap string AlertCondition :=
  fold_left (fun m c => <[rowKey c := c]> m) open ∅.

(** The loop over the observations: the keys seen and the rows opened. *)
Fixpoint upsertAll (newID : nat -> string) (byKey : gmap string AlertCondition) (now : Time) (n : nat)
    (observed : list ObservedCondition) (seen : gset string) (opened : list AlertCondition)
    : ATx (gset string * list AlertCondition) :=
  match observed with
  | [] => tret (seen, opened)
  | o :: observed =>
      if bool_decide (obsKey o ∈ seen) then upsertAll newID byKey now (S n) observed seen opened
      else let! row := upsertCondition (newID n) o (byKey !! obsKey o) now in
           upsertAll newID byKey now (S n) observed ({[obsKey o]} ∪ seen) (opened ++ option_list row)
  end.

Fixpoint resolveMissing (open : list AlertCondition) (seen : gset string) (now : Time) : ATx (list AlertCondition) :=
  match open with
  | [] => tret []
  | c :: open =>
      if bool_decide (rowKey c ∈ seen) then resolveMissing open seen now
      else let! _ := updateRow (acID c) (resolveAt now) in
           let! rest := resolveMissing open seen now in
           tret (resolveAt now c :: rest)
  end.

Definition openConditionsTx : ATx (list AlertCondition) := stmt (fun db => Ok (openRows db, db)).

Definition ReconcileConditions (newID : nat -> string) (observed : list ObservedCondition) (now : Time) : ATx ConditionDiff :=
  inTx (
    let! open := openConditionsTx in
    let! (seen, opened) := upsertAll newID (byKeyOf open) now 0 observed ∅ [] in
    let! resolved := resolveMissing open seen now in
    tret (mkDiff opened resolved)).

(** ** Announcing (store/alerts.go, notify/delivery/alerts.go) *)

(** The claim's INSERT OR IGNORE ... SELECT: a resolution needs the opening's
    row, a key already there is ignored; foreign keys still fail. *)
Definition markNotified (key : NoteKey) (event : string) : ATx bool :=
  stmt (fun db =>
    let '(cond, rule, edge) := key in
    if bool_decide (edge = EdgeOpened) || bool_decide (is_Some (notifications db !! (cond, rule, EdgeOpened))) then
      if bool_decide (is_Some (notifications db !! key)) then Ok (false, db)
      else if bool_decide (is_Some (conditions db !! cond)) && bool_decide (rule ∈ map ruID (rules db))
           then Ok (true, withNotifications <[key := event]> db) else Err EConstraint
    else Ok (false, db)).

Definition createDelivery (d : Delivery) : ATx unit :=
  stmt (fun db => if bool_decide (is_Some (deliveries db !! dID d)) then Err EUnique
                  else if bool_decide (dWebhook d ∈ hooks db) then Ok (tt, withDeliveries <[dID d := d]> db)
                  else Err EConstraint).

Fixpoint createDeliveries (ds : list Delivery) : ATx unit :=
  match ds with
  | [] => tret tt
  | d :: ds => let! _ := createDelivery d in createDeliveries ds
  end.

Definition MarkNotified (key : NoteKey) (event : string) (ds : list Delivery) : ATx bool :=
  inTx (let! claimed := markNotified key event in
        if claimed then let! _ := createDeliveries ds in tret true else tret false).

Definition NotifiedEvent (cond rule : string) (edge : Edge) : ATx string :=
  readq (fun db => default "" (notifications db !! (cond, rule, edge))).

(** Conditions resolved after [since] with a rule that announced the opening
    and not the resolution. *)
Definition unannounced (db : AlertDB) (since : Time) (c : AlertCondition) : bool :=
  match ResolvedAt c with
  | None => false
  | Some t => (since <? t) &&
      existsb (fun key : NoteKey => let '(cond, rule, edge) := key in
         bool_decide (cond = acID c) && bool_decide (edge = EdgeOpened) &&
         negb (bool_decide (is_Some (notifications db !! (cond, rule, EdgeResolved)))))
        (map fst (map_to_list (notifications db)))
  end.
Definition ResolvedUnannounced (since : Time) : ATx (list AlertCondition) :=
  readq (fun db => filter (fun c => unannounced db since c = true) (map snd (map_to_list (conditions db)))).
Definition OpenConditions : ATx (list AlertCondition) := readq openRows.

(** Rendering an edge for a rule: the new event's id and its unrecorded
    deliveries, or an error (the webhooks are unreadable). [resolves] is the
    event of the alert a resolution edits. *)
Class Composer := { compose : AlertRule -> AlertCondition -> Edge -> string -> Time -> option (string * list Delivery) }.

(** What the dispatcher was handed: the key and its deliveries. *)
Abbreviation Sent := (NoteKey * list Delivery)%type.

Definition clearanceHorizon : Z := 48 * Hour.

Section Dispatch.
Context `{Zones, Composer}.

(** One rule against one edge of one condition. *)
Definition announce (now : Time) (c : AlertCondition) (edge : Edge) (r : AlertRule) (s : ATxS) : list Sent * ATxS :=
  if negb (Matches r (acKind c) (acInstance c)) then ([], s)
  else if Quiet r now then ([], s)
  else
    let '(opened, s) := match edge with
                        | EdgeResolved => match NotifiedEvent (acID c) (ruID r) EdgeOpened s with
                                          | (Ok e, s) => (e, s)
                                          | (Err _, s) => ("", s)
                                          end
                        | EdgeOpened => ("", s)
                        end in
    match compose r c edge opened now with
    | None => ([], s)
    | Some (event, ds) =>
        match MarkNotified (acID c, ruID r, edge) event ds s with
        | (Ok true, s) => ([((acID c, ruID r, edge), ds)], s)
        | (_, s) => ([], s)
        end
    end.

Fixpoint announceAll (now : Time) (work : list (AlertCondition * Edge * AlertRule)) (s : ATxS) : list Sent * ATxS :=
  match work with
  | [] => ([], s)
  | (c, edge, r) :: work =>
      let '(sent, s) := announce now c edge r s in
      let '(rest, s) := announceAll now work s in
      (sent ++ rest, s)
  end.

Definition reopened (open : list AlertCondition) (c : AlertCondition) : bool :=
  existsb (fun o => bool_decide (acKind o = acKind c) && bool_decide (deref (acInstance o) = deref (acInstance c))) open.

Definition workOf (edge : Edge) (cs : list AlertCondition) (rs : list AlertRule) : list (AlertCondition * Edge * AlertRule) :=
  flat_map (fun c => map (fun r => (c, edge, r)) rs) cs.

(** [DispatchAlerts]: resolutions first, then openings; a failed read stops
    the dispatch, a failed claim only its own edge. *)
Definition DispatchAlerts (now : Time) (s : ATxS) : list Sent * ATxS :=
  match readq rules s with
  | (Err _, s) => ([], s)
  | (Ok [], s) => ([], s)
  | (Ok rs, s) =>
      match OpenConditions s with
      | (Err _, s) => ([], s)
      | (Ok open, s) =>
          match ResolvedUnannounced (now - clearanceHorizon) s with
          | (Err _, s) => ([], s)
          | (Ok resolved, s) =>
              let owed := filter (fun c => reopened open c = false) resolved in
              announceAll now (workOf EdgeResolved owed rs ++ workOf EdgeOpened open rs) s
          end
      end
  end.

End Dispatch.

(** ** The scan (alerts/scan/scan.go) *)

Definition observedOf (c : Condition) : ObservedCondition :=
  mkObserved (cKind c) (if bool_decide (cInstance c = "") then None else Some (cInstance c)) (cDetail c).

(** [Scan] after its reads: evaluate, reconcile at [now], dispatch at [now']. *)
Definition Scan `{Zones, Composer} (newID : nat -> string) (snap : Snapshot) (resolve : Resolver) (now now' : Time)
    (s : ATxS) : result TxErr ConditionDiff * list Sent * ATxS :=
  match ReconcileConditions newID (map observedOf (Evaluate snap (Some resolve))) now s with
  | (Err e, s) => (Err e, [], s)
  | (Ok diff, s) => let '(sent, s) := DispatchAlerts now' s in (Ok diff, sent, s)
  end.

(** ** Lemmas: reconciling *)

(** Rows are stored under their own id. *)
Definition keyed (db : AlertDB) : Prop := forall id c, conditions db !! id = Some c -> acID c = id.

(** What no write but a resolution changes of a row. *)
Definition identity (c : AlertCondition) : string * option string * string * Time :=
  (acID c, acInstance c, acKind c, FirstSeenAt c).
Definition same (c c' : AlertCondition) : Prop := identity c = identity c' /\ ResolvedAt c = ResolvedAt c'.

#[export] Instance same_preorder : PreOrder same.
Proof. unfold same. split; [done|]. intros x y z [? ?] [? ?]. split; congruence. Qed.

Lemma same_key c c' : identity c = identity c' -> rowKey c = rowKey c'.
Proof. unfold identity, rowKey. by intros [= _ -> -> _]. Qed.

Lemma openRows_elem db c : keyed db -> c ∈ openRows db <-> conditions db !! acID c = Some c /\ ResolvedAt c = None.
Proof.
  intros Hk. unfold openRows. rewrite list_elem_of_filter, list_elem_of_fmap. split.
  - intros (Hr & [id c'] & -> & Hin%elem_of_map_to_list). simpl in *. by rewrite (Hk _ _ Hin).
  - intros (Hc & Hr). split; [done|]. exists (acID c, c). by rewrite elem_of_map_to_list.
Qed.

Lemma updateRow_Ok id f s u s' : updateRow id f s = (Ok u, s') ->
  conditions s'.1 = match conditions s.1 !! id with None => conditions s.1 | Some c => <[id := f c]> (conditions s.1) end /\
  notifications s'.1 = notifications s.1 /\ deliveries s'.1 = deliveries s.1 /\ rules s'.1 = rules s.1.
Proof.
  intros [H _]%stmt_Ok. destruct (conditions s.1 !! id) as [c|]; [destruct (admits _ _); [|done]|]; by injection H as _ <-.
Qed.

Lemma insertRow_Ok c s u s' : insertRow c s = (Ok u, s') ->
  conditions s.1 !! acID c = None /\ s'.1 = withConditions <[acID c := c]> s.1.
Proof.
  intros [H _]%stmt_Ok. destruct (conditions s.1 !! acID c); [done|]. split; [done|].
  rewrite bool_decide_eq_false_2 in H by (by intros [? ?]). destruct (negb _); [done|]. destruct (negb _); [done|].
  by injection H as _ <-.
Qed.

Lemma byKeyOf_Some open k c : byKeyOf open !! k = Some c -> c ∈ open /\ rowKey c = k.
Proof.
  unfold byKeyOf. apply (fold_left_inv (fun m : gmap string AlertCondition => m !! k = Some c -> c ∈ open /\ rowKey c = k)).
  - done.
  - intros m x Hx IH [[<- ->]|[_ ?]]%lookup_insert_cases; auto.
Qed.

Lemma byKeyOf_None open k : byKeyOf open !! k = None -> forall c, c ∈ open -> rowKey c <> k.
Proof.
  intros Hn c Hc <-. apply list_elem_of_split in Hc as (l1 & l2 & ->). revert Hn. unfold byKeyOf.
  rewrite fold_left_app. simpl. intros Hn.
  assert (is_Some (fold_left (fun m x => <[rowKey x := x]> m) l2
    (<[rowKey c := c]> (fold_left (fun m x => <[rowKey x := x]> m) l1 (∅ : gmap string AlertCondition))) !! rowKey c)) as [x Hx].
  { apply (fold_left_inv (fun m : gmap string AlertCondition => is_Some (m !! rowKey c))).
    - rewrite lookup_insert_eq. by eexists.
    - intros m x _ Hm. apply lookup_insert_is_Some_cases. by right. }
  congruence.
Qed.

(** What the loop over the observations did. *)
Record upserted (byKey : gmap string AlertCondition) (now : Time) (keys : list string) (seen : gset string)
    (db db' : AlertDB) (new : list AlertCondition) : Prop := {
  up_kept id c : conditions db !! id = Some c -> exists c', conditions db' !! id = Some c' /\ same c c';
  up_untouched id c : conditions db !! id = Some c -> (forall k c0, byKey !! k = Some c0 -> acID c0 <> id) ->
    conditions db' !! id = Some c;
  up_from id c' : conditions db' !! id = Some c' -> (exists c, conditions db !! id = Some c /\ same c c') \/ c' ∈ new;
  up_new c : c ∈ new -> conditions db !! acID c = None /\ conditions db' !! acID c = Some c /\ ResolvedAt c = None /\
    FirstSeenAt c = now /\ rowKey c ∈ keys /\ rowKey c ∉ seen /\ byKey !! rowKey c = None;
  up_opened k : k ∈ keys -> k ∉ seen -> byKey !! k = None -> exists c, c ∈ new /\ rowKey c = k;
  up_keyed : keyed db';
  up_frame : notifications db' = notifications db /\ deliveries db' = deliveries db /\ rules db' = rules db
}.

Lemma upserted_skip byKey now k keys seen db db' new : k ∈ seen ->
  upserted byKey now keys seen db db' new -> upserted byKey now (k :: keys) seen db db' new.
Proof.
  intros Hk [H1 Hu H2 H3 H4 H5 H6]. split; try done.
  - intros c Hc. destruct (H3 _ Hc) as (? & ? & ? & ? & ? & ? & ?). split_and!; try done. by right.
  - intros k' [->|Hk']%elem_of_cons Hs Hb; [done|by apply H4].
Qed.

(** One observation, then the rest. *)
Lemma upserted_cons byKey now k keys seen db d1 db' new1 new :
  (forall k c, byKey !! k = Some c -> is_Some (conditions db !! acID c)) ->
  upserted byKey now [k] seen db d1 new1 -> upserted byKey now keys ({[k]} ∪ seen) d1 db' new ->
  upserted byKey now (k :: keys) seen db db' (new1 ++ new).
Proof.
  intros Hby [A1 Au A2 A3 A4 A5 A6] [B1 Bu B2 B3 B4 B5 B6].
  assert (forall c, c ∈ new1 -> conditions db' !! acID c = Some c) as Hst.
  { intros c Hc. destruct (A3 _ Hc) as (Hno & Hd1 & _). apply Bu; [done|].
    intros k' c0 Hc0 Heq. destruct (Hby _ _ Hc0) as [x Hx]. congruence. }
  split.
  - intros id c Hc. destruct (A1 _ _ Hc) as (c1 & Hc1 & Hs1). destruct (B1 _ _ Hc1) as (c2 & Hc2 & Hs2).
    exists c2. split; [done|]. by transitivity c1.
  - intros id c Hc Hn. by apply Bu; [apply Au|].
  - intros id c2 Hc2. rewrite elem_of_app. destruct (B2 _ _ Hc2) as [(c1 & Hc1 & Hs1)|Hn]; [|by auto].
    destruct (A2 _ _ Hc1) as [(c & Hc & Hs)|Hn].
    + left. exists c. split; [done|]. by transitivity c1.
    + right. left. pose proof (Hst _ Hn) as Hst1. rewrite (A5 _ _ Hc1), Hc2 in Hst1. by injection Hst1 as ->.
  - intros c [Hc|Hc]%elem_of_app.
    + destruct (A3 _ Hc) as (? & ? & ? & ? & ->%list_elem_of_singleton & ? & ?). split_and!; try done; [by apply Hst|left].
    + destruct (B3 _ Hc) as (Hno & ? & ? & ? & ? & Hs & ?). rewrite elem_of_union, elem_of_singleton in Hs.
      split_and!; try done; [|by right|tauto].
      destruct (conditions db !! acID c) as [c0|] eqn:E; [|done]. destruct (A1 _ _ E) as (? & ? & _). congruence.
  - intros k' Hk Hs Hb. destruct (decide (k' = k)) as [->|Hne].
    + destruct (A4 k) as (c & Hc & ?); [left|done|done|]. exists c. split; [apply elem_of_app; by left|done].
    + apply elem_of_cons in Hk as [->|Hk]; [done|]. destruct (B4 k') as (c & Hc & ?); [done| |done|].
      * rewrite elem_of_union, elem_of_singleton. tauto.
      * exists c. split; [apply elem_of_app; by right|done].
  - done.
  - destruct A6 as (? & ? & ?), B6 as (? & ? & ?). split_and!; congruence.
Qed.

Lemma upsertCondition_Ok byKey newID o now seen s r s' :
  keyed s.1 -> obsKey o ∉ seen -> upsertCondition newID o (byKey !! obsKey o) now s = (Ok r, s') ->
  upserted byKey now [obsKey o] seen s.1 s'.1 (option_list r).
Proof.
  intros Hk Hs. unfold upsertCondition. destruct (byKey !! obsKey o) as [c|] eqn:Hb.
  - intros (u & s1 & H1 & E)%tbind_Ok. injection E as <- <-. apply updateRow_Ok in H1 as (H1 & H2 & H3 & H4).
    assert (forall id x, conditions s.1 !! id = Some x -> id <> acID c -> conditions s1.1 !! id = Some x) as Hne.
    { intros id x Hx Hn. rewrite H1. destruct (conditions s.1 !! acID c); [|done]. by rewrite lookup_insert_ne. }
    assert (forall x, conditions s.1 !! acID c = Some x -> conditions s1.1 !! acID c = Some (touch (oDetail o) now x)) as Heq.
    { intros x Hx. by rewrite H1, Hx, lookup_insert_eq. }
    split; simpl.
    + intros id x Hx. destruct (decide (id = acID c)) as [->|Hn]; [|exists x; split; [by apply Hne|done]].
      eexists. split; [by apply Heq|done].
    + intros id x Hx Hn. apply Hne; [done|]. intros ->. by apply (Hn _ _ Hb).
    + intros id x Hx. left. rewrite H1 in Hx. destruct (conditions s.1 !! acID c) as [y|] eqn:Ey; [|by exists x].
      apply lookup_insert_cases in Hx as [[<- <-]|[_ Hx]]; [by exists y|by exists x].
    + by intros x ?%not_elem_of_nil.
    + intros k ->%list_elem_of_singleton _. congruence.
    + intros id x Hx. rewrite H1 in Hx. destruct (conditions s.1 !! acID c) as [y|] eqn:Ey; [|by apply Hk].
      apply lookup_insert_cases in Hx as [[<- <-]|[_ Hx]]; [exact (Hk _ _ Ey)|by apply Hk].
    + done.
  - intros (u & s1 & H1 & E)%tbind_Ok. injection E as <- <-. apply insertRow_Ok in H1 as (Hno & Hd). rewrite Hd.
    split; simpl.
    + intros id x Hx. exists x. split; [|done]. rewrite lookup_insert_ne; [done|]. intros <-. simpl in Hno. congruence.
    + intros id x Hx _. rewrite lookup_insert_ne; [done|]. intros <-. simpl in Hno. congruence.
    + intros id x [[_ <-]|[_ Hx]]%lookup_insert_cases; [right; left|left; by exists x].
    + intros x ->%list_elem_of_singleton. simpl. rewrite lookup_insert_eq. split_and!; try done. left.
    + intros k ->%list_elem_of_singleton _ _. eexists. split; [left|done].
    + intros id x [[<- <-]|[_ Hx]]%lookup_insert_cases; [done|by apply Hk].
    + done.
Qed.

Lemma upsertAll_Ok newID byKey now observed : forall n seen opened s seen' opened' s',
  keyed s.1 -> (forall k c, byKey !! k = Some c -> is_Some (conditions s.1 !! acID c)) ->
  upsertAll newID byKey now n observed seen opened s = (Ok (seen', opened'), s') ->
  (forall k, k ∈ seen' <-> k ∈ seen \/ k ∈ map obsKey observed) /\
  exists new, opened' = opened ++ new /\ upserted byKey now (map obsKey observed) seen s.1 s'.1 new.
Proof.
  induction observed as [|o observed IH]; intros n seen opened s seen' opened' s' Hk Hby; simpl.
  - intros [= <- <- <-]. split; [intros k; rewrite elem_of_nil; tauto|]. exists []. rewrite app_nil_r. split; [done|].
    split; try done; [intros id c Hc; by exists c|intros id c Hc; left; by exists c|by intros c ?%not_elem_of_nil|by intros k ?%not_elem_of_nil].
  - case_bool_decide as Hs.
    + intros E. destruct (IH _ _ _ _ _ _ _ Hk Hby E) as (Hkeys & new & -> & Hup). split.
      * intros k. rewrite Hkeys, elem_of_cons. naive_solver.
      * exists new. split; [done|]. by apply upserted_skip.
    + intros (r & s1 & H1 & E)%tbind_Ok. pose proof (upsertCondition_Ok byKey _ _ _ _ _ _ _ Hk Hs H1) as Hup1.
      destruct (IH _ _ _ _ _ _ _ (up_keyed _ _ _ _ _ _ _ Hup1)
        ltac:(intros k c Hc; destruct (Hby _ _ Hc) as [x Hx]; destruct (up_kept _ _ _ _ _ _ _ Hup1 _ _ Hx) as (y & Hy & _); by exists y) E)
        as (Hkeys & new & -> & Hup). split.
      * intros k. rewrite Hkeys, elem_of_cons, elem_of_union, elem_of_singleton. tauto.
      * exists (option_list r ++ new). split; [by rewrite app_assoc|]. by eapply upserted_cons.
Qed.

Lemma resolveMissing_Ok seen now open : forall s l s', resolveMissing open seen now s = (Ok l, s') ->
  l = map (resolveAt now) (filter (fun c => rowKey c ∉ seen) open) /\
  notifications s'.1 = notifications s.1 /\ deliveries s'.1 = deliveries s.1 /\ rules s'.1 = rules s.1 /\
  forall id, conditions s'.1 !! id =
    if bool_decide (id ∈ map acID (filter (fun c => rowKey c ∉ seen) open))
    then resolveAt now <$> conditions s.1 !! id else conditions s.1 !! id.
Proof.
  induction open as [|c open IH]; intros s l s'; simpl; [by intros [= <- <-]|].
  rewrite filter_cons. destruct (decide (rowKey c ∉ seen)) as [Hs|Hs].
  - rewrite bool_decide_eq_false_2 by done. intros (u & s1 & H1 & E)%tbind_Ok. apply tbind_Ok in E as (l1 & s2 & H2 & E).
    injection E as <- <-. destruct (IH _ _ _ H2) as (-> & Hn & Hd & Hr & Hc). apply updateRow_Ok in H1 as (H1 & Hn1 & Hd1 & Hr1).
    split; [done|]. split_and!; [congruence..|]. intros id. rewrite Hc, H1. cbn [map].
    destruct (decide (id = acID c)) as [->|Hne].
    + rewrite (bool_decide_eq_true_2 (acID c ∈ acID c :: _)) by left.
      destruct (conditions s.1 !! acID c) as [x|] eqn:Ex; [rewrite lookup_insert_eq|rewrite Ex]; by case_bool_decide.
    + assert (match conditions s.1 !! acID c with None => conditions s.1
        | Some c0 => <[acID c:=resolveAt now c0]> (conditions s.1) end !! id = conditions s.1 !! id) as ->
        by (destruct (conditions s.1 !! acID c); [by rewrite lookup_insert_ne|done]).
      rewrite (bool_decide_ext (id ∈ acID c :: _) (id ∈ map acID (filter (fun c => rowKey c ∉ seen) open))); [done|].
      rewrite elem_of_cons. naive_solver.
  - assert (rowKey c ∈ seen) as Hs' by (by apply dec_stable). rewrite bool_decide_eq_true_2 by done. apply IH.
Qed.

(** A committed reconciliation, as its two loops. *)
Lemma ReconcileConditions_Ok newID observed now s diff s' : keyed s.1 ->
  ReconcileConditions newID observed now s = (Ok diff, s') ->
  exists mid, upserted (byKeyOf (openRows s.1)) now (map obsKey observed) ∅ s.1 mid (Opened diff) /\
    Resolved diff = map (resolveAt now) (filter (fun c => rowKey c ∉ map obsKey observed) (openRows s.1)) /\
    notifications s'.1 = notifications mid /\ deliveries s'.1 = deliveries mid /\ rules s'.1 = rules mid /\
    forall id, conditions s'.1 !! id =
      if bool_decide (id ∈ map acID (filter (fun c => rowKey c ∉ map obsKey observed) (openRows s.1)))
      then resolveAt now <$> conditions mid !! id else conditions mid !! id.
Proof.
  intros Hk. unfold ReconcileConditions. intros (fs1 & s1 & E & ->)%inTx_Ok.
  apply tbind_Ok in E as (open & s2 & H1 & E). apply stmt_Ok in H1 as [H1 _]. simpl in H1. injection H1 as Ho H1. subst open.
  apply tbind_Ok in E as ([seen opened] & s3 & H2 & E). apply tbind_Ok in E as (l & s4 & H3 & E). injection E as <- <-.
  rewrite H1 in *.
  destruct (upsertAll_Ok newID (byKeyOf (openRows s2.1)) now observed _ _ _ _ _ _ _ Hk
    ltac:(intros k c [Hc _]%byKeyOf_Some; apply openRows_elem in Hc as [Hc _]; [by eexists|done]) H2) as (Hseen & new & -> & Hup).
  destruct (resolveMissing_Ok _ _ _ _ _ _ H3) as (-> & Hn & Hd & Hr & Hc).
  assert (filter (fun c => rowKey c ∉ seen) (openRows s2.1) =
          filter (fun c => rowKey c ∉ map obsKey observed) (openRows s2.1)) as Hf.
  { apply filter_iff_in. intros c _. rewrite Hseen, elem_of_empty. tauto. }
  exists s3.1. simpl. split_and!; try done; [by rewrite Hf|]. intros id. by rewrite Hc, Hf.
Qed.

(** ** Lemmas: announcing *)

(** The keys already claimed, and those a dispatch claims. *)
Definition claimed (db : AlertDB) (k : NoteKey) : Prop := is_Some (notifications db !! k).

Lemma markNotified_Ok k e s b s' : markNotified k e s = (Ok b, s') ->
  (b = false /\ s'.1 = s.1) \/
  (b = true /\ ~ claimed s.1 k /\ s'.1 = withNotifications <[k := e]> s.1 /\
   (k.2 = EdgeResolved -> claimed s.1 (k.1, EdgeOpened))).
Proof.
  intros [H _]%stmt_Ok. destruct k as [[cond rule] edge]. unfold claimed.
  destruct (bool_decide (edge = EdgeOpened) || _) eqn:Eo; [|left; by injection H as <- <-].
  destruct (bool_decide (is_Some (notifications s.1 !! (cond, rule, edge)))) eqn:Ec; [left; by injection H as <- <-|].
  destruct (_ && _); [|done]. injection H as <- <-. right. prop_bool. split_and!; try done. simpl. intros ->.
  by apply orb_true_iff in Eo as [?%bool_decide_eq_true|?%bool_decide_eq_true].
Qed.

Lemma createDeliveries_Ok ds : forall s u s', createDeliveries ds s = (Ok u, s') ->
  notifications s'.1 = notifications s.1 /\ conditions s'.1 = conditions s.1 /\ rules s'.1 = rules s.1 /\
  (forall d, d ∈ ds -> deliveries s'.1 !! dID d = Some d) /\
  (forall id d, deliveries s.1 !! id = Some d -> deliveries s'.1 !! id = Some d).
Proof.
  induction ds as [|d ds IH]; intros s u s'; simpl.
  - intros [= <- <-]. split_and!; try done. by intros d ?%not_elem_of_nil.
  - intros (v & s1 & H1 & E)%tbind_Ok. apply stmt_Ok in H1 as [H1 _].
    destruct (IH _ _ _ E) as (Hn & Hc & Hr & Hd & Hk).
    destruct (deliveries s.1 !! dID d) as [x|] eqn:Ed; [done|].
    rewrite bool_decide_eq_false_2 in H1 by (by intros [? ?]). destruct (bool_decide _); [|done]. injection H1 as _ H1.
    rewrite <- H1 in *. simpl in *. split_and!; try done.
    + intros d' [->|Hd']%elem_of_cons; [|by apply Hd]. apply Hk. by rewrite lookup_insert_eq.
    + intros id d' Hd'. apply Hk. rewrite lookup_insert_ne; [done|]. intros <-. congruence.
Qed.

(** A claim and its deliveries are written together, or nothing is. *)
Lemma MarkNotified_cases k e ds s r s' : MarkNotified k e ds s = (r, s') ->
  (r <> Ok true /\ s'.1 = s.1) \/
  (r = Ok true /\ ~ claimed s.1 k /\ notifications s'.1 = <[k := e]> (notifications s.1) /\
   (k.2 = EdgeResolved -> claimed s.1 (k.1, EdgeOpened)) /\ conditions s'.1 = conditions s.1 /\
   rules s'.1 = rules s.1 /\ (forall d, d ∈ ds -> deliveries s'.1 !! dID d = Some d) /\
   (forall id d, deliveries s.1 !! id = Some d -> deliveries s'.1 !! id = Some d)).
Proof.
  unfold MarkNotified. destruct r as [b|er]; [|intros H%inTx_Err; by left].
  intros (fs1 & s1 & E & ->)%inTx_Ok. apply tbind_Ok in E as (c & s2 & H1 & E).
  apply markNotified_Ok in H1 as [[-> Hs]|(-> & Hn & Hs & Ho)].
  - injection E as <- <-. left. by split.
  - apply tbind_Ok in E as (u & s3 & H2 & E). injection E as <- <-.
    destruct (createDeliveries_Ok _ _ _ _ H2) as (Hnn & Hc & Hr & Hd & Hk). rewrite Hs in *. simpl in *.
    right. split_and!; done.
Qed.

(** What a stretch of announcing may do to the tables, given what it sent. *)
Record announced (db db' : AlertDB) (sent : list Sent) : Prop := {
  an_keys k : claimed db' k <-> claimed db k \/ k ∈ map fst sent;
  an_fresh k : k ∈ map fst sent -> ~ claimed db k;
  an_once : NoDup (map fst sent);
  an_after l1 c r ds l2 : sent = l1 ++ ((c, r, EdgeResolved), ds) :: l2 ->
    claimed db (c, r, EdgeOpened) \/ (c, r, EdgeOpened) ∈ map fst l1;
  an_rows k ds d : (k, ds) ∈ sent -> d ∈ ds -> deliveries db' !! dID d = Some d;
  an_kept id d : deliveries db !! id = Some d -> deliveries db' !! id = Some d
}.

Lemma announced_refl db db' : notifications db' = notifications db -> deliveries db' = deliveries db -> announced db db' [].
Proof.
  intros Hn Hd. unfold claimed. split; unfold claimed; rewrite ?Hn, ?Hd; simpl.
  - intros k. rewrite elem_of_nil. tauto.
  - by intros k ?%not_elem_of_nil.
  - constructor.
  - by intros [].
  - by intros k ds d ?%not_elem_of_nil.
  - done.
Qed.

Lemma announced_trans db d1 db' sent1 sent2 : announced db d1 sent1 -> announced d1 db' sent2 ->
  announced db db' (sent1 ++ sent2).
Proof.
  intros [A1 A2 A3 A4 A5 A6] [B1 B2 B3 B4 B5 B6]. split.
  - intros k. rewrite B1, A1, map_app, elem_of_app. tauto.
  - intros k. rewrite map_app, elem_of_app. intros [Hk|Hk]; [by apply A2|]. intros Hc. apply (B2 _ Hk), A1. by left.
  - rewrite map_app. apply NoDup_app. split_and!; [done| |done]. intros k Hk Hk'. apply (B2 _ Hk'), A1. by right.
  - intros l1 c r ds l2 Heq. apply app_eq_inv in Heq as [(k & -> & Hk)|(k & -> & Hk)].
    + destruct k as [|x k]; simpl in Hk.
      * destruct (B4 [] c r ds l2) as [Hc|?%not_elem_of_nil]; [by rewrite Hk| |done].
        apply A1 in Hc as [?|?]; [by left|right]. by rewrite app_nil_r in *.
      * injection Hk as <- ->. by apply (A4 l1 c r ds k).
    + destruct (B4 k c r ds l2 Hk) as [Hc|Hc]; rewrite map_app, elem_of_app; [|tauto].
      apply A1 in Hc. tauto.
  - intros k ds d [Hk|Hk]%elem_of_app Hd; [by apply B6; eapply A5|by eapply B5].
  - intros id d Hd. by apply B6, A6.
Qed.

Lemma announced_shift db db' sent d0 : notifications d0 = notifications db -> deliveries d0 = deliveries db ->
  announced d0 db' sent -> announced db db' sent.
Proof. intros Hn Hd Ha. exact (announced_trans db d0 db' [] sent (announced_refl _ _ Hn Hd) Ha). Qed.

Section DispatchLemmas.
Context `{Zones, Composer}.

Lemma announce_announced now c edge r s sent s' : announce now c edge r s = (sent, s') -> announced s.1 s'.1 sent.
Proof.
  unfold announce. destruct (negb _); [intros [= <- <-]; by apply announced_refl|].
  destruct (Quiet r now); [intros [= <- <-]; by apply announced_refl|].
  destruct (match edge with EdgeOpened => _ | EdgeResolved => _ end) as [opened s1] eqn:E1.
  assert (s1.1 = s.1) as Hs1.
  { destruct edge; [by injection E1 as <- <-|].
    destruct (NotifiedEvent _ _ _ s) as [[e|e] s2] eqn:E2; apply readq_state in E2; by injection E1 as <- <-. }
  destruct (compose r c edge opened now) as [[ev ds]|]; [|intros [= <- <-]; rewrite <- Hs1; by apply announced_refl].
  destruct (MarkNotified _ ev ds s1) as [res s2] eqn:E2. apply MarkNotified_cases in E2 as [[Hr Hs2]|HE].
  - intros HE. assert (sent = [] /\ s' = s2) as [-> ->] by (destruct res as [[]|]; [done|by injection HE..]).
    rewrite <- Hs1, <- Hs2. by apply announced_refl.
  - destruct HE as (-> & Hn & Hnn & Ho & _ & _ & Hd & Hk). intros [= <- <-]. rewrite <- Hs1. unfold claimed in *.
    split; unfold claimed; simpl.
    + intros k. rewrite Hnn, list_elem_of_singleton, lookup_insert_is_Some_cases. naive_solver.
    + by intros k ->%list_elem_of_singleton.
    + apply NoDup_singleton.
    + intros [|x l1] c' r' ds' l2 Heq.
      * simpl in Heq. injection Heq as Hc Hr He -> <-. left. rewrite <- Hc, <- Hr. by apply Ho.
      * simpl in Heq. injection Heq as _ Heq. by destruct l1.
    + intros k ds' d [= -> ->]%list_elem_of_singleton Hin. by apply Hd.
    + done.
Qed.

Lemma announceAll_announced now work : forall s sent s',
  announceAll now work s = (sent, s') -> announced s.1 s'.1 sent.
Proof.
  induction work as [|[[c edge] r] work IH]; intros s sent s'; simpl; [intros [= <- <-]; by apply announced_refl|].
  destruct (announce now c edge r s) as [sent1 s1] eqn:E1. destruct (announceAll now work s1) as [sent2 s2] eqn:E2.
  intros [= <- <-]. apply announce_announced in E1. apply IH in E2. by eapply announced_trans.
Qed.

Lemma DispatchAlerts_announced now s sent s' : DispatchAlerts now s = (sent, s') -> announced s.1 s'.1 sent.
Proof.
  unfold DispatchAlerts. destruct (readq rules s) as [[[|r rs]|e] s1] eqn:E1; apply readq_state in E1;
    [intros [= <- <-]; rewrite E1; by apply announced_refl| |intros [= <- <-]; rewrite E1; by apply announced_refl].
  destruct (OpenConditions s1) as [[open|e] s2] eqn:E2; apply readq_state in E2;
    [|intros [= <- <-]; rewrite E2, E1; by apply announced_refl].
  destruct (ResolvedUnannounced _ s2) as [[resolved|e] s3] eqn:E3; apply readq_state in E3;
    [|intros [= <- <-]; rewrite E3, E2, E1; by apply announced_refl].
  intros HE%announceAll_announced. by rewrite E3, E2, E1 in HE.
Qed.

Lemma Scan_announced newID snap resolve now now' s res sent s' : keyed s.1 ->
  Scan newID snap resolve now now' s = (res, sent, s') -> announced s.1 s'.1 sent.
Proof.
  intros Hk. unfold Scan. destruct (ReconcileConditions _ _ now s) as [[diff|e] s1] eqn:E1.
  - destruct (DispatchAlerts now' s1) as [sent1 s2] eqn:E2. intros [= <- <- <-].
    destruct (ReconcileConditions_Ok _ _ _ _ _ _ Hk E1) as (mid & Hup & _ & Hn & Hd & _).
    destruct (up_frame _ _ _ _ _ _ _ Hup) as (Hn' & Hd' & _).
    apply (announced_shift _ _ _ s1.1); [congruence..|]. by apply DispatchAlerts_announced in E2.
  - intros [= <- <- <-]. apply inTx_Err in E1. rewrite E1. by apply announced_refl.
Qed.

(** Dispatching writes no condition. *)
Lemma announce_conditions now c edge r s sent s' : announce now c edge r s = (sent, s') -> conditions s'.1 = conditions s.1.
Proof.
  unfold announce. destruct (negb _); [by intros [= _ <-]|]. destruct (Quiet r now); [by intros [= _ <-]|].
  destruct (match edge with EdgeOpened => _ | EdgeResolved => _ end) as [opened s1] eqn:E1.
  assert (s1.1 = s.1) as Hs1.
  { destruct edge; [by injection E1 as <- <-|].
    destruct (NotifiedEvent _ _ _ s) as [[e|e] s2] eqn:E2; apply readq_state in E2; by injection E1 as <- <-. }
  destruct (compose r c edge opened now) as [[ev ds]|]; [|intros [= _ <-]; by rewrite Hs1].
  destruct (MarkNotified _ ev ds s1) as [res s2] eqn:E2. rewrite <- Hs1.
  apply MarkNotified_cases in E2 as [[Hr Hs2]|(-> & _ & _ & _ & Hc & _)].
  - intros HE. assert (s' = s2) as -> by (destruct res as [[]|]; [done|by injection HE..]). by rewrite Hs2.
  - by intros [= _ <-].
Qed.

Lemma announceAll_conditions now work : forall s sent s',
  announceAll now work s = (sent, s') -> conditions s'.1 = conditions s.1.
Proof.
  induction work as [|[[c edge] r] work IH]; intros s sent s'; simpl; [by intros [= _ <-]|].
  destruct (announce now c edge r s) as [sent1 s1] eqn:E1. destruct (announceAll now work s1) as [sent2 s2] eqn:E2.
  intros [= _ <-]. rewrite (IH _ _ _ E2). by eapply announce_conditions.
Qed.

Lemma DispatchAlerts_conditions now s sent s' : DispatchAlerts now s = (sent, s') -> conditions s'.1 = conditions s.1.
Proof.
  unfold DispatchAlerts. destruct (readq rules s) as [[[|r rs]|e] s1] eqn:E1; apply readq_state in E1;
    [intros [= _ <-]; by rewrite E1| |intros [= _ <-]; by rewrite E1].
  destruct (OpenConditions s1) as [[open|e] s2] eqn:E2; apply readq_state in E2; [|intros [= _ <-]; by rewrite E2, E1].
  destruct (ResolvedUnannounced _ s2) as [[resolved|e] s3] eqn:E3; apply readq_state in E3;
    [|intros [= _ <-]; by rewrite E3, E2, E1].
  intros HE%announceAll_conditions. by rewrite HE, E3, E2, E1.
Qed.

Lemma Reconcile_keyed newID observed now s res s' : keyed s.1 ->
  ReconcileConditions newID observed now s = (res, s') -> keyed s'.1.
Proof.
  intros Hk. destruct res as [diff|e]; intros E.
  - destruct (ReconcileConditions_Ok _ _ _ _ _ _ Hk E) as (mid & Hup & _ & _ & _ & _ & Hc). intros id c. rewrite Hc.
    pose proof (up_keyed _ _ _ _ _ _ _ Hup) as Hm. case_bool_decide; [|apply Hm].
    intros (x & Hx & ->)%fmap_Some. exact (Hm _ _ Hx).
  - apply inTx_Err in E. by rewrite E.
Qed.

(** The panel's alert machinery at large: scans, dispatches on their own,
    operators adding and editing rules, and the driver failing at will. *)
Inductive astep : ATxS * list Sent -> ATxS * list Sent -> Prop :=
| astep_scan newID snap resolve now now' s log res sent s' :
    Scan newID snap resolve now now' s = (res, sent, s') -> astep (s, log) (s', log ++ sent)
| astep_dispatch now s log sent s' : DispatchAlerts now s = (sent, s') -> astep (s, log) (s', log ++ sent)
| astep_rules rs db fs log : (forall r, r ∈ map ruID (rules db) -> r ∈ map ruID rs) ->
    astep ((db, fs), log)
      ((mkAlertDB (known db) (conditions db) rs (hooks db) (notifications db) (deliveries db), fs), log)
| astep_faults db fs fs' log : astep ((db, fs), log) ((db, fs'), log).

Lemma astep_announced w w' : keyed w.1.1 -> astep w w' ->
  keyed w'.1.1 /\ exists sent, w'.2 = w.2 ++ sent /\ announced w.1.1 w'.1.1 sent.
Proof.
  intros Hk Hst. revert Hk.
  destruct Hst as [newID snap resolve now now' s log res sent s' Hs|now s log sent s' Hs|rs db fs log _|db fs fs' log];
    cbn [fst snd]; intros Hk.
  - split; [|exists sent; split; [done|eapply Scan_announced; eassumption]]. revert Hs. unfold Scan.
    destruct (ReconcileConditions _ _ now s) as [[diff|e] s1] eqn:E1; apply (Reconcile_keyed _ _ _ _ _ _ Hk) in E1.
    + destruct (DispatchAlerts now' s1) as [sent1 s2] eqn:E2. intros [= _ _ <-]. apply DispatchAlerts_conditions in E2.
      unfold keyed. by rewrite E2.
    + by intros [= _ _ <-].
  - split; [|exists sent; split; [done|eapply DispatchAlerts_announced; eassumption]].
    apply DispatchAlerts_conditions in Hs. unfold keyed. by rewrite Hs.
  - split; [done|]. exists []. rewrite app_nil_r. split; [done|]. by apply announced_refl.
  - split; [done|]. exists []. rewrite app_nil_r. split; [done|]. by apply announced_refl.
Qed.

Lemma asteps_announced w w' : keyed w.1.1 -> rtc astep w w' ->
  exists sent, w'.2 = w.2 ++ sent /\ announced w.1.1 w'.1.1 sent.
Proof.
  intros Hk Hs. revert Hk. induction Hs as [w|w w1 w' Hst _ IH]; intros Hk.
  - exists []. rewrite app_nil_r. split; [done|]. by apply announced_refl.
  - destruct (astep_announced _ _ Hk Hst) as (Hk1 & sent1 & H1 & Ha1). destruct (IH Hk1) as (sent2 & H2 & Ha2).
    exists (sent1 ++ sent2). split; [|by eapply announced_trans]. rewrite app_assoc, H2. f_equal. exact H1.
Qed.

End DispatchLemmas.

(** ** Properties *)

(** A reconciliation makes the open conditions exactly the observed ones, or
    changes nothing. Opened are the newly observed keys, stored as reported
    and first seen now; resolved are the open rows no longer observed, closed
    now; an open row still observed stays the same row. *)
Theorem ReconcileConditions_spec newID observed now s : keyed s.1 ->
  match ReconcileConditions newID observed now s with
  | (Err _, s') => s'.1 = s.1
  | (Ok diff, s') =>
      let keys := map obsKey observed in
      (forall k, (exists c, c ∈ openRows s'.1 /\ rowKey c = k) <-> k ∈ keys) /\
      (forall k, (exists c, c ∈ Opened diff /\ rowKey c = k) <->
         k ∈ keys /\ ~ exists c, c ∈ openRows s.1 /\ rowKey c = k) /\
      (forall c, c ∈ Opened diff -> c ∈ openRows s'.1 /\ FirstSeenAt c = now) /\
      (forall c, c ∈ Resolved diff <-> exists c0, c0 ∈ openRows s.1 /\ rowKey c0 ∉ keys /\ c = resolveAt now c0) /\
      (forall c, c ∈ openRows s.1 -> exists c', conditions s'.1 !! acID c = Some c' /\ identity c' = identity c /\
         ResolvedAt c' = if bool_decide (rowKey c ∈ keys) then None else Some now)
  end.
Proof.
  intros Hk. destruct (ReconcileConditions newID observed now s) as [[diff|e] s'] eqn:E; [|by apply inTx_Err in E].
  pose proof (Reconcile_keyed _ _ _ _ _ _ Hk E) as Hk'.
  destruct (ReconcileConditions_Ok _ _ _ _ _ _ Hk E) as (mid & Hup & Hres & _ & _ & _ & Hc). cbv zeta.
  set (gone := filter (fun c => rowKey c ∉ map obsKey observed) (openRows s.1)) in *.
  assert (forall c, c ∈ gone <-> conditions s.1 !! acID c = Some c /\ ResolvedAt c = None /\ rowKey c ∉ map obsKey observed) as Hgone.
  { intros c. unfold gone. rewrite list_elem_of_filter, openRows_elem by done. tauto. }
  assert (forall c, c ∈ Opened diff -> c ∈ openRows s'.1) as Hnew.
  { intros c Hin. destruct (up_new _ _ _ _ _ _ _ Hup _ Hin) as (Hno & Hst & Hr & _). apply openRows_elem; [done|].
    split; [|done]. rewrite Hc. rewrite bool_decide_eq_false_2; [done|]. intros (c0 & Hid & Hg%Hgone)%list_elem_of_fmap.
    rewrite Hid in Hno. destruct Hg as [Hg _]. congruence. }
  assert (forall c, c ∈ openRows s.1 -> exists c', conditions s'.1 !! acID c = Some c' /\ identity c' = identity c /\
    ResolvedAt c' = if bool_decide (rowKey c ∈ map obsKey observed) then None else Some now) as Hold.
  { intros c Ho. pose proof Ho as [Hst Hr]%openRows_elem; [|done]. destruct (up_kept _ _ _ _ _ _ _ Hup _ _ Hst) as (x & Hx & [Hi Hrx]).
    rewrite Hc. destruct (decide (rowKey c ∈ map obsKey observed)) as [Hin|Hin].
    - exists x. rewrite (bool_decide_eq_true_2 (rowKey c ∈ _)) by done. rewrite bool_decide_eq_false_2; [split_and!; congruence|].
      intros (c0 & Hid & Hg%Hgone)%list_elem_of_fmap. destruct Hg as (Hg & _ & Hn). rewrite <- Hid, Hst in Hg. injection Hg as <-. done.
    - exists (resolveAt now x). rewrite (bool_decide_eq_false_2 (rowKey c ∈ _)) by done. rewrite bool_decide_eq_true_2.
      + rewrite Hx. split_and!; [done|by symmetry|done].
      + apply list_elem_of_fmap. exists c. split; [done|]. by apply Hgone. }
  split_and!; [| | | |done].
  - intros k. split.
    + intros (c & Ho & <-). apply openRows_elem in Ho as [Hst Hr]; [|done]. rewrite Hc in Hst.
      destruct (bool_decide _) eqn:Eg; [by apply fmap_Some in Hst as (x & _ & ->)|].
      destruct (up_from _ _ _ _ _ _ _ Hup _ _ Hst) as [(x & Hx & [Hi Hrx])|Hin].
      * apply dec_stable. intros Hn. apply bool_decide_eq_false in Eg. apply Eg, list_elem_of_fmap. exists x.
        pose proof (Hk _ _ Hx) as Hid. split; [by symmetry|]. apply Hgone. rewrite Hid. split_and!; [done|congruence|].
        by rewrite (same_key _ _ Hi).
      * by destruct (up_new _ _ _ _ _ _ _ Hup _ Hin) as (_ & _ & _ & _ & ? & _).
    + intros Hin. destruct (byKeyOf (openRows s.1) !! k) as [c|] eqn:Hb.
      * apply byKeyOf_Some in Hb as [Ho <-]. destruct (Hold _ Ho) as (c' & Hst & Hi & Hr). exists c'.
        rewrite bool_decide_eq_true_2 in Hr by done. split; [|by apply same_key].
        apply openRows_elem; [done|]. by rewrite (Hk' _ _ Hst).
      * destruct (up_opened _ _ _ _ _ _ _ Hup k) as (c & Hn & Hkey); [done|set_solver|done|]. exists c. split; [by apply Hnew|done].
  - intros k. split.
    + intros (c & Hin & <-). destruct (up_new _ _ _ _ _ _ _ Hup _ Hin) as (_ & _ & _ & _ & ? & _ & Hb). split; [done|].
      intros (c0 & Ho & Heq). by apply (byKeyOf_None _ _ Hb _ Ho).
    + intros [Hin Hno]. apply (up_opened _ _ _ _ _ _ _ Hup); [done|set_solver|].
      destruct (byKeyOf (openRows s.1) !! k) as [c|] eqn:Hb; [|done]. apply byKeyOf_Some in Hb as [Ho <-]. destruct Hno. by exists c.
  - intros c Hin. split; [by apply Hnew|]. by destruct (up_new _ _ _ _ _ _ _ Hup _ Hin) as (_ & _ & _ & ? & _).
  - intros c. rewrite Hres, list_elem_of_fmap. split.
    + intros (c0 & -> & Hg). exists c0. apply list_elem_of_filter in Hg as [? ?]. done.
    + intros (c0 & Ho & Hn & ->). exists c0. split; [done|]. by apply list_elem_of_filter.
Qed.

(** C29. Whatever scans and dispatches run, in whatever order, with rules added or
    edited between them and any statement failing: no edge of a condition is
    ever announced twice to a rule, a resolution is only announced after that
    rule announced the opening, and everything handed to the dispatcher has
    its delivery recorded. *)
Theorem edges_announced_once `{Zones, Composer} db fs s log :
  keyed db -> rtc astep ((db, fs), []) (s, log) ->
  NoDup (map fst log) /\
  (forall k, k ∈ map fst log -> ~ claimed db k /\ claimed s.1 k) /\
  (forall l1 c r ds l2, log = l1 ++ ((c, r, EdgeResolved), ds) :: l2 ->
     claimed db (c, r, EdgeOpened) \/ (c, r, EdgeOpened) ∈ map fst l1) /\
  (forall k ds d, (k, ds) ∈ log -> d ∈ ds -> deliveries s.1 !! dID d = Some d).
Proof.
  intros Hk Hs. destruct (asteps_announced (db, fs, []) (s, log) Hk Hs) as (sent & Heq & [A1 A2 A3 A4 A5 A6]). simpl in *. subst sent.
  split_and!; try done. intros k Hin. split; [by apply A2|]. apply A1. by right.
Qed.

(** ** Witnesses *)

Definition aRule : AlertRule := mkRule "r1" None KindLowDisk "" None None None true ["w1"].
Definition emptyAlertDB : AlertDB := mkAlertDB {["i1"]} ∅ [aRule] {["w1"]} ∅ ∅.
Definition lowObserved : ObservedCondition := mkObserved KindLowDisk None ∅.
Definition idAt (n : nat) : string := if bool_decide (n = 0%nat) then "c0" else "c1".
Definition plainComposer : Composer :=
  {| compose := fun r c e _ _ =>
       let id := if bool_decide (e = EdgeOpened) then "e-open" else "e-done" in
       Some (id, [mkDelivery id "w1" id "" (ruID r) None]) |}.

Lemma emptyAlertDB_keyed : keyed emptyAlertDB.
Proof. by intros id c. Qed.

Lemma ReconcileConditions_spec_witness :
  match ReconcileConditions idAt [lowObserved; lowObserved] 5 (emptyAlertDB, []) with
  | (Ok diff, s') => exists c, c ∈ openRows s'.1 /\ rowKey c = obsKey lowObserved
  | (Err _, _) => False
  end.
Proof.
  pose proof (ReconcileConditions_spec idAt [lowObserved; lowObserved] 5 (emptyAlertDB, []) emptyAlertDB_keyed) as H.
  destruct (ReconcileConditions idAt [lowObserved; lowObserved] 5 (emptyAlertDB, [])) as [[diff|e] s'] eqn:E; [|by vm_compute in E].
  destruct H as (H & _). apply H. left.
Defined.

Definition lowSnapshot (free : Z) : Snapshot := mkSnapshot [] [] [] [] [] ∅ ∅ ∅ ∅ ∅ free 10 0.

Lemma edges_announced_once_witness : exists s log,
  rtc (@astep utcOnly plainComposer) ((emptyAlertDB, []), []) (s, log) /\ length log = 2%nat /\ NoDup (map fst log).
Proof.
  destruct (@Scan utcOnly plainComposer idAt (lowSnapshot 5) (fun _ _ => noParams) 1 2 (emptyAlertDB, [])) as [[r1 sent1] s1] eqn:E1.
  destruct (@Scan utcOnly plainComposer idAt (lowSnapshot 50) (fun _ _ => noParams) 3 4 s1) as [[r2 sent2] s2] eqn:E2.
  assert (rtc (@astep utcOnly plainComposer) ((emptyAlertDB, []), []) (s2, ([] ++ sent1) ++ sent2)) as Hs.
  { eapply rtc_l; [by eapply astep_scan; exact E1|]. eapply rtc_l; [by eapply astep_scan; exact E2|]. apply rtc_refl. }
  exists s2, (([] ++ sent1) ++ sent2). split; [exact Hs|]. split.
  - vm_compute in E1. injection E1 as <- <- <-. vm_compute in E2. by injection E2 as <- <- <-.
  - apply (@edges_announced_once utcOnly plainComposer emptyAlertDB [] s2 _ emptyAlertDB_keyed Hs).
Defined.
