(* ===== verification/Sched.v ===== *)
(** internal/scheduler: when a schedule fires next (NextRun), the tick that
    enqueues what is due, holds a run while players are on, warns them and
    advances each row (scheduler.go), with the rows it reads and writes
    (internal/store/schedules.go, kv.go). *)
From S2P Require Import Prelude GoBytes Kinds Lifecycle Sql.
Open Scope string_scope.
Open Scope list_scope.
Open Scope Z_scope.

(** ** Occurrences (NextRun)

    Instants are nanoseconds. A zone is its offset at each instant; a wall
    clock reading is the instant plus the offset. *)

Abbreviation Time := Z (only parsing).
Abbreviation Zone := (Z -> Z) (only parsing).

(** The host's zone database and the third-party cron parser: a parsed
    expression answers its next firing after an instant, on a zone's clock. *)
Class TimeEnv := {
  LoadLocation : string -> option Zone;
  ParseStandard : string -> option (Zone -> Time -> option Time)
}.

(** An expression fires strictly later than it is asked from, and one that
    fires goes on firing. *)
Class CronLaws `{TimeEnv} : Prop := {
  cron_later expr sched z t n : ParseStandard expr = Some sched -> sched z t = Some n -> t < n;
  cron_again expr sched z t n : ParseStandard expr = Some sched -> sched z t = Some n -> is_Some (sched z n)
}.

(** The zero [time.Time]: 0001-01-01T00:00:00Z. *)
Definition zeroTime : Time := - 62135596800 * 10 ^ 9.

Definition Minute : Z := 60 * 10 ^ 9.
Definition wall (z : Zone) (t : Time) : Z := t + z t.
Definition wallMinute (z : Zone) (t : Time) : Z := wall z t / Minute.

(** [time.Date] for a wall clock reading in a zone. *)
Definition dateIn (z : Zone) (w : Z) : Time :=
  let offset := z w in if offset =? 0 then w else w - z (w - offset).

Definition sameWallClock (z : Zone) (a b : Time) : bool := wallMinute z a =? wallMinute z b.

Section Occurrences.
Context `{TimeEnv}.

Definition NextRun (expr zone : string) (after : Time) (last : option Time) : option Time :=
  match LoadLocation zone with
  | None => None
  | Some z =>
      match ParseStandard expr with
      | None => None
      | Some sched =>
          match sched z after with
          | None => None
          | Some next0 =>
              let next := match last with
                          | Some l => if sameWallClock z next0 l then default zeroTime (sched z next0) else next0
                          | None => next0
                          end in
              let offset := z after in
              let fixed := fun _ : Time => offset in
              match sched fixed after with
              | None => Some next
              | Some early =>
                  if early <? next then
                    let m := wallMinute fixed early in
                    let inLoc := dateIn z (m * Minute) in
                    if negb (wallMinute z inLoc mod 1440 =? m mod 1440) && (after <? early) then Some early else Some next
                  else Some next
              end
          end
      end
  end.

Lemma NextRun_later `{!CronLaws} expr zone after last n : NextRun expr zone after last = Some n -> after < n.
Proof.
  unfold NextRun. destruct (LoadLocation zone) as [z|]; [|done].
  destruct (ParseStandard expr) as [sched|] eqn:Hp; [|done].
  destruct (sched z after) as [n0|] eqn:E0; [|done]. pose proof (cron_later _ _ _ _ _ Hp E0) as Hn0.
  set (next := match last with Some _ => _ | None => _ end).
  assert (after < next) as Hnext.
  { unfold next. destruct last as [l|]; [destruct (sameWallClock z n0 l)|]; [|done..].
    pose proof (cron_again _ _ _ _ _ Hp E0) as Hagain. destruct (sched z n0) as [n1|] eqn:E1; [|by apply is_Some_None in Hagain].
    pose proof (cron_later _ _ _ _ _ Hp E1). simpl. lia. }
  clearbody next. destruct (sched (fun _ => z after) after) as [early|]; [|by intros [= <-]].
  destruct (early <? next); [|by intros [= <-]]. destruct (negb _ && (after <? early)) eqn:E; intros [= <-]; [|done]. by prop_bool.
Qed.

End Occurrences.

(** ** Rows (store/schedules.go) *)

Record Schedule := mkSchedule {
  ID : string; InstanceID : option string; Kind : string; Cron : string; Timezone : string;
  Enabled : bool; LastRunAt : option Time; NextRunAt : option Time;
  WaitForEmpty : bool; MaxDeferral : Z; DeferredSince : option Time
}.

#[export] Instance Schedule_eq_dec : EqDecision Schedule.
Proof. solve_decision. Defined.

Record SchedDB := mkSchedDB { rows : gmap string Schedule; kv : gmap string Time }.
Abbreviation STx := (Sql.Tx SchedDB).
Abbreviation STxS := (Sql.TxS SchedDB).

Definition withRows (f : gmap string Schedule -> gmap string Schedule) (db : SchedDB) : SchedDB :=
  mkSchedDB (f (rows db)) (kv db).

Definition dueAt (now : Time) (s : Schedule) : bool :=
  Enabled s && match NextRunAt s with None => true | Some t => t <=? now end.

(** NULLs sort first. *)
Definition due_le (a b : Schedule) : Prop :=
  match NextRunAt a, NextRunAt b with
  | None, None => String.le (ID a) (ID b)
  | None, Some _ => True
  | Some _, None => False
  | Some x, Some y => x < y \/ (x = y /\ String.le (ID a) (ID b))
  end.
#[export] Instance due_le_dec a b : Decision (due_le a b).
Proof. unfold due_le. destruct (NextRunAt a), (NextRunAt b); apply _. Defined.

Definition DueSchedules (now : Time) : STx (list Schedule) :=
  readq (fun db => merge_sort due_le (filter (fun s => dueAt now s = true) (map snd (map_to_list (rows db))))).

Definition ScheduleByID (id : string) : STx (option Schedule) := readq (fun db => rows db !! id).

Definition advance (lastRunAt nextRunAt : Time) (s : Schedule) : Schedule :=
  mkSchedule (ID s) (InstanceID s) (Kind s) (Cron s) (Timezone s) (Enabled s) (Some lastRunAt) (Some nextRunAt)
    (WaitForEmpty s) (MaxDeferral s) None.
Definition deferFrom (since : Time) (s : Schedule) : Schedule :=
  mkSchedule (ID s) (InstanceID s) (Kind s) (Cron s) (Timezone s) (Enabled s) (LastRunAt s) (NextRunAt s)
    (WaitForEmpty s) (MaxDeferral s) (Some since).

(** [UPDATE ... WHERE id = ? AND next_run_at IS ?]. *)
Definition MarkScheduleRun (id : string) (read : option Time) (lastRunAt nextRunAt : Time) : STx unit :=
  writeq (withRows (alter (fun s => if bool_decide (NextRunAt s = read) then advance lastRunAt nextRunAt s else s) id)).

Definition DeferSchedule (id : string) (since : Time) : STx unit :=
  writeq (withRows (alter (fun s => if bool_decide (DeferredSince s = None) then deferFrom since s else s) id)).

Definition KVSet (key : string) (t : Time) : STx unit :=
  writeq (fun db => mkSchedDB (rows db) (<[key := t]> (kv db))).
Definition KVGet (key : string) : STx (option Time) := readq (fun db => kv db !! key).

(** ** The clock (scheduler.go) *)

(** What a send was started for: the notice of a hold, or the final warning of
    the hold that ends at a deadline. *)
Inductive Tag := TagHold | TagDeadline (deadline : Time).
#[export] Instance Tag_eq_dec : EqDecision Tag.
Proof. solve_decision. Defined.

(** [sends]: at most one running per key, and the outcome of the last. *)
Record Sends (T : Type) := mkSends { running : gset string; done_ : gmap string (T * bool) }.
Arguments mkSends {T} running done_.
Arguments running {T} s.
Arguments done_ {T} s.

Definition sendStart {T} (key : string) (w : Sends T) : bool * Sends T :=
  if bool_decide (key ∈ running w) then (false, w) else (true, mkSends ({[key]} ∪ running w) (done_ w)).
Definition sendFinish {T} (key : string) (tag : T) (delivered : bool) (w : Sends T) : Sends T :=
  mkSends (running w ∖ {[key]}) (<[key := (tag, delivered)]> (done_ w)).
Definition sendTake {T} (key : string) (w : Sends T) : option (T * bool) * Sends T :=
  (done_ w !! key, mkSends (running w) (delete key (done_ w))).

(** The scheduler with the tables it works on. [warned] holds [None] where the
    table had no deadline for the schedule. *)
Record Clock := mkClock { tables : STxS; warned : gmap string (option Time); sends : Sends Tag }.

Definition withTables (s : STxS) (c : Clock) : Clock := mkClock s (warned c) (sends c).
Definition withWarned (w : gmap string (option Time)) (c : Clock) : Clock := mkClock (tables c) w (sends c).
Definition withSends (w : Sends Tag) (c : Clock) : Clock := mkClock (tables c) (warned c) w.

(** What the clock did, as its hooks see it. *)
Inductive Event :=
| Enqueued (id : string) (at_ next : Time) (advanced : bool)
| HeldHook (id : string)
| WarnSent (id : string) (tag : Tag) (left : Z).

#[export] Instance Event_eq_dec : EqDecision Event.
Proof. solve_decision. Defined.

(** The hooks: [Enqueue] works on the tables as it likes, and an operator's
    edit that lands meanwhile is part of its effect; [Occupied] is [None] when
    the scheduler has none. *)
Class Hooks := {
  Enqueue : Schedule -> SchedDB -> SchedDB;
  Occupied : option (Time -> Schedule -> bool);
  hasWarn : bool
}.

Definition FinalWarning : Z := 5 * Minute.
Definition warnedKey (id : string) : string := String.append "schedule_final_warning:" id.

Section Clock.
Context `{TimeEnv, Hooks}.

Definition runTx {A} (m : STx A) (c : Clock) : result TxErr A * Clock :=
  let '(r, s) := m (tables c) in (r, withTables s c).

Definition markWarned (id : string) (deadline : Time) (c : Clock) : Clock :=
  (runTx (KVSet (warnedKey id) deadline) (withWarned (<[id := Some deadline]> (warned c)) c)).2.

Definition warnedFor (id : string) (c : Clock) : option Time * Clock :=
  match warned c !! id with
  | Some at_ => (at_, c)
  | None =>
      let '(r, c) := runTx (KVGet (warnedKey id)) c in
      let at_ := match r with Ok (Some t) => Some t | _ => None end in
      (at_, withWarned (<[id := at_]> (warned c)) c)
  end.

Definition startSend (id : string) (tag : Tag) (left : Z) (c : Clock) : list Event * Clock :=
  let '(started, w) := sendStart id (sends c) in
  (if started then [WarnSent id tag left] else [], withSends w c).

Definition finalWarning (sc : Schedule) (since now : Time) (c : Clock) : list Event * Clock :=
  if negb hasWarn then ([], c)
  else
    let deadline := since + MaxDeferral sc in
    let '(r, w) := sendTake (ID sc) (sends c) in
    let c := withSends w c in
    if match r with Some (tag, delivered) => delivered && bool_decide (tag = TagDeadline deadline) | None => false end
    then ([], markWarned (ID sc) deadline c)
    else
      let left := deadline - now in
      if FinalWarning <? left then ([], c)
      else let '(at_, c) := warnedFor (ID sc) c in
           if bool_decide (at_ = Some deadline) then ([], c) else startSend (ID sc) (TagDeadline deadline) left c.

(** Whether a due run waits, and what that did. *)
Definition hold (sc : Schedule) (now : Time) (c : Clock) : bool * list Event * Clock :=
  match WaitForEmpty sc, Occupied with
  | true, Some occupied =>
      if match DeferredSince sc with Some since => since + MaxDeferral sc <=? now | None => false end then (false, [], c)
      else if negb (occupied now sc) then (false, [], c)
      else match DeferredSince sc with
           | Some since => let '(evs, c) := finalWarning sc since now c in (true, evs, c)
           | None =>
               match runTx (DeferSchedule (ID sc) now) c with
               | (Err _, c) => (true, [], c)
               | (Ok _, c) =>
                   let '(evs, c) := if hasWarn then startSend (ID sc) TagHold (MaxDeferral sc) c else ([], c) in
                   let c := if MaxDeferral sc <=? FinalWarning then markWarned (ID sc) (now + MaxDeferral sc) c else c in
                   (true, HeldHook (ID sc) :: evs, c)
               end
           end
  | _, _ => (false, [], c)
  end.

(** The tick's copy against the row as it is now. *)
Definition sameRow (fresh sc : Schedule) : bool :=
  Enabled fresh && bool_decide (Cron fresh = Cron sc) && bool_decide (Timezone fresh = Timezone sc) &&
  bool_decide (NextRunAt fresh = NextRunAt sc).

Definition stillDue (sc : Schedule) (c : Clock) : bool * Clock :=
  match runTx (ScheduleByID (ID sc)) c with
  | (Ok (Some fresh), c) => (sameRow fresh sc, c)
  | (_, c) => (false, c)
  end.

Definition enqueue (sc : Schedule) (c : Clock) : Clock :=
  withTables (Enqueue sc (tables c).1, (tables c).2) c.

Definition fire (now : Time) (sc : Schedule) (c : Clock) : list Event * Clock :=
  match NextRun (Cron sc) (Timezone sc) now (NextRunAt sc) with
  | None => ([], c)
  | Some next =>
      match NextRunAt sc with
      | None => ([], (runTx (MarkScheduleRun (ID sc) None now next) c).2)
      | Some read =>
          let '(held, evs, c) := hold sc now c in
          if held then (evs, c)
          else
            let '(due, c) := stillDue sc c in
            if negb due then ([], c)
            else
              let c := enqueue sc c in
              match runTx (MarkScheduleRun (ID sc) (Some read) now next) c with
              | (Err _, c) => ([Enqueued (ID sc) now next false], c)
              | (Ok _, c) =>
                  if bool_decide (is_Some (DeferredSince sc))
                  then ([Enqueued (ID sc) now next true; HeldHook (ID sc)], withWarned (delete (ID sc) (warned c)) c)
                  else ([Enqueued (ID sc) now next true], c)
              end
      end
  end.

Fixpoint fireAll (now : Time) (due : list Schedule) (c : Clock) : list Event * Clock :=
  match due with
  | [] => ([], c)
  | sc :: due =>
      let '(evs, c) := fire now sc c in
      let '(rest, c) := fireAll now due c in
      (evs ++ rest, c)
  end.

Definition Tick (now : Time) (c : Clock) : list Event * Clock :=
  match runTx (DueSchedules now) c with
  | (Err _, c) => ([], c)
  | (Ok due, c) => fireAll now due c
  end.


(** The clock at large: ticks at times that never go back, sends that end at
    any moment, and a driver that fails at will. *)
Inductive cstep : Time * Clock * list Event -> Time * Clock * list Event -> Prop :=
| cstep_tick t now c log evs c' : t <= now -> Tick now c = (evs, c') -> cstep (t, c, log) (now, c', log ++ evs)
| cstep_sent t c log id tag delivered : id ∈ running (sends c) ->
    cstep (t, c, log) (t, withSends (sendFinish id tag delivered (sends c)) c, log)
| cstep_faults t c log fs : cstep (t, c, log) (t, withTables ((tables c).1, fs) c, log).

(** Jobs are submitted without touching the schedules. *)
Class EnqueueFrame : Prop := enqueue_rows : forall sc db, rows (Enqueue sc db) = rows db.

(** ** Lemmas *)

Definition keyedRows (db : SchedDB) : Prop := forall id s, rows db !! id = Some s -> ID s = id.

(** The tables' rows, whatever else a step changed. *)
Definition rowsOf (c : Clock) : gmap string Schedule := rows (tables c).1.

Lemma runTx_readq {A} (f : SchedDB -> A) c r c' : runTx (readq f) c = (r, c') ->
  rowsOf c' = rowsOf c /\ forall a, r = Ok a -> a = f (tables c).1.
Proof.
  unfold runTx. destruct (readq f (tables c)) as [r0 s] eqn:E. intros [= <- <-]. unfold rowsOf. simpl. split.
  - by rewrite (readq_state _ _ _ _ E).
  - intros a ->. by apply readq_Ok in E as [-> _].
Qed.

Lemma runTx_writeq (f : SchedDB -> SchedDB) c r c' : runTx (writeq f) c = (r, c') ->
  (r = Ok tt /\ rowsOf c' = rows (f (tables c).1)) \/ ((exists e, r = Err e) /\ rowsOf c' = rowsOf c).
Proof.
  unfold runTx. destruct (writeq f (tables c)) as [r0 s] eqn:E. intros [= <- <-]. unfold rowsOf. simpl.
  apply writeq_cases in E as [[-> ->]|[He ->]]; [by left|by right].
Qed.

Lemma markWarned_rows id d c : rowsOf (markWarned id d c) = rowsOf c.
Proof.
  unfold markWarned, KVSet. destruct (runTx _ _) as [r c'] eqn:E. cbn [snd]. by apply runTx_writeq in E as [[_ E]|[_ E]]; rewrite E.
Qed.

Lemma startSend_rows id tag left c : rowsOf (startSend id tag left c).2 = rowsOf c.
Proof. unfold startSend. by destruct (sendStart _ _). Qed.

Lemma warnedFor_rows id c : rowsOf (warnedFor id c).2 = rowsOf c.
Proof.
  unfold warnedFor, KVGet. destruct (warned c !! id); [done|]. destruct (runTx _ c) as [r c'] eqn:E.
  apply runTx_readq in E as [E _]. exact E.
Qed.

Lemma finalWarning_rows sc since now c : rowsOf (finalWarning sc since now c).2 = rowsOf c.
Proof.
  unfold finalWarning. destruct (negb hasWarn); [done|]. destruct (sendTake _ _) as [r w].
  destruct (match r with Some _ => _ | None => _ end); [by simpl; rewrite markWarned_rows|].
  destruct (FinalWarning <? _); [done|]. destruct (warnedFor _ _) as [at_ c1] eqn:E.
  pose proof (warnedFor_rows (ID sc) (withSends w c)) as Hr. rewrite E in Hr. simpl in Hr.
  case_bool_decide; simpl; [done|]. by rewrite startSend_rows.
Qed.

Lemma startSend_events id tag left c e : e ∈ (startSend id tag left c).1 -> e = WarnSent id tag left.
Proof. unfold startSend. destruct (sendStart _ _) as [[] w]; simpl; [by intros ->%list_elem_of_singleton|by intros ?%not_elem_of_nil]. Qed.

(** No hold enqueues anything. *)
Definition isEnqueued (e : Event) : bool := match e with Enqueued _ _ _ _ => true | _ => false end.

Lemma finalWarning_events sc since now c e : e ∈ (finalWarning sc since now c).1 -> isEnqueued e = false.
Proof.
  unfold finalWarning. destruct (negb hasWarn); [by intros ?%not_elem_of_nil|]. destruct (sendTake _ _) as [r w].
  destruct (match r with Some _ => _ | None => _ end); [by intros ?%not_elem_of_nil|].
  destruct (FinalWarning <? _); [by intros ?%not_elem_of_nil|]. destruct (warnedFor _ _) as [at_ c1].
  case_bool_decide; [by intros ?%not_elem_of_nil|]. by intros ->%startSend_events.
Qed.

(** What [hold] may do to the rows: start the hold of its own row. *)
Lemma hold_rows sc now c b evs c' : hold sc now c = (b, evs, c') ->
  (forall e, e ∈ evs -> isEnqueued e = false) /\
  (rowsOf c' = rowsOf c \/
   (b = true /\ rowsOf c' = alter (fun s => if bool_decide (DeferredSince s = None) then deferFrom now s else s) (ID sc) (rowsOf c))).
Proof.
  unfold hold. destruct (WaitForEmpty sc), Occupied as [occ|];
    try (intros [= _ <- <-]; split; [by intros e ?%not_elem_of_nil|by left]).
  destruct (match DeferredSince sc with Some _ => _ | None => _ end); [intros [= _ <- <-]; split; [by intros e ?%not_elem_of_nil|by left]|].
  destruct (negb _); [intros [= _ <- <-]; split; [by intros e ?%not_elem_of_nil|by left]|].
  destruct (DeferredSince sc) as [since|].
  - pose proof (finalWarning_rows sc since now c) as Hr. pose proof (finalWarning_events sc since now c) as He.
    destruct (finalWarning sc since now c) as [evs1 c1]. intros [= <- <- <-]. split; [done|by left].
  - unfold DeferSchedule. destruct (runTx _ c) as [r c1] eqn:E. apply runTx_writeq in E as [[-> Hr]|[[e ->] Hr]].
    2:{ intros [= _ <- <-]. split; [by intros x ?%not_elem_of_nil|by left]. }
    pose proof (startSend_rows (ID sc) TagHold (MaxDeferral sc) c1) as Hs.
    pose proof (startSend_events (ID sc) TagHold (MaxDeferral sc) c1) as He.
    destruct (if hasWarn then _ else _) as [evs1 c2] eqn:Ew. intros [= <- <- <-]. split.
    + intros e [->|Hin]%elem_of_cons; [done|]. destruct hasWarn; [|injection Ew as <- _; by apply not_elem_of_nil in Hin].
      rewrite Ew in He. by rewrite (He e Hin).
    + right. split; [done|]. assert (rowsOf c2 = rowsOf c1) as Hc2.
      { destruct hasWarn; [by rewrite Ew in Hs|by injection Ew as _ <-]. }
      destruct (_ <=? _); rewrite ?markWarned_rows, Hc2, Hr; done.
Qed.

(** An advanced run holds its row's next run back until then. *)
Definition held_back (c : Clock) (log : list Event) : Prop :=
  keyedRows (tables c).1 /\
  forall id at_ next row, Enqueued id at_ next true ∈ log -> rowsOf c !! id = Some row ->
    exists x, NextRunAt row = Some x /\ next <= x.

(** No schedule runs again before the next time an advanced run wrote. *)
Definition spaced (log : list Event) : Prop :=
  forall l1 l2 id at_ next at_' next' b, log = l1 ++ Enqueued id at_ next true :: l2 ->
    Enqueued id at_' next' b ∈ l2 -> next <= at_'.

Lemma spaced_app log evs : spaced log ->
  (forall id at_ next at_' next' b, Enqueued id at_ next true ∈ log -> Enqueued id at_' next' b ∈ evs -> next <= at_') ->
  spaced evs -> spaced (log ++ evs).
Proof.
  intros Hl Hx He l1 l2 id at_ next at_' next' b Heq Hin. apply app_eq_inv in Heq as [(k & -> & Hk)|(k & -> & Hk)].
  - destruct k as [|e k]; simpl in Hk.
    + by apply (He [] l2 id at_ next at_' next' b).
    + injection Hk as <- ->. apply elem_of_app in Hin as [Hin|Hin]; [by eapply Hl|].
      eapply Hx; [|exact Hin]. rewrite elem_of_app. right. left.
  - by eapply He.
Qed.

(** A step that writes no run at most starts a row that had none. *)
Definition rows_quiet (c c' : Clock) : Prop := forall id row', rowsOf c' !! id = Some row' ->
  exists row, rowsOf c !! id = Some row /\ ID row' = ID row /\ (NextRunAt row' = NextRunAt row \/ NextRunAt row = None).

Lemma rows_quiet_refl c c' : rowsOf c' = rowsOf c -> rows_quiet c c'.
Proof. intros Heq id row. rewrite Heq. eauto. Qed.

Lemma rows_quiet_alter c c' f k : rowsOf c' = alter f k (rowsOf c) ->
  (forall row, ID (f row) = ID row /\ (NextRunAt (f row) = NextRunAt row \/ NextRunAt row = None)) -> rows_quiet c c'.
Proof.
  intros Heq Hf id row'. rewrite Heq, lookup_alter_Some. intros [(<- & row & Hr & ->)|[_ Hr]]; [|eauto].
  exists row. split; [done|]. apply Hf.
Qed.

Lemma held_back_quiet c c' log evs : held_back c log -> rows_quiet c c' ->
  (forall e, e ∈ evs -> isEnqueued e = false) -> held_back c' (log ++ evs).
Proof.
  intros [Hk Hb] Hq He. split.
  - intros id s Hs. destruct (Hq _ _ Hs) as (row & Hr & -> & _). by apply Hk.
  - intros id at_ next row Hin Hrow. apply elem_of_app in Hin as [Hin|Hin]; [|by apply He in Hin].
    destruct (Hq _ _ Hrow) as (row0 & Hr & _ & Hn). destruct (Hb _ _ _ _ Hin Hr) as (x & Hx & Hle).
    exists x. split; [|done]. destruct Hn as [->|Hn]; [done|congruence].
Qed.

Lemma spaced_quiet log evs : spaced log -> (forall e, e ∈ evs -> isEnqueued e = false) -> spaced (log ++ evs).
Proof.
  intros Hl He. apply spaced_app; [done| |].
  - intros id at_ next at_' next' b _ Hin. by apply He in Hin.
  - intros l1 l2 id at_ next at_' next' b -> Hin. discriminate (He (Enqueued id at_' next' b)).
    rewrite elem_of_app, elem_of_cons. tauto.
Qed.

Lemma stillDue_spec sc c b c' : stillDue sc c = (b, c') -> rowsOf c' = rowsOf c /\
  (b = true -> exists fresh, rowsOf c !! ID sc = Some fresh /\ sameRow fresh sc = true).
Proof.
  unfold stillDue, ScheduleByID. destruct (runTx _ c) as [r c1] eqn:E. apply runTx_readq in E as [Hr Ha].
  destruct r as [[fresh|]|e]; intros [= <- <-]; (split; [done|]); [|done..]. intros Hs. exists fresh.
  split; [|done]. symmetry. by apply Ha.
Qed.

(** A run at [now] of a row whose next run has come. *)
Lemma run_spaced c log id now next b evs0 fresh read : held_back c log -> spaced log ->
  rowsOf c !! id = Some fresh -> NextRunAt fresh = Some read -> read <= now ->
  (forall e, e ∈ evs0 -> isEnqueued e = false) -> spaced (log ++ Enqueued id now next b :: evs0).
Proof.
  intros [_ HJ] HP Hfr Hn Hle He0. apply spaced_app; [done| |].
  - intros id' at_ n at_' n' b' Hin [[= -> -> -> ->]|Hin']%elem_of_cons; [|by apply He0 in Hin'].
    destruct (HJ _ _ _ _ Hin Hfr) as (x & Hx & Hlex). rewrite Hn in Hx. injection Hx as <-. lia.
  - intros l1 l2 id' at_ n at_' n' b' Heq Hin'. destruct l1 as [|e l1]; simpl in Heq.
    + injection Heq as _ _ _ _ <-. by apply He0 in Hin'.
    + injection Heq as _ ->. exfalso. discriminate (He0 (Enqueued id' at_' n' b')). rewrite elem_of_app, elem_of_cons. tauto.
Qed.

Lemma run_held_back c c' log id now next evs0 fresh read : held_back c log ->
  rowsOf c !! id = Some fresh -> NextRunAt fresh = Some read -> read <= now -> now < next ->
  (forall e, e ∈ evs0 -> isEnqueued e = false) -> rowsOf c' = <[id := advance now next fresh]> (rowsOf c) ->
  held_back c' (log ++ Enqueued id now next true :: evs0).
Proof.
  intros [Hk HJ] Hfr Hn Hle Hlt He0 Hr. split.
  - intros id' s. change (rows (tables c').1) with (rowsOf c'). rewrite Hr.
    intros [[<- <-]|[_ Hs]]%lookup_insert_cases; [exact (Hk _ _ Hfr)|by apply Hk].
  - intros id' at_ n row Hin. rewrite Hr, elem_of_app, elem_of_cons in *.
    intros [[<- <-]|[Hne Hrow]]%lookup_insert_cases.
    + exists next. split; [done|]. destruct Hin as [Hin|[[= _ ->]|Hin]]; [|lia|by apply He0 in Hin].
      destruct (HJ _ _ _ _ Hin Hfr) as (x & Hx & Hlex). rewrite Hn in Hx. injection Hx as <-. lia.
    + destruct Hin as [Hin|[[= <- _ _]|Hin]]; [by eapply HJ|done|by apply He0 in Hin].
Qed.

Lemma MarkScheduleRun_rows id read now next c r c' fresh :
  rowsOf c !! id = Some fresh -> NextRunAt fresh = read -> runTx (MarkScheduleRun id read now next) c = (r, c') ->
  (r = Ok tt /\ rowsOf c' = <[id := advance now next fresh]> (rowsOf c)) \/ ((exists e, r = Err e) /\ rowsOf c' = rowsOf c).
Proof.
  intros Hfr Hn [[-> E]|[He E]]%runTx_writeq; [left|by right]. split; [done|]. rewrite E. apply map_eq. intros id'.
  change (rows (withRows ?f (tables c).1)) with (f (rowsOf c)). destruct (decide (id = id')) as [<-|Hne].
  - rewrite lookup_alter_eq, Hfr, lookup_insert_eq. simpl. by rewrite bool_decide_eq_true_2.
  - by rewrite lookup_alter_ne, lookup_insert_ne.
Qed.

Lemma MarkScheduleRun_quiet id now next c r c' :
  runTx (MarkScheduleRun id None now next) c = (r, c') -> rows_quiet c c'.
Proof.
  intros [[_ E]|[_ E]]%runTx_writeq; [|by apply rows_quiet_refl]. eapply rows_quiet_alter; [exact E|].
  intros row. cbv beta. destruct (decide (NextRunAt row = None)) as [Hn|Hn].
  - rewrite bool_decide_eq_true_2 by done. split; [done|by right].
  - rewrite bool_decide_eq_false_2 by done. split; [done|by left].
Qed.

Lemma hold_quiet sc now c b evs c' : hold sc now c = (b, evs, c') ->
  (forall e, e ∈ evs -> isEnqueued e = false) /\ rows_quiet c c' /\ (b = false -> rowsOf c' = rowsOf c).
Proof.
  intros [He [Hr|[-> Hr]]]%hold_rows; (split; [done|]).
  - split; [by apply rows_quiet_refl|done].
  - split; [|done]. eapply rows_quiet_alter; [exact Hr|]. intros row. cbv beta.
    destruct (bool_decide (DeferredSince row = None)); (split; [done|by left]).
Qed.

Lemma fire_step `{!CronLaws, !EnqueueFrame} now sc c log evs c' :
  held_back c log -> spaced log -> dueAt now sc = true -> fire now sc c = (evs, c') ->
  held_back c' (log ++ evs) /\ spaced (log ++ evs).
Proof.
  intros HJ HP Hdue. unfold fire.
  assert (forall c1 evs1, rows_quiet c c1 -> (forall e, e ∈ evs1 -> isEnqueued e = false) ->
    held_back c1 (log ++ evs1) /\ spaced (log ++ evs1)) as Hquiet.
  { intros c1 evs1 Hq He. split; [by eapply held_back_quiet|by apply spaced_quiet]. }
  assert (forall e : Event, e ∈ [] -> isEnqueued e = false) as Hnil by by intros e ?%not_elem_of_nil.
  assert (forall e : Event, e ∈ [HeldHook (ID sc)] -> isEnqueued e = false) as Hone by by intros e ->%list_elem_of_singleton.
  destruct (NextRun _ _ now _) as [next|] eqn:En; [|intros [= <- <-]; apply Hquiet; [by apply rows_quiet_refl|done]].
  pose proof (NextRun_later _ _ _ _ _ En) as Hlater. unfold dueAt in Hdue. apply andb_true_iff in Hdue as [_ Hdue].
  destruct (NextRunAt sc) as [read|] eqn:Er.
  2:{ destruct (runTx _ c) as [r c1] eqn:E. intros [= <- <-]. apply Hquiet; [|done]. by eapply MarkScheduleRun_quiet. }
  destruct (hold sc now c) as [[held evs1] c1] eqn:Eh. apply hold_quiet in Eh as (He1 & Hq1 & Hr1).
  destruct held; [intros [= <- <-]; by apply Hquiet|]. specialize (Hr1 eq_refl).
  destruct (stillDue sc c1) as [due c2] eqn:Ed. apply stillDue_spec in Ed as [Hr2 Hfresh].
  destruct due; simpl; [|intros [= <- <-]; apply Hquiet; [apply rows_quiet_refl; congruence|done]].
  destruct (Hfresh eq_refl) as (fresh & Hfr & Hsame). rewrite Hr1 in Hfr.
  unfold sameRow in Hsame. rewrite !andb_true_iff, !bool_decide_eq_true in Hsame. destruct Hsame as (_ & Hnext).
  rewrite Er in Hnext. apply Z.leb_le in Hdue.
  assert (rowsOf (enqueue sc c2) = rowsOf c) as Hr3.
  { unfold enqueue, rowsOf in *. simpl. rewrite enqueue_rows. congruence. }
  pose proof (fun b evs0 => run_spaced c log (ID sc) now next b evs0 fresh read HJ HP Hfr Hnext Hdue) as Hsp.
  destruct (runTx _ (enqueue sc c2)) as [r c4] eqn:E.
  eapply MarkScheduleRun_rows in E; [|by rewrite Hr3|exact Hnext]. rewrite Hr3 in E. destruct E as [[-> E]|[[e ->] E]].
  - pose proof (fun c5 evs0 He0 Hr5 => run_held_back c c5 log (ID sc) now next evs0 fresh read HJ Hfr Hnext Hdue Hlater He0 Hr5) as HJ4.
    case_bool_decide; intros [= <- <-]; (split; [by apply HJ4|by apply Hsp]).
  - intros [= <- <-]. split; [|by apply Hsp]. destruct HJ as [Hk Hb]. split.
    + intros id s. change (rows (tables c4).1) with (rowsOf c4). rewrite E. apply Hk.
    + intros id at_ n row Hin. rewrite E. apply elem_of_app in Hin as [Hin|Hin%list_elem_of_singleton]; [by eapply Hb|done].
Qed.

Lemma fireAll_step `{!CronLaws, !EnqueueFrame} now due : forall c log evs c',
  held_back c log -> spaced log -> Forall (fun sc => dueAt now sc = true) due -> fireAll now due c = (evs, c') ->
  held_back c' (log ++ evs) /\ spaced (log ++ evs).
Proof.
  induction due as [|sc due IH]; intros c log evs c' HJ HP Hd; simpl.
  - intros [= <- <-]. by rewrite app_nil_r.
  - apply Forall_cons in Hd as [Hsc Hd]. destruct (fire now sc c) as [evs1 c1] eqn:E1.
    destruct (fireAll now due c1) as [evs2 c2] eqn:E2. intros [= <- <-].
    destruct (fire_step _ _ _ _ _ _ HJ HP Hsc E1) as [HJ1 HP1]. rewrite app_assoc. by eapply IH.
Qed.

Lemma Tick_step `{!CronLaws, !EnqueueFrame} now c log evs c' :
  held_back c log -> spaced log -> Tick now c = (evs, c') -> held_back c' (log ++ evs) /\ spaced (log ++ evs).
Proof.
  intros HJ HP. unfold Tick, DueSchedules. destruct (runTx _ c) as [r c1] eqn:E. apply runTx_readq in E as [Hr Ha].
  assert (held_back c1 log) as HJ1.
  { destruct HJ as [Hk Hb]. rewrite <- Hr in Hb. split; [|done]. intros id s.
    change (rows (tables c1).1) with (rowsOf c1). rewrite Hr. apply Hk. }
  destruct r as [due|e]; [|intros [= <- <-]; by rewrite app_nil_r]. apply fireAll_step; [done..|].
  rewrite (Ha due eq_refl). apply Forall_forall. intros sc Hin. rewrite merge_sort_Permutation in Hin.
  by apply list_elem_of_filter in Hin as [? _].
Qed.

Lemma csteps `{!CronLaws, !EnqueueFrame} w w' : rtc cstep w w' ->
  held_back w.1.2 w.2 /\ spaced w.2 -> held_back w'.1.2 w'.2 /\ spaced w'.2.
Proof.
  induction 1 as [|w w1 w' Hst _ IH]; [done|]. intros [HJ HP]. apply IH. revert HJ HP.
  destruct Hst as [t now c log evs c' _ Ht|t c log id tag delivered _|t c log fs]; cbn [fst snd]; intros HJ HP.
  - by eapply Tick_step.
  - by split.
  - by split.
Qed.

Lemma hold_released sc now c evs c' : hold sc now c = (false, evs, c') -> evs = [] /\ c' = c.
Proof.
  unfold hold. destruct (WaitForEmpty sc), Occupied as [occ|]; try by intros [= <- <-].
  destruct (match DeferredSince sc with Some _ => _ | None => _ end); [by intros [= <- <-]|].
  destruct (negb _); [by intros [= <- <-]|]. destruct (DeferredSince sc) as [since|].
  - by destruct (finalWarning sc since now c).
  - destruct (runTx _ c) as [[u|e] c1]; [|done]. by destruct (if hasWarn then _ else _).
Qed.

(** Whether a due run waits for the players to leave. *)
Definition waits (sc : Schedule) (now : Time) : bool :=
  WaitForEmpty sc && match Occupied with Some occupied => occupied now sc | None => false end &&
  match DeferredSince sc with Some since => now <? since + MaxDeferral sc | None => true end.

(** With a driver that does not fail. *)
Lemma hold_run sc now c b evs c' : (tables c).2 = [] -> rowsOf c !! ID sc = Some sc -> hold sc now c = (b, evs, c') ->
  b = waits sc now /\ (b = true -> rowsOf c' = <[ID sc := deferFrom (default now (DeferredSince sc)) sc]> (rowsOf c)).
Proof.
  intros Hf Hrow. unfold hold, waits. destruct (WaitForEmpty sc), Occupied as [occ|]; try by intros [= <- _ _].
  destruct (DeferredSince sc) as [since|] eqn:Ed; simpl.
  - rewrite Z.leb_antisym. destruct (now <? since + MaxDeferral sc); simpl; [|intros [= <- _ _]; by rewrite andb_false_r].
    rewrite andb_true_r. destruct (occ now sc); simpl; [|by intros [= <- _ _]].
    pose proof (finalWarning_rows sc since now c) as Hr. destruct (finalWarning sc since now c) as [evs1 c1].
    intros [= <- _ <-]. split; [done|]. intros _. simpl in Hr. rewrite Hr. symmetry. apply insert_id. rewrite Hrow. f_equal.
    destruct sc. simpl in *. by subst.
  - rewrite andb_true_r. destruct (occ now sc); simpl; [|by intros [= <- _ _]].
    destruct (runTx _ c) as [r c1] eqn:E. assert (is_ok r = true) as Hok.
    { unfold runTx, DeferSchedule, writeq, stmt in E. destruct (tables c) as [db fs]. simpl in Hf. subst fs. by injection E as <- _. }
    apply runTx_writeq in E as [[-> Hr]|[[e ->] _]]; [|done].
    pose proof (startSend_rows (ID sc) TagHold (MaxDeferral sc) c1) as Hs.
    destruct (if hasWarn then _ else _) as [evs1 c2] eqn:Ew. intros [= <- _ <-]. split; [done|]. intros _.
    assert (rowsOf c2 = rowsOf c1) as Hc2 by (destruct hasWarn; [by rewrite Ew in Hs|by injection Ew as _ <-]).
    transitivity (rowsOf c1); [destruct (_ <=? _); by rewrite ?markWarned_rows, Hc2|].
    rewrite Hr. apply map_eq. intros id. change (rows (withRows ?f (tables c).1)) with (f (rowsOf c)).
    destruct (decide (ID sc = id)) as [<-|Hne]; [|by rewrite lookup_alter_ne, lookup_insert_ne].
    rewrite lookup_alter_eq, Hrow, lookup_insert_eq. simpl. by rewrite bool_decide_eq_true_2.
Qed.

(** ** Properties *)


(** What a due, unchanged row does with a working database: while players are
    on and its deferral lasts it waits, keeping the time its wait began;
    otherwise, and at the latest when the deferral ends, it is enqueued once
    and its row moved to the next occurrence. *)
Theorem fire_decides `{!EnqueueFrame} now sc read next c :
  (tables c).2 = [] -> rowsOf c !! ID sc = Some sc -> Enabled sc = true -> NextRunAt sc = Some read ->
  NextRun (Cron sc) (Timezone sc) now (Some read) = Some next ->
  List.filter isEnqueued (fire now sc c).1 = (if waits sc now then [] else [Enqueued (ID sc) now next true]) /\
  rowsOf (fire now sc c).2 =
    <[ID sc := if waits sc now then deferFrom (default now (DeferredSince sc)) sc else advance now next sc]> (rowsOf c).
Proof.
  intros Hf Hrow Hen Hr Hn. unfold fire. rewrite Hr, Hn. destruct (hold sc now c) as [[b evs] c1] eqn:Eh.
  destruct (hold_run _ _ _ _ _ _ Hf Hrow Eh) as [-> Hheld]. destruct (waits sc now).
  - apply hold_rows in Eh as [He _]. split; [|by apply Hheld]. clear -He.
    induction evs as [|e evs IH]; [done|]. simpl. rewrite (He e) by left. apply IH. intros x Hx. apply He. by right.
  - apply hold_released in Eh as [-> ->]. destruct (stillDue sc c) as [due c2] eqn:Ed.
    assert (due = true /\ (tables c2) = (tables c)) as [-> Ht].
    { unfold stillDue, ScheduleByID, runTx, readq, stmt in Ed. unfold rowsOf in Hrow. destruct (tables c) as [db fs].
      simpl in Hf, Hrow. subst fs. simpl in Ed. rewrite Hrow in Ed. injection Ed as <- <-. split; [|done].
      unfold sameRow. by rewrite Hen, !bool_decide_eq_true_2 by done. }
    simpl. assert (rowsOf (enqueue sc c2) = rowsOf c) as Hr3.
    { unfold enqueue, rowsOf in *. simpl. by rewrite enqueue_rows, Ht. }
    destruct (runTx _ (enqueue sc c2)) as [r c4] eqn:E. assert (is_ok r = true) as Hok.
    { unfold runTx, MarkScheduleRun, writeq, stmt, enqueue in E. simpl in E. rewrite Ht, Hf in E. by injection E as <- _. }
    eapply MarkScheduleRun_rows in E; [|by rewrite Hr3|exact Hr]. rewrite Hr3 in E. destruct E as [[-> E]|[[e ->] _]]; [|done].
    case_bool_decide; simpl; by split.
Qed.

(** An edit is never run over: what is enqueued is what the row still says
    when it is, and a row whose next run moved while the job was submitted is
    left as the edit wrote it. *)
Theorem fire_respects_edits now sc c evs c' id at_ next b :
  fire now sc c = (evs, c') -> Enqueued id at_ next b ∈ evs ->
  id = ID sc /\
  (exists fresh, rowsOf c !! ID sc = Some fresh /\ Enabled fresh = true /\ Cron fresh = Cron sc /\
     Timezone fresh = Timezone sc /\ NextRunAt fresh = NextRunAt sc) /\
  forall row, rows (Enqueue sc (tables c).1) !! ID sc = Some row -> NextRunAt row <> NextRunAt sc ->
    rowsOf c' !! ID sc = Some row.
Proof.
  unfold fire. destruct (NextRun _ _ now _) as [n|]; [|intros [= <- _]; by intros ?%not_elem_of_nil].
  destruct (NextRunAt sc) as [read|] eqn:Er; [|intros [= <- _]; by intros ?%not_elem_of_nil].
  destruct (hold sc now c) as [[held evs1] c1] eqn:Eh. destruct held.
  { intros [= <- _] Hin. apply hold_rows in Eh as [He _]. by apply He in Hin. }
  apply hold_released in Eh as [_ ->]. destruct (stillDue sc c) as [due c2] eqn:Ed.
  assert ((tables c2).1 = (tables c).1) as Ht.
  { unfold stillDue, runTx, ScheduleByID in Ed. destruct (readq _ (tables c)) as [r s] eqn:E. apply readq_state in E.
    by destruct r as [[fresh|]|e]; injection Ed as _ <-. }
  apply stillDue_spec in Ed as [_ Hfresh]. destruct due; simpl; [|intros [= <- _]; by intros ?%not_elem_of_nil].
  destruct (runTx _ (enqueue sc c2)) as [r c4] eqn:E. intros Hres Hin.
  assert (id = ID sc /\ rowsOf c' = rowsOf c4) as [-> Hc'].
  { destruct r as [u|e]; [destruct (bool_decide _)|]; injection Hres as <- <-; rewrite ?elem_of_cons, ?elem_of_nil in Hin; naive_solver. }
  split; [done|]. split.
  - destruct (Hfresh eq_refl) as (fresh & Hfr & Hsame). exists fresh. unfold sameRow in Hsame.
    rewrite !andb_true_iff, !bool_decide_eq_true in Hsame. rewrite Er in Hsame. tauto.
  - intros row Hrow Hne. rewrite Hc'. apply runTx_writeq in E as [[_ E]|[_ E]]; rewrite E.
    + unfold enqueue. simpl. rewrite Ht. rewrite lookup_alter_eq, Hrow. simpl. by rewrite bool_decide_eq_false_2.
    + unfold enqueue, rowsOf. simpl. by rewrite Ht.
Qed.

End Clock.

(** ** Witnesses *)

Definition Hour : Z := 60 * Minute.

(** UTC and one expression, on the hour. *)
Definition hourlyUTC : TimeEnv := {|
  LoadLocation := fun z => if bool_decide (z = "UTC") then Some (fun _ => 0) else None;
  ParseStandard := fun e => if bool_decide (e = "@hourly") then Some (fun _ t => Some ((t / Hour + 1) * Hour)) else None
|}.

Lemma hourlyUTC_laws : @CronLaws hourlyUTC.
Proof.
  split; intros expr sched z t n; simpl; case_bool_decide; intros [= <-]; [|by eexists].
  intros [= <-]. pose proof (Z.mul_succ_div_gt t Hour eq_refl). unfold Z.succ in *. lia.
Qed.

(** Players are on the server of every schedule until three o'clock. *)
Definition quietHooks : Hooks :=
  {| Enqueue := fun _ db => db; Occupied := Some (fun now _ => now <? 3 * Hour); hasWarn := true |}.
Lemma quietHooks_frame : @EnqueueFrame quietHooks.
Proof. done. Qed.

Definition aSchedule (wait : bool) : Schedule :=
  mkSchedule "s1" (Some "i1") "backup" "@hourly" "UTC" true None (Some Hour) wait (10 * Hour) None.
Definition aClock (wait : bool) (fs : faults) : Clock :=
  mkClock (mkSchedDB {["s1" := aSchedule wait]} ∅, fs) ∅ (mkSends ∅ ∅).

Lemma aClock_keyed wait fs : keyedRows (tables (aClock wait fs)).1.
Proof. intros id s. simpl. by intros [<- <-]%lookup_singleton_Some. Qed.


Lemma fire_decides_witness :
  rowsOf (@fire hourlyUTC quietHooks (3 * Hour) (aSchedule true) (aClock true [])).2 !! "s1" =
    Some (advance (3 * Hour) (4 * Hour) (aSchedule true)).
Proof.
  rewrite (proj2 (@fire_decides hourlyUTC quietHooks quietHooks_frame (3 * Hour) (aSchedule true) Hour (4 * Hour) (aClock true [])
    eq_refl eq_refl eq_refl eq_refl eq_refl)). by vm_compute.
Defined.

(** The row is moved to seven o'clock while its job is submitted. *)
Definition editingHooks : Hooks := {|
  Enqueue := fun _ db => withRows <["s1" := advance 0 (7 * Hour) (aSchedule false)]> db;
  Occupied := None; hasWarn := false |}.

Lemma fire_respects_edits_witness : exists evs c',
  @fire hourlyUTC editingHooks Hour (aSchedule false) (aClock false []) = (evs, c') /\ evs <> [] /\
  rowsOf c' !! "s1" = Some (advance 0 (7 * Hour) (aSchedule false)).
Proof.
  destruct (@fire hourlyUTC editingHooks Hour (aSchedule false) (aClock false [])) as [evs c'] eqn:E.
  exists evs, c'. split; [done|].
  assert (evs = [Enqueued "s1" Hour (2 * Hour) true]) as ->.
  { pose proof (f_equal fst E) as E0. symmetry in E0. cbn [fst] in E0. rewrite E0. by vm_compute. }
  split; [done|].
  apply (@fire_respects_edits hourlyUTC editingHooks Hour (aSchedule false) (aClock false []) _ c' "s1" Hour (2 * Hour) true E);
    [left|reflexivity|discriminate].
Defined.
