(* ===== verification/PowerCut.v ===== *)
(** internal/scheduler/shutdown.go: the planned power cut clock, which warns
    players and stops servers ahead of a cut (store/shutdowns.go keeps the
    plan). *)
From S2P Require Import Prelude GoBytes Kinds Lifecycle Sql Sched.
Open Scope string_scope.
Open Scope list_scope.
Open Scope Z_scope.

(** ** Lead times *)

Definition Second : Z := 10 ^ 9.
Definition ShutdownStopLead : Z := 2 * Minute.
Definition ShutdownWarnSpan : Z := 5 * Minute.
Definition ShutdownQuietLead : Z := 15 * Minute.
Definition shutdownStopMargin : Z := 30 * Second.

(** [Duration.Truncate] rounds toward zero. *)
Definition truncate (d m : Z) : Z := d - Z.rem d m.

(** The configured interval and stop timeout, and which hooks are set. *)
Class PowerConfig := { pInterval : Z; StopTimeout : Z; hasPowerWarn : bool; hasAnnounce : bool }.

Definition StopLead `{PowerConfig} : Z :=
  let need := StopTimeout + pInterval + shutdownStopMargin in
  Z.max ShutdownStopLead (truncate (need + Minute - 1) Minute).
Definition WarnLead `{PowerConfig} : Z := StopLead + ShutdownWarnSpan.

(** ** State *)

Record PlannedShutdown := mkPlanned { plID : string; PowerOffAt : Time }.
Record Server := mkServer { svID : string; svName : string; svState : State; svContainer : option string }.
Record powerCutWarned := mkPowerWarned { ShutdownID : string; Instances : list string }.

#[export] Instance PlannedShutdown_eq_dec : EqDecision PlannedShutdown.
Proof. solve_decision. Defined.

Record PowerDB := mkPowerDB {
  planned : list PlannedShutdown; servers : list Server;
  kvAnnounced : option string; kvWarned : option powerCutWarned
}.
Abbreviation PTx := (Sql.Tx PowerDB).

Record Shutdowns := mkShutdowns {
  ptables : Sql.TxS PowerDB; announced : string; warnedFor : string; warned : gset string; psends : Sends string
}.

Inductive PowerEvent :=
| Announced (id : string) (powerOff stopAt : Time) (servers : list string)
| PWarned (server shutdown : string) (left : Z)
| Stopped (server shutdown : string).

#[export] Instance PowerEvent_eq_dec : EqDecision PowerEvent.
Proof. solve_decision. Defined.

(** [WHERE power_off_at > ? ORDER BY power_off_at, id]. *)
Definition planned_le (a b : PlannedShutdown) : Prop :=
  PowerOffAt a < PowerOffAt b \/ (PowerOffAt a = PowerOffAt b /\ String.le (plID a) (plID b)).
#[export] Instance planned_le_dec a b : Decision (planned_le a b).
Proof. unfold planned_le. apply _. Defined.
Definition UpcomingShutdowns (now : Time) : PTx (list PlannedShutdown) :=
  readq (fun db => merge_sort planned_le (filter (fun p => now < PowerOffAt p) (planned db))).
Definition PowerCutWithin (now : Time) (window : Z) : PTx bool :=
  readq (fun db => existsb (fun p => (now <? PowerOffAt p) && (PowerOffAt p <=? now + window)) (planned db)).
Definition ListInstances : PTx (list Server) := readq servers.
Definition setAnnounced (id : string) : PTx unit :=
  writeq (fun db => mkPowerDB (planned db) (servers db) (Some id) (kvWarned db)).
Definition setWarned (w : powerCutWarned) : PTx unit :=
  writeq (fun db => mkPowerDB (planned db) (servers db) (kvAnnounced db) (Some w)).

Section Shutdowns.
Context `{PowerConfig}.

Definition withPTables (t : Sql.TxS PowerDB) (s : Shutdowns) : Shutdowns :=
  mkShutdowns t (announced s) (warnedFor s) (warned s) (psends s).
Definition withAnnounced (id : string) (s : Shutdowns) : Shutdowns :=
  mkShutdowns (ptables s) id (warnedFor s) (warned s) (psends s).
Definition withPWarned (id : string) (w : gset string) (s : Shutdowns) : Shutdowns :=
  mkShutdowns (ptables s) (announced s) id w (psends s).
Definition withPSends (w : Sends string) (s : Shutdowns) : Shutdowns :=
  mkShutdowns (ptables s) (announced s) (warnedFor s) (warned s) w.

Definition runP {A} (m : PTx A) (s : Shutdowns) : result TxErr A * Shutdowns :=
  let '(r, t) := m (ptables s) in (r, withPTables t s).

Definition isRunning (v : Server) : bool := bool_decide (svState v = StateRunning).

(** The announced cut: what memory holds, or after a restart what kv held. *)
Definition loadAnnounced (s : Shutdowns) : Shutdowns :=
  if bool_decide (announced s = "") then
    match runP (readq kvAnnounced) s with
    | (Ok (Some id), s) => withAnnounced id s
    | (_, s) => s
    end
  else s.

Definition announce (p : PlannedShutdown) (stopAt : Time) (insts : list Server) (s : Shutdowns) : list PowerEvent * Shutdowns :=
  if negb hasAnnounce then ([], s)
  else
    let s := loadAnnounced s in
    if bool_decide (announced s = plID p) then ([], s)
    else
      let running := map svName (List.filter isRunning insts) in
      if bool_decide (running = []) then ([], s)
      else ([Announced (plID p) (PowerOffAt p) stopAt running], (runP (setAnnounced (plID p)) (withAnnounced (plID p) s)).2).

Definition loadWarned (id : string) (s : Shutdowns) : Shutdowns :=
  match runP (readq kvWarned) (withPWarned id ∅ s) with
  | (Ok (Some row), s) => if bool_decide (ShutdownID row = id) then withPWarned id (list_to_set (Instances row)) s else s
  | (_, s) => s
  end.

(** Map iteration: the stored order is unspecified. *)
Definition saveWarned (s : Shutdowns) : Shutdowns :=
  (runP (setWarned (mkPowerWarned (warnedFor s) (elements (warned s)))) s).2.

Definition warn (id : string) (v : Server) (left : Z) (s : Shutdowns) : list PowerEvent * Shutdowns :=
  if negb hasPowerWarn then ([], s)
  else
    let s := if bool_decide (warnedFor s = id) then s else loadWarned id s in
    let '(r, w) := sendTake (svID v) (psends s) in
    let s := withPSends w s in
    let s := if match r with Some (tag, delivered) => delivered && bool_decide (tag = id) | None => false end
             then saveWarned (withPWarned (warnedFor s) ({[svID v]} ∪ warned s) s) else s in
    if bool_decide (svID v ∈ warned s) then ([], s)
    else let '(started, w) := sendStart (svID v) (psends s) in
         (if started then [PWarned (svID v) id left] else [], withPSends w s).

(** One server near the cut: warned before the stops, stopped after. *)
Definition tend (now : Time) (p : PlannedShutdown) (v : Server) (s : Shutdowns) : list PowerEvent * Shutdowns :=
  let stopAt := PowerOffAt p - StopLead in
  if negb (isRunning v) || bool_decide (svContainer v = None) then ([], s)
  else if now <? stopAt then warn (plID p) v (stopAt - now) s
  else ([Stopped (svID v) (plID p)], s).

Fixpoint tendAll (now : Time) (p : PlannedShutdown) (vs : list Server) (s : Shutdowns) : list PowerEvent * Shutdowns :=
  match vs with
  | [] => ([], s)
  | v :: vs =>
      let '(evs, s) := tend now p v s in
      let '(rest, s) := tendAll now p vs s in
      (evs ++ rest, s)
  end.

Definition PTick (now : Time) (s : Shutdowns) : list PowerEvent * Shutdowns :=
  match runP (UpcomingShutdowns now) s with
  | (Err _, s) | (Ok [], s) => ([], s)
  | (Ok (next :: _), s) =>
      if now <? PowerOffAt next - WarnLead then ([], s)
      else match runP ListInstances s with
           | (Err _, s) => ([], s)
           | (Ok insts, s) =>
               let '(evs, s) := announce next (PowerOffAt next - StopLead) insts s in
               let '(rest, s) := tendAll now next insts s in
               (evs ++ rest, s)
           end
  end.

(** A new daemon on the same tables. *)
Definition reboot (s : Shutdowns) : Shutdowns := mkShutdowns (ptables s) "" "" ∅ (mkSends ∅ ∅).

(** The clock at large, on a database that works: ticks at any times, warnings
    that end at any moment, operators planning and cancelling cuts, servers
    changing state, and daemons restarting. *)
Inductive pstep : Shutdowns * list PowerEvent -> Shutdowns * list PowerEvent -> Prop :=
| pstep_tick now s log evs s' : PTick now s = (evs, s') -> pstep (s, log) (s', log ++ evs)
| pstep_sent s log id tag delivered :
    pstep (s, log) (withPSends (sendFinish id tag delivered (psends s)) s, log)
| pstep_world s log plans svs : Forall (fun p => plID p <> "") plans ->
    pstep (s, log) (withPTables (mkPowerDB plans svs (kvAnnounced (ptables s).1) (kvWarned (ptables s).1), []) s, log)
| pstep_reboot s log : pstep (s, log) (reboot s, log).

(** ** Lemmas *)

(** The driver works and every plan has an id. *)
Definition healthy (s : Shutdowns) : Prop :=
  (ptables s).2 = [] /\ Forall (fun p => plID p <> "") (planned (ptables s).1).

Lemma runP_readq {A} (f : PowerDB -> A) s : (ptables s).2 = [] -> runP (readq f) s = (Ok (f (ptables s).1), s).
Proof. destruct s as [[db fs] a w wd ps]. simpl. by intros ->. Qed.

Lemma runP_writeq (f : PowerDB -> PowerDB) s : (ptables s).2 = [] ->
  runP (writeq f) s = (Ok tt, withPTables (f (ptables s).1, []) s).
Proof. destruct s as [[db fs] a w wd ps]. simpl. by intros ->. Qed.

Definition announcedId (e : PowerEvent) : option string := match e with Announced id _ _ _ => Some id | _ => None end.

(** Warnings and stops neither announce nor touch what was announced. *)
Definition announce_quiet (s s' : Shutdowns) : Prop :=
  announced s' = announced s /\ (healthy s -> healthy s' /\ kvAnnounced (ptables s').1 = kvAnnounced (ptables s).1 /\
    planned (ptables s').1 = planned (ptables s).1 /\ servers (ptables s').1 = servers (ptables s).1).

#[local] Instance announce_quiet_preorder : PreOrder announce_quiet.
Proof.
  unfold announce_quiet. split; [done|]. intros x y z [Hxy Hx] [Hyz Hy]. split; [congruence|].
  intros Hh. destruct (Hx Hh) as (Hh1 & ? & ? & ?). destruct (Hy Hh1) as (? & ? & ? & ?). split_and!; [done|congruence..].
Qed.

Lemma loadWarned_quiet id s : announce_quiet s (loadWarned id s).
Proof.
  split.
  - unfold loadWarned, runP. destruct (readq _ _) as [[[row|]|e] t]; [|done..]. by case_bool_decide.
  - intros [Hf Hp]. unfold loadWarned. rewrite runP_readq by done.
    destruct (kvWarned _) as [row|]; [case_bool_decide|]; by split_and!.
Qed.

Lemma saveWarned_quiet s : announce_quiet s (saveWarned s).
Proof.
  split.
  - unfold saveWarned, runP. by destruct (setWarned _ _).
  - intros [Hf Hp]. unfold saveWarned, setWarned. rewrite runP_writeq by done. by split_and!.
Qed.

Lemma warn_quiet id v left s evs s' : warn id v left s = (evs, s') ->
  announce_quiet s s' /\ forall e, e ∈ evs -> exists l, e = PWarned (svID v) id l.
Proof.
  unfold warn. destruct (negb hasPowerWarn); [intros [= <- <-]; split; [done|by intros e ?%not_elem_of_nil]|].
  assert (announce_quiet s (if bool_decide (warnedFor s = id) then s else loadWarned id s)) as H1
    by (case_bool_decide; [done|apply loadWarned_quiet]).
  set (s1 := if bool_decide (warnedFor s = id) then s else loadWarned id s) in *.
  destruct (sendTake _ _) as [r w]. set (s2 := withPSends w s1).
  assert (announce_quiet s s2) as H2 by (by transitivity s1).
  assert (forall s3, announce_quiet s s3 ->
    (if bool_decide (svID v ∈ warned s3) then ([], s3)
     else let '(started, w) := sendStart (svID v) (psends s3) in
          (if started then [PWarned (svID v) id left] else [], withPSends w s3)) = (evs, s') ->
    announce_quiet s s' /\ forall e, e ∈ evs -> exists l, e = PWarned (svID v) id l) as Hend.
  { intros s3 H3. case_bool_decide; [intros [= <- <-]; split; [done|by intros e ?%not_elem_of_nil]|].
    destruct (sendStart _ _) as [started w']. intros [= <- <-]. split; [by transitivity s3|].
    intros e. destruct started; [intros ->%list_elem_of_singleton; eauto|by intros ?%not_elem_of_nil]. }
  destruct (match r with Some _ => _ | None => false end); [|by apply Hend].
  apply Hend. transitivity s2; [done|].
  transitivity (withPWarned (warnedFor s2) ({[svID v]} ∪ warned s2) s2); [done|apply saveWarned_quiet].
Qed.

Lemma tend_quiet now p v s evs s' : tend now p v s = (evs, s') ->
  announce_quiet s s' /\ (forall e, e ∈ evs -> announcedId e = None) /\
  (forall i j, Stopped i j ∈ evs <->
     i = svID v /\ j = plID p /\ isRunning v = true /\ svContainer v <> None /\ PowerOffAt p - StopLead <= now).
Proof.
  unfold tend. destruct (isRunning v); simpl.
  2:{ intros [= <- <-]. split_and!; [done|by intros e ?%not_elem_of_nil|]. intros i j. rewrite elem_of_nil. naive_solver. }
  case_bool_decide as Hc.
  { intros [= <- <-]. split_and!; [done|by intros e ?%not_elem_of_nil|]. intros i j. rewrite elem_of_nil. naive_solver. }
  destruct (now <? PowerOffAt p - StopLead) eqn:E; prop_bool.
  - intros [Hq He]%warn_quiet. split_and!; [done|by intros e (l & ->)%He|].
    intros i j. split; [by intros (l & Hl)%He|]. intros (_ & _ & _ & _ & ?). lia.
  - intros [= <- <-]. split_and!; [done|by intros e ->%list_elem_of_singleton|]. intros i j.
    rewrite list_elem_of_singleton. split; [intros [= -> ->]; done|by intros (-> & -> & _)].
Qed.

Lemma tendAll_quiet now p vs : forall s evs s', tendAll now p vs s = (evs, s') ->
  announce_quiet s s' /\ (forall e, e ∈ evs -> announcedId e = None) /\
  (forall i j, Stopped i j ∈ evs <-> exists v, v ∈ vs /\
     i = svID v /\ j = plID p /\ isRunning v = true /\ svContainer v <> None /\ PowerOffAt p - StopLead <= now).
Proof.
  induction vs as [|v vs IH]; intros s evs s'; simpl.
  - intros [= <- <-]. split_and!; [done|by intros e ?%not_elem_of_nil|]. intros i j. rewrite elem_of_nil.
    split; [done|]. by intros (v & ?%not_elem_of_nil & _).
  - destruct (tend now p v s) as [e1 s1] eqn:E1. destruct (tendAll now p vs s1) as [e2 s2] eqn:E2. intros [= <- <-].
    apply tend_quiet in E1 as (Hq1 & He1 & Hs1). apply IH in E2 as (Hq2 & He2 & Hs2). split_and!.
    + by transitivity s1.
    + intros e [?|?]%elem_of_app; auto.
    + intros i j. rewrite elem_of_app, Hs1, Hs2. setoid_rewrite elem_of_cons. naive_solver.
Qed.

(** What is known to have been announced last. *)
Definition lastAnnounced (s : Shutdowns) : option string :=
  if bool_decide (announced s = "") then kvAnnounced (ptables s).1 else Some (announced s).

(** The announcements of a stretch of events, oldest first. *)
Definition cuts (log : list PowerEvent) : list string := omap announcedId log.

Lemma cuts_none evs : (forall e, e ∈ evs -> announcedId e = None) -> cuts evs = [].
Proof.
  intros He. unfold cuts. induction evs as [|e evs IH]; [done|]. simpl. rewrite (He e) by left.
  apply IH. intros x Hx. apply He. by right.
Qed.

(** Memory and table agree on the last announcement, which is the log's. *)
Record announce_ok (s : Shutdowns) (log : list PowerEvent) : Prop := {
  ao_healthy : healthy s;
  ao_table : kvAnnounced (ptables s).1 = last (cuts log);
  ao_memory : announced s <> "" -> last (cuts log) = Some (announced s);
  ao_named : Forall (fun c => c <> "") (cuts log);
  ao_spread l1 a b l2 : cuts log = l1 ++ a :: b :: l2 -> a <> b
}.

Lemma announce_ok_quiet s s' log evs : announce_ok s log -> announce_quiet s s' ->
  (forall e, e ∈ evs -> announcedId e = None) -> announce_ok s' (log ++ evs).
Proof.
  intros [Hh Ht Hm Hn Hs] [Ha Hq] He. destruct (Hq Hh) as (Hh' & Hk & _).
  assert (cuts (log ++ evs) = cuts log) as Hc.
  { unfold cuts. rewrite omap_app. fold (cuts evs). by rewrite (cuts_none evs He), app_nil_r. }
  split; rewrite ?Hc, ?Ha; [done|congruence|done..].
Qed.

Lemma UpcomingShutdowns_named now s p ps : healthy s ->
  merge_sort planned_le (filter (fun p => now < PowerOffAt p) (planned (ptables s).1)) = p :: ps ->
  plID p <> "" /\ now < PowerOffAt p /\ p ∈ planned (ptables s).1.
Proof.
  intros [_ Hp] Hm. assert (p ∈ merge_sort planned_le (filter (fun p => now < PowerOffAt p) (planned (ptables s).1))) as Hin
    by (rewrite Hm; left).
  rewrite merge_sort_Permutation, list_elem_of_filter in Hin. destruct Hin as [Hnow Hin].
  rewrite Forall_forall in Hp. auto.
Qed.

Lemma announce_step p stopAt insts s log evs s' : plID p <> "" -> announce_ok s log ->
  announce p stopAt insts s = (evs, s') ->
  announce_ok s' (log ++ evs) /\ planned (ptables s').1 = planned (ptables s).1 /\ servers (ptables s').1 = servers (ptables s).1 /\
  (forall i j, Stopped i j ∉ evs).
Proof.
  intros Hid Hok. unfold announce.
  destruct (negb hasAnnounce); [intros [= <- <-]; split_and!; [by rewrite app_nil_r|done|done|by intros i j ?%not_elem_of_nil]|].
  set (s1 := loadAnnounced s). destruct Hok as [Hh Ht Hm Hn Hs].
  assert (announce_ok s1 log /\ Some (announced s1) = (if bool_decide (last (cuts log) = None) then Some "" else last (cuts log)) /\
    ptables s1 = ptables s) as (Hok1 & Hl1 & Ht1).
  { destruct Hh as [Hf Hp]. unfold s1, loadAnnounced. case_bool_decide as Ha.
    - rewrite runP_readq by done. rewrite Ht.
      destruct (last (cuts log)) as [id|] eqn:El; (split_and!; [|by rewrite ?Ha|done]); split; simpl; try done; congruence.
    - rewrite (Hm Ha). split_and!; done. }
  clearbody s1. clear Hh Ht Hm Hn Hs. destruct Hok1 as [Hh Ht Hm Hn Hs].
  destruct (bool_decide (announced s1 = plID p)) eqn:Heq;
    [intros [= <- <-]; rewrite app_nil_r, Ht1; split_and!; [done|done|done|by intros i j ?%not_elem_of_nil]|].
  apply bool_decide_eq_false in Heq.
  destruct (bool_decide (map svName _ = [])); [intros [= <- <-]; rewrite app_nil_r, Ht1; split_and!; [done|done|done|by intros i j ?%not_elem_of_nil]|].
  destruct Hh as [Hf Hp]. unfold setAnnounced. rewrite runP_writeq by done. intros [= <- <-]. cbn [snd].
  assert (cuts (log ++ [Announced (plID p) (PowerOffAt p) stopAt (map svName (List.filter isRunning insts))]) = cuts log ++ [plID p]) as Hc
    by (unfold cuts; by rewrite omap_app).
  split_and!; [|by simpl; rewrite Ht1..|by intros i j ?%list_elem_of_singleton].
  split; rewrite ?Hc, ?last_snoc; simpl; try done.
  - apply Forall_app. split; [done|]. by apply Forall_singleton.
  - intros l1 a b l2 Hl. destruct l2 as [|x l2 _] using rev_ind.
    + assert (cuts log = l1 ++ [a] /\ plID p = b) as [Hlog <-].
      { change (a :: [b]) with ([a] ++ [b]) in Hl. rewrite app_assoc in Hl. by apply app_inj_tail in Hl. }
      rewrite Hlog, last_snoc in Hl1. simpl in Hl1. by injection Hl1 as <-.
    + change (a :: b :: l2 ++ [x]) with ((a :: b :: l2) ++ [x]) in Hl. rewrite app_assoc in Hl.
      apply app_inj_tail in Hl as [Hl _]. by apply (Hs l1 a b l2).
Qed.

Lemma PTick_step now s log evs s' : announce_ok s log -> PTick now s = (evs, s') -> announce_ok s' (log ++ evs).
Proof.
  intros Hok. pose proof Hok as [[Hf Hp] _ _ _ _]. unfold PTick, UpcomingShutdowns, ListInstances. rewrite runP_readq by done.
  destruct (merge_sort _ _) as [|next rest] eqn:E; [intros [= <- <-]; by rewrite app_nil_r|].
  apply UpcomingShutdowns_named in E as (Hid & _); [|done].
  destruct (now <? _); [intros [= <- <-]; by rewrite app_nil_r|]. rewrite runP_readq by done.
  destruct (announce _ _ _ s) as [e1 s1] eqn:E1. destruct (tendAll _ _ _ s1) as [e2 s2] eqn:E2. intros [= <- <-].
  destruct (announce_step _ _ _ _ _ _ _ Hid Hok E1) as (Hok1 & _). apply tendAll_quiet in E2 as (Hq & He & _).
  rewrite app_assoc. by eapply announce_ok_quiet.
Qed.

Lemma psteps_ok w w' : rtc pstep w w' -> announce_ok w.1 w.2 -> announce_ok w'.1 w'.2.
Proof.
  induction 1 as [|w w1 w' Hst _ IH]; [done|]. intros Hok. apply IH. revert Hok.
  destruct Hst as [now s log evs s' Ht|s log id tag delivered|s log plans svs Hpl|s log]; cbn [fst snd].
  - intros Hok. by eapply PTick_step.
  - intros [? ? ? ? ?]. by split.
  - intros [[_ _] ? ? ? ?]. split; try done.
  - intros [? ? ? ? ?]. by split.
Qed.

(** ** Properties *)

(** The lead time covers a stop: a stop submitted up to one tick into the
    window and using its whole timeout is over, with the margin to spare, when
    the power goes off. It is a whole number of minutes, two at least. *)
Theorem StopLead_covers (powerOff t : Time) : 0 <= StopTimeout -> 0 <= pInterval ->
  t <= powerOff - StopLead + pInterval ->
  t + StopTimeout + shutdownStopMargin <= powerOff /\ ShutdownStopLead <= StopLead /\ StopLead mod Minute = 0.
Proof.
  intros HT HI Ht. unfold StopLead, truncate, ShutdownStopLead, shutdownStopMargin, Second in *.
  set (need := StopTimeout + pInterval + 30 * 10 ^ 9) in *. assert (0 < Minute) as HM by done.
  rewrite Z.rem_mod_nonneg in * by lia. pose proof (Z.mod_pos_bound (need + Minute - 1) Minute HM).
  pose proof (Z.div_mod (need + Minute - 1) Minute ltac:(lia)) as Hdiv. split; [lia|]. split; [lia|].
  destruct (Z.max_spec (2 * Minute) (need + Minute - 1 - (need + Minute - 1) mod Minute)) as [[_ ->]|[_ ->]].
  - replace (need + Minute - 1 - (need + Minute - 1) mod Minute) with ((need + Minute - 1) / Minute * Minute) by lia.
    by apply Z_mod_mult.
  - by apply Z_mod_mult.
Qed.

(** Through restarts and changing plans, the panel never announces the same
    cut twice in a row. *)
Theorem cuts_not_repeated db log s :
  Forall (fun p => plID p <> "") (planned db) -> kvAnnounced db = None ->
  rtc pstep (mkShutdowns (db, []) "" "" ∅ (mkSends ∅ ∅), []) (s, log) ->
  forall l1 a b l2, cuts log = l1 ++ a :: b :: l2 -> a <> b.
Proof.
  intros Hp Hk Hs. apply psteps_ok in Hs; [by destruct Hs|]. split; simpl; try done.
  intros l1 a b l2 Heq. by destruct l1.
Qed.

(** A tick acts on the soonest cut only: nothing before its warning window;
    inside the stop window it stops every running server that has a container,
    and before it none. *)
Theorem PTick_stops now s next rest evs s' : healthy s ->
  merge_sort planned_le (filter (fun p => now < PowerOffAt p) (planned (ptables s).1)) = next :: rest ->
  PTick now s = (evs, s') ->
  (now < PowerOffAt next - WarnLead -> evs = []) /\
  forall i j, Stopped i j ∈ evs <->
    exists v, v ∈ servers (ptables s).1 /\ i = svID v /\ j = plID next /\ svState v = StateRunning /\
      svContainer v <> None /\ PowerOffAt next - WarnLead <= now /\ PowerOffAt next - StopLead <= now.
Proof.
  intros Hh Hm. pose proof Hh as [Hf _]. destruct (UpcomingShutdowns_named _ _ _ _ Hh Hm) as (Hid & _).
  unfold PTick, UpcomingShutdowns, ListInstances. rewrite runP_readq by done. rewrite Hm.
  destruct (now <? _) eqn:E; prop_bool.
  { intros [= <- <-]. split; [done|]. intros i j. rewrite elem_of_nil. split; [done|]. intros (v & _ & _ & _ & _ & _ & ? & _). lia. }
  rewrite runP_readq by done. destruct (announce _ _ _ s) as [e1 s1] eqn:E1. destruct (tendAll _ _ _ s1) as [e2 s2] eqn:E2.
  intros [= <- <-]. split; [lia|]. intros i j. rewrite elem_of_app.
  assert (Stopped i j ∉ e1) as Hn.
  { clear -E1. unfold announce in E1. destruct (negb hasAnnounce); [injection E1 as <- _; apply not_elem_of_nil|].
    case_bool_decide; [injection E1 as <- _; apply not_elem_of_nil|].
    case_bool_decide; injection E1 as <- _; [apply not_elem_of_nil|by intros ?%list_elem_of_singleton]. }
  apply tendAll_quiet in E2 as (_ & _ & Hs). rewrite Hs. split.
  - intros [?|(v & Hv & -> & -> & Hr%bool_decide_eq_true & Hc & Hle)]; [done|]. exists v. by split_and!.
  - intros (v & Hv & -> & -> & Hr & Hc & _ & Hle). right. exists v. split_and!; try done. by apply bool_decide_eq_true.
Qed.

End Shutdowns.

(** ** Witnesses *)

Definition halfMinute : PowerConfig := {| pInterval := 30 * Second; StopTimeout := 90 * Second; hasPowerWarn := true; hasAnnounce := true |}.

Lemma StopLead_covers_witness :
  600 * Second - @StopLead halfMinute + 30 * Second + 90 * Second + shutdownStopMargin <= 600 * Second.
Proof. apply (@StopLead_covers halfMinute); vm_compute; discriminate. Defined.

Definition aServer : Server := mkServer "i1" "Midgard" StateRunning (Some "c1").
Definition onePlan : PowerDB := mkPowerDB [mkPlanned "p1" (20 * Minute)] [aServer] None None.
Definition freshClock (db : PowerDB) : Shutdowns := mkShutdowns (db, []) "" "" ∅ (mkSends ∅ ∅).

Lemma onePlan_named : Forall (fun p => plID p <> "") (planned onePlan).
Proof. by constructor. Qed.

(** Announced once although the daemon restarts inside the window. *)
Lemma cuts_not_repeated_witness : exists s log,
  rtc (@pstep halfMinute) (freshClock onePlan, []) (s, log) /\ cuts log = ["p1"] /\
  forall l1 a b l2, cuts log = l1 ++ a :: b :: l2 -> a <> b.
Proof.
  destruct (@PTick halfMinute (16 * Minute) (freshClock onePlan)) as [e1 s1] eqn:E1.
  destruct (@PTick halfMinute (19 * Minute) (reboot s1)) as [e2 s2] eqn:E2.
  assert (rtc (@pstep halfMinute) (freshClock onePlan, []) (s2, ([] ++ e1) ++ e2)) as Hs.
  { eapply rtc_l; [eapply pstep_tick; exact E1|]. eapply rtc_l; [apply pstep_reboot|].
    eapply rtc_l; [eapply pstep_tick; exact E2|apply rtc_refl]. }
  exists s2, (([] ++ e1) ++ e2). split; [exact Hs|]. split.
  - vm_compute in E1. injection E1 as <- <-. vm_compute in E2. by injection E2 as <- <-.
  - apply (@cuts_not_repeated halfMinute onePlan _ s2 onePlan_named eq_refl Hs).
Defined.

Lemma PTick_stops_witness : exists evs s',
  @PTick halfMinute (18 * Minute) (freshClock onePlan) = (evs, s') /\ Stopped "i1" "p1" ∈ evs.
Proof.
  destruct (@PTick halfMinute (18 * Minute) (freshClock onePlan)) as [evs s'] eqn:E. exists evs, s'. split; [done|].
  apply (@PTick_stops halfMinute (18 * Minute) (freshClock onePlan) (mkPlanned "p1" (20 * Minute)) [] evs s'
    (conj eq_refl onePlan_named) eq_refl E).
  exists aServer. split_and!; try done; [left|vm_compute; discriminate..].
Defined.

(** A cut planned between an announcement and its power off makes the clock
    announce the first one again once the second has passed. *)
Example announced_again :
  let '(e1, s1) := @PTick halfMinute (14 * Minute) (freshClock onePlan) in
  let s1 := withPTables (mkPowerDB (mkPlanned "p0" (15 * Minute) :: planned onePlan) [aServer]
    (kvAnnounced (ptables s1).1) (kvWarned (ptables s1).1), []) s1 in
  let '(e2, s2) := @PTick halfMinute (14 * Minute) s1 in
  let '(e3, s3) := @PTick halfMinute (16 * Minute) s2 in
  cuts (e1 ++ e2 ++ e3) = ["p1"; "p0"; "p1"].
Proof. by vm_compute. Qed.
