(* ===== verification/Submit.v ===== *)
(** internal/scheduler/submit.go: a due schedule becomes a submitted job, a
    recorded skip, or nothing.  The submissions themselves are the callbacks the
    code is built with; [SubmitFrame] is what it relies on them for. *)
From S2P Require Import Prelude GoBytes Kinds Lifecycle Sql Store Sched PowerCut.
Open Scope string_scope.
Open Scope list_scope.
Open Scope Z_scope.

(** The tables of the store this part reads: the job and instance tables, and
    the planned power cuts. *)
Record SubmitDB := mkSubmitDB { store : Store.DB; cuts : list PlannedShutdown }.
Abbreviation BTx := (Sql.Tx SubmitDB).

Definition lift {A} (m : Sql.Tx Store.DB A) : BTx A := fun '(d, fs) =>
  let '(r, (db, fs')) := m (store d, fs) in (r, (mkSubmitDB db (cuts d), fs')).

(** [Submitter]: its two submissions, and the text of an error that is not a
    lock conflict. *)
Class Submitter := {
  SubmitGlobal : Schedule -> Kinds.Kind -> Sql.Tx Store.DB unit;
  SubmitInstance : Schedule -> string -> Inst -> Sql.Tx Store.DB unit;
  errorText : TxErr -> string
}.

(** A refused submission leaves the tables as they were. *)
Class SubmitFrame `{Submitter} : Prop := {
  global_frame sc k s e s' : SubmitGlobal sc k s = (Err e, s') -> s'.1 = s.1;
  instance_frame sc id i s e s' : SubmitInstance sc id i s = (Err e, s') -> s'.1 = s.1
}.

Definition claimableFrom (kind : Kinds.Kind) (state : State) : bool :=
  existsb (fun allowed => bool_decide (state = allowed)) (AllowedFrom kind).

(** What a run was skipped for. *)
Inductive Cause := CausePowerCut | CauseState (st : State) | CauseSubmit (e : TxErr).

Section Submit.
Context `{Submitter}.

Definition causeText (kind : Kinds.Kind) (c : Cause) : string :=
  match c with
  | CausePowerCut => "a power cut is planned within minutes"
  | CauseState st => "the instance was " +:+ st +:+ ", which " +:+ kindName kind +:+ " cannot run from"
  | CauseSubmit (EConflict id k) => "job " +:+ id +:+ " (kind " +:+ k +:+ ") already holds this lock"
  | CauseSubmit e => errorText e
  end.
Definition causeCode (c : Cause) : string :=
  match c with CauseSubmit (EConflict _ _) => "job_in_progress" | _ => "internal" end.

(** The row of a skipped run: terminal from the start, under no lease. *)
Definition skippedRow (j : Job) (code message : string) (now : Store.Time) : Job :=
  mkJob (Store.ID j) (JKind j) StatusCancelled (LockKey j) (Store.InstanceID j) (InstanceName j)
    (ScheduleID j) (bool_decide (is_Some (ScheduleID j))) "{}" None false 0 None None None None None None 1
    (Some code) (Some message) None now (Some now) (Some now).
Definition RecordSkippedRun (j : Job) (code message : string) (now : Store.Time) : Sql.Tx Store.DB unit :=
  insertRun (skippedRow j code message now).

Definition skippedJob (newID : string) (sc : Schedule) (kind : Kinds.Kind) (inst : option (string * Inst)) : Job :=
  let '(key, iid, name) := match inst with
    | None => (GlobalLockKey kind, None, "")
    | Some (id, i) => (InstanceLockKey id, Some id, iName i)
    end in
  mkJob newID (kindName kind) "" key iid name (Some (Sched.ID sc)) false "" None false 0 None None None None None
    None 0 None None None 0 None None.

Definition recordSkip (newID : string) (now : Time) (sc : Schedule) (kind : Kinds.Kind)
    (inst : option (string * Inst)) (c : Cause) : BTx unit :=
  lift (RecordSkippedRun (skippedJob newID sc kind inst) (causeCode c)
    ("This scheduled run was skipped: " +:+ causeText kind c) now).

(** A refusal is recorded; the call's own error is not returned. *)
Definition orSkip (newID : string) (now : Time) (sc : Schedule) (kind : Kinds.Kind)
    (inst : option (string * Inst)) (m : Sql.Tx Store.DB unit) : BTx unit := fun s =>
  match lift m s with
  | (Ok _, s') => (Ok tt, s')
  | (Err e, s') => recordSkip newID now sc kind inst (CauseSubmit e) s'
  end.

Definition readCuts (now : Time) : BTx bool :=
  readq (fun d => existsb (fun p => (now <? PowerOffAt p) && (PowerOffAt p <=? now + ShutdownQuietLead)) (cuts d)).
Definition readInstance (id : string) : BTx (option Inst) := readq (fun d => instances (store d) !! id).

(** [Enqueue]; [newID] and [now] are the id and the clock reading it takes. *)
Definition Enqueue (newID : string) (now : Time) (sc : Schedule) (kind : Kinds.Kind) (global : bool) : BTx unit :=
  if global then orSkip newID now sc kind None (SubmitGlobal sc kind)
  else match InstanceID sc with
       | None => tfail (EHook "the schedule names no instance")
       | Some id =>
           let! inst := readInstance id in
           match inst with
           | None => tret tt
           | Some i =>
               let! soon := readCuts now in
               if soon then recordSkip newID now sc kind (Some (id, i)) CausePowerCut
               else if negb (claimableFrom kind (iState i))
               then recordSkip newID now sc kind (Some (id, i)) (CauseState (iState i))
               else orSkip newID now sc kind (Some (id, i)) (SubmitInstance sc id i)
           end
       end.

End Submit.

(** ** Properties *)

Section SubmitProps.
Context `{SubmitFrame}.

Definition cutNear (now : Time) (d : SubmitDB) : Prop :=
  exists p, p ∈ cuts d /\ now < PowerOffAt p <= now + ShutdownQuietLead.

(** One terminal row more, and nothing else. *)
Definition skipped (row : Job) (d d' : SubmitDB) : Prop :=
  runs (store d) !! Store.ID row = None /\
  d' = mkSubmitDB (withRuns <[Store.ID row := row]> (store d)) (cuts d).

Lemma claimableFrom_spec kind st : claimableFrom kind st = true <-> st ∈ requires kind.
Proof.
  unfold claimableFrom, AllowedFrom. rewrite existsb_elem_of. setoid_rewrite bool_decide_eq_true.
  setoid_rewrite merge_sort_Permutation. naive_solver.
Qed.

Lemma lift_Ok {A} (m : Sql.Tx Store.DB A) s a s' : lift m s = (Ok a, s') ->
  m (store s.1, s.2) = (Ok a, (store s'.1, s'.2)) /\ cuts s'.1 = cuts s.1.
Proof. destruct s as [d fs]. simpl. destruct (m _) as [r [db fs']] eqn:E. by intros [= -> <-]. Qed.

Lemma lift_Err {A} (m : Sql.Tx Store.DB A) s e s' : lift m s = (Err e, s') ->
  m (store s.1, s.2) = (Err e, (store s'.1, s'.2)) /\ cuts s'.1 = cuts s.1.
Proof. destruct s as [d fs]. simpl. destruct (m _) as [r [db fs']] eqn:E. by intros [= -> <-]. Qed.

Lemma recordSkip_cases newID now sc kind inst c s r s' : recordSkip newID now sc kind inst c s = (r, s') ->
  (exists row, r = Ok tt /\ skipped row s.1 s'.1 /\ Store.ID row = newID /\ Status row = StatusCancelled /\
     LeaseOwner row = None /\ is_Some (FinishedAt row) /\ ScheduleID row = Some (Sched.ID sc) /\
     Error row = Some ("This scheduled run was skipped: " +:+ causeText kind c)) \/
  ((exists e, r = Err e) /\ s'.1 = s.1).
Proof.
  unfold recordSkip, RecordSkippedRun, insertRun. destruct s as [[db cs] fs], s' as [[db' cs'] fs'].
  destruct r as [[]|e]; intros Hl.
  - apply lift_Ok in Hl as [Hi Hc]. apply stmt_Ok in Hi as [Hf _]. simpl in *. left.
    destruct (decide _) as [|Hn]; [done|]. destruct (negb _); [done|]. injection Hf as <-. subst cs'.
    eexists (skippedRow _ _ _ _). split; [done|]. split; [split; [|reflexivity]|].
    + by apply eq_None_not_Some.
    + unfold skippedJob. destruct inst as [[id i]|]; split_and!; done.
  - apply lift_Err in Hl as [Hi Hc]. apply stmt_Err in Hi as [Hf _]. simpl in *. subst. right. by eauto.
Qed.

(** What made a run of instance [i] be skipped. *)
Definition because (c : Cause) (kind : Kinds.Kind) (now : Time) (sc : Schedule) (id : string) (i : Inst)
    (d : SubmitDB) : Prop :=
  match c with
  | CausePowerCut => cutNear now d
  | CauseState st => st = iState i /\ st ∉ requires kind
  | CauseSubmit e => exists fs s1, SubmitInstance sc id i (store d, fs) = (Err e, s1)
  end.

Lemma readCuts_Ok now s b s' : readCuts now s = (Ok b, s') -> s'.1 = s.1 /\ (b = true <-> cutNear now s.1).
Proof.
  intros [-> ->]%readq_Ok. split; [done|]. rewrite existsb_elem_of. unfold cutNear.
  split; intros (p & Hp & Hw); exists p; (split; [done|]); [prop_bool; lia|].
  apply andb_true_iff. rewrite Z.ltb_lt, Z.leb_le. lia.
Qed.

(** A due run of an instance is submitted only to an existing instance, in a
    state its kind is claimed from, with no power cut planned within the quiet
    lead; a run that is not submitted leaves the tables alone but for, at most,
    one row that is terminal, unleased and names its schedule and its cause;
    and without an error a run is only dropped silently with its instance. *)
Theorem Enqueue_spec newID now sc kind id s r s' : InstanceID sc = Some id ->
  Enqueue newID now sc kind false s = (r, s') ->
  (r = Ok tt /\ exists i fs, instances (store s.1) !! id = Some i /\ iState i ∈ requires kind /\
     ~ cutNear now s.1 /\ SubmitInstance sc id i (store s.1, fs) = (Ok tt, (store s'.1, s'.2))) \/
  (r = Ok tt /\ exists i c row, instances (store s.1) !! id = Some i /\ because c kind now sc id i s.1 /\
     skipped row s.1 s'.1 /\ Store.ID row = newID /\ Status row = StatusCancelled /\ LeaseOwner row = None /\
     is_Some (FinishedAt row) /\ ScheduleID row = Some (Sched.ID sc) /\
     Error row = Some ("This scheduled run was skipped: " +:+ causeText kind c)) \/
  (s'.1 = s.1 /\ (r = Ok tt -> instances (store s.1) !! id = None)).
Proof.
  intros Hid. unfold Enqueue. rewrite Hid. unfold tbind.
  destruct (readInstance id s) as [[[i|]|e] s1] eqn:E1; [..|intros [= <- <-]; right; right].
  2:{ intros [= <- <-]. apply readq_Ok in E1 as [E ->]. right; right. done. }
  2:{ apply readq_state in E1. done. }
  apply readq_Ok in E1 as [Ei E1]. destruct (readCuts now s1) as [[soon|e] s2] eqn:E2; cycle 1.
  { intros [= <- <-]. apply readq_state in E2. right; right. split; [congruence|done]. }
  apply readCuts_Ok in E2 as [E2 Hcut]. rewrite E1 in E2, Hcut.
  match goal with |- _ -> ?G => assert (forall c, because c kind now sc id i s.1 -> forall s3, s3.1 = s.1 ->
    recordSkip newID now sc kind (Some (id, i)) c s3 = (r, s') -> G) as Hskip end.
  { intros c Hc s3 E3 [(row & -> & Hsk & Hrow)|[[e ->] Es]]%recordSkip_cases; [|right; right; split; [congruence|done]].
    right; left. rewrite E3 in Hsk. split; [done|]. exists i, c, row. exact (conj (eq_sym Ei) (conj Hc (conj Hsk Hrow))). }
  destruct soon; [apply (Hskip CausePowerCut); [by apply Hcut|done]|].
  destruct (claimableFrom kind (iState i)) eqn:Ecl; cbn [negb]; cycle 1.
  { apply (Hskip (CauseState (iState i))); [|done]. split; [done|]. by rewrite <- claimableFrom_spec, Ecl. }
  unfold orSkip. destruct (lift _ s2) as [[[]|e] s3] eqn:E3; [intros [= <- <-]|].
  - apply lift_Ok in E3 as [Es _]. left. split; [done|]. exists i, s2.2. rewrite <- E2. split_and!; try done.
    + by rewrite E2.
    + by apply claimableFrom_spec.
    + rewrite E2, <- Hcut. done.
  - apply lift_Err in E3 as [Es Ecuts]. pose proof (instance_frame _ _ _ _ _ _ Es) as Est. simpl in Est.
    apply (Hskip (CauseSubmit e)); [exists s2.2; rewrite <- E2; by eauto|].
    rewrite <- E2. destruct s3 as [[d3 c3] f3], s2 as [[d2 c2] f2]. simpl in *. by subst.
Qed.

(** A skip's row changes neither a lock, nor the jobs that run, nor those the
    boot sweep closes. *)
Theorem skipped_inert row d d' owner j : skipped row d d' -> Status row = StatusCancelled ->
  locks (store d') = locks (store d) /\
  (j ∈ StaleJobs owner (store d') <-> j ∈ StaleJobs owner (store d)).
Proof.
  intros [Hnew ->] Hst. split; [done|]. unfold StaleJobs. rewrite !merge_sort_Permutation, !list_elem_of_filter.
  unfold Store.rows. rewrite !list_elem_of_fmap. split; intros [[Hs Ho] ([k x] & -> & Hin)]; simpl in *;
    apply elem_of_map_to_list in Hin; (split; [done|]); exists (k, x); (split; [done|]); apply elem_of_map_to_list.
  - apply lookup_insert_Some in Hin as [[<- <-]|[? ?]]; [by rewrite Hst in Hs|done].
  - rewrite lookup_insert_ne; [done|]. intros <-. by rewrite Hnew in Hin.
Qed.

End SubmitProps.

(** ** Witness: the instance's lock is held, so the run is skipped *)

Definition claimSubmitter : Submitter := {|
  SubmitGlobal := fun _ _ => tfail EDriver;
  SubmitInstance := fun sc id i =>
    let! _ := ClaimJob (mkJob "j1" (Sched.Kind sc) "" (InstanceLockKey id) (Some id) (iName i) (Some (Sched.ID sc)) true "{}"
      None false 0 None None None None None None 0 None None None 0 None None) "me" 90 0 None in tret tt;
  errorText := fun _ => "the submission failed"
|}.

Lemma claimSubmitter_frame : @SubmitFrame claimSubmitter.
Proof.
  split; simpl; [by intros _ _ s e s' [= _ <-]|]. intros sc id i s e s'. unfold tbind, ClaimJob, ClaimJobWithLocks.
  match goal with |- context [inTx ?m s] => destruct (inTx m s) as [[x|e1] s1] eqn:E end; [done|].
  intros [= _ <-]. by apply inTx_Err in E.
Qed.

Definition backupDue : Schedule :=
  Sched.mkSchedule "s1" (Some "i1") "backup" "0 3 * * *" "UTC" true None (Some 0) false 0 None.
Definition busyStore : SubmitDB := mkSubmitDB (mkDB
  {[ "j0" := mkJob "j0" "stop" StatusRunning "instance:i1" (Some "i1") "Midgard" None false "{}" None false 0 None
       (Some "me") (Some 90) None None None 1 None None None 0 (Some 0) None ]}
  {[ "instance:i1" := ("j0", 0) ]} {[ "i1" := mkInst "Midgard" StateRunning (Some "c1") None false false None 0 ]}
  ∅ {[ "s1" ]} ∅) [].

Lemma Enqueue_spec_witness : exists s' row,
  @Enqueue claimSubmitter "j2" 60 backupDue KindBackup false (busyStore, []) = (Ok tt, s') /\
  skipped row busyStore s'.1 /\ Status row = StatusCancelled /\
  Error row = Some "This scheduled run was skipped: job j0 (kind stop) already holds this lock".
Proof.
  destruct (@Enqueue claimSubmitter "j2" 60 backupDue KindBackup false (busyStore, [])) as [r s'] eqn:E.
  destruct (@Enqueue_spec claimSubmitter claimSubmitter_frame "j2" 60 backupDue KindBackup "i1" (busyStore, []) r s'
    eq_refl E) as [[_ (i & fs & _ & _ & _ & Hs)]|[[-> (i & c & row & _ & _ & Hsk & Hid & Hst & _ & _ & _ & _)]|[Hs _]]].
  - vm_compute in E. injection E as <- <-. do 3 (destruct fs as [|[] fs]; [discriminate Hs|discriminate Hs|]). discriminate Hs.
  - exists s', row. split; [done|]. split; [done|]. split; [done|]. destruct Hsk as [_ Hsk].
    assert (runs (store s'.1) !! "j2" = Some row) as Hrow.
    { rewrite Hsk, <- Hid. simpl. by rewrite lookup_insert_eq. }
    vm_compute in E. injection E as <-. vm_compute in Hrow. by injection Hrow as <-.
  - vm_compute in E. injection E as <- <-. apply (f_equal (fun d => runs (store d) !! "j2")) in Hs.
    vm_compute in Hs. discriminate.
Defined.
