(* ===== verification/Paths.v ===== *)
(** Slash-separated paths as the panel's file handling reads them: [path.Clean]
    and [path.Join], [filepath.IsLocal], and the two checks that stand between a
    name from outside and the server root, installer's CheckDest and
    CheckFullName. *)
From S2P Require Import Prelude GoBytes.
Open Scope list_scope.

(** A path inside a tree, from its root. *)
Abbreviation path := (list bytes) (only parsing).

Definition slash : ascii := "/"%char.
Definition backslash : ascii := "\"%char.
Definition dot : bytes := L ".".
Definition dotdot : bytes := L "..".

(** ** Package path *)

Definition IsAbs (p : bytes) : bool := hasPrefix [slash] p.

(** One component against the cleaned ones before it, the last first: an empty
    component and "." vanish, ".." takes the component before it away, stays at
    the head of a relative path and vanishes at the root. *)
Definition cleanStep (rooted : bool) (out : path) (c : bytes) : path :=
  if bool_decide (c = []) || bool_decide (c = dot) then out
  else if bool_decide (c = dotdot) then
    match out with
    | [] => if rooted then [] else [dotdot]
    | x :: out' => if bool_decide (x = dotdot) then dotdot :: out else out'
    end
  else c :: out.

Definition components (p : bytes) : path := rev (fold_left (cleanStep (IsAbs p)) (split slash p) []).

Definition Clean (p : bytes) : bytes :=
  if IsAbs p then slash :: join [slash] (components p)
  else match components p with [] => dot | cs => join [slash] cs end.

(** [path.Join]. *)
Definition Join (elems : list bytes) : bytes :=
  match filter (fun e => e <> []) elems with
  | [] => []
  | es => Clean (join [slash] es)
  end.

(** [filepath.IsLocal] on a Unix host. *)
Definition IsLocal (p : bytes) : bool :=
  negb (bool_decide (p = [])) && negb (IsAbs p) &&
  match components p with c :: _ => negb (bool_decide (c = dotdot)) | [] => true end.

(** ** The checks (mods/installer) *)

Inductive PathErr := ErrUnsafeDest | ErrInvalidFullName.
#[export] Instance PathErr_eq_dec : EqDecision PathErr.
Proof. solve_decision. Defined.

(** [CheckDest]; the path it returns is joined below the server root. *)
Definition CheckDest (dest : bytes) : result PathErr path :=
  if bool_decide (dest = []) || IsAbs dest || negb (IsLocal (Clean dest)) then Err ErrUnsafeDest
  else Ok (components (Clean dest)).

Definition CheckFullName (fullName : bytes) : result PathErr unit :=
  when bool_decide (fullName = []) fail ErrInvalidFullName then
  when containsAny [slash; backslash] fullName fail ErrInvalidFullName then
  when bool_decide (fullName = dot) || negb (IsLocal fullName) fail ErrInvalidFullName then
  Ok tt.

(** ** Lemmas *)

(** What a directory entry may be called. *)
Definition plain (c : bytes) : Prop := c <> [] /\ c <> dot /\ c <> dotdot /\ slash ∉ c.

#[export] Instance plain_dec c : Decision (plain c).
Proof. unfold plain. apply _. Defined.

(** A cleaned relative path: the ".."s come first, the rest is plain. *)
Definition clean_rev (out : path) : Prop :=
  exists ps n, out = ps ++ replicate n dotdot /\ Forall plain ps.

Lemma cleanStep_clean out c : slash ∉ c -> clean_rev out -> clean_rev (cleanStep false out c).
Proof.
  intros Hs (ps & n & -> & Hp). unfold cleanStep.
  destruct (bool_decide (c = [])) eqn:E0; [by exists ps, n|]. destruct (bool_decide (c = dot)) eqn:E1; [by exists ps, n|].
  simpl. destruct (bool_decide (c = dotdot)) eqn:E2; prop_bool.
  - destruct ps as [|x ps]; simpl.
    + destruct n; simpl; [by exists [], 1|]. by exists [], (S (S n)).
    + apply Forall_cons in Hp as [Hx Hp]. rewrite bool_decide_false by apply Hx. by exists ps, n.
  - exists (c :: ps), n. split; [done|]. by constructor.
Qed.

Lemma components_clean p : IsAbs p = false -> clean_rev (rev (components p)).
Proof.
  intros Ha. unfold components. rewrite Ha, rev_involutive.
  apply (fold_left_inv clean_rev); [by exists [], 0|]. intros out c Hc%split_no_sep. by apply cleanStep_clean.
Qed.

(** A local path is a path of plain components. *)
Lemma IsLocal_plain p : IsLocal p = true -> Forall plain (components p).
Proof.
  unfold IsLocal. rewrite !andb_true_iff, !negb_true_iff. intros [[_ Ha] Hh].
  apply components_clean in Ha as (ps & n & E & Hp). apply (f_equal (@rev _)) in E. rewrite rev_involutive in E.
  rewrite rev_app_distr in E. destruct n as [|n]; cycle 1.
  { rewrite replicate_S_end, rev_app_distr in E. rewrite E in Hh. discriminate Hh. }
  rewrite E. simpl. by rewrite <- (Permutation_rev ps).
Qed.

Lemma plain_step out c : plain c -> cleanStep false out c = c :: out.
Proof. intros (H1 & H2 & H3 & _). unfold cleanStep. by rewrite !bool_decide_false. Qed.

Lemma plain_fold cs out : Forall plain cs -> fold_left (cleanStep false) cs out = rev cs ++ out.
Proof.
  revert out. induction cs as [|c cs IH]; intros out; simpl; [done|]. rewrite Forall_cons. intros [Hc Hcs].
  by rewrite plain_step, IH, <- app_assoc by done.
Qed.

Lemma plain_join_abs cs : Forall plain cs -> IsAbs (join [slash] cs) = false.
Proof.
  intros Hp. destruct cs as [|c cs]; [done|]. apply Forall_cons in Hp as [(H1 & _ & _ & H4) _].
  destruct c as [|a c]; [done|]. unfold IsAbs. assert (slash <> a) as Hne by (intros <-; apply H4; left).
  assert (exists t, join [slash] ((a :: c) :: cs) = a :: t) as [t ->] by (destruct cs; simpl; by eauto).
  simpl. rewrite (proj2 (is_byte_false _ _)); [done|congruence].
Qed.

(** Plain components survive a round trip through the rendered path. *)
Lemma components_join cs : Forall plain cs -> cs <> [] -> components (join [slash] cs) = cs.
Proof.
  intros Hp Hne. unfold components. rewrite plain_join_abs by done. rewrite split_join; [|done|].
  - by rewrite plain_fold, app_nil_r, rev_involutive.
  - intros w Hw. by apply (proj1 (Forall_forall plain cs) Hp) in Hw as (_ & _ & _ & ?).
Qed.

Lemma components_Clean p : IsAbs p = false -> Forall plain (components p) -> components (Clean p) = components p.
Proof.
  intros Ha Hp. unfold Clean. rewrite Ha. destruct (components p) as [|c cs] eqn:E; [done|].
  by apply components_join.
Qed.

(** ** The reference: a walk that never leaves its root

    The directory reached from the root by following the components one at a
    time, the deepest first; [None] once the walk has climbed out. *)
Fixpoint walk (cur : path) (cs : list bytes) : option path :=
  match cs with
  | [] => Some cur
  | c :: cs =>
      if decide (c = [] \/ c = dot) then walk cur cs
      else if decide (c = dotdot) then match cur with [] => None | _ :: up => walk up cs end
      else walk (c :: cur) cs
  end.

Lemma cleanStep_walk cur c : cleanStep false cur c =
  if decide (c = [] \/ c = dot) then cur
  else if decide (c = dotdot) then match cur with
    | [] => [dotdot]
    | x :: up => if bool_decide (x = dotdot) then dotdot :: cur else up end
  else c :: cur.
Proof.
  unfold cleanStep. repeat case_decide; repeat case_bool_decide; naive_solver.
Qed.

Lemma walk_fold cs : forall cur p, Forall plain cur -> (forall c, c ∈ cs -> slash ∉ c) -> walk cur cs = Some p ->
  fold_left (cleanStep false) cs cur = p /\ Forall plain p.
Proof.
  induction cs as [|c cs IH]; intros cur p Hcur Hs; cbn [walk fold_left]; [by intros [= <-]|].
  assert (forall c, c ∈ cs -> slash ∉ c) as Hs' by (intros; apply Hs; by right).
  rewrite cleanStep_walk. destruct (decide _); [by apply IH|]. destruct (decide _).
  - destruct cur as [|x up]; [done|]. apply Forall_cons in Hcur as [Hx Hup].
    rewrite bool_decide_false by apply Hx. by apply IH.
  - apply IH; [|done]. constructor; [|done]. unfold plain. assert (slash ∉ c) by (apply Hs; left). naive_solver.
Qed.

Lemma walk_escape cs : forall cur, Forall plain cur -> (forall c, c ∈ cs -> slash ∉ c) -> walk cur cs = None ->
  exists ps n, fold_left (cleanStep false) cs cur = ps ++ replicate (S n) dotdot /\ Forall plain ps.
Proof.
  assert (forall cs ps n, Forall plain ps -> (forall c, c ∈ cs -> slash ∉ c) ->
    exists ps' n', fold_left (cleanStep false) cs (ps ++ replicate (S n) dotdot) = ps' ++ replicate (S n') dotdot /\
      Forall plain ps') as Hstuck.
  { clear cs. induction cs as [|c cs IH]; intros ps n Hps Hs; cbn [fold_left]; [by exists ps, n|].
    assert (slash ∉ c) as Hc by (apply Hs; left).
    assert (forall c, c ∈ cs -> slash ∉ c) as Hs' by (intros; apply Hs; by right).
    rewrite cleanStep_walk. destruct (decide _) as [|H1]; [by apply IH|]. destruct (decide _) as [|H2].
    - destruct ps as [|x ps]; [exact (IH [] (S n) Hps Hs')|]. apply Forall_cons in Hps as [Hx Hps].
      cbn [app]. rewrite bool_decide_false by apply Hx. by apply IH.
    - apply (IH (c :: ps) n); [|done]. constructor; [|done]. unfold plain. naive_solver. }
  induction cs as [|c cs IH]; intros cur Hcur Hs; cbn [walk fold_left]; [done|].
  assert (slash ∉ c) as Hc by (apply Hs; left).
  assert (forall c, c ∈ cs -> slash ∉ c) as Hs' by (intros; apply Hs; by right).
  rewrite cleanStep_walk. destruct (decide _) as [|H1]; [by apply IH|]. destruct (decide _) as [|H2].
  - destruct cur as [|x up]; [intros _; exact (Hstuck cs [] 0 Hcur Hs')|]. apply Forall_cons in Hcur as [Hx Hup].
    rewrite bool_decide_false by apply Hx. by apply IH.
  - apply IH; [|done]. constructor; [|done]. unfold plain. naive_solver.
Qed.

Lemma components_walk p : IsAbs p = false ->
  match walk [] (split slash p) with
  | Some q => components p = rev q /\ Forall plain q
  | None => exists ps, components p = dotdot :: ps
  end.
Proof.
  intros Ha. unfold components. rewrite Ha. assert (forall c, c ∈ split slash p -> slash ∉ c) as Hs
    by (intros c; apply split_no_sep). destruct (walk _ _) as [q|] eqn:E.
  - destruct (walk_fold _ [] q (Forall_nil_2 plain) Hs E) as [-> ?]. done.
  - destruct (walk_escape _ [] (Forall_nil_2 plain) Hs E) as (ps & n & -> & _).
    rewrite rev_app_distr, replicate_S_end, rev_app_distr. simpl. by eexists.
Qed.

Lemma IsLocal_Clean p : p <> [] -> IsAbs p = false ->
  IsLocal (Clean p) = bool_decide (is_Some (walk [] (split slash p))) /\
  (is_Some (walk [] (split slash p)) -> components (Clean p) = components p).
Proof.
  intros Hne Ha. pose proof (components_walk p Ha) as Hw. destruct (walk _ _) as [q|].
  - destruct Hw as [Hc Hq]. assert (Forall plain (components p)) as Hp by (rewrite Hc; by rewrite <- (Permutation_rev q)).
    rewrite components_Clean by done. split; [|done]. rewrite bool_decide_true by done. unfold IsLocal.
    rewrite components_Clean by done. assert (IsAbs (Clean p) = false /\ Clean p <> []) as [-> Hne'].
    { unfold Clean. rewrite Ha. destruct (components p) as [|c cs] eqn:E; [done|]. split; [by apply plain_join_abs|].
      apply Forall_cons in Hp as [[Hc0 _] _]. destruct c; [done|]. by destruct cs. }
    rewrite bool_decide_false by done. simpl. destruct (components p) as [|c cs]; [done|].
    apply Forall_cons in Hp as [Hc' _]. by rewrite bool_decide_false by apply Hc'.
  - destruct Hw as [ps Hc]. split; [|by intros []]. rewrite bool_decide_false by (by intros []).
    unfold Clean. rewrite Ha, Hc. unfold IsLocal. apply andb_false_intro2.
    assert (IsAbs (join [slash] (dotdot :: ps)) = false /\ walk [] (split slash (join [slash] (dotdot :: ps))) = None)
      as [Ha' Hw'].
    { destruct ps as [|b ps]; [done|].
      change (join [slash] (dotdot :: b :: ps)) with (dotdot ++ slash :: join [slash] (b :: ps)).
      rewrite split_app by (by apply (bool_decide_unpack _)). done. }
    pose proof (components_walk _ Ha') as Hc'. rewrite Hw' in Hc'. destruct Hc' as [ps' ->].
    by rewrite bool_decide_true.
Qed.

(** ** Properties *)

(** A destination is accepted exactly when it is a nonempty relative path whose
    components, followed one at a time from the server root, never climb out of
    it; the path that is then used is where that walk ends. *)
Theorem CheckDest_spec dest :
  CheckDest dest =
    if bool_decide (dest = []) || IsAbs dest then Err ErrUnsafeDest
    else match walk [] (split slash dest) with
         | Some p => Ok (rev p)
         | None => Err ErrUnsafeDest
         end.
Proof.
  unfold CheckDest. destruct (bool_decide (dest = [])) eqn:Hne; [done|]. destruct (IsAbs dest) eqn:Ha; [done|].
  prop_bool. destruct (IsLocal_Clean dest Hne Ha) as [-> Hc]. pose proof (components_walk dest Ha) as Hw.
  destruct (walk _ _) as [q|] eqn:E; cbn [orb].
  - rewrite bool_decide_true by done. simpl. rewrite Hc by done. by destruct Hw as [-> _].
  - by rewrite bool_decide_false by (by intros []).
Qed.

Lemma CheckDest_plain dest p : CheckDest dest = Ok p -> Forall plain p.
Proof.
  unfold CheckDest. destruct (_ || _) eqn:E; [done|]. intros [= <-]. apply IsLocal_plain. by prop_bool.
Qed.

(** Rendered plain components are accepted as they are. *)
Lemma CheckDest_join cs : Forall plain cs -> cs <> [] -> CheckDest (join [slash] cs) = Ok cs.
Proof.
  intros Hp Hne. assert (join [slash] cs <> []) as Hj.
  { destruct cs as [|c cs]; [done|]. apply Forall_cons in Hp as [[Hc _] _]. destruct c; [done|]. by destruct cs. }
  pose proof (components_join cs Hp Hne) as Hc. pose proof (plain_join_abs cs Hp) as Ha.
  unfold CheckDest. rewrite bool_decide_false, Ha by done. cbn [orb].
  rewrite components_Clean by (done || by rewrite Hc). rewrite Hc.
  assert (IsLocal (Clean (join [slash] cs)) = true) as ->; [|done].
  unfold Clean. rewrite Ha, Hc. destruct cs as [|c cs]; [done|]. unfold IsLocal.
  rewrite bool_decide_false, Ha, Hc by done. apply Forall_cons in Hp as [Hp _].
  by rewrite bool_decide_false by apply Hp.
Qed.

(** A full name is accepted exactly when it is one plain path component free of
    separators of either kind. *)
Theorem CheckFullName_spec fullName :
  CheckFullName fullName = if decide (plain fullName /\ backslash ∉ fullName) then Ok tt else Err ErrInvalidFullName.
Proof.
  unfold CheckFullName. destruct (bool_decide (fullName = [])) eqn:E0; prop_bool.
  { subst. by rewrite decide_False by (by intros [[? _] _]). }
  destruct (containsAny [slash; backslash] fullName) eqn:E1.
  { rewrite decide_False; [done|]. intros [(_ & _ & _ & Hs) Hb]. apply existsb_elem_of in E1 as (c & Hc & Hin%one_of_spec).
    set_solver. }
  assert (slash ∉ fullName /\ backslash ∉ fullName) as [Hs Hb].
  { assert (forall c, c ∈ [slash; backslash] -> c ∉ fullName) as Hno; [|split; apply Hno; set_solver].
    intros c Hc Hin. unfold containsAny in E1. rewrite <- not_true_iff_false, existsb_elem_of in E1.
    apply E1. exists c. by rewrite one_of_spec. }
  destruct (bool_decide (fullName = dot)) eqn:E2; prop_bool.
  { subst. by rewrite decide_False by (by intros [(_ & ? & _) _]). }
  assert (IsAbs fullName = false) as Ha.
  { destruct fullName as [|a n]; [done|]. unfold IsAbs. cbn [hasPrefix]. rewrite (proj2 (is_byte_false _ _)); [done|set_solver]. }
  unfold IsLocal. rewrite bool_decide_false, Ha by done. unfold components. rewrite Ha, split_nosep by done.
  cbn [fold_left]. rewrite cleanStep_walk, decide_False by naive_solver. destruct (decide (fullName = dotdot)) as [->|Hne].
  - by rewrite decide_False by (by intros [(_ & _ & ? & _) _]).
  - rewrite decide_True by (by unfold plain). simpl. by rewrite bool_decide_false.
Qed.
