(* ===== verification/Installer.v ===== *)
(** internal/mods/installer plan.go and diff.go, and the manifest bookkeeping of
    park.go: where the files of a staged package belong, what applying them would
    change, and what the file manifest records.  Everything here is a decision;
    InstallFS carries them out. *)
From S2P Require Import Prelude GoBytes Paths.
Open Scope list_scope.

(** ** The staging directory

    A directory's entries are listed as [os.ReadDir] lists them, by name. *)
Inductive Entry :=
| EFile (content : bytes)
| EDir (kids : list (bytes * Entry))
| EOther.                                (* a pipe, a device, a link *)

Definition isDir (e : Entry) : bool := match e with EDir _ => true | _ => false end.

(** ** Plan (plan.go) *)

Record Placement := mkPlacement { Source : path; Dest : bytes }.
#[export] Instance Placement_eq_dec : EqDecision Placement.
Proof. solve_decision. Defined.

Inductive PlanErr :=
| PlanName (e : PathErr)
| ErrUnsupportedEntry
| DuplicateDestError (dest : bytes) (first second : path).

Definition metadata : list bytes := [L "manifest.json"; L "icon.png"; L "readme.md"; L "changelog.md"].

Definition mergeDirs : list (bytes * bytes) :=
  [(L "BepInEx", L "BepInEx"); (L "plugins", L "BepInEx/plugins"); (L "config", L "BepInEx/config");
   (L "patchers", L "BepInEx/patchers")].

Fixpoint lookupName {A} (n : bytes) (l : list (bytes * A)) : option A :=
  match l with
  | [] => None
  | (k, v) :: l => if bool_decide (k = n) then Some v else lookupName n l
  end.

Definition mergeDir (name : bytes) : option bytes := lookupName name mergeDirs.

(** [WalkDir]: the regular files below an entry, by their paths from it. *)
Fixpoint filesOf (rel : path) (e : Entry) {struct e} : result PlanErr (list path) :=
  match e with
  | EFile _ => Ok [rel]
  | EOther => Err ErrUnsupportedEntry
  | EDir kids =>
      (fix go (ks : list (bytes * Entry)) : result PlanErr (list path) :=
         match ks with
         | [] => Ok []
         | (n, k) :: ks => let? a := filesOf (rel ++ [n]) k in let? b := go ks in Ok (a ++ b)
         end) kids
  end.

Definition walkFiles (dir : path) (e : Entry) (destPrefix : bytes) : result PlanErr (list Placement) :=
  let? rels := filesOf [] e in
  Ok (map (fun rel => mkPlacement (dir ++ rel) (Join [destPrefix; join [slash] rel])) rels).

Definition destFor (name : bytes) (e : Entry) (fullName : bytes) : bytes :=
  match (if isDir e then mergeDir name else None) with
  | Some dest => dest
  | None => Join [L "BepInEx/plugins"; fullName; name]
  end.

Definition frameworkWrapper (payload : list (bytes * Entry)) : option (bytes * Entry) :=
  match payload with
  | [(name, EDir kids)] =>
      match lookupName (L "BepInEx") kids with
      | Some (EDir _) => Some (name, EDir kids)
      | _ => None
      end
  | _ => None
  end.

Fixpoint checkNoDuplicateDest (seen : gmap bytes path) (placements : list Placement) : result PlanErr unit :=
  match placements with
  | [] => Ok tt
  | p :: ps =>
      match seen !! Dest p with
      | Some first => Err (DuplicateDestError (Dest p) first (Source p))
      | None => checkNoDuplicateDest (<[Dest p := Source p]> seen) ps
      end
  end.

(** One top-level entry. *)
Definition placeEntry (fullName : bytes) (ne : bytes * Entry) : result PlanErr (list Placement) :=
  let '(name, e) := ne in
  match e with
  | EDir _ => walkFiles [name] e (destFor name e fullName)
  | EFile _ => Ok [mkPlacement [name] (destFor name e fullName)]
  | EOther => Err ErrUnsupportedEntry
  end.

Fixpoint placeEntries (fullName : bytes) (payload : list (bytes * Entry)) : result PlanErr (list Placement) :=
  match payload with
  | [] => Ok []
  | ne :: payload =>
      let? a := placeEntry fullName ne in
      let? b := placeEntries fullName payload in
      Ok (a ++ b)
  end.

Section Plan.
Context `{UnicodeTables}.

Definition isMetadata (name : bytes) : bool := bool_decide (toLower name ∈ metadata).
Definition payloadOf (entries : list (bytes * Entry)) : list (bytes * Entry) :=
  filter (fun ne => isMetadata ne.1 = false) entries.

Definition Plan (entries : list (bytes * Entry)) (fullName : bytes) : result PlanErr (list Placement) :=
  match CheckFullName fullName with
  | Err e => Err (PlanName e)
  | Ok _ =>
      let payload := payloadOf entries in
      match frameworkWrapper payload with
      | Some (name, e) => walkFiles [name] e []
      | None =>
          let? out := placeEntries fullName payload in
          let? _ := checkNoDuplicateDest ∅ out in
          Ok out
      end
  end.

End Plan.

(** ** Diff (diff.go) *)

Inductive Action := ActionCreate | ActionOverwrite | ActionSkip.
#[export] Instance Action_eq_dec : EqDecision Action.
Proof. solve_decision. Defined.

Record Change := mkChange { chPlacement : Placement; chAction : Action; chReason : bytes; chUnowned : bool }.
#[export] Instance Change_eq_dec : EqDecision Change.
Proof. solve_decision. Defined.
Definition chDest (c : Change) : bytes := Dest (chPlacement c).

Inductive Unowned := UnownedAsk | UnownedKeep | UnownedReplace.

Definition skipUnownedKept : bytes := L "a file no mod owns was already there and is kept".

(** [ApplyUnowned]: the changes as it leaves them, and the waiting paths. *)
Definition answerOne (answer : Unowned) (c : Change) : Change :=
  if chUnowned c then
    match answer with
    | UnownedKeep => mkChange (chPlacement c) ActionSkip skipUnownedKept (chUnowned c)
    | _ => c
    end
  else c.
Definition ApplyUnowned (changes : list Change) (answer : Unowned) : list Change * list bytes :=
  (map (answerOne answer) changes,
   match answer with
   | UnownedAsk => map chDest (filter (fun c => chUnowned c = true) changes)
   | _ => []
   end).

Definition configRoot : bytes := L "BepInEx/config/".
Definition skipConfigExists : bytes := L "a config file already exists; user settings are never overwritten".
Definition UserConfig (dest : bytes) : bool := hasPrefix configRoot dest.

Inductive DiffErr :=
| DiffDest (e : PathErr)
| ConflictError (p owner : bytes)
| DiffStat.                               (* a stat failed, or the name is no regular file *)

(** One placement.  [exists_] is [regularFileExists]: whether the destination is
    a regular file, [None] where that cannot be said. *)
Definition diffOne (fullName : bytes) (exists_ : path -> option bool) (claims : gmap bytes bytes) (p : Placement) :
    result DiffErr Change :=
  match CheckDest (Dest p) with
  | Err e => Err (DiffDest e)
  | Ok dest =>
      match exists_ dest with
      | None => Err DiffStat
      | Some present =>
          if present && hasPrefix configRoot (Dest p) then Ok (mkChange p ActionSkip skipConfigExists false)
          else
            let claimed := claims !! Dest p in
            match claimed with
            | Some owner =>
                if negb (bool_decide (owner = [])) && negb (bool_decide (owner = fullName))
                then Err (ConflictError (Dest p) owner)
                else Ok (mkChange p (if present then ActionOverwrite else ActionCreate) [] false)
            | None => Ok (mkChange p (if present then ActionOverwrite else ActionCreate) [] present)
            end
      end
  end.

Fixpoint Diff (fullName : bytes) (placements : list Placement) (exists_ : path -> option bool)
    (claims : gmap bytes bytes) : result DiffErr (list Change) :=
  match placements with
  | [] => Ok []
  | p :: ps =>
      let? c := diffOne fullName exists_ claims p in
      let? cs := Diff fullName ps exists_ claims in
      Ok (c :: cs)
  end.

(** ** The manifest (diff.go, park.go) *)

Record ManifestEntry := mkEntry { mPath : bytes; mSHA256 : string; mParked : bool }.
#[export] Instance ManifestEntry_eq_dec : EqDecision ManifestEntry.
Proof. solve_decision. Defined.

Definition writes (c : Change) : bool := negb (bool_decide (chAction c = ActionSkip)).
Definition DestPaths (changes : list Change) : list bytes := map chDest (filter (fun c => writes c = true) changes).

(** [sum] is the hash of a staged file, [None] where it cannot be read. *)
Fixpoint Manifest (sum : path -> option string) (changes : list Change) : option (list ManifestEntry) :=
  match changes with
  | [] => Some []
  | c :: cs =>
      if bool_decide (chAction c = ActionSkip) then Manifest sum cs
      else match sum (Source (chPlacement c)) with
           | None => None
           | Some h => out ← Manifest sum cs; Some (mkEntry (chDest c) h false :: out)
           end
  end.

Definition Paths (manifest : list ManifestEntry) : list bytes := map mPath manifest.
Definition Movable (manifest : list ManifestEntry) : list bytes :=
  map mPath (filter (fun e => negb (mParked e) && negb (UserConfig (mPath e)) = true) manifest).
Definition ParkedPaths (manifest : list ManifestEntry) : list bytes :=
  map mPath (filter (fun e => mParked e = true) manifest).
Definition Split (manifest : list ManifestEntry) : list ManifestEntry * list ManifestEntry :=
  (filter (fun e => mParked e = false) manifest, filter (fun e => mParked e = true) manifest).
Definition MarkParked (manifest : list ManifestEntry) (paths : list bytes) : list ManifestEntry :=
  map (fun e => mkEntry (mPath e) (mSHA256 e) (bool_decide (mPath e ∈ paths))) manifest.

(** ** What a staging directory is *)

Lemma Entry_nested_ind (P : Entry -> Prop) : (forall c, P (EFile c)) -> P EOther ->
  (forall kids, Forall (fun nk => P nk.2) kids -> P (EDir kids)) -> forall e, P e.
Proof.
  intros Hf Ho Hd. fix IH 1. intros [c|kids|]; [apply Hf| |apply Ho].
  apply Hd. induction kids as [|[n k] kids IHk]; constructor; [apply IH|exact IHk].
Qed.

Fixpoint at_ (e : Entry) (p : path) {struct p} : option Entry :=
  match p with
  | [] => Some e
  | n :: p => match e with EDir kids => k ← lookupName n kids; at_ k p | _ => None end
  end.

(** Siblings have different plain names. *)
Inductive entryWf : Entry -> Prop :=
| wf_file c : entryWf (EFile c)
| wf_other : entryWf EOther
| wf_dir kids : kidsWf kids -> entryWf (EDir kids)
with kidsWf : list (bytes * Entry) -> Prop :=
| wf_nil : kidsWf []
| wf_cons n e kids : plain n -> n ∉ map fst kids -> entryWf e -> kidsWf kids -> kidsWf ((n, e) :: kids).

Definition isFileAt (e : Entry) (p : path) : Prop := exists c, at_ e p = Some (EFile c).

Lemma lookupName_elem {A} n (l : list (bytes * A)) v : lookupName n l = Some v -> (n, v) ∈ l.
Proof.
  induction l as [|[k w] l IH]; simpl; [done|]. case_bool_decide as E; [|intros; right; auto].
  intros [= ->]. rewrite E. left.
Qed.

Lemma lookupName_wf n e kids : kidsWf kids -> (n, e) ∈ kids -> lookupName n kids = Some e.
Proof.
  induction 1 as [|m k kids Hm Hnd Hk Hks IH]; [by intros ?%elem_of_nil|]. cbn [lookupName].
  intros [[= <- <-]|Hin]%elem_of_cons; [by rewrite bool_decide_true|].
  rewrite bool_decide_false; [by apply IH|]. intros ->. apply Hnd. apply list_elem_of_fmap. by exists (n, e).
Qed.

Lemma kidsWf_elem n e kids : kidsWf kids -> (n, e) ∈ kids -> plain n /\ entryWf e.
Proof.
  induction 1 as [|m k kids Hm Hnd Hk Hks IH]; [by intros ?%elem_of_nil|].
  intros [[= -> ->]|Hin]%elem_of_cons; auto.
Qed.

(** The files found are those that are there, each once. *)
Definition lists (e : Entry) (gs : list path) : Prop :=
  NoDup gs /\ (forall g, g ∈ gs <-> isFileAt e g) /\ Forall (Forall plain) gs.

Lemma filesOf_lists e : entryWf e -> forall rel fs, filesOf rel e = Ok fs ->
  exists gs, fs = map (app rel) gs /\ lists e gs.
Proof.
  induction e as [c| |kids IH] using Entry_nested_ind; intros Hwf rel fs; [|done|].
  - intros [= <-]. exists [[]]. simpl. rewrite app_nil_r. split; [done|]. split; [|split]; [apply NoDup_singleton| |by repeat constructor].
    intros g. rewrite list_elem_of_singleton. unfold isFileAt. split; [intros ->; by exists c|]. by destruct g as [|n g]; intros [? ?].
  - inversion Hwf as [| |kids' Hk]; subst kids'. intros Hgo. simpl in Hgo.
    enough (exists gs, fs = map (app rel) gs /\ NoDup gs /\ Forall (Forall plain) gs /\
      forall g, g ∈ gs <-> exists n k g', g = n :: g' /\ (n, k) ∈ kids /\ isFileAt k g') as (gs & -> & Hnd & Hpl & Hgs).
    { exists gs. split; [done|]. split; [done|]. split; [|done]. intros g. rewrite Hgs. unfold isFileAt. split.
      - intros (n & k & g' & -> & Hin & Hg'). simpl. by rewrite (lookupName_wf n k kids).
      - destruct g as [|n g']; simpl; [by intros [? ?]|]. destruct (lookupName n kids) as [k|] eqn:El; [|by intros [? ?]].
        intros Hg'. exists n, k, g'. split; [done|]. split; [by apply lookupName_elem|done]. }
    clear Hwf. revert fs Hgo. induction Hk as [|n k kids Hn Hnd Hk Hks IHk]; intros fs Hgo.
    { injection Hgo as <-. exists []. split; [done|]. split; [constructor|]. split; [constructor|]. intros g.
      split; [by intros ?%elem_of_nil|]. by intros (? & ? & ? & _ & ?%elem_of_nil & _). }
    apply Forall_cons in IH as [IH IHs]. simpl in IH.
    destruct (filesOf (rel ++ [n]) k) as [a|] eqn:Ea; [|done]. cbn [rbind] in Hgo.
    match type of Hgo with rbind ?m _ = _ => destruct m as [b|] eqn:Eb; [|done] end. injection Hgo as <-.
    destruct (IH Hk _ _ Ea) as (ga & -> & Hnda & Hga & Hpa). destruct (IHk IHs _ eq_refl) as (gb & -> & Hndb & Hpb & Hgb).
    exists (map (cons n) ga ++ gb). split_and!.
    + rewrite map_app, map_map. f_equal. apply map_ext. intros g. by rewrite <- app_assoc.
    + apply NoDup_app. split; [by apply (NoDup_fmap_2 _)|]. split; [|done]. intros g (g' & -> & _)%list_elem_of_fmap Hin.
      apply Hgb in Hin as (n' & k' & g'' & [= <- ->] & Hin & _). apply Hnd, list_elem_of_fmap. by exists (n, k').
    + apply Forall_app. split; [|done]. apply Forall_fmap. eapply Forall_impl; [exact Hpa|]. by constructor.
    + intros g. rewrite elem_of_app, Hgb. setoid_rewrite elem_of_cons. rewrite list_elem_of_fmap. split.
      * intros [(g' & -> & Hg')|(n' & k' & g' & -> & Hin & Hf)]; [apply Hga in Hg'; naive_solver|naive_solver].
      * intros (n' & k' & g' & -> & [[= -> ->]|Hin] & Hf); [left; exists g'; by rewrite Hga|right; by eauto 10].
Qed.

(** ** Joined paths *)

Lemma join_nonempty cs : Forall plain cs -> (join [slash] cs <> [] <-> cs <> []).
Proof.
  destruct cs as [|c cs]; [done|]. rewrite Forall_cons. intros [[Hc _] _]. destruct c; [done|]. by destruct cs.
Qed.

Lemma join_concat ls : Forall (fun cs => cs <> []) ls -> join [slash] (map (join [slash]) ls) = join [slash] (concat ls).
Proof.
  induction ls as [|cs ls IH]; [done|]. rewrite Forall_cons. intros [Hc Hls]. specialize (IH Hls). cbn [map concat].
  destruct ls as [|ds ls]; [simpl; by rewrite app_nil_r|]. apply Forall_cons in Hls as [Hd _].
  change (join [slash] (join [slash] cs :: map (join [slash]) (ds :: ls)))
    with (join [slash] cs ++ [slash] ++ join [slash] (map (join [slash]) (ds :: ls))). rewrite IH.
  assert (concat (ds :: ls) <> []) as Hne by (destruct ds; [done|]; by cbn). clear IH Hd. revert Hne.
  generalize (concat (ds :: ls)) as es. intros es Hes. induction cs as [|c cs IHc]; [done|].
  destruct cs as [|c' cs]; [by destruct es|]. change ((c :: c' :: cs) ++ es) with (c :: c' :: (cs ++ es)).
  change (join [slash] (c :: c' :: cs)) with (c ++ [slash] ++ join [slash] (c' :: cs)).
  change (join [slash] (c :: c' :: cs ++ es)) with (c ++ [slash] ++ join [slash] ((c' :: cs) ++ es)).
  rewrite <- IHc by done. by rewrite <- !app_assoc.
Qed.

Lemma Clean_plain cs : Forall plain cs -> cs <> [] -> Clean (join [slash] cs) = join [slash] cs.
Proof.
  intros Hp Hne. unfold Clean. rewrite plain_join_abs, components_join by done. by destruct cs.
Qed.

Lemma filter_nonempty ls : Forall (Forall plain) ls ->
  filter (fun e => e <> []) (map (join [slash]) ls) = map (join [slash]) (filter (fun cs : path => cs <> []) ls) /\
  concat (filter (fun cs : path => cs <> []) ls) = concat ls.
Proof.
  induction 1 as [|cs ls Hcs Hls [IH1 IH2]]; [done|]. cbn [map]. rewrite !filter_cons.
  pose proof (join_nonempty cs Hcs) as Hj. destruct (decide (cs <> [])) as [Hc|Hc].
  - rewrite decide_True by tauto. simpl. by rewrite IH1, IH2.
  - rewrite decide_False by tauto. rewrite IH1. split; [done|]. destruct cs; [|by destruct Hc].
    done.
Qed.

(** [path.Join] of rendered plain paths is the rendered concatenation. *)
Lemma Join_plain ls : Forall (Forall plain) ls -> concat ls <> [] ->
  Join (map (join [slash]) ls) = join [slash] (concat ls).
Proof.
  intros Hls Hne. destruct (filter_nonempty ls Hls) as [E1 E2]. unfold Join. rewrite E1.
  assert (Forall (fun cs : path => cs <> []) (filter (fun cs : path => cs <> []) ls)) as Hf
    by (apply Forall_forall; by intros cs [? _]%list_elem_of_filter).
  assert (Forall plain (concat ls)) as Hp by (by apply Forall_concat).
  destruct (filter _ ls) as [|cs rest] eqn:E; [by rewrite <- E2 in Hne|]. cbn [map].
  change (join [slash] cs :: map (join [slash]) rest) with (map (join [slash]) (cs :: rest)).
  rewrite (join_concat (cs :: rest)), E2 by done. by apply Clean_plain.
Qed.

(** ** Plan's result *)

(** The tree a top-level entry is merged into. *)
Definition topDest (fullName n : bytes) (e : Entry) : path :=
  match (if isDir e then mergeDir n else None) with
  | Some d => split slash d
  | None => [L "BepInEx"; L "plugins"; fullName; n]
  end.

Lemma mergeDir_plain n d : mergeDir n = Some d -> Forall plain (split slash d) /\ head (split slash d) = Some (L "BepInEx").
Proof.
  unfold mergeDir, mergeDirs. cbn [lookupName]. repeat case_bool_decide; intros [= <-];
    (split; [by apply (bool_decide_unpack _)|done]).
Qed.

Lemma topDest_spec fullName n e : plain fullName -> plain n ->
  Forall plain (topDest fullName n e) /\ topDest fullName n e <> [] /\
  destFor n e fullName = join [slash] (topDest fullName n e) /\ head (topDest fullName n e) = Some (L "BepInEx").
Proof.
  intros Hf Hn. unfold topDest, destFor. destruct (if isDir e then mergeDir n else None) as [d|] eqn:E.
  - destruct (isDir e); [|done]. destruct (mergeDir_plain n d E) as [Hp Hh]. split_and!; [done|apply split_not_nil|by rewrite join_split|done].
  - assert (Forall plain [L "BepInEx"; L "plugins"; fullName; n]) as Hp.
    { do 2 (constructor; [by apply (bool_decide_unpack _)|]). constructor; [done|]. by constructor. }
    split_and!; [done|done| |done].
    apply (Join_plain [[L "BepInEx"; L "plugins"]; [fullName]; [n]]); [|done].
    apply Forall_cons in Hp as [H1 [H2 [H3 [H4 _]%Forall_cons]%Forall_cons]%Forall_cons].
    repeat (constructor; try done).
Qed.

Lemma walkFiles_Ok dir e pc ps : entryWf e -> isDir e = true -> Forall plain pc ->
  walkFiles dir e (join [slash] pc) = Ok ps ->
  exists gs, lists e gs /\ ps = map (fun g => mkPlacement (dir ++ g) (join [slash] (pc ++ g))) gs.
Proof.
  intros Hwf Hd Hpc. unfold walkFiles. destruct (filesOf [] e) as [fs|] eqn:E; [|done]. cbn [rbind]. intros [= <-].
  destruct (filesOf_lists e Hwf [] fs E) as (gs & -> & Hl). exists gs. split; [done|].
  rewrite map_map. apply map_ext_in. intros g Hg%list_elem_of_In. simpl. f_equal.
  destruct Hl as (_ & Hin & Hpl). rewrite Forall_forall in Hpl.
  transitivity (join [slash] (concat [pc; g])); [apply (Join_plain [pc; g])|simpl; by rewrite app_nil_r].
  - constructor; [done|]. constructor; [auto|constructor].
  - simpl. rewrite app_nil_r. apply Hin in Hg as [c Hg]. destruct g; [|by destruct pc]. by destruct e.
Qed.

Lemma placements_plain ps : checkNoDuplicateDest ∅ ps = Ok tt <-> NoDup (map Dest ps).
Proof.
  enough (forall seen, checkNoDuplicateDest seen ps = Ok tt <->
    NoDup (map Dest ps) /\ forall d, d ∈ map Dest ps -> seen !! d = None) as Hg.
  { rewrite Hg. split; [by intros [? _]|]. intros Hn. split; [done|]. intros d _. apply lookup_empty. }
  induction ps as [|p ps IH]; intros seen; cbn [checkNoDuplicateDest map].
  { split; [|done]. intros _. split; [constructor|]. by intros d ?%elem_of_nil. }
  rewrite NoDup_cons. setoid_rewrite elem_of_cons. destruct (seen !! Dest p) as [x|] eqn:E.
  - split; [done|]. intros [_ Hs]. rewrite Hs in E by (by left). done.
  - rewrite IH. setoid_rewrite lookup_insert_None. split.
    + intros [Hn Hs]. split; [split; [|done]|]; [intros Hin; by destruct (Hs _ Hin)|].
      intros d [->|Hin]; [done|]. by apply Hs.
    + intros [[Hni Hn] Hs]. split; [done|]. intros d Hin. split; [apply Hs; by right|]. congruence.
Qed.

Lemma isFileAt_cons kids n e g : kidsWf kids -> (n, e) ∈ kids -> isFileAt (EDir kids) (n :: g) <-> isFileAt e g.
Proof. intros Hk Hin. unfold isFileAt. simpl. by rewrite (lookupName_wf n e). Qed.

Lemma isFileAt_inv kids src : isFileAt (EDir kids) src -> exists n e g, src = n :: g /\ (n, e) ∈ kids /\ isFileAt e g.
Proof.
  destruct src as [|n g]; intros [c Hc]; [done|]. simpl in Hc. destruct (lookupName n kids) as [e|] eqn:E; [|done].
  exists n, e, g. split; [done|]. split; [by apply lookupName_elem|]. by exists c.
Qed.

(** What one top-level entry contributes. *)
Lemma placeEntry_Ok fullName n e ps : plain fullName -> plain n -> entryWf e -> placeEntry fullName (n, e) = Ok ps ->
  exists gs, lists e gs /\ ps = map (fun g => mkPlacement (n :: g) (join [slash] (topDest fullName n e ++ g))) gs.
Proof.
  intros Hf Hn Hwf. destruct (topDest_spec fullName n e Hf Hn) as (Hp & _ & Hd & _). destruct e as [c|kids|]; cbn [placeEntry]; [..|done].
  - intros [= <-]. exists [[]]. split; [|cbn [map]; by rewrite Hd, app_nil_r]. split; [apply NoDup_singleton|].
    split; [|by repeat constructor]. intros g. rewrite list_elem_of_singleton. unfold isFileAt.
    split; [intros ->; by exists c|by destruct g; intros [? ?]].
  - rewrite Hd. intros (gs & Hl & ->)%(walkFiles_Ok [n] (EDir kids) _ _ Hwf eq_refl Hp). by exists gs.
Qed.

Record placed (fullName : bytes) (payload : list (bytes * Entry)) (ps : list Placement) : Prop := {
  placed_once : NoDup (map Source ps);
  placed_all src : src ∈ map Source ps <-> isFileAt (EDir payload) src;
  placed_at p : p ∈ ps -> exists n e g, Source p = n :: g /\ (n, e) ∈ payload /\ Forall plain g /\
    Dest p = join [slash] (topDest fullName n e ++ g)
}.

Lemma placeEntries_Ok fullName payload ps : plain fullName -> kidsWf payload ->
  placeEntries fullName payload = Ok ps -> placed fullName payload ps.
Proof.
  intros Hf Hk. revert ps. induction Hk as [|n e kids Hn Hnd He Hks IH]; intros ps; cbn [placeEntries].
  { intros [= <-]. split; [constructor| |by intros p ?%elem_of_nil]. intros src. split; [by intros ?%elem_of_nil|].
    intros (? & ? & ? & _ & ?%elem_of_nil & _)%isFileAt_inv. done. }
  destruct (placeEntry fullName (n, e)) as [a|] eqn:Ea; [|done]. cbn [rbind].
  destruct (placeEntries fullName kids) as [b|] eqn:Eb; [|done]. cbn [rbind]. intros [= <-].
  destruct (placeEntry_Ok _ _ _ _ Hf Hn He Ea) as (gs & (Hndg & Hg & Hpl) & ->). destruct (IH b eq_refl) as [Hb1 Hb2 Hb3].
  assert (kidsWf ((n, e) :: kids)) as Hwf by (by constructor).
  assert (forall g, g ∈ gs -> isFileAt (EDir ((n, e) :: kids)) (n :: g)) as Hhere
    by (intros g Hin; apply (isFileAt_cons _ n e g Hwf); [left|by apply Hg]).
  assert (map Source (map (fun g => mkPlacement (n :: g) (join [slash] (topDest fullName n e ++ g))) gs) = map (cons n) gs)
    as Hsrc by (by rewrite map_map).
  split; rewrite ?map_app, ?Hsrc.
  - apply NoDup_app. split; [by apply (NoDup_fmap_2 _)|]. split; [|done]. intros src (g & -> & _)%list_elem_of_fmap Hin.
    apply Hb2, isFileAt_inv in Hin as (n' & e' & g' & [= <- <-] & Hin & _). apply Hnd, list_elem_of_fmap. by exists (n, e').
  - intros src. rewrite elem_of_app, Hb2, list_elem_of_fmap. split.
    + intros [(g & -> & Hin)|(n' & e' & g' & -> & Hin & Hfile)%isFileAt_inv]; [by apply Hhere|].
      apply (isFileAt_cons _ n' e'); [done|by right|done].
    + intros (n' & e' & g' & -> & [[= -> ->]|Hin]%elem_of_cons & Hfile)%isFileAt_inv.
      * left. exists g'. by rewrite Hg.
      * right. by apply (isFileAt_cons kids n' e').
  - intros p [(g & -> & Hin)%list_elem_of_fmap|Hin]%elem_of_app.
    + exists n, e, g. split; [done|]. split; [left|]. split; [|done]. by apply (proj1 (Forall_forall _ _) Hpl).
    + destruct (Hb3 p Hin) as (n' & e' & g' & ? & ? & ?). exists n', e', g'. split; [done|]. split; [by right|done].
Qed.

Section PlanProps.
Context `{UnicodeTables}.

Lemma payloadOf_wf entries : kidsWf entries -> kidsWf (payloadOf entries) /\
  forall n e, (n, e) ∈ payloadOf entries <-> (n, e) ∈ entries /\ isMetadata n = false.
Proof.
  intros Hk. unfold payloadOf. split; [|intros n e; rewrite list_elem_of_filter; simpl; tauto].
  induction Hk as [|n e kids Hn Hnd He Hks IH]; [constructor|]. rewrite filter_cons. destruct (decide _); [|done].
  constructor; try done. intros ((n' & e') & -> & [_ Hin]%list_elem_of_filter)%list_elem_of_fmap. simpl in Hnd.
  apply Hnd, list_elem_of_fmap. by exists (n', e').
Qed.

(** Where a staged file belongs: a framework pack's tree, past its wrapper, is
    the server root's; any other file goes below its top-level entry's place. *)
Definition destOf (fullName : bytes) (entries : list (bytes * Entry)) (src : path) : path :=
  match src with
  | [] => []
  | n :: rel =>
      match frameworkWrapper (payloadOf entries) with
      | Some _ => rel
      | None => match lookupName n entries with Some e => topDest fullName n e ++ rel | None => [] end
      end
  end.

Lemma frameworkWrapper_Some payload n e : frameworkWrapper payload = Some (n, e) -> payload = [(n, e)] /\ isDir e = true.
Proof.
  unfold frameworkWrapper. destruct payload as [|[m [c|kids|]] [|]]; try done.
  destruct (lookupName _ kids) as [[]|]; try done. by intros [= <- <-].
Qed.

Lemma Plan_places entries fullName ps : kidsWf entries -> Plan entries fullName = Ok ps ->
  NoDup (map Source ps) /\ NoDup (map Dest ps) /\
  (forall src, src ∈ map Source ps <->
     isFileAt (EDir entries) src /\ exists n rel, src = n :: rel /\ isMetadata n = false) /\
  (forall p, p ∈ ps -> exists cs, cs = destOf fullName entries (Source p) /\ Forall plain cs /\ cs <> [] /\
     Dest p = join [slash] cs).
Proof.
  intros Hk. unfold Plan. destruct (CheckFullName fullName) as [u|] eqn:Ef; [|done]. rewrite CheckFullName_spec in Ef.
  destruct (decide _) as [[Hf _]|]; [clear Ef|done]. destruct (payloadOf_wf entries Hk) as [Hkp Hin].
  assert (forall src, isFileAt (EDir (payloadOf entries)) src <->
    isFileAt (EDir entries) src /\ exists n rel, src = n :: rel /\ isMetadata n = false) as Hpay.
  { intros src. split.
    - intros (n & e & g & -> & [Hi Hm]%Hin & Hfile)%isFileAt_inv. split; [by apply (isFileAt_cons _ n e)|by eauto].
    - intros [(n & e & g & -> & Hi & Hfile)%isFileAt_inv (n' & g' & [= <- <-] & Hm)].
      apply (isFileAt_cons _ n e); [done| |done]. by apply Hin. }
  unfold destOf. destruct (frameworkWrapper (payloadOf entries)) as [[n e]|] eqn:Ew.
  - apply frameworkWrapper_Some in Ew as [Ep Hd]. rewrite Ep in *.
    assert ((n, e) ∈ [(n, e)]) as Hne by left. destruct (kidsWf_elem n e _ Hkp Hne) as [Hn He].
    intros (gs & (Hnd & Hg & Hpl) & ->)%(walkFiles_Ok [n] e [] _ He Hd (Forall_nil_2 _)).
    rewrite !map_map. cbn [Source Dest app].
    assert (forall g, g ∈ gs -> g <> [] /\ Forall plain g) as Hgs.
    { intros g Hg'. split; [|by apply (proj1 (Forall_forall _ _) Hpl)]. apply Hg in Hg' as [c Hc]. destruct g; [|done].
      simpl in Hc. by injection Hc as ->. }
    split_and!.
    + by apply (NoDup_fmap_2 _).
    + apply NoDup_fmap_2_strong; [|done]. intros g1 g2 H1 H2 E.
      apply Hgs in H1 as [? ?], H2 as [? ?]. apply (f_equal components) in E. by rewrite !components_join in E.
    + intros src. rewrite <- Hpay, list_elem_of_fmap. split.
      * intros (g & -> & Hg'%Hg). by apply (isFileAt_cons _ n e).
      * intros (n' & e' & g & -> & Hi%list_elem_of_singleton & Hfile)%isFileAt_inv. injection Hi as -> ->. exists g.
        by rewrite Hg.
    + intros p (g & -> & Hg')%list_elem_of_fmap. apply Hgs in Hg' as [? ?]. by exists g.
  - destruct (placeEntries fullName (payloadOf entries)) as [out|] eqn:Ep; [|done]. cbn [rbind].
    destruct (checkNoDuplicateDest ∅ out) as [[]|] eqn:Ed; [|done]. cbn [rbind]. intros [= <-].
    apply placements_plain in Ed. destruct (placeEntries_Ok _ _ _ Hf Hkp Ep) as [H1 H2 H3]. split_and!; [done..| |].
    + intros src. by rewrite H2, Hpay.
    + intros p (n & e & g & -> & Hi & Hg & ->)%H3. destruct (kidsWf_elem n e _ Hkp Hi) as [Hn He].
      apply Hin in Hi as [Hi _]. rewrite (lookupName_wf n e) by done.
      destruct (topDest_spec fullName n e Hf Hn) as (Ht & Hne & _ & _). eexists. split; [done|].
      split; [by apply Forall_app|]. split; [|done]. intros E. by apply app_eq_nil in E as [? _].
Qed.

(** A plan places every payload file exactly once, nothing else, and no two
    files at one destination; and each destination is accepted by the check
    that guards the server root, at the place the file's top-level entry
    decides. *)
Theorem Plan_spec entries fullName ps : kidsWf entries -> Plan entries fullName = Ok ps ->
  NoDup (map Source ps) /\ NoDup (map Dest ps) /\
  (forall src, src ∈ map Source ps <->
     isFileAt (EDir entries) src /\ exists n rel, src = n :: rel /\ isMetadata n = false) /\
  (forall p, p ∈ ps -> CheckDest (Dest p) = Ok (destOf fullName entries (Source p))).
Proof.
  intros Hk Hp. destruct (Plan_places _ _ _ Hk Hp) as (H1 & H2 & H3 & H4). split_and!; [done..|].
  intros p (cs & -> & Hpl & Hne & ->)%H4. by apply CheckDest_join.
Qed.

End PlanProps.

(** ** Diff's result *)

Lemma DestPaths_cons c cs :
  DestPaths (c :: cs) = if bool_decide (chAction c = ActionSkip) then DestPaths cs else chDest c :: DestPaths cs.
Proof.
  unfold DestPaths, writes. rewrite filter_cons. case_bool_decide as E; cbn [negb].
  - by rewrite decide_False.
  - by rewrite decide_True.
Qed.

Lemma Diff_elem fullName ps ex claims cs c : Diff fullName ps ex claims = Ok cs -> c ∈ cs ->
  exists p, p ∈ ps /\ diffOne fullName ex claims p = Ok c.
Proof.
  revert cs. induction ps as [|p ps IH]; intros cs; cbn [Diff]; [by intros [= <-] ?%elem_of_nil|].
  destruct (diffOne fullName ex claims p) as [c'|] eqn:E; [|done]. cbn [rbind].
  destruct (Diff fullName ps ex claims) as [cs'|]; [|done]. cbn [rbind]. intros [= <-] [->|Hin]%elem_of_cons.
  - exists p. split; [left|done].
  - destruct (IH cs' eq_refl Hin) as (p' & ? & ?). exists p'. split; [by right|done].
Qed.

(** ** Witness: a plugin with a loose library, a default config and metadata *)

#[local] Instance packages_ascii : UnicodeTables := ascii_tables.

Definition aPackage : list (bytes * Entry) :=
  [(L "CHANGELOG.md", EFile []);
   (L "Mod.dll", EFile (L "MZ"));
   (L "config", EDir [(L "mod.cfg", EFile (L "[General]"))])].

Lemma aPackage_wf : kidsWf aPackage.
Proof.
  repeat (constructor; [by apply (bool_decide_unpack _)|by apply (bool_decide_unpack _)| |]);
    repeat (constructor; try by apply (bool_decide_unpack _)).
Qed.

Lemma Plan_spec_witness : exists ps, Plan aPackage (L "Team-Mod") = Ok ps /\
  map Dest ps = [L "BepInEx/plugins/Team-Mod/Mod.dll"; L "BepInEx/config/mod.cfg"] /\ NoDup (map Dest ps).
Proof.
  destruct (Plan aPackage (L "Team-Mod")) as [ps|e] eqn:E; [|vm_compute in E; discriminate].
  exists ps. split; [done|]. split; [vm_compute in E; by injection E as <-|].
  apply (Plan_spec aPackage (L "Team-Mod") ps aPackage_wf E).
Defined.
