(* ===== verification/InstallFS.v ===== *)
(** internal/mods/installer apply.go and park.go: what the installer does to the
    server root and to the tree beside it (a job's backup directory, or the
    instance's parking tree), one system call at a time.  A fault stream decides
    which calls fail; a stream that fails every call from some point on leaves the
    disk as a killed process does.  Symbolic links are not in the trees. *)
From S2P Require Import Prelude GoBytes Paths Installer.
Open Scope list_scope.

(** ** Trees

    The root directory is implicit; [NOther] is a pipe, a socket or a device. *)
Inductive node := NFile (content : bytes) | NDir | NOther.
#[export] Instance node_eq_dec : EqDecision node.
Proof. solve_decision. Defined.
Abbreviation tree := (gmap path node).

Definition isDirNode (n : node) : bool := match n with NDir => true | _ => false end.

Inductive FsErr :=
| EIO | ENOENT | ENOTDIR | EISDIR | ENOTEMPTY | EEXIST
| EUnsupported | EParkConflict | EParkedFileMissing | EUnsafeDest | EStaged | EJoined (errs : list FsErr).

Definition parent (p : path) : path := take (length p - 1) p.
Definition base (p : path) : bytes := default [] (last p).
(** The proper directories above [p], outermost first. *)
Definition parents (p : path) : list path := map (fun i => take i p) (seq 1 (length p - 1)).

Definition nonDir (t : tree) (q : path) : bool :=
  match t !! q with Some n => negb (isDirNode n) | None => false end.

(** What a path names, as [Lstat] answers. *)
Definition nodeAt (t : tree) (p : path) : result FsErr node :=
  if bool_decide (p = []) then Ok NDir
  else if existsb (nonDir t) (parents p) then Err ENOTDIR
  else match t !! p with Some n => Ok n | None => Err ENOENT end.

Definition dirAt (t : tree) (p : path) : bool := bool_decide (p = []) || bool_decide (t !! p = Some NDir).
Definition children (t : tree) (dir : path) : list path :=
  filter (fun p => p <> [] /\ parent p = dir) (map fst (map_to_list t)).

Definition tMkdir (p : path) (t : tree) : result FsErr (unit * tree) :=
  match nodeAt t p with
  | Ok _ => Err EEXIST
  | Err ENOENT => if dirAt t (parent p) then Ok (tt, <[p := NDir]> t) else Err ENOENT
  | Err e => Err e
  end.
Definition tRemove (p : path) (t : tree) : result FsErr (unit * tree) :=
  match nodeAt t p with
  | Ok NDir => if bool_decide (p = []) || negb (bool_decide (children t p = [])) then Err ENOTEMPTY
               else Ok (tt, delete p t)
  | Ok _ => Ok (tt, delete p t)
  | Err e => Err e
  end.
(** [O_CREATE|O_EXCL]. *)
Definition tCreate (p : path) (t : tree) : result FsErr (unit * tree) :=
  match nodeAt t p with
  | Ok _ => Err EEXIST
  | Err ENOENT => if dirAt t (parent p) then Ok (tt, <[p := NFile []]> t) else Err ENOENT
  | Err e => Err e
  end.
(** A write through an open file that is named [p]. *)
Definition tAppend (p : path) (b : ascii) (t : tree) : result FsErr (unit * tree) :=
  Ok (tt, alter (fun n => match n with NFile c => NFile (c ++ [b]) | n => n end) p t).
(** [rename(2)] of a file: it takes the place of anything but a directory. *)
Definition tRename (from to : path) (t : tree) : result FsErr (unit * tree) :=
  match t !! from with
  | Some (NFile c) =>
      match nodeAt t to with
      | Ok NDir => Err EISDIR
      | Ok _ | Err ENOENT => if dirAt t (parent to) then Ok (tt, <[to := NFile c]> (delete from t)) else Err ENOENT
      | Err e => Err e
      end
  | _ => Err ENOENT
  end.

(** [regularFileExists] of diff.go: [None] where it errs. *)
Definition regularFileExists (t : tree) (p : path) : option bool :=
  match nodeAt t p with
  | Ok (NFile _) => Some true
  | Ok _ => None
  | Err ENOENT => Some false
  | Err _ => None
  end.

(** ** The two trees, and calls on them *)

Record FS := mkFS { server : option tree; beside : tree }.
Inductive Side := Server | Beside.

Definition treeOf (sd : Side) (fs : FS) : tree :=
  match sd with Server => default ∅ (server fs) | Beside => beside fs end.
Definition setTree (sd : Side) (t : tree) (fs : FS) : FS :=
  match sd with Server => mkFS (Some t) (beside fs) | Beside => mkFS (server fs) t end.

Definition faults := list bool.
Definition World := (FS * faults)%type.
Definition Fs (A : Type) := World -> result FsErr A * World.

Definition fret {A} (a : A) : Fs A := fun w => (Ok a, w).
Definition ffail {A} (e : FsErr) : Fs A := fun w => (Err e, w).
Definition fbind {A B} (m : Fs A) (k : A -> Fs B) : Fs B := fun w =>
  match m w with (Ok a, w') => k a w' | (Err e, w') => (Err e, w') end.
(** The outcome as a value. *)
Definition ftry {A} (m : Fs A) : Fs (result FsErr A) := fun w => let '(r, w') := m w in (Ok r, w').
Notation "'do!' x := m 'in' k" := (fbind m (fun x => k))
  (at level 10, x pattern, m at level 100, k at level 200) : go_scope.

(** One system call. *)
Definition call {A} (f : FS -> result FsErr (A * FS)) : Fs A := fun '(fs, fl) =>
  match fl with
  | true :: fl' => (Err EIO, (fs, fl'))
  | _ => match f fs with Ok (a, fs') => (Ok a, (fs', tail fl)) | Err e => (Err e, (fs, tail fl)) end
  end.
Definition on {A} (sd : Side) (f : tree -> result FsErr (A * tree)) : Fs A := call (fun fs =>
  match f (treeOf sd fs) with Ok (a, t) => Ok (a, setTree sd t fs) | Err e => Err e end).
(** A call that changes no name: a chmod, an fsync, a close. *)
Definition touch : Fs unit := call (fun fs => Ok (tt, fs)).
Definition lstat (sd : Side) (p : path) : Fs node := call (fun fs =>
  match nodeAt (treeOf sd fs) p with Ok n => Ok (n, fs) | Err e => Err e end).

Definition isENOENT (e : FsErr) : bool := match e with ENOENT => true | _ => false end.
(** A removal that forgives a missing name. *)
Definition removeIfThere (sd : Side) (p : path) : Fs unit := fun w =>
  match on sd (tRemove p) w with
  | (Err ENOENT, w') => (Ok tt, w')
  | r => r
  end.

(** [openServerRoot]: whether there is a root to work on. *)
Definition openServerRoot (create : bool) : Fs bool := call (fun fs =>
  match server fs with
  | Some _ => Ok (true, fs)
  | None => if create then Ok (true, mkFS (Some ∅) (beside fs)) else Ok (false, fs)
  end).

(** ** Publishing (publishInto, publishFile) *)

Definition tempPrefix : bytes := L ".valmin-".
Definition isTemp (p : path) : bool := hasPrefix tempPrefix (base p).

(** The random suffix of a temporary file; a taken name is drawn again. *)
Class TempNames := { tempSuffix : tree -> path -> bytes }.
Class TempLaws `{TempNames} : Prop :=
  temp_fresh t dir : t !! (dir ++ [tempPrefix ++ tempSuffix t dir]) = None.

Section Install.
Context `{TempNames}.

(** [MkdirAll], then a chmod of each component. *)
Fixpoint mkdirEach (sd : Side) (qs : list path) : Fs unit :=
  match qs with
  | [] => fret tt
  | q :: qs =>
      do! r := ftry (on sd (tMkdir q)) in
      match r with
      | Ok _ => mkdirEach sd qs
      | Err EEXIST =>
          do! n := lstat sd q in
          if isDirNode n then mkdirEach sd qs else ffail ENOTDIR
      | Err e => ffail e
      end
  end.
Fixpoint chmodEach (qs : list path) : Fs unit :=
  match qs with [] => fret tt | _ :: qs => do! _ := touch in chmodEach qs end.
Definition upTo (dir : path) : list path := if bool_decide (dir = []) then [] else parents dir ++ [dir].
Definition mkdirAllSetgid (dir : path) : Fs unit :=
  do! _ := mkdirEach Server (upTo dir) in chmodEach (upTo dir).

(** [fsutil.MkdirAllExact], below the directory that is there; [qs] are the
    paths it climbs through, innermost first. *)
Fixpoint mkdirExact (qs : list path) : Fs unit :=
  match qs with
  | [] => fret tt
  | q :: up =>
      do! r := ftry (lstat Beside q) in
      match r with
      | Ok n => if isDirNode n then fret tt else ffail ENOTDIR
      | Err _ =>
          do! _ := mkdirExact up in
          do! r := ftry (on Beside (tMkdir q)) in
          match r with
          | Ok _ | Err EEXIST => touch
          | Err e => ffail e
          end
      end
  end.
Definition MkdirAllExact (dir : path) : Fs unit := mkdirExact (rev (upTo dir)).

Fixpoint copyBytes (sd : Side) (tmp : path) (content : bytes) : Fs unit :=
  match content with
  | [] => fret tt
  | b :: content => do! _ := on sd (tAppend tmp b) in copyBytes sd tmp content
  end.

(** Copy, fsync, close, chmod, rename; then the deferred removal of what the
    rename left. *)
Definition fillAndRename (sd : Side) (tmp rel : path) (content : result FsErr bytes) : Fs unit :=
  do! _ := match content with Ok c => copyBytes sd tmp c | Err e => ffail e end in
  do! _ := touch in
  do! _ := touch in
  do! _ := touch in
  on sd (tRename tmp rel).
Definition deferRemove {A} (sd : Side) (tmp : path) (m : Fs A) : Fs A := fun w =>
  let '(r, w1) := m w in
  let '(_, w2) := on sd (tRemove tmp) w1 in (r, w2).
Definition createTemp (sd : Side) (dir : path) : Fs path := fun w =>
  let tmp := dir ++ [tempPrefix ++ tempSuffix (treeOf sd w.1) dir] in
  (do! _ := on sd (tCreate tmp) in fret tmp) w.

(** A file written beside its name and renamed over it ([WriteFileAtomicIn]);
    [content] is what reading the source gives. *)
Definition replaceFile (sd : Side) (rel : path) (content : result FsErr bytes) : Fs unit :=
  do! tmp := createTemp sd (parent rel) in
  deferRemove sd tmp (fillAndRename sd tmp rel content).
Definition publish (sd : Side) (rel : path) (content : result FsErr bytes) : Fs unit :=
  do! _ := match sd with Server => mkdirAllSetgid (parent rel) | Beside => MkdirAllExact (parent rel) end in
  replaceFile sd rel content.
Definition publishInto (rel : path) (content : result FsErr bytes) : Fs unit := publish Server rel content.
Definition publishFile (rel : path) (content : result FsErr bytes) : Fs unit := publish Beside rel content.

(** ** Backup, Apply, Remove, Rollback (apply.go) *)

Definition checked (dest : bytes) : Fs path :=
  match CheckDest dest with Ok p => fret p | Err _ => ffail EUnsafeDest end.

(** [OpenRegularIn]: an open, and a stat of what was opened. *)
Definition openRegular (sd : Side) (rel : path) : Fs bytes :=
  do! n := lstat sd rel in
  do! _ := touch in
  match n with NFile c => fret c | _ => ffail EUnsupported end.

Definition backupOne (rel : path) : Fs bool := fun w =>
  match openRegular Server rel w with
  | (Ok c, w') => (do! _ := publishFile rel (Ok c) in fret true) w'
  | (Err ENOENT, w') => (Ok false, w')
  | (Err e, w') => (Err e, w')
  end.

Fixpoint backupEach (root : bool) (paths : list bytes) : Fs unit :=
  match paths with
  | [] => fret tt
  | p :: ps =>
      do! rel := checked p in
      do! _ := (if root then backupOne rel else fret false) in
      backupEach root ps
  end.
Definition BackupPaths (paths : list bytes) : Fs unit :=
  do! root := openServerRoot false in backupEach root paths.
Definition Backup (changes : list Change) : Fs unit := BackupPaths (DestPaths changes).

(** What a loop that attempts everything collects. *)
Definition note (es : list FsErr) {A} (r : result FsErr A) : list FsErr :=
  match r with Ok _ => es | Err e => es ++ [e] end.
Definition joined (es : list FsErr) : Fs unit := match es with [] => fret tt | _ => ffail (EJoined es) end.

Fixpoint removeEach (root : bool) (es : list FsErr) (paths : list bytes) : Fs (list FsErr) :=
  match paths with
  | [] => fret es
  | p :: ps =>
      match CheckDest p with
      | Err _ => removeEach root (es ++ [EUnsafeDest]) ps
      | Ok rel =>
          do! r := ftry (if root then removeIfThere Server rel else fret tt) in
          removeEach root (note es r) ps
      end
  end.
Definition Remove (paths : list bytes) : Fs unit :=
  do! root := openServerRoot false in
  do! es := removeEach root [] paths in joined es.

(** [staged] is the staging directory: what [os.Open] of a source reads. *)
Definition openStaged (staged : path -> option bytes) (src : path) : Fs bytes := call (fun fs =>
  match staged src with Some c => Ok (c, fs) | None => Err EStaged end).

Fixpoint applyEach (staged : path -> option bytes) (changes : list Change) : Fs unit :=
  match changes with
  | [] => fret tt
  | c :: cs =>
      if bool_decide (chAction c = ActionSkip) then applyEach staged cs
      else
        do! rel := checked (chDest c) in
        do! content := openStaged staged (Source (chPlacement c)) in
        do! _ := publishInto rel (Ok content) in
        applyEach staged cs
  end.
Definition Apply (staged : path -> option bytes) (changes : list Change) : Fs unit :=
  do! _ := openServerRoot true in applyEach staged changes.

Definition restoreOne (rel : path) : Fs unit :=
  do! n := lstat Beside rel in
  publishInto rel (match n with NFile c => Ok c | NDir => Err EISDIR | NOther => Err EUnsupported end).

(** [removeStaleTemps], for the directories in some order. *)
Fixpoint removeNames (es : list FsErr) (ps : list path) : Fs (list FsErr) :=
  match ps with
  | [] => fret es
  | p :: ps => do! r := ftry (removeIfThere Server p) in removeNames (note es r) ps
  end.
Definition readTemps (dir : path) : Fs (list path) := call (fun fs =>
  let t := treeOf Server fs in
  match nodeAt t dir with
  | Ok NDir => Ok (filter (fun p => nonDir t p && isTemp p = true) (children t dir), fs)
  | Ok _ => Err ENOTDIR
  | Err e => Err e
  end).
Fixpoint removeStaleTemps (es : list FsErr) (dirs : list path) : Fs (list FsErr) :=
  match dirs with
  | [] => fret es
  | d :: dirs =>
      do! r := ftry (readTemps d) in
      match r with
      | Err ENOENT => removeStaleTemps es dirs
      | Err e => removeStaleTemps (es ++ [e]) dirs
      | Ok ps => do! es := removeNames es ps in removeStaleTemps es dirs
      end
  end.

(** One manifest entry of [Rollback]. *)
Definition rollbackOne (rel : path) : Fs unit :=
  do! r := ftry (lstat Beside rel) in
  match r with
  | Ok _ => restoreOne rel
  | Err ENOENT => removeIfThere Server rel
  | Err e => ffail e
  end.
Fixpoint rollbackEach (es : list FsErr) (touched : gset path) (manifest : list ManifestEntry) :
    Fs (list FsErr * gset path) :=
  match manifest with
  | [] => fret (es, touched)
  | e :: manifest =>
      match CheckDest (mPath e) with
      | Err _ => rollbackEach (es ++ [EUnsafeDest]) touched manifest
      | Ok rel =>
          do! r := ftry (rollbackOne rel) in
          rollbackEach (note es r) ({[ parent rel ]} ∪ touched) manifest
      end
  end.
Definition Rollback (manifest : list ManifestEntry) : Fs unit :=
  do! _ := openServerRoot true in
  do! (es, touched) := rollbackEach [] ∅ manifest in
  do! es := removeStaleTemps es (elements touched) in joined es.

(** ** Parking (park.go) *)

Definition parkOne (rel : path) : Fs bool :=
  do! ok := backupOne rel in
  if ok then do! _ := removeIfThere Server rel in fret true else fret false.

(** The moved paths are the caller's, errors included. *)
Fixpoint parkEach (moved paths : list bytes) : Fs (list bytes * result FsErr unit) :=
  match paths with
  | [] => fret (moved, Ok tt)
  | p :: ps =>
      match CheckDest p with
      | Err _ => fret (moved, Err EUnsafeDest)
      | Ok rel =>
          do! r := ftry (parkOne rel) in
          match r with
          | Err e => fret (moved, Err e)
          | Ok true => parkEach (moved ++ [p]) ps
          | Ok false => parkEach moved ps
          end
      end
  end.
Definition Park (paths : list bytes) : Fs (list bytes * result FsErr unit) :=
  do! r := ftry (openServerRoot false) in
  match r with
  | Err e => fret ([], Err e)
  | Ok false => fret ([], Ok tt)
  | Ok true => parkEach [] paths
  end.

(** [regularIn]. *)
Definition regularIn (rel : path) : Fs bool :=
  do! r := ftry (lstat Server rel) in
  match r with
  | Ok (NFile _) => fret true
  | Ok _ => ffail EUnsupported
  | Err ENOENT => fret false
  | Err e => ffail e
  end.

(** [sha256] of a file's bytes. *)
Context (sha256 : bytes -> string).
Definition sameBytes (rel : path) : Fs bool :=
  do! a := openRegular Server rel in
  do! b := openRegular Beside rel in
  fret (bool_decide (sha256 a = sha256 b)).

Definition unparkOne (rel : path) : Fs unit :=
  do! r := ftry (lstat Beside rel) in
  match r with
  | Err ENOENT =>
      do! present := ftry (regularIn rel) in
      match present with Ok true => fret tt | _ => ffail ENOENT end
  | Err e => ffail e
  | Ok _ =>
      do! present := regularIn rel in
      do! _ := (if present then do! same := sameBytes rel in if same then fret tt else ffail EParkConflict
                else restoreOne rel) in
      removeIfThere Beside rel
  end.
Fixpoint unparkEach (paths : list bytes) : Fs unit :=
  match paths with
  | [] => fret tt
  | p :: ps => do! rel := checked p in do! _ := unparkOne rel in unparkEach ps
  end.
Definition Unpark (paths : list bytes) : Fs unit :=
  do! _ := openServerRoot true in unparkEach paths.

Definition settleOne (e : ManifestEntry) : Fs unit :=
  do! rel := checked (mPath e) in
  do! r := ftry (lstat Beside rel) in
  match (match r with Ok _ => Ok true | Err ENOENT => Ok false | Err e => Err e end) with
  | Err e => ffail e
  | Ok inParking =>
      if negb (mParked e) then if inParking then unparkOne rel else fret tt
      else
        do! inServer := regularIn rel in
        if negb inServer then if inParking then fret tt else ffail EParkedFileMissing
        else if negb inParking then do! _ := parkOne rel in fret tt
        else
          do! same := sameBytes rel in
          if same then removeIfThere Server rel else ffail EParkConflict
  end.
Fixpoint settleEach (es : list FsErr) (manifest : list ManifestEntry) : Fs (list FsErr) :=
  match manifest with
  | [] => fret es
  | e :: manifest =>
      if UserConfig (mPath e) then settleEach es manifest
      else do! r := ftry (settleOne e) in settleEach (note es r) manifest
  end.
Definition Settle (manifest : list ManifestEntry) : Fs unit :=
  do! _ := openServerRoot true in
  do! es := settleEach [] manifest in joined es.

End Install.
