(* ===== verification/InstallLaws.v ===== *)
(** The laws of the installer's file operations: what each call may change in
    each tree, whatever calls fail, and what a publish leaves. *)
From S2P Require Import Prelude GoBytes Paths Installer InstallFS.
Open Scope list_scope.

(** ** Well-formed trees *)

(** Every name has a directory above it. *)
Definition wf (t : tree) : Prop := forall p n, t !! p = Some n -> p <> [] /\ dirAt t (parent p) = true.

(** What a path holds that is not a directory. *)
Definition leaf (t : tree) (p : path) : option node :=
  match t !! p with Some NDir => None | x => x end.

Lemma dirAt_spec t p : dirAt t p = true <-> p = [] \/ t !! p = Some NDir.
Proof. unfold dirAt. by rewrite orb_true_iff, !bool_decide_eq_true. Qed.

Lemma take_parent (p : path) i : S i <= length p -> parent (take (S i) p) = take i p.
Proof. intros Hi. unfold parent. rewrite length_take, take_take. f_equal. lia. Qed.

Lemma parents_elem (p q : path) : q ∈ parents p <-> exists i, 1 <= i < length p /\ q = take i p.
Proof.
  unfold parents. rewrite list_elem_of_fmap. setoid_rewrite elem_of_seq. split; intros (i & H1 & H2); exists i; (split; [|done || lia]); try lia; done.
Qed.

Lemma wf_ancestor t p n i : wf t -> t !! p = Some n -> 1 <= i < length p -> t !! take i p = Some NDir.
Proof.
  intros Hwf Hp. remember (length p - i) as k eqn:Hk. revert i Hk. induction k as [|k IH]; intros i Hk Hi; [lia|].
  assert (exists m, t !! take (S i) p = Some m) as [m Hm].
  { destruct (decide (S i = length p)) as [E|Hne]; [exists n; rewrite E, firstn_all; done|].
    exists NDir. apply IH; lia. }
  destruct (Hwf _ _ Hm) as [_ Hd]. rewrite take_parent in Hd by lia. apply dirAt_spec in Hd as [Hd|Hd]; [|done].
  apply (f_equal length) in Hd. rewrite length_take in Hd. simpl in Hd. lia.
Qed.

Lemma nonDir_spec t q : nonDir t q = true <-> exists n, t !! q = Some n /\ n <> NDir.
Proof.
  unfold nonDir. destruct (t !! q) as [[]|]; simpl; split; try done; [by eauto|intros (n & [= <-] & ?); done|by eauto|].
  by intros (n & ? & _).
Qed.

Lemma wf_parents t p : wf t -> (is_Some (t !! p) \/ dirAt t (parent p) = true) -> existsb (nonDir t) (parents p) = false.
Proof.
  intros Hwf Hp. apply not_true_is_false. rewrite existsb_elem_of. intros (q & (i & Hi & ->)%parents_elem & Hn).
  apply nonDir_spec in Hn as (m & Hm & Hne). destruct Hp as [[n Hp]|Hd].
  - rewrite (wf_ancestor t p n i) in Hm by done. by injection Hm as <-.
  - apply dirAt_spec in Hd. unfold parent in Hd. destruct Hd as [Hd|Hd].
    + apply (f_equal length) in Hd. rewrite length_take in Hd. simpl in Hd. lia.
    + destruct (decide (i = length p - 1)) as [->|Hne']; [congruence|].
      pose proof (wf_ancestor t _ _ i Hwf Hd) as Ha. rewrite length_take, take_take in Ha.
      rewrite (Nat.min_l i) in Ha by lia. rewrite Ha in Hm by lia. congruence.
Qed.

Lemma nodeAt_Ok t p n : nodeAt t p = Ok n -> (p = [] /\ n = NDir) \/ (p <> [] /\ t !! p = Some n).
Proof.
  unfold nodeAt. case_bool_decide; [intros [= <-]; by left|]. destruct (existsb _ _); [done|].
  destruct (t !! p); [|done]. intros [= <-]. by right.
Qed.

Lemma nodeAt_ENOENT t p : nodeAt t p = Err ENOENT -> p <> [] /\ t !! p = None.
Proof. unfold nodeAt. case_bool_decide; [done|]. destruct (existsb _ _); [done|]. by destruct (t !! p). Qed.

Lemma nodeAt_Err t p e : wf t -> nodeAt t p = Err e -> (e = ENOENT \/ e = ENOTDIR) /\ p <> [] /\ t !! p = None.
Proof.
  intros Hwf. unfold nodeAt. case_bool_decide; [done|]. destruct (existsb _ _) eqn:E.
  - intros [= <-]. split; [by right|]. split; [done|]. destruct (t !! p) eqn:Ep; [|done].
    by rewrite wf_parents in E by eauto.
  - destruct (t !! p); [done|]. intros [= <-]. split; [by left|done].
Qed.

Lemma nodeAt_wf t p n : wf t -> t !! p = Some n -> nodeAt t p = Ok n.
Proof.
  intros Hwf Hp. unfold nodeAt. destruct (Hwf _ _ Hp) as [Hne _]. rewrite bool_decide_false by done.
  by rewrite wf_parents, Hp by eauto.
Qed.

Lemma nodeAt_missing t p : wf t -> p <> [] -> t !! p = None -> dirAt t (parent p) = true -> nodeAt t p = Err ENOENT.
Proof.
  intros Hwf Hne Hp Hd. unfold nodeAt. rewrite bool_decide_false by done. by rewrite wf_parents, Hp by auto.
Qed.

(** ** Footprints

    What an operation may do to a tree: the paths whose file may change
    ([fl]), those whose name may go away ([fd]), and those that may become a
    directory ([fm]); names of temporary files apart. *)
Record foot := mkFoot { fl : path -> Prop; fd : path -> Prop; fm : path -> Prop }.
Definition nowhere : path -> Prop := fun _ => False.
Definition foot0 : foot := mkFoot nowhere nowhere nowhere.

Record frame (f : foot) (t t' : tree) : Prop := {
  fr_wf : wf t -> wf t';
  fr_dir p : ~ fd f p -> t !! p = Some NDir -> t' !! p = Some NDir;
  fr_file p : ~ fd f p -> isTemp p = false -> nonDir t p = true -> nonDir t' p = true;
  fr_leaf p : ~ fl f p -> isTemp p = false -> leaf t' p = leaf t p;
  fr_made p : t' !! p = Some NDir -> t !! p = Some NDir \/ fm f p
}.

Definition footLe (f g : foot) : Prop :=
  (forall p, fl f p -> fl g p) /\ (forall p, fd f p -> fd g p) /\ (forall p, fm f p -> fm g p).

Lemma frame_refl f t : frame f t t.
Proof. split; auto. Qed.

Lemma frame_trans f t1 t2 t3 : frame f t1 t2 -> frame f t2 t3 -> frame f t1 t3.
Proof.
  intros [A1 A2 A3 A4 A5] [B1 B2 B3 B4 B5]. split; auto.
  - intros p Hp Ht. rewrite B4 by done. auto.
  - intros p [Hp|Hp]%B5; auto.
Qed.

Lemma frame_weaken f g t t' : footLe f g -> frame f t t' -> frame g t t'.
Proof. intros (H1 & H2 & H3) [A1 A2 A3 A4 A5]. split; auto. intros p [?|?]%A5; auto. Qed.

Lemma isTemp_snoc dir s : isTemp (dir ++ [tempPrefix ++ s]) = true.
Proof. unfold isTemp, base. rewrite last_snoc. apply (hasPrefix_app tempPrefix s). Qed.

Lemma parent_snoc (dir : path) x : parent (dir ++ [x]) = dir.
Proof. unfold parent. rewrite length_app, take_app_le by (simpl; lia). apply take_ge. simpl. lia. Qed.

Lemma wf_insert t p n : wf t -> p <> [] -> dirAt t (parent p) = true -> (n <> NDir -> t !! p <> Some NDir) -> wf (<[p := n]> t).
Proof.
  intros Hwf Hne Hd Hn q m Hq. apply lookup_insert_cases in Hq as [[<- <-]|[Hpq Hq]].
  - split; [done|]. apply dirAt_spec. apply dirAt_spec in Hd as [Hd|Hd]; [by left|]. right.
    rewrite lookup_insert_ne; [done|]. intros E. rewrite <- E in Hd. destruct (decide (n = NDir)) as [->|H']; [|by apply Hn in H'].
    apply (f_equal length) in E. unfold parent in E. rewrite length_take in E. destruct p; [done|]. simpl in E. lia.
  - destruct (Hwf _ _ Hq) as [Hq1 Hq2]. split; [done|]. apply dirAt_spec. apply dirAt_spec in Hq2 as [Hq2|Hq2]; [by left|].
    right. destruct (decide (p = parent q)) as [E|Hne']; [subst p|by rewrite lookup_insert_ne].
    rewrite lookup_insert_eq. destruct (decide (n = NDir)) as [->|H']; [done|]. by destruct (Hn H').
Qed.

Lemma wf_delete t p : wf t -> (t !! p = Some NDir -> children t p = []) -> wf (delete p t).
Proof.
  intros Hwf Hc q m [Hpq Hq]%lookup_delete_Some. destruct (Hwf _ _ Hq) as [Hq1 Hq2]. split; [done|].
  apply dirAt_spec. apply dirAt_spec in Hq2 as [Hq2|Hq2]; [by left|]. right. rewrite lookup_delete_Some. split; [|done].
  intros ->. specialize (Hc Hq2). assert (q ∈ children t (parent q)) as Hin; [|by rewrite Hc in Hin; apply elem_of_nil in Hin].
  apply list_elem_of_filter. split; [done|]. apply list_elem_of_fmap. exists (q, m). split; [done|]. by apply elem_of_map_to_list.
Qed.

(** Temporary names apart, a file may only appear in place of a file. *)
Lemma frame_insert_file f t p c : (isTemp p = false -> fl f p) -> t !! p <> Some NDir -> p <> [] -> dirAt t (parent p) = true ->
  frame f t (<[p := NFile c]> t).
Proof.
  intros Hf Hnd Hne Hd. split.
  - intros Hwf. by apply wf_insert.
  - intros q _ Hq. rewrite lookup_insert_ne; [done|]. intros <-. done.
  - intros q _ _ Hq. apply nonDir_spec. destruct (decide (p = q)) as [<-|Hpq].
    + rewrite lookup_insert_eq. by eauto.
    + rewrite lookup_insert_ne by done. by apply nonDir_spec.
  - intros q Hq Ht. unfold leaf. rewrite lookup_insert_ne; [done|]. intros <-. by apply Hf in Ht.
  - intros q [[<- ?]|[_ ?]]%lookup_insert_cases; [done|by left].
Qed.

Lemma frame_delete f t p : (isTemp p = false -> fl f p /\ fd f p) -> (t !! p = Some NDir -> fd f p /\ children t p = []) ->
  frame f t (delete p t).
Proof.
  intros Hf Hnd. split.
  - intros Hwf. apply wf_delete; [done|]. by intros [_ ?]%Hnd.
  - intros q Hq Hd. rewrite lookup_delete_ne; [done|]. intros <-. by apply Hnd in Hd as [? _].
  - intros q Hq Ht Hn. apply nonDir_spec. apply nonDir_spec in Hn as (n & Hn & ?). exists n. rewrite lookup_delete_ne; [done|].
    intros <-. by apply Hf in Ht as [_ ?].
  - intros q Hq Ht. unfold leaf. rewrite lookup_delete_ne; [done|]. intros <-. by apply Hf in Ht as [? _].
  - intros q [_ ?]%lookup_delete_Some. by left.
Qed.

Lemma frame_insert_dir f t p : fm f p -> t !! p = None -> p <> [] -> dirAt t (parent p) = true -> frame f t (<[p := NDir]> t).
Proof.
  intros Hf Hp Hne Hd. split.
  - intros Hwf. apply wf_insert; [done..|]. by intros [].
  - intros q _ Hq. rewrite lookup_insert_ne; [done|]. intros <-. congruence.
  - intros q _ _ (n & Hn & ?)%nonDir_spec. apply nonDir_spec. exists n. rewrite lookup_insert_ne; [done|]. intros <-. congruence.
  - intros q _ _. unfold leaf. destruct (decide (p = q)) as [<-|Hpq]; [by rewrite lookup_insert_eq, Hp|by rewrite lookup_insert_ne].
  - intros q [[<- _]|[_ ?]]%lookup_insert_cases; [by right|by left].
Qed.

(** ** The calls *)

Lemma tMkdir_frame f t p u t' : fm f p -> tMkdir p t = Ok (u, t') -> frame f t t'.
Proof.
  unfold tMkdir. intros Hf. destruct (nodeAt t p) as [|[]] eqn:E; try done. destruct (dirAt t (parent p)) eqn:Ed; [|done].
  intros [= _ <-]. apply nodeAt_ENOENT in E as [? ?]. by apply frame_insert_dir.
Qed.

Lemma tCreate_spec t p u t' : tCreate p t = Ok (u, t') -> p <> [] /\ t !! p = None /\ dirAt t (parent p) = true /\ t' = <[p := NFile []]> t.
Proof.
  unfold tCreate. destruct (nodeAt t p) as [|[]] eqn:E; try done. destruct (dirAt t (parent p)); [|done].
  intros [= _ <-]. by apply nodeAt_ENOENT in E as [? ?].
Qed.

Lemma tCreate_frame f t p u t' : isTemp p = true -> tCreate p t = Ok (u, t') -> frame f t t'.
Proof. intros Hp (? & E & ? & ->)%tCreate_spec. apply frame_insert_file; [by rewrite Hp|by rewrite E|done..]. Qed.

Lemma tRemove_spec t p u t' : tRemove p t = Ok (u, t') ->
  t' = delete p t /\ (t !! p = Some NDir -> children t p = []).
Proof.
  unfold tRemove. destruct (nodeAt t p) as [n|] eqn:E; [|done]. apply nodeAt_Ok in E as [[-> ->]|[Hne Hp]]; [done|].
  rewrite bool_decide_false by done. destruct n; [intros [= _ <-]; by rewrite Hp| |intros [= _ <-]; by rewrite Hp].
  cbn [orb]. case_bool_decide as Hc; [|done]. intros [= _ <-]. done.
Qed.

(** Removing a name that is no directory. *)
Lemma tRemove_file f t p u t' : (isTemp p = false -> fl f p /\ fd f p) -> t !! p <> Some NDir ->
  tRemove p t = Ok (u, t') -> frame f t t'.
Proof. intros Hf Hn [-> _]%tRemove_spec. by apply frame_delete. Qed.

Lemma tRemove_frame f t p u t' : fl f p -> fd f p -> tRemove p t = Ok (u, t') -> frame f t t'.
Proof. intros H1 H2 [-> Hc]%tRemove_spec. apply frame_delete; auto. Qed.

Lemma tAppend_frame f t p b u t' : isTemp p = true -> tAppend p b t = Ok (u, t') -> frame f t t'.
Proof.
  intros Hp [= _ <-]. assert (forall q, alter (fun n => match n with NFile c => NFile (c ++ [b]) | n => n end) p t !! q = Some NDir <-> t !! q = Some NDir) as Hd.
  { intros q. destruct (decide (p = q)) as [<-|Hne]; [|by rewrite lookup_alter_ne]. rewrite lookup_alter_eq.
    destruct (t !! p) as [[]|]; simpl; naive_solver. }
  split.
  - intros Hwf q m Hq. assert (is_Some (t !! q)) as [n Hn].
    { destruct (decide (p = q)) as [<-|Hne]; [|rewrite lookup_alter_ne in Hq by done; by eauto].
      rewrite lookup_alter_eq in Hq. destruct (t !! p); [by eauto|done]. }
    destruct (Hwf _ _ Hn) as [? Hdir]. split; [done|]. apply dirAt_spec. apply dirAt_spec in Hdir as [?|?]; [by left|].
    right. by apply Hd.
  - intros q _ Hq. by apply Hd.
  - intros q _ Ht Hq. unfold nonDir. rewrite lookup_alter_ne; [done|]. intros <-. congruence.
  - intros q _ Ht. unfold leaf. rewrite lookup_alter_ne; [done|]. intros <-. congruence.
  - intros q Hq%Hd. by left.
Qed.

Lemma tRename_spec t from to u t' : tRename from to t = Ok (u, t') -> exists c, t !! from = Some (NFile c) /\
  to <> [] /\ t !! to <> Some NDir /\ dirAt t (parent to) = true /\ t' = <[to := NFile c]> (delete from t).
Proof.
  unfold tRename. destruct (t !! from) as [[c| |]|] eqn:Ef; try done. intros Hr. exists c. split; [done|].
  destruct (dirAt t (parent to)) eqn:Ed; [|by destruct (nodeAt t to) as [[]|[]]].
  destruct (nodeAt t to) as [n|[]] eqn:E; try done.
  - apply nodeAt_Ok in E as [[-> ->]|[Hne Hto]]; [done|]. rewrite Hto. destruct n; [|done|]; by injection Hr as _ <-.
  - apply nodeAt_ENOENT in E as [Hne Hto]. rewrite Hto. by injection Hr as _ <-.
Qed.

Lemma tRename_frame f t from to u t' : isTemp from = true -> (isTemp to = false -> fl f to) ->
  tRename from to t = Ok (u, t') -> frame f t t'.
Proof.
  intros Ht Hf (c & Hfrom & Hne & Hto & Hp & ->)%tRename_spec.
  assert (frame f t (delete from t)) as Hdel by (apply frame_delete; [by rewrite Ht|by rewrite Hfrom]).
  eapply frame_trans; [exact Hdel|]. apply frame_insert_file; [done| |done|].
  - rewrite lookup_delete_Some. by intros [_ ?].
  - apply dirAt_spec. apply dirAt_spec in Hp as [?|Hp]; [by left|]. right. rewrite lookup_delete_ne; [done|].
    intros E. rewrite E in Hfrom. congruence.
Qed.

(** ** Programs

    [Keeps F m]: whatever calls fail, [m] stays within the footprints [F]. *)
Definition feet := Side -> foot.
Definition Frame (F : feet) (fs fs' : FS) : Prop := forall sd, frame (F sd) (treeOf sd fs) (treeOf sd fs').
Definition feetLe (F G : feet) : Prop := forall sd, footLe (F sd) (G sd).
#[export] Instance Side_eq_dec : EqDecision Side.
Proof. solve_decision. Defined.
Definition only (sd : Side) (f : foot) : feet := fun sd' => if decide (sd' = sd) then f else foot0.
Definition Keeps {A} (F : feet) (m : Fs A) : Prop := forall w r w', m w = (r, w') -> Frame F w.1 w'.1.

Lemma Frame_refl F fs : Frame F fs fs.
Proof. intros sd. apply frame_refl. Qed.
Lemma Frame_trans F a b c : Frame F a b -> Frame F b c -> Frame F a c.
Proof. intros H1 H2 sd. by eapply frame_trans. Qed.
Lemma Frame_weaken F G a b : feetLe F G -> Frame F a b -> Frame G a b.
Proof. intros Hle H sd. by eapply frame_weaken. Qed.
Lemma footLe_refl f : footLe f f.
Proof. done. Qed.
Lemma footLe_0 f : footLe foot0 f.
Proof. done. Qed.
Lemma feetLe_only sd f F : footLe f (F sd) -> feetLe (only sd f) F.
Proof. intros Hf sd'. unfold only. destruct (decide _) as [->|]; [done|apply footLe_0]. Qed.

Lemma treeOf_set sd t fs : treeOf sd (setTree sd t fs) = t.
Proof. by destruct sd. Qed.
Lemma treeOf_set_ne sd sd' t fs : sd' <> sd -> treeOf sd' (setTree sd t fs) = treeOf sd' fs.
Proof. by destruct sd, sd'. Qed.

Lemma Keeps_ret {A} F (a : A) : Keeps F (fret a).
Proof. intros w r w' [= _ <-]. apply Frame_refl. Qed.
Lemma Keeps_fail {A} F e : Keeps F (ffail e : Fs A).
Proof. intros w r w' [= _ <-]. apply Frame_refl. Qed.
Lemma Keeps_bind {A B} F (m : Fs A) (k : A -> Fs B) : Keeps F m -> (forall a, Keeps F (k a)) -> Keeps F (fbind m k).
Proof.
  intros Hm Hk w r w'. unfold fbind. destruct (m w) as [[a|e] w1] eqn:E; apply Hm in E.
  - intros E'. apply Hk in E'. by eapply Frame_trans.
  - by intros [= _ <-].
Qed.
(** The continuation may rely on what the first program answered. *)
Lemma Keeps_bind_when {A B} F (P : A -> Prop) (m : Fs A) (k : A -> Fs B) : Keeps F m ->
  (forall w a w', m w = (Ok a, w') -> P a) -> (forall a, P a -> Keeps F (k a)) -> Keeps F (fbind m k).
Proof.
  intros Hm HP Hk w r w'. unfold fbind. destruct (m w) as [[a|e] w1] eqn:E.
  - intros E'. eapply Frame_trans; [by eapply Hm|]. by eapply (Hk a); [eapply HP|].
  - intros [= _ <-]. by eapply Hm.
Qed.
Lemma Keeps_try {A} F (m : Fs A) : Keeps F m -> Keeps F (ftry m).
Proof. intros Hm w r w'. unfold ftry. destruct (m w) as [r' w1] eqn:E. intros [= _ <-]. by apply Hm in E. Qed.
Lemma Keeps_weaken {A} F G (m : Fs A) : feetLe F G -> Keeps F m -> Keeps G m.
Proof. intros Hle Hm w r w' E. eapply Frame_weaken; [exact Hle|by eapply Hm]. Qed.

Lemma fbind_inv {A B} (m : Fs A) (k : A -> Fs B) w r w' : fbind m k w = (r, w') ->
  (exists a w1, m w = (Ok a, w1) /\ k a w1 = (r, w')) \/ (exists e, m w = (Err e, w') /\ r = Err e).
Proof. unfold fbind. destruct (m w) as [[a|e] w1]; intros E; [left; by eauto|]. injection E as <- <-. right; by eauto. Qed.
Lemma joined_world es w r w' : joined es w = (r, w') -> w' = w.
Proof. by destruct es; intros [= _ <-]. Qed.

Lemma call_inv {A} (f : FS -> result FsErr (A * FS)) w r w' : call f w = (r, w') ->
  (exists a, r = Ok a /\ f w.1 = Ok (a, w'.1)) \/ (exists e, r = Err e /\ w'.1 = w.1 /\ (e = EIO \/ f w.1 = Err e)).
Proof.
  destruct w as [fs [|[] fl']]; simpl; [|intros [= <- <-]; right; by eauto|];
    destruct (f fs) as [[a fs']|e]; intros [= <- <-]; [left|right|left|right]; by eauto 10.
Qed.

Lemma Keeps_call {A} (F : feet) (f : FS -> result FsErr (A * FS)) :
  (forall fs a fs', f fs = Ok (a, fs') -> Frame F fs fs') -> Keeps F (call f).
Proof.
  intros Hf w r w' [(a & -> & E)|(e & -> & -> & _)]%call_inv; [by eapply Hf|apply Frame_refl].
Qed.

Lemma on_inv {A} (sd : Side) (f : tree -> result FsErr (A * tree)) w r w' : on sd f w = (r, w') ->
  (exists a t, r = Ok a /\ f (treeOf sd w.1) = Ok (a, t) /\ w'.1 = setTree sd t w.1) \/
  (exists e, r = Err e /\ w'.1 = w.1 /\ (e = EIO \/ f (treeOf sd w.1) = Err e)).
Proof.
  intros [(a & -> & E)|(e & -> & -> & He)]%call_inv.
  - left. destruct (f (treeOf sd w.1)) as [[a' t]|] eqn:Ef; [|done]. injection E as -> <-. by exists a, t.
  - right. exists e. split; [done|]. split; [done|]. destruct He as [?|He]; [by left|]. right.
    destruct (f (treeOf sd w.1)) as [[a' t]|]; [done|]. by injection He as ->.
Qed.

Lemma Keeps_on {A} (F : feet) (sd : Side) (f : tree -> result FsErr (A * tree)) :
  (forall t a t', f t = Ok (a, t') -> frame (F sd) t t') -> Keeps F (on sd f).
Proof.
  intros Hf w r w' [(a & t & -> & E & ->)|(e & -> & -> & _)]%on_inv; [|apply Frame_refl].
  intros sd'. destruct (decide (sd' = sd)) as [->|Hne].
  - rewrite treeOf_set. by eapply Hf.
  - rewrite treeOf_set_ne by done. apply frame_refl.
Qed.

Lemma Keeps_read {A} (F : feet) (f : FS -> result FsErr A) :
  Keeps F (call (fun fs => match f fs with Ok a => Ok (a, fs) | Err e => Err e end)).
Proof. apply Keeps_call. intros fs a fs'. destruct (f fs); [|done]. intros [= _ <-]. apply Frame_refl. Qed.

Lemma Keeps_touch F : Keeps F touch.
Proof. apply Keeps_call. intros fs a fs' [= _ <-]. apply Frame_refl. Qed.
Lemma Keeps_lstat F sd p : Keeps F (lstat sd p).
Proof. apply (Keeps_read F (fun fs => nodeAt (treeOf sd fs) p)). Qed.
Lemma Keeps_openServerRoot F create : Keeps F (openServerRoot create).
Proof.
  apply Keeps_call. intros fs a fs'. destruct (server fs) eqn:E; [intros [= _ <-]; apply Frame_refl|].
  destruct create; intros [= _ <-]; [|apply Frame_refl]. intros []; simpl; rewrite ?E; apply frame_refl.
Qed.

Lemma checked_Ok dest w p w' : checked dest w = (Ok p, w') -> CheckDest dest = Ok p /\ w' = w.
Proof. unfold checked. destruct (CheckDest dest); by intros [= <- <-]. Qed.
Lemma Keeps_checked F dest : Keeps F (checked dest).
Proof. unfold checked. destruct (CheckDest dest); [apply Keeps_ret|apply Keeps_fail]. Qed.
Lemma Keeps_openStaged F staged src : Keeps F (openStaged staged src).
Proof. apply (Keeps_read F (fun _ => match staged src with Some c => Ok c | None => Err EStaged end)) || (apply Keeps_call; intros fs a fs'; destruct (staged src); [intros [= _ <-]; apply Frame_refl|done]). Qed.
Lemma Keeps_removeIfThere F sd p : (forall t u t', tRemove p t = Ok (u, t') -> frame (F sd) t t') -> Keeps F (removeIfThere sd p).
Proof.
  intros Hf w r w' Hr. assert (exists r1, on sd (tRemove p) w = (r1, w')) as [r1 E].
  { unfold removeIfThere in Hr. destruct (on sd (tRemove p) w) as [[u|[]] w1]; injection Hr as _ <-; by eexists. }
  by eapply (Keeps_on F sd (tRemove p)).
Qed.
Lemma Keeps_joined F es : Keeps F (joined es).
Proof. destruct es; [apply Keeps_ret|apply Keeps_fail]. Qed.

Create HintDb installfs.
#[export] Hint Resolve Keeps_checked Keeps_openStaged Keeps_joined : installfs.
#[export] Hint Resolve Keeps_ret Keeps_fail Keeps_bind Keeps_try Keeps_touch Keeps_lstat Keeps_openServerRoot : installfs.

(** ** Publishing *)

Definition anc (rel q : path) : Prop := q ∈ upTo (parent rel).
Definition pubFoot (rel : path) (w : bool) : foot := mkFoot (fun p => w = true /\ p = rel) nowhere (anc rel).

Lemma copyBytes_spec sd tmp content : forall w r w' c0, copyBytes sd tmp content w = (r, w') ->
  treeOf sd w.1 !! tmp = Some (NFile c0) ->
  exists c1, treeOf sd w'.1 !! tmp = Some (NFile c1) /\ (r = Ok tt -> c1 = c0 ++ content).
Proof.
  induction content as [|b content IH]; intros w r w' c0; cbn [copyBytes].
  { intros [= <- <-] Hc. exists c0. by rewrite app_nil_r. }
  unfold fbind. destruct (on sd (tAppend tmp b) w) as [r1 w1] eqn:E. intros Hr Hc.
  apply on_inv in E as [(u & t & -> & Ht & Hw)|(e & -> & Hw & _)]; cycle 1.
  { injection Hr as <- <-. rewrite Hw. exists c0. done. }
  assert (treeOf sd w1.1 !! tmp = Some (NFile (c0 ++ [b]))) as Hc1.
  { rewrite Hw, treeOf_set. injection Ht as _ <-. by rewrite lookup_alter_eq, Hc. }
  destruct (IH _ _ _ _ Hr Hc1) as (c1 & Hl & Ho). exists c1. split; [done|]. intros Hok. rewrite Ho by done. by rewrite <- app_assoc.
Qed.

Section Publish.
Context `{TempNames}.

Lemma Keeps_mkdirEach F sd qs : (forall q, q ∈ qs -> fm (F sd) q) -> Keeps F (mkdirEach sd qs).
Proof.
  induction qs as [|q qs IH]; intros Hq; cbn [mkdirEach]; [apply Keeps_ret|].
  assert (Keeps F (mkdirEach sd qs)) by (apply IH; intros; apply Hq; by right).
  apply Keeps_bind; [apply Keeps_try, Keeps_on; intros t u t'; apply tMkdir_frame, Hq; left|].
  intros [|[]]; eauto with installfs. apply Keeps_bind; [apply Keeps_lstat|]. intros n. destruct (isDirNode n); eauto with installfs.
Qed.
Lemma Keeps_chmodEach F qs : Keeps F (chmodEach qs).
Proof. induction qs; cbn [chmodEach]; eauto with installfs. Qed.
Lemma Keeps_mkdirExact F qs : (forall q, q ∈ qs -> fm (F Beside) q) -> Keeps F (mkdirExact qs).
Proof.
  induction qs as [|q qs IH]; intros Hq; cbn [mkdirExact]; [apply Keeps_ret|].
  assert (Keeps F (mkdirExact qs)) by (apply IH; intros; apply Hq; by right).
  apply Keeps_bind; [eauto with installfs|]. intros [n|e]; [destruct (isDirNode n); eauto with installfs|].
  apply Keeps_bind; [done|]. intros _. apply Keeps_bind; [apply Keeps_try, Keeps_on; intros t u t'; apply tMkdir_frame, Hq; left|].
  intros [|[]]; eauto with installfs.
Qed.

Definition makeDirs (sd : Side) (dir : path) : Fs unit :=
  match sd with Server => mkdirAllSetgid dir | Beside => MkdirAllExact dir end.
Lemma Keeps_makeDirs F sd rel : (forall q, anc rel q -> fm (F sd) q) -> Keeps F (makeDirs sd (parent rel)).
Proof.
  intros Hq. destruct sd; simpl.
  - apply Keeps_bind; [by apply Keeps_mkdirEach|]. intros _. apply Keeps_chmodEach.
  - apply Keeps_mkdirExact. intros q Hin. apply Hq. unfold anc. by rewrite (Permutation_rev (upTo (parent rel))).
Qed.

Lemma createTemp_Ok sd dir w tmp w' : createTemp sd dir w = (Ok tmp, w') ->
  tmp = dir ++ [tempPrefix ++ tempSuffix (treeOf sd w.1) dir] /\ treeOf sd w.1 !! tmp = None /\
  w'.1 = setTree sd (<[tmp := NFile []]> (treeOf sd w.1)) w.1.
Proof.
  unfold createTemp, fbind. destruct (on _ _ _) as [[[]|e] w1] eqn:E; [|done]. intros [= <- <-].
  apply on_inv in E as [(u & t & _ & Ht & Hw)|(e & ? & _)]; [|done]. apply tCreate_spec in Ht as (_ & ? & _ & ->). done.
Qed.
Lemma Keeps_createTemp F sd dir : Keeps F (createTemp sd dir).
Proof.
  intros w. unfold createTemp. cbv zeta. apply Keeps_bind; [|eauto with installfs]. apply Keeps_on. intros t u t'.
  apply tCreate_frame, isTemp_snoc.
Qed.

Lemma Keeps_copyBytes F sd tmp content : isTemp tmp = true -> Keeps F (copyBytes sd tmp content).
Proof.
  intros Ht. induction content; cbn [copyBytes]; [apply Keeps_ret|]. apply Keeps_bind; [|done]. apply Keeps_on.
  intros t u t'. by apply tAppend_frame.
Qed.

Lemma touch_inv w r w' : touch w = (r, w') -> w'.1 = w.1.
Proof. by intros [(a & _ & [= _ <-])|(e & _ & -> & _)]%call_inv. Qed.

(** The flush before the rename changes nothing. *)
Lemma rename_inv sd tmp rel w r w' :
  (do! _ := touch in do! _ := touch in do! _ := touch in on sd (tRename tmp rel)) w = (r, w') ->
  (r = Ok tt /\ exists t, tRename tmp rel (treeOf sd w.1) = Ok (tt, t) /\ w'.1 = setTree sd t w.1) \/
  (is_ok r = false /\ w'.1 = w.1).
Proof.
  unfold fbind. destruct (touch w) as [[[]|e1] w1] eqn:E1; apply touch_inv in E1; [|intros [= <- <-]; by right].
  destruct (touch w1) as [[[]|e2] w2] eqn:E2; apply touch_inv in E2; [|intros [= <- <-]; right; by rewrite E2].
  destruct (touch w2) as [[[]|e3] w3] eqn:E3; apply touch_inv in E3; [|intros [= <- <-]; right; by rewrite E3, E2].
  intros E. rewrite <- E1, <- E2, <- E3. apply on_inv in E as [([] & t & -> & Ht & Hw)|(e & -> & Hw & _)]; [left|by right].
  split; [done|]. by exists t.
Qed.

(** The copy up to the rename changes no file but the temporary one; the
    rename, where it happens, is the last call. *)
Lemma fillAndRename_spec sd tmp rel content w r w' : isTemp tmp = true -> treeOf sd w.1 !! tmp = Some (NFile []) ->
  fillAndRename sd tmp rel content w = (r, w') ->
  Frame (only sd (pubFoot rel (is_ok r))) w.1 w'.1 /\ (tmp <> rel -> treeOf sd w'.1 !! tmp <> Some NDir) /\
  (r = Ok tt -> exists c, content = Ok c /\ treeOf sd w'.1 !! rel = Some (NFile c)).
Proof.
  intros Ht Hc. unfold fillAndRename. intros Hr. unfold fbind in Hr at 1.
  destruct (match content with Ok c => copyBytes sd tmp c | Err e => ffail e end w) as [r1 w1] eqn:E1.
  assert (Frame (only sd (pubFoot rel (is_ok r))) w.1 w1.1) as H1.
  { destruct content; [by eapply Keeps_copyBytes|by eapply (@Keeps_fail unit)]. }
  assert (exists c1, treeOf sd w1.1 !! tmp = Some (NFile c1) /\ (r1 = Ok tt -> content = Ok c1)) as (c1 & Hc1 & Hcont).
  { destruct content as [c|e]; [|injection E1 as <- <-; by exists []].
    destruct (copyBytes_spec _ _ _ _ _ _ _ E1 Hc) as (c1 & ? & Ho). exists c1. split; [done|]. intros Hok. by rewrite Ho. }
  destruct r1 as [[]|e]; [|injection Hr as <- <-; by rewrite Hc1].
  apply rename_inv in Hr as [(-> & t & Hren & ->)|[Hr ->]]; [|split; [done|]; rewrite Hc1; split; [done|]; by intros ->].
  split; [|rewrite treeOf_set; apply tRename_spec in Hren as (c & Hf & _ & _ & _ & ->); split].
  - eapply Frame_trans; [exact H1|]. intros sd'. unfold only. destruct (decide _) as [->|Hne].
    + rewrite treeOf_set. eapply tRename_frame; [exact Ht| |exact Hren]. done.
    + rewrite treeOf_set_ne by done. apply frame_refl.
  - intros Hne. rewrite lookup_insert_ne, lookup_delete_eq by done. done.
  - intros _. exists c1. rewrite lookup_insert_eq. split; [by apply Hcont|]. congruence.
Qed.

(** A replacement that succeeds leaves the source's bytes at its path, one that
    fails leaves every file as it was. *)
Lemma replaceFile_spec sd rel content w r w' : isTemp rel = false -> replaceFile sd rel content w = (r, w') ->
  Frame (only sd (pubFoot rel (is_ok r))) w.1 w'.1 /\
  (r = Ok tt -> exists c, content = Ok c /\ treeOf sd w'.1 !! rel = Some (NFile c)).
Proof.
  intros Hrel. unfold replaceFile. set (F := only sd (pubFoot rel (is_ok r))). intros Hr. unfold fbind in Hr.
  destruct (createTemp sd (parent rel) w) as [r2 w2] eqn:E2. assert (Frame F w.1 w2.1) as H2 by (by eapply Keeps_createTemp).
  destruct r2 as [tmp|e]; [|injection Hr as <- <-; by split].
  apply createTemp_Ok in E2 as (Htmp & _ & Hw2). assert (isTemp tmp = true) as Ht by (rewrite Htmp; apply isTemp_snoc).
  unfold deferRemove in Hr. destruct (fillAndRename sd tmp rel content w2) as [r3 w3] eqn:E3.
  destruct (on sd (tRemove tmp) w3) as [r4 w4] eqn:E4. injection Hr as <- <-.
  assert (tmp <> rel) as Hne by (intros E; rewrite E in Ht; congruence).
  destruct (fillAndRename_spec _ _ _ _ _ _ _ Ht ltac:(by rewrite Hw2, treeOf_set, lookup_insert_eq) E3) as (H3 & Hnd & Hok).
  specialize (Hnd Hne).
  assert (Frame F w3.1 w4.1 /\ treeOf sd w4.1 !! rel = treeOf sd w3.1 !! rel) as [H4 Hrel4].
  { apply on_inv in E4 as [(v & t & _ & Hrem & ->)|(e & _ & -> & _)]; [|split; [apply Frame_refl|done]]. split.
    - intros sd'. destruct (decide (sd' = sd)) as [->|Hne']; [|rewrite treeOf_set_ne by done; apply frame_refl].
      rewrite treeOf_set. eapply tRemove_file; [by rewrite Ht|exact Hnd|exact Hrem].
    - apply tRemove_spec in Hrem as [-> _]. by rewrite treeOf_set, lookup_delete_ne. }
  split; [|rewrite Hrel4; exact Hok]. do 2 (eapply Frame_trans; [eassumption|]). done.
Qed.

(** So does a publish. *)
Lemma publish_spec sd rel content w r w' : isTemp rel = false -> publish sd rel content w = (r, w') ->
  Frame (only sd (pubFoot rel (is_ok r))) w.1 w'.1 /\
  (r = Ok tt -> exists c, content = Ok c /\ treeOf sd w'.1 !! rel = Some (NFile c)).
Proof.
  intros Hrel. unfold publish. intros Hr. unfold fbind in Hr at 1.
  change (match sd with Server => mkdirAllSetgid (parent rel) | Beside => MkdirAllExact (parent rel) end) with (makeDirs sd (parent rel)) in Hr.
  destruct (makeDirs sd (parent rel) w) as [r1 w1] eqn:E1.
  assert (Frame (only sd (pubFoot rel (is_ok r))) w.1 w1.1) as H1.
  { eapply Keeps_makeDirs; [|exact E1]. intros q Hq. unfold only. by rewrite decide_True. }
  destruct r1 as [u|e]; [|by injection Hr as <- <-]. apply replaceFile_spec in Hr as [H2 Hok]; [|done].
  split; [|exact Hok]. by eapply Frame_trans.
Qed.

Lemma Keeps_publish F sd rel content : isTemp rel = false -> footLe (pubFoot rel true) (F sd) -> Keeps F (publish sd rel content).
Proof.
  intros Hrel Hle w r w' Hr. apply publish_spec in Hr as [Hf _]; [|done]. eapply Frame_weaken; [|exact Hf].
  apply feetLe_only. destruct Hle as (H1 & H2 & H3). split; [|done]. intros p [_ Hp]. by apply H1.
Qed.

End Publish.

(** ** Without faults *)

Definition runs {A} (m : Fs A) (fs : FS) (a : A) (fs' : FS) : Prop := m (fs, []) = (Ok a, (fs', [])).

Lemma runs_bind {A B} (m : Fs A) (k : A -> Fs B) fs a fs1 b fs2 :
  runs m fs a fs1 -> runs (k a) fs1 b fs2 -> runs (fbind m k) fs b fs2.
Proof. unfold runs, fbind. by intros ->. Qed.
Lemma runs_touch fs : runs touch fs tt fs.
Proof. done. Qed.
Lemma runs_on {A} (sd : Side) (f : tree -> result FsErr (A * tree)) fs a t :
  f (treeOf sd fs) = Ok (a, t) -> runs (on sd f) fs a (setTree sd t fs).
Proof. unfold runs, on, call. by intros ->. Qed.
Lemma runs_lstat sd p fs n : nodeAt (treeOf sd fs) p = Ok n -> runs (lstat sd p) fs n fs.
Proof. unfold runs, lstat, call. by intros ->. Qed.
Lemma try_lstat sd p fs : ftry (lstat sd p) (fs, []) = (Ok (nodeAt (treeOf sd fs) p), (fs, [])).
Proof. unfold ftry, lstat, call. by destruct (nodeAt _ _). Qed.

Lemma dirAt_node t p : wf t -> dirAt t p = true -> nodeAt t p = Ok NDir.
Proof. intros Hwf [->|Hd]%dirAt_spec; [done|by apply nodeAt_wf]. Qed.

Lemma upTo_dirs t dir q : wf t -> dirAt t dir = true -> q ∈ upTo dir -> dirAt t q = true.
Proof.
  intros Hwf Hd. unfold upTo. case_bool_decide; [by intros ?%elem_of_nil|].
  intros [(i & Hi & ->)%parents_elem|Hq%list_elem_of_singleton]%elem_of_app; [|by rewrite Hq].
  apply dirAt_spec in Hd as [?|Hd]; [done|]. apply dirAt_spec. right. by eapply wf_ancestor.
Qed.

Section Run.
Context `{TempNames}.

Lemma mkdirEach_run sd qs fs : wf (treeOf sd fs) -> (forall q, q ∈ qs -> dirAt (treeOf sd fs) q = true) ->
  runs (mkdirEach sd qs) fs tt fs.
Proof.
  intros Hwf. induction qs as [|q qs IH]; intros Hq; [done|]. cbn [mkdirEach]. unfold runs, fbind.
  assert (nodeAt (treeOf sd fs) q = Ok NDir) as Hn by (apply dirAt_node; [done|]; apply Hq; left).
  assert (ftry (on sd (tMkdir q)) (fs, []) = (Ok (Err EEXIST), (fs, []))) as ->
    by (unfold ftry, on, call, tMkdir; by rewrite Hn).
  rewrite (runs_lstat _ _ _ _ Hn). cbn [isDirNode]. apply IH. intros. apply Hq. by right.
Qed.

Lemma chmodEach_run qs fs : runs (chmodEach qs) fs tt fs.
Proof. induction qs as [|q qs IH]; [done|]. exact (runs_bind _ _ _ _ _ _ _ (runs_touch fs) IH). Qed.

Lemma makeDirs_run sd dir fs : wf (treeOf sd fs) -> dirAt (treeOf sd fs) dir = true -> runs (makeDirs sd dir) fs tt fs.
Proof.
  intros Hwf Hd. destruct sd; simpl.
  - eapply runs_bind; [|apply chmodEach_run]. apply mkdirEach_run; [done|]. intros q. by apply upTo_dirs.
  - unfold MkdirAllExact, upTo. case_bool_decide; [done|]. rewrite rev_app_distr. cbn [rev app mkdirExact].
    unfold runs, fbind. by rewrite try_lstat, (dirAt_node (treeOf Beside fs) dir) by done.
Qed.

Lemma copyBytes_run sd tmp content : forall fs, exists fs', runs (copyBytes sd tmp content) fs tt fs'.
Proof.
  induction content as [|b content IH]; intros fs; [by exists fs|]. cbn [copyBytes].
  destruct (IH (setTree sd (alter (fun n => match n with NFile c => NFile (c ++ [b]) | n => n end) tmp (treeOf sd fs)) fs)) as [fs' Hr].
  exists fs'. by eapply runs_bind; [by apply runs_on|].
Qed.

(** Into an existing directory, over anything but a directory, a publish
    succeeds. *)
Lemma publish_run `{!TempLaws} sd rel c fs : wf (treeOf sd fs) -> rel <> [] -> isTemp rel = false ->
  dirAt (treeOf sd fs) (parent rel) = true -> treeOf sd fs !! rel <> Some NDir ->
  exists fs', runs (publish sd rel (Ok c)) fs tt fs'.
Proof.
  intros Hwf Hne Ht Hd Hnd. unfold publish.
  change (match sd with Server => mkdirAllSetgid (parent rel) | Beside => MkdirAllExact (parent rel) end) with (makeDirs sd (parent rel)).
  set (t := treeOf sd fs) in *. set (tmp := parent rel ++ [tempPrefix ++ tempSuffix t (parent rel)]).
  assert (isTemp tmp = true) as Htmp by apply isTemp_snoc. assert (tmp <> rel) as Htr by (intros E; rewrite E in Htmp; congruence).
  assert (t !! tmp = None) as Hfresh by apply temp_fresh.
  assert (tmp <> [] /\ parent tmp = parent rel) as [Htn Htp] by (split; [unfold tmp; by destruct (parent rel)|apply parent_snoc]).
  assert (tCreate tmp t = Ok (tt, <[tmp := NFile []]> t)) as Hcr.
  { unfold tCreate. rewrite nodeAt_missing; [|done..|]; rewrite Htp; [|done]. by rewrite Hd. }
  assert (runs (createTemp sd (parent rel)) fs tmp (setTree sd (<[tmp := NFile []]> t) fs)) as Hct.
  { unfold runs, createTemp. cbn [fst]. fold t. fold tmp. eapply runs_bind; [by apply runs_on|]. done. }
  set (fs1 := setTree sd (<[tmp := NFile []]> t) fs) in *.
  assert (treeOf sd fs1 !! tmp = Some (NFile [])) as Hc1 by (unfold fs1; by rewrite treeOf_set, lookup_insert_eq).
  destruct (copyBytes_run sd tmp c fs1) as [fs2 Hcopy].
  pose proof (Keeps_copyBytes (fun _ => foot0) sd tmp c Htmp _ _ _ Hcopy sd) as Hf2. cbn [fst] in Hf2.
  destruct (copyBytes_spec _ _ _ _ _ _ _ Hcopy Hc1) as (c2 & Hc2 & _). cbn [fst] in Hc2.
  assert (frame foot0 t (treeOf sd fs1)) as Hf1.
  { unfold fs1. rewrite treeOf_set. apply frame_insert_file; [by rewrite Htmp|by rewrite Hfresh|done|by rewrite Htp]. }
  assert (frame foot0 t (treeOf sd fs2)) as Hf by (by eapply frame_trans).
  destruct Hf as [Fwf Fdir _ _ Fmade]. specialize (Fwf Hwf).
  assert (dirAt (treeOf sd fs2) (parent rel) = true) as Hd2.
  { apply dirAt_spec. apply dirAt_spec in Hd as [?|Hd]; [by left|right; apply Fdir; [by intros []|done]]. }
  assert (treeOf sd fs2 !! rel <> Some NDir) as Hnd2 by (intros [?|[]]%Fmade; done).
  assert (exists t3, tRename tmp rel (treeOf sd fs2) = Ok (tt, t3)) as [t3 Hren].
  { unfold tRename. rewrite Hc2, Hd2. destruct (treeOf sd fs2 !! rel) as [n|] eqn:En.
    - rewrite (nodeAt_wf _ _ n) by done. destruct n; [by eexists|done|by eexists].
    - rewrite nodeAt_missing by done. by eexists. }
  assert (runs (fillAndRename sd tmp rel (Ok c)) fs1 tt (setTree sd t3 fs2)) as Hfill.
  { unfold fillAndRename. eapply runs_bind; [exact Hcopy|]. do 3 (eapply runs_bind; [apply runs_touch|]).
    by apply runs_on. }
  assert (exists fs', runs (deferRemove sd tmp (fillAndRename sd tmp rel (Ok c))) fs1 tt fs') as [fs' Hdef].
  { unfold runs, deferRemove. rewrite Hfill. unfold on, call. cbn [tail].
    destruct (tRemove tmp _) as [[v t4]|e]; by eexists. }
  exists fs'. eapply runs_bind; [by apply makeDirs_run|]. unfold replaceFile. by eapply runs_bind.
Qed.

End Run.
