(* ===== verification/InstallSafe.v ===== *)
(** What an install, an uninstall and their rollback do to the server root,
    whatever calls fail: the rollback gives back what was there, and an install
    writes only where its diff allowed. *)
From S2P Require Import Prelude GoBytes Paths Installer InstallFS InstallLaws.
Open Scope list_scope.

(** No component of a destination is named like a temporary file. *)
Definition noTemp (rel : path) : Prop := Forall (fun c => hasPrefix tempPrefix c = false) rel.

Lemma noTemp_isTemp rel : noTemp rel -> isTemp rel = false.
Proof.
  unfold noTemp, isTemp, base. intros H. destruct (last rel) as [c|] eqn:E; [|done].
  apply last_Some_elem_of in E. exact (proj1 (Forall_forall _ _) H c E).
Qed.
Lemma noTemp_take rel i : noTemp rel -> isTemp (take i rel) = false.
Proof. intros H. apply noTemp_isTemp. by apply Forall_take. Qed.

(** A footprint that is empty keeps what every path names. *)
Lemma leaf_node t p n : leaf t p = Some n <-> t !! p = Some n /\ n <> NDir.
Proof. unfold leaf. destruct (t !! p) as [[]|]; naive_solver. Qed.

Lemma frame_lookup f t t' p : frame f t t' -> ~ fl f p -> ~ fm f p -> isTemp p = false -> t !! p <> Some NDir -> t' !! p = t !! p.
Proof.
  intros [_ _ _ A4 A5] H1 H2 Ht Hd. assert (t' !! p <> Some NDir) as Hd' by (intros [?|?]%A5; done).
  specialize (A4 p H1 Ht). unfold leaf in A4. destruct (t !! p) as [[]|], (t' !! p) as [[]|]; congruence.
Qed.

Lemma frame0_nonDir t t' q : frame foot0 t t' -> isTemp q = false -> nonDir t' q = nonDir t q.
Proof.
  intros [_ _ _ A4 _] Ht. specialize (A4 q ltac:(by intros []) Ht). unfold leaf, nonDir in *.
  destruct (t !! q) as [[]|], (t' !! q) as [[]|]; by simplify_eq.
Qed.

Lemma frame0_nodeAt t t' rel : frame foot0 t t' -> noTemp rel -> nodeAt t' rel = nodeAt t rel.
Proof.
  intros Hf Hn. unfold nodeAt. case_bool_decide; [done|].
  assert (existsb (nonDir t') (parents rel) = existsb (nonDir t) (parents rel)) as ->.
  { apply eq_iff_eq_true. rewrite !existsb_elem_of. split; intros (q & Hq & Hd); exists q; (split; [done|]);
      apply parents_elem in Hq as (i & _ & ->); [rewrite <- (frame0_nonDir t t')|rewrite (frame0_nonDir t t')]; auto using noTemp_take. }
  destruct (existsb _ _); [done|]. apply noTemp_isTemp in Hn. destruct (decide (t !! rel = Some NDir)) as [E|Hne].
  - by rewrite E, (fr_dir _ _ _ Hf rel ltac:(by intros [])).
  - by rewrite (frame_lookup _ _ _ _ Hf ltac:(by intros []) ltac:(by intros [])).
Qed.

Section Safe.
Context `{TempNames}.

(** ** Footprints of the operations *)

Lemma Keeps_removeNames F ps : forall es w r w', removeNames es ps w = (r, w') ->
  (forall p, p ∈ ps -> isTemp p = true /\ treeOf Server w.1 !! p <> Some NDir) -> (forall p, ~ fm (F Server) p) -> Frame F w.1 w'.1.
Proof.
  induction ps as [|p ps IH]; intros es w r w'; cbn [removeNames]; [intros [= _ <-] _ _; apply Frame_refl|].
  unfold fbind, ftry, removeIfThere. destruct (on Server (tRemove p) w) as [r1 w1] eqn:E. intros Hr Hp Hm.
  destruct (Hp p ltac:(left)) as [Ht Hd].
  assert (Frame F w.1 w1.1) as H1.
  { apply on_inv in E as [(v & t & _ & Hrem & ->)|(e & _ & -> & _)]; [|apply Frame_refl].
    intros sd. destruct (decide (sd = Server)) as [->|Hne]; [|rewrite treeOf_set_ne by done; apply frame_refl].
    rewrite treeOf_set. eapply tRemove_file; [by rewrite Ht|exact Hd|exact Hrem]. }
  eapply Frame_trans; [exact H1|]. assert (exists es', removeNames es' ps w1 = (r, w')) as [es' Hr'].
  { destruct r1 as [u|[]]; by eexists. }
  eapply IH; [exact Hr'| |exact Hm]. intros q Hq. destruct (Hp q ltac:(by right)) as [? Hqd]. split; [done|].
  intros [?|?]%(fr_made _ _ _ (H1 Server)); [done|by eapply Hm].
Qed.

Lemma readTemps_spec dir w ps w' : readTemps dir w = (Ok ps, w') -> w'.1 = w.1 /\
  forall p, p ∈ ps -> isTemp p = true /\ treeOf Server w.1 !! p <> Some NDir.
Proof.
  intros [(a & Ha & Hf)|(e & ? & _)]%call_inv; [|done]. injection Ha as <-.
  cbv zeta in Hf. destruct (nodeAt (treeOf Server w.1) dir) as [[]|]; try done. injection Hf as <- <-. split; [done|].
  intros p [[Hn Ht]%andb_true_iff _]%list_elem_of_filter. split; [done|].
  apply nonDir_spec in Hn as (n & En & Hne). cbn [treeOf]. congruence.
Qed.

Lemma Keeps_removeStaleTemps dirs : forall es, Keeps (fun _ => foot0) (removeStaleTemps es dirs).
Proof.
  induction dirs as [|d dirs IH]; intros es; cbn [removeStaleTemps]; [apply Keeps_ret|].
  intros w r w'. unfold fbind, ftry. destruct (readTemps d w) as [[ps|e] w1] eqn:E.
  - apply readTemps_spec in E as [Hw Hps]. destruct (removeNames es ps w1) as [[es'|e'] w2] eqn:E2.
    + intros Hr. eapply Frame_trans; [|by eapply IH]. rewrite <- Hw in Hps |- *.
      eapply Keeps_removeNames; [exact E2|done|by intros p []].
    + intros [= _ <-]. rewrite <- Hw in Hps |- *. eapply Keeps_removeNames; [exact E2|done|by intros p []].
  - assert (w1.1 = w.1) as Hw.
    { apply call_inv in E as [(a & ? & _)|(e' & _ & ? & _)]; [done|done]. }
    destruct e; intros Hr; rewrite <- Hw; by eapply IH.
Qed.

(** An apply writes only at the destinations of its unskipped changes. *)
Definition destOn (paths : list bytes) (p : path) : Prop := exists d, d ∈ paths /\ CheckDest d = Ok p.
#[export] Instance destOn_dec paths p : Decision (destOn paths p).
Proof.
  destruct (decide (Some p ∈ map (fun d => match CheckDest d with Ok p => Some p | Err _ => None end) paths)) as [Hin|Hin];
    [left|right].
  - apply list_elem_of_fmap in Hin as (d & E & Hd). exists d. destruct (CheckDest d) eqn:Ed; by simplify_eq.
  - intros (d & Hd & E). apply Hin, list_elem_of_fmap. exists d. by rewrite E.
Defined.
Definition destAnc (paths : list bytes) (q : path) : Prop := exists p, destOn paths p /\ anc p q.
Definition noTemps (paths : list bytes) : Prop := forall p, destOn paths p -> noTemp p.

Lemma Keeps_applyEach staged paths changes : (forall d, d ∈ DestPaths changes -> d ∈ paths) -> noTemps paths ->
  Keeps (only Server (mkFoot (destOn paths) nowhere (destAnc paths))) (applyEach staged changes).
Proof.
  intros Hsub Hn. induction changes as [|c cs IH]; cbn [applyEach]; [apply Keeps_ret|].
  rewrite DestPaths_cons in Hsub. destruct (bool_decide (chAction c = ActionSkip)); [by apply IH|].
  apply (Keeps_bind_when _ (fun rel => CheckDest (chDest c) = Ok rel)); [apply Keeps_checked|by intros w p w' [? _]%checked_Ok|].
  intros rel Hrel. assert (destOn paths rel) as Hd by (exists (chDest c); split; [apply Hsub; left|done]).
  apply Keeps_bind; [apply Keeps_openStaged|]. intros content. apply Keeps_bind; [|intros _; apply IH; intros d Hin; apply Hsub; by right].
  apply Keeps_publish; [by apply noTemp_isTemp, Hn|]. unfold only. rewrite decide_True by done.
  split; [by intros p [_ ->]|]. split; [done|]. intros q Hq. by exists rel.
Qed.

(** A removal takes names away only at its paths, and makes no directory. *)
Lemma Keeps_removeEach paths root es ps : (forall d, d ∈ ps -> d ∈ paths) ->
  Keeps (only Server (mkFoot (destOn paths) (destOn paths) nowhere)) (removeEach root es ps).
Proof.
  revert es. induction ps as [|p ps IH]; intros es Hsub; cbn [removeEach]; [apply Keeps_ret|].
  assert (forall d, d ∈ ps -> d ∈ paths) by (intros; apply Hsub; by right).
  destruct (CheckDest p) as [rel|] eqn:E; [|by apply IH]. apply Keeps_bind; [|intros r; by apply IH].
  apply Keeps_try. destruct root; [|apply Keeps_ret]. apply Keeps_removeIfThere. intros t u t'.
  unfold only. rewrite decide_True by done. assert (destOn paths rel) by (exists p; split; [apply Hsub; left|done]).
  by apply tRemove_frame.
Qed.

(** ** The operations a rollback undoes *)
Inductive undone (paths : list bytes) : FS -> FS -> Prop :=
| undone_apply staged changes fs q r fs' q' : DestPaths changes = paths ->
    Apply staged changes (fs, q) = (r, (fs', q')) -> undone paths fs fs'
| undone_remove fs q r fs' q' : Remove paths (fs, q) = (r, (fs', q')) -> undone paths fs fs'.

Lemma undone_frame paths fs fs' : noTemps paths -> undone paths fs fs' ->
  Frame (only Server (mkFoot (destOn paths) nowhere (destAnc paths))) fs fs' \/
  Frame (only Server (mkFoot (destOn paths) (destOn paths) nowhere)) fs fs'.
Proof.
  intros Hn [staged changes fs0 q r fs1 q' <- E|fs0 q r fs1 q' E]; [left|right].
  - refine (Keeps_bind _ _ _ _ _ (fs0, q) r (fs1, q') E); [apply Keeps_openServerRoot|]. intros _.
    by apply Keeps_applyEach.
  - refine (Keeps_bind _ _ _ _ _ (fs0, q) r (fs1, q') E); [apply Keeps_openServerRoot|]. intros root.
    apply Keeps_bind; [by apply Keeps_removeEach|]. eauto with installfs.
Qed.

(** ** What a backup saves *)

Lemma anc_dir t p q n : wf t -> t !! p = Some n -> anc p q -> t !! q = Some NDir.
Proof.
  intros Hwf Hp Hq. destruct (Hwf _ _ Hp) as [_ Hd]. unfold anc in Hq. pose proof (upTo_dirs t _ q Hwf Hd Hq) as Hdq.
  apply dirAt_spec in Hdq as [Hq0|?]; [|done]. subst q. exfalso. unfold upTo in Hq.
  case_bool_decide as E; [by apply elem_of_nil in Hq|].
  apply elem_of_app in Hq as [(i & Hi & E0)%parents_elem|Hq%list_elem_of_singleton]; [|by rewrite <- Hq in E].
  apply (f_equal length) in E0. rewrite length_take in E0. simpl in E0. lia.
Qed.

Lemma lstat_inv sd rel w r w' : lstat sd rel w = (r, w') -> w'.1 = w.1 /\ (r = Err EIO \/ r = nodeAt (treeOf sd w.1) rel).
Proof.
  intros [(a & -> & E)|(e & -> & -> & He)]%call_inv.
  - destruct (nodeAt _ _); [|done]. injection E as -> <-. auto.
  - split; [done|]. destruct He as [->|He]; [by left|]. destruct (nodeAt _ _); [done|]. injection He as ->. by right.
Qed.

Lemma openRegular_inv sd rel w r w' : openRegular sd rel w = (r, w') -> w'.1 = w.1 /\
  (forall c, r = Ok c -> nodeAt (treeOf sd w.1) rel = Ok (NFile c)) /\ (r = Err ENOENT -> nodeAt (treeOf sd w.1) rel = Err ENOENT).
Proof.
  unfold openRegular, fbind. destruct (lstat sd rel w) as [[n|e] w1] eqn:E1; apply lstat_inv in E1 as [Hw1 Hn]; cycle 1.
  { intros [= <- <-]. split; [done|]. split; [done|]. intros [= ->]. by destruct Hn. }
  destruct Hn as [?|Hn]; [done|]. destruct (touch w1) as [[[]|e] w2] eqn:E2.
  - apply touch_inv in E2. destruct n; intros [= <- <-]; (split; [congruence|]); (split; [|done]); by intros c' [= <-].
  - pose proof (touch_inv _ _ _ E2). intros [= <- <-]. split; [congruence|]. split; [done|]. intros [= ->].
    apply call_inv in E2 as [(a & ? & _)|(e & [= <-] & _ & [?|?])]; done.
Qed.

Record backed (t0 : tree) (rels : path -> Prop) (fs : FS) : Prop := {
  bk_server : frame foot0 t0 (treeOf Server fs);
  bk_wf : wf (beside fs);
  bk_file q : isTemp q = false -> nonDir (beside fs) q = true -> nonDir t0 q = true;
  bk_dir q : beside fs !! q = Some NDir -> t0 !! q = Some NDir;
  bk_saved rel c : rels rel -> isTemp rel = false -> t0 !! rel = Some (NFile c) -> beside fs !! rel = Some (NFile c);
  bk_kind rel : rels rel -> nodeAt t0 rel = Err ENOENT \/ exists c, t0 !! rel = Some (NFile c)
}.

Lemma backupOne_backed t0 rels rel w b w' : wf t0 -> noTemp rel -> backed t0 rels w.1 -> backupOne rel w = (Ok b, w') ->
  backed t0 (fun p => p = rel \/ rels p) w'.1.
Proof.
  intros Hwf Hn Hb. unfold backupOne. destruct (openRegular Server rel w) as [[c|e] w1] eqn:E1;
    apply openRegular_inv in E1 as (Hw1 & Hc & He); cycle 1.
  { destruct e; intros [= <- <-]. rewrite Hw1. specialize (He eq_refl). destruct Hb as [B1 B2 B3 B4 B5 B6].
    rewrite (frame0_nodeAt t0) in He by done. split; auto.
    - intros p c [->|Hp] Ht; [|by eauto]. apply nodeAt_ENOENT in He as [_ He]. congruence.
    - intros p [->|Hp]; [by left|auto]. }
  specialize (Hc c eq_refl). destruct Hb as [B1 B2 B3 B4 B5 B6]. rewrite (frame0_nodeAt t0) in Hc by done.
  apply nodeAt_Ok in Hc as [[_ ?]|[Hne Ht0]]; [done|].
  unfold fbind. destruct (publishFile rel (Ok c) w1) as [[[]|e] w2] eqn:E2; [|done]. intros [= _ <-].
  destruct (publish_spec Beside _ _ _ _ _ (noTemp_isTemp _ Hn) E2) as [Hf Hok]. destruct (Hok eq_refl) as (c' & [= <-] & Hrel).
  rewrite Hw1 in Hf. pose proof (Hf Server) as HfS. pose proof (Hf Beside) as HfB. unfold only in HfS, HfB. simpl in HfS, HfB.
  destruct HfB as [A1 A2 A3 A4 A5]. split.
  - by eapply frame_trans.
  - by apply A1.
  - intros q Hq Hd. destruct (decide (q = rel)) as [->|Hqr]; [apply nonDir_spec; by eauto|]. apply B3; [done|].
    specialize (A4 q ltac:(naive_solver) Hq). apply nonDir_spec in Hd as (n & Hn' & Hnd). apply nonDir_spec. exists n.
    split; [|done]. apply leaf_node. rewrite <- A4. by apply leaf_node.
  - intros q [Hq|Hq]%A5; [by apply B4|]. by eapply anc_dir.
  - intros p c' Hp Htp Ht. destruct (decide (p = rel)) as [->|Hpr]; [simpl in Hrel; congruence|].
    destruct Hp as [?|Hp]; [done|]. pose proof (B5 p c' Hp Htp Ht) as Hbp.
    specialize (A4 p ltac:(naive_solver) Htp). apply leaf_node. rewrite A4. by apply leaf_node.
  - intros p [->|Hp]; [right; by eauto|auto].
Qed.

Lemma backupEach_backed t0 ps : forall rels w w', wf t0 -> (forall d p, d ∈ ps -> CheckDest d = Ok p -> noTemp p) ->
  backed t0 rels w.1 -> backupEach true ps w = (Ok tt, w') -> backed t0 (fun p => rels p \/ destOn ps p) w'.1.
Proof.
  induction ps as [|d ps IH]; intros rels w w' Hwf Hn Hb; cbn [backupEach].
  { intros [= <-]. destruct Hb as [B1 B2 B3 B4 B5 B6]. split; auto.
    - intros p c [Hp|(d & Hd & _)]; [auto|by apply elem_of_nil in Hd].
    - intros p [Hp|(d & Hd & _)]; [auto|by apply elem_of_nil in Hd]. }
  unfold fbind. destruct (checked d w) as [[rel|e] w1] eqn:E1; [|done]. apply checked_Ok in E1 as [Hd ->].
  destruct (backupOne rel w) as [[b|e] w2] eqn:E2; [|done]. intros E3.
  apply (backupOne_backed t0 rels) in E2; [|done|apply (Hn d); [left|done]|done].
  apply (IH _ _ _ Hwf ltac:(intros d' p Hin; apply Hn; by right) E2) in E3. clear -E3 Hd. destruct E3 as [B1 B2 B3 B4 B5 B6].
  assert (forall p, rels p \/ destOn (d :: ps) p -> (p = rel \/ rels p) \/ destOn ps p) as Hp.
  { intros p [?|(d' & [->|Hin]%elem_of_cons & Hd')]; [tauto| |right; by exists d'].
    left; left. congruence. }
  split; auto.
Qed.

(** ** The rollback *)

Lemma backed_missing t0 rels fs rel : backed t0 rels fs -> wf t0 -> noTemp rel -> nodeAt t0 rel = Err ENOENT ->
  nodeAt (beside fs) rel = Err ENOENT.
Proof.
  intros [_ B2 B3 B4 _ _] Hwf Hn H0. destruct (nodeAt_ENOENT _ _ H0) as [Hne Ht0].
  unfold nodeAt in H0 |- *. rewrite bool_decide_false in H0 |- * by done.
  destruct (existsb (nonDir (beside fs)) (parents rel)) eqn:E.
  - apply existsb_elem_of in E as (q & Hq & Hd). assert (existsb (nonDir t0) (parents rel) = true) as E0; [|by rewrite E0 in H0].
    apply existsb_elem_of. exists q. split; [done|]. apply parents_elem in Hq as (i & _ & ->). apply B3; [by apply noTemp_take|done].
  - destruct (beside fs !! rel) as [n|] eqn:Er; [|done]. exfalso. destruct (decide (n = NDir)) as [->|Hnd].
    + apply B4 in Er. congruence.
    + assert (nonDir t0 rel = true) as Hd by (apply B3; [by apply noTemp_isTemp|apply nonDir_spec; by eauto]).
      apply nonDir_spec in Hd as (m & Hm & _). congruence.
Qed.

Record rolled (t0 : tree) (paths done_ : path -> Prop) (b1 : tree) (fs : FS) : Prop := {
  rl_beside : frame foot0 b1 (beside fs);
  rl_wf : wf (treeOf Server fs);
  rl_dir q : t0 !! q = Some NDir -> treeOf Server fs !! q = Some NDir;
  rl_saved rel c : paths rel -> t0 !! rel = Some (NFile c) -> treeOf Server fs !! rel <> Some NDir;
  rl_rest p : isTemp p = false -> (~ paths p \/ done_ p) -> leaf (treeOf Server fs) p = leaf t0 p
}.

Lemma removeIfThere_leaf sd p w r w' : wf (treeOf sd w.1) -> w.2 = [] -> removeIfThere sd p w = (r, w') ->
  leaf (treeOf sd w'.1) p = None /\ w'.2 = [].
Proof.
  destruct w as [fs l]. simpl. intros Hwf ->. unfold removeIfThere, on, call. cbn [tail].
  destruct (tRemove p (treeOf sd fs)) as [[u t]|e] eqn:E.
  - intros [= _ <-]. cbn [fst snd]. rewrite treeOf_set. apply tRemove_spec in E as [-> _]. unfold leaf. by rewrite lookup_delete_eq.
  - intros Hr. assert (w' = (fs, [])) as -> by (destruct e; congruence). split; [|done]. cbn [fst].
    unfold tRemove in E. destruct (nodeAt (treeOf sd fs) p) as [n|e'] eqn:En.
    + apply nodeAt_Ok in En as [[-> ->]|[Hne Hp]].
      * unfold leaf. destruct (treeOf sd fs !! []) eqn:E0; [|done]. by destruct (Hwf _ _ E0).
      * rewrite bool_decide_false in E by done. unfold leaf. rewrite Hp. by destruct n.
    + apply nodeAt_Err in En as (_ & _ & Hp); [|done]. unfold leaf. by rewrite Hp.
Qed.

Lemma rollbackOne_rolled `{!TempLaws} t0 (paths done_ : path -> Prop) fs1 fs rel : wf t0 -> backed t0 paths fs1 ->
  paths rel -> noTemp rel -> rolled t0 paths done_ (beside fs1) fs ->
  exists r fs', rollbackOne rel (fs, []) = (r, (fs', [])) /\ rolled t0 paths (fun p => p = rel \/ done_ p) (beside fs1) fs'.
Proof.
  intros Hwf0 Hb Hp Hn [R1 R2 R3 R4 R5]. pose proof (noTemp_isTemp _ Hn) as Ht.
  unfold rollbackOne, fbind. rewrite try_lstat. change (treeOf Beside fs) with (beside fs).
  rewrite (frame0_nodeAt (beside fs1)) by done. destruct (bk_kind _ _ _ Hb rel Hp) as [Hk0|[c Hk0]].
  - rewrite (backed_missing t0 paths fs1 rel) by done.
    destruct (removeIfThere Server rel (fs, [])) as [r [fs' l]] eqn:E. exists r, fs'.
    destruct (removeIfThere_leaf Server rel (fs, []) r (fs', l) R2 eq_refl E) as [Hl Hl2]. simpl in Hl, Hl2. subst l.
    split; [done|]. destruct (nodeAt_ENOENT _ _ Hk0) as [_ Ht0].
    assert (Frame (only Server (mkFoot (eq rel) (eq rel) nowhere)) fs fs') as Hf.
    { refine (Keeps_removeIfThere _ Server rel _ (fs, []) r (fs', []) E). intros t u t'. by apply tRemove_frame. }
    pose proof (Hf Server) as [A1 A2 A3 A4 A5]. pose proof (Hf Beside) as HfB. unfold only in A1, A2, A3, A4, A5, HfB. simpl in *.
    split; [by eapply frame_trans|by apply A1| | |].
    + intros q Hq. apply A2; [intros <-; congruence|auto].
    + intros p c Hpp Hpc Hd. apply A5 in Hd as [Hd|[]]. by eapply R4.
    + intros p Htp Hor. destruct (decide (p = rel)) as [->|Hne]; [etrans; [exact Hl|]; unfold leaf; by rewrite Ht0|].
      rewrite A4 by (try congruence; done). apply R5; [done|]. tauto.
  - pose proof (bk_saved _ _ _ Hb rel c Hp Ht Hk0) as Hbc.
    rewrite (nodeAt_wf _ _ _ (bk_wf _ _ _ Hb) Hbc). unfold restoreOne.
    assert (dirAt (treeOf Server fs) (parent rel) = true /\ rel <> []) as [Hdir Hne].
    { destruct (Hwf0 _ _ Hk0) as [Hne Hd]. split; [|done]. apply dirAt_spec. apply dirAt_spec in Hd as [?|?]; auto. }
    destruct (publish_run Server rel c fs R2 Hne Ht Hdir (R4 rel c Hp Hk0)) as [fs' Hrun].
    exists (Ok tt), fs'. assert (runs (lstat Beside rel) fs (NFile c) fs) as Hl.
    { apply runs_lstat. change (treeOf Beside fs) with (beside fs). rewrite (frame0_nodeAt (beside fs1)) by done.
      by apply nodeAt_wf; [apply (bk_wf _ _ _ Hb)|]. }
    split; [unfold fbind; rewrite Hl; exact Hrun|].
    destruct (publish_spec Server _ _ _ _ _ Ht Hrun) as [Hf Hok]. destruct (Hok eq_refl) as (c' & [= <-] & Hrel).
    pose proof (Hf Server) as [A1 A2 A3 A4 A5]. pose proof (Hf Beside) as HfB. unfold only in A1, A2, A3, A4, A5, HfB. simpl in *.
    split; [by eapply frame_trans|by apply A1| | |].
    + intros q Hq. apply A2; [by intros []|auto].
    + intros p c' Hpp Hpc Hd. apply A5 in Hd as [Hd|Ha]; [by eapply R4|]. pose proof (anc_dir t0 rel p _ Hwf0 Hk0 Ha). congruence.
    + intros p Htp Hor. destruct (decide (p = rel)) as [->|Hne'].
      * etrans; [apply leaf_node; by split|]. symmetry. by apply leaf_node.
      * rewrite A4 by (try (intros [_ ?]); done). apply R5; [done|]. tauto.
Qed.

Lemma rollbackEach_rolled `{!TempLaws} t0 paths fs1 manifest : wf t0 -> backed t0 (destOn paths) fs1 -> noTemps paths ->
  (forall e, e ∈ manifest -> mPath e ∈ paths) -> forall es touched done_ fs, rolled t0 (destOn paths) done_ (beside fs1) fs ->
  exists x fs', rollbackEach es touched manifest (fs, []) = (Ok x, (fs', [])) /\
    rolled t0 (destOn paths) (fun p => destOn (map mPath manifest) p \/ done_ p) (beside fs1) fs'.
Proof.
  intros Hwf Hb Hn. induction manifest as [|e m IH]; intros Hm es touched done_ fs Hr; cbn [rollbackEach].
  { exists (es, touched), fs. split; [done|]. destruct Hr as [R1 R2 R3 R4 R5]. split; auto.
    intros p Ht [?|[(d & Hd & _)|?]]; [auto|by apply elem_of_nil in Hd|auto]. }
  assert (forall e', e' ∈ m -> mPath e' ∈ paths) as Hm' by (intros; apply Hm; by right).
  assert (forall fs', rolled t0 (destOn paths) (fun p => destOn (map mPath m) p \/ done_ p \/ CheckDest (mPath e) = Ok p) (beside fs1) fs' ->
    rolled t0 (destOn paths) (fun p => destOn (map mPath (e :: m)) p \/ done_ p) (beside fs1) fs') as Hfin.
  { intros fs' [R1 R2 R3 R4 R5]. split; auto. intros p Ht Hor. apply R5; [done|]. destruct Hor as [?|[(d & Hd & Hc)|?]]; [auto| |auto].
    right. cbn [map] in Hd. apply elem_of_cons in Hd as [->|Hd]; [auto|left; by exists d]. }
  destruct (CheckDest (mPath e)) as [rel|] eqn:Ed.
  - assert (destOn paths rel) as Hrel by (exists (mPath e); split; [apply Hm; left|done]).
    destruct (rollbackOne_rolled t0 (destOn paths) done_ fs1 fs rel Hwf Hb Hrel (Hn _ Hrel) Hr) as (r & fs2 & E2 & R2).
    unfold fbind, ftry at 1. rewrite E2.
    destruct (IH Hm' (note es r) ({[parent rel]} ∪ touched) _ fs2 R2) as (x & fs3 & E3 & R3).
    exists x, fs3. split; [exact E3|]. apply Hfin. destruct R3 as [S1 S2 S3 S4 S5]. split; auto.
    intros p Ht Hor. apply S5; [done|]. destruct Hor as [?|[?|[?|[= ->]]]]; tauto.
  - destruct (IH Hm' (es ++ [EUnsafeDest]) touched done_ fs Hr) as (x & fs3 & E3 & R3). exists x, fs3. split; [exact E3|].
    apply Hfin. destruct R3 as [S1 S2 S3 S4 S5]. split; auto.
    intros p Ht Hor. apply S5; [done|]. destruct Hor as [?|[?|[?|?]]]; try tauto; done.
Qed.

(** What the crash or the failed calls left is where a rollback starts. *)
Lemma undone_rolled paths t0 fs1 fs2 : wf t0 -> noTemps paths -> backed t0 (destOn paths) fs1 -> undone paths fs1 fs2 ->
  rolled t0 (destOn paths) nowhere (beside fs1) fs2.
Proof.
  intros Hwf Hn Hb Hu. pose proof (bk_server _ _ _ Hb) as [A1 A2 A3 A4 A5].
  assert (forall f, (forall p, fl f p -> destOn paths p) -> (forall p, fd f p -> destOn paths p) ->
    (forall p c, destOn paths p -> t0 !! p = Some (NFile c) -> treeOf Server fs2 !! p <> Some NDir) ->
    Frame (only Server f) fs1 fs2 -> rolled t0 (destOn paths) nowhere (beside fs1) fs2) as Hgen.
  { intros f Hfl Hfd Hsv Hf. pose proof (Hf Server) as [B1 B2 B3 B4 B5]. pose proof (Hf Beside) as HfB.
    unfold only in B1, B2, B3, B4, B5, HfB. simpl in *. split; [done|by apply B1, A1| |done|].
    - intros q Hq. apply B2; [|by apply A2; [intros []|]]. intros (d & Hd & Hc)%Hfd.
      destruct (bk_kind _ _ _ Hb q) as [Hk|[c Hk]]; [by exists d|apply nodeAt_ENOENT in Hk as [_ ?]; congruence|congruence].
    - intros p Ht [Hp|[]]. rewrite B4 by (auto; done). by apply A4; [intros []|]. }
  destruct (undone_frame paths fs1 fs2 Hn Hu) as [Hf|Hf]; (eapply Hgen; [| | |exact Hf]); try done.
  - intros p c Hp Hc Hd. pose proof (Hf Server) as [_ _ B3 _ _]. unfold only in B3. simpl in B3.
    assert (nonDir (treeOf Server fs2) p = true) as Hnd.
    { apply B3; [by intros []|by apply noTemp_isTemp, Hn|]. apply A3; [by intros []|by apply noTemp_isTemp, Hn|].
      apply nonDir_spec. by eexists. }
    apply nonDir_spec in Hnd as (m & Hm & ?). congruence.
  - intros p c Hp Hc Hd. pose proof (fr_made _ _ _ (Hf Server) p Hd) as [Hd'|[]].
    apply A5 in Hd' as [Hd'|[]]. congruence.
Qed.

(** C18. Save the destinations, then install or uninstall until any call fails or
    the process dies, then roll back on a working disk: every file of the server
    root is again what it was before, those the change never named included.
    Temporary files, named with the panel's own prefix, are not looked at. *)
Theorem rollback_restores `{!TempLaws} manifest server0 q0 fs1 q1 fs2 r w3 p :
  wf server0 -> noTemps (map mPath manifest) ->
  BackupPaths (map mPath manifest) (mkFS (Some server0) ∅, q0) = (Ok tt, (fs1, q1)) ->
  undone (map mPath manifest) fs1 fs2 ->
  Rollback manifest (fs2, []) = (r, w3) ->
  isTemp p = false -> leaf (treeOf Server w3.1) p = leaf server0 p.
Proof.
  set (paths := map mPath manifest). intros Hwf Hn Hbk Hu Hrb Ht.
  assert (backed server0 (destOn paths) fs1) as Hb.
  { unfold BackupPaths, fbind in Hbk. destruct (openServerRoot false _) as [[root|e] w] eqn:E; [|done].
    unfold openServerRoot in E. apply call_inv in E as [(a & [= <-] & E)|(e & ? & _)]; [|done]. injection E as <- Hw.
    assert (backed server0 nowhere w.1) as Hb0.
    { rewrite <- Hw. split; simpl; try done. apply frame_refl. }
    assert (forall d p, d ∈ paths -> CheckDest d = Ok p -> noTemp p) as Hn' by (intros d p' ? ?; apply Hn; by exists d).
    pose proof (backupEach_backed server0 paths nowhere w (fs1, q1) Hwf Hn' Hb0 Hbk) as [B1 B2 B3 B4 B5 B6].
    simpl in *. split; auto. }
  pose proof (undone_rolled paths server0 fs1 fs2 Hwf Hn Hb Hu) as Hr0.
  apply fbind_inv in Hrb as [(b & [fs2' q2] & E1 & Hrb)|(e & E1 & _)]; cycle 1.
  { unfold openServerRoot, call in E1. by destruct (server fs2). }
  assert (q2 = [] /\ rolled server0 (destOn paths) nowhere (beside fs1) fs2') as [-> Hr1].
  { unfold openServerRoot, call in E1. destruct Hr0 as [R1 R2 R3 R4 R5]. simpl in *.
    destruct (server fs2) as [t|] eqn:Es; injection E1 as <- <- <-; (split; [done|]); split; simpl; rewrite ?Es; done. }
  destruct (rollbackEach_rolled server0 paths fs1 manifest Hwf Hb Hn ltac:(intros e He; apply list_elem_of_fmap; by exists e)
    [] ∅ nowhere fs2' Hr1) as ([es touched] & fs3 & E3 & R3).
  apply fbind_inv in Hrb as [(x & w & E3' & Hrb)|(e & E3' & _)];
    pose proof (eq_trans (eq_sym E3) E3') as E; [|discriminate E]. injection E as <- <-.

  assert (Frame (fun _ => foot0) fs3 w3.1) as Hf.
  { apply fbind_inv in Hrb as [(es' & w4 & E4 & Hrb)|(e & E4 & _)].
    - apply joined_world in Hrb as ->. by apply Keeps_removeStaleTemps in E4.
    - by apply Keeps_removeStaleTemps in E4. }
  rewrite (fr_leaf _ _ _ (Hf Server)) by (try intros []; done).
  apply (rl_rest _ _ _ _ _ R3); [done|]. destruct (decide (destOn paths p)); auto.
Qed.

(** ** An install keeps what is not its own *)

Lemma DestPaths_elem d changes : d ∈ DestPaths changes -> exists c, c ∈ changes /\ chAction c <> ActionSkip /\ d = chDest c.
Proof.
  unfold DestPaths. intros (c & -> & [Hw Hc]%list_elem_of_filter)%list_elem_of_fmap. exists c. split; [done|].
  split; [|done]. unfold writes in Hw. by prop_bool.
Qed.

(** What a change that writes over a file says of it. *)
Lemma diffOne_writes fullName t0 claims answer p c b : wf t0 -> diffOne fullName (regularFileExists t0) claims p = Ok c ->
  chAction (answerOne answer c) <> ActionSkip -> forall q, CheckDest (Dest p) = Ok q -> t0 !! q = Some (NFile b) ->
  UserConfig (Dest p) = false /\
  match claims !! Dest p with Some owner => owner = [] \/ owner = fullName | None => answer <> UnownedKeep end.
Proof.
  intros Hwf Hd Hw q Hq Ht. unfold diffOne in Hd. rewrite Hq in Hd. unfold regularFileExists in Hd.
  rewrite (nodeAt_wf _ _ _ Hwf Ht) in Hd. change (UserConfig (Dest p)) with (hasPrefix configRoot (Dest p)).
  destruct (hasPrefix configRoot (Dest p)) eqn:Ec; cbn [andb] in Hd; [by injection Hd as <-|]. split; [done|].
  destruct (claims !! Dest p) as [owner|] eqn:Eo; [|by injection Hd as <-; intros ->].
  destruct (decide (owner = [])) as [|Ho1]; [by left|]. destruct (decide (owner = fullName)) as [|Ho2]; [by right|].
  by rewrite !bool_decide_false in Hd.
Qed.

(** C19. Plan a package, diff it against the server, apply the operator's answer and
    install, whatever calls fail: a file that was there keeps its bytes unless the
    package owns its path, its owner gives it up, or no package owns it and the
    operator did not choose to keep it; and a file of the user's configuration
    always keeps them. *)
Theorem install_respects `{UnicodeTables} entries fullName ps server0 claims cs answer staged aux q r w' p b :
  kidsWf entries -> Plan entries fullName = Ok ps -> noTemps (map Dest ps) -> wf server0 ->
  Diff fullName ps (regularFileExists server0) claims = Ok cs ->
  Apply staged (ApplyUnowned cs answer).1 (mkFS (Some server0) aux, q) = (r, w') ->
  server0 !! p = Some (NFile b) -> isTemp p = false -> leaf (treeOf Server w'.1) p <> Some (NFile b) ->
  UserConfig (join [slash] p) = false /\
  match claims !! join [slash] p with Some owner => owner = [] \/ owner = fullName | None => answer <> UnownedKeep end.
Proof.
  intros Hk Hp Hn Hwf Hd Ha Ht Htmp Hch. set (cs' := (ApplyUnowned cs answer).1) in *.
  assert (forall d, d ∈ DestPaths cs' -> exists c0 pl, d = Dest pl /\ pl ∈ ps /\
    diffOne fullName (regularFileExists server0) claims pl = Ok c0 /\ chAction (answerOne answer c0) <> ActionSkip) as Hds.
  { intros d (c & Hc & Hw & ->)%DestPaths_elem. apply list_elem_of_fmap in Hc as (c0 & -> & Hc0).
    destruct (Diff_elem _ _ _ _ _ _ Hd Hc0) as (pl & Hpl & Hone). exists c0, pl. split_and!; [|done..].
    unfold chDest. assert (chPlacement (answerOne answer c0) = chPlacement c0) as ->
      by (unfold answerOne; destruct (chUnowned c0); [by destruct answer|done]).
    unfold diffOne in Hone. destruct (CheckDest _); [|done]. destruct (regularFileExists _ _) as [present|]; [|done].
    destruct (present && _); [by injection Hone as <-|]. destruct (claims !! _); [|by injection Hone as <-].
    destruct (_ && _); [done|]. by injection Hone as <-. }
  assert (destOn (DestPaths cs') p) as (d & Hdp & Hcd).
  { destruct (decide (destOn (DestPaths cs') p)) as [|Hno]; [done|]. exfalso. apply Hch.
    assert (noTemps (DestPaths cs')) as Hn'.
    { intros q' (d & (c0 & pl & -> & Hpl & _)%Hds & Hc). apply Hn. exists (Dest pl). split; [|done].
      apply list_elem_of_fmap. by exists pl. }
    assert (Keeps (only Server (mkFoot (destOn (DestPaths cs')) nowhere (destAnc (DestPaths cs')))) (Apply staged cs')) as HK.
    { apply Keeps_bind; [apply Keeps_openServerRoot|]. intros _. by apply Keeps_applyEach. }
    pose proof (fr_leaf _ _ _ (HK _ _ _ Ha Server) p Hno Htmp) as ->. by apply leaf_node. }
  destruct (Hds d Hdp) as (c0 & pl & -> & Hpl & Hone & Hw).
  destruct (Plan_places _ _ _ Hk Hp) as (_ & _ & _ & Hat). destruct (Hat pl Hpl) as (comps & _ & Hcp & Hne & E).
  rewrite E, CheckDest_join in Hcd by done. injection Hcd as ->. rewrite <- E.
  eapply diffOne_writes; [exact Hwf|exact Hone|exact Hw|by rewrite E, CheckDest_join|exact Ht].
Qed.

End Safe.
