(* ===== verification/ParkSafe.v ===== *)
(** Disabling and enabling a package moves its files between the server root and
    the parking tree one call at a time; whatever calls fail, Settle puts every
    file back where the manifest records it. *)
From S2P Require Import Prelude GoBytes Paths Installer InstallFS InstallLaws InstallSafe.
Open Scope list_scope.

Definition other (sd : Side) : Side := match sd with Server => Beside | Beside => Server end.

Section Park.
Context `{TempNames} (sha256 : bytes -> string) (manifest : list ManifestEntry) (content : path -> bytes).

(** A movable entry and its place. *)
Definition item (e : ManifestEntry) (p : path) : Prop :=
  e ∈ manifest /\ UserConfig (mPath e) = false /\ CheckDest (mPath e) = Ok p.
#[local] Instance item_dec e p : Decision (item e p).
Proof.
  unfold item. destruct (CheckDest (mPath e)) as [q|err]; [|right; by intros (_ & _ & ?)].
  destruct (decide (e ∈ manifest /\ UserConfig (mPath e) = false /\ q = p)) as [(? & ? & ->)|Hno]; [by left|].
  right. intros (? & ? & [= ->]). by apply Hno.
Defined.
Definition rels (p : path) : Prop := exists e, item e p.
Definition home (e : ManifestEntry) : Side := if mParked e then Beside else Server.

(** A manifest a package can have: its paths are valid, recorded once, and none
    is a directory above another. *)
Record manifestOk : Prop := {
  mf_dest e : e ∈ manifest -> UserConfig (mPath e) = false -> exists p, CheckDest (mPath e) = Ok p;
  mf_once e e' p : item e p -> item e' p -> home e = home e';
  mf_apart p q : rels p -> rels q -> ~ anc p q;
  mf_temp p : rels p -> noTemp p
}.

(** Every movable file is in one tree or both, with its own bytes. *)
Record custody (fs : FS) : Prop := {
  cu_wf sd : wf (treeOf sd fs);
  cu_clear sd p q : rels p -> anc p q -> nonDir (treeOf sd fs) q = false;
  cu_only sd p : rels p -> treeOf sd fs !! p = None \/ treeOf sd fs !! p = Some (NFile (content p));
  cu_some p : rels p -> exists sd, treeOf sd fs !! p = Some (NFile (content p));
  cu_home e p : item e p -> dirAt (treeOf (home e) fs) (parent p) = true
}.

(** A step on [p] that keeps custody and leaves the other files alone. *)
Definition moved (p : path) (fs fs' : FS) : Prop :=
  custody fs' /\ forall sd q, rels q -> q <> p -> treeOf sd fs' !! q = treeOf sd fs !! q.

Lemma moved_refl p fs : custody fs -> moved p fs fs.
Proof. done. Qed.
Lemma moved_trans p a b c : moved p a b -> moved p b c -> moved p a c.
Proof. intros [_ H1] [H2 H3]. split; [done|]. intros sd q Hq Hne. rewrite H3, H1; done. Qed.

Lemma anc_take p q : anc p q -> exists i, q = take i p.
Proof.
  unfold anc, upTo. case_bool_decide; [by intros ?%elem_of_nil|].
  intros [(i & Hi & ->)%parents_elem|Hq%list_elem_of_singleton]%elem_of_app; [|subst q; by eexists].
  unfold parent. rewrite take_take. by eexists.
Qed.

Lemma parents_anc p q : q ∈ parents p -> anc p q.
Proof.
  intros (i & Hi & ->)%parents_elem. unfold anc, upTo. rewrite bool_decide_false; cycle 1.
  { unfold parent. intros E. apply (f_equal length) in E. rewrite length_take in E. simpl in E. lia. }
  apply elem_of_app. destruct (decide (i = length p - 1)) as [->|Hne]; [right; by left|left].
  apply parents_elem. exists i. unfold parent. rewrite length_take, take_take. split; [lia|]. f_equal. lia.
Qed.

Section Laws.
Context (Hok : manifestOk).

Lemma rels_temp p : rels p -> isTemp p = false.
Proof. intros Hp. by apply noTemp_isTemp, mf_temp. Qed.
Lemma anc_temp p q : rels p -> anc p q -> isTemp q = false.
Proof. intros Hp [i ->]%anc_take. by apply noTemp_take, mf_temp. Qed.
Lemma only_notdir fs sd p : custody fs -> rels p -> treeOf sd fs !! p <> Some NDir.
Proof. intros Hc Hp. destruct (cu_only _ Hc sd p Hp) as [->| ->]; done. Qed.

Lemma custody_node fs sd p : custody fs -> rels p ->
  nodeAt (treeOf sd fs) p = match treeOf sd fs !! p with Some n => Ok n | None => Err ENOENT end.
Proof.
  intros Hc Hp. destruct (cu_some _ Hc p Hp) as [sd' Hs]. destruct (cu_wf _ Hc sd' _ _ Hs) as [Hne _].
  unfold nodeAt. rewrite bool_decide_false by done. destruct (existsb _ _) eqn:E; [|done].
  apply existsb_elem_of in E as (q & Hq%parents_anc & Hd). by rewrite (cu_clear _ Hc sd p q) in Hd.
Qed.

(** What a footprint on one path of one tree leaves in custody. *)
Lemma custody_step sd0 p f fs fs' : custody fs -> rels p -> Frame (only sd0 f) fs fs' ->
  (forall q, fl f q -> q = p) -> (forall q, fd f q -> q = p) -> (forall q, fm f q -> anc p q) ->
  (treeOf sd0 fs' !! p = None \/ treeOf sd0 fs' !! p = Some (NFile (content p))) ->
  (exists sd, treeOf sd fs' !! p = Some (NFile (content p))) -> moved p fs fs'.
Proof.
  intros Hc Hp Hf Hfl Hfd Hfm Honly Hsome.
  assert (forall sd, frame f (treeOf sd fs) (treeOf sd fs')) as Hg.
  { intros sd. specialize (Hf sd). unfold only in Hf. destruct (decide _); [done|]. by eapply frame_weaken; [apply footLe_0|]. }
  assert (forall sd q, rels q -> q <> p -> treeOf sd fs' !! q = treeOf sd fs !! q) as Hsame.
  { intros sd q Hq Hne. apply (frame_lookup f); [apply Hg|by intros ?%Hfl| |by apply rels_temp|by apply only_notdir].
    intros Ha%Hfm. by apply (mf_apart Hok p q). }
  assert (treeOf (other sd0) fs' !! p = treeOf (other sd0) fs !! p) as Hother.
  { specialize (Hf (other sd0)). unfold only in Hf. rewrite decide_False in Hf by (by destruct sd0).
    apply (frame_lookup foot0); [done|by intros []|by intros []|by apply rels_temp|by apply only_notdir]. }
  split; [|done]. split.
  - intros sd. by apply (fr_wf _ _ _ (Hg sd)), cu_wf.
  - intros sd p' q Hp' Ha. apply not_true_is_false. intros Hd. assert (q <> p) as Hne
      by (intros ->; by apply (mf_apart Hok p' p)).
    apply nonDir_spec in Hd as (n & Hn & Hnd).
    assert (leaf (treeOf sd fs) q = Some n) as [Hl _]%leaf_node.
    { rewrite <- (fr_leaf _ _ _ (Hg sd) q); [by apply leaf_node|by intros ?%Hfl|by eapply anc_temp]. }
    assert (nonDir (treeOf sd fs) q = true) as Hd by (apply nonDir_spec; by eauto).
    by rewrite (cu_clear _ Hc sd p' q) in Hd.
  - intros sd q Hq. destruct (decide (q = p)) as [->|Hne]; [|rewrite Hsame by done; by apply cu_only].
    destruct (decide (sd = sd0)) as [->|Hsd]; [done|]. assert (sd = other sd0) as -> by (by destruct sd, sd0).
    rewrite Hother. by apply cu_only.
  - intros q Hq. destruct (decide (q = p)) as [->|Hne]; [done|]. destruct (cu_some _ Hc q Hq) as [sd Hs].
    exists sd. by rewrite Hsame.
  - intros e q Hq. pose proof (cu_home _ Hc e q Hq) as Hd. apply dirAt_spec. apply dirAt_spec in Hd as [Hd|Hd]; [by left|right].
    apply (fr_dir _ _ _ (Hg (home e))); [|done]. intros E%Hfd. rewrite E in Hd. by apply (only_notdir fs (home e) p).
Qed.

Lemma publish_moved sd p w r w' : custody w.1 -> rels p -> publish sd p (Ok (content p)) w = (r, w') ->
  moved p w.1 w'.1 /\ (r = Ok tt -> treeOf sd w'.1 !! p = Some (NFile (content p))) /\
  treeOf (other sd) w'.1 !! p = treeOf (other sd) w.1 !! p.
Proof.
  intros Hc Hp Hr. destruct (publish_spec sd p _ _ _ _ (rels_temp p Hp) Hr) as [Hf Hcont].
  assert (r = Ok tt -> treeOf sd w'.1 !! p = Some (NFile (content p))) as Hput by (intros E; by destruct (Hcont E) as (c & [= <-] & ?)).
  assert (treeOf (other sd) w'.1 !! p = treeOf (other sd) w.1 !! p) as Hother.
  { specialize (Hf (other sd)). unfold only in Hf. rewrite decide_False in Hf by (by destruct sd).
    apply (frame_lookup foot0); [done|by intros []|by intros []|by apply rels_temp|by apply only_notdir]. }
  assert (r = Ok tt \/ treeOf sd w'.1 !! p = treeOf sd w.1 !! p) as Hor.
  { destruct r as [[]|e]; [by left|right]. specialize (Hf sd). unfold only in Hf. rewrite decide_True in Hf by done.
    eapply frame_lookup; [exact Hf|by intros [? _]| |by apply rels_temp|by apply only_notdir]. simpl. by apply (mf_apart Hok p p). }
  split; [|done]. eapply custody_step; [done|done|exact Hf|by intros q [_ ?]|by intros q []|done| |].
  - destruct Hor as [E| ->]; [right; auto|by apply cu_only].
  - destruct Hor as [E|E]; [exists sd; auto|]. destruct (cu_some _ Hc p Hp) as [sd' Hs]. exists sd'.
    destruct (decide (sd' = sd)) as [->|Hne]; [by rewrite E|]. assert (sd' = other sd) as -> by (by destruct sd, sd'). by rewrite Hother.
Qed.

(** Removing one copy while the other tree holds the file. *)
Lemma remove_moved sd p w r w' : custody w.1 -> rels p -> treeOf (other sd) w.1 !! p = Some (NFile (content p)) ->
  removeIfThere sd p w = (r, w') ->
  moved p w.1 w'.1 /\ treeOf (other sd) w'.1 !! p = Some (NFile (content p)) /\
  (w.2 = [] -> r = Ok tt /\ w'.2 = [] /\ treeOf sd w'.1 !! p = None).
Proof.
  intros Hc Hp Ho Hr. unfold removeIfThere in Hr. destruct (on sd (tRemove p) w) as [r1 w1] eqn:E.
  assert (w' = w1) as -> by (destruct r1 as [|[]]; by injection Hr as _ <-).
  assert (Frame (only sd (mkFoot (eq p) (eq p) nowhere)) w.1 w1.1) as Hf.
  { refine (Keeps_on _ sd (tRemove p) _ _ _ _ E). intros t u t'. unfold only. rewrite decide_True by done. by apply tRemove_frame. }
  assert (treeOf (other sd) w1.1 !! p = Some (NFile (content p))) as Ho'.
  { rewrite <- Ho. specialize (Hf (other sd)). unfold only in Hf. rewrite decide_False in Hf by (by destruct sd).
    apply (frame_lookup foot0); [done|by intros []|by intros []|by apply rels_temp|by apply only_notdir]. }
  assert (treeOf sd w1.1 !! p = treeOf sd w.1 !! p \/ treeOf sd w1.1 !! p = None) as Hthis.
  { apply on_inv in E as [(u & t & _ & Hrem & ->)|(e & _ & -> & _)]; [right|by left].
    apply tRemove_spec in Hrem as [-> _]. by rewrite treeOf_set, lookup_delete_eq. }
  split; [|split; [done|]].
  - eapply custody_step; [done|done|exact Hf|done|done|by intros q []| |by exists (other sd)].
    destruct Hthis as [-> | ->]; [by apply cu_only|by left].
  - destruct w as [fs l]. simpl in *. intros ->. unfold on, call, tRemove in E. cbn [tail] in E.
    rewrite custody_node in E by done. destruct (cu_only _ Hc sd p Hp) as [Hn|Hn]; rewrite Hn in E.
    + injection E as <- <-. by injection Hr as <-.
    + injection E as <- <-. cbn [fst snd]. rewrite treeOf_set, lookup_delete_eq. by injection Hr as <-.
Qed.

Lemma openRegular_content sd p w r w' : custody w.1 -> rels p -> openRegular sd p w = (r, w') ->
  w'.1 = w.1 /\ (forall c, r = Ok c -> c = content p /\ treeOf sd w.1 !! p = Some (NFile (content p))).
Proof.
  intros Hc Hp (Hw & Hr & _)%openRegular_inv. split; [done|]. intros c E. apply Hr in E.
  rewrite custody_node in E by done. destruct (cu_only _ Hc sd p Hp) as [Hn|Hn]; rewrite Hn in E; [done|]. by injection E as <-.
Qed.

Lemma parkOne_moved p w r w' : custody w.1 -> rels p -> parkOne p w = (r, w') -> moved p w.1 w'.1.
Proof.
  intros Hc Hp Hr. apply fbind_inv in Hr as [(b & w1 & Hb & Hr)|(e & Hb & _)].
  - unfold backupOne in Hb. destruct (openRegular Server p w) as [[c|e] w2] eqn:E.
    + apply openRegular_content in E as [Hw2 Hcc]; [|done..]. destruct (Hcc c eq_refl) as [-> Hs].
      apply fbind_inv in Hb as [([] & w3 & Hpub & Hb)|(e & Hpub & [=])]. injection Hb as <- <-.
      rewrite <- Hw2 in Hc. destruct (publish_moved Beside p w2 _ _ Hc Hp Hpub) as (Hm1 & Hput & _). rewrite Hw2 in Hm1.
      apply fbind_inv in Hr as [(u & w4 & Hrem & Hr)|(e & Hrem & _)].
      * injection Hr as _ <-. eapply moved_trans; [exact Hm1|].
        by apply (remove_moved Server p w3 _ _ (proj1 Hm1) Hp (Hput eq_refl) Hrem).
      * eapply moved_trans; [exact Hm1|].
        by apply (remove_moved Server p w3 _ _ (proj1 Hm1) Hp (Hput eq_refl) Hrem).
    + apply openRegular_content in E as [Hw2 _]; [|done..]. destruct e; try done; injection Hb as <- <-.
      injection Hr as _ <-. by rewrite Hw2.
  - unfold backupOne in Hb. destruct (openRegular Server p w) as [[c|e'] w2] eqn:E.
    + apply openRegular_content in E as [Hw2 Hcc]; [|done..]. destruct (Hcc c eq_refl) as [-> Hs].
      apply fbind_inv in Hb as [(u & w3 & _ & [=])|(e'' & Hpub & _)]. rewrite <- Hw2 in Hc |- *.
      by apply (publish_moved Beside p w2 _ _ Hc Hp Hpub).
    + apply openRegular_content in E as [Hw2 _]; [|done..]. destruct e'; try done; injection Hb as _ <-; by rewrite Hw2.
Qed.

Lemma regularIn_world p w r w' : regularIn p w = (r, w') -> w'.1 = w.1.
Proof.
  unfold regularIn, fbind, ftry. destruct (lstat Server p w) as [r1 w1] eqn:E. apply lstat_inv in E as [Hw _].
  destruct r1 as [[]|[]]; by intros [= _ <-].
Qed.
Lemma sameBytes_world p w r w' : sameBytes sha256 p w = (r, w') -> w'.1 = w.1.
Proof.
  intros [(a & w1 & E1 & Hr)|(e & E1 & _)]%fbind_inv; apply openRegular_inv in E1 as [Hw1 _]; [|done].
  apply fbind_inv in Hr as [(b & w2 & E2 & Hr)|(e & E2 & _)]; apply openRegular_inv in E2 as [Hw2 _]; [|congruence].
  injection Hr as _ <-. congruence.
Qed.

Lemma restoreOne_moved p w r w' : custody w.1 -> rels p -> treeOf Beside w.1 !! p = Some (NFile (content p)) ->
  restoreOne p w = (r, w') -> moved p w.1 w'.1 /\
  (r = Ok tt -> treeOf Server w'.1 !! p = Some (NFile (content p))).
Proof.
  intros Hc Hp Hb Hr. apply fbind_inv in Hr as [(n & w1 & E1 & Hr)|(e & E1 & ->)]; apply lstat_inv in E1 as [Hw1 Hn].
  - rewrite custody_node, Hb in Hn by done. destruct Hn as [?|[= ->]]; [done|]. rewrite <- Hw1 in Hc |- *.
    destruct (publish_moved Server p w1 _ _ Hc Hp Hr) as (? & ? & _). done.
  - rewrite Hw1. by split.
Qed.

Lemma unparkOne_moved p w r w' : custody w.1 -> rels p -> unparkOne sha256 p w = (r, w') -> moved p w.1 w'.1.
Proof.
  intros Hc Hp Hr. apply fbind_inv in Hr as [(r1 & w1 & E1 & Hr)|(e & E1 & _)]; cycle 1.
  { unfold ftry in E1. by destruct (lstat Beside p w). }
  unfold ftry in E1. destruct (lstat Beside p w) as [r1' w1'] eqn:E1'. injection E1 as <- <-.
  apply lstat_inv in E1' as [Hw1 Hn]. destruct r1' as [n|e]; cycle 1.
  { assert (w'.1 = w1'.1) as ->; [|by rewrite Hw1]. destruct e; try (by injection Hr as _ <-).
    apply fbind_inv in Hr as [(r2 & w2 & E2 & Hr)|(e & E2 & _)]; unfold ftry in E2;
      destruct (regularIn p w1') as [r2' w2'] eqn:E2'; [|done]. injection E2 as <- <-.
    apply regularIn_world in E2' as <-. by destruct r2' as [[]|]; injection Hr as _ <-. }
  assert (treeOf Beside w.1 !! p = Some (NFile (content p))) as Hb.
  { rewrite custody_node in Hn by done. destruct (cu_only _ Hc Beside p Hp) as [Hx|Hx]; rewrite Hx in Hn; by destruct Hn. }
  apply fbind_inv in Hr as [(present & w2 & E2 & Hr)|(e & E2 & _)];
    pose proof (regularIn_world _ _ _ _ E2) as Hw2; [|by rewrite Hw2, Hw1].
  assert (w2.1 = w.1) as Hw by congruence. rewrite <- Hw in Hc, Hb |- *.
  assert (present = true -> treeOf Server w2.1 !! p = Some (NFile (content p))) as Hpres.
  { intros ->. unfold regularIn, fbind, ftry in E2. destruct (lstat Server p w1') as [r3 w3] eqn:E3.
    apply lstat_inv in E3 as [Hw3 Hn3]. rewrite Hw1, <- Hw in Hn3. rewrite custody_node in Hn3 by done.
    destruct (cu_only _ Hc Server p Hp) as [Hx|Hx]; [|done]. rewrite Hx in Hn3. destruct Hn3 as [-> | ->]; done. }
  apply fbind_inv in Hr as [([] & w4 & E4 & Hr)|(e & E4 & _)].
  - assert (moved p w2.1 w4.1 /\ treeOf Server w4.1 !! p = Some (NFile (content p))) as [Hm4 Hs4].
    { destruct present.
      - apply fbind_inv in E4 as [(same & w5 & E5 & E4)|(e & _ & [=])]. apply sameBytes_world in E5.
        destruct same; [|done]. injection E4 as <-. rewrite E5. split; [done|by apply Hpres].
      - destruct (restoreOne_moved p w2 _ _ Hc Hp Hb E4) as [? ?]. auto. }
    eapply moved_trans; [exact Hm4|]. by apply (remove_moved Beside p w4 _ _ (proj1 Hm4) Hp Hs4 Hr).
  - destruct present.
    + apply fbind_inv in E4 as [(same & w5 & E5 & E4)|(e' & E5 & _)]; apply sameBytes_world in E5; [|by rewrite E5].
      destruct same; [done|]. injection E4 as _ <-. by rewrite E5.
    + by apply (restoreOne_moved p w2 _ _ Hc Hp Hb E4).
Qed.

(** ** Interrupted moves *)

(** A disable or an enable of some of the package's movable files, stopped
    anywhere. *)
Inductive interrupted : FS -> FS -> Prop :=
| int_park paths fs q r fs' q' : (forall d, d ∈ paths -> exists e, e ∈ manifest /\ UserConfig (mPath e) = false /\ d = mPath e) ->
    Park paths (fs, q) = (r, (fs', q')) -> interrupted fs fs'
| int_unpark paths fs q r fs' q' : (forall d, d ∈ paths -> exists e, e ∈ manifest /\ UserConfig (mPath e) = false /\ d = mPath e) ->
    Unpark sha256 paths (fs, q) = (r, (fs', q')) -> interrupted fs fs'.

Lemma open_custody create w r w' : custody w.1 -> openServerRoot create w = (r, w') -> custody w'.1.
Proof.
  intros [C1 C2 C3 C4 C5] E. assert (forall sd, treeOf sd w'.1 = treeOf sd w.1) as Hsame.
  { unfold openServerRoot in E. apply call_inv in E as [(a & _ & E)|(e & _ & -> & _)]; [|done].
    destruct (server w.1) eqn:Es; [by injection E as _ <-|]. destruct create; injection E as _ <-; [|done].
    intros []; simpl; by rewrite ?Es. }
  split.
  - intros sd. by rewrite Hsame.
  - intros sd p q. rewrite Hsame. apply C2.
  - intros sd p. rewrite Hsame. apply C3.
  - intros p [sd Hs]%C4. exists sd. by rewrite Hsame.
  - intros e p. rewrite Hsame. apply C5.
Qed.

Definition movables (paths : list bytes) : Prop :=
  forall d, d ∈ paths -> exists e, e ∈ manifest /\ UserConfig (mPath e) = false /\ d = mPath e.

Lemma movables_rel paths d p : movables paths -> d ∈ paths -> CheckDest d = Ok p -> rels p.
Proof. intros Hm (e & He & Hu & ->)%Hm Hc. by exists e. Qed.

Lemma parkEach_custody paths : forall acc w r w', movables paths -> custody w.1 -> parkEach acc paths w = (r, w') -> custody w'.1.
Proof.
  induction paths as [|d ps IH]; intros acc w r w' Hm Hc; cbn [parkEach]; [by intros [= _ <-]|].
  assert (movables ps) as Hm' by (intros x Hx; apply Hm; by right).
  destruct (CheckDest d) as [p|] eqn:Ed; [|by intros [= _ <-]]. assert (rels p) as Hp by (by apply (movables_rel (d :: ps) d p); [|left|]).
  unfold fbind, ftry. destruct (parkOne p w) as [r1 w1] eqn:E1. apply parkOne_moved in E1 as [Hc1 _]; [|done..].
  destruct r1 as [[]|e]; intros Hr; [by eapply IH|by eapply IH|by injection Hr as _ <-].
Qed.
Lemma unparkEach_custody paths : forall w r w', movables paths -> custody w.1 -> unparkEach sha256 paths w = (r, w') -> custody w'.1.
Proof.
  induction paths as [|d ps IH]; intros w r w' Hm Hc; cbn [unparkEach]; [by intros [= _ <-]|].
  assert (movables ps) as Hm' by (intros x Hx; apply Hm; by right).
  intros [(p & w1 & E1 & Hr)|(e & E1 & _)]%fbind_inv; cycle 1.
  { unfold checked in E1. destruct (CheckDest d); [done|]. by injection E1 as _ <-. }
  apply checked_Ok in E1 as [Ed ->]. assert (rels p) as Hp by (by apply (movables_rel (d :: ps) d p); [|left|]).
  apply fbind_inv in Hr as [([] & w2 & E2 & Hr)|(e & E2 & _)]; apply unparkOne_moved in E2 as [Hc2 _]; eauto.
Qed.

Lemma interrupted_custody fs fs' : custody fs -> interrupted fs fs' -> custody fs'.
Proof.
  intros Hc Hi. revert Hc. destruct Hi as [paths fs0 q r fs1 q' Hm E|paths fs0 q r fs1 q' Hm E]; intros Hc.
  - apply fbind_inv in E as [(r1 & w1 & E1 & E)|(e & E1 & _)]; unfold ftry in E1;
      destruct (openServerRoot false (fs0, q)) as [r1' w1'] eqn:E0; [|done]. injection E1 as <- <-.
    apply open_custody in E0; [|done]. destruct r1' as [[]|e]; [|by injection E as _ ->..].
    by eapply (parkEach_custody paths [] w1' r (fs1, q')).
  - apply fbind_inv in E as [(b & w1 & E1 & E)|(e & E1 & _)]; apply open_custody in E1; try done.
    by eapply (unparkEach_custody paths w1 r (fs1, q')).
Qed.

(** ** Settling on a working disk *)

Definition homed (e : ManifestEntry) (p : path) (fs : FS) : Prop :=
  treeOf (home e) fs !! p = Some (NFile (content p)) /\ treeOf (other (home e)) fs !! p = None.

Lemma runs_checked d p fs : CheckDest d = Ok p -> runs (checked d) fs p fs.
Proof. unfold checked, runs. by intros ->. Qed.
Lemma runs_openRegular sd p fs : custody fs -> rels p -> treeOf sd fs !! p = Some (NFile (content p)) ->
  runs (openRegular sd p) fs (content p) fs.
Proof.
  intros Hc Hp Hs. eapply runs_bind; [apply runs_lstat; by rewrite custody_node, Hs|].
  by eapply runs_bind; [apply runs_touch|].
Qed.
Lemma runs_regularIn p fs : custody fs -> rels p -> runs (regularIn p) fs (bool_decide (is_Some (treeOf Server fs !! p))) fs.
Proof.
  intros Hc Hp. unfold runs, regularIn, fbind. rewrite try_lstat, custody_node by done.
  destruct (cu_only _ Hc Server p Hp) as [->| ->]; [by rewrite bool_decide_false by (by intros [])|by rewrite bool_decide_true].
Qed.
Lemma runs_sameBytes p fs : custody fs -> rels p -> (forall sd, treeOf sd fs !! p = Some (NFile (content p))) ->
  runs (sameBytes sha256 p) fs true fs.
Proof.
  intros Hc Hp Hs. eapply runs_bind; [by apply runs_openRegular|]. eapply runs_bind; [by apply runs_openRegular|].
  unfold runs, fret. by rewrite bool_decide_true.
Qed.
Lemma runs_remove sd p fs : custody fs -> rels p -> treeOf (other sd) fs !! p = Some (NFile (content p)) ->
  exists fs', runs (removeIfThere sd p) fs tt fs' /\ moved p fs fs' /\ treeOf sd fs' !! p = None /\
    treeOf (other sd) fs' !! p = Some (NFile (content p)).
Proof.
  intros Hc Hp Ho. destruct (removeIfThere sd p (fs, [])) as [r [fs' q]] eqn:E.
  destruct (remove_moved sd p (fs, []) r (fs', q) Hc Hp Ho E) as (Hm & Hkeep & Hrun).
  destruct (Hrun eq_refl) as (-> & Hq & Hnone). simpl in Hq. subst q. by exists fs'.
Qed.
Lemma runs_publish `{!TempLaws} sd p fs : custody fs -> rels p -> dirAt (treeOf sd fs) (parent p) = true ->
  exists fs', runs (publish sd p (Ok (content p))) fs tt fs' /\ moved p fs fs' /\
    treeOf sd fs' !! p = Some (NFile (content p)) /\ treeOf (other sd) fs' !! p = treeOf (other sd) fs !! p.
Proof.
  intros Hc Hp Hd. destruct (cu_some _ Hc p Hp) as [sd' Hs]. destruct (cu_wf _ Hc sd' _ _ Hs) as [Hne _].
  destruct (publish_run sd p (content p) fs (cu_wf _ Hc sd) Hne (rels_temp p Hp) Hd (only_notdir fs sd p Hc Hp)) as [fs' Hr].
  destruct (publish_moved sd p (fs, []) _ _ Hc Hp Hr) as (Hm & Hput & Ho). exists fs'. simpl in *. auto.
Qed.

Lemma parkOne_runs `{!TempLaws} e p fs : custody fs -> item e p -> home e = Beside ->
  treeOf Server fs !! p = Some (NFile (content p)) -> exists fs', runs (parkOne p) fs true fs' /\ moved p fs fs' /\ homed e p fs'.
Proof.
  intros Hc Hi Hh Hs. assert (rels p) as Hp by (by exists e). pose proof (cu_home _ Hc e p Hi) as Hd. rewrite Hh in Hd.
  destruct (runs_publish Beside p fs Hc Hp Hd) as (fs1 & Hr1 & Hm1 & Hb1 & Hs1).
  destruct (runs_remove Server p fs1 (proj1 Hm1) Hp Hb1) as (fs2 & Hr2 & Hm2 & Hn2 & Hb2).
  exists fs2. split; [|split; [by eapply moved_trans|unfold homed; by rewrite Hh]].
  eapply (runs_bind _ _ fs true fs1); [|cbv beta iota; by eapply runs_bind]. unfold runs, backupOne.
  rewrite (runs_openRegular Server p fs Hc Hp Hs). by eapply (runs_bind (publishFile p (Ok (content p)))); [exact Hr1|].
Qed.

Lemma unparkOne_runs `{!TempLaws} e p fs : custody fs -> item e p -> home e = Server ->
  treeOf Beside fs !! p = Some (NFile (content p)) ->
  exists fs', runs (unparkOne sha256 p) fs tt fs' /\ moved p fs fs' /\ homed e p fs'.
Proof.
  intros Hc Hi Hh Hb. assert (rels p) as Hp by (by exists e). pose proof (cu_home _ Hc e p Hi) as Hd. rewrite Hh in Hd.
  assert (exists fs1, runs (if bool_decide (is_Some (treeOf Server fs !! p)) then
      do! same := sameBytes sha256 p in if same then fret tt else ffail EParkConflict else restoreOne p) fs tt fs1 /\
    moved p fs fs1 /\ treeOf Server fs1 !! p = Some (NFile (content p))) as (fs1 & Hr1 & Hm1 & Hs1).
  { destruct (cu_only _ Hc Server p Hp) as [Hs|Hs]; rewrite Hs.
    - rewrite bool_decide_false by (by intros []). destruct (runs_publish Server p fs Hc Hp Hd) as (fs1 & Hr1 & Hm1 & Hs1 & _).
      exists fs1. split; [|done]. eapply runs_bind; [apply runs_lstat; by rewrite custody_node, Hb|]. exact Hr1.
    - rewrite bool_decide_true by done. exists fs. split; [|done]. eapply runs_bind; [apply runs_sameBytes; [done..|by intros []]|done]. }
  destruct (runs_remove Beside p fs1 (proj1 Hm1) Hp Hs1) as (fs2 & Hr2 & Hm2 & Hn2 & Hs2).
  exists fs2. split; [|split; [by eapply moved_trans|unfold homed; by rewrite Hh]].
  unfold unparkOne. eapply runs_bind; [unfold runs; rewrite try_lstat, custody_node, Hb by done; done|].
  eapply runs_bind; [by apply runs_regularIn|]. by eapply runs_bind.
Qed.

Lemma settleOne_runs `{!TempLaws} e p fs : custody fs -> item e p ->
  exists fs', runs (settleOne sha256 e) fs tt fs' /\ moved p fs fs' /\ homed e p fs'.
Proof.
  intros Hc Hi. assert (rels p) as Hp by (by exists e).
  assert (home e = if mParked e then Beside else Server) as Hh by done.
  unfold settleOne. destruct (cu_only _ Hc Beside p Hp) as [Hb|Hb]; destruct (mParked e) eqn:Epk; cbn [negb].
  - (* parked, found only in the server root *)
    assert (treeOf Server fs !! p = Some (NFile (content p))) as Hs
      by (destruct (cu_some _ Hc p Hp) as [[] ?]; congruence).
    destruct (parkOne_runs e p fs Hc Hi Hh Hs) as (fs' & Hr & Hm & Hhm). exists fs'. split; [|done].
    eapply runs_bind; [by apply runs_checked, Hi|]. eapply runs_bind; [apply try_lstat|]. rewrite custody_node, Hb by done.
    eapply runs_bind; [by apply runs_regularIn|]. rewrite Hs, bool_decide_true by done. cbn [negb].
    by eapply runs_bind; [exact Hr|].
  - (* already in the server root alone *)
    exists fs. split; [|split; [done|]].
    + eapply runs_bind; [by apply runs_checked, Hi|]. eapply runs_bind; [apply try_lstat|]. by rewrite custody_node, Hb by done.
    + unfold homed. rewrite Hh. split; [|done]. destruct (cu_some _ Hc p Hp) as [[] ?]; congruence.
  - (* parked, and in the parking tree *)
    destruct (cu_only _ Hc Server p Hp) as [Hs|Hs].
    + exists fs. split; [|split; [done|unfold homed; by rewrite Hh]].
      eapply runs_bind; [by apply runs_checked, Hi|]. eapply runs_bind; [apply try_lstat|]. rewrite custody_node, Hb by done.
      eapply runs_bind; [by apply runs_regularIn|]. by rewrite Hs, bool_decide_false by (by intros []).
    + destruct (runs_remove Server p fs Hc Hp Hb) as (fs' & Hr & Hm & Hn & Hb'). exists fs'.
      split; [|split; [done|unfold homed; by rewrite Hh]].
      eapply runs_bind; [by apply runs_checked, Hi|]. eapply runs_bind; [apply try_lstat|]. rewrite custody_node, Hb by done.
      eapply runs_bind; [by apply runs_regularIn|]. rewrite Hs, bool_decide_true by done. cbn [negb].
      eapply runs_bind; [apply runs_sameBytes; [done..|by intros []]|exact Hr].
  - destruct (unparkOne_runs e p fs Hc Hi Hh Hb) as (fs' & Hr & Hm & Hhm). exists fs'. split; [|done].
    eapply runs_bind; [by apply runs_checked, Hi|]. eapply runs_bind; [apply try_lstat|]. by rewrite custody_node, Hb by done.
Qed.

Lemma settleEach_runs `{!TempLaws} es : (forall e, e ∈ es -> e ∈ manifest) -> forall fs, custody fs ->
  exists fs', runs (settleEach sha256 [] es) fs [] fs' /\ custody fs' /\
    (forall e p, e ∈ es -> item e p -> homed e p fs') /\
    (forall sd p, rels p -> (forall e, e ∈ es -> ~ item e p) -> treeOf sd fs' !! p = treeOf sd fs !! p).
Proof.
  induction es as [|e es IH]; intros Hes fs Hc; cbn [settleEach].
  { exists fs. split_and!; try done. by intros e p ?%elem_of_nil. }
  assert (forall e', e' ∈ es -> e' ∈ manifest) as Hes' by (intros; apply Hes; by right).
  destruct (UserConfig (mPath e)) eqn:Eu.
  { destruct (IH Hes' fs Hc) as (fs' & Hr & Hc' & Hh & Hs). exists fs'. split_and!; try done.
    - intros e' p [->|Hin]%elem_of_cons Hi; [|by apply Hh]. destruct Hi as (_ & Hi & _). congruence.
    - intros sd p Hp Hno. apply Hs; [done|]. intros e' Hin. apply Hno. by right. }
  destruct (mf_dest Hok e (Hes e ltac:(left)) Eu) as [p Hp]. assert (item e p) as Hi by (split_and!; [apply Hes; left|done..]).
  destruct (settleOne_runs e p fs Hc Hi) as (fs1 & Hr1 & [Hc1 Hm1] & Hh1).
  destruct (IH Hes' fs1 Hc1) as (fs2 & Hr2 & Hc2 & Hh2 & Hs2). exists fs2. split_and!; [|done| |].
  - eapply runs_bind; [unfold runs, ftry; by rewrite Hr1|]. exact Hr2.
  - intros e' q [->|Hin]%elem_of_cons Hi'; [|by apply Hh2].
    assert (q = p) as -> by (destruct Hi as (_ & _ & H1), Hi' as (_ & _ & H2); congruence).
    destruct (decide (Exists (fun e' => item e' p) es)) as [Hex|Hno]; [|].
    + apply Exists_exists in Hex as (e2 & Hin & Hi2). specialize (Hh2 e2 p Hin Hi2). unfold homed in *.
      by rewrite (mf_once Hok e e2 p) by done.
    + destruct Hh1 as [Ha Hb]. unfold homed. rewrite !Hs2; [done|by exists e| |by exists e|];
        intros e2 Hin Hi2; apply Hno, Exists_exists; by exists e2.
  - intros sd q Hq Hno. rewrite Hs2; [|done|intros e' Hin; apply Hno; by right]. apply Hm1; [done|].
    intros ->. by apply (Hno e ltac:(left)).
Qed.

(** C24. A disable or an enable of a package stopped at any call, then Settle on a
    working disk: Settle reports nothing, and every movable file is, with its own
    bytes, in the tree the manifest records for it and in that tree alone. *)
Theorem settle_returns_files `{!TempLaws} fs0 fs1 :
  custody fs0 -> interrupted fs0 fs1 ->
  exists fs2, Settle sha256 manifest (fs1, []) = (Ok tt, (fs2, [])) /\ forall e p, item e p -> homed e p fs2.
Proof.
  intros Hc Hi. pose proof (interrupted_custody _ _ Hc Hi) as Hc1.
  destruct (openServerRoot true (fs1, [])) as [r [fs1' q]] eqn:E. pose proof (open_custody true (fs1, []) r (fs1', q) Hc1 E) as Hc1'.
  assert (is_ok r = true /\ q = []) as [Hr ->] by (unfold openServerRoot, call in E; destruct (server fs1); by injection E as <- _ <-).
  destruct r as [b|]; [|done].
  destruct (settleEach_runs manifest ltac:(done) fs1' Hc1') as (fs2 & Hrun & Hc2 & Hh & _). exists fs2. split.
  - eapply (runs_bind _ _ fs1 b fs1'); [exact E|]. by eapply runs_bind.
  - intros e p Hip. apply Hh; [apply Hip|done].
Qed.

End Laws.
End Park.
