(* ===== verification/InstallWitness.v ===== *)
(** Concrete servers on which the installer's theorems apply: an install that a
    failing disk stops half-way and its rollback, and a parked package. *)
From S2P Require Import Prelude GoBytes Paths Installer InstallFS InstallLaws InstallSafe ParkSafe.
Open Scope list_scope.

(** A suffix longer than every name in the tree. *)
Definition longest (t : tree) : nat := foldr Nat.max 0 (map (fun kv => length (base kv.1)) (map_to_list t)).
#[export] Instance longNames : TempNames := {| tempSuffix := fun t _ => replicate (S (longest t)) "x"%char |}.

Lemma longest_ge t p n : t !! p = Some n -> length (base p) <= longest t.
Proof.
  intros Hp. apply elem_of_map_to_list in Hp. unfold longest. induction (map_to_list t) as [|kv l IH]; [by apply elem_of_nil in Hp|].
  simpl. apply elem_of_cons in Hp as [<-|Hp]; simpl; [lia|]. specialize (IH Hp). lia.
Qed.

#[export] Instance longNames_laws : TempLaws.
Proof.
  intros t dir. apply eq_None_not_Some. intros [n Hn]. apply longest_ge in Hn. unfold base in Hn. rewrite last_snoc in Hn.
  simpl in Hn. rewrite length_replicate in Hn. lia.
Qed.

Lemma run_split {A} (m : Fs A) w r : (m w).1 = r -> m w = (r, ((m w).2.1, (m w).2.2)).
Proof. by destruct (m w) as [r' [fs q]]; intros <-. Qed.

(** ** Rollback *)

Definition plugins : path := [L "BepInEx"; L "plugins"].
Definition aServer : tree :=
  <[plugins ++ [L "a.dll"] := NFile (L "v1")]> (<[plugins := NDir]> (<[[L "BepInEx"] := NDir]> ∅)).
Definition aManifest : list ManifestEntry :=
  [mkEntry (L "BepInEx/plugins/a.dll") "h1" false; mkEntry (L "BepInEx/plugins/b.dll") "h2" false].
Definition someChanges : list Change :=
  [mkChange (mkPlacement [L "a.dll"] (L "BepInEx/plugins/a.dll")) ActionOverwrite [] false;
   mkChange (mkPlacement [L "b.dll"] (L "BepInEx/plugins/b.dll")) ActionCreate [] false].
Definition newDll (src : path) : option bytes := Some (L "v2").

Lemma aServer_wf : wf aServer.
Proof.
  intros p n. unfold aServer. intros [[<- <-]|[_ [[<- <-]|[_ [[<- <-]|[_ Hp]]%lookup_insert_cases]]%lookup_insert_cases]]%lookup_insert_cases;
    [split; [done|by vm_compute]..|]. by rewrite lookup_empty in Hp.
Qed.

(** The disk fails while the second library is written. *)
Definition saved : FS := (BackupPaths (map mPath aManifest) (mkFS (Some aServer) ∅, [])).2.1.
Definition failing : faults := replicate 24 false ++ replicate 40 true.
Definition halfway : FS := (Apply newDll someChanges (saved, failing)).2.1.
Definition rolledBack : World := (Rollback aManifest (halfway, [])).2.

Lemma aManifest_noTemps : noTemps (map mPath aManifest).
Proof.
  intros p (d & Hd & Hc). change (map mPath aManifest) with [L "BepInEx/plugins/a.dll"; L "BepInEx/plugins/b.dll"] in Hd.
  apply elem_of_cons in Hd as [->|Hd%list_elem_of_singleton]; [|subst d]; vm_compute in Hc; injection Hc as <-;
    by apply (bool_decide_unpack _).
Qed.

Lemma rollback_restores_witness :
  (Apply newDll someChanges (saved, failing)).1 = Err EIO /\
  leaf (treeOf Server halfway) (plugins ++ [L "a.dll"]) = Some (NFile (L "v2")) /\
  leaf (treeOf Server rolledBack.1) (plugins ++ [L "a.dll"]) = Some (NFile (L "v1")).
Proof.
  split; [by vm_compute|]. split; [by vm_compute|].
  etrans; [eapply (rollback_restores aManifest aServer [] saved _ halfway (Rollback aManifest (halfway, [])).1 rolledBack)|].
  - exact aServer_wf.
  - exact aManifest_noTemps.
  - apply run_split. by vm_compute.
  - eapply (undone_apply _ newDll someChanges saved failing); [by vm_compute|]. by apply run_split.
  - apply surjective_pairing.
  - done.
  - by vm_compute.
Defined.

(** ** An install over a library no package owns *)

#[local] Existing Instance packages_ascii.
Definition modDll : path := plugins ++ [L "Team-Mod"; L "Mod.dll"].
Definition modCfg : path := [L "BepInEx"; L "config"; L "mod.cfg"].
Definition lived : tree :=
  <[modCfg := NFile (L "mine")]> (<[[L "BepInEx"; L "config"] := NDir]>
  (<[modDll := NFile (L "by hand")]> (<[plugins ++ [L "Team-Mod"] := NDir]>
  (<[plugins := NDir]> (<[[L "BepInEx"] := NDir]> ∅))))).

Lemma lived_wf : wf lived.
Proof.
  intros p n. unfold lived.
  do 6 (intros [[<- <-]|[_ Hp]]%lookup_insert_cases; [split; [done|by vm_compute]|revert Hp]).
  by rewrite lookup_empty.
Qed.

Definition staging (src : path) : option bytes :=
  match at_ (EDir aPackage) src with Some (EFile c) => Some c | _ => None end.
Definition planned : list Placement := match Plan aPackage (L "Team-Mod") with Ok ps => ps | Err _ => [] end.
Definition diffed : list Change :=
  match Diff (L "Team-Mod") planned (regularFileExists lived) ∅ with Ok cs => cs | Err _ => [] end.
Definition installed : World := (Apply staging (ApplyUnowned diffed UnownedReplace).1 (mkFS (Some lived) ∅, [])).2.

Lemma planned_noTemps : noTemps (map Dest planned).
Proof.
  intros p (d & Hd & Hc). assert (map Dest planned = [L "BepInEx/plugins/Team-Mod/Mod.dll"; L "BepInEx/config/mod.cfg"]) as E
    by (by vm_compute).
  rewrite E in Hd. apply elem_of_cons in Hd as [->|Hd%list_elem_of_singleton]; [|subst d];
    vm_compute in Hc; injection Hc as <-; by apply (bool_decide_unpack _).
Qed.

(** The library is replaced, the configuration beside it is not. *)
Lemma install_respects_witness :
  leaf (treeOf Server installed.1) modDll = Some (NFile (L "MZ")) /\
  leaf (treeOf Server installed.1) modCfg = Some (NFile (L "mine")) /\
  UserConfig (join [slash] modDll) = false.
Proof.
  split; [by vm_compute|]. split; [by vm_compute|].
  refine (proj1 (install_respects aPackage (L "Team-Mod") planned lived ∅ diffed UnownedReplace staging ∅ []
    (Apply staging (ApplyUnowned diffed UnownedReplace).1 (mkFS (Some lived) ∅, [])).1 installed modDll (L "by hand")
    aPackage_wf _ planned_noTemps lived_wf _ _ _ _ _)).
  - by vm_compute.
  - by vm_compute.
  - apply surjective_pairing.
  - by vm_compute.
  - done.
  - assert (leaf (treeOf Server installed.1) modDll = Some (NFile (L "MZ"))) as -> by (by vm_compute). done.
Defined.

(** ** A disable cut off between a copy and the removal of its original *)

Definition aDll : path := plugins ++ [L "a.dll"].
Definition theManifest : list ManifestEntry :=
  [mkEntry (L "BepInEx/plugins/a.dll") "h1" false; mkEntry (L "BepInEx/config/a.cfg") "h2" false].
Definition v1 (p : path) : bytes := L "v1".
Definition identity : bytes -> string := String.string_of_list_ascii.

Lemma theManifest_items e p : item theManifest e p -> e = mkEntry (L "BepInEx/plugins/a.dll") "h1" false /\ p = aDll.
Proof.
  intros (He & Hu & Hc). unfold theManifest in He. rewrite elem_of_cons, list_elem_of_singleton in He.
  destruct He as [->| ->]; [|by vm_compute in Hu]. split; [done|]. vm_compute in Hc. by injection Hc as <-.
Qed.

Lemma theManifest_rels p : rels theManifest p -> p = aDll.
Proof. by intros [e [_ ->]%theManifest_items]. Qed.

Lemma theManifest_ok : manifestOk theManifest.
Proof.
  split.
  - intros e He Hu. exists aDll. unfold theManifest in He. rewrite elem_of_cons, list_elem_of_singleton in He.
    destruct He as [->| ->]; [by vm_compute|by vm_compute in Hu].
  - by intros e e' p [-> _]%theManifest_items [-> _]%theManifest_items.
  - intros p q -> %theManifest_rels -> %theManifest_rels. unfold anc. by apply (bool_decide_unpack _).
  - intros p -> %theManifest_rels. unfold noTemp. by apply (bool_decide_unpack _).
Qed.

Definition before : FS := mkFS (Some aServer) ∅.
Lemma before_custody : custody theManifest v1 before.
Proof.
  split.
  - intros []; [exact aServer_wf|]. intros p n. simpl. by rewrite lookup_empty.
  - intros sd p q Hp Hq. apply theManifest_rels in Hp as ->. change (q ∈ [[L "BepInEx"]; plugins]) in Hq.
    apply elem_of_cons in Hq as [->|Hq%list_elem_of_singleton]; [|subst q]; by destruct sd; vm_compute.
  - intros sd p Hp. apply theManifest_rels in Hp as ->. destruct sd; [right|left]; by vm_compute.
  - intros p Hp. apply theManifest_rels in Hp as ->. exists Server. by vm_compute.
  - intros e p [-> ->]%theManifest_items. by vm_compute.
Qed.

Definition cutOff : faults := replicate 17 false ++ replicate 9 true.
Definition torn : FS := (Park [L "BepInEx/plugins/a.dll"] (before, cutOff)).2.1.

Lemma settle_returns_files_witness :
  treeOf Server torn !! aDll = Some (NFile (L "v1")) /\ treeOf Beside torn !! aDll = Some (NFile (L "v1")) /\
  exists fs2, Settle identity theManifest (torn, []) = (Ok tt, (fs2, [])) /\
    treeOf Server fs2 !! aDll = Some (NFile (L "v1")) /\ treeOf Beside fs2 !! aDll = None.
Proof.
  split; [by vm_compute|]. split; [by vm_compute|].
  destruct (settle_returns_files identity theManifest v1 theManifest_ok before torn before_custody) as (fs2 & Hr & Hh).
  - eapply (int_park identity theManifest [L "BepInEx/plugins/a.dll"] before cutOff); [|by apply run_split].
    intros d Hd. apply list_elem_of_singleton in Hd as ->. exists (mkEntry (L "BepInEx/plugins/a.dll") "h1" false).
    split; [left|done].
  - exists fs2. split; [exact Hr|]. apply (Hh (mkEntry (L "BepInEx/plugins/a.dll") "h1" false) aDll). split; [left|].
    split; vm_compute; reflexivity.
Defined.
