(* ===== verification/UserStore.v ===== *)
(** internal/store/users.go, sessions.go, invites.go and the two kv rows of the
    auth package: accounts, sessions, per-instance grants and invites, and every
    statement and transaction on them.

    Times are the stored instants ([FormatTime]'s fixed width makes text order
    time order).  An audit entry is never nil: [writeAuditLog] reads it.  A
    perms column is the list its JSON text encodes. *)
From S2P Require Import Prelude Lifecycle Sql Store Authz.

(** ** Tables *)

Record UserRow := mkUserRow {
  uUsername : string; uHash : string; uRole : string; uDisabled : bool; uOwner : bool;
  uCreated : Time; uLastLogin : option Time; uTimezone : string; uHourCycle : string; uDateOrder : string
}.

Record SessionRow := mkSessionRow {
  sToken : string; sUser : string; sCreated : Time; sLastSeen : Time; sIdle : Time; sAbs : Time;
  sRevoked : option Time; sIP : string; sAgent : string
}.

Record GrantRow := mkGrantRow {
  gRole : string; gPerms : list string; gBy : option string; gAt : Time; gExpires : option Time
}.

Record InviteRow := mkInviteRow {
  vToken : string; vBy : string; vInstance : option string; vRole : option string; vPerms : list string;
  vExpires : Time; vCreated : Time; vRedeemed : option Time; vRedeemedBy : option string; vRevoked : option Time
}.

(** kv["bootstrap_state"] and kv["argon2_params"]. *)
Record BootstrapState := mkBootstrap { Pending : bool; TokenHash : string; ExpiresAt : Time }.
Record Argon2Params := mkArgon { MemoryKiB : Z; ATime : Z; Threads : Z; SaltLen : Z; KeyLen : Z }.

Record UDB := mkUDB {
  tUsers : gmap string UserRow;
  tSessions : gmap string SessionRow;
  tGrants : gmap (string * string) GrantRow;
  tInvites : gmap string InviteRow;
  tInsts : gmap string Inst;
  tAudit : gmap string AuditRow;
  kvBootstrap : option BootstrapState;
  kvArgon : option Argon2Params
}.

Definition withUsers (m : gmap string UserRow) (db : UDB) : UDB :=
  mkUDB m (tSessions db) (tGrants db) (tInvites db) (tInsts db) (tAudit db) (kvBootstrap db) (kvArgon db).
Definition withSessions (m : gmap string SessionRow) (db : UDB) : UDB :=
  mkUDB (tUsers db) m (tGrants db) (tInvites db) (tInsts db) (tAudit db) (kvBootstrap db) (kvArgon db).
Definition withGrants (m : gmap (string * string) GrantRow) (db : UDB) : UDB :=
  mkUDB (tUsers db) (tSessions db) m (tInvites db) (tInsts db) (tAudit db) (kvBootstrap db) (kvArgon db).
Definition withInvites (m : gmap string InviteRow) (db : UDB) : UDB :=
  mkUDB (tUsers db) (tSessions db) (tGrants db) m (tInsts db) (tAudit db) (kvBootstrap db) (kvArgon db).
Definition withTrail (m : gmap string AuditRow) (db : UDB) : UDB :=
  mkUDB (tUsers db) (tSessions db) (tGrants db) (tInvites db) (tInsts db) m (kvBootstrap db) (kvArgon db).
Definition withKV (b : option BootstrapState) (p : option Argon2Params) (db : UDB) : UDB :=
  mkUDB (tUsers db) (tSessions db) (tGrants db) (tInvites db) (tInsts db) (tAudit db) b p.

Abbreviation UTxS := (Sql.TxS UDB).
Abbreviation UTx := (Sql.Tx UDB).

(** ** Errors *)

#[export] Instance StateError_eq_dec : EqDecision StateError_.
Proof. solve_decision. Defined.
#[export] Instance TxErr_eq_dec : EqDecision TxErr.
Proof. solve_decision. Defined.

Definition ErrGrantNotFound : TxErr := EHook "grant not found".
Definition ErrGrantPrecondition : TxErr := EHook "grant precondition failed".
Definition ErrUsernameTaken : TxErr := EHook "username already exists".
Definition ErrBootstrapConsumed : TxErr := EHook "bootstrap already consumed".
Definition ErrOwnerProtected : TxErr :=
  EHook "the owner cannot be demoted, disabled, deleted or have its password reset".
Definition ErrUserNotFound : TxErr := EHook "user not found".
Definition ErrInstanceNotFound : TxErr := EHook "instance not found".
Definition ErrInviteNotLive : TxErr := EHook "invite is not live".
Definition ErrNoGrantRole : TxErr := EHook "redeem invite: instance grant role is missing".

(** [isUniqueViolation] turned into an error of the caller's own. *)
Definition onUnique {A} (e : TxErr) (m : UTx A) : UTx A := fun s =>
  match m s with
  | (Err EUnique, s') => (Err e, s')
  | r => r
  end.

(** The audit trail is the job store's: [writeAuditLog] reads the usernames and
    the instance names and writes audit_log. *)
Definition auditView (db : UDB) : DB :=
  mkDB ∅ ∅ (tInsts db) (uUsername <$> tUsers db) ∅ (tAudit db).
Definition writeAudit (newID : string) (now : Time) (e : AuditEntry) : UTx unit := fun s =>
  match writeAuditLog newID now e (auditView s.1, s.2) with
  | (Ok _, (c, fs)) => (Ok tt, (withTrail (auditLog c) s.1, fs))
  | (Err x, (_, fs)) => (Err x, (s.1, fs))
  end.

(** ** Rows as the code reads them *)

Definition RoleMember : string := "member".
Definition GrantViewer : string := "viewer".
Definition GrantOperator : string := "operator".

(** [store.User]: a users row without its secrets. *)
Record PUser := mkPUser {
  pID : string; pUsername : string; pRole : string; pDisabled : bool; pOwner : bool;
  pCreated : Time; pLastLogin : option Time; pTimezone : string; pHourCycle : string; pDateOrder : string
}.
Record AuthRecord := mkAuthRecord { aUser : PUser; PasswordHash : string }.

(** [scanUser]. *)
Definition userOf (id : string) (r : UserRow) : PUser :=
  mkPUser id (uUsername r) (uRole r) (uDisabled r) (uOwner r) (uCreated r) (uLastLogin r)
    (uTimezone r) (uHourCycle r) (uDateOrder r).
Definition scanUser (id : string) (r : UserRow) : AuthRecord := mkAuthRecord (userOf id r) (uHash r).

(** What [Can] reads of it. *)
Definition authzUser (p : PUser) : Authz.User := Authz.mkUser (pID p) (pRole p) (pDisabled p).

Record GrantRecord := mkGrantRecord {
  grUser : string; grInstance : string; grRole : string; grPerms : list string;
  grBy : option string; grAt : Time; grExpires : option Time
}.
#[export] Instance GrantRecord_eq_dec : EqDecision GrantRecord.
Proof. solve_decision. Defined.

(** [scanGrantRecord]. *)
Definition scanGrant (k : string * string) (g : GrantRow) : GrantRecord :=
  mkGrantRecord k.1 k.2 (gRole g) (gPerms g) (gBy g) (gAt g) (gExpires g).

(** The JSON text of a record and the SHA-256 of a text, in hex. *)
Class Digest := { marshalGrant : GrantRecord -> string; sha256hex : string -> string }.

Definition Revision `{Digest} (g : GrantRecord) : string := sha256hex (marshalGrant g).

Record GrantCondition := mkCond { CreateOnly : bool; condRevision : string }.

(** ** users *)

Definition roleOK (role : string) : bool := bool_decide (role = RoleAdmin) || bool_decide (role = RoleMember).
Definition byName (name : string) (db : UDB) : option (string * UserRow) :=
  head (filter (fun kv => uUsername kv.2 = name) (map_to_list (tUsers db))).
Definition usernameTaken (name : string) (db : UDB) : bool := bool_decide (is_Some (byName name db)).
Definition hasOwner (db : UDB) : bool :=
  bool_decide (filter (fun kv => uOwner kv.2 = true) (map_to_list (tUsers db)) <> []).

(** INSERT INTO users under the table's CHECK, PRIMARY KEY and UNIQUE
    constraints, idx_users_owner among them. *)
Definition insertUser (id : string) (r : UserRow) : UTx unit := stmt (fun db =>
  if negb (roleOK (uRole r)) then Err EConstraint
  else if bool_decide (is_Some (tUsers db !! id)) || usernameTaken (uUsername r) db || (uOwner r && hasOwner db)
  then Err EUnique
  else Ok (tt, withUsers (<[id := r]> (tUsers db)) db)).

(** An UPDATE of the row [id]: whether there is one, and its new columns. *)
Definition updateUser (id : string) (f : UserRow -> UserRow) : UTx bool := stmt (fun db =>
  match tUsers db !! id with
  | None => Ok (false, db)
  | Some r => if roleOK (uRole (f r)) then Ok (true, withUsers (<[id := f r]> (tUsers db)) db) else Err EConstraint
  end).

Definition CountUsers : UTx nat := readq (fun db => size (tUsers db)).

Definition newUserRow (username passwordHash role : string) (owner : bool) (now : Time) : UserRow :=
  mkUserRow username passwordHash role false owner now None "" "" "".

Definition createUser (id username passwordHash role : string) (now : Time) : UTx unit :=
  onUnique ErrUsernameTaken (insertUser id (newUserRow username passwordHash role false now)).
Definition CreateUser := createUser.

Definition CreateUserAudited (id username passwordHash role : string) (now : Time) (auditID : string) (audit : AuditEntry) : UTx unit :=
  inTx (let! _ := createUser id username passwordHash role now in writeAudit auditID now audit).

Definition CreateFirstAdmin (id username passwordHash : string) (now : Time) : UTx unit :=
  inTx (let! n := CountUsers in
        if negb (n =? 0)%nat then tfail ErrBootstrapConsumed
        else onUnique ErrUsernameTaken (insertUser id (newUserRow username passwordHash RoleAdmin true now))).

Definition UserForLogin (username : string) : UTx (option AuthRecord) :=
  readq (fun db => (fun kv => scanUser kv.1 kv.2) <$> byName username db).
Definition UserByID (id : string) : UTx (option PUser) :=
  readq (fun db => userOf id <$> tUsers db !! id).

Definition created_le (x y : string * UserRow) : Prop := (uCreated x.2 <= uCreated y.2)%Z.
#[export] Instance created_le_dec x y : Decision (created_le x y).
Proof. unfold created_le. apply _. Defined.
Definition ListUsers : UTx (list PUser) :=
  readq (fun db => (fun kv => userOf kv.1 kv.2) <$> merge_sort created_le (map_to_list (tUsers db))).

Definition setRole (role : string) (disabled : bool) (r : UserRow) : UserRow :=
  mkUserRow (uUsername r) (uHash r) role disabled (uOwner r) (uCreated r) (uLastLogin r) (uTimezone r) (uHourCycle r) (uDateOrder r).
Definition setHash (h : string) (r : UserRow) : UserRow :=
  mkUserRow (uUsername r) h (uRole r) (uDisabled r) (uOwner r) (uCreated r) (uLastLogin r) (uTimezone r) (uHourCycle r) (uDateOrder r).
Definition setLastLogin (now : Time) (r : UserRow) : UserRow :=
  mkUserRow (uUsername r) (uHash r) (uRole r) (uDisabled r) (uOwner r) (uCreated r) (Some now) (uTimezone r) (uHourCycle r) (uDateOrder r).

Record UserPreferences := mkPrefs { Timezone : option string; HourCycle : option string; DateOrder : option string }.
Definition setPrefs (p : UserPreferences) (r : UserRow) : UserRow :=
  mkUserRow (uUsername r) (uHash r) (uRole r) (uDisabled r) (uOwner r) (uCreated r) (uLastLogin r)
    (default (uTimezone r) (Timezone p)) (default (uHourCycle r) (HourCycle p)) (default (uDateOrder r) (DateOrder p)).

Definition updateUserRoleAndDisabled (id role : string) (disabled : bool) : UTx unit :=
  let! n := updateUser id (setRole role disabled) in must n ErrUserNotFound.
Definition UpdateUserRoleAndDisabled := updateUserRoleAndDisabled.

(** [isOwner]: a missing user is not one. *)
Definition isOwner (id : string) : UTx bool :=
  readq (fun db => match tUsers db !! id with Some r => uOwner r | None => false end).

Definition deleteSessionsOf (id : string) : UTx unit :=
  writeq (fun db => withSessions (filter (fun kv => sUser kv.2 <> id) (tSessions db)) db).

Definition refuseOwner (id : string) : UTx unit :=
  let! owner := isOwner id in if owner then tfail ErrOwnerProtected else tret tt.

Definition UpdateUserAudited (id role : string) (disabled revokeSessions : bool) (auditID : string) (now : Time) (audit : AuditEntry) : UTx unit :=
  inTx (let! _ := (if negb (bool_decide (role = RoleAdmin)) || disabled then refuseOwner id else tret tt) in
        let! _ := updateUserRoleAndDisabled id role disabled in
        let! _ := (if revokeSessions then deleteSessionsOf id else tret tt) in
        writeAudit auditID now audit).

Definition SetUserPreferences (id : string) (p : UserPreferences) : UTx unit :=
  let! n := updateUser id (setPrefs p) in must n ErrUserNotFound.

Definition setUserPassword (id passwordHash : string) : UTx unit :=
  let! n := updateUser id (setHash passwordHash) in must n ErrUserNotFound.
Definition SetUserPassword := setUserPassword.

(** [otherSessionIDs]. *)
Definition otherSessions (id keep : string) (db : UDB) : list string :=
  (filter (fun kv => sUser kv.2 = id /\ kv.1 <> keep) (map_to_list (tSessions db))).*1.
Definition otherSessionIDs (id keep : string) : UTx (list string) := readq (otherSessions id keep).

Definition SetUserPasswordKeepingSession (id passwordHash keepSessionID auditID : string) (now : Time) (audit : AuditEntry) : UTx (list string) :=
  inTx (let! _ := (if bool_decide (aUserID audit = id) then tret tt else refuseOwner id) in
        let! _ := setUserPassword id passwordHash in
        let! ids := otherSessionIDs id keepSessionID in
        let! _ := writeq (fun db => withSessions (filter (fun kv => ~ (sUser kv.2 = id /\ kv.1 <> keepSessionID)) (tSessions db)) db) in
        let! _ := writeAudit auditID now audit in
        tret ids).

Definition SetUserPasswordAudited (id passwordHash auditID : string) (now : Time) (audit : AuditEntry) : UTx unit :=
  let! _ := SetUserPasswordKeepingSession id passwordHash "" auditID now audit in tret tt.

(** UPDATE ... WHERE username = ?: the one row of that name. *)
Definition SetUserPasswordByUsername (username passwordHash : string) : UTx unit :=
  let! n := stmt (fun db =>
    match byName username db with
    | None => Ok (false, db)
    | Some (id, r) => Ok (true, withUsers (<[id := setHash passwordHash r]> (tUsers db)) db)
    end) in
  must n ErrUserNotFound.

(** DELETE FROM users, with what the foreign keys cascade and null out. *)
Definition unGrant (id : string) (g : GrantRow) : GrantRow :=
  if bool_decide (gBy g = Some id) then mkGrantRow (gRole g) (gPerms g) None (gAt g) (gExpires g) else g.
Definition unRedeem (id : string) (v : InviteRow) : InviteRow :=
  if bool_decide (vRedeemedBy v = Some id)
  then mkInviteRow (vToken v) (vBy v) (vInstance v) (vRole v) (vPerms v) (vExpires v) (vCreated v) (vRedeemed v) None (vRevoked v)
  else v.
Definition cascadeUser (id : string) (db : UDB) : UDB :=
  mkUDB (delete id (tUsers db))
    (filter (fun kv => sUser kv.2 <> id) (tSessions db))
    (unGrant id <$> filter (fun kv => kv.1.1 <> id) (tGrants db))
    (unRedeem id <$> filter (fun kv => vBy kv.2 <> id) (tInvites db))
    (tInsts db) (tAudit db) (kvBootstrap db) (kvArgon db).

Definition deleteUser (id : string) : UTx unit :=
  let! n := stmt (fun db =>
    match tUsers db !! id with
    | None => Ok (false, db)
    | Some _ => Ok (true, cascadeUser id db)
    end) in
  must n ErrUserNotFound.
Definition DeleteUser := deleteUser.

Definition DeleteUserAudited (id auditID : string) (now : Time) (audit : AuditEntry) : UTx unit :=
  inTx (let! _ := refuseOwner id in
        let! _ := deleteUser id in
        writeAudit auditID now audit).

Definition UpdateLastLogin (id : string) (now : Time) : UTx unit :=
  let! _ := updateUser id (setLastLogin now) in tret tt.

(** ** instance_grants *)

Definition grantRoleOK (role : string) : bool := bool_decide (role = GrantViewer) || bool_decide (role = GrantOperator).
Definition refUser (id : option string) (db : UDB) : bool :=
  match id with None => true | Some i => bool_decide (is_Some (tUsers db !! i)) end.
Definition refInst (id : option string) (db : UDB) : bool :=
  match id with None => true | Some i => bool_decide (is_Some (tInsts db !! i)) end.

Definition insertGrant (user inst : string) (g : GrantRow) : UTx unit := stmt (fun db =>
  if negb (grantRoleOK (gRole g)) then Err EConstraint
  else if decide (is_Some (tGrants db !! (user, inst))) then Err EUnique
  else if refUser (Some user) db && refInst (Some inst) db && refUser (gBy g) db
  then Ok (tt, withGrants (<[(user, inst) := g]> (tGrants db)) db)
  else Err EConstraint).

Definition updateGrant (user inst : string) (f : GrantRow -> GrantRow) : UTx unit := stmt (fun db =>
  match tGrants db !! (user, inst) with
  | None => Ok (tt, db)
  | Some g =>
      if grantRoleOK (gRole (f g)) && refUser (gBy (f g)) db
      then Ok (tt, withGrants (<[(user, inst) := f g]> (tGrants db)) db)
      else Err EConstraint
  end).

Definition CreateGrant (user inst role : string) (perms : list string) (grantedBy : string) (now : Time) : UTx unit :=
  insertGrant user inst (mkGrantRow role perms (nullIf grantedBy) now None).

Definition grantRecordFor (user inst : string) : UTx (option GrantRecord) :=
  readq (fun db => scanGrant (user, inst) <$> tGrants db !! (user, inst)).
Definition GrantRecordFor := grantRecordFor.

Definition recUser_le (x y : GrantRecord) : Prop := String.le (grUser x) (grUser y).
#[export] Instance recUser_le_dec x y : Decision (recUser_le x y).
Proof. unfold recUser_le. apply _. Defined.
Definition ListGrantRecords (inst : string) : UTx (list GrantRecord) :=
  readq (fun db => merge_sort recUser_le
    ((fun kv => scanGrant kv.1 kv.2) <$> filter (fun kv => kv.1.2 = inst) (map_to_list (tGrants db)))).

Definition checkGrantTargets (user inst : string) : UTx unit :=
  let! i := readq (refInst (Some inst)) in
  let! _ := must i ErrInstanceNotFound in
  let! u := readq (refUser (Some user)) in
  must u ErrUserNotFound.

Section Grants.
Context `{Digest}.

Definition checkGrantCondition (current : option GrantRecord) (condition : GrantCondition) : result TxErr unit :=
  if CreateOnly condition
  then match current with Some _ => Err ErrGrantPrecondition | None => Ok tt end
  else match current with
       | None => Err ErrGrantPrecondition
       | Some g => if bool_decide (Revision g = condRevision condition) then Ok tt else Err ErrGrantPrecondition
       end.

Definition lift {A} (r : result TxErr A) : UTx A := match r with Ok a => tret a | Err e => tfail e end.

(** [writeGrant]: an UPDATE leaves the expiry as it is. *)
Definition writeGrant (current : option GrantRecord) (user inst role : string) (perms : list string) (grantedBy : string) (now : Time) : UTx unit :=
  match current with
  | None => insertGrant user inst (mkGrantRow role perms (Some grantedBy) now None)
  | Some _ => updateGrant user inst (fun g => mkGrantRow role perms (Some grantedBy) now (gExpires g))
  end.

Definition ReplaceGrant (user inst role : string) (perms : list string) (condition : GrantCondition)
    (auditID : string) (now : Time) (audit : AuditEntry) : UTx (option GrantRecord * bool) :=
  inTx (let! _ := checkGrantTargets user inst in
        let! current := grantRecordFor user inst in
        let! _ := lift (checkGrantCondition current condition) in
        let! _ := writeGrant current user inst role perms (aUserID audit) now in
        let! _ := writeAudit auditID now audit in
        let! stored := grantRecordFor user inst in
        tret (stored, bool_decide (current = None))).

Definition DeleteGrant (user inst revision auditID : string) (now : Time) (audit : AuditEntry) : UTx unit :=
  inTx (let! current := grantRecordFor user inst in
        match current with
        | None => tfail ErrGrantNotFound
        | Some g =>
            let! _ := must (bool_decide (Revision g = revision)) ErrGrantPrecondition in
            let! _ := writeq (fun db => withGrants (delete (user, inst) (tGrants db)) db) in
            writeAudit auditID now audit
        end).

End Grants.

(** The expiry filter of the two reads that authorize. *)
Definition liveGrant (now : Time) (g : GrantRow) : bool :=
  match gExpires g with None => true | Some e => bool_decide (now < e)%Z end.

Definition grantFor (now : Time) (user inst : string) (db : UDB) : option Grant :=
  match tGrants db !! (user, inst) with
  | Some g => if liveGrant now g then Some (mkGrant (gRole g) (gPerms g)) else None
  | None => None
  end.
Definition GrantFor (now : Time) (user inst : string) : UTx (option Grant) := readq (grantFor now user inst).

Definition grantedInstances (now : Time) (user : string) (db : UDB) : list string :=
  merge_sort String.le
    ((fun kv => kv.1.2) <$> filter (fun kv => kv.1.1 = user /\ liveGrant now kv.2 = true) (map_to_list (tGrants db))).
Definition GrantedInstances (now : Time) (user : string) : UTx (list string) := readq (grantedInstances now user).

Definition AllInstanceIDs : UTx (list string) :=
  readq (fun db => merge_sort String.le ((map_to_list (tInsts db)).*1)).
Definition InstanceExists (id : string) : UTx bool := readq (refInst (Some id)).

(** ** sessions *)

(** The columns an INSERT leaves NULL. *)
Definition freshSession (s : SessionRow) : SessionRow :=
  mkSessionRow (sToken s) (sUser s) (sCreated s) (sLastSeen s) (sIdle s) (sAbs s) None (sIP s) (sAgent s).
Definition freshInvite (v : InviteRow) : InviteRow :=
  mkInviteRow (vToken v) (vBy v) (vInstance v) (vRole v) (vPerms v) (vExpires v) (vCreated v) None None None.

Definition CreateSession (id : string) (s : SessionRow) : UTx unit := stmt (fun db =>
  if bool_decide (is_Some (tSessions db !! id)) ||
     bool_decide (Exists (fun kv => sToken kv.2 = sToken s) (map_to_list (tSessions db))) then Err EUnique
  else if refUser (Some (sUser s)) db then Ok (tt, withSessions (<[id := freshSession s]> (tSessions db)) db)
  else Err EConstraint).

Definition sessionLive (tokenHash : string) (n1 n2 : Time) (s : SessionRow) : bool :=
  bool_decide (sToken s = tokenHash) && bool_decide (sRevoked s = None) &&
  bool_decide (n1 < sIdle s)%Z && bool_decide (n2 < sAbs s)%Z.

(** [SessionAndUser]: the joined row; the query does not select users.owner. *)
Definition joinedUser (id : string) (r : UserRow) : PUser :=
  mkPUser id (uUsername r) (uRole r) (uDisabled r) false (uCreated r) (uLastLogin r) (uTimezone r) (uHourCycle r) (uDateOrder r).
Definition sessionAndUser (tokenHash : string) (n1 n2 : Time) (db : UDB) : option (string * SessionRow * PUser) :=
  match head (filter (fun kv => sessionLive tokenHash n1 n2 kv.2 = true /\ is_Some (tUsers db !! sUser kv.2))
               (map_to_list (tSessions db))) with
  | None => None
  | Some (sid, s) => (fun r => (sid, s, joinedUser (sUser s) r)) <$> tUsers db !! sUser s
  end.
Definition SessionAndUser (tokenHash : string) (n1 n2 : Time) : UTx (option (string * SessionRow * PUser)) :=
  readq (sessionAndUser tokenHash n1 n2).

Definition touchRow (now idleTTL : Z) (s : SessionRow) : SessionRow :=
  mkSessionRow (sToken s) (sUser s) (sCreated s) now (now + idleTTL)%Z (sAbs s) (sRevoked s) (sIP s) (sAgent s).
Definition TouchSession (id : string) (now idleTTL throttle : Z) : UTx unit := writeq (fun db =>
  match tSessions db !! id with
  | Some s => if bool_decide (sLastSeen s <= now - throttle)%Z
              then withSessions (<[id := touchRow now idleTTL s]> (tSessions db)) db else db
  | None => db
  end).

Definition DeleteSession (id : string) : UTx unit :=
  writeq (fun db => withSessions (delete id (tSessions db)) db).
Definition DeleteSessionsForUser := deleteSessionsOf.

(** [SessionExpiry]; [None] is the zero time. *)
Definition SessionExpiry (id : string) : UTx (option Time) :=
  readq (fun db => (fun s => Z.min (sIdle s) (sAbs s)) <$> tSessions db !! id).

(** ** invites *)

Definition Live (now : Time) (v : InviteRow) : bool :=
  bool_decide (vRevoked v = None) && bool_decide (vRedeemed v = None) && bool_decide (now < vExpires v)%Z.

Definition CreateInvite (id : string) (v : InviteRow) : UTx unit := stmt (fun db =>
  if negb (match vRole v with None => true | Some r => grantRoleOK r end) then Err EConstraint
  else if bool_decide (is_Some (tInvites db !! id)) ||
          bool_decide (Exists (fun kv => vToken kv.2 = vToken v) (map_to_list (tInvites db))) then Err EUnique
  else if refUser (Some (vBy v)) db && refInst (vInstance v) db
  then Ok (tt, withInvites (<[id := freshInvite v]> (tInvites db)) db)
  else Err EConstraint).

Definition CreateInviteAudited (id : string) (v : InviteRow) (auditID : string) (audit : AuditEntry) : UTx unit :=
  inTx (let! _ := CreateInvite id v in writeAudit auditID (vCreated v) audit).

Definition InviteByID (id : string) : UTx (option InviteRow) := readq (fun db => tInvites db !! id).
Definition LiveInvites (now : Time) : UTx (list (string * InviteRow)) :=
  readq (fun db => filter (fun kv => Live now kv.2 = true) (map_to_list (tInvites db))).

Definition markRedeemed (now : Time) (by_ : option string) (v : InviteRow) : InviteRow :=
  mkInviteRow (vToken v) (vBy v) (vInstance v) (vRole v) (vPerms v) (vExpires v) (vCreated v) (Some now) by_ (vRevoked v).

(** The claim: [true] when the one live row of that id was taken. *)
Definition claimInvite (id : string) (now : Time) : UTx bool := stmt (fun db =>
  match tInvites db !! id with
  | Some v => if Live now v then Ok (true, withInvites (<[id := markRedeemed now (vRedeemedBy v) v]> (tInvites db)) db)
              else Ok (false, db)
  | None => Ok (false, db)
  end).

Definition nameRedeemer (id user : string) : UTx unit := stmt (fun db =>
  match tInvites db !! id with
  | Some v =>
      if refUser (Some user) db
      then Ok (tt, withInvites (<[id := mkInviteRow (vToken v) (vBy v) (vInstance v) (vRole v) (vPerms v) (vExpires v)
                                         (vCreated v) (vRedeemed v) (Some user) (vRevoked v)]> (tInvites db)) db)
      else Err EConstraint
  | None => Ok (tt, db)
  end).

Definition RedeemInvite (id user : string) (now : Time) : UTx bool := stmt (fun db =>
  match tInvites db !! id with
  | Some v =>
      if Live now v then
        if refUser (Some user) db
        then Ok (true, withInvites (<[id := markRedeemed now (Some user) v]> (tInvites db)) db)
        else Err EConstraint
      else Ok (false, db)
  | None => Ok (false, db)
  end).

(** [applyInviteGrant]: [inv] is the invite as the caller read it. *)
Definition applyInviteGrant (inv : InviteRow) (user : string) (now : Time) : UTx unit :=
  match vInstance inv with
  | None => tret tt
  | Some inst =>
      match vRole inv with
      | None => tfail ErrNoGrantRole
      | Some role => insertGrant user inst (mkGrantRow role (vPerms inv) (Some (vBy inv)) now None)
      end
  end.

Definition RedeemInviteToUser (id : string) (inv : InviteRow) (user username passwordHash : string) (now : Time)
    (auditID : string) (audit : AuditEntry) : UTx unit :=
  inTx (let! n := claimInvite id now in
        let! _ := must n ErrInviteNotLive in
        let! _ := createUser user username passwordHash RoleMember now in
        let! _ := nameRedeemer id user in
        let! _ := applyInviteGrant inv user now in
        writeAudit auditID now audit).

Definition revokeRow (now : Time) (v : InviteRow) : InviteRow :=
  mkInviteRow (vToken v) (vBy v) (vInstance v) (vRole v) (vPerms v) (vExpires v) (vCreated v) (vRedeemed v) (vRedeemedBy v) (Some now).
Definition RevokeInvite (id : string) (now : Time) : UTx unit :=
  writeq (fun db => withInvites (alter (revokeRow now) id (tInvites db)) db).
Definition RevokeInviteAudited (id : string) (now : Time) (auditID : string) (audit : AuditEntry) : UTx unit :=
  inTx (let! _ := RevokeInvite id now in writeAudit auditID now audit).

Definition newest_le (x y : string * InviteRow) : Prop := (vCreated y.2 <= vCreated x.2)%Z.
#[export] Instance newest_le_dec x y : Decision (newest_le x y).
Proof. unfold newest_le. apply _. Defined.
Definition ListInvites : UTx (list (string * InviteRow)) :=
  readq (fun db => merge_sort newest_le (map_to_list (tInvites db))).

(** ** kv *)

Definition GetBootstrap : UTx (option BootstrapState) := readq kvBootstrap.
Definition SetBootstrap (b : BootstrapState) : UTx unit := writeq (fun db => withKV (Some b) (kvArgon db) db).
Definition GetArgon : UTx (option Argon2Params) := readq kvArgon.
Definition SetArgon (p : Argon2Params) : UTx unit := writeq (fun db => withKV (kvBootstrap db) (Some p) db).
