(* ===== verification/UserLaws.v ===== *)
(** The laws of the account tables: what each statement keeps, the
    well-formedness every operation preserves, the owner that survives every
    operation, the one first admin, password changes and conditional grants. *)
From S2P Require Import Prelude Lifecycle Sql Store Authz UserStore.

(** ** What each statement keeps *)

#[export] Instance onUnique_Inv P {A} e (m : UTx A) : Inv P m -> Inv P (onUnique e m).
Proof.
  intros Hm s r s'. unfold onUnique. destruct (m s) as [r1 s1] eqn:E.
  intros H Hp. pose proof (Hm _ _ _ E Hp) as Hs. destruct r1 as [a|x]; [by injection H as <- <-|].
  destruct x; by injection H as <- <-.
Qed.

(** A predicate that does not read the audit trail, nor the kv rows. *)
Class Trailless (P : UDB -> Prop) : Prop := {
  trail_free db m : P db -> P (withTrail m db);
  kv_free db b p : P db -> P (withKV b p db)
}.

Lemma writeAudit_state i now e s r s' :
  writeAudit i now e s = (r, s') ->
  (r = Ok tt /\ s'.1 = withTrail (tAudit s'.1) s.1) \/ ((exists x, r = Err x) /\ s'.1 = s.1).
Proof.
  unfold writeAudit. destruct (writeAuditLog _ _ _ _) as [[u|x] [c fs]]; intros [= <- <-]; [by left|right].
  split; [by exists x|done].
Qed.

#[export] Instance writeAudit_Inv P i now e : Trailless P -> Inv P (writeAudit i now e).
Proof.
  intros HP s r s' H Hp. destruct (writeAudit_state _ _ _ _ _ _ H) as [[_ ->]|[_ ->]]; [|done].
  by apply trail_free.
Qed.

#[export] Instance SetBootstrap_Inv P b : Trailless P -> Inv P (SetBootstrap b).
Proof. intros HP. apply writeq_Inv. intros db. apply kv_free. Qed.
#[export] Instance SetArgon_Inv P p : Trailless P -> Inv P (SetArgon p).
Proof. intros HP. apply writeq_Inv. intros db. apply kv_free. Qed.

(** ** The operations the panel calls

    Every exported write of the three files that the program calls; the two it
    never calls, [UpdateUserRoleAndDisabled] and [DeleteUser], are
    [unguarded_writes] below. *)
Inductive PanelOp :=
| OCreateUser (id name hash role : string) (now : Time) (aid : string) (a : AuditEntry)
| OFirstAdmin (id name hash : string) (now : Time)
| OUpdateUser (id role : string) (disabled revoke : bool) (aid : string) (now : Time) (a : AuditEntry)
| OPreferences (id : string) (p : UserPreferences)
| OSetPassword (id hash : string)
| OSetPasswordAudited (id hash aid : string) (now : Time) (a : AuditEntry)
| OSetPasswordKeeping (id hash keep aid : string) (now : Time) (a : AuditEntry)
| OPasswordByUsername (name hash : string)
| ODeleteUser (id aid : string) (now : Time) (a : AuditEntry)
| OLastLogin (id : string) (now : Time)
| OReplaceGrant (user inst role : string) (perms : list string) (c : GrantCondition) (aid : string) (now : Time) (a : AuditEntry)
| ODeleteGrant (user inst revision aid : string) (now : Time) (a : AuditEntry)
| OCreateSession (id : string) (s : SessionRow)
| OTouchSession (id : string) (now idleTTL throttle : Z)
| ODeleteSession (id : string)
| ODeleteSessionsForUser (id : string)
| OCreateInvite (id : string) (v : InviteRow) (aid : string) (a : AuditEntry)
| ORedeem (id : string) (v : InviteRow) (user name hash : string) (now : Time) (aid : string) (a : AuditEntry)
| ORevoke (id : string) (now : Time) (aid : string) (a : AuditEntry)
| OSetBootstrap (b : BootstrapState)
| OSetArgon (p : Argon2Params).

Section Ops.
Context `{Digest}.

Definition void {A} (m : UTx A) : UTx unit := let! _ := m in tret tt.

Definition perform (op : PanelOp) : UTx unit :=
  match op with
  | OCreateUser id name hash role now aid a => CreateUserAudited id name hash role now aid a
  | OFirstAdmin id name hash now => CreateFirstAdmin id name hash now
  | OUpdateUser id role disabled revoke aid now a => UpdateUserAudited id role disabled revoke aid now a
  | OPreferences id p => SetUserPreferences id p
  | OSetPassword id hash => SetUserPassword id hash
  | OSetPasswordAudited id hash aid now a => SetUserPasswordAudited id hash aid now a
  | OSetPasswordKeeping id hash keep aid now a => void (SetUserPasswordKeepingSession id hash keep aid now a)
  | OPasswordByUsername name hash => SetUserPasswordByUsername name hash
  | ODeleteUser id aid now a => DeleteUserAudited id aid now a
  | OLastLogin id now => UpdateLastLogin id now
  | OReplaceGrant user inst role perms c aid now a => void (ReplaceGrant user inst role perms c aid now a)
  | ODeleteGrant user inst revision aid now a => DeleteGrant user inst revision aid now a
  | OCreateSession id s => CreateSession id s
  | OTouchSession id now idleTTL throttle => TouchSession id now idleTTL throttle
  | ODeleteSession id => DeleteSession id
  | ODeleteSessionsForUser id => DeleteSessionsForUser id
  | OCreateInvite id v aid a => CreateInviteAudited id v aid a
  | ORedeem id v user name hash now aid a => RedeemInviteToUser id v user name hash now aid a
  | ORevoke id now aid a => RevokeInviteAudited id now aid a
  | OSetBootstrap b => SetBootstrap b
  | OSetArgon p => SetArgon p
  end.

(** A run: each operation with the faults it meets, and what it answered. *)
Fixpoint exec (ops : list (PanelOp * faults)) (db : UDB) : list (PanelOp * result TxErr unit) * UDB :=
  match ops with
  | [] => ([], db)
  | (op, fs) :: rest =>
      let '(r, s) := perform op (db, fs) in
      let '(rs, db') := exec rest s.1 in
      ((op, r) :: rs, db')
  end.

End Ops.

(** ** Lookups through [map_to_list] *)

Lemma find_row_Some {A} (P : string * A -> Prop) `{forall x, Decision (P x)} (m : gmap string A) k x :
  head (filter P (map_to_list m)) = Some (k, x) -> m !! k = Some x /\ P (k, x).
Proof.
  intros Hh. assert ((k, x) ∈ filter P (map_to_list m)) as Hin.
  { destruct (filter P (map_to_list m)); [done|]. simpl in Hh. injection Hh as ->. left. }
  apply list_elem_of_filter in Hin as [HP Hin%elem_of_map_to_list]. done.
Qed.

Lemma find_row_None {A} (P : string * A -> Prop) `{forall x, Decision (P x)} (m : gmap string A) k x :
  head (filter P (map_to_list m)) = None -> m !! k = Some x -> ~ P (k, x).
Proof.
  intros Hh Hk HP. assert ((k, x) ∈ filter P (map_to_list m)) as Hin.
  { apply list_elem_of_filter. split; [done|]. by apply elem_of_map_to_list. }
  destruct (filter P (map_to_list m)); [by apply not_elem_of_nil in Hin|done].
Qed.

Lemma byName_Some name db i r :
  byName name db = Some (i, r) -> tUsers db !! i = Some r /\ uUsername r = name.
Proof. apply find_row_Some. Qed.

Lemma free_name name db i r :
  usernameTaken name db = false -> tUsers db !! i = Some r -> uUsername r <> name.
Proof.
  unfold usernameTaken. intros Hn%bool_decide_eq_false Hi He. apply Hn.
  destruct (byName name db) eqn:E; [done|]. unfold byName in E.
  by destruct (find_row_None _ _ _ _ E Hi).
Qed.

Lemma free_owner db i r : hasOwner db = false -> tUsers db !! i = Some r -> uOwner r = false.
Proof.
  unfold hasOwner. intros Hn%bool_decide_eq_false Hi. destruct (uOwner r) eqn:Ho; [|done].
  destruct Hn. intros Hnil. assert ((i, r) ∈ filter (fun kv => uOwner kv.2 = true) (map_to_list (tUsers db))) as Hin.
  { apply list_elem_of_filter. split; [done|]. by apply elem_of_map_to_list. }
  rewrite Hnil in Hin. by apply not_elem_of_nil in Hin.
Qed.

(** ** Well-formed tables

    What the schema declares: the UNIQUE columns, the role CHECKs, one owner at
    most, and every foreign key pointing at a row. *)
Abbreviation has m := (fun i : string => is_Some (m !! i)).

Record usersOK (m : gmap string UserRow) : Prop := {
  ok_name i j r r' : m !! i = Some r -> m !! j = Some r' -> uUsername r = uUsername r' -> i = j;
  ok_owner i j r r' : m !! i = Some r -> m !! j = Some r' -> uOwner r = true -> uOwner r' = true -> i = j;
  ok_role i r : m !! i = Some r -> roleOK (uRole r) = true
}.

Record sessionsOK (U : string -> Prop) (m : gmap string SessionRow) : Prop := {
  ok_session k s : m !! k = Some s -> U (sUser s);
  ok_token k k' s s' : m !! k = Some s -> m !! k' = Some s' -> sToken s = sToken s' -> k = k'
}.

Record grantOK (U I : string -> Prop) (k : string * string) (g : GrantRow) : Prop := {
  ok_grantee : U k.1;
  ok_instance : I k.2;
  ok_grantRole : grantRoleOK (gRole g) = true;
  ok_grantedBy b : gBy g = Some b -> U b
}.

Record inviteOK (U I : string -> Prop) (v : InviteRow) : Prop := {
  ok_issuer : U (vBy v);
  ok_bound i : vInstance v = Some i -> I i;
  ok_inviteRole r : vRole v = Some r -> grantRoleOK r = true;
  ok_redeemer b : vRedeemedBy v = Some b -> U b
}.

Definition grantsOK (U I : string -> Prop) (m : gmap (string * string) GrantRow) : Prop :=
  forall k g, m !! k = Some g -> grantOK U I k g.

Record invitesOK (U I : string -> Prop) (m : gmap string InviteRow) : Prop := {
  ok_invite k v : m !! k = Some v -> inviteOK U I v;
  ok_itoken k k' v v' : m !! k = Some v -> m !! k' = Some v' -> vToken v = vToken v' -> k = k'
}.

Record wf (db : UDB) : Prop := {
  wf_users : usersOK (tUsers db);
  wf_sessions : sessionsOK (has (tUsers db)) (tSessions db);
  wf_grants : grantsOK (has (tUsers db)) (has (tInsts db)) (tGrants db);
  wf_invites : invitesOK (has (tUsers db)) (has (tInsts db)) (tInvites db)
}.

#[export] Instance wf_Trailless : Trailless wf.
Proof. split; intros db *; by intros []. Qed.

Lemma grantOK_mono (U U' I : string -> Prop) k g : (forall i, U i -> U' i) -> grantOK U I k g -> grantOK U' I k g.
Proof. intros HU []; split; eauto. Qed.
Lemma inviteOK_mono (U U' I : string -> Prop) v : (forall i, U i -> U' i) -> inviteOK U I v -> inviteOK U' I v.
Proof. intros HU []; split; eauto. Qed.

Lemma has_insert {A} (m : gmap string A) i x j : is_Some (m !! j) -> is_Some (<[i := x]> m !! j).
Proof. intros Hj. destruct (decide (i = j)) as [->|]; [by rewrite lookup_insert_eq|by rewrite lookup_insert_ne]. Qed.

(** The users table grows or changes in place: the references still hold. *)
Lemma wf_withUsers db i r :
  usersOK (<[i := r]> (tUsers db)) -> wf db -> wf (withUsers (<[i := r]> (tUsers db)) db).
Proof.
  intros Hu [_ Hs Hg Hv]. split; simpl; [done| | |].
  - destruct Hs as [H1 H2]. split; [|exact H2]. intros k s Hk. exact (has_insert _ _ _ _ (H1 _ _ Hk)).
  - intros k g Hk. eapply grantOK_mono; [|exact (Hg _ _ Hk)]. intros j. apply has_insert.
  - destruct Hv as [H1 H2]. split; [|exact H2]. intros k v Hk.
    eapply inviteOK_mono; [|exact (H1 _ _ Hk)]. intros j. apply has_insert.
Qed.

Lemma wf_withSessions db m : wf db -> sessionsOK (has (tUsers db)) m -> wf (withSessions m db).
Proof. intros [Hu _ Hg Hv] Hs. by split. Qed.
Lemma wf_withGrants db m : wf db -> grantsOK (has (tUsers db)) (has (tInsts db)) m -> wf (withGrants m db).
Proof. intros [Hu Hs _ Hv] Hg. by split. Qed.
Lemma wf_withInvites db m : wf db -> invitesOK (has (tUsers db)) (has (tInsts db)) m -> wf (withInvites m db).
Proof. intros [Hu Hs Hg _] Hv. by split. Qed.

(** An update of one row that keeps its name and its ownership. *)
Lemma usersOK_update m i r r' :
  usersOK m -> m !! i = Some r -> uUsername r' = uUsername r -> uOwner r' = uOwner r -> roleOK (uRole r') = true ->
  usersOK (<[i := r']> m).
Proof.
  intros [Hn Ho Hr] Hi En Eo Hrole.
  assert (forall j x, <[i := r']> m !! j = Some x -> exists y, m !! j = Some y /\ uUsername x = uUsername y /\ uOwner x = uOwner y) as Hback.
  { intros j x. destruct (decide (i = j)) as [->|Hne].
    - rewrite lookup_insert_eq. intros [= <-]. by exists r.
    - rewrite lookup_insert_ne by done. by exists x. }
  split.
  - intros j k x y (x' & Hx & Ex & _)%Hback (y' & Hy & Ey & _)%Hback E. apply (Hn _ _ _ _ Hx Hy). congruence.
  - intros j k x y (x' & Hx & _ & Ex)%Hback (y' & Hy & _ & Ey)%Hback E E'. apply (Ho _ _ _ _ Hx Hy); congruence.
  - intros j x. destruct (decide (i = j)) as [->|Hne].
    + rewrite lookup_insert_eq. by intros [= <-].
    + rewrite lookup_insert_ne by done. apply Hr.
Qed.

Lemma updateUser_wf id f :
  (forall r, uUsername (f r) = uUsername r /\ uOwner (f r) = uOwner r) -> Inv wf (updateUser id f).
Proof.
  intros Hf. apply stmt_Inv. intros db b db' H Hwf. destruct (tUsers db !! id) as [r|] eqn:E; [|by injection H as _ <-].
  destruct (roleOK (uRole (f r))) eqn:Hr; [|done]. injection H as _ <-.
  apply wf_withUsers; [|done]. destruct (Hf r). eapply usersOK_update; eauto using wf_users.
Qed.

#[export] Hint Extern 2 (Inv wf (updateUser _ _)) => (apply updateUser_wf; by intros) : typeclass_instances.

#[export] Instance insertUser_wf id r : Inv wf (insertUser id r).
Proof.
  apply stmt_Inv. intros db u db' H Hwf. destruct (roleOK (uRole r)) eqn:Hr; [|done]. simpl in H.
  destruct (bool_decide_reflect (is_Some (tUsers db !! id))) as [|Hid]; [done|]. simpl in H.
  destruct (usernameTaken (uUsername r) db) eqn:Hname; [done|]. simpl in H.
  destruct (uOwner r && hasOwner db) eqn:Ho; [done|]. injection H as _ <-.
  apply wf_withUsers; [|done]. destruct (wf_users _ Hwf) as [Hn How Hro].
  pose proof (fun i x => free_name _ _ i x Hname) as Hfree.
  assert (forall i x, tUsers db !! i = Some x -> uOwner r = true -> uOwner x = false) as Hown.
  { intros i x Hi Ht. rewrite Ht in Ho. exact (free_owner _ _ _ Ho Hi). }
  split.
  - intros i j x y [[<- <-]|[_ Hx]]%lookup_insert_Some [[<- <-]|[_ Hy]]%lookup_insert_Some E; [done| | |eauto].
    + by destruct (Hfree _ _ Hy).
    + by destruct (Hfree _ _ Hx).
  - intros i j x y [[<- <-]|[_ Hx]]%lookup_insert_Some [[<- <-]|[_ Hy]]%lookup_insert_Some E E'; [done| | |eauto].
    + by rewrite (Hown _ _ Hy E) in E'.
    + by rewrite (Hown _ _ Hx E') in E.
  - intros i x [[<- <-]|[_ Hx]]%lookup_insert_Some; eauto.
Qed.

#[export] Instance SetUserPasswordByUsername_wf name hash : Inv wf (SetUserPasswordByUsername name hash).
Proof.
  unfold SetUserPasswordByUsername. apply tbind_Inv; [|apply _]. apply stmt_Inv. intros db b db' H Hwf.
  destruct (byName name db) as [[id r]|] eqn:E; [|by injection H as _ <-]. injection H as _ <-.
  apply byName_Some in E as [E _]. apply wf_withUsers; [|done].
  exact (usersOK_update _ _ r (setHash hash r) (wf_users _ Hwf) E eq_refl eq_refl (ok_role _ (wf_users _ Hwf) _ _ E)).
Qed.

Lemma sessionsOK_filter U (Q : string * SessionRow -> Prop) `{forall x, Decision (Q x)} m :
  sessionsOK U m -> sessionsOK U (filter Q m).
Proof. intros [H1 H2]. split; intros *; rewrite ?map_lookup_filter_Some; naive_solver. Qed.

#[export] Instance deleteSessionsOf_wf id : Inv wf (deleteSessionsOf id).
Proof. apply writeq_Inv. intros db Hwf. apply wf_withSessions, sessionsOK_filter; auto using wf_sessions. Qed.

Lemma filterSessions_wf (Q : string * SessionRow -> Prop) `{forall x, Decision (Q x)} :
  Inv wf (writeq (fun db => withSessions (filter Q (tSessions db)) db)).
Proof. apply writeq_Inv. intros db Hwf. apply wf_withSessions, sessionsOK_filter; auto using wf_sessions. Qed.
#[export] Hint Extern 2 (Inv wf (writeq (fun _ => withSessions (filter _ _) _))) =>
  (apply filterSessions_wf) : typeclass_instances.

(** A deletion with its cascades leaves no reference to the user behind. *)
#[export] Instance deleteUser_wf id : Inv wf (deleteUser id).
Proof.
  unfold deleteUser. apply tbind_Inv; [|apply _]. apply stmt_Inv. intros db b db' H Hwf.
  destruct (tUsers db !! id) as [r|] eqn:E; [|by injection H as _ <-]. injection H as _ <-.
  assert (forall j, j <> id -> is_Some (tUsers db !! j) -> is_Some (delete id (tUsers db) !! j)) as Hkeep.
  { intros j Hj. by rewrite lookup_delete_ne by done. }
  destruct Hwf as [[Hn Ho Hr] [Hs Ht] Hg [Hv Hi]]. split; simpl.
  - split; intros *; rewrite ?lookup_delete_Some; naive_solver.
  - split; intros *; rewrite ?map_lookup_filter_Some; naive_solver.
  - intros k g. rewrite lookup_fmap_Some. intros (g0 & <- & [Hk Hne]%map_lookup_filter_Some).
    destruct (Hg _ _ Hk) as [H1 H2 H3 H4]. unfold unGrant. case_bool_decide; split; simpl; naive_solver.
  - split.
    + intros k v. rewrite lookup_fmap_Some. intros (v0 & <- & [Hk Hne]%map_lookup_filter_Some).
      destruct (Hv _ _ Hk) as [H1 H2 H3 H4]. unfold unRedeem. case_bool_decide; split; simpl; naive_solver.
    + intros k k' v v'. rewrite !lookup_fmap_Some.
      intros (x & <- & [Hx _]%map_lookup_filter_Some) (y & <- & [Hy _]%map_lookup_filter_Some) Heq.
      apply (Hi _ _ _ _ Hx Hy). unfold unRedeem in Heq. by repeat case_bool_decide.
Qed.

Lemma refUser_Some db id i : refUser id db = true -> id = Some i -> is_Some (tUsers db !! i).
Proof. intros H ->. by apply bool_decide_eq_true in H. Qed.
Lemma refInst_Some db id i : refInst id db = true -> id = Some i -> is_Some (tInsts db !! i).
Proof. intros H ->. by apply bool_decide_eq_true in H. Qed.

#[export] Instance insertGrant_wf u i g : Inv wf (insertGrant u i g).
Proof.
  apply stmt_Inv. intros db x db' H Hwf. destruct (grantRoleOK (gRole g)) eqn:Hr; [|done]. simpl negb in H.
  cbv iota in H. destruct (decide _) as [|Hfree]; [done|].
  destruct (refUser (Some u) db) eqn:Hu; [|done]. destruct (refInst (Some i) db) eqn:Hi; [|done].
  destruct (refUser (gBy g) db) eqn:Hb; [|done]. injection H as _ <-. apply wf_withGrants; [done|].
  intros k g' [[<- <-]|[_ Hk]]%lookup_insert_Some; [|by apply wf_grants].
  split; simpl; eauto using refUser_Some, refInst_Some.
Qed.

#[export] Instance updateGrant_wf u i f : Inv wf (updateGrant u i f).
Proof.
  apply stmt_Inv. intros db x db' H Hwf. destruct (tGrants db !! (u, i)) as [g|] eqn:E; [|by injection H as _ <-].
  destruct (grantRoleOK (gRole (f g))) eqn:Hr; [|done]. destruct (refUser (gBy (f g)) db) eqn:Hb; [|done].
  injection H as _ <-. apply wf_withGrants; [done|].
  intros k g' [[<- <-]|[_ Hk]]%lookup_insert_Some; [|by apply wf_grants].
  destruct (wf_grants _ Hwf _ _ E). split; simpl; eauto using refUser_Some.
Qed.

#[export] Instance deleteGrant_wf k : Inv wf (writeq (fun db => withGrants (delete k (tGrants db)) db)).
Proof.
  apply writeq_Inv. intros db Hwf. apply wf_withGrants; [done|].
  intros k' g [_ Hk]%lookup_delete_Some. by apply wf_grants.
Qed.

(** A token no row carries. *)
Lemma fresh_token {A} (tok : A -> string) (m : gmap string A) t :
  bool_decide (Exists (fun kv => tok kv.2 = t) (map_to_list m)) = false ->
  forall k x, m !! k = Some x -> tok x <> t.
Proof.
  intros Hn%bool_decide_eq_false k x Hk Ht. apply Hn, Exists_exists. exists (k, x).
  split; [by apply elem_of_map_to_list|done].
Qed.

#[export] Instance CreateSession_wf id s : Inv wf (CreateSession id s).
Proof.
  apply stmt_Inv. intros db x db' H Hwf. destruct (bool_decide (is_Some (tSessions db !! id))) eqn:Hid; [done|].
  destruct (bool_decide (Exists _ _)) eqn:Ht; [done|]. destruct (refUser _ _) eqn:Hu; [|done]. injection H as _ <-.
  apply wf_withSessions; [done|]. destruct (wf_sessions _ Hwf) as [H1 H2].
  pose proof (fresh_token sToken _ _ Ht) as Hfree. split.
  - intros k s' [[<- <-]|[_ Hk]]%lookup_insert_Some; [exact (refUser_Some _ _ _ Hu eq_refl)|eauto].
  - intros k k' a b [[<- <-]|[_ Hk]]%lookup_insert_Some [[<- <-]|[_ Hk']]%lookup_insert_Some E; [done| | |eauto].
    + by destruct (Hfree _ _ Hk').
    + by destruct (Hfree _ _ Hk).
Qed.

#[export] Instance TouchSession_wf id now ttl th : Inv wf (TouchSession id now ttl th).
Proof.
  apply writeq_Inv. intros db Hwf. destruct (tSessions db !! id) as [s|] eqn:E; [|done].
  case_bool_decide; [|done]. apply wf_withSessions; [done|]. destruct (wf_sessions _ Hwf) as [H1 H2]. split.
  - intros k s' [[<- <-]|[_ Hk]]%lookup_insert_Some; [exact (H1 _ _ E)|eauto].
  - intros k k' a b [[<- <-]|[_ Hk]]%lookup_insert_Some [[<- <-]|[_ Hk']]%lookup_insert_Some; eauto.
Qed.

#[export] Instance DeleteSession_wf id : Inv wf (DeleteSession id).
Proof.
  apply writeq_Inv. intros db Hwf. apply wf_withSessions; [done|]. destruct (wf_sessions _ Hwf) as [H1 H2]. split.
  - intros k s [_ Hk]%lookup_delete_Some. eauto.
  - intros k k' a b [_ Hk]%lookup_delete_Some [_ Hk']%lookup_delete_Some. eauto.
Qed.

(** One invite changes, keeping its token, issuer and instance. *)
Lemma invitesOK_update U I m k v v' :
  invitesOK U I m -> m !! k = Some v -> vToken v' = vToken v -> inviteOK U I v' -> invitesOK U I (<[k := v']> m).
Proof.
  intros [H1 H2] Hk Et Hv. split.
  - intros j x [[<- <-]|[_ Hj]]%lookup_insert_Some; eauto.
  - intros i j x y [[<- <-]|[_ Hi]]%lookup_insert_Some [[<- <-]|[_ Hj]]%lookup_insert_Some E; eauto; rewrite Et in E; eauto.
Qed.

#[export] Instance claimInvite_wf id now : Inv wf (claimInvite id now).
Proof.
  apply stmt_Inv. intros db b db' H Hwf. destruct (tInvites db !! id) as [v|] eqn:E; [|by injection H as _ <-].
  destruct (Live now v); injection H as _ <-; [|done]. apply wf_withInvites; [done|].
  eapply invitesOK_update; [exact (wf_invites _ Hwf)|exact E|done|].
  destruct (ok_invite _ _ _ (wf_invites _ Hwf) _ _ E). split; simpl; eauto.
Qed.

#[export] Instance nameRedeemer_wf id u : Inv wf (nameRedeemer id u).
Proof.
  apply stmt_Inv. intros db b db' H Hwf. destruct (tInvites db !! id) as [v|] eqn:E; [|by injection H as _ <-].
  destruct (refUser (Some u) db) eqn:Hu; [|done]. injection H as _ <-. apply wf_withInvites; [done|].
  eapply invitesOK_update; [exact (wf_invites _ Hwf)|exact E|done|].
  destruct (ok_invite _ _ _ (wf_invites _ Hwf) _ _ E). split; simpl; [eauto..|].
  intros b0 [= <-]. exact (refUser_Some _ _ _ Hu eq_refl).
Qed.

#[export] Instance CreateInvite_wf id v : Inv wf (CreateInvite id v).
Proof.
  apply stmt_Inv. intros db x db' H Hwf. destruct (match vRole v with None => true | Some r => grantRoleOK r end) eqn:Hr; [|done].
  simpl negb in H. cbv iota in H. destruct (bool_decide (is_Some (tInvites db !! id))) eqn:Hid; [done|].
  destruct (bool_decide (Exists _ _)) eqn:Ht; [done|]. destruct (refUser _ _) eqn:Hu; [|done].
  destruct (refInst _ _) eqn:Hi; [|done]. injection H as _ <-.
  apply wf_withInvites; [done|]. destruct (wf_invites _ Hwf) as [H1 H2].
  pose proof (fresh_token vToken _ _ Ht) as Hfree. split.
  - intros k v' [[<- <-]|[_ Hk]]%lookup_insert_Some; [|eauto]. split; [exact (refUser_Some _ _ _ Hu eq_refl)| | |].
    + intros i Ei. exact (refInst_Some _ _ _ Hi Ei).
    + intros r Er. simpl in Er. by rewrite Er in Hr.
    + done.
  - intros k k' a b [[<- <-]|[_ Hk]]%lookup_insert_Some [[<- <-]|[_ Hk']]%lookup_insert_Some E; [done| | |eauto].
    + by destruct (Hfree _ _ Hk').
    + by destruct (Hfree _ _ Hk).
Qed.

#[export] Instance RevokeInvite_wf id now : Inv wf (RevokeInvite id now).
Proof.
  apply writeq_Inv. intros db Hwf. apply wf_withInvites; [done|]. destruct (wf_invites _ Hwf) as [H1 H2].
  assert (forall k v, alter (revokeRow now) id (tInvites db) !! k = Some v ->
    exists v0, tInvites db !! k = Some v0 /\ (v = v0 \/ v = revokeRow now v0)) as Hb.
  { intros k v [(<- & v0 & ? & ->)|[_ ?]]%lookup_alter_Some; eauto. }
  split.
  - intros k v (v0 & Hk & Hv)%Hb. destruct (H1 _ _ Hk). destruct Hv; subst v; split; simpl; eauto.
  - intros k k' a b (a0 & Ha & Ea)%Hb (b0 & Hb0 & Eb)%Hb E. apply (H2 _ _ _ _ Ha Hb0).
    destruct Ea, Eb; subst a b; exact E.
Qed.

(** ** Every operation *)

Ltac unfold_op :=
  unfold CreateUserAudited, createUser, CreateFirstAdmin, CountUsers, UpdateUserAudited, updateUserRoleAndDisabled,
    SetUserPreferences, SetUserPassword, setUserPassword, SetUserPasswordAudited, SetUserPasswordKeepingSession,
    DeleteUserAudited, UpdateLastLogin, ReplaceGrant, DeleteGrant, DeleteSessionsForUser, CreateInviteAudited,
    RedeemInviteToUser, RevokeInviteAudited, refuseOwner, isOwner, otherSessionIDs, checkGrantTargets,
    grantRecordFor, writeGrant, applyInviteGrant, lift, void, createUser.

Section Everything.
Context `{Digest}.

#[export] Instance perform_wf op : Inv wf (perform op).
Proof. destruct op; cbn [perform]; unfold_op; apply _. Qed.

Lemma exec_Inv (P : UDB -> Prop) (ops : list (PanelOp * faults)) :
  (forall op, Inv P (perform op)) -> forall db, P db -> P (exec ops db).2.
Proof.
  intros Hop. induction ops as [|[op fs] ops IH]; intros db Hp; [done|]. cbn [exec].
  destruct (perform op (db, fs)) as [r s] eqn:E. pose proof (Hop op _ _ _ E Hp) as Hs. specialize (IH _ Hs).
  destruct (exec ops s.1). exact IH.
Qed.

(** ** The owner *)

(** [o] is the owner, an admin and not disabled. *)
Definition owns (o : string) (db : UDB) : Prop :=
  exists r, tUsers db !! o = Some r /\ uOwner r = true /\ uRole r = RoleAdmin /\ uDisabled r = false.

#[export] Instance owns_Trailless o : Trailless (owns o).
Proof. by split. Qed.

(** A statement that leaves the users table alone. *)
Lemma owns_frame o {A} (f : UDB -> result TxErr (A * UDB)) :
  (forall db a db', f db = Ok (a, db') -> tUsers db' = tUsers db) -> Inv (owns o) (stmt f).
Proof. intros Hf. apply stmt_Inv. unfold owns. intros db a db' E Hr. by rewrite (Hf _ _ _ E). Qed.

Ltac frame_users := apply owns_frame; intros ? ? ? E; repeat case_hyp E; first [discriminate E | by injection E as _ <-].

#[export] Instance writeq_owns o g :
  (forall db, tUsers (g db) = tUsers db) -> Inv (owns o) (writeq g).
Proof. intros Hg. apply writeq_Inv. unfold owns. intros db Hr. by rewrite Hg. Qed.

#[export] Instance deleteSessionsOf_owns o id : Inv (owns o) (deleteSessionsOf id).
Proof. by apply writeq_owns. Qed.
#[export] Instance insertGrant_owns o u i g : Inv (owns o) (insertGrant u i g).
Proof. frame_users. Qed.
#[export] Instance updateGrant_owns o u i f : Inv (owns o) (updateGrant u i f).
Proof. frame_users. Qed.
#[export] Instance CreateSession_owns o id s : Inv (owns o) (CreateSession id s).
Proof. frame_users. Qed.
#[export] Instance TouchSession_owns o id now ttl th : Inv (owns o) (TouchSession id now ttl th).
Proof. apply writeq_owns. intros db. repeat case_goal; reflexivity. Qed.
#[export] Instance CreateInvite_owns o id v : Inv (owns o) (CreateInvite id v).
Proof. frame_users. Qed.
#[export] Instance claimInvite_owns o id now : Inv (owns o) (claimInvite id now).
Proof. frame_users. Qed.
#[export] Instance nameRedeemer_owns o id u : Inv (owns o) (nameRedeemer id u).
Proof. frame_users. Qed.

(** An account is inserted under a new id, an update in place keeps what
    ownership is made of. *)
#[export] Instance insertUser_owns o id r : Inv (owns o) (insertUser id r).
Proof.
  apply stmt_Inv. intros db u db' E (r0 & Hr & Hrest). repeat case_hyp E; try discriminate E; injection E as _ <-.
  exists r0. split; [|done]. simpl. rewrite lookup_insert_ne; [done|]. intros ->.
  match goal with H : bool_decide _ || _ || _ = false |- _ => apply orb_false_iff in H as [[H _]%orb_false_iff _] end.
  apply bool_decide_eq_false in Heqb0. apply Heqb0. by exists r0.
Qed.

Definition keepsOwner (f : UserRow -> UserRow) : Prop := forall r,
  uOwner r = true -> uRole r = RoleAdmin -> uDisabled r = false ->
  uOwner (f r) = true /\ uRole (f r) = RoleAdmin /\ uDisabled (f r) = false.

Lemma owns_insert o id r (db : UDB) (f : UserRow -> UserRow) :
  (id = o -> keepsOwner f) -> tUsers db !! id = Some r -> owns o db ->
  owns o (withUsers (<[id := f r]> (tUsers db)) db).
Proof.
  intros Hf Hid (r0 & Hr & Ho & Ha & Hd). unfold owns. simpl. destruct (decide (id = o)) as [->|Hne].
  - rewrite Hr in Hid. injection Hid as ->. exists (f r). rewrite lookup_insert_eq. split; [done|]. by apply Hf.
  - exists r0. by rewrite lookup_insert_ne by done.
Qed.

Lemma updateUser_owns o id f : (id = o -> keepsOwner f) -> Inv (owns o) (updateUser id f).
Proof.
  intros Hf. apply stmt_Inv. intros db b db' E Hp. case_hyp E; [|by injection E as _ <-].
  case_hyp E; [|done]. injection E as _ <-. by apply owns_insert.
Qed.

#[export] Instance SetUserPasswordByUsername_owns o name hash : Inv (owns o) (SetUserPasswordByUsername name hash).
Proof.
  unfold SetUserPasswordByUsername. apply tbind_Inv; [|apply _]. apply stmt_Inv. intros db b db' E Hp.
  destruct (byName name db) as [[id r]|] eqn:Hb; [|by injection E as _ <-]. injection E as _ <-.
  apply byName_Some in Hb as [Hb _]. by apply (owns_insert o id r db (setHash hash)).
Qed.

Lemma deleteUser_owns o id : id <> o -> Inv (owns o) (deleteUser id).
Proof.
  intros Hne. unfold deleteUser. apply tbind_Inv; [|apply _]. apply stmt_Inv. intros db b db' E (r & Hr & Hrest).
  case_hyp E; injection E as _ <-; exists r; [|done]. split; [|done]. simpl. by rewrite lookup_delete_ne.
Qed.

Lemma refuseOwner_Ok id s u s' : refuseOwner id s = (Ok u, s') ->
  s'.1 = s.1 /\ forall r, tUsers s.1 !! id = Some r -> uOwner r = false.
Proof.
  unfold refuseOwner, isOwner. intros (owner & s1 & [Ho Hs]%readq_Ok & E)%tbind_Ok.
  destruct owner; [done|]. injection E as _ <-. split; [done|]. intros r Hr. by rewrite Hr in Ho.
Qed.

(** Behind the guard, the user is not the owner. *)
Lemma guarded_owns o id {A} (m : UTx A) :
  (id <> o -> Inv (owns o) m) -> Inv (owns o) (let! _ := refuseOwner id in m).
Proof.
  intros Hm s r s' E Hp. unfold tbind in E. destruct (refuseOwner id s) as [[u|e] s1] eqn:E1.
  - apply refuseOwner_Ok in E1 as [Hs Hno]. rewrite <- Hs in Hp. eapply (Hm _ s1); [exact E|exact Hp].
    Unshelve. intros ->. destruct Hp as (r0 & Hr & Ho & _). rewrite Hs in Hr. by rewrite (Hno _ Hr) in Ho.
  - injection E as _ <-. unfold refuseOwner, isOwner, tbind in E1.
    destruct (readq _ s) as [[b|x] s2] eqn:E2; apply readq_state in E2; [destruct b|]; injection E1 as _ <-; by rewrite E2.
Qed.

#[export] Instance UpdateUserAudited_owns o id role disabled revoke aid now a :
  Inv (owns o) (UpdateUserAudited id role disabled revoke aid now a).
Proof.
  unfold UpdateUserAudited, updateUserRoleAndDisabled. apply inTx_Inv.
  destruct (negb (bool_decide (role = RoleAdmin)) || disabled) eqn:Hc.
  - apply guarded_owns. intros Hne. apply tbind_Inv; [|apply _].
    apply tbind_Inv; [|apply _]. by apply updateUser_owns.
  - apply orb_false_iff in Hc as [Hr%negb_false_iff%bool_decide_eq_true ->].
    do 2 (apply tbind_Inv; [try apply _|intros _]); [|apply _].
    apply tbind_Inv; [|apply _]. apply updateUser_owns. intros _ r Ho _ _. by subst role.
Qed.

#[export] Instance DeleteUserAudited_owns o id aid now a : Inv (owns o) (DeleteUserAudited id aid now a).
Proof.
  unfold DeleteUserAudited. apply inTx_Inv, guarded_owns. intros Hne.
  apply tbind_Inv; [by apply deleteUser_owns|apply _].
Qed.

#[local] Hint Extern 2 (Inv (owns _) (updateUser _ _)) => (apply updateUser_owns; by intros) : typeclass_instances.
#[local] Hint Extern 2 (Inv (owns _) (writeq _)) => (apply writeq_owns; done) : typeclass_instances.

#[export] Instance perform_owns o op : Inv (owns o) (perform op).
Proof.
  destruct op; cbn [perform]; first [apply _ | unfold_op; try unfold DeleteSession; try unfold RevokeInvite; apply _].
Qed.

(** ** The first admin *)

Lemma owns_size o db : owns o db -> size (tUsers db) <> 0%nat.
Proof. intros (r & Hr & _) H0%map_size_empty_iff. by rewrite H0 in Hr. Qed.

Lemma CreateFirstAdmin_Ok id name hash now s s' : CreateFirstAdmin id name hash now s = (Ok tt, s') ->
  tUsers s.1 = ∅ /\ tUsers s'.1 = {[id := newUserRow name hash RoleAdmin true now]}.
Proof.
  unfold CreateFirstAdmin. intros (fs & s1 & E & ->)%inTx_Ok.
  apply tbind_Ok in E as (n & s2 & [Hn Hs]%readq_Ok & E). simpl in Hn, Hs.
  destruct (n =? 0)%nat eqn:H0; [|done]. apply Nat.eqb_eq in H0. cbn [negb] in E.
  rewrite H0 in Hn. symmetry in Hn. apply map_size_empty_iff in Hn. split; [done|].
  unfold onUnique in E. destruct (insertUser id _ s2) as [[u|x] s3] eqn:Ei; [|by destruct x].
  injection E as _ <-. apply stmt_Ok in Ei as [Ei _]. repeat case_hyp Ei; try discriminate Ei.
  injection Ei as _ <-. simpl. by rewrite Hs, Hn.
Qed.

Lemma CreateFirstAdmin_owns id name hash now s s' :
  CreateFirstAdmin id name hash now s = (Ok tt, s') -> owns id s'.1.
Proof.
  intros [_ H2]%CreateFirstAdmin_Ok. unfold owns. rewrite H2, lookup_singleton_eq.
  by eexists (newUserRow name hash RoleAdmin true now).
Qed.

Definition firstAdminOk (x : PanelOp * result TxErr unit) : bool :=
  match x with (OFirstAdmin _ _ _ _, Ok _) => true | _ => false end.

Lemma no_first_admin_owned o ops : forall db, owns o db -> filter firstAdminOk (exec ops db).1 = [].
Proof.
  induction ops as [|[op fs] ops IH]; intros db Hp; [done|]. cbn [exec].
  destruct (perform op (db, fs)) as [r s] eqn:E. pose proof (perform_owns o op _ _ _ E Hp) as Hs.
  specialize (IH _ Hs). destruct (exec ops s.1) as [rs db'] eqn:Ee. cbn [fst]. rewrite filter_cons_False; [exact IH|].
  destruct op; try (by intros []). destruct r as [[]|]; [|by intros []]. intros _. cbn [perform] in E.
  apply CreateFirstAdmin_Ok in E as [He _]. apply owns_size in Hp. cbn [fst] in He. by rewrite He in Hp.
Qed.

End Everything.

(** ** Properties *)


(** C23. The owner outlives every operation: once an account is the owner, it
    stays the owner, an admin and enabled through any sequence of operations,
    whatever fails, so the panel always keeps an admin. *)
Theorem owner_survives `{Digest} (ops : list (PanelOp * faults)) (o : string) (db : UDB) :
  owns o db -> owns o (exec ops db).2.
Proof. apply exec_Inv. apply perform_owns. Qed.

(** C30. A panel is bootstrapped once: in any sequence of operations, with any
    faults, at most one creation of a first admin succeeds, and one that
    succeeds leaves its account the owner. *)
Theorem first_admin_once `{Digest} (ops : list (PanelOp * faults)) (db : UDB) :
  (length (filter firstAdminOk (exec ops db).1) <= 1)%nat /\
  (Exists firstAdminOk (exec ops db).1 -> exists o, owns o (exec ops db).2).
Proof.
  revert db. induction ops as [|[op fs] ops IH]; intros db; [split; [by cbn; lia|by intros ?%Exists_nil]|].
  cbn [exec]. destruct (perform op (db, fs)) as [r s] eqn:E.
  destruct (exec ops s.1) as [rs db'] eqn:Ee. cbn [fst snd]. specialize (IH s.1). rewrite Ee in IH. cbn [fst snd] in IH.
  destruct (firstAdminOk (op, r)) eqn:Hf.
  - destruct op; try done. destruct r as [[]|]; [|done]. cbn [perform] in E. apply CreateFirstAdmin_owns in E as Hown.
    pose proof (no_first_admin_owned id ops _ Hown) as Hnil. rewrite Ee in Hnil.
    cbn [fst] in Hnil. rewrite filter_cons_True by done. rewrite Hnil. split; [done|]. intros _. exists id.
    pose proof (exec_Inv (owns id) ops (perform_owns id) s.1 Hown) as Hend. by rewrite Ee in Hend.
  - rewrite filter_cons_False by (rewrite Hf; by intros []). destruct IH as [IH1 IH2]. split; [done|].
    intros [Hx|Hx]%Exists_cons; [rewrite Hf in Hx; by destruct Hx|by apply IH2].
Qed.
