(* ===== verification/AccountSafe.v ===== *)
(** What the account operations promise on every branch: a password change and
    the sessions it ends, conditional grants, the grants table behind [Can],
    single-use invites and the lifetime of a session. *)
From S2P Require Import Prelude Lifecycle Sql Store Authz UserStore UserLaws.

(** ** Shared steps *)

Lemma writeAudit_Ok i now e s u s' : writeAudit i now e s = (Ok u, s') ->
  exists row, s'.1 = withTrail (<[(if bool_decide (aID e = "") then i else aID e) := row]> (tAudit s.1)) s.1 /\
    tAudit s.1 !! (if bool_decide (aID e = "") then i else aID e) = None /\ rAction row = aAction e.
Proof.
  unfold writeAudit. destruct (writeAuditLog _ _ _ _) as [[v|x] [c fs]] eqn:E; [|done]. intros [= <- <-].
  unfold writeAuditLog in E. apply stmt_Ok in E as [E _]. cbv zeta in E. cbn [fst] in E.
  destruct (decide _) as [|Hn]; [done|]. injection E as _ <-. eexists. split; [reflexivity|].
  split; [|reflexivity]. by apply eq_None_not_Some.
Qed.

Lemma updateUser_Ok id f s n s' : updateUser id f s = (Ok n, s') ->
  (n = false /\ tUsers s.1 !! id = None /\ s'.1 = s.1) \/
  (n = true /\ exists r, tUsers s.1 !! id = Some r /\ s'.1 = withUsers (<[id := f r]> (tUsers s.1)) s.1).
Proof.
  intros [E _]%stmt_Ok. destruct (tUsers s.1 !! id) as [r|] eqn:Er.
  - destruct (roleOK _); [|done]. injection E as <- <-. right. eauto.
  - injection E as <- <-. by left.
Qed.

(** An UPDATE that must find its row. *)
Lemma updateUser_must_Ok id f e s u s' :
  (let! n := updateUser id f in must n e) s = (Ok u, s') ->
  exists r, tUsers s.1 !! id = Some r /\ s'.1 = withUsers (<[id := f r]> (tUsers s.1)) s.1.
Proof.
  intros (n & s1 & [(-> & _ & _)|(-> & r & Hr & Hs)]%updateUser_Ok & E)%tbind_Ok; [done|].
  injection E as _ <-. by exists r.
Qed.

Lemma writeq_Ok {D} (f : D -> D) s u s' : writeq f s = (Ok u, s') -> s'.1 = f s.1.
Proof. intros [E _]%stmt_Ok. by injection E. Qed.

Lemma must_Ok {D} n e s u s' : @must D n e s = (Ok u, s') -> n = true /\ s' = s.
Proof. destruct n; [|done]. intros [= _ <-]. done. Qed.

(** The sessions a cookie can resolve to. *)
Lemma sessionAndUser_Some token n1 n2 db sid x u : sessionAndUser token n1 n2 db = Some (sid, x, u) ->
  exists r, tSessions db !! sid = Some x /\ sessionLive token n1 n2 x = true /\
    tUsers db !! sUser x = Some r /\ u = joinedUser (sUser x) r.
Proof.
  unfold sessionAndUser. destruct (head _) as [[k y]|] eqn:E; [|done].
  apply find_row_Some in E as [Hk [Hl _]]. destruct (tUsers db !! sUser y) as [r|] eqn:Er; [|done].
  intros [= <- <- <-]. by exists r.
Qed.

(** ** Passwords and sessions *)

Lemma otherSessions_elem id keep db k :
  k ∈ otherSessions id keep db <-> exists x, tSessions db !! k = Some x /\ sUser x = id /\ k <> keep.
Proof.
  unfold otherSessions. rewrite list_elem_of_fmap. split.
  - intros ([k' x] & -> & [[H1 H2] H3%elem_of_map_to_list]%list_elem_of_filter). eauto.
  - intros (x & Hk & Hu & Hne). exists (k, x). split; [done|].
    apply list_elem_of_filter. split; [done|]. by apply elem_of_map_to_list.
Qed.

(** Changing a password keeping one session: the stored hash and nothing
    else of the account changes, exactly the account's other sessions are
    deleted and reported, one audit row is added, and only the owner may do it
    to the owner; afterwards the account's one session that can authenticate is
    the kept one. On any failure nothing changed. *)
Theorem SetUserPasswordKeepingSession_spec (id hash keep aid : string) (now : Time) (audit : AuditEntry) (s : UTxS) :
  match SetUserPasswordKeepingSession id hash keep aid now audit s with
  | (Err _, s') => s'.1 = s.1
  | (Ok ids, s') =>
      (exists r, tUsers s.1 !! id = Some r /\ tUsers s'.1 = <[id := setHash hash r]> (tUsers s.1) /\
         (uOwner r = true -> aUserID audit = id)) /\
      (forall k, k ∈ ids <-> exists x, tSessions s.1 !! k = Some x /\ sUser x = id /\ k <> keep) /\
      (forall k x, tSessions s'.1 !! k = Some x <-> tSessions s.1 !! k = Some x /\ k ∉ ids) /\
      (forall token n1 n2 sid x u, sessionAndUser token n1 n2 s'.1 = Some (sid, x, u) -> pID u = id -> sid = keep) /\
      (exists k row, tAudit s.1 !! k = None /\ tAudit s'.1 = <[k := row]> (tAudit s.1) /\ rAction row = aAction audit) /\
      tGrants s'.1 = tGrants s.1 /\ tInvites s'.1 = tInvites s.1
  end.
Proof.
  destruct (SetUserPasswordKeepingSession _ _ _ _ _ _ s) as [[ids|e] s'] eqn:E; [|by apply inTx_Err in E].
  apply inTx_Ok in E as (fs & s1 & E & ->). apply tbind_Ok in E as (u0 & s2 & Hg & E).
  apply tbind_Ok in E as (u1 & s3 & Hp & E). apply tbind_Ok in E as (ids' & s4 & [Hids Hs4]%readq_Ok & E).
  apply tbind_Ok in E as (u2 & s5 & Hd%writeq_Ok & E). apply tbind_Ok in E as (u3 & s6 & Ha%writeAudit_Ok & E).
  injection E as -> ->. apply updateUser_must_Ok in Hp as (r & Hr & Hs3).
  assert (s2.1 = s.1 /\ (uOwner r = true -> aUserID audit = id)) as [Hs2 Hown].
  { destruct (bool_decide_reflect (aUserID audit = id)) as [Hself|Hself]; [by injection Hg as _ <-|].
    apply refuseOwner_Ok in Hg as [Hs2 Hno]. split; [exact Hs2|]. rewrite Hs2 in Hr. by rewrite (Hno _ Hr). }
  destruct Ha as (row & Hs6 & Hfresh & Hact). rewrite Hd in Hs6, Hfresh. rewrite Hs4, Hs3, Hs2 in *.
  cbn in Hs6, Hfresh, Hids.
  assert (forall k, k ∈ ids <-> exists x, tSessions s.1 !! k = Some x /\ sUser x = id /\ k <> keep) as Hel.
  { intros k. rewrite Hids. exact (otherSessions_elem id keep (withUsers (<[id:=setHash hash r]> (tUsers s.1)) s.1) k). }
  assert (forall k x, tSessions s1.1 !! k = Some x <-> tSessions s.1 !! k = Some x /\ k ∉ ids) as Hleft.
  { intros k x. rewrite Hs6. cbn. rewrite map_lookup_filter_Some, Hel. cbn. naive_solver. }
  rewrite Hs6 in *. cbn in *. split; [by exists r|]. split; [exact Hel|]. split; [exact Hleft|]. split.
  - intros token n1 n2 sid x u (r' & Hx & _ & _ & ->)%sessionAndUser_Some. cbn. intros Hu.
    apply Hleft in Hx as [Hx Hnot]. rewrite Hel in Hnot. destruct (decide (sid = keep)); [done|].
    destruct Hnot. by exists x.
  - split; [by exists (if bool_decide (aID audit = "") then aid else aID audit), row|done].
Qed.

Lemma UpdateUserAudited_effect (id role : string) (disabled revoke : bool) (aid : string) (now : Time)
    (audit : AuditEntry) (s : UTxS) :
  match UpdateUserAudited id role disabled revoke aid now audit s with
  | (Err _, s') => s'.1 = s.1
  | (Ok _, s') =>
      (exists r, tUsers s.1 !! id = Some r /\ tUsers s'.1 = <[id := setRole role disabled r]> (tUsers s.1) /\
         (uOwner r = true -> role = RoleAdmin /\ disabled = false)) /\
      (revoke = false -> tSessions s'.1 = tSessions s.1) /\
      (revoke = true -> forall token n1 n2 sid x u, sessionAndUser token n1 n2 s'.1 = Some (sid, x, u) -> pID u <> id) /\
      tGrants s'.1 = tGrants s.1 /\ tInvites s'.1 = tInvites s.1
  end.
Proof.
  destruct (UpdateUserAudited _ _ _ _ _ _ _ s) as [[u|e] s'] eqn:E; [|by apply inTx_Err in E].
  apply inTx_Ok in E as (fs & s1 & E & ->). apply tbind_Ok in E as (u0 & s2 & Hg & E).
  apply tbind_Ok in E as (u1 & s3 & Hp & E). apply tbind_Ok in E as (u2 & s4 & Hd & (row & Hs1 & _)%writeAudit_Ok).
  apply updateUser_must_Ok in Hp as (r & Hr & Hs3).
  assert (s2.1 = s.1 /\ (uOwner r = true -> role = RoleAdmin /\ disabled = false)) as [Hs2 Hown].
  { destruct (negb (bool_decide (role = RoleAdmin)) || disabled) eqn:Hc.
    - apply refuseOwner_Ok in Hg as [Hs2 Hno]. split; [exact Hs2|]. rewrite Hs2 in Hr. by rewrite (Hno _ Hr).
    - apply orb_false_iff in Hc as [Hc%negb_false_iff%bool_decide_eq_true ->]. injection Hg as _ <-. done. }
  rewrite Hs2 in Hr, Hs3. destruct revoke.
  - apply writeq_Ok in Hd. rewrite Hd, Hs3 in Hs1. rewrite Hs1. cbn.
    split; [by exists r|]. split; [done|]. split; [|done]. intros _ token n1 n2 sid x u' Hx.
    apply sessionAndUser_Some in Hx as (r' & Hx & _ & _ & ->). cbn in Hx |- *.
    by apply map_lookup_filter_Some in Hx as [_ Hx].
  - injection Hd as _ <-. rewrite Hs3 in Hs1. rewrite Hs1. cbn. split; [by exists r|]. done.
Qed.

(** Changing an account: the role and the disabled flag are set and
    nothing else of the row; the owner cannot be demoted or disabled; with
    sessions revoked, none of the account's sessions is left to authenticate.
    On any failure nothing changed. *)
Theorem UpdateUserAudited_spec (id role : string) (disabled revoke : bool) (aid : string) (now : Time)
    (audit : AuditEntry) (s : UTxS) :
  match UpdateUserAudited id role disabled revoke aid now audit s with
  | (Err _, s') => s'.1 = s.1
  | (Ok _, s') =>
      (exists r, tUsers s.1 !! id = Some r /\ tUsers s'.1 = <[id := setRole role disabled r]> (tUsers s.1) /\
         (uOwner r = true -> role = RoleAdmin /\ disabled = false)) /\
      (revoke = false -> tSessions s'.1 = tSessions s.1) /\
      (revoke = true -> forall token n1 n2 sid x u, sessionAndUser token n1 n2 s'.1 = Some (sid, x, u) -> pID u <> id) /\
      tGrants s'.1 = tGrants s.1 /\ tInvites s'.1 = tInvites s.1
  end.
Proof. exact (UpdateUserAudited_effect id role disabled revoke aid now audit s). Qed.

(** ** Conditional grants *)

Lemma insertGrant_Ok u i g s x s' : insertGrant u i g s = (Ok x, s') ->
  tGrants s.1 !! (u, i) = None /\ s'.1 = withGrants (<[(u, i) := g]> (tGrants s.1)) s.1 /\
  grantRoleOK (gRole g) = true.
Proof.
  intros [E _]%stmt_Ok. destruct (grantRoleOK (gRole g)); [|done]. cbn [negb] in E.
  destruct (decide _) as [|Hn]; [done|]. case_hyp E; [|done]. injection E as _ <-.
  split; [by apply eq_None_not_Some|done].
Qed.

Lemma updateGrant_Ok u i f s x s' g : tGrants s.1 !! (u, i) = Some g -> updateGrant u i f s = (Ok x, s') ->
  s'.1 = withGrants (<[(u, i) := f g]> (tGrants s.1)) s.1.
Proof.
  intros Hg [E _]%stmt_Ok. rewrite Hg in E. case_hyp E; [|done]. by injection E as _ <-.
Qed.

Lemma auditLift_Ok {A} (r : result TxErr A) s a s' : lift r s = (Ok a, s') -> r = Ok a /\ s' = s.
Proof. destruct r; [|done]. by intros [= <- <-]. Qed.

Section Conditional.
Context `{Digest}.

(** What a condition asks of the stored row. *)
Definition conditionMet (c : GrantCondition) (k : string * string) (row : option GrantRow) : Prop :=
  if CreateOnly c then row = None
  else exists g, row = Some g /\ Revision (scanGrant k g) = condRevision c.

Lemma checkGrantCondition_met c k row :
  checkGrantCondition (scanGrant k <$> row) c = Ok tt <-> conditionMet c k row.
Proof.
  unfold checkGrantCondition, conditionMet. destruct (CreateOnly c), row as [g|]; cbn; try naive_solver.
  case_bool_decide; naive_solver.
Qed.

Lemma checkGrantTargets_Ok u i s x s' : checkGrantTargets u i s = (Ok x, s') ->
  s'.1 = s.1 /\ is_Some (tUsers s.1 !! u) /\ is_Some (tInsts s.1 !! i).
Proof.
  unfold checkGrantTargets. intros (b & s1 & [Hb Hs1]%readq_Ok & E)%tbind_Ok.
  apply tbind_Ok in E as (v & s2 & [Hbt ->]%must_Ok & E). apply tbind_Ok in E as (c & s3 & [Hc Hs3]%readq_Ok & E).
  apply must_Ok in E as [Hct ->]. rewrite Hs3, Hs1. split; [done|]. subst b c. rewrite Hs1 in Hct.
  split; [exact (refUser_Some _ _ _ Hct eq_refl)|exact (refInst_Some _ _ _ Hbt eq_refl)].
Qed.

(** The row a successful write stores: an existing expiry is kept. *)
Definition writtenGrant (role : string) (perms : list string) (by_ : string) (now : Time) (old : option GrantRow) : GrantRow :=
  mkGrantRow role perms (Some by_) now (old ≫= gExpires).

Lemma writeGrant_Ok u i role perms by_ now s x s' :
  writeGrant (scanGrant (u, i) <$> tGrants s.1 !! (u, i)) u i role perms by_ now s = (Ok x, s') ->
  s'.1 = withGrants (<[(u, i) := writtenGrant role perms by_ now (tGrants s.1 !! (u, i))]> (tGrants s.1)) s.1.
Proof.
  unfold writeGrant. destruct (tGrants s.1 !! (u, i)) as [g|] eqn:Hg; cbn [fmap option_fmap option_map].
  - intros E. by rewrite (updateGrant_Ok _ _ _ _ _ _ g Hg E).
  - intros (_ & -> & _)%insertGrant_Ok. done.
Qed.

End Conditional.

(** A conditional grant write is atomic and loses no update: it succeeds
    only if the instance and the user exist and the row is still the one the
    condition names (absent, or of that revision), stores exactly the new role
    and permissions with the expiry kept, and answers the stored row. On any
    failure, a stale revision included, nothing changed. *)
Theorem ReplaceGrant_spec `{Digest} (user inst role : string) (perms : list string) (c : GrantCondition)
    (aid : string) (now : Time) (audit : AuditEntry) (s : UTxS) :
  match ReplaceGrant user inst role perms c aid now audit s with
  | (Err _, s') => s'.1 = s.1
  | (Ok (stored, created), s') =>
      let old := tGrants s.1 !! (user, inst) in
      let new := writtenGrant role perms (aUserID audit) now old in
      conditionMet c (user, inst) old /\
      is_Some (tUsers s.1 !! user) /\ is_Some (tInsts s.1 !! inst) /\
      tGrants s'.1 = <[(user, inst) := new]> (tGrants s.1) /\
      stored = Some (scanGrant (user, inst) new) /\ created = CreateOnly c /\
      tUsers s'.1 = tUsers s.1 /\ tSessions s'.1 = tSessions s.1 /\ tInvites s'.1 = tInvites s.1
  end.
Proof.
  destruct (ReplaceGrant _ _ _ _ _ _ _ _ s) as [[[stored created]|e] s'] eqn:E; [|by apply inTx_Err in E].
  apply inTx_Ok in E as (fs & s1 & E & ->). apply tbind_Ok in E as (u0 & s2 & (Hs2 & Hu & Hi)%checkGrantTargets_Ok & E).
  apply tbind_Ok in E as (cur & s3 & [Hcur Hs3]%readq_Ok & E). rewrite Hs2 in Hcur, Hs3.
  apply tbind_Ok in E as ([] & s4 & [Hc ->]%auditLift_Ok & E).
  apply tbind_Ok in E as (u1 & s5 & Hw & E). apply tbind_Ok in E as (u2 & s6 & (row & Hs6 & _)%writeAudit_Ok & E).
  apply tbind_Ok in E as (st & s7 & [Hst Hs7]%readq_Ok & E). injection E as <- <- <-.
  cbn [fst] in *. subst cur. rewrite <- Hs3 in Hw. apply writeGrant_Ok in Hw. rewrite Hs3 in Hw.
  rewrite Hs7, Hst, Hs6, Hw. cbn [tGrants withTrail withGrants]. rewrite lookup_insert_eq.
  apply checkGrantCondition_met in Hc as Hm. split; [exact Hm|]. split; [exact Hu|]. split; [exact Hi|].
  split; [done|]. split; [done|]. split; [|done]. unfold conditionMet in Hm.
  destruct (CreateOnly c); [rewrite Hm; done|]. destruct Hm as (g & -> & _). done.
Qed.

(** ** The grants table behind [Can] *)

(** The two reads that authorize, as the lookups [Can] and [VisibleInstances]
    are written against. *)
Definition tableGrants (now : Time) (db : UDB) : Authz.Grants := {|
  Authz.GrantFor u i := Some (grantFor now u i db);
  Authz.GrantedInstances u := Some (grantedInstances now u db)
|}.

Lemma grantedInstances_elem now u db i :
  i ∈ grantedInstances now u db <-> is_Some (grantFor now u i db).
Proof.
  unfold grantedInstances, grantFor. rewrite merge_sort_Permutation, list_elem_of_fmap. split.
  - intros ([[u' i'] g] & -> & [[<- Hl] Hg%elem_of_map_to_list]%list_elem_of_filter). cbn in *.
    rewrite Hg, Hl. by eexists.
  - destruct (tGrants db !! (u, i)) as [g|] eqn:Hg; [|by intros []]. destruct (liveGrant now g) eqn:Hl; [|by intros []].
    intros _. exists ((u, i), g). split; [done|]. apply list_elem_of_filter. split; [done|]. by apply elem_of_map_to_list.
Qed.

Lemma grantRole_views role : grantRoleOK role = true -> InstanceView ∈ roleActions role.
Proof.
  unfold grantRoleOK. intros [->%bool_decide_eq_true| ->%bool_decide_eq_true]%orb_true_iff;
    apply (bool_decide_unpack _); by vm_compute.
Qed.

(** What a user is shown is what they may open: over well-formed tables,
    [VisibleInstances] lists an existing instance exactly when [Can] lets the
    user view it, so an expired, missing or foreign grant neither lists nor
    opens one. *)
Theorem visible_iff_viewable (now : Time) (db : UDB) (u : option Authz.User) (inst : string) :
  wf db -> is_Some (tInsts db !! inst) -> inst <> "" ->
  match @VisibleInstances (tableGrants now db) u with
  | None => False
  | Some (ids, all) => (all = true \/ inst ∈ ids) <-> @Can (tableGrants now db) u InstanceView inst = true
  end.
Proof.
  intros Hwf Hinst Hne. pose proof (@Can_char (tableGrants now db) u InstanceView inst) as HC. unfold VisibleInstances.
  destruct u as [u|]; [|cbv beta iota; rewrite HC; set_solver].
  destruct (Disabled u) eqn:Hd; [cbv beta iota; rewrite HC; set_solver|].
  destruct (bool_decide_reflect (userRole u = RoleAdmin)) as [Ha|Ha]; cbn [Authz.GrantedInstances tableGrants]; rewrite HC; clear HC.
  { split; [|by left]. intros _. exists u. auto. }
  rewrite grantedInstances_elem. split.
  - intros [?|[g Hg]]; [done|]. exists u. split; [done|]. split; [done|]. right. split; [done|]. exists g.
    cbn. rewrite Hg. split; [done|]. left. unfold grantFor in Hg.
    destruct (tGrants db !! (userID u, inst)) as [row|] eqn:Hrow; [|done].
    destruct (liveGrant now row); [|done]. injection Hg as <-. cbn.
    exact (grantRole_views _ (ok_grantRole _ _ _ _ (wf_grants _ Hwf _ _ Hrow))).
  - intros (u' & [= <-] & _ & [?|(_ & g & Hg & _)]); [done|]. right. cbn in Hg. injection Hg as Hg. by exists g.
Qed.

(** ** Invites *)

Lemma createUser_Ok id name hash role now s u s' : createUser id name hash role now s = (Ok u, s') ->
  tUsers s.1 !! id = None /\ s'.1 = withUsers (<[id := newUserRow name hash role false now]> (tUsers s.1)) s.1.
Proof.
  unfold createUser, onUnique. destruct (insertUser id _ s) as [[v|x] s1] eqn:E; [|by destruct x].
  intros [= _ <-]. apply stmt_Ok in E as [E _]. repeat (case_hyp E; try discriminate E). injection E as _ <-.
  split; [|done]. prop_bool. by apply eq_None_not_Some.
Qed.

Lemma nameRedeemer_Ok id user s u s' v : tInvites s.1 !! id = Some v -> nameRedeemer id user s = (Ok u, s') ->
  s'.1 = withInvites (<[id := mkInviteRow (vToken v) (vBy v) (vInstance v) (vRole v) (vPerms v) (vExpires v)
                                (vCreated v) (vRedeemed v) (Some user) (vRevoked v)]> (tInvites s.1)) s.1.
Proof. intros Hv [E _]%stmt_Ok. rewrite Hv in E. case_hyp E; [|done]. by injection E as _ <-. Qed.

Lemma applyInviteGrant_Ok inv user now s u s' : applyInviteGrant inv user now s = (Ok u, s') ->
  s'.1 = withGrants (match vInstance inv, vRole inv with
                     | Some i, Some role => <[(user, i) := mkGrantRow role (vPerms inv) (Some (vBy inv)) now None]> (tGrants s.1)
                     | _, _ => tGrants s.1
                     end) s.1.
Proof.
  unfold applyInviteGrant. destruct (vInstance inv) as [i|]; [|intros [= _ <-]; by destruct s.1, (vRole inv)].
  destruct (vRole inv); [|done]. by intros (_ & -> & _)%insertGrant_Ok.
Qed.

(** A statement that leaves a predicate's table alone. *)
Ltac frame_stmt :=
  first [apply stmt_Inv | apply writeq_Inv]; intros;
  repeat match goal with E : _ = Ok _ |- _ => case_hyp E; try discriminate E end;
  repeat match goal with E : Ok _ = Ok _ |- _ => injection E as _ <- end;
  repeat case_goal; assumption.

(** The invite is redeemed, or gone. *)
Definition spent (id : string) (db : UDB) : Prop := forall v, tInvites db !! id = Some v -> vRedeemed v <> None.

#[export] Instance spent_Trailless id : Trailless (spent id).
Proof. by split. Qed.

#[export] Hint Extern 4 (Inv (spent _) _) => solve [frame_stmt] : typeclass_instances.

Lemma spent_insert id k v db : spent id db -> (k = id -> vRedeemed v <> None) ->
  spent id (withInvites (<[k := v]> (tInvites db)) db).
Proof. intros Hs Hv x. cbn. intros [[-> <-]|[_ Hx]]%lookup_insert_Some; eauto. Qed.

#[export] Instance claimInvite_spent id k now : Inv (spent id) (claimInvite k now).
Proof.
  apply stmt_Inv. intros db b db' E Hs. destruct (tInvites db !! k); [|by injection E as _ <-].
  case_hyp E; injection E as _ <-; [|done]. by apply spent_insert.
Qed.

#[export] Instance nameRedeemer_spent id k u : Inv (spent id) (nameRedeemer k u).
Proof.
  apply stmt_Inv. intros db b db' E Hs. destruct (tInvites db !! k) as [v|] eqn:Ek; [|by injection E as _ <-].
  case_hyp E; [|done]. injection E as _ <-. apply spent_insert; [done|]. intros ->. exact (Hs _ Ek).
Qed.

#[export] Instance RevokeInvite_spent id k now : Inv (spent id) (RevokeInvite k now).
Proof.
  apply writeq_Inv. intros db Hs v. cbn. intros [(-> & v0 & Hv & ->)|[_ Hv]]%lookup_alter_Some; [exact (Hs _ Hv)|eauto].
Qed.

#[export] Instance deleteUser_spent id u : Inv (spent id) (deleteUser u).
Proof.
  unfold deleteUser. apply tbind_Inv; [|apply _]. apply stmt_Inv. intros db b db' E Hs.
  case_hyp E; injection E as _ <-; [|done]. intros v. cbn. rewrite lookup_fmap_Some.
  intros (v0 & <- & [Hv _]%map_lookup_filter_Some). unfold unRedeem. case_bool_decide; exact (Hs _ Hv).
Qed.

Lemma CreateInvite_spent id k v : k <> id -> Inv (spent id) (CreateInvite k v).
Proof.
  intros Hk. apply stmt_Inv. intros db b db' E Hs. repeat (case_hyp E; try discriminate E);
    injection E as _ <-; by apply spent_insert.
Qed.

Definition issues (id : string) (op : PanelOp) : bool :=
  match op with OCreateInvite k _ _ _ => bool_decide (k = id) | _ => false end.

Definition redeems (id : string) (x : PanelOp * result TxErr unit) : bool :=
  match x with (ORedeem k _ _ _ _ _ _ _, Ok _) => bool_decide (k = id) | _ => false end.

Section Invites.
Context `{Digest}.

Lemma perform_spent id op : issues id op = false -> Inv (spent id) (perform op).
Proof.
  intros Hop. destruct op; cbn [perform issues] in *.
  17: { apply bool_decide_eq_false in Hop. unfold CreateInviteAudited. apply inTx_Inv, tbind_Inv; [|apply _].
        by apply CreateInvite_spent. }
  all: unfold_op; unfold SetUserPasswordByUsername; apply _.
Qed.

Lemma claimInvite_Ok id now s s' : claimInvite id now s = (Ok true, s') ->
  exists v, tInvites s.1 !! id = Some v /\ Live now v = true /\
    s'.1 = withInvites (<[id := markRedeemed now (vRedeemedBy v) v]> (tInvites s.1)) s.1.
Proof.
  intros [E _]%stmt_Ok. destruct (tInvites s.1 !! id) as [v|] eqn:Hv; [|done].
  destruct (Live now v) eqn:Hl; [|done]. injection E as <-. by exists v.
Qed.

Lemma RedeemInviteToUser_spent id v u name hash now aid a s s' :
  RedeemInviteToUser id v u name hash now aid a s = (Ok tt, s') -> ~ spent id s.1 /\ spent id s'.1.
Proof.
  intros (fs & s1 & E & ->)%inTx_Ok. apply tbind_Ok in E as (n & s2 & Hc & E).
  apply tbind_Ok in E as (u1 & s3 & [-> ->]%must_Ok & E). apply claimInvite_Ok in Hc as (v0 & Hv0 & Hl & Hs2). split.
  - intros Hs. specialize (Hs _ Hv0). unfold Live in Hl. apply andb_true_iff in Hl as [[_ Hl]%andb_true_iff _].
    by apply bool_decide_eq_true in Hl.
  - assert (spent id s2.1) as Hs. { rewrite Hs2. intros x. cbn. rewrite lookup_insert_eq. by intros [= <-]. }
    eapply (@inv UDB (spent id) unit); [|exact E|exact Hs]. unfold createUser, applyInviteGrant. apply _.
Qed.
Lemma no_redeem_spent id ops : Forall (fun x => issues id x.1 = false) ops ->
  forall db, spent id db -> filter (redeems id) (exec ops db).1 = [].
Proof.
  induction 1 as [|[op fs] ops Hop _ IH]; intros db Hp; [done|]. cbn [exec].
  destruct (perform op (db, fs)) as [r s] eqn:E. pose proof (perform_spent id op Hop _ _ _ E Hp) as Hs.
  specialize (IH _ Hs). destruct (exec ops s.1) as [rs db'] eqn:Ee. cbn [fst]. rewrite filter_cons_False; [exact IH|].
  destruct op; try (by intros []). destruct r as [[]|]; [|by intros []]. cbn [perform redeems] in *.
  intros Hid%bool_decide_unpack. subst id. by apply RedeemInviteToUser_spent in E as [Hn _].
Qed.

End Invites.

(** C40. An invite admits one person: in any sequence of operations that does not
    issue the same invite id again, with any faults, at most one redemption of
    it succeeds. *)
Theorem invite_redeemed_once `{Digest} (id : string) (ops : list (PanelOp * faults)) (db : UDB) :
  Forall (fun x => issues id x.1 = false) ops ->
  (length (filter (redeems id) (exec ops db).1) <= 1)%nat.
Proof.
  intros Hops. revert db. induction Hops as [|[op fs] ops Hop Hops IH]; intros db; [by cbn; lia|].
  cbn [exec]. destruct (perform op (db, fs)) as [r s] eqn:E. specialize (IH s.1).
  destruct (exec ops s.1) as [rs db'] eqn:Ee. cbn [fst] in *.
  destruct (redeems id (op, r)) eqn:Hr; [|rewrite filter_cons_False by (rewrite Hr; by intros []); done].
  destruct op; try done. destruct r as [[]|]; [|done]. cbn [perform redeems] in *.
  apply bool_decide_eq_true in Hr as <-. apply RedeemInviteToUser_spent in E as [_ Hs].
  pose proof (no_redeem_spent _ _ Hops _ Hs) as Hnil. rewrite Ee in Hnil. cbn [fst] in Hnil.
  rewrite filter_cons_True by (by apply bool_decide_pack). by rewrite Hnil.
Qed.

Lemma RedeemInviteToUser_effect (id : string) (inv : InviteRow) (user name hash : string) (now : Time)
    (aid : string) (audit : AuditEntry) (s : UTxS) :
  match RedeemInviteToUser id inv user name hash now aid audit s with
  | (Err _, s') => s'.1 = s.1
  | (Ok _, s') =>
      (exists v, tInvites s.1 !! id = Some v /\ Live now v = true /\
         tInvites s'.1 = <[id := markRedeemed now (Some user) v]> (tInvites s.1)) /\
      tUsers s.1 !! user = None /\
      tUsers s'.1 = <[user := newUserRow name hash RoleMember false now]> (tUsers s.1) /\
      tGrants s'.1 = match vInstance inv, vRole inv with
                     | Some i, Some role => <[(user, i) := mkGrantRow role (vPerms inv) (Some (vBy inv)) now None]> (tGrants s.1)
                     | _, _ => tGrants s.1
                     end /\
      tSessions s'.1 = tSessions s.1
  end.
Proof.
  destruct (RedeemInviteToUser _ _ _ _ _ _ _ _ s) as [[u|e] s'] eqn:E; [|by apply inTx_Err in E].
  apply inTx_Ok in E as (fs & s1 & E & ->). apply tbind_Ok in E as (n & s2 & Hc & E).
  apply tbind_Ok in E as (u1 & s3 & [-> ->]%must_Ok & E). apply claimInvite_Ok in Hc as (v & Hv & Hl & Hs2).
  apply tbind_Ok in E as (u2 & s4 & Hu & E). apply tbind_Ok in E as (u3 & s5 & Hn & E).
  apply tbind_Ok in E as (u4 & s6 & Hg & (row & Hs1 & _)%writeAudit_Ok).
  apply createUser_Ok in Hu as (Hfree & Hs4). rewrite Hs2 in Hfree, Hs4. cbn in Hfree, Hs4.
  eapply nameRedeemer_Ok in Hn as Hs5; [|rewrite Hs4; cbn; apply lookup_insert_eq].
  rewrite Hs4 in Hs5. cbn in Hs5. rewrite insert_insert_eq in Hs5.
  rewrite Hs1. cbn. split; [exists v; split; [done|]; split; [done|]|].
  - apply applyInviteGrant_Ok in Hg as ->. rewrite Hs5. by cbn.
  - apply applyInviteGrant_Ok in Hg as ->. rewrite Hs5. cbn. done.
Qed.

(** Redeeming an invite: only a live invite is redeemed; it makes one
    enabled member who is not an owner, with the access the invite was bound to
    and no other, and marks the invite with them. On any failure, a taken name
    included, nothing changed and the invite is still there to be used. *)
Theorem RedeemInviteToUser_spec (id : string) (inv : InviteRow) (user name hash : string) (now : Time)
    (aid : string) (audit : AuditEntry) (s : UTxS) :
  match RedeemInviteToUser id inv user name hash now aid audit s with
  | (Err _, s') => s'.1 = s.1
  | (Ok _, s') =>
      (exists v, tInvites s.1 !! id = Some v /\ Live now v = true /\
         tInvites s'.1 = <[id := markRedeemed now (Some user) v]> (tInvites s.1)) /\
      tUsers s.1 !! user = None /\
      tUsers s'.1 = <[user := newUserRow name hash RoleMember false now]> (tUsers s.1) /\
      tGrants s'.1 = match vInstance inv, vRole inv with
                     | Some i, Some role => <[(user, i) := mkGrantRow role (vPerms inv) (Some (vBy inv)) now None]> (tGrants s.1)
                     | _, _ => tGrants s.1
                     end /\
      tSessions s'.1 = tSessions s.1
  end.
Proof. exact (RedeemInviteToUser_effect id inv user name hash now aid audit s). Qed.

(** ** The lifetime of a session *)

(** Every session ends [ttl] after it was created. *)
Definition aged (ttl : Z) (db : UDB) : Prop :=
  forall k x, tSessions db !! k = Some x -> sAbs x = (sCreated x + ttl)%Z.

#[export] Instance aged_Trailless ttl : Trailless (aged ttl).
Proof. by split. Qed.

#[export] Hint Extern 4 (Inv (aged _) _) => solve [frame_stmt] : typeclass_instances.

Lemma aged_filter ttl (Q : string * SessionRow -> Prop) `{forall x, Decision (Q x)} db :
  aged ttl db -> aged ttl (withSessions (filter Q (tSessions db)) db).
Proof. intros Ha k x. cbn. intros [Hk _]%map_lookup_filter_Some. eauto. Qed.

Lemma aged_insert ttl k x db : aged ttl db -> sAbs x = (sCreated x + ttl)%Z ->
  aged ttl (withSessions (<[k := x]> (tSessions db)) db).
Proof. intros Ha Hx j y. cbn. intros [[_ <-]|[_ Hj]]%lookup_insert_Some; eauto. Qed.

#[export] Instance deleteSessionsOf_aged ttl id : Inv (aged ttl) (deleteSessionsOf id).
Proof. apply writeq_Inv. intros db. apply aged_filter. Qed.

#[export] Instance filterSessions_aged ttl (Q : string * SessionRow -> Prop) `{forall x, Decision (Q x)} :
  Inv (aged ttl) (writeq (fun db => withSessions (filter Q (tSessions db)) db)).
Proof. apply writeq_Inv. intros db. apply aged_filter. Qed.

#[export] Instance DeleteSession_aged ttl id : Inv (aged ttl) (DeleteSession id).
Proof. apply writeq_Inv. intros db Ha k x. cbn. intros [_ Hk]%lookup_delete_Some. eauto. Qed.

#[export] Instance TouchSession_aged ttl id now idle th : Inv (aged ttl) (TouchSession id now idle th).
Proof.
  apply writeq_Inv. intros db Ha. destruct (tSessions db !! id) as [x|] eqn:E; [|done].
  case_bool_decide; [|done]. apply aged_insert; [done|]. exact (Ha _ _ E).
Qed.

#[export] Instance deleteUser_aged ttl id : Inv (aged ttl) (deleteUser id).
Proof.
  unfold deleteUser. apply tbind_Inv; [|apply _]. apply stmt_Inv. intros db b db' E Ha.
  case_hyp E; injection E as _ <-; [|done]. intros k x. cbn. intros [Hk _]%map_lookup_filter_Some. eauto.
Qed.

Lemma CreateSession_aged ttl id x : sAbs x = (sCreated x + ttl)%Z -> Inv (aged ttl) (CreateSession id x).
Proof.
  intros Hx. apply stmt_Inv. intros db b db' E Ha. repeat (case_hyp E; try discriminate E).
  injection E as _ <-. by apply aged_insert.
Qed.

(** A session is opened with the configured lifetime. *)
Definition opensFor (ttl : Z) (op : PanelOp) : Prop :=
  match op with OCreateSession _ x => sAbs x = (sCreated x + ttl)%Z | _ => True end.

Lemma perform_aged `{Digest} ttl op : opensFor ttl op -> Inv (aged ttl) (perform op).
Proof.
  intros Hop. destruct op; cbn [perform opensFor] in *.
  13: by apply CreateSession_aged.
  all: unfold_op; unfold SetUserPasswordByUsername, RevokeInvite; apply _.
Qed.

(** No session outlives its absolute lifetime: whatever happened to the
    tables, however often it was touched, a cookie resolves only before [ttl]
    has passed since its session was created and before its idle expiry, and
    only to the user the session was opened for. *)
Theorem session_lifetime `{Digest} (ttl : Z) (ops : list (PanelOp * faults)) (db : UDB)
    (token : string) (n1 n2 : Time) (sid : string) (x : SessionRow) (u : PUser) :
  aged ttl db -> Forall (fun o => opensFor ttl o.1) ops ->
  sessionAndUser token n1 n2 (exec ops db).2 = Some (sid, x, u) ->
  (n2 < sCreated x + ttl /\ n1 < sIdle x)%Z /\ pID u = sUser x /\ sToken x = token.
Proof.
  intros Ha Hops Hx. assert (aged ttl (exec ops db).2) as Hend.
  { clear Hx. revert db Ha. induction Hops as [|[op fs] ops Hop _ IH]; intros db Ha; [done|]. cbn [exec].
    destruct (perform op (db, fs)) as [r s] eqn:E. pose proof (perform_aged ttl op Hop _ _ _ E Ha) as Hs.
    specialize (IH _ Hs). by destruct (exec ops s.1). }
  apply sessionAndUser_Some in Hx as (r & Hk & Hl & _ & ->). unfold sessionLive in Hl. prop_bool.
  rewrite (Hend _ _ Hk) in *. done.
Qed.

(** ** The two unguarded writes, and the owner flag of a session's user *)

Definition ownerRow : UserRow := mkUserRow "root" "h" RoleAdmin false true 0 None "" "" "".
Definition ownedDB : UDB := mkUDB {["o" := ownerRow]} ∅ ∅ ∅ ∅ ∅ None None.

(** [UpdateUserRoleAndDisabled] and [DeleteUser] do what the audited writes
    refuse: they demote or delete the owner. *)
Theorem unguarded_writes :
  owns "o" ownedDB /\
  (UpdateUserAudited "o" RoleMember false true "a" 0 (mkAudit "" "o" "" "users.update" "" "" "" "" "" "") (ownedDB, [])).1
    = Err ErrOwnerProtected /\
  (UpdateUserRoleAndDisabled "o" RoleMember false (ownedDB, [])).1 = Ok tt /\
  tUsers (UpdateUserRoleAndDisabled "o" RoleMember false (ownedDB, [])).2.1 !! "o" = Some (setRole RoleMember false ownerRow) /\
  (DeleteUser "o" (ownedDB, [])).1 = Ok tt /\
  tUsers (DeleteUser "o" (ownedDB, [])).2.1 !! "o" = None.
Proof. split; [by exists ownerRow|]. by vm_compute. Qed.

(** The user a session resolves to never carries the owner flag, whatever the
    users row says. *)
Theorem session_user_not_owner token n1 n2 db sid x u :
  sessionAndUser token n1 n2 db = Some (sid, x, u) -> pOwner u = false.
Proof. by intros (r & _ & _ & _ & ->)%sessionAndUser_Some. Qed.
