(* ===== verification/Argon.v ===== *)
(** internal/auth/argon2.go and token.go: the stored password hash, its text
    form and its checks, over the base64 and [Sscanf] the code uses.

    argon2 itself is a parameter; [None] is its panic on a zero time or thread
    count. *)
From S2P Require Import Prelude GoBytes UserStore.

(** ** encoding/base64, without padding *)

Definition stdAlphabet : bytes := L "ABCDEFGHIJKLMNOPQRSTUVWXYZabcdefghijklmnopqrstuvwxyz0123456789+/".
Definition urlAlphabet : bytes := L "ABCDEFGHIJKLMNOPQRSTUVWXYZabcdefghijklmnopqrstuvwxyz0123456789-_".

(** Six bits, highest first. *)
Definition sextet : Type := bool * bool * bool * bool * bool * bool.
Definition bitN (b : bool) (w : N) : N := if b then w else 0%N.
Definition sextetN (s : sextet) : N :=
  let '(a, b, c, d, e, f) := s in (bitN a 32 + bitN b 16 + bitN c 8 + bitN d 4 + bitN e 2 + bitN f 1)%N.
Definition Nsextet (n : N) : sextet :=
  (N.testbit n 5, N.testbit n 4, N.testbit n 3, N.testbit n 2, N.testbit n 1, N.testbit n 0).

Definition enc1 (alpha : bytes) (s : sextet) : ascii := nth (N.to_nat (sextetN s)) alpha "000"%char.
Definition dec1 (alpha : bytes) (c : ascii) : option sextet :=
  (fun p => Nsextet (N.of_nat p.1)) <$> list_find (fun x => x = c) alpha.

Fixpoint sextets (s : bytes) : list sextet :=
  match s with
  | [] => []
  | [Ascii a0 a1 a2 a3 a4 a5 a6 a7] => [(a7, a6, a5, a4, a3, a2); (a1, a0, false, false, false, false)]
  | [Ascii a0 a1 a2 a3 a4 a5 a6 a7; Ascii b0 b1 b2 b3 b4 b5 b6 b7] =>
      [(a7, a6, a5, a4, a3, a2); (a1, a0, b7, b6, b5, b4); (b3, b2, b1, b0, false, false)]
  | Ascii a0 a1 a2 a3 a4 a5 a6 a7 :: Ascii b0 b1 b2 b3 b4 b5 b6 b7 :: Ascii c0 c1 c2 c3 c4 c5 c6 c7 :: t =>
      (a7, a6, a5, a4, a3, a2) :: (a1, a0, b7, b6, b5, b4) :: (b3, b2, b1, b0, c7, c6) :: (c5, c4, c3, c2, c1, c0) :: sextets t
  end.

(** One sextet left over is a corrupt input; the unused low bits are ignored. *)
Fixpoint octets (l : list sextet) : option bytes :=
  match l with
  | [] => Some []
  | [_] => None
  | [(a7, a6, a5, a4, a3, a2); (a1, a0, _, _, _, _)] => Some [Ascii a0 a1 a2 a3 a4 a5 a6 a7]
  | [(a7, a6, a5, a4, a3, a2); (a1, a0, b7, b6, b5, b4); (b3, b2, b1, b0, _, _)] =>
      Some [Ascii a0 a1 a2 a3 a4 a5 a6 a7; Ascii b0 b1 b2 b3 b4 b5 b6 b7]
  | (a7, a6, a5, a4, a3, a2) :: (a1, a0, b7, b6, b5, b4) :: (b3, b2, b1, b0, c7, c6) :: (c5, c4, c3, c2, c1, c0) :: t =>
      (fun r => Ascii a0 a1 a2 a3 a4 a5 a6 a7 :: Ascii b0 b1 b2 b3 b4 b5 b6 b7 :: Ascii c0 c1 c2 c3 c4 c5 c6 c7 :: r) <$> octets t
  end.

Definition EncodeToString (alpha s : bytes) : bytes := map (enc1 alpha) (sextets s).

(** The decoder skips carriage returns and newlines. *)
Definition DecodeString (alpha s : bytes) : option bytes :=
  mapM (dec1 alpha) (filter (fun c => c <> "010"%char /\ c <> "013"%char) s) ≫= octets.

(** ** fmt *)

(** [%d] of a natural number. *)
Fixpoint decDigits (fuel : nat) (n : Z) (acc : bytes) : bytes :=
  match fuel with
  | 0%nat => acc
  | S f => let acc' := ascii_of_N (Z.to_N (48 + n mod 10)) :: acc in
         if (n <? 10)%Z then acc' else decDigits f (n / 10) acc'
  end.
Definition itoa (n : Z) : bytes := decDigits 20 n [].

(** [SkipSpace] in [Sscanf]: a newline is an error. *)
Definition stripBlank (s : bytes) : option bytes :=
  head (omap (fun sp => cutPrefix sp s) (filter (fun sp => sp <> [nl]) spaces)).
Definition skipSpace (s : bytes) : option bytes :=
  let t := iterTrim stripBlank (length s) s in
  match t with c :: _ => if decide (c = nl) then None else Some t | [] => Some t end.

Fixpoint span_digits (s : bytes) : bytes * bytes :=
  match s with
  | c :: t => if is_digit c then let '(d, r) := span_digits t in (c :: d, r) else ([], s)
  | [] => ([], [])
  end.

(** [scanUint] of a [bits]-wide unsigned integer: the value and the input left. *)
Definition scanUint (bits : Z) (s : bytes) : option (Z * bytes) :=
  t ← skipSpace s;
  let '(d, r) := span_digits t in
  match d with
  | [] => None
  | _ => n ← digits_val 0 d; if (n <? 2 ^ bits)%Z then Some (n, r) else None
  end.

(** [scanInt] of an [int]. *)
Definition scanInt (s : bytes) : option (Z * bytes) :=
  t ← skipSpace s;
  let '(sg, t') := match t with
                   | c :: t' => if decide (c = "-"%char) then ((-1)%Z, t') else if decide (c = "+"%char) then (1%Z, t') else (1%Z, t)
                   | [] => (1%Z, t)
                   end in
  let '(d, r) := span_digits t' in
  match d with
  | [] => None
  | _ => n ← digits_val 0 d; if (-2 ^ 63 <=? sg * n)%Z && (sg * n <? 2 ^ 63)%Z then Some ((sg * n)%Z, r) else None
  end.

(** ** argon2.go *)

Record Params := mkParams { pMemory : Z; pTime : Z; pThreads : Z }.

Definition argonVersion : Z := 19.

Section Argon.
(** [argon2.IDKey password salt time memory threads keyLen]. *)
Context (IDKey : bytes -> bytes -> Z -> Z -> Z -> Z -> option bytes).

Definition printHash (version memory time threads : Z) (salt sum : bytes) : bytes :=
  L "$argon2id$v=" ++ itoa version ++ L "$m=" ++ itoa memory ++ L ",t=" ++ itoa time ++ L ",p=" ++ itoa threads
  ++ L "$" ++ EncodeToString stdAlphabet salt ++ L "$" ++ EncodeToString stdAlphabet sum.

(** [HashPassword] with the salt [rand.Read] drew. *)
Definition HashPassword (password : bytes) (p : Argon2Params) (salt : bytes) : option bytes :=
  sum ← IDKey password salt (ATime p) (MemoryKiB p) (Threads p) (KeyLen p);
  Some (printHash argonVersion (MemoryKiB p) (ATime p) (Threads p) salt sum).

Definition scanVersion (s : bytes) : option Z :=
  t ← cutPrefix (L "v=") s; fst <$> scanInt t.

Definition scanParams (s : bytes) : option Params :=
  s1 ← cutPrefix (L "m=") s;
  '(m, s2) ← scanUint 32 s1;
  s3 ← cutPrefix (L ",t=") s2;
  '(t, s4) ← scanUint 32 s3;
  s5 ← cutPrefix (L ",p=") s4;
  '(p, _) ← scanUint 8 s5;
  Some (mkParams m t p).

(** [parseHash]. *)
Definition parseHash (encoded : bytes) : option (Z * Params * bytes * bytes) :=
  match split "$"%char encoded with
  | [p0; p1; p2; p3; p4; p5] =>
      if decide (p0 = [] /\ p1 = L "argon2id") then
        version ← scanVersion p2;
        p ← scanParams p3;
        salt ← DecodeString stdAlphabet p4;
        sum ← DecodeString stdAlphabet p5;
        Some (version, p, salt, sum)
      else None
  | _ => None
  end.

(** [VerifyPassword]; [None] is argon2's panic.  [ConstantTimeCompare] is
    equality. *)
Definition VerifyPassword (password encoded : bytes) : option bool :=
  match parseHash encoded with
  | None => Some false
  | Some (version, p, salt, sum) =>
      if negb (version =? argonVersion)%Z then Some false
      else if (2 ^ 32 - 1 <? Z.of_nat (length sum))%Z then Some false
      else got ← IDKey password salt (pTime p) (pMemory p) (pThreads p) (Z.of_nat (length sum));
           Some (bool_decide (got = sum))
  end.

Definition NeedsRehash (encoded : bytes) (current : Argon2Params) : bool :=
  match parseHash encoded with
  | None => true
  | Some (_, p, _, _) =>
      (pMemory p <? MemoryKiB current)%Z || (pTime p <? ATime current)%Z || (pThreads p <? Threads current)%Z
  end.

End Argon.

(** ** token.go, over SHA-256 *)

Section Token.
Context (sha256hex : bytes -> bytes).

(** [NewSessionToken] from its 32 random bytes: the cookie and the hash stored. *)
Definition NewSessionToken (raw : bytes) : bytes * bytes := (EncodeToString urlAlphabet raw, sha256hex raw).
Definition HashSessionToken (cookie : bytes) : option bytes := sha256hex <$> DecodeString urlAlphabet cookie.

End Token.

(** ** Lemmas *)

Lemma dec_enc alpha s : alpha = stdAlphabet \/ alpha = urlAlphabet -> dec1 alpha (enc1 alpha s) = Some s.
Proof. destruct s as [[[[[a b] c] d] e] f]. intros [->| ->]; destruct a, b, c, d, e, f; by vm_compute. Qed.

Lemma enc_plain alpha s : alpha = stdAlphabet \/ alpha = urlAlphabet ->
  enc1 alpha s <> "010"%char /\ enc1 alpha s <> "013"%char /\ enc1 alpha s <> "$"%char /\ enc1 alpha s <> "."%char.
Proof. destruct s as [[[[[a b] c] d] e] f]. intros [->| ->]; destruct a, b, c, d, e, f; by vm_compute. Qed.

Lemma octets_sextets s : octets (sextets s) = Some s.
Proof.
  induction s as [s IH] using (induction_ltof1 _ length). unfold ltof in IH.
  destruct s as [|[] [|[] [|[] t]]]; [reflexivity..|]. cbn [sextets octets].
  rewrite (IH t) by (cbn; lia). reflexivity.
Qed.

(** Decoding undoes encoding, in either alphabet. *)
Lemma Decode_Encode alpha s : alpha = stdAlphabet \/ alpha = urlAlphabet ->
  DecodeString alpha (EncodeToString alpha s) = Some s.
Proof.
  intros Ha. unfold DecodeString, EncodeToString. rewrite <- (octets_sextets s).
  assert (filter (fun c => c <> "010"%char /\ c <> "013"%char) (map (enc1 alpha) (sextets s)) = map (enc1 alpha) (sextets s)) as ->.
  { induction (sextets s) as [|x l IH]; [done|]. cbn [map]. rewrite filter_cons_True by (split; apply (enc_plain _ x Ha)). by rewrite IH. }
  assert (mapM (dec1 alpha) (map (enc1 alpha) (sextets s)) = Some (sextets s)) as ->; [|done].
  induction (sextets s) as [|x l IH]; [done|]. cbn. rewrite dec_enc by done. cbn. by rewrite IH.
Qed.

Lemma digit_char d : (0 <= d < 10)%Z ->
  let c := ascii_of_N (Z.to_N (48 + d)) in is_digit c = true /\ (Z.of_N (code c) - 48 = d)%Z.
Proof.
  intros Hd c. assert (code c = Z.to_N (48 + d)) as Hc by (apply N_ascii_embedding; lia).
  unfold is_digit, in_range. rewrite Hc. split; [apply andb_true_iff; split; apply N.leb_le; lia|lia].
Qed.

(** The digits printed are digits, and read back as the number. *)
Lemma decDigits_spec f : forall n acc, (0 <= n < 10 ^ Z.of_nat f)%Z -> (0 < f)%nat ->
  exists ds, decDigits f n acc = ds ++ acc /\ Forall (fun c => is_digit c = true) ds /\ ds <> [] /\
    forall x r, Forall (fun c => is_digit c = true) r ->
      digits_val x (ds ++ r) = digits_val (x * 10 ^ Z.of_nat (length ds) + n) r.
Proof.
  induction f as [|f IH]; intros n acc Hn Hf; [lia|]. cbn [decDigits].
  assert (0 <= n mod 10 < 10)%Z as Hm by (apply Z.mod_pos_bound; lia).
  destruct (digit_char _ Hm) as [Hd Hv]. set (c := ascii_of_N _) in *. pose proof (Z.div_mod n 10 ltac:(lia)) as Hdm.
  destruct (n <? 10)%Z eqn:Hlt.
  - apply Z.ltb_lt in Hlt. exists [c]. split; [done|]. split; [by constructor|]. split; [done|].
    intros x r Hr. cbn [app digits_val length]. rewrite Hd, Hv. f_equal. rewrite (Z.mod_small n 10) by lia. lia.
  - apply Z.ltb_ge in Hlt. assert (0 < f)%nat as Hf'.
    { destruct f; [|lia]. change (10 ^ Z.of_nat 1)%Z with 10%Z in Hn. lia. }
    assert (0 <= n / 10 < 10 ^ Z.of_nat f)%Z as Hn'.
    { rewrite Nat2Z.inj_succ, Z.pow_succ_r in Hn by lia. split; [apply Z.div_pos; lia|apply Z.div_lt_upper_bound; lia]. }
    destruct (IH (n / 10)%Z (c :: acc) Hn' Hf') as (ds & Heq & Hds & Hne & Hval).
    exists (ds ++ [c]). rewrite Heq, <- app_assoc. split; [done|].
    split; [apply Forall_app; by repeat constructor|]. split; [by destruct ds|].
    intros x r Hr. rewrite <- app_assoc. cbn [app]. rewrite Hval by (by constructor).
    cbn [digits_val]. rewrite Hd, Hv, length_app, Nat2Z.inj_add. cbn [length].
    rewrite Z.pow_add_r by lia. change (10 ^ Z.of_nat 1)%Z with 10%Z. f_equal. lia.
Qed.

Definition noDigit (r : bytes) : Prop := match r with [] => True | c :: _ => is_digit c = false end.

Lemma span_digits_app ds r : Forall (fun c => is_digit c = true) ds -> noDigit r -> span_digits (ds ++ r) = (ds, r).
Proof.
  intros Hds Hr. induction Hds as [|c ds Hc _ IH]; cbn.
  - destruct r as [|c r]; [done|]. cbn in Hr |- *. by rewrite Hr.
  - by rewrite Hc, IH.
Qed.

Lemma stripBlank_digit c s : is_digit c = true -> stripBlank (c :: s) = None.
Proof. destruct c as [[] [] [] [] [] [] [] []]; intros Hc; first [discriminate Hc | reflexivity]. Qed.

Lemma skipSpace_digit c s : is_digit c = true -> skipSpace (c :: s) = Some (c :: s).
Proof.
  intros Hc. unfold skipSpace. cbn [length iterTrim]. rewrite stripBlank_digit by done.
  rewrite decide_False; [done|]. intros ->. done.
Qed.

(** A printed number scans back, whatever follows it. *)
Lemma scan_itoa n r : (0 <= n < 10 ^ 20)%Z -> noDigit r ->
  exists c t, itoa n ++ r = c :: t /\ is_digit c = true /\ span_digits (itoa n ++ r) = (itoa n, r) /\
    itoa n <> [] /\ digits_val 0 (itoa n) = Some n.
Proof.
  intros Hn Hr. destruct (decDigits_spec 20 n [] Hn ltac:(lia)) as (ds & Heq & Hds & Hne & Hval).
  unfold itoa. rewrite Heq, app_nil_r. destruct ds as [|c ds]; [done|]. exists c, (ds ++ r).
  split; [done|]. split; [by inversion Hds|]. split; [by apply span_digits_app|]. split; [done|].
  specialize (Hval 0%Z [] ltac:(constructor)). rewrite app_nil_r in Hval. by rewrite Hval.
Qed.

Lemma scanUint_itoa bits n r : (0 <= n < 2 ^ bits)%Z -> (2 ^ bits <= 10 ^ 20)%Z -> noDigit r ->
  scanUint bits (itoa n ++ r) = Some (n, r).
Proof.
  intros Hn Hb Hr. destruct (scan_itoa n r ltac:(lia) Hr) as (c & t & Heq & Hc & Hsp & Hne & Hval).
  unfold scanUint. rewrite Heq, skipSpace_digit by done. cbn [mbind option_bind]. rewrite <- Heq, Hsp.
  destruct (itoa n) as [|d ds]; [done|]. rewrite Hval. cbn. rewrite (proj2 (Z.ltb_lt _ _)) by lia. done.
Qed.

Lemma scanInt_itoa n r : (0 <= n < 2 ^ 63)%Z -> noDigit r -> scanInt (itoa n ++ r) = Some (n, r).
Proof.
  intros Hn Hr. destruct (scan_itoa n r ltac:(lia) Hr) as (c & t & Heq & Hc & Hsp & Hne & Hval).
  unfold scanInt. rewrite Heq, skipSpace_digit by done. cbn [mbind option_bind].
  rewrite !decide_False by (intros ->; done). cbv iota beta. rewrite <- Heq, Hsp.
  destruct (itoa n) as [|d ds]; [done|]. rewrite Hval. cbn [mbind option_bind]. rewrite Z.mul_1_l.
  rewrite (proj2 (Z.leb_le _ _)), (proj2 (Z.ltb_lt _ _)) by lia. done.
Qed.

Lemma cutPrefix_app p s : cutPrefix p (p ++ s) = Some s.
Proof. by apply cutPrefix_Some. Qed.

Lemma scanParams_print m t p r : (0 <= m < 2 ^ 32)%Z -> (0 <= t < 2 ^ 32)%Z -> (0 <= p < 2 ^ 8)%Z -> noDigit r ->
  scanParams (L "m=" ++ itoa m ++ L ",t=" ++ itoa t ++ L ",p=" ++ itoa p ++ r) = Some (mkParams m t p).
Proof.
  intros Hm Ht Hp Hr. unfold scanParams. rewrite cutPrefix_app. cbn [mbind option_bind].
  rewrite scanUint_itoa by done. cbn [mbind option_bind]. rewrite cutPrefix_app. cbn [mbind option_bind].
  rewrite scanUint_itoa by done. cbn [mbind option_bind]. rewrite cutPrefix_app. cbn [mbind option_bind].
  by rewrite scanUint_itoa.
Qed.

Lemma digit_no_dollar (l : bytes) : Forall (fun c => is_digit c = true) l -> "$"%char ∉ l.
Proof. intros Hl Hin. rewrite Forall_forall in Hl. by specialize (Hl _ Hin). Qed.

Lemma itoa_digits n : (0 <= n < 10 ^ 20)%Z -> Forall (fun c => is_digit c = true) (itoa n).
Proof. intros Hn. destruct (decDigits_spec 20 n [] Hn ltac:(lia)) as (ds & Heq & Hds & _). unfold itoa. by rewrite Heq, app_nil_r. Qed.

Lemma itoa_no_dollar n : (0 <= n < 10 ^ 20)%Z -> "$"%char ∉ itoa n.
Proof. intros Hn. by apply digit_no_dollar, itoa_digits. Qed.

Lemma b64_no_dollar s : "$"%char ∉ EncodeToString stdAlphabet s.
Proof.
  unfold EncodeToString. intros Hin. apply list_elem_of_In, in_map_iff in Hin as (x & Hx & _).
  destruct (enc_plain stdAlphabet x (or_introl eq_refl)) as (_ & _ & H & _). by rewrite Hx in H.
Qed.

(** A field without the separator. *)
Ltac plain_field :=
  rewrite ?not_elem_of_app; repeat split;
  first [assumption | apply b64_no_dollar | apply (bool_decide_unpack _); vm_compute; exact I].

(** The text of a hash parses back to what it was printed from. *)
Lemma parseHash_print v m t p salt sum :
  (0 <= v < 2 ^ 63)%Z -> (0 <= m < 2 ^ 32)%Z -> (0 <= t < 2 ^ 32)%Z -> (0 <= p < 2 ^ 8)%Z ->
  parseHash (printHash v m t p salt sum) = Some (v, mkParams m t p, salt, sum).
Proof.
  intros Hv Hm Ht Hp. pose proof (itoa_no_dollar v ltac:(lia)) as Dv. pose proof (itoa_no_dollar m ltac:(lia)) as Dm.
  pose proof (itoa_no_dollar t ltac:(lia)) as Dt. pose proof (itoa_no_dollar p ltac:(lia)) as Dp.
  assert (printHash v m t p salt sum = [] ++ "$"%char :: L "argon2id" ++ "$"%char :: (L "v=" ++ itoa v) ++ "$"%char ::
    (L "m=" ++ itoa m ++ L ",t=" ++ itoa t ++ L ",p=" ++ itoa p) ++ "$"%char ::
    EncodeToString stdAlphabet salt ++ "$"%char :: EncodeToString stdAlphabet sum) as ->.
  { unfold printHash. by rewrite <- !app_assoc. }
  unfold parseHash. rewrite (split_app _ []) by plain_field. rewrite (split_app _ (L "argon2id")) by plain_field.
  rewrite (split_app _ (L "v=" ++ itoa v)) by plain_field.
  rewrite (split_app _ (L "m=" ++ itoa m ++ L ",t=" ++ itoa t ++ L ",p=" ++ itoa p)) by plain_field.
  rewrite (split_app _ (EncodeToString stdAlphabet salt)) by plain_field.
  rewrite split_nosep by apply b64_no_dollar. rewrite decide_True by done. unfold scanVersion.
  rewrite cutPrefix_app. cbn [mbind option_bind]. rewrite <- (app_nil_r (itoa v)), scanInt_itoa by done. cbn [fmap option_fmap option_map mbind option_bind fst].
  rewrite <- (app_nil_r (itoa p)), scanParams_print by done. cbn [mbind option_bind].
  rewrite !Decode_Encode by (by left). done.
Qed.

(** ** Properties *)

Section Hashes.
Context (IDKey : bytes -> bytes -> Z -> Z -> Z -> Z -> option bytes).

(** argon2 returns as many bytes as it was asked for. *)
Definition keyLength : Prop := forall pw salt t m p k sum, (0 <= k)%Z -> IDKey pw salt t m p k = Some sum -> Z.of_nat (length sum) = k.

Definition paramsFit (p : Argon2Params) : Prop :=
  (0 <= MemoryKiB p < 2 ^ 32 /\ 0 <= ATime p < 2 ^ 32 /\ 0 <= Threads p < 2 ^ 8 /\ 0 <= KeyLen p < 2 ^ 32)%Z.

(** A stored password hash is checked against the very computation that
    made it: for parameters of the struct's widths, whatever the salt,
    [VerifyPassword] accepts exactly the passwords whose argon2 sum with that
    salt and those parameters is the stored one, the password hashed among
    them, and a hash just made needs no rehash. *)
Theorem VerifyPassword_HashPassword (password other salt encoded : bytes) (p : Argon2Params) :
  keyLength -> paramsFit p ->
  HashPassword IDKey password p salt = Some encoded ->
  VerifyPassword IDKey other encoded =
    (fun sum => bool_decide (Some sum = IDKey password salt (ATime p) (MemoryKiB p) (Threads p) (KeyLen p))) <$>
      IDKey other salt (ATime p) (MemoryKiB p) (Threads p) (KeyLen p) /\
  VerifyPassword IDKey password encoded = Some true /\
  NeedsRehash encoded p = false.
Proof.
  intros Hlen (Hm & Ht & Hp & Hk) E. unfold HashPassword in E.
  destruct (IDKey password _ _ _ _ _) as [sum|] eqn:Hsum; [|done]. cbn [mbind option_bind] in E. apply (inj Some) in E as <-.
  pose proof (Hlen _ _ _ _ _ _ _ (proj1 Hk) Hsum) as Hl.
  assert (forall q, VerifyPassword IDKey q (printHash argonVersion (MemoryKiB p) (ATime p) (Threads p) salt sum) =
    (fun s => bool_decide (s = sum)) <$> IDKey q salt (ATime p) (MemoryKiB p) (Threads p) (KeyLen p)) as HV.
  { intros q. unfold VerifyPassword. rewrite parseHash_print by (unfold argonVersion; lia || done).
    rewrite Z.eqb_refl, Hl, (proj2 (Z.ltb_ge _ _)) by lia. reflexivity. }
  split; [|split].
  - rewrite HV. destruct (IDKey other _ _ _ _ _) as [s|]; [|done]. cbn. f_equal. apply bool_decide_ext.
    split; [by intros ->|by intros Heq; injection Heq].
  - rewrite HV, Hsum. cbn. by rewrite bool_decide_eq_true_2.
  - unfold NeedsRehash. rewrite parseHash_print by (unfold argonVersion; lia || done). cbn. by rewrite !Z.ltb_irrefl.
Qed.

End Hashes.

(** A stand-in for argon2: the password and the salt, cut to the length. *)
Definition toyKey (pw salt : bytes) (_ _ _ k : Z) : option bytes :=
  Some (take (Z.to_nat k) (pw ++ salt ++ repeat "000"%char (Z.to_nat k))).

Lemma toyKey_length pw salt t m p k sum : (0 <= k)%Z -> toyKey pw salt t m p k = Some sum -> Z.of_nat (length sum) = k.
Proof. intros Hk [= <-]. rewrite length_take, !length_app, repeat_length. lia. Qed.

Definition toyParams : Argon2Params := mkArgon 65536 3 2 16 8.

Example VerifyPassword_HashPassword_witness :
  exists encoded, HashPassword toyKey (L "secret") toyParams (L "salt") = Some encoded /\
    VerifyPassword toyKey (L "secret") encoded = Some true.
Proof.
  destruct (HashPassword toyKey (L "secret") toyParams (L "salt")) as [encoded|] eqn:E; [|discriminate E].
  exists encoded. split; [reflexivity|].
  refine (proj1 (proj2 (VerifyPassword_HashPassword toyKey (L "secret") (L "other") (L "salt") encoded toyParams _ _ E))).
  - intros pw salt t m p k sum. apply toyKey_length.
  - unfold paramsFit, toyParams. cbn. lia.
Defined.
