(* ===== verification/Auth.v ===== *)
(** internal/auth: login, session validation, logout, password changes,
    invites, first-run setup and trusted devices, composed of the store's
    operations and the password hash.

    Random draws and clock readings are arguments; what the hub is told to
    close is part of the answer. *)
From S2P Require Import Prelude GoBytes Lifecycle Sql Store Authz UserStore UserLaws AccountSafe Argon.

(** ** Errors *)

Definition ErrInvalidCredentials : TxErr := EHook "invalid credentials".
Definition ErrAccountDisabled : TxErr := EHook "account disabled".
Definition ErrProxyAdmin : TxErr := EHook "admin accounts cannot sign in through the proxy".
Definition ErrInviteInvalid : TxErr := EHook "invite invalid".
Definition ErrSetupConsumed : TxErr := EHook "setup already consumed".
Definition ErrSetupTokenInvalid : TxErr := EHook "setup token invalid or expired".
(** argon2's panic, which the HTTP server's recover turns into a failure. *)
Definition ErrPanic : TxErr := EHook "panic".
Definition ErrMAC : TxErr := EHook "sign trusted device".


(** What runs on argon2 and SHA-256: their functions, and the dummy hash made
    at start-up. *)
Class Crypt := {
  IDKey : bytes -> bytes -> Z -> Z -> Z -> Z -> option bytes;
  sha256 : bytes -> bytes;
  dummyHash : string
}.

Record SessionConfig := mkSessionConfig { idleTTL : Z; absTTL : Z; throttle : Z }.
Definition touchThrottle : Z := 60 * 10 ^ 9.

(** What a session is opened with: its id, the token's 32 random bytes, the
    instant, the client. *)
Record Opening := mkOpening { oID : string; oRaw : bytes; oNow : Time; oIP : string; oAgent : string }.

Record LoggedIn := mkLoggedIn { lCookie : bytes; lSessionID : string; lUser : PUser; lExpires : Time }.

(** A session id or a user id whose live connections are to be closed. *)
Definition Revocation := (string * string)%type.

Section Auth.
Context `{Crypt}.

Definition verify (password stored : string) : UTx bool :=
  match VerifyPassword IDKey (L password) (L stored) with
  | Some b => tret b
  | None => tfail ErrPanic
  end.

Definition hashPassword (password : string) (p : Argon2Params) (salt : bytes) : UTx string :=
  match HashPassword IDKey (L password) p salt with
  | Some h => tret (S_ h)
  | None => tfail ErrPanic
  end.

Definition hashToken (cookie : bytes) : option string := S_ <$> HashSessionToken sha256 cookie.

(** A failure that is logged and forgotten; a panic is not. *)
Definition attempt {A} (m : UTx A) : UTx (option A) := fun s =>
  match m s with
  | (Ok a, s') => (Ok (Some a), s')
  | (Err e, s') => if decide (e = ErrPanic) then (Err e, s') else (Ok None, s')
  end.

(** ** argon2.go: parameters *)

Definition DefaultArgon2Params : Argon2Params := mkArgon (64 * 1024) 3 2 16 32.

Definition LoadArgon2Params : UTx Argon2Params :=
  let! p := GetArgon in
  match p with
  | Some p => tret p
  | None => let! _ := SetArgon DefaultArgon2Params in tret DefaultArgon2Params
  end.

(** ** session.go *)

Definition sessionOf (cfg : SessionConfig) (user : string) (tokenHash : string) (o : Opening) : SessionRow :=
  mkSessionRow tokenHash user (oNow o) (oNow o) (oNow o + idleTTL cfg)%Z (oNow o + absTTL cfg)%Z None (oIP o) (oAgent o).

(** [open]. *)
Definition openSession (cfg : SessionConfig) (rec : AuthRecord) (o : Opening) : UTx LoggedIn :=
  let '(cookie, tokenHash) := NewSessionToken sha256 (oRaw o) in
  let x := sessionOf cfg (pID (aUser rec)) (S_ tokenHash) o in
  let! _ := CreateSession (oID o) x in
  let! _ := UpdateLastLogin (pID (aUser rec)) (oNow o) in
  tret (mkLoggedIn cookie (oID o) (aUser rec) (sAbs x)).

Definition rehashIfWeak (rec : AuthRecord) (password : string) (salt : bytes) : UTx unit :=
  let! p := attempt LoadArgon2Params in
  match p with
  | None => tret tt
  | Some p =>
      if NeedsRehash (L (PasswordHash rec)) p then
        let! h := hashPassword password p salt in
        let! _ := attempt (SetUserPassword (pID (aUser rec)) h) in
        tret tt
      else tret tt
  end.

Definition Login (cfg : SessionConfig) (username password : string) (salt : bytes) (o : Opening) : UTx LoggedIn :=
  let! rec := UserForLogin username in
  match rec with
  | None => let! _ := verify password dummyHash in tfail ErrInvalidCredentials
  | Some rec =>
      let! ok := verify password (PasswordHash rec) in
      if negb ok then tfail ErrInvalidCredentials
      else if pDisabled (aUser rec) then tfail ErrAccountDisabled
      else let! _ := rehashIfWeak rec password salt in openSession cfg rec o
  end.

Definition LoginTrusted (cfg : SessionConfig) (username : string) (o : Opening) : UTx LoggedIn :=
  let! rec := UserForLogin username in
  match rec with
  | None => tfail ErrInvalidCredentials
  | Some rec =>
      if pDisabled (aUser rec) then tfail ErrAccountDisabled
      else if bool_decide (pRole (aUser rec) = RoleAdmin) then tfail ErrProxyAdmin
      else openSession cfg rec o
  end.

(** [Authenticate]: the two clock readings of the lookup and the one of the
    touch. *)
Definition Authenticate (cfg : SessionConfig) (cookie : bytes) (n1 n2 n3 : Time) : UTx (option (PUser * string)) :=
  match hashToken cookie with
  | None => tret None
  | Some h =>
      let! found := SessionAndUser h n1 n2 in
      match found with
      | None => tret None
      | Some (sid, _, u) =>
          if pDisabled u then tret None
          else let! _ := TouchSession sid n3 (idleTTL cfg) (throttle cfg) in tret (Some (u, sid))
      end
  end.

Definition Logout (sid : string) : UTx (list Revocation) :=
  let! _ := DeleteSession sid in tret [(sid, "")].

Definition AnnounceUserRevoked (user : string) : list Revocation := [("", user)].

Definition ChangePassword (username keep current next : string) (salt : bytes) (aid : string) (now : Time)
    (audit : AuditEntry) : UTx (list Revocation) :=
  let! rec := UserForLogin username in
  match rec with
  | None => tfail ErrInvalidCredentials
  | Some rec =>
      let! ok := verify current (PasswordHash rec) in
      if negb ok then tfail ErrInvalidCredentials
      else
        let! p := LoadArgon2Params in
        let! h := hashPassword next p salt in
        let! revoked := SetUserPasswordKeepingSession (pID (aUser rec)) h keep aid now audit in
        tret (map (fun id => (id, "")) revoked)
  end.

Definition SetPassword (user password : string) (salt : bytes) (aid : string) (now : Time) (audit : AuditEntry)
    : UTx (list Revocation) :=
  let! p := LoadArgon2Params in
  let! h := hashPassword password p salt in
  let! _ := SetUserPasswordAudited user h aid now audit in
  tret [("", user)].

(** ** invite.go *)

(** [base32] of the 32 random bytes is [code]; its hash is salted. *)
Definition Issue (ttl : Z) (id code createdBy : string) (inst role : option string) (perms : list string)
    (salt : bytes) (now : Time) (aid : string) (audit : AuditEntry) : UTx (string * InviteRow) :=
  let! p := LoadArgon2Params in
  let! h := hashPassword code p salt in
  let v := mkInviteRow h createdBy inst role perms (now + ttl)%Z now None None None in
  let! _ := CreateInviteAudited id v aid audit in
  tret (code, v).

(** The first live invite the code verifies against. *)
Fixpoint matchInvite (code : string) (live : list (string * InviteRow)) : UTx (option (string * InviteRow)) :=
  match live with
  | [] => tret None
  | kv :: rest =>
      let! ok := verify code (vToken kv.2) in
      if ok then tret (Some kv) else matchInvite code rest
  end.

Definition Redeem (code username password : string) (salt : bytes) (user : string) (n1 n2 : Time) (aid : string)
    (audit : AuditEntry) : UTx (PUser * (string * InviteRow)) :=
  let! live := LiveInvites n1 in
  let! matched := matchInvite code live in
  match matched with
  | None => tfail ErrInviteInvalid
  | Some (id, v) =>
      let! p := LoadArgon2Params in
      let! h := hashPassword password p salt in
      let! r := (fun s => match RedeemInviteToUser id v user username h n2 aid audit s with
                          | (Err e, s') => if decide (e = ErrInviteNotLive) then (Err ErrInviteInvalid, s') else (Err e, s')
                          | r => r
                          end) in
      tret (userOf user (newUserRow username h RoleMember false n2), (id, v))
  end.

(** ** bootstrap.go *)

Definition setupTokenTTL : Z := 15 * 60 * 10 ^ 9.

Definition PendingSetup : UTx bool := let! n := CountUsers in tret (n =? 0)%nat.

(** Go's zero [time.Time]. *)
Definition zeroTime : Time := (-62135596800 * 10 ^ 9)%Z.

(** The token printed, when there is no user yet. *)
Definition PrintToken (raw : bytes) (now : Time) : UTx (option bytes) :=
  let! pending := PendingSetup in
  if negb pending then tret None
  else
    let '(token, hash) := NewSessionToken sha256 raw in
    let! _ := SetBootstrap (mkBootstrap true (S_ hash) (now + setupTokenTTL)%Z) in
    tret (Some token).

Definition Setup (token : bytes) (username password : string) (salt : bytes) (id : string) (n1 n2 : Time) : UTx PUser :=
  let! pending := PendingSetup in
  if negb pending then tfail ErrSetupConsumed
  else
    let! state := GetBootstrap in
    match state, hashToken token with
    | Some st, Some got =>
        if negb (bool_decide (TokenHash st = got)) || bool_decide (ExpiresAt st < n1)%Z then tfail ErrSetupTokenInvalid
        else
          let! p := LoadArgon2Params in
          let! h := hashPassword password p salt in
          let! _ := (fun s => match CreateFirstAdmin id username h n2 s with
                              | (Err e, s') => if decide (e = ErrBootstrapConsumed) then (Err ErrSetupConsumed, s') else (Err e, s')
                              | r => r
                              end) in
          let! _ := SetBootstrap (mkBootstrap false "" zeroTime) in
          tret (userOf id (newUserRow username h RoleAdmin true n2))
    | _, _ => tfail ErrSetupTokenInvalid
    end.

(** ** device.go *)

Section Devices.
(** The panel's keyed MAC; [None] is its error. *)
Context (mac : bytes -> option bytes).

Definition second : Z := 10 ^ 9.
Definition DeviceTrustAge : Z := 180 * 24 * 3600 * second.
Definition dot : ascii := "."%char.
Definition zero : bytes := ["000"%char].

Definition signMessage (rec : AuthRecord) (issued : bytes) : bytes :=
  L "trusted-device" ++ zero ++ L (pID (aUser rec)) ++ zero ++ issued ++ zero ++ L (PasswordHash rec).
Definition sign (rec : AuthRecord) (issued : bytes) : option bytes :=
  EncodeToString urlAlphabet <$> mac (signMessage rec issued).

Definition Token (username : string) (now : Time) : UTx bytes :=
  let! rec := UserForLogin username in
  match rec with
  | None => tfail (EHook "look up user: not found")
  | Some rec =>
      let issued := itoa (now / second) in
      match sign rec issued with
      | None => tfail ErrMAC
      | Some sum => tret (L (pID (aUser rec)) ++ dot :: issued ++ dot :: sum)
      end
  end.

(** [Trusted]: the fields of an unexpired token, then the account's record as
    it is now; any failure is a refusal. *)
Definition freshToken (value : bytes) (now : Time) : option (bytes * bytes * bytes) :=
  match split dot value with
  | [id; issued; sum] =>
      if bool_decide (sum = []) then None
      else match Atoi issued with
           | None => None
           | Some at_ =>
               let age := (now - at_ * second)%Z in
               if (age <? 0)%Z || (DeviceTrustAge <? age)%Z then None else Some (id, issued, sum)
           end
  | _ => None
  end.
Definition signedBy (rec : option AuthRecord) (token : bytes * bytes * bytes) : bool :=
  let '(id, issued, sum) := token in
  match rec with
  | None => false
  | Some rec =>
      if negb (bool_decide (L (pID (aUser rec)) = id)) then false
      else bool_decide (Some sum = sign rec issued)
  end.
Definition trustedBy (rec : option AuthRecord) (value : bytes) (now : Time) : bool :=
  match freshToken value now with
  | None => false
  | Some token => signedBy rec token
  end.
Definition Trusted (username : string) (value : bytes) (now : Time) : UTx bool := fun s =>
  match freshToken value now with
  | None => (Ok false, s)
  | Some token =>
      match UserForLogin username s with
      | (Ok rec, s') => (Ok (signedBy rec token), s')
      | (Err _, s') => (Ok false, s')
      end
  end.

End Devices.
End Auth.
