(* ===== verification/AuthSafe.v ===== *)
(** What signing in promises: who a login admits and what a cookie opens, the
    single first-run setup, invites by their code and the trust of a browser. *)
From S2P Require Import Prelude GoBytes Lifecycle Sql Store Authz UserStore UserLaws AccountSafe Argon Auth.

(** ** Steps *)

Section Steps.
Context `{Crypt}.

Lemma verify_state p h s r s' : verify p h s = (r, s') -> s' = s.
Proof. unfold verify. destruct (VerifyPassword _ _ _); by intros [= _ <-]. Qed.
Lemma verify_Ok p h s b s' : verify p h s = (Ok b, s') -> VerifyPassword IDKey (L p) (L h) = Some b /\ s' = s.
Proof. unfold verify. destruct (VerifyPassword _ _ _); [|done]. by intros [= <- <-]. Qed.
Lemma hashPassword_state p q salt s r s' : hashPassword p q salt s = (r, s') -> s' = s.
Proof. unfold hashPassword. destruct (HashPassword _ _ _ _); by intros [= _ <-]. Qed.

(** Tables equal but for the kv rows. *)
Definition sameTables (db db' : UDB) : Prop :=
  tUsers db' = tUsers db /\ tSessions db' = tSessions db /\ tGrants db' = tGrants db /\ tInvites db' = tInvites db /\
  kvBootstrap db' = kvBootstrap db.

Lemma LoadArgon2Params_state s r s' : LoadArgon2Params s = (r, s') -> sameTables s.1 s'.1.
Proof.
  unfold LoadArgon2Params, GetArgon, SetArgon, tbind. destruct (readq kvArgon s) as [[[p|]|e] s1] eqn:E; apply readq_state in E.
  - intros [= _ <-]. unfold sameTables. by rewrite E.
  - destruct (writeq _ s1) as [[u|e] s2] eqn:Ew; destruct (writeq_cases _ _ _ _ Ew) as [[_ Hw]|[_ Hw]];
      intros [= _ <-]; unfold sameTables; rewrite Hw, ?E; done.
  - intros [= _ <-]. unfold sameTables. by rewrite E.
Qed.

Lemma attempt_Ok {A} (m : UTx A) s o s' : attempt m s = (Ok o, s') -> exists r, m s = (r, s').
Proof. unfold attempt. destruct (m s) as [[a|e] s1]; [|destruct (decide (e = ErrPanic))]; intros [= _ <-]; eauto. Qed.

Lemma updateUser_state id f s r s' : updateUser id f s = (r, s') ->
  s'.1 = s.1 \/ exists x, tUsers s.1 !! id = Some x /\ s'.1 = withUsers (<[id := f x]> (tUsers s.1)) s.1.
Proof.
  destruct r as [n|e].
  - intros [(_ & _ & Hs)|(_ & x & Hx & Hs)]%updateUser_Ok; eauto.
  - intros [Hs _]%stmt_Err. by left.
Qed.

(** A rehash rewrites at most the stored hash of the account. *)
Lemma rehashIfWeak_state rec p salt s r s' x : tUsers s.1 !! pID (aUser rec) = Some x -> rehashIfWeak rec p salt s = (r, s') ->
  exists h, tUsers s'.1 = <[pID (aUser rec) := setHash h x]> (tUsers s.1) /\
    tSessions s'.1 = tSessions s.1 /\ tGrants s'.1 = tGrants s.1 /\ tInvites s'.1 = tInvites s.1.
Proof.
  intros Hx. assert (<[pID (aUser rec) := setHash (uHash x) x]> (tUsers s.1) = tUsers s.1) as Hid.
  { apply insert_id. rewrite Hx. by destruct x. }
  unfold rehashIfWeak, tbind. destruct (attempt LoadArgon2Params s) as [r1 s1] eqn:E1.
  assert (sameTables s.1 s1.1) as (Hu & Hs & Hg & Hv & _).
  { unfold attempt in E1. destruct (LoadArgon2Params s) as [r0 s0] eqn:E0. apply LoadArgon2Params_state in E0.
    destruct r0 as [?|e0]; [|destruct (decide (e0 = ErrPanic))]; by injection E1 as _ <-. }
  assert (exists h, tUsers s1.1 = <[pID (aUser rec) := setHash h x]> (tUsers s.1) /\
    tSessions s1.1 = tSessions s.1 /\ tGrants s1.1 = tGrants s.1 /\ tInvites s1.1 = tInvites s.1) as Hsame.
  { exists (uHash x). by rewrite Hid. }
  destruct r1 as [[p1|]|e]; [|by intros [= _ <-]|by intros [= _ <-]].
  destruct (NeedsRehash _ _); [|by intros [= _ <-]].
  destruct (hashPassword p p1 salt s1) as [[h|e] s2] eqn:E2; apply hashPassword_state in E2 as ->; [|by intros [= _ <-]].
  unfold attempt, SetUserPassword, setUserPassword, tbind, must.
  destruct (updateUser _ _ s1) as [r3 s3] eqn:E3. apply updateUser_state in E3 as [E3|(y & Hy & E3)].
  - intros E. assert (s'.1 = s1.1) as ->; [|done]. destruct r3 as [[]|e3]; [| |destruct (decide (e3 = ErrPanic))]; injection E as _ <-; done.
  - rewrite Hu, Hx in Hy. injection Hy as <-. intros E. assert (s'.1 = s3.1) as ->.
    { destruct r3 as [[]|e3]; [| |destruct (decide (e3 = ErrPanic))]; injection E as _ <-; done. }
    exists h. rewrite E3. cbn. by rewrite Hu, Hs, Hg, Hv.
Qed.

(** The session stored, where its id and its token were free. *)
Lemma CreateSession_Ok id x s u s' : CreateSession id x s = (Ok u, s') ->
  tSessions s.1 !! id = None /\ (forall k y, tSessions s.1 !! k = Some y -> sToken y <> sToken x) /\
  s'.1 = withSessions (<[id := freshSession x]> (tSessions s.1)) s.1.
Proof.
  intros [E _]%stmt_Ok. destruct (bool_decide_reflect (is_Some (tSessions s.1 !! id))) as [|Hid]; [done|]. cbn [orb] in E.
  destruct (bool_decide (Exists _ _)) eqn:Ht; [done|]. case_hyp E; [|done]. injection E as _ <-.
  split; [by apply eq_None_not_Some|]. split; [|done]. exact (fresh_token sToken _ _ Ht).
Qed.

Lemma UpdateLastLogin_Ok id now s u s' : UpdateLastLogin id now s = (Ok u, s') ->
  tSessions s'.1 = tSessions s.1 /\ tGrants s'.1 = tGrants s.1 /\ tInvites s'.1 = tInvites s.1 /\
  forall x, tUsers s.1 !! id = Some x -> tUsers s'.1 = <[id := setLastLogin now x]> (tUsers s.1).
Proof.
  unfold UpdateLastLogin. intros (n & s1 & [(_ & Hn & Hs)|(_ & x & Hx & Hs)]%updateUser_Ok & [= _ <-])%tbind_Ok; rewrite Hs.
  - split; [done|]. split; [done|]. split; [done|]. intros x Hx. congruence.
  - split; [done|]. split; [done|]. split; [done|]. cbn. intros y Hy. congruence.
Qed.

Lemma openSession_Ok cfg rec o s l s' x : tUsers s.1 !! pID (aUser rec) = Some x -> openSession cfg rec o s = (Ok l, s') ->
  let t := S_ (sha256 (oRaw o)) in
  lCookie l = EncodeToString urlAlphabet (oRaw o) /\ lSessionID l = oID o /\ lUser l = aUser rec /\
  tSessions s.1 !! oID o = None /\ (forall k y, tSessions s.1 !! k = Some y -> sToken y <> t) /\
  tSessions s'.1 = <[oID o := sessionOf cfg (pID (aUser rec)) t o]> (tSessions s.1) /\
  tUsers s'.1 = <[pID (aUser rec) := setLastLogin (oNow o) x]> (tUsers s.1) /\
  tGrants s'.1 = tGrants s.1 /\ tInvites s'.1 = tInvites s.1.
Proof.
  intros Hx. unfold openSession. cbn [NewSessionToken].
  intros (u & s1 & (Hid & Ht & Hs1)%CreateSession_Ok & E)%tbind_Ok.
  apply tbind_Ok in E as (u2 & s2 & (Hs2 & Hg2 & Hv2 & Hu2)%UpdateLastLogin_Ok & [= <- <-]).
  cbn [lCookie lSessionID lUser]. rewrite Hs2, Hg2, Hv2. rewrite Hs1 in Hu2 |- *. cbn in Hu2 |- *.
  rewrite (Hu2 _ Hx). done.
Qed.

Lemma hash_cookie raw : hashToken (EncodeToString urlAlphabet raw) = Some (S_ (sha256 raw)).
Proof. unfold hashToken, HashSessionToken. by rewrite Decode_Encode by (by right). Qed.

End Steps.

(** ** Signing in *)

Section Login.
Context `{Crypt}.

Lemma UserForLogin_Ok name s rec s' : UserForLogin name s = (Ok rec, s') ->
  s'.1 = s.1 /\ match rec with
                | None => byName name s.1 = None
                | Some rec => exists id x, tUsers s.1 !! id = Some x /\ uUsername x = name /\ rec = scanUser id x
                end.
Proof.
  unfold UserForLogin. intros [-> Hs]%readq_Ok. split; [exact Hs|].
  destruct (byName name s.1) as [[id x]|] eqn:E; [|done]. apply byName_Some in E as [Hx Hn]. by exists id, x.
Qed.

(** The session a login stored is the one its cookie finds. *)
Lemma sessionAndUser_new cfg db user t o x n1 n2 :
  tSessions db !! oID o = Some (sessionOf cfg user t o) ->
  (forall k y, tSessions db !! k = Some y -> sToken y = t -> k = oID o) ->
  tUsers db !! user = Some x -> (n1 < oNow o + idleTTL cfg)%Z -> (n2 < oNow o + absTTL cfg)%Z ->
  sessionAndUser t n1 n2 db = Some (oID o, sessionOf cfg user t o, joinedUser user x).
Proof.
  intros Hs Huniq Hx H1 H2. unfold sessionAndUser.
  assert (sessionLive t n1 n2 (sessionOf cfg user t o) = true /\ is_Some (tUsers db !! sUser (sessionOf cfg user t o))) as Hl.
  { split; [|by exists x]. unfold sessionLive, sessionOf. cbn. by rewrite !bool_decide_eq_true_2 by done. }
  destruct (head _) as [[k y]|] eqn:E.
  - apply find_row_Some in E as [Hk [Hy _]]. assert (k = oID o) as ->.
    { apply (Huniq _ _ Hk). unfold sessionLive in Hy. by prop_bool. }
    rewrite Hs in Hk. injection Hk as <-. cbn. by rewrite Hx.
  - by destruct (find_row_None _ _ _ _ E Hs).
Qed.

Lemma Authenticate_run cfg cookie n1 n2 n3 db h sid x u :
  hashToken cookie = Some h -> sessionAndUser h n1 n2 db = Some (sid, x, u) -> pDisabled u = false ->
  exists s', Authenticate cfg cookie n1 n2 n3 (db, []) = (Ok (Some (u, sid)), s').
Proof.
  intros Hh Hx Hu. unfold Authenticate. rewrite Hh. unfold tbind, SessionAndUser, TouchSession, readq, writeq.
  rewrite stmt_run. rewrite Hx. cbv iota beta. rewrite Hu, stmt_run. by eexists.
Qed.

End Login.


(** Nobody is told why a login failed, and nothing changes: an unknown name
    and a wrong password are the same answer, which a disabled account gives
    only to the holder of its password a different form of. *)
Theorem Login_refuses `{Crypt} (cfg : SessionConfig) (username password : string) (salt : bytes) (o : Opening) (db : UDB) :
  (byName username db = None -> VerifyPassword IDKey (L password) (L dummyHash) <> None ->
     Login cfg username password salt o (db, []) = (Err ErrInvalidCredentials, (db, []))) /\
  (forall id x, byName username db = Some (id, x) -> VerifyPassword IDKey (L password) (L (uHash x)) = Some false ->
     Login cfg username password salt o (db, []) = (Err ErrInvalidCredentials, (db, []))) /\
  (forall id x, byName username db = Some (id, x) -> VerifyPassword IDKey (L password) (L (uHash x)) = Some true ->
     uDisabled x = true -> Login cfg username password salt o (db, []) = (Err ErrAccountDisabled, (db, []))).
Proof.
  unfold Login, tbind, UserForLogin, readq. rewrite stmt_run. cbv beta iota. split; [|split].
  - intros -> Hv. cbn [fmap option_fmap option_map]. unfold verify. by destruct (VerifyPassword _ _ _).
  - intros id x -> Hv. cbn [fmap option_fmap option_map scanUser PasswordHash fst snd]. unfold verify. by rewrite Hv.
  - intros id x -> Hv Hd. cbn [fmap option_fmap option_map scanUser PasswordHash fst snd]. unfold verify. rewrite Hv.
    cbn. by rewrite Hd.
Qed.

Lemma Authenticate_opens `{Crypt} (cfg : SessionConfig) (cookie : bytes) (n1 n2 n3 : Time) (s s' : UTxS)
    (u : PUser) (sid : string) :
  Authenticate cfg cookie n1 n2 n3 s = (Ok (Some (u, sid)), s') ->
  exists x r, tSessions s.1 !! sid = Some x /\ hashToken cookie = Some (sToken x) /\
    (n1 < sIdle x /\ n2 < sAbs x)%Z /\ tUsers s.1 !! sUser x = Some r /\ uDisabled r = false /\
    u = joinedUser (sUser x) r /\
    tUsers s'.1 = tUsers s.1 /\ tGrants s'.1 = tGrants s.1 /\
    (tSessions s'.1 = tSessions s.1 \/ tSessions s'.1 = <[sid := touchRow n3 (idleTTL cfg) x]> (tSessions s.1)).
Proof.
  unfold Authenticate. destruct (hashToken cookie) as [h|] eqn:Hh; [|done].
  intros (found & s1 & [Hf Hs1]%readq_Ok & E)%tbind_Ok. destruct found as [[[k x] v]|]; [|done].
  symmetry in Hf. apply sessionAndUser_Some in Hf as (r & Hk & Hl & Hr & ->).
  cbn [joinedUser pDisabled] in E. destruct (uDisabled r) eqn:Hd; [done|].
  apply tbind_Ok in E as (w & s2 & Ht%writeq_Ok & E). injection E as <- <- <-.
  unfold sessionLive in Hl. prop_bool. subst h. exists x, r. do 6 (split; [done|]).
  rewrite Ht, Hs1, Hk. case_bool_decide; cbn; auto.
Qed.

(** A cookie opens only a live session of an enabled account: whatever
    failed, an answer of [Authenticate] names a session stored under the
    cookie's hash, unexpired at the two readings of the clock, whose user
    exists and is not disabled; the account tables but for the session's two
    timestamps are left as they were. *)
Theorem Authenticate_sound `{Crypt} (cfg : SessionConfig) (cookie : bytes) (n1 n2 n3 : Time) (s s' : UTxS)
    (u : PUser) (sid : string) :
  Authenticate cfg cookie n1 n2 n3 s = (Ok (Some (u, sid)), s') ->
  exists x r, tSessions s.1 !! sid = Some x /\ hashToken cookie = Some (sToken x) /\
    (n1 < sIdle x /\ n2 < sAbs x)%Z /\ tUsers s.1 !! sUser x = Some r /\ uDisabled r = false /\
    u = joinedUser (sUser x) r /\
    tUsers s'.1 = tUsers s.1 /\ tGrants s'.1 = tGrants s.1 /\
    (tSessions s'.1 = tSessions s.1 \/ tSessions s'.1 = <[sid := touchRow n3 (idleTTL cfg) x]> (tSessions s.1)).
Proof. apply Authenticate_opens. Qed.

(** ** First-run setup *)

Lemma attemptFirst_Ok id name h now s u s' :
  (match CreateFirstAdmin id name h now s with
   | (Err e, s2) => if decide (e = ErrBootstrapConsumed) then (Err ErrSetupConsumed, s2) else (Err e, s2)
   | r => r
   end) = (Ok u, s') -> CreateFirstAdmin id name h now s = (Ok tt, s').
Proof.
  destruct (CreateFirstAdmin _ _ _ _ s) as [[[]|e] s2]; [by intros [= _ ->]|]. by case_decide.
Qed.

(** Without faults: the parameters load, and the first admin is created. *)
Lemma LoadArgon2Params_run db : exists p db', LoadArgon2Params (db, []) = (Ok p, (db', [])) /\ tUsers db' = tUsers db.
Proof.
  unfold LoadArgon2Params, GetArgon, SetArgon, tbind, readq, writeq. rewrite stmt_run. cbv beta iota.
  destruct (kvArgon db); [|rewrite stmt_run]; by eexists _, _.
Qed.

Lemma CreateFirstAdmin_run id name h now db : tUsers db = ∅ ->
  CreateFirstAdmin id name h now (db, []) =
    (Ok tt, (withUsers (<[id := newUserRow name h RoleAdmin true now]> (tUsers db)) db, [])).
Proof.
  intros Hu. unfold CreateFirstAdmin, CountUsers. rewrite inTx_run. unfold tbind, readq. rewrite stmt_run. cbv beta iota.
  rewrite Hu, map_size_empty. cbn [Nat.eqb negb]. unfold onUnique, insertUser. rewrite stmt_run.
  assert (usernameTaken name db = false) as Hname.
  { unfold usernameTaken, byName. rewrite Hu. by rewrite map_to_list_empty. }
  assert (hasOwner db = false) as Hown. { unfold hasOwner. rewrite Hu. by rewrite map_to_list_empty. }
  cbn [newUserRow uRole uUsername uOwner]. rewrite Hname, Hown, Hu, lookup_empty.
  by rewrite bool_decide_eq_false_2 by (by intros []).
Qed.

(** The first-run token makes one admin: [Setup] succeeds only while there
    is no user, with the unexpired token whose hash is stored; it leaves exactly
    the new owner in the users table and the token cleared. *)
Theorem Setup_spec `{Crypt} (token : bytes) (username password : string) (salt : bytes) (id : string) (n1 n2 : Time)
    (s s' : UTxS) (u : PUser) :
  Setup token username password salt id n1 n2 s = (Ok u, s') ->
  tUsers s.1 = ∅ /\
  (exists st, kvBootstrap s.1 = Some st /\ hashToken token = Some (TokenHash st) /\ (n1 <= ExpiresAt st)%Z) /\
  (exists h, tUsers s'.1 = {[id := newUserRow username h RoleAdmin true n2]}) /\ owns id s'.1 /\
  pID u = id /\ (TokenHash <$> kvBootstrap s'.1) = Some "".
Proof.
  unfold Setup. intros (pending & s1 & Hp & E)%tbind_Ok. unfold PendingSetup, CountUsers in Hp.
  apply tbind_Ok in Hp as (n & s0 & [Hn Hs0]%readq_Ok & Hp). injection Hp as <- ->.
  destruct (n =? 0)%nat eqn:H0; [|done]. apply Nat.eqb_eq in H0. cbn [negb] in E.
  rewrite H0 in Hn. symmetry in Hn. apply map_size_empty_iff in Hn.
  apply tbind_Ok in E as (st & s2 & [Hst Hs2]%readq_Ok & E). rewrite Hs0 in *.
  destruct st as [st|]; [|done]. destruct (hashToken token) as [got|] eqn:Hgot; [|done].
  destruct (negb _ || _) eqn:Hc; [done|]. apply orb_false_iff in Hc as [Ht%negb_false_iff%bool_decide_eq_true Hx%bool_decide_eq_false].
  apply tbind_Ok in E as (p & s3 & _ & E). apply tbind_Ok in E as (h & s4 & _ & E).
  apply tbind_Ok in E as (v & s5 & Hf%attemptFirst_Ok & E). apply tbind_Ok in E as (w & s6 & Hb%writeq_Ok & E).
  injection E as <- <-. apply CreateFirstAdmin_Ok in Hf as Hf'. destruct Hf' as [_ Hu5].
  apply CreateFirstAdmin_owns in Hf. split; [done|]. split; [exists st; subst got; split; [done|]; split; [done|lia]|].
  rewrite Hb. split; [by exists h|]. split; [exact Hf|]. done.
Qed.

(** The printed token works: on a panel without users, the token printed at
    start-up sets up the first admin at any moment of the next fifteen minutes,
    when nothing fails. *)
Theorem printed_token_sets_up `{Crypt} (raw : bytes) (username password : string) (salt : bytes) (id : string)
    (now n1 n2 : Time) (db : UDB) :
  tUsers db = ∅ -> (n1 <= now + setupTokenTTL)%Z ->
  (forall p, HashPassword IDKey (L password) p salt <> None) ->
  exists token s1, PrintToken raw now (db, []) = (Ok (Some token), s1) /\
    exists u s2, Setup token username password salt id n1 n2 (s1.1, []) = (Ok u, s2) /\ owns id s2.1.
Proof.
  intros Hu Hn Hh. exists (EncodeToString urlAlphabet raw).
  set (st := mkBootstrap true (S_ (sha256 raw)) (now + setupTokenTTL)%Z).
  exists (withKV (Some st) (kvArgon db) db, []). split.
  { unfold PrintToken, PendingSetup, CountUsers, tbind, readq. rewrite stmt_run, Hu. done. }
  cbn [fst]. set (db1 := withKV _ _ db). assert (tUsers db1 = ∅) as Hu1 by exact Hu.
  unfold Setup, PendingSetup, CountUsers, GetBootstrap, readq, tbind. rewrite !stmt_run, Hu1. cbn [tret].
  rewrite map_size_empty. cbn [Nat.eqb negb]. rewrite stmt_run. cbn [kvBootstrap db1 withKV].
  rewrite hash_cookie. cbn [TokenHash ExpiresAt st]. rewrite bool_decide_eq_true_2 by done.
  rewrite bool_decide_eq_false_2 by lia. cbn [negb orb].
  destruct (LoadArgon2Params_run db1) as (p & db3 & E3 & Hu3). rewrite E3. rewrite Hu1 in Hu3.
  unfold hashPassword. destruct (HashPassword IDKey (L password) p salt) as [h|] eqn:Eh; [|by destruct (Hh p)].
  cbn [tret]. pose proof (CreateFirstAdmin_run id username (S_ h) n2 db3 Hu3) as Hfirst.
  match goal with |- context [CreateFirstAdmin id username (S_ h) n2 ?e] =>
    rewrite (Hfirst : CreateFirstAdmin id username (S_ h) n2 e = _) end.
  unfold SetBootstrap, writeq. rewrite stmt_run. eexists _, _. split; [reflexivity|].
  exists (newUserRow username (S_ h) RoleAdmin true n2). cbn. by rewrite lookup_insert_eq.
Qed.

(** ** Invites by their code *)

Section Codes.
Context `{Crypt}.

Lemma matchInvite_Ok code live : forall s kv s', matchInvite code live s = (Ok (Some kv), s') ->
  s' = s /\ kv ∈ live /\ VerifyPassword IDKey (L code) (L (vToken kv.2)) = Some true.
Proof.
  induction live as [|x live IH]; intros s kv s'; [done|]. cbn [matchInvite].
  intros (ok & s1 & [Hok ->]%verify_Ok & E)%tbind_Ok. destruct ok.
  - injection E as <- <-. split; [done|]. split; [left|done].
  - destruct (IH _ _ _ E) as (-> & Hin & Hv). split; [done|]. split; [by right|done].
Qed.

End Codes.

(** An account comes of an invite only by its code: [Redeem] succeeds with a
    code that verifies against an invite live when it looked and still live when
    it claimed it; the account it makes is the named member, holding the grant
    the invite was bound to and nothing else. *)
Theorem Redeem_spec `{Crypt} (code username password : string) (salt : bytes) (user : string) (n1 n2 : Time)
    (aid : string) (audit : AuditEntry) (s s' : UTxS) (u : PUser) (id : string) (v : InviteRow) :
  Redeem code username password salt user n1 n2 aid audit s = (Ok (u, (id, v)), s') ->
  tInvites s.1 !! id = Some v /\ Live n1 v = true /\ Live n2 v = true /\
  VerifyPassword IDKey (L code) (L (vToken v)) = Some true /\
  tUsers s.1 !! user = None /\
  (exists h, tUsers s'.1 = <[user := newUserRow username h RoleMember false n2]> (tUsers s.1)) /\
  tInvites s'.1 = <[id := markRedeemed n2 (Some user) v]> (tInvites s.1) /\
  tGrants s'.1 = match vInstance v, vRole v with
                 | Some i, Some role => <[(user, i) := mkGrantRow role (vPerms v) (Some (vBy v)) n2 None]> (tGrants s.1)
                 | _, _ => tGrants s.1
                 end /\
  pID u = user /\ pRole u = RoleMember /\ pOwner u = false.
Proof.
  unfold Redeem. intros (live & s1 & [-> Hs1]%readq_Ok & E)%tbind_Ok.
  apply tbind_Ok in E as (m & s2 & Hm & E). destruct m as [[k w]|]; [|done].
  apply matchInvite_Ok in Hm as (-> & Hin & Hv). cbn [snd] in Hv.
  apply list_elem_of_filter in Hin as [Hl Hin%elem_of_map_to_list]. cbn [fst snd] in Hl.
  apply tbind_Ok in E as (p & s3 & (Hu3 & _ & Hg3 & Hi3 & _)%LoadArgon2Params_state & E).
  apply tbind_Ok in E as (h & s4 & ->%hashPassword_state & E).
  apply tbind_Ok in E as (w1 & s5 & Hr & E). injection E as <- <- <- <-.
  pose proof (RedeemInviteToUser_effect k w user username h n2 aid audit s3) as Heff.
  destruct (RedeemInviteToUser _ _ _ _ _ _ _ _ s3) as [[x|e] s6]; [|by case_decide].
  injection Hr as _ ->. destruct Heff as ((v0 & Hv0 & Hl0 & Hinv) & Hfree & Husers & Hgrants & _).
  rewrite Hs1 in *. rewrite Hi3, Hin in Hv0. injection Hv0 as <-. rewrite Hu3 in Hfree, Husers.
  rewrite Hi3 in Hinv. rewrite Hg3 in Hgrants. do 5 (split; [done|]). split; [by exists h|]. done.
Qed.

(** ** Trusted devices *)

Lemma Atoi_itoa n : (0 <= n < 2 ^ 63)%Z -> Atoi (itoa n) = Some n.
Proof.
  intros Hn. destruct (scan_itoa n [] ltac:(lia) I) as (c & t & Heq & Hc & _ & _ & Hval). rewrite app_nil_r in Heq.
  unfold Atoi. rewrite Heq in *. assert (is_byte "-"%char c = false /\ is_byte "+"%char c = false) as [-> ->].
  { split; apply is_byte_false; intros ->; done. }
  rewrite Hval, (proj2 (Z.leb_le _ _)) by (unfold max_int; lia). done.
Qed.

Lemma itoa_no_dot n : (0 <= n < 10 ^ 20)%Z -> dot ∉ itoa n.
Proof.
  intros Hn Hin. pose proof (itoa_digits n Hn) as Hd. rewrite Forall_forall in Hd. by specialize (Hd _ Hin).
Qed.

Lemma url_no_dot s : dot ∉ EncodeToString urlAlphabet s.
Proof.
  unfold EncodeToString. intros Hin. apply list_elem_of_In, in_map_iff in Hin as (x & Hx & _).
  destruct (enc_plain urlAlphabet x (or_intror eq_refl)) as (_ & _ & _ & H). by rewrite Hx in H.
Qed.

Lemma L_inj x y : L x = L y -> x = y.
Proof. intros Hxy. by rewrite <- (String.string_of_list_ascii_of_string x), Hxy, String.string_of_list_ascii_of_string. Qed.

(** The three fields of a token. *)
Lemma split_token id issued sum : dot ∉ id -> dot ∉ issued -> dot ∉ sum ->
  split dot (id ++ dot :: issued ++ dot :: sum) = [id; issued; sum].
Proof. intros H1 H2 H3. by rewrite split_app, split_app, split_nosep. Qed.

(** A browser stays trusted exactly while the account keeps its password and
    for 180 days: a token issued to an account is accepted later for a record
    just when that record has the account's id and its password hash at the time
    of issue and the token's age is within the limit, so a changed or reset
    password withdraws every token issued before. *)
Theorem device_trust (mac : bytes -> option bytes) (rec : AuthRecord) (sum : bytes) (now later : Time) (rec' : option AuthRecord) :
  (forall m m' x, mac m = Some x -> mac m' = Some x -> m = m') -> (forall m x, mac m = Some x -> x <> []) ->
  dot ∉ L (pID (aUser rec)) -> (0 <= now / second < 2 ^ 63)%Z ->
  sign mac rec (itoa (now / second)) = Some sum ->
  trustedBy mac rec' (L (pID (aUser rec)) ++ dot :: itoa (now / second) ++ dot :: sum) later = true <->
  (0 <= later - now / second * second <= DeviceTrustAge)%Z /\
  exists r, rec' = Some r /\ pID (aUser r) = pID (aUser rec) /\ PasswordHash r = PasswordHash rec.
Proof.
  intros Hinj Hne Hdot Hnow Hsign. unfold sign in Hsign.
  destruct (mac (signMessage rec (itoa (now / second)))) as [x|] eqn:Hm; [|done].
  cbn [fmap option_fmap option_map] in Hsign. apply (inj Some) in Hsign as <-.
  unfold trustedBy, freshToken. rewrite split_token by (done || apply url_no_dot || (apply itoa_no_dot; lia)).
  assert (EncodeToString urlAlphabet x <> []) as Hx.
  { intros He. pose proof (Decode_Encode urlAlphabet x (or_intror eq_refl)) as Hd. rewrite He in Hd.
    injection Hd as Hd. exact (Hne _ _ Hm (eq_sym Hd)). }
  rewrite bool_decide_eq_false_2 by done. rewrite Atoi_itoa by done. cbv zeta.
  destruct (_ || _) eqn:Hage; [apply orb_true_iff in Hage as [Hage%Z.ltb_lt|Hage%Z.ltb_lt]; split; [done|lia|done|lia]|].
  apply orb_false_iff in Hage as [Hage%Z.ltb_ge Hage'%Z.ltb_ge].
  unfold signedBy. destruct rec' as [r|]; [|split; [done|naive_solver]].
  destruct (bool_decide_reflect (L (pID (aUser r)) = L (pID (aUser rec)))) as [Hid%L_inj|Hid]; cbn [negb].
  - rewrite bool_decide_eq_true. unfold sign. split.
    + intros Hs. split; [lia|]. exists r. split; [done|]. split; [done|].
      destruct (mac (signMessage r _)) as [y|] eqn:Hy; [|done]. cbn [fmap option_fmap option_map] in Hs. apply (inj Some) in Hs.
      assert (x = y) as <-.
      { pose proof (Decode_Encode urlAlphabet x (or_intror eq_refl)) as Hd. rewrite Hs, Decode_Encode in Hd by (by right). congruence. }
      pose proof (Hinj _ _ _ Hm Hy) as Hmsg. unfold signMessage in Hmsg. rewrite Hid in Hmsg.
      do 6 apply app_inv_head in Hmsg. by apply L_inj in Hmsg.
    + intros (_ & r0 & [= <-] & _ & Hh). assert (signMessage r (itoa (now / second)) = signMessage rec (itoa (now / second))) as ->.
      { unfold signMessage. by rewrite Hid, Hh. }
      by rewrite Hm.
  - split; [done|]. intros (_ & r0 & [= <-] & Hi & _). by rewrite Hi in Hid.
Qed.
