(* ===== verification/AccountApi.v ===== *)
(** internal/api/users.go, grants.go and invites.go: the account-management
    handlers, from the authenticated caller and the decoded body to the answer
    and what the hub is told.

    A handler's body is what [Decode] made of the request ([None]: refused);
    clock readings and random draws come with the request. *)
From S2P Require Import Prelude GoBytes Lifecycle Sql Store Authz UserStore UserLaws AccountSafe Argon Auth.

(** ** Answers *)

Inductive Code :=
| NotFound | Forbidden | Internal | NameTaken | StaleWrite | InvalidParameter | InviteInvalid | Unauthenticated | BadBody.

Inductive Body :=
| BError (c : Code)
| BInvalid (fields : list (string * string))     (* 422, with each field's problem *)
| BUsers (l : list PUser)
| BUser (status : Z) (u : PUser)
| BNoContent
| BPassword (p : string)
| BGrants (l : list (GrantRecord * string))
| BGrant (status : Z) (g : GrantRecord) (etag : string)
| BInvites (l : list (string * InviteRow))
| BIssued (token : string) (expires : Time).

(** The body, the connections to close and the grant changes announced. *)
Record Answer := mkAnswer { body : Body; closed : list Revocation; granted_ : list (string * string) }.
Definition answer (b : Body) : Answer := mkAnswer b [] [].
Definition fail_ (c : Code) : Answer := answer (BError c).

Definition Handler := UTxS -> Answer * UTxS.
Definition reply (a : Answer) : Handler := fun s => (a, s).
(** Run a store operation, answering an error as [bad] says. *)
Definition calling {A} (m : UTx A) (bad : TxErr -> Answer) (k : A -> Handler) : Handler := fun s =>
  match m s with
  | (Ok a, s') => k a s'
  | (Err e, s') => (bad e, s')
  end.
Definition internal (e : TxErr) : Answer := fail_ Internal.

(** What a request draws: identifiers, a salt, a generated secret, instants. *)
Record Draws := mkDraws {
  dID : string; dAudit : string; dSalt : bytes; dSecret : string; dNow : Time; dIPText : string
}.

(** The JSON of an audit entry's detail, from its fields. *)
Class AuditJSON := auditJSON : list (string * string) -> string.

Section Api.
Context `{Digest, Crypt, AuditJSON}.

Definition auditEntry (caller : PUser) (inst action detail : string) (d : Draws) : AuditEntry :=
  mkAudit "" (pID caller) inst action detail (dIPText d) "" "" "" "".

(** [Can] of the caller over the tables as they are; every route here asks for a
    global action, so nothing is looked up. *)
Definition may (caller : option PUser) (act : Action) (db : UDB) (now : Time) : bool :=
  @Can (tableGrants now db) (authzUser <$> caller) act "".

(** The guard every admin handler opens with. *)
Definition admin (caller : option PUser) (act : Action) (d : Draws) (k : PUser -> Handler) : Handler := fun s =>
  match caller with
  | Some u => if may caller act s.1 (dNow d) then k u s else (fail_ NotFound, s)
  | None => (fail_ NotFound, s)
  end.

Definition decoded {B} (b : option B) (k : B -> Handler) : Handler :=
  match b with Some b => k b | None => reply (fail_ BadBody) end.
Definition valid (fields : list (string * string)) (k : Handler) : Handler :=
  match fields with [] => k | _ => reply (answer (BInvalid fields)) end.

(** ** Shared validation (auth.go) *)

Definition minPasswordLength : nat := 8.
Definition checkPassword (field password : string) : list (string * string) :=
  if bool_decide (password = "") then [(field, "required")]
  else if (String.length password <? minPasswordLength)%nat then [(field, "too_short")] else [].
Definition validateCredentials (username password : string) : list (string * string) :=
  (if bool_decide (username = "") then [("username", "required")] else []) ++ checkPassword "password" password.

(** ** users.go *)

Definition auditTargetUser : string := "target_user_id".

(** [writeMutationError]. *)
Definition userMutationError (e : TxErr) : Answer :=
  if decide (e = ErrUserNotFound) then fail_ NotFound
  else if decide (e = ErrOwnerProtected) then fail_ Forbidden
  else fail_ Internal.

Definition usersList (caller : option PUser) (d : Draws) : Handler :=
  admin caller UsersManage d (fun _ => calling ListUsers internal (fun l => reply (answer (BUsers l)))).

Definition usersCreate (caller : option PUser) (d : Draws) (req : option (string * string * string)) : Handler :=
  admin caller UsersManage d (fun u => decoded req (fun '(username, password, role) =>
    valid (validateCredentials username password) (
    valid (if roleOK role then [] else [("role", "invalid")]) (
    calling LoadArgon2Params internal (fun p =>
    calling (hashPassword password p (dSalt d)) internal (fun h =>
    let detail := auditJSON [(auditTargetUser, dID d); ("username", username); ("role", role)] in
    calling (CreateUserAudited (dID d) username h role (dNow d) (dAudit d) (auditEntry u "" "users.create" detail d))
      (fun e => if decide (e = ErrUsernameTaken) then fail_ NameTaken else fail_ Internal)
      (fun _ => reply (answer (BUser 201 (mkPUser (dID d) username role false false (dNow d) None "" "" "")))))))))).

Definition boolText (b : bool) : string := if b then "true" else "false".

Definition usersUpdate (caller : option PUser) (d : Draws) (id : string) (req : option (option string * option bool)) : Handler :=
  admin caller UsersManage d (fun u => decoded req (fun '(newRole, newDisabled) =>
    valid (match newRole with Some r => if roleOK r then [] else [("role", "invalid")] | None => [] end) (
    calling (UserByID id) internal (fun current =>
    match current with
    | None => reply (fail_ NotFound)
    | Some current =>
        let role := default (pRole current) newRole in
        let disabled := default (pDisabled current) newDisabled in
        let revokeSessions := disabled || negb (bool_decide (role = pRole current)) in
        let detail := auditJSON [(auditTargetUser, id); ("role", role); ("disabled", boolText disabled)] in
        calling (UpdateUserAudited id role disabled revokeSessions (dAudit d) (dNow d) (auditEntry u "" "users.update" detail d))
          userMutationError
          (fun _ => reply (mkAnswer
             (BUser 200 (mkPUser id (pUsername current) role disabled (pOwner current) (pCreated current) (pLastLogin current) "" "" ""))
             (if revokeSessions then AnnounceUserRevoked id else []) []))
    end)))).

Definition usersDelete (caller : option PUser) (d : Draws) (id : string) : Handler :=
  admin caller UsersManage d (fun u =>
    calling (UserByID id) internal (fun current =>
    match current with
    | None => reply (fail_ NotFound)
    | Some current =>
        let detail := auditJSON [(auditTargetUser, id); ("username", pUsername current)] in
        calling (DeleteUserAudited id (dAudit d) (dNow d) (auditEntry u "" "users.delete" detail d)) userMutationError
          (fun _ => reply (mkAnswer BNoContent (AnnounceUserRevoked id) []))
    end)).

Definition usersResetPassword (caller : option PUser) (d : Draws) (id : string) : Handler :=
  admin caller UsersManage d (fun u =>
    let detail := auditJSON [(auditTargetUser, id)] in
    calling (SetPassword id (dSecret d) (dSalt d) (dAudit d) (dNow d) (auditEntry u "" "users.password.reset" detail d))
      userMutationError
      (fun closed => reply (mkAnswer (BPassword (dSecret d)) closed []))).

(** [updateSelf]; [validZone] is [validScheduleTimezone], which loads the
    host's zone. *)
Definition oneOf (x : option string) (l : list string) : bool :=
  match x with None => true | Some s => bool_decide (s ∈ l) end.
Definition usersUpdateSelf (validZone : string -> bool) (caller : option PUser) (req : option UserPreferences) : Handler :=
  match caller with
  | None => reply (fail_ Unauthenticated)
  | Some u => decoded req (fun p =>
      valid ((match Timezone p with
              | Some z => if negb (bool_decide (z = "")) && negb (validZone z) then [("timezone", "invalid")] else []
              | None => []
              end) ++
             (if oneOf (HourCycle p) [""; "h12"; "h23"] then [] else [("hour_cycle", "not_an_option")]) ++
             (if oneOf (DateOrder p) [""; "mdy"; "dmy"; "ymd"] then [] else [("date_order", "not_an_option")])) (
      calling (SetUserPreferences (pID u) p) userMutationError (fun _ =>
      calling (UserByID (pID u)) internal (fun current =>
      match current with
      | None => reply (fail_ NotFound)
      | Some c => reply (answer (BUser 200 c))
      end))))
  end.

(** ** grants.go *)

Definition quote : string := String (ascii_of_N 34) EmptyString.
Definition grantETag (g : GrantRecord) : string := String.append quote (String.append (Revision g) quote).

(** [validateGrant]: the problems found, and the names kept: once each, sorted. *)
Definition grantablePerm (name : string) : bool :=
  match ParseAction name with Some act => Grantable act | None => false end.
Fixpoint keepPerms (seen : list string) (perms : list string) : list string :=
  match perms with
  | [] => []
  | p :: rest =>
      if negb (grantablePerm p) then keepPerms seen rest
      else if bool_decide (p ∈ seen) then keepPerms seen rest
      else p :: keepPerms (p :: seen) rest
  end.
Definition validateGrant (role : string) (perms : list string) : list (string * string) * list string :=
  ((if grantRoleOK role then [] else [("role", "invalid")]) ++
   map (fun _ => ("perms", "invalid")) (filter (fun p => grantablePerm p = false) perms),
   merge_sort String.le (keepPerms [] perms)).

(** [grantCondition], from the two headers; an absent header is empty. *)
Definition grantCondition (ifMatch ifNoneMatch : string) : option GrantCondition :=
  if negb (bool_decide (ifMatch = "")) && negb (bool_decide (ifNoneMatch = "")) then None
  else if negb (bool_decide (ifNoneMatch = "")) then
    if bool_decide (ifNoneMatch = "*") then Some (mkCond true "") else None
  else
    let m := L ifMatch in
    let q := ascii_of_N 34 in
    if (length m <? 2)%nat || negb (bool_decide (head m = Some q)) || negb (bool_decide (last m = Some q)) then None
    else Some (mkCond false (S_ (take (length m - 2) (drop 1 m)))).

Definition instanceThere (inst : string) (k : Handler) : Handler :=
  calling (InstanceExists inst) internal (fun exists_ => if exists_ : bool then k else reply (fail_ NotFound)).

Definition grantMutationError (e : TxErr) : Answer :=
  if decide (e = ErrGrantPrecondition) then fail_ StaleWrite
  else if decide (e = ErrGrantNotFound \/ e = ErrUserNotFound \/ e = ErrInstanceNotFound) then fail_ NotFound
  else fail_ Internal.

Definition grantsList (caller : option PUser) (d : Draws) (inst : string) : Handler :=
  admin caller GrantsManage d (fun _ => instanceThere inst (
    calling (ListGrantRecords inst) internal (fun l => reply (answer (BGrants (map (fun g => (g, grantETag g)) l)))))).

Definition grantsGet (caller : option PUser) (d : Draws) (inst user : string) : Handler :=
  admin caller GrantsManage d (fun _ => instanceThere inst (
    calling (GrantRecordFor user inst) internal (fun g =>
    match g with
    | None => reply (fail_ NotFound)
    | Some g => reply (answer (BGrant 200 g (grantETag g)))
    end))).

Definition grantsPut (caller : option PUser) (d : Draws) (inst user ifMatch ifNoneMatch : string)
    (req : option (string * list string)) : Handler :=
  admin caller GrantsManage d (fun u => instanceThere inst (
    match grantCondition ifMatch ifNoneMatch with
    | None => reply (fail_ InvalidParameter)
    | Some c => decoded req (fun '(role, perms) =>
        let '(problems, clean) := validateGrant role perms in
        valid problems (
        let detail := auditJSON (("user_id", user) :: ("role", role) :: map (fun p => ("perms", p)) clean) in
        calling (ReplaceGrant user inst role clean c (dAudit d) (dNow d) (auditEntry u inst "instances.grants.write" detail d))
          grantMutationError
          (fun '(record, created) =>
             match record with
             | None => reply (fail_ Internal)
             | Some g => reply (mkAnswer (BGrant (if created : bool then 201 else 200) g (grantETag g)) [] [(user, inst)])
             end)))
    end)).

Definition grantsDelete (caller : option PUser) (d : Draws) (inst user ifMatch ifNoneMatch : string) : Handler :=
  admin caller GrantsManage d (fun u => instanceThere inst (
    match grantCondition ifMatch ifNoneMatch with
    | None => reply (fail_ InvalidParameter)
    | Some c =>
        if CreateOnly c then reply (fail_ InvalidParameter)
        else
          let detail := auditJSON [("user_id", user)] in
          calling (DeleteGrant user inst (condRevision c) (dAudit d) (dNow d) (auditEntry u inst "instances.grants.delete" detail d))
            grantMutationError
            (fun _ => reply (mkAnswer BNoContent [] [(user, inst)]))
    end)).

(** ** invites.go *)

Record IssueRequest := mkIssue { qInstance : option string; qRole : option string; qPerms : list string }.

Definition validateIssue (q : IssueRequest) (exists_ : bool) : list (string * string) :=
  (if bool_decide (is_Some (qInstance q)) && bool_decide (is_Some (qRole q)) ||
      negb (bool_decide (is_Some (qInstance q))) && negb (bool_decide (is_Some (qRole q))) then [] else [("instance_id", "invalid")]) ++
  (match qInstance q with Some _ => if exists_ then [] else [("instance_id", "invalid")] | None => [] end) ++
  (match qRole q with Some r => if grantRoleOK r then [] else [("grant_role", "invalid")] | None => [] end) ++
  (if forallb grantablePerm (qPerms q) then [] else [("grant_perms", "invalid")]).

Definition invitesIssue (ttl : Z) (caller : option PUser) (d : Draws) (req : option IssueRequest) : Handler :=
  admin caller InvitesManage d (fun u => decoded req (fun q =>
    calling (match qInstance q with Some i => InstanceExists i | None => tret true end) internal (fun exists_ =>
    valid (validateIssue q exists_) (
    let detail := auditJSON (("invite_id", dID d) :: ("instance_id", default "" (qInstance q)) ::
      ("grant_role", default "" (qRole q)) :: map (fun p => ("grant_perms", p)) (qPerms q)) in
    calling (Issue ttl (dID d) (dSecret d) (pID u) (qInstance q) (qRole q) (qPerms q) (dSalt d) (dNow d) (dAudit d)
               (mkAudit "" (pID u) "" "invites.issue" detail (dIPText d) "" "" "" "")) internal
      (fun '(code, v) => reply (answer (BIssued code (vExpires v)))))))).

Definition invitesList (caller : option PUser) (d : Draws) : Handler :=
  admin caller InvitesManage d (fun _ => calling ListInvites internal (fun l => reply (answer (BInvites l)))).

Definition invitesRevoke (caller : option PUser) (d : Draws) (id : string) : Handler :=
  admin caller InvitesManage d (fun u =>
    calling (InviteByID id) internal (fun v =>
    match v with
    | None => reply (fail_ NotFound)
    | Some _ =>
        calling (RevokeInviteAudited id (dNow d) (dAudit d) (auditEntry u "" "invites.revoke" (auditJSON [("invite_id", id)]) d))
          internal (fun _ => reply (answer BNoContent))
    end)).

End Api.

(** ** Every admin route *)

Inductive AdminCall :=
| CUsersList | CUsersCreate (req : option (string * string * string))
| CUsersUpdate (id : string) (req : option (option string * option bool))
| CUsersDelete (id : string) | CUsersReset (id : string)
| CGrantsList (inst : string) | CGrantsGet (inst user : string)
| CGrantsPut (inst user ifMatch ifNoneMatch : string) (req : option (string * list string))
| CGrantsDelete (inst user ifMatch ifNoneMatch : string)
| CInvitesIssue (req : option IssueRequest) | CInvitesList | CInvitesRevoke (id : string).

Section Routes.
Context `{Digest, Crypt, AuditJSON}.

Definition serve (ttl : Z) (call : AdminCall) (caller : option PUser) (d : Draws) : Handler :=
  match call with
  | CUsersList => usersList caller d
  | CUsersCreate req => usersCreate caller d req
  | CUsersUpdate id req => usersUpdate caller d id req
  | CUsersDelete id => usersDelete caller d id
  | CUsersReset id => usersResetPassword caller d id
  | CGrantsList inst => grantsList caller d inst
  | CGrantsGet inst user => grantsGet caller d inst user
  | CGrantsPut inst user m n req => grantsPut caller d inst user m n req
  | CGrantsDelete inst user m n => grantsDelete caller d inst user m n
  | CInvitesIssue req => invitesIssue ttl caller d req
  | CInvitesList => invitesList caller d
  | CInvitesRevoke id => invitesRevoke caller d id
  end.

(** ** Lemmas *)

Definition isAdmin (caller : option PUser) : Prop :=
  exists u, caller = Some u /\ pDisabled u = false /\ pRole u = RoleAdmin.

Lemma may_iff caller act db now : may caller act db now = true <-> isAdmin caller.
Proof.
  unfold may. rewrite (@Can_char (tableGrants now db)). unfold isAdmin. destruct caller as [u|]; cbn.
  - split.
    + intros (x & [= <-] & Hd & [Ha|[Hne _]]); [|done]. by exists u.
    + intros (x & [= <-] & Hd & Ha). exists (authzUser u). auto.
  - split; [intros (? & ? & _)|intros (? & ? & _)]; done.
Qed.

Lemma admin_refused caller act d k s : ~ isAdmin caller -> admin caller act d k s = (fail_ NotFound, s).
Proof.
  intros Hn. unfold admin. destruct caller as [u|]; [|done].
  destruct (may (Some u) act s.1 (dNow d)) eqn:Hm; [|done]. by apply may_iff in Hm.
Qed.

Lemma admin_allowed u act d k s : pDisabled u = false -> pRole u = RoleAdmin -> admin (Some u) act d k s = k u s.
Proof.
  intros Hd Ha. unfold admin. destruct (may (Some u) act s.1 (dNow d)) eqn:Hm; [done|].
  assert (may (Some u) act s.1 (dNow d) = true) by (apply may_iff; by exists u). congruence.
Qed.

(** The names [keepPerms] keeps. *)
Lemma keepPerms_elem perms : forall seen p,
  p ∈ keepPerms seen perms <-> p ∈ perms /\ grantablePerm p = true /\ p ∉ seen.
Proof.
  induction perms as [|x perms IH]; intros seen p; cbn [keepPerms]; [set_solver|].
  destruct (grantablePerm x) eqn:Hx; cbn [negb].
  - destruct (bool_decide_reflect (x ∈ seen)) as [Hin|Hin].
    + rewrite IH, elem_of_cons. naive_solver.
    + rewrite !elem_of_cons, IH, not_elem_of_cons. destruct (decide (p = x)); naive_solver.
  - rewrite IH, elem_of_cons. split; [naive_solver|]. intros ([->|?] & ? & ?); [congruence|done].
Qed.

Lemma keepPerms_nodup perms : forall seen, NoDup (keepPerms seen perms).
Proof.
  induction perms as [|x perms IH]; intros seen; cbn [keepPerms]; [constructor|].
  destruct (negb _); [apply IH|]. case_bool_decide; [apply IH|]. constructor; [|apply IH].
  rewrite keepPerms_elem. set_solver.
Qed.

Lemma grantablePerm_iff p : grantablePerm p = true <-> exists act, p = name act /\ act ∉ neverGrantableSet.
Proof.
  unfold grantablePerm, Grantable. split.
  - destruct (ParseAction p) as [act|] eqn:E; [|done]. intros Hn%negb_true_iff%bool_decide_eq_false.
    apply ParseAction_Some in E. by exists act.
  - intros (act & -> & Hn). rewrite ParseAction_name. by apply negb_true_iff, bool_decide_eq_false.
Qed.

Lemma grantProblems_nil role perms :
  (if grantRoleOK role then [] else [("role", "invalid")]) ++
    map (fun _ : string => ("perms", "invalid")) (filter (fun p => grantablePerm p = false) perms) = [] <->
  grantRoleOK role = true /\ Forall (fun p => grantablePerm p = true) perms.
Proof.
  rewrite app_nil. destruct (grantRoleOK role); [|naive_solver]. split.
  - intros [_ Hm%map_eq_nil]. split; [done|]. apply Forall_forall. intros p Hp.
    destruct (grantablePerm p) eqn:Hg; [done|]. assert (p ∈ filter (fun p => grantablePerm p = false) perms) as Hin.
    { by apply list_elem_of_filter. }
    rewrite Hm in Hin. by apply not_elem_of_nil in Hin.
  - intros [_ Hf]. split; [done|]. assert (filter (fun p => grantablePerm p = false) perms = []) as ->; [|done].
    induction Hf as [|p l Hp _ IH]; [done|]. rewrite filter_cons_False by congruence. exact IH.
Qed.

Lemma calling_cases {A} (m : UTx A) bad k s (a : Answer) s' : calling m bad k s = (a, s') ->
  (exists x s1, m s = (Ok x, s1) /\ k x s1 = (a, s')) \/ (exists e, m s = (Err e, s') /\ a = bad e).
Proof. unfold calling. destruct (m s) as [[x|e] s1]; [eauto|]. intros [= <- <-]. eauto. Qed.

End Routes.

(** ** Properties *)

(** C36. Account management is the admins': for every route of the three files, a
    caller who is not an enabled admin is told the resource does not exist, and
    no table is read, written or announced on, whatever the request says. *)
Theorem admin_routes_closed `{Digest, Crypt, AuditJSON} (ttl : Z) (call : AdminCall) (caller : option PUser) (d : Draws) (s : UTxS) :
  ~ isAdmin caller -> serve ttl call caller d s = (fail_ NotFound, s).
Proof. intros Hn. destruct call; cbn [serve]; by apply admin_refused. Qed.

(** What a grant request may store: it passes exactly when its role is a
    role and every permission named is a registered, grantable action; the list
    stored then has each name once, in order, and every one of them takes
    effect, so nothing stored is dropped or kept back by [Can]. *)
Theorem validateGrant_spec (role : string) (perms : list string) :
  let '(problems, clean) := validateGrant role perms in
  (problems = [] <-> grantRoleOK role = true /\ Forall (fun p => exists act, p = name act /\ act ∉ neverGrantableSet) perms) /\
  Sorted String.le clean /\ NoDup clean /\
  (problems = [] -> forall p, p ∈ clean <-> p ∈ perms) /\
  (forall act, name act ∈ clean -> act ∈ granted (mkGrant role clean)).
Proof.
  unfold validateGrant. cbv beta iota.
  assert (forall p, p ∈ merge_sort String.le (keepPerms [] perms) <-> p ∈ perms /\ grantablePerm p = true) as Hel.
  { intros p. rewrite merge_sort_Permutation, keepPerms_elem. set_solver. }
  pose proof (grantProblems_nil role perms) as Hnil.
  split; [|split; [|split; [|split]]].
  - rewrite Hnil. apply and_iff_compat_l. split; intros Hf; (eapply Forall_impl; [exact Hf|]); intros p; by rewrite grantablePerm_iff.
  - apply Sorted_merge_sort. apply _.
  - rewrite merge_sort_Permutation. apply keepPerms_nodup.
  - intros [_ Hf]%Hnil p. rewrite Hel. rewrite Forall_forall in Hf. naive_solver.
  - intros act Hin. apply elem_of_granted. right; left. split; [exact Hin|].
    apply Hel in Hin as [_ (a & Ha & Hn)%grantablePerm_iff]. assert (act = a) as ->; [|done].
    apply (f_equal ParseAction) in Ha. rewrite !ParseAction_name in Ha. by injection Ha.
Qed.

(** An ETag read back is the precondition it was made for: sent in
    If-Match, the tag of a record is the condition on that record's revision. *)
Theorem grantCondition_ETag `{Digest} (g : GrantRecord) :
  grantCondition (grantETag g) "" = Some (mkCond false (Revision g)).
Proof.
  unfold grantCondition, grantETag. set (q := ascii_of_N 34).
  assert (L (String.append quote (String.append (Revision g) quote)) = q :: L (Revision g) ++ [q]) as HL.
  { by rewrite !L_append. }
  rewrite (bool_decide_eq_false_2 (_ = "")) by done. rewrite (bool_decide_eq_true_2 ("" = "")) by done. cbn [negb andb].
  rewrite HL. cbn [length]. rewrite length_app. cbn [length].
  replace (S (length (L (Revision g)) + 1) <? 2)%nat with false by (symmetry; apply Nat.ltb_ge; lia).
  cbn [head orb]. rewrite bool_decide_eq_true_2 by done. replace (last (q :: L (Revision g) ++ [q])) with (Some q) by (by rewrite app_comm_cons, last_snoc).
  rewrite bool_decide_eq_true_2 by done. cbn [negb orb]. change (drop 1 (q :: L (Revision g) ++ [q])) with (L (Revision g) ++ [q]).
  replace (S (length (L (Revision g)) + 1) - 2)%nat with (length (L (Revision g))) by lia.
  rewrite take_app_length. by rewrite String.string_of_list_ascii_of_string.
Qed.

(** Cutting an account off takes hold at once: when the update of an account
    is answered with it disabled, or under another role than the row had, none of
    its sessions is left to authenticate and the hub is told to close its
    connections. *)
Theorem usersUpdate_cuts_off `{Digest, Crypt, AuditJSON} (caller : option PUser) (d : Draws) (id : string)
    (req : option (option string * option bool)) (s s' : UTxS) (a : Answer) (u : PUser) (r : UserRow) :
  usersUpdate caller d id req s = (a, s') -> body a = BUser 200 u ->
  tUsers s.1 !! id = Some r -> pDisabled u = true \/ pRole u <> uRole r ->
  ("", id) ∈ closed a /\
  tUsers s'.1 !! id = Some (setRole (pRole u) (pDisabled u) r) /\
  forall token n1 n2 sid x v, sessionAndUser token n1 n2 s'.1 = Some (sid, x, v) -> pID v <> id.
Proof.
  unfold usersUpdate, admin. destruct caller as [c|]; [|by intros [= <- _]]. destruct (may _ _ _ _); [|by intros [= <- _]].
  destruct req as [[newRole newDisabled]|]; [|by intros [= <- _]]. cbn [decoded]. unfold valid.
  destruct (match newRole with Some _ => _ | None => _ end); [|by intros [= <- _]].
  intros [(cur & s1 & [Hc Hs1]%readq_Ok & E)|(e & _ & ->)]%calling_cases Hb Hr Hcut; [|done].
  rewrite Hr in Hc. cbn [fmap option_fmap option_map] in Hc. subst cur. cbv iota zeta in E.
  cbn [userOf pRole pDisabled] in E.
  apply calling_cases in E as [(w & s2 & E & Ha)|(e & _ & ->)].
  2: { revert Hb. unfold userMutationError. by repeat case_decide. }
  injection Ha as <- <-. cbn [body] in Hb. injection Hb as <-. cbn [pDisabled pRole closed] in *.
  pose proof (UpdateUserAudited_effect id (default (uRole r) newRole) (default (uDisabled r) newDisabled)
    (default (uDisabled r) newDisabled || negb (bool_decide (default (uRole r) newRole = uRole r)))
    (dAudit d) (dNow d) (auditEntry c "" "users.update"
      (auditJSON [(auditTargetUser, id); ("role", default (uRole r) newRole);
         ("disabled", boolText (default (uDisabled r) newDisabled))]) d) s1) as Heff.
  rewrite E in Heff. destruct Heff as ((r0 & Hr0 & Hu & _) & _ & Hgone & _). rewrite Hs1, Hr in Hr0. injection Hr0 as <-.
  assert (default (uDisabled r) newDisabled || negb (bool_decide (default (uRole r) newRole = uRole r)) = true) as Hrev.
  { apply orb_true_iff. destruct Hcut as [Hd|Hne]; [by left|right]. apply negb_true_iff, bool_decide_eq_false. exact Hne. }
  rewrite Hrev in *. split; [by left|]. split; [by rewrite Hu, lookup_insert_eq|]. exact (Hgone eq_refl).
Qed.
