(* ===== verification/AuthWitness.v ===== *)
(** A small panel the account properties are tried on: an owner, a member with
    a session, a grant and an invite; argon2, SHA-256 and the MAC stood in for by
    concrete functions. *)
From S2P Require Import Prelude GoBytes Lifecycle Sql Store Authz UserStore UserLaws AccountSafe Argon Auth AuthSafe AccountApi.

Definition toyDigest : Digest := {|
  marshalGrant g := String.append (grUser g) (String.append "/" (grInstance g));
  sha256hex s := s
|}.

Definition toyHash (password : string) : string :=
  match HashPassword toyKey (L password) toyParams (L "salt") with Some h => S_ h | None => "" end.

Definition toyCrypt : Crypt := {| IDKey := toyKey; sha256 := fun s => s; dummyHash := toyHash "dummy" |}.
#[local] Existing Instances toyDigest toyCrypt.

Definition anInst : Inst := mkInst "world" StateStopped None None false false None 0.
Definition memberRow : UserRow := mkUserRow "ann" (toyHash "secret") RoleMember false false 1 None "" "" "".
Definition rootRow : UserRow := mkUserRow "root" (toyHash "toor") RoleAdmin false true 0 None "" "" "".
Definition cfg0 : SessionConfig := mkSessionConfig 100 1000 10.
Definition opening0 : Opening := mkOpening "s1" (L "abc") 50 "127.0.0.1" "ua".
Definition session0 : SessionRow := mkSessionRow "tok" "u1" 0 0 100 1000 None "" "".
Definition invite0 : InviteRow :=
  mkInviteRow (toyHash "CODE") "o" (Some "i1") (Some GrantViewer) ["mods.manage"] 500 0 None None None.

Definition panelDB : UDB :=
  mkUDB {["o" := rootRow; "u1" := memberRow]} {["s0" := session0]} {[("u1", "i1") := mkGrantRow GrantOperator [] (Some "o") 0 (Some 90%Z)]}
    {["v1" := invite0]} {["i1" := anInst]} ∅ None (Some toyParams).

Definition auditBy (u action : string) : AuditEntry := mkAudit "" u "" action "" "" "" "" "" "".

Definition runOps : list (PanelOp * faults) :=
  [(ODeleteUser "o" "a1" 1 (auditBy "u1" "users.delete"), []);
   (OUpdateUser "o" RoleMember true true "a2" 2 (auditBy "u1" "users.update"), []);
   (ORedeem "v1" invite0 "u2" "bob" "h" 3 "a3" (auditBy "u2" "invites.redeem"), []);
   (ORedeem "v1" invite0 "u3" "eve" "h" 4 "a4" (auditBy "u3" "invites.redeem"), []);
   (ODeleteUser "u1" "a5" 5 (auditBy "o" "users.delete"), [false; false; true])].

Lemma panel_owned : owns "o" panelDB.
Proof. by exists rootRow. Qed.

Lemma panel_wf : wf panelDB.
Proof.
  split; cbn [panelDB tUsers tSessions tGrants tInvites tInsts].
  - split.
    + intros i j r r' Hi Hj. apply lookup_insert_Some in Hi as [[<- <-]|[_ [<- <-]%lookup_singleton_Some]];
        apply lookup_insert_Some in Hj as [[<- <-]|[_ [<- <-]%lookup_singleton_Some]]; done.
    + intros i j r r' Hi Hj. apply lookup_insert_Some in Hi as [[<- <-]|[_ [<- <-]%lookup_singleton_Some]];
        apply lookup_insert_Some in Hj as [[<- <-]|[_ [<- <-]%lookup_singleton_Some]]; done.
    + intros i r Hi. by apply lookup_insert_Some in Hi as [[<- <-]|[_ [<- <-]%lookup_singleton_Some]].
  - split.
    + intros k s [<- <-]%lookup_singleton_Some. by eexists memberRow.
    + by intros k k' s s' [<- <-]%lookup_singleton_Some [<- <-]%lookup_singleton_Some.
  - intros k g [<- <-]%lookup_singleton_Some. split; [by exists memberRow|by exists anInst|done|].
    intros b [= <-]. by exists rootRow.
  - split.
    + intros k v [<- <-]%lookup_singleton_Some. split; [by exists rootRow| |by intros r [= <-]|done].
      intros i [= <-]. by exists anInst.
    + by intros k k' v v' [<- <-]%lookup_singleton_Some [<- <-]%lookup_singleton_Some.
Qed.


Example owner_survives_witness :
  map (fun x => is_ok x.2) (exec runOps panelDB).1 = [false; false; true; false; false] /\ owns "o" (exec runOps panelDB).2.
Proof. split; [vm_compute; reflexivity|]. apply owner_survives, panel_owned. Defined.

Example invite_redeemed_once_witness :
  (length (filter (redeems "v1") (exec runOps panelDB).1) <= 1)%nat.
Proof. apply invite_redeemed_once. by repeat constructor. Defined.

(** The operator's grant of the panel ends at 90. *)
Example visible_iff_viewable_witness :
  let u := Some (Authz.mkUser "u1" RoleMember false) in
  match @VisibleInstances (tableGrants 80 panelDB) u with
  | None => False
  | Some (ids, all) => (all = true \/ "i1" ∈ ids) <-> @Can (tableGrants 80 panelDB) u InstanceView "i1" = true
  end.
Proof. apply visible_iff_viewable; [exact panel_wf|by exists anInst|done]. Defined.

Example session_lifetime_witness :
  let ops := [(OTouchSession "s0" 60 100 10, []); (OTouchSession "s0" 65 100 10, [true])] in
  exists x u, sessionAndUser "tok" 150 999 (exec ops panelDB).2 = Some ("s0", x, u) /\ (999 < sCreated x + 1000)%Z.
Proof.
  intros ops. exists (touchRow 60 100 session0), (joinedUser "u1" memberRow).
  assert (sessionAndUser "tok" 150 999 (exec ops panelDB).2 =
    Some ("s0", touchRow 60 100 session0, joinedUser "u1" memberRow)) as E by (vm_compute; reflexivity).
  split; [exact E|].
  refine (proj1 (proj1 (session_lifetime 1000 ops panelDB "tok" 150 999 _ _ _ _ _ E))).
  - intros k y Hk. cbn [panelDB tSessions] in Hk. apply lookup_singleton_Some in Hk as [<- <-]. reflexivity.
  - repeat constructor.
Defined.

(** A run and its answer, from the projections that are computed. *)
Lemma run_to {A} (m : UTx A) s a : (m s).1 = Ok a -> m s = (Ok a, (m s).2).
Proof. destruct (m s) as [r s']. cbn. by intros ->. Qed.

Definition login0 := Login cfg0 "ann" "secret" (L "pepper") opening0 (panelDB, []).


Definition cookie0 : bytes := EncodeToString urlAlphabet (L "tok").

Example Authenticate_sound_witness :
  exists x r, tSessions panelDB !! "s0" = Some x /\ tUsers panelDB !! sUser x = Some r /\ uDisabled r = false.
Proof.
  assert ((Authenticate cfg0 cookie0 50 50 60 (panelDB, [])).1 = Ok (Some (joinedUser "u1" memberRow, "s0"))) as E
    by (vm_compute; reflexivity).
  apply run_to in E.
  destruct (Authenticate_sound cfg0 cookie0 50 50 60 (panelDB, []) _ _ _ E) as (x & r & Hx & _ & _ & Hr & Hd & _).
  exists x, r. split; [exact Hx|]. split; [exact Hr|exact Hd].
Defined.

Definition freshPanel : UDB := mkUDB ∅ ∅ ∅ ∅ ∅ ∅ None (Some toyParams).

Example printed_token_sets_up_witness :
  exists token s1, PrintToken (L "xyz") 0 (freshPanel, []) = (Ok (Some token), s1) /\
    exists u s2, Setup token "root" "password" (L "salt") "o" 600000000000 600000000001 (s1.1, []) = (Ok u, s2) /\ owns "o" s2.1.
Proof.
  apply (printed_token_sets_up (L "xyz") "root" "password" (L "salt") "o" 0 600000000000 600000000001 freshPanel eq_refl).
  - unfold setupTokenTTL. lia.
  - intros p. cbn. discriminate.
Defined.

Definition pendingPanel : UDB :=
  mkUDB ∅ ∅ ∅ ∅ ∅ ∅ (Some (mkBootstrap true "xyz" 900)) (Some toyParams).

Example Setup_spec_witness :
  exists s' : UTxS, owns "o" (fst s') /\
    fst (Setup (EncodeToString urlAlphabet (L "xyz")) "root" "password" (L "salt") "o" 100 101 (pendingPanel, [])) =
      Ok (userOf "o" (newUserRow "root" (toyHash "password") RoleAdmin true 101)).
Proof.
  assert ((Setup (EncodeToString urlAlphabet (L "xyz")) "root" "password" (L "salt") "o" 100 101 (pendingPanel, [])).1 =
      Ok (userOf "o" (newUserRow "root" (toyHash "password") RoleAdmin true 101))) as E by (vm_compute; reflexivity).
  eexists. split; [|exact E]. apply run_to in E.
  exact (proj1 (proj2 (proj2 (proj2 (Setup_spec _ _ _ _ _ _ _ _ _ _ E))))).
Defined.

Example Redeem_spec_witness :
  exists s' : UTxS, tGrants (fst s') !! ("u2", "i1") = Some (mkGrantRow GrantViewer ["mods.manage"] (Some "o") 60 None) /\
    fst (Redeem "CODE" "bob" "password" (L "salt") "u2" 50 60 "a1" (auditBy "u2" "invites.redeem") (panelDB, [])) =
      Ok (userOf "u2" (newUserRow "bob" (toyHash "password") RoleMember false 60), ("v1", invite0)).
Proof.
  assert ((Redeem "CODE" "bob" "password" (L "salt") "u2" 50 60 "a1" (auditBy "u2" "invites.redeem") (panelDB, [])).1 =
      Ok (userOf "u2" (newUserRow "bob" (toyHash "password") RoleMember false 60), ("v1", invite0))) as E by (vm_compute; reflexivity).
  eexists. split; [|exact E]. apply run_to in E.
  destruct (Redeem_spec _ _ _ _ _ _ _ _ _ _ _ _ _ _ E) as (_ & _ & _ & _ & _ & _ & _ & Hg & _).
  rewrite Hg. cbn [vInstance vRole invite0]. apply lookup_insert_eq.
Defined.

Definition rootRecord : AuthRecord := scanUser "o" rootRow.

Definition toyMac (m : bytes) : option bytes := Some ("+"%char :: m).

Example device_trust_witness :
  trustedBy toyMac (Some rootRecord)
    (L "o" ++ dot :: itoa (5000000000 / second) ++
      dot :: EncodeToString urlAlphabet ("+"%char :: signMessage rootRecord (itoa (5000000000 / second))))
    6000000000 = true.
Proof.
  apply (device_trust toyMac rootRecord _ 5000000000 6000000000 (Some rootRecord)).
  - intros m m' x. unfold toyMac. congruence.
  - intros m x. unfold toyMac. congruence.
  - apply (bool_decide_unpack _). vm_compute. exact I.
  - vm_compute. split; congruence.
  - reflexivity.
  - split; [vm_compute; split; congruence|]. exists rootRecord. split; [reflexivity|]. split; reflexivity.
Defined.

Definition theDraws : Draws := mkDraws "id1" "a1" (L "salt") "generated" 70 "127.0.0.1".
Definition toyJSON : AuditJSON := fun l => String.concat "," (map fst l).
#[local] Existing Instance toyJSON.

Example admin_routes_closed_witness :
  serve 100 (CUsersDelete "u1") (Some (userOf "u1" memberRow)) theDraws (panelDB, [true]) = (fail_ NotFound, (panelDB, [true])).
Proof. apply admin_routes_closed. intros (u & [= <-] & _ & H). discriminate H. Defined.

Example usersUpdate_cuts_off_witness :
  ("", "u1") ∈ closed (fst (usersUpdate (Some (userOf "o" rootRow)) theDraws "u1" (Some (None, Some true)) (panelDB, []))).
Proof.
  assert (body (usersUpdate (Some (userOf "o" rootRow)) theDraws "u1" (Some (None, Some true)) (panelDB, [])).1 =
    BUser 200 (mkPUser "u1" "ann" RoleMember true false 1 None "" "" "")) as E by (vm_compute; reflexivity).
  refine (proj1 (usersUpdate_cuts_off _ _ _ _ (panelDB, []) _ _ _ memberRow (surjective_pairing _) E eq_refl _)).
  left. reflexivity.
Defined.
