(* ===== verification/Keeper.v ===== *)
(** internal/crypto/crypto.go and masterkey.go: the panel's master key, the
    subkeys derived from it, the envelope every stored secret is sealed in, and
    what a start settles before it hands the keeper out.

    The primitives are a class: HKDF and HMAC over SHA-256, and
    XChaCha20-Poly1305.  Random draws are arguments.  The key file's system calls
    and the kv statements are statements of Sql, so a fault stream covers a start
    that stops anywhere. *)
From S2P Require Import Prelude GoBytes Lifecycle Sql UserStore Argon.

Open Scope Z_scope.

(** ** Primitives *)

Class Cipher := {
  hkdfKey : bytes -> bytes -> bytes -> Z -> option bytes;     (* secret, salt, info, length *)
  hmac : bytes -> bytes -> bytes;                             (* key, message *)
  seal : bytes -> bytes -> bytes -> bytes -> bytes;           (* key, nonce, plaintext, additional data *)
  unseal : bytes -> bytes -> bytes -> bytes -> option bytes   (* key, nonce, ciphertext, additional data *)
}.
Class CipherLaws `{Cipher} := {
  hkdf_32 : forall secret salt info, exists k, hkdfKey secret salt info 32 = Some k /\ length k = 32%nat;
  unseal_seal : forall k n p ad, unseal k n (seal k n p ad) ad = Some p
}.

(** ** Purposes and locations *)

Definition Purpose := string.
Definition PurposeInstancePassword : Purpose := "instance-password".
Definition PurposeTOTPSecret : Purpose := "totp-secret".
Definition PurposeCookieMAC : Purpose := "cookie-mac".
Definition PurposeCSRF : Purpose := "csrf".
Definition PurposeWebhookURL : Purpose := "webhook-url".
Definition PurposeKeyCheck : Purpose := "key-check".
Definition PurposeRemoteBackup : Purpose := "remote-backup".
Definition PurposeDiscordToken : Purpose := "discord-token".
Definition PurposeBranchPassword : Purpose := "branch-password".

Definition purposes : list Purpose :=
  [PurposeInstancePassword; PurposeTOTPSecret; PurposeCookieMAC; PurposeCSRF; PurposeWebhookURL; PurposeKeyCheck;
   PurposeRemoteBackup; PurposeDiscordToken; PurposeBranchPassword].

Record Location := mkLocation { lTable : string; lColumn : string; lRowID : string }.
Definition InstancePasswordLocation (id : string) : Location := mkLocation "instances" "password" id.
Definition BranchPasswordLocation (id : string) : Location := mkLocation "instances" "game_branch_password" id.
Definition WebhookURLLocation (id : string) : Location := mkLocation "webhooks" "url" id.
Definition DiscordTokenLocation (id : string) : Location := mkLocation "discord_bot" "token" id.

Definition MasterKeyLen : nat := 32.
Definition subkeyLen : Z := 32.
Definition saltLen : nat := 32.
Definition NonceSizeX : nat := 24.
Definition envelopeVersion : bytes := L "v1".
Definition keyCheckPlaintext : bytes := L "valmin key check".
Definition firstKeyID : bytes := L "1".
Definition keyCheckLocation : Location := mkLocation "kv" "value" "key_check".

(** [keyIDPattern]. *)
Definition keyIDByte (c : ascii) : bool := is_alnum c || one_of ["_"; "-"]%char c.
Definition keyIDOK (s : bytes) : bool := (1 <=? length s)%nat && (length s <=? 64)%nat && forallb keyIDByte s.

(** [binary.AppendUvarint] of a 64-bit number. *)
Fixpoint uvarint (fuel : nat) (n : N) : bytes :=
  match fuel with
  | O => []
  | S fuel => if (n <? 128)%N then [ascii_of_N n] else ascii_of_N (n mod 128 + 128) :: uvarint fuel (n / 128)
  end.
Definition prefixed (s : string) : bytes := uvarint 10 (N.of_nat (String.length s)) ++ L s.
Definition aad (p : Purpose) (l : Location) : bytes :=
  prefixed p ++ prefixed (lTable l) ++ prefixed (lColumn l) ++ prefixed (lRowID l).

(** ** Errors *)

Definition ErrPurpose : TxErr := EHook "unknown purpose".
Definition ErrDerive : TxErr := EHook "derive subkey".
Definition ErrEnvelope : TxErr := EHook "envelope".
Definition ErrDecrypt : TxErr := EHook "ciphertext failed authentication".
Definition ErrKeyMismatch : TxErr := EHook "the master key does not match this database".
Definition ErrKeyMissing : TxErr := EHook "master key file is missing".
Definition ErrKeyMaterial : TxErr := EHook "key material".
Definition ErrMasterKey : TxErr := EHook "master key".
Definition ErrGeneration : TxErr := EHook "not a generation counter".

(** ** The keeper *)

Record Keeper := mkKeeper { masterKey : bytes; salt_ : bytes; activeKeyID : bytes }.

Definition NewKeeper (masterKey salt activeKeyID : bytes) : result TxErr Keeper :=
  if negb (length masterKey =? MasterKeyLen)%nat then Err ErrKeyMaterial
  else if (length salt =? 0)%nat then Err ErrKeyMaterial
  else if negb (keyIDOK activeKeyID) then Err ErrKeyMaterial
  else Ok (mkKeeper masterKey salt activeKeyID).

Section Keeper.
Context `{Cipher}.

Definition subkey (k : Keeper) (p : Purpose) (keyID : bytes) : result TxErr bytes :=
  if negb (bool_decide (p ∈ purposes)) then Err ErrPurpose
  else match hkdfKey (masterKey k) (salt_ k) (keyID ++ L "/" ++ L p) subkeyLen with
       | Some sub => Ok sub
       | None => Err ErrDerive
       end.

(** [NewX] takes a key of 32 bytes. *)
Definition aead (k : Keeper) (p : Purpose) (keyID : bytes) : result TxErr bytes :=
  let? sub := subkey k p keyID in
  if (length sub =? 32)%nat then Ok sub else Err ErrDerive.

Definition Encrypt (k : Keeper) (p : Purpose) (loc : Location) (plaintext nonce : bytes) : result TxErr bytes :=
  let keyID := activeKeyID k in
  let? key := aead k p keyID in
  Ok (join (L ".") [envelopeVersion; keyID; EncodeToString urlAlphabet nonce;
                    EncodeToString urlAlphabet (seal key nonce plaintext (aad p loc))]).

Definition Decrypt (k : Keeper) (p : Purpose) (loc : Location) (envelope : bytes) : result TxErr bytes :=
  match split "."%char envelope with
  | [version; keyID; nonce; sealed] =>
      if negb (bool_decide (version = envelopeVersion)) then Err ErrEnvelope
      else if negb (keyIDOK keyID) then Err ErrEnvelope
      else match DecodeString urlAlphabet nonce with
           | None => Err ErrEnvelope
           | Some nonce =>
               if negb (length nonce =? NonceSizeX)%nat then Err ErrEnvelope
               else match DecodeString urlAlphabet sealed with
                    | None => Err ErrEnvelope
                    | Some sealed =>
                        let? key := aead k p keyID in
                        match unseal key nonce sealed (aad p loc) with
                        | Some plaintext => Ok plaintext
                        | None => Err ErrDecrypt
                        end
                    end
           end
  | _ => Err ErrEnvelope
  end.

Definition MAC (k : Keeper) (p : Purpose) (msg : bytes) : result TxErr bytes :=
  let? sub := subkey k p firstKeyID in Ok (hmac sub msg).

End Keeper.

(** ** The database and the disk *)

(** The sealed columns (store/rotate.go). *)
Inductive Col := RemoteCredentials | InstancePassword | BranchPassword | TotpSecret | WebhookURL | DiscordToken.
#[export] Instance Col_eq_dec : EqDecision Col.
Proof. solve_decision. Defined.
Definition encryptedColumns : list Col :=
  [RemoteCredentials; InstancePassword; BranchPassword; TotpSecret; WebhookURL; DiscordToken].
Definition colNat (c : Col) : nat :=
  match c with
  | RemoteCredentials => 0 | InstancePassword => 1 | BranchPassword => 2 | TotpSecret => 3 | WebhookURL => 4 | DiscordToken => 5
  end.
#[export] Instance Col_countable : Countable Col.
Proof. refine (inj_countable colNat (fun n => encryptedColumns !! n) _). by intros []. Defined.

Record KeyFile := mkKeyFile { fBytes : bytes; fRegular : bool; fPerm : Z }.

(** The kv rows, the key file and the temporary beside it, the sealed values by
    column and row, and a flag of the row: whether what it configures is on or, for a
    server password, whether the server must restart. *)
Record SecretDB := mkSecretDB {
  kvSalt : option bytes; kvActive : option bytes; kvCheck : option bytes;
  keyFile : option KeyFile; tmpKey : option bytes;
  values : gmap (Col * string) bytes; flags : gmap (Col * string) bool
}.
Definition KTx (A : Type) := Tx SecretDB A.

Definition setSalt (v : bytes) (d : SecretDB) := mkSecretDB (Some v) (kvActive d) (kvCheck d) (keyFile d) (tmpKey d) (values d) (flags d).
Definition setActive (v : bytes) (d : SecretDB) := mkSecretDB (kvSalt d) (Some v) (kvCheck d) (keyFile d) (tmpKey d) (values d) (flags d).
Definition setCheck (v : bytes) (d : SecretDB) := mkSecretDB (kvSalt d) (kvActive d) (Some v) (keyFile d) (tmpKey d) (values d) (flags d).
Definition setFile (v : option KeyFile) (d : SecretDB) := mkSecretDB (kvSalt d) (kvActive d) (kvCheck d) v (tmpKey d) (values d) (flags d).
Definition setTmp (v : option bytes) (d : SecretDB) := mkSecretDB (kvSalt d) (kvActive d) (kvCheck d) (keyFile d) v (values d) (flags d).
Definition setValues (v : gmap (Col * string) bytes) (d : SecretDB) :=
  mkSecretDB (kvSalt d) (kvActive d) (kvCheck d) (keyFile d) (tmpKey d) v (flags d).
Definition setFlags (v : gmap (Col * string) bool) (d : SecretDB) :=
  mkSecretDB (kvSalt d) (kvActive d) (kvCheck d) (keyFile d) (tmpKey d) (values d) v.

Definition lift {A} (r : result TxErr A) : KTx A := match r with Ok a => tret a | Err e => tfail e end.

(** ** encoding/base64, with padding *)

Definition EncodePadded (s : bytes) : bytes :=
  EncodeToString stdAlphabet s ++ replicate ((3 - length s mod 3) mod 3) "="%char.
Definition DecodePadded (s : bytes) : option bytes :=
  let s := filter (fun c => c <> "010"%char /\ c <> "013"%char) s in
  if negb (length s mod 4 =? 0)%nat then None
  else DecodeString stdAlphabet (if hasSuffix (L "==") s then trimSuffix (L "==") s else trimSuffix (L "=") s).

(** ** masterkey.go *)

(** The two environment variables, the content of the file the second names, and
    the configured path. *)
Record KeyEnv := mkKeyEnv { eInline : bytes; eFile : bytes; eFileContent : option bytes; ePath : bytes }.
Definition keyFileMode : Z := 384.

Definition decodeMasterKey (value : bytes) : result TxErr bytes :=
  match DecodePadded (trimSpace value) with
  | None => Err ErrMasterKey
  | Some key => if (length key =? MasterKeyLen)%nat then Ok key else Err ErrMasterKey
  end.

(** [defer]: the cleanup runs whatever the body did, and its failure is dropped. *)
Definition deferring {A} (cleanup : KTx unit) (m : KTx A) : KTx A := fun s =>
  let '(r, s') := m s in (r, (cleanup s').2).

(** [generateKeyFile] with the 32 bytes drawn: create the temporary, chmod, write,
    flush, close, link, then open and flush the directory. *)
Definition generateKeyFile (key : bytes) : KTx bytes :=
  let! _ := writeq (setTmp (Some [])) in
  deferring (writeq (setTmp None)) (
    let! _ := point in
    let! _ := writeq (setTmp (Some key)) in
    let! _ := point in
    let! _ := point in
    let! _ := stmt (fun d => match keyFile d, tmpKey d with
                             | None, Some t => Ok (tt, setFile (Some (mkKeyFile t true keyFileMode)) d)
                             | _, _ => Err ErrMasterKey
                             end) in
    let! _ := point in
    let! _ := point in
    tret key).

Definition readKeyFile (path : bytes) (generate : bool) (draw : bytes) : KTx bytes :=
  if bool_decide (path = []) then tfail ErrMasterKey
  else
    let! info := readq keyFile in
    match info with
    | None => if generate then generateKeyFile draw else tfail ErrKeyMissing
    | Some f =>
        if negb (fRegular f) then tfail ErrMasterKey
        else if negb (Z.land (fPerm f) 63 =? 0) then tfail ErrMasterKey
        else
          let! key := readq (fun d => fBytes <$> keyFile d) in
          match key with
          | Some key => if (length key =? MasterKeyLen)%nat then tret key else tfail ErrMasterKey
          | None => tfail ErrMasterKey
          end
    end.

Definition loadMasterKey (env : KeyEnv) (generate : bool) (draw : bytes) : KTx bytes :=
  if bool_decide (eInline env <> []) && bool_decide (eFile env <> []) then tfail ErrMasterKey
  else if bool_decide (eInline env <> []) then lift (decodeMasterKey (eInline env))
  else if bool_decide (eFile env <> []) then
    match eFileContent env with
    | None => tfail ErrMasterKey
    | Some raw => lift (decodeMasterKey raw)
    end
  else readKeyFile (ePath env) generate draw.

(** ** crypto.go: opening *)

(** What a start draws: a key, a salt and a nonce. *)
Record KeyDraws := mkKeyDraws { drawKey : bytes; drawSalt : bytes; drawNonce : bytes }.

Section Open.
Context `{Cipher}.

Definition loadSalt : KTx (option bytes) :=
  let! v := readq kvSalt in
  match v with
  | None => tret None
  | Some v => match DecodePadded v with Some s => tret (Some s) | None => tfail ErrKeyMaterial end
  end.

Definition settle (masterKey : bytes) (salt : option bytes) (draw : bytes) : KTx Keeper :=
  let! salt := match salt with
               | Some s => tret s
               | None => let! _ := writeq (setSalt (EncodePadded draw)) in tret draw
               end in
  let! found := readq kvActive in
  let! active := match found with
                 | Some id => tret id
                 | None => let! _ := writeq (setActive firstKeyID) in tret firstKeyID
                 end in
  lift (NewKeeper masterKey salt active).

(** [CheckKey]: none stored, or what is stored opens; a mismatch is an error. *)
Definition CheckKey (k : Keeper) : KTx bool :=
  let! v := readq kvCheck in
  match v with
  | None => tret false
  | Some envelope =>
      if bool_decide (Decrypt k PurposeKeyCheck keyCheckLocation envelope = Ok keyCheckPlaintext) then tret true
      else tfail ErrKeyMismatch
  end.

Definition WriteKeyCheck (k : Keeper) (nonce : bytes) : KTx unit :=
  let! envelope := lift (Encrypt k PurposeKeyCheck keyCheckLocation keyCheckPlaintext nonce) in
  writeq (setCheck envelope).

Definition OpenVerified (env : KeyEnv) (d : KeyDraws) (verify : Keeper -> KTx unit) : KTx Keeper :=
  let! salt := loadSalt in
  let! key := loadMasterKey env (bool_decide (salt = None)) (drawKey d) in
  let! k := settle key salt (drawSalt d) in
  let! found := CheckKey k in
  if found then tret k
  else
    let! _ := (fun s => match verify k s with
                        | (Err _, s') => (Err ErrKeyMismatch, s')
                        | r => r
                        end) in
    let! _ := WriteKeyCheck k (drawNonce d) in
    tret k.

Definition Open_ (env : KeyEnv) (d : KeyDraws) : KTx Keeper := OpenVerified env d (fun _ => tret tt).

Definition OpenForRecovery (env : KeyEnv) (d : KeyDraws) : KTx Keeper :=
  let! salt := loadSalt in
  let! key := loadMasterKey env true (drawKey d) in
  settle key salt (drawSalt d).

(** ** Generations *)

(** [strconv.ParseUint(s, 10, 32)]. *)
Definition ParseUint32 (s : bytes) : option Z :=
  match s with
  | [] => None
  | _ => n ← digits_val 0 s; if n <? 2 ^ 32 then Some n else None
  end.
Definition nextKeyID (current : bytes) : result TxErr bytes :=
  match ParseUint32 current with
  | Some n => Ok (itoa (n + 1))
  | None => Err ErrGeneration
  end.

Definition activate (id : bytes) (k : Keeper) : Keeper := mkKeeper (masterKey k) (salt_ k) id.

(** [Rotate]: the generation, and the keeper as it is left. *)
Definition Rotate (k : Keeper) : KTx (bytes * Keeper) :=
  let! next := lift (nextKeyID (activeKeyID k)) in
  let! _ := writeq (setActive next) in
  tret (next, activate next k).

End Open.
