(* ===== verification/KeeperSafe.v ===== *)
(** What the keeper promises: an envelope opens under every later generation, it is
    bound to its place, a start that stopped anywhere is taken up by the next. *)
From S2P Require Import Prelude GoBytes Lifecycle Sql UserStore Argon Keeper.

Open Scope Z_scope.

(** ** Triples over transactions

    A precondition, what holds with each answer, and what holds when it failed. *)
Section Triples.
Context {D : Type}.

Definition triple {A} (P : D -> Prop) (m : Tx D A) (Q : A -> D -> Prop) (E : D -> Prop) : Prop :=
  forall s r s', P s.1 -> m s = (r, s') -> match r with Ok a => Q a s'.1 | Err _ => E s'.1 end.

Lemma t_ret {A} (a : A) P (Q : A -> D -> Prop) E : (forall d, P d -> Q a d) -> triple P (tret a) Q E.
Proof. intros HQ s r s' HP [= <- <-]. auto. Qed.
Lemma t_fail {A} e P (Q : A -> D -> Prop) (E : D -> Prop) : (forall d, P d -> E d) -> triple P (tfail e) Q E.
Proof. intros HE s r s' HP [= <- <-]. auto. Qed.
Lemma t_bind {A B} (m : Tx D A) (k : A -> Tx D B) P R Q E :
  triple P m R E -> (forall a, triple (R a) (k a) Q E) -> triple P (tbind m k) Q E.
Proof.
  intros Hm Hk s r s' HP. unfold tbind. destruct (m s) as [[a|e] s1] eqn:Em; specialize (Hm _ _ _ HP Em); [by apply Hk|].
  by intros [= <- <-].
Qed.
Lemma t_seq {A B} (m : Tx D A) (k : Tx D B) P R Q E :
  triple P m (fun _ => R) E -> triple R k Q E -> triple P (tbind m (fun _ => k)) Q E.
Proof. intros Hm Hk. by eapply t_bind. Qed.
Lemma t_stmt {A} (f : D -> result TxErr (A * D)) P (Q : A -> D -> Prop) E :
  (forall d, P d -> E d /\ match f d with Ok (a, d') => Q a d' | Err _ => True end) -> triple P (stmt f) Q E.
Proof.
  intros Hf s [a|e] s' HP Hs.
  - apply stmt_Ok in Hs as [Hs _]. specialize (Hf _ HP) as [_ Hf]. by rewrite Hs in Hf.
  - apply stmt_Err in Hs as [-> _]. by apply Hf.
Qed.
Lemma t_readq {A} (f : D -> A) P (Q : A -> D -> Prop) E : (forall d, P d -> E d /\ Q (f d) d) -> triple P (readq f) Q E.
Proof. intros Hf. apply t_stmt. auto. Qed.
Lemma t_writeq f P (Q : unit -> D -> Prop) E : (forall d, P d -> E d /\ Q tt (f d)) -> triple P (writeq f) Q E.
Proof. intros Hf. apply t_stmt. auto. Qed.
Lemma t_point P (Q : unit -> D -> Prop) E : (forall d, P d -> E d /\ Q tt d) -> triple P point Q E.
Proof. intros Hf. apply t_stmt. auto. Qed.
Lemma t_weaken {A} (m : Tx D A) P P' (Q Q' : A -> D -> Prop) (E E' : D -> Prop) :
  triple P m Q E -> (forall d, P' d -> P d) -> (forall a d, Q a d -> Q' a d) -> (forall d, E d -> E' d) -> triple P' m Q' E'.
Proof. intros Hm HP HQ HE s r s' Hs Em. specialize (Hm _ _ _ (HP _ Hs) Em). destruct r; auto. Qed.
Lemma t_pure {A} (X : Prop) (m : Tx D A) P Q E : (X -> triple P m Q E) -> triple (fun d => X /\ P d) m Q E.
Proof. intros Hm s r s' [HX HP]. by apply Hm. Qed.

End Triples.

(** ** Text *)

Lemma enc_no_pad s : enc1 stdAlphabet s <> "="%char.
Proof. destruct s as [[[[[a b] c] d] e] f]. destruct a, b, c, d, e, f; by vm_compute. Qed.

Lemma enc_no_eq s : "="%char ∉ EncodeToString stdAlphabet s.
Proof. unfold EncodeToString. intros [x [E _]]%list_elem_of_In%in_map_iff. by apply (enc_no_pad x). Qed.

Lemma enc_no_break alpha s : alpha = stdAlphabet \/ alpha = urlAlphabet ->
  filter (fun c => c <> "010"%char /\ c <> "013"%char) (EncodeToString alpha s) = EncodeToString alpha s.
Proof.
  intros Ha. unfold EncodeToString. induction (sextets s) as [|x l IH]; [done|]. cbn [map].
  rewrite filter_cons_True by (split; apply (enc_plain _ x Ha)). by rewrite IH.
Qed.

Lemma enc_no_dot s : "."%char ∉ EncodeToString urlAlphabet s.
Proof.
  unfold EncodeToString. intros [x [E _]]%list_elem_of_In%in_map_iff.
  destruct (enc_plain urlAlphabet x (or_intror eq_refl)) as (_ & _ & _ & Hx). done.
Qed.

(** The digits and the padding fill whole quads. *)
Lemma pad_quads s : exists q, (length (sextets s) + (3 - length s mod 3) mod 3 = 4 * q)%nat.
Proof.
  induction s as [s IH] using (induction_ltof1 _ length). unfold ltof in IH.
  destruct s as [|[] [|[] [|[] t]]]; [by exists 0%nat|by exists 1%nat|by exists 1%nat|].
  destruct (IH t) as [q Hq]; [cbn; lia|]. exists (S q). cbn [sextets length].
  replace (S (S (S (length t)))) with (length t + 1 * 3)%nat by lia. rewrite Nat.Div0.mod_add. lia.
Qed.

Lemma DecodePadded_Encode s : DecodePadded (EncodePadded s) = Some s.
Proof.
  unfold DecodePadded, EncodePadded. set (e := EncodeToString stdAlphabet s).
  assert (length e = length (sextets s)) as Hle by (unfold e, EncodeToString; by rewrite length_map).
  destruct (pad_quads s) as [q Hq]. set (k := ((3 - length s mod 3) mod 3)%nat) in *.
  assert (k < 3)%nat as Hk by (subst k; apply Nat.mod_upper_bound; lia). clearbody k.
  assert (filter (fun c => c <> "010"%char /\ c <> "013"%char) (e ++ replicate k "="%char) = e ++ replicate k "="%char) as ->.
  { rewrite filter_app. f_equal; [by apply enc_no_break; left|].
    clear Hk Hq. induction k as [|k IH]; [done|]. cbn [replicate]. rewrite filter_cons_True by (split; discriminate). by rewrite IH. }
  rewrite length_app, length_replicate, Hle, Hq. rewrite Nat.mul_comm, Nat.Div0.mod_mul. cbn [negb Nat.eqb].
  pose proof (enc_no_eq s : "="%char ∉ e) as Hno. pose proof (Decode_Encode stdAlphabet s (or_introl eq_refl) : DecodeString stdAlphabet e = Some s) as Hd.
  clearbody e.
  assert (forall x, e <> x ++ ["="%char]) as Hend by (intros x ->; apply Hno, elem_of_app; right; left).
  destruct k as [|[|[|k]]]; [| | |lia]; cbn [replicate].
  - rewrite app_nil_r. destruct (hasSuffix (L "==") e) eqn:E.
    { apply hasSuffix_spec in E as [x E]. destruct (Hend (x ++ ["="%char])). by rewrite <- app_assoc. }
    unfold trimSuffix. destruct (hasSuffix (L "=") e) eqn:E1; [|done]. apply hasSuffix_spec in E1 as [x E1]. by destruct (Hend x).
  - destruct (hasSuffix (L "==") (e ++ ["="%char])) eqn:E.
    { apply hasSuffix_spec in E as [x E]. change (L "==") with (["="%char] ++ ["="%char]) in E. rewrite app_assoc in E.
      apply app_inj_tail in E as [E _]. by destruct (Hend x). }
    change ["="%char] with (L "="). by rewrite trimSuffix_app.
  - assert (hasSuffix (L "==") (e ++ ["="; "="]%char) = true) as -> by (apply hasSuffix_spec; by exists e).
    change ["="; "="]%char with (L "=="). by rewrite trimSuffix_app.
Qed.

Lemma length_decDigits f : forall n acc, (length (decDigits f n acc) <= f + length acc)%nat.
Proof.
  induction f as [|f IH]; intros n acc; [done|]. cbn [decDigits]. destruct (n <? 10)%Z; [cbn; lia|].
  etrans; [apply IH|]. cbn. lia.
Qed.

Lemma keyIDOK_itoa n : 0 <= n < 10 ^ 20 -> keyIDOK (itoa n) = true.
Proof.
  intros Hn. destruct (scan_itoa n [] Hn I) as (c & t & _ & _ & _ & Hne & _). pose proof (itoa_digits n Hn) as Hd.
  pose proof (length_decDigits 20 n []) as Hl. fold (itoa n) in Hl. cbn [length] in Hl. unfold keyIDOK.
  destruct (itoa n) as [|x l]; [done|]. apply andb_true_iff. split; [apply andb_true_iff; split; apply Nat.leb_le; cbn in *; lia|].
  apply forallb_elem_of. intros y Hy. rewrite Forall_forall in Hd. unfold keyIDByte, is_alnum. by rewrite (Hd _ Hy).
Qed.

Lemma keyID_no_dot s : keyIDOK s = true -> "."%char ∉ s.
Proof.
  unfold keyIDOK. intros [_ Hs]%andb_true_iff Hin. rewrite forallb_elem_of in Hs. specialize (Hs _ Hin). by vm_compute in Hs.
Qed.

Lemma ParseUint32_itoa n : 0 <= n < 2 ^ 32 -> ParseUint32 (itoa n) = Some n.
Proof.
  intros Hn. destruct (scan_itoa n [] ltac:(lia) I) as (c & t & _ & _ & _ & Hne & Hv). unfold ParseUint32.
  destruct (itoa n) as [|x l]; [done|]. rewrite Hv. cbn [mbind option_bind]. by rewrite (proj2 (Z.ltb_lt _ _)) by lia.
Qed.

Lemma ParseUint32_inv m n : 0 <= m < 10 ^ 20 -> ParseUint32 (itoa m) = Some n -> n = m /\ m < 2 ^ 32.
Proof.
  intros Hm. destruct (scan_itoa m [] Hm I) as (c & t & _ & _ & _ & Hne & Hv). unfold ParseUint32.
  destruct (itoa m) as [|x l]; [done|]. rewrite Hv. cbn [mbind option_bind]. destruct (m <? 2 ^ 32) eqn:E; [|done].
  intros [= <-]. by apply Z.ltb_lt in E.
Qed.

Lemma itoa_inj m n : 0 <= m < 10 ^ 20 -> 0 <= n < 10 ^ 20 -> itoa m = itoa n -> m = n.
Proof.
  intros Hm Hn E. destruct (scan_itoa m [] Hm I) as (_ & _ & _ & _ & _ & _ & Hv).
  destruct (scan_itoa n [] Hn I) as (_ & _ & _ & _ & _ & _ & Hv'). rewrite E in Hv. congruence.
Qed.

(** ** The associated data *)

Lemma ascii_of_N_inj a b : (a < 256)%N -> (b < 256)%N -> ascii_of_N a = ascii_of_N b -> a = b.
Proof. intros Ha Hb E. apply (f_equal N_of_ascii) in E. by rewrite !N_ascii_embedding in E. Qed.

(** A length delimits itself. *)
Lemma uvarint_inj f : forall a b x y, (a < 128 ^ N.of_nat f)%N -> (b < 128 ^ N.of_nat f)%N ->
  uvarint f a ++ x = uvarint f b ++ y -> a = b /\ x = y.
Proof.
  induction f as [|f IH]; intros a b x y Ha Hb; cbn [uvarint].
  { cbn in *. intros ->. split; [lia|done]. }
  rewrite Nat2N.inj_succ, N.pow_succ_r' in Ha, Hb.
  assert (a mod 128 < 128)%N as Hma by (by apply N.mod_lt). assert (b mod 128 < 128)%N as Hmb by (by apply N.mod_lt).
  destruct (N.ltb_spec a 128) as [Ea|Ea], (N.ltb_spec b 128) as [Eb|Eb]; cbn [app]; intros E; injection E as E Er;
    (unshelve epose proof (ascii_of_N_inj _ _ _ _ E) as E'; [lia|lia|]).
  2-3: exfalso; revert Hma Hmb E'; generalize (a mod 128)%N (b mod 128)%N; intros; lia.
  1: by subst.
  apply IH in Er as [Eq Ex]; [|apply N.Div0.div_lt_upper_bound; lia..]. split; [|done].
  rewrite (N.div_mod a 128), (N.div_mod b 128), Eq by done. revert E'. generalize (a mod 128)%N (b mod 128)%N. intros. lia.
Qed.

(** Every string the process can hold. *)
Definition fits (s : string) : Prop := (N.of_nat (String.length s) < 2 ^ 63)%N.

Lemma length_L s : length (L s) = String.length s.
Proof. induction s as [|c s IH]; simpl; [done|]. by rewrite IH. Qed.

Lemma prefixed_inj s t x y : fits s -> fits t -> prefixed s ++ x = prefixed t ++ y -> s = t /\ x = y.
Proof.
  unfold fits, prefixed. intros Hs Ht. rewrite <- !app_assoc. intros E.
  assert (2 ^ 63 < 128 ^ N.of_nat 10)%N as Hlt by done.
  apply uvarint_inj in E as [El E]; [|lia..]. apply Nat2N.inj in El. rewrite <- !length_L in El.
  apply app_inj_1 in E as [E ->]; [|done]. split; [|done].
  by rewrite <- (String.string_of_list_ascii_of_string s), <- (String.string_of_list_ascii_of_string t), E.
Qed.

Lemma aad_inj p q l m :
  fits p -> fits q -> fits (lTable l) -> fits (lTable m) -> fits (lColumn l) -> fits (lColumn m) ->
  fits (lRowID l) -> fits (lRowID m) -> aad p l = aad q m -> p = q /\ l = m.
Proof.
  intros Hp Hq Ht Ht' Hc Hc' Hr Hr' E. unfold aad in E.
  apply prefixed_inj in E as [-> E]; [|done..]. apply prefixed_inj in E as [Et E]; [|done..].
  apply prefixed_inj in E as [Ec E]; [|done..]. rewrite <- (app_nil_r (prefixed (lRowID l))), <- (app_nil_r (prefixed (lRowID m))) in E.
  apply prefixed_inj in E as [Er _]; [|done..]. split; [done|]. destruct l, m; simpl in *; congruence.
Qed.

(** ** Envelopes *)

Definition wellFormed (k : Keeper) : Prop :=
  length (masterKey k) = MasterKeyLen /\ salt_ k <> [] /\ keyIDOK (activeKeyID k) = true.
(** The same root key: what rotations never change. *)
Definition sameRoot (k k' : Keeper) : Prop := masterKey k' = masterKey k /\ salt_ k' = salt_ k.

Lemma NewKeeper_Ok m s id k : NewKeeper m s id = Ok k -> k = mkKeeper m s id /\ wellFormed k.
Proof.
  unfold NewKeeper. destruct (negb (length m =? MasterKeyLen)%nat) eqn:E1; [done|]. destruct (length s =? 0)%nat eqn:E2; [done|].
  destruct (negb (keyIDOK id)) eqn:E3; [done|]. intros [= <-]. split; [done|]. unfold wellFormed. cbn.
  apply negb_false_iff, Nat.eqb_eq in E1. apply Nat.eqb_neq in E2. apply negb_false_iff in E3. split_and!; [done| |done].
  by intros ->.
Qed.
Lemma NewKeeper_run m s id : length m = MasterKeyLen -> s <> [] -> keyIDOK id = true -> NewKeeper m s id = Ok (mkKeeper m s id).
Proof.
  intros Hm Hs Hid. unfold NewKeeper. rewrite Hm, Hid, Nat.eqb_refl. destruct s; [done|]. done.
Qed.

Section Envelopes.
Context `{CipherLaws}.

Lemma aead_run k p id : p ∈ purposes ->
  exists key, hkdfKey (masterKey k) (salt_ k) (id ++ L "/" ++ L p) 32 = Some key /\ aead k p id = Ok key.
Proof.
  intros Hp. destruct (hkdf_32 (masterKey k) (salt_ k) (id ++ L "/" ++ L p)) as (key & Hk & Hl). exists key. split; [done|].
  unfold aead, subkey, subkeyLen. rewrite bool_decide_eq_true_2 by done. cbn [negb]. rewrite Hk. cbn [rbind]. by rewrite Hl.
Qed.

Lemma aead_root k k' p id : sameRoot k k' -> aead k' p id = aead k p id.
Proof. intros [Em Es]. unfold aead, subkey. by rewrite Em, Es. Qed.

(** Opening does not depend on the active generation. *)
Lemma Decrypt_root k k' p loc e : sameRoot k k' -> Decrypt k' p loc e = Decrypt k p loc e.
Proof. intros Hr. unfold Decrypt. repeat case_match; try done; by rewrite (aead_root k k'). Qed.

Definition sealedUnder (id : bytes) (e : bytes) : Prop := hasPrefix (envelopeVersion ++ L "." ++ id ++ L ".") e = true.

Lemma Encrypt_opens k k' p loc pt nonce : wellFormed k -> sameRoot k k' -> p ∈ purposes -> length nonce = NonceSizeX ->
  exists e, Encrypt k p loc pt nonce = Ok e /\ sealedUnder (activeKeyID k) e /\ Decrypt k' p loc e = Ok pt.
Proof.
  intros (_ & _ & Hid) Hr Hp Hn. destruct (aead_run k p (activeKeyID k) Hp) as (key & _ & Ha). unfold Encrypt. rewrite Ha. cbn [rbind].
  eexists. split; [reflexivity|]. split.
  { unfold sealedUnder. apply hasPrefix_spec. cbn [join]. eexists. by rewrite <- !app_assoc. }
  rewrite (Decrypt_root k k') by done. unfold Decrypt. change (L ".") with ["."%char].
  rewrite split_join; [|done|].
  - rewrite bool_decide_eq_true_2 by done. rewrite Hid. cbn [negb]. rewrite !Decode_Encode by (by right). rewrite Hn. cbn [negb Nat.eqb NonceSizeX].
    rewrite Ha. cbn [rbind]. by rewrite unseal_seal.
  - intros w. rewrite !elem_of_cons. intros [->|[->|[->|[->|Hw]]]]; [|by apply keyID_no_dot|apply enc_no_dot..|by apply elem_of_nil in Hw].
    apply (bool_decide_unpack _). by vm_compute.
Qed.

(** Opening depends on its place only through the associated data. *)
Lemma Decrypt_aad k p loc e pt : Decrypt k p loc e = Ok pt ->
  exists key nonce sealed, unseal key nonce sealed (aad p loc) = Some pt.
Proof.
  unfold Decrypt. repeat case_match; try done. unfold rbind. destruct (aead k p _); [|done].
  destruct (unseal _ _ _ _) eqn:E; [|done]. intros [= <-]. by eexists _, _, _.
Qed.
End Envelopes.

(** ** Generations *)

(** What rotations make of a keeper, whatever the database and its failures. *)
Definition rotated (k k' : Keeper) : Prop := exists s s' id, Rotate k s = (Ok (id, k'), s').
Definition later : Keeper -> Keeper -> Prop := rtc rotated.

Lemma nextKeyID_Ok id next : nextKeyID id = Ok next -> exists n, ParseUint32 id = Some n /\ 0 <= n < 2 ^ 32 /\ next = itoa (n + 1).
Proof.
  unfold nextKeyID. destruct (ParseUint32 id) as [n|] eqn:E; [|done]. intros [= <-]. exists n. split; [done|]. split; [|done].
  unfold ParseUint32 in E. destruct id as [|c id]; [done|]. destruct (digits_val 0 (c :: id)) as [v|] eqn:Ev; [|done].
  cbn [mbind option_bind] in E. destruct (v <? 2 ^ 32) eqn:Hv; [|done]. injection E as ->. apply Z.ltb_lt in Hv.
  apply digits_val_ge in Ev; lia.
Qed.

Lemma Rotate_cases k s r s' : Rotate k s = (r, s') ->
  match r with
  | Ok (id, k') => nextKeyID (activeKeyID k) = Ok id /\ k' = activate id k /\ s'.1 = setActive id s.1
  | Err _ => s'.1 = s.1
  end.
Proof.
  unfold Rotate, tbind, lift. destruct (nextKeyID (activeKeyID k)) as [id|e]; [|by intros [= <- <-]]. unfold tret.
  destruct (writeq (setActive id) s) as [[[]|e] s1] eqn:E; apply writeq_cases in E as [[E0 E]|[[? E0] E]]; try discriminate E0; by intros [= <- <-].
Qed.

Lemma rotated_inv k k' : rotated k k' -> sameRoot k k' /\
  exists n, ParseUint32 (activeKeyID k) = Some n /\ 0 <= n < 2 ^ 32 /\ activeKeyID k' = itoa (n + 1).
Proof.
  intros (s & s' & id & (Hn & -> & _)%Rotate_cases). split; [done|]. by apply nextKeyID_Ok.
Qed.

Lemma later_inv k k' : later k k' -> sameRoot k k' /\
  (k' = k \/ exists n m, ParseUint32 (activeKeyID k) = Some n /\ 0 <= n < m /\ m <= 2 ^ 32 /\ activeKeyID k' = itoa m).
Proof.
  induction 1 as [k|k k1 k' Hr _ [IHs IH]]; [by split; [|left]|].
  apply rotated_inv in Hr as ((Em & Es) & n & Hp & Hn & Ha). split; [destruct IHs; split; congruence|]. right.
  destruct IH as [->|(n' & m & Hp' & Hm & Hm' & Ha')].
  - exists n, (n + 1). split_and!; [done|lia..|done].
  - rewrite Ha in Hp'. destruct (decide (n + 1 < 2 ^ 32)) as [Hlt|Hge].
    + rewrite ParseUint32_itoa in Hp' by lia. injection Hp' as <-. exists n, m. split_and!; [done|lia..|done].
    + exfalso. apply ParseUint32_inv in Hp'; lia.
Qed.

Lemma later_wf k k' : wellFormed k -> later k k' -> wellFormed k'.
Proof.
  intros (Hm & Hs & Hid) [[Em Es] Hg]%later_inv. split_and!; [by rewrite Em|by rewrite Es|].
  destruct Hg as [->|(n & m & _ & Hn & Hm2 & ->)]; [done|]. apply keyIDOK_itoa. lia.
Qed.

Section Properties.
Context `{CipherLaws}.

(** C16. A secret opens under the keeper that sealed it and under every generation
    after it, however often the panel rotates; the generations only count up, so
    what a later keeper seals never carries an earlier one's name. *)
Theorem sealed_opens k k' p loc pt nonce :
  wellFormed k -> later k k' -> p ∈ purposes -> length nonce = NonceSizeX ->
  wellFormed k' /\
  (exists e, Encrypt k p loc pt nonce = Ok e /\ sealedUnder (activeKeyID k) e /\ Decrypt k p loc e = Ok pt /\ Decrypt k' p loc e = Ok pt) /\
  (k' = k \/ exists n m, ParseUint32 (activeKeyID k) = Some n /\ 0 <= n < m /\ activeKeyID k' = itoa m).
Proof.
  intros Hk Hl Hp Hn. destruct (later_inv k k' Hl) as [Hr Hg]. split_and!.
  - by apply (later_wf k).
  - destruct (Encrypt_opens k k' p loc pt nonce Hk Hr Hp Hn) as (e & He & Hu & Hd). exists e. split_and!; [done..| |done].
    by rewrite <- (Decrypt_root k k').
  - destruct Hg as [|(n & m & ? & ? & ? & ?)]; [by left|right; eauto].
Qed.

(** A secret is bound to its purpose, table, column and row: what opens it is
    the cipher under the associated data of exactly that place, and no two places
    share theirs, whatever the strings. *)
Theorem bound_in_place k p loc e pt :
  Decrypt k p loc e = Ok pt ->
  (exists key nonce sealed, unseal key nonce sealed (aad p loc) = Some pt) /\
  forall q m, fits p -> fits (lTable loc) -> fits (lColumn loc) -> fits (lRowID loc) ->
    fits q -> fits (lTable m) -> fits (lColumn m) -> fits (lRowID m) -> (q, m) <> (p, loc) -> aad q m <> aad p loc.
Proof.
  intros Hd. split; [by eapply Decrypt_aad|]. intros q m ? ? ? ? ? ? ? ? Hne E. apply Hne.
  by apply aad_inj in E as [-> ->].
Qed.
End Properties.

(** ** Starts *)

(** The panel manages the key file itself. *)
Definition panelKey (env : KeyEnv) : Prop := eInline env = [] /\ eFile env = [] /\ ePath env <> [].
Definition drawn (d : KeyDraws) : Prop :=
  length (drawKey d) = MasterKeyLen /\ length (drawSalt d) = saltLen /\ length (drawNonce d) = NonceSizeX.
Definition readOnly (verify : Keeper -> KTx unit) : Prop := forall k s, (verify k s).2.1 = s.1.

Definition kept {A} (a b : option A) : Prop := forall x, a = Some x -> b = Some x.
Lemma kept_same {A} (a : option A) : kept a a.
Proof. by intros x. Qed.

Definition grows (d0 d : SecretDB) : Prop :=
  kept (keyFile d0) (keyFile d) /\ kept (kvSalt d0) (kvSalt d) /\ kept (kvActive d0) (kvActive d) /\ kept (kvCheck d0) (kvCheck d).

Section Starts.
Context `{CipherLaws}.

Definition checkOpens (key salt e : bytes) : Prop :=
  forall id, Decrypt (mkKeeper key salt id) PurposeKeyCheck keyCheckLocation e = Ok keyCheckPlaintext.

(** What the database and the disk hold between starts. *)
Record sound (d : SecretDB) : Prop := {
  salt_after_key : keyFile d = None -> kvSalt d = None;
  key_file_ok f : keyFile d = Some f -> fRegular f = true /\ Z.land (fPerm f) 63 = 0 /\ length (fBytes f) = MasterKeyLen;
  salt_ok v : kvSalt d = Some v -> exists s, v = EncodePadded s /\ s <> [];
  active_ok id : kvActive d = Some id -> keyIDOK id = true;
  check_ok e : kvCheck d = Some e -> exists f s, keyFile d = Some f /\ kvSalt d = Some (EncodePadded s) /\ checkOpens (fBytes f) s e
}.

(** The keeper a settled database and disk stand for. *)
Definition settledOn (k : Keeper) (d : SecretDB) : Prop :=
  wellFormed k /\ kvActive d = Some (activeKeyID k) /\ kvSalt d = Some (EncodePadded (salt_ k)) /\
  exists f, keyFile d = Some f /\ fBytes f = masterKey k.

Definition holds_ (d0 d : SecretDB) : Prop := sound d /\ grows d0 d.

Lemma EncodePadded_inj s t : EncodePadded s = EncodePadded t -> s = t.
Proof. intros E. apply (f_equal DecodePadded) in E. rewrite !DecodePadded_Encode in E. congruence. Qed.

Lemma t_deferring {A} f (m : KTx A) P (Q : A -> SecretDB -> Prop) (E : SecretDB -> Prop) :
  triple P m Q E -> (forall a d, Q a d -> Q a (f d)) -> (forall d, E d -> E (f d)) -> triple P (deferring (writeq f) m) Q E.
Proof.
  intros Hm HQ HE s r s' HP. unfold deferring. destruct (m s) as [r1 s1] eqn:Em. intros [= <- <-].
  specialize (Hm _ _ _ HP Em). destruct (writeq f s1) as [w s2] eqn:Ew.
  apply writeq_cases in Ew as [[_ Ew]|[_ Ew]]; cbn; rewrite Ew; destruct r1; auto.
Qed.

Lemma holds_tmp d0 d t : holds_ d0 d -> holds_ d0 (setTmp t d).
Proof. intros [[] Hg]. split; [by split|exact Hg]. Qed.

Lemma kept_None {A} (a b : option A) x : kept a b -> b = None -> kept a x.
Proof. intros Hk Hb y Hy. specialize (Hk _ Hy). congruence. Qed.

Lemma holds_key d0 d key : holds_ d0 d -> keyFile d = None -> length key = MasterKeyLen ->
  holds_ d0 (setFile (Some (mkKeyFile key true keyFileMode)) d).
Proof.
  intros [[S1 S2 S3 S4 S5] (G1 & G2)] Hk Hl. split; [|split; [by eapply kept_None|done]].
  constructor; cbn; [done|by intros f [= <-]|done|done|]. intros e He. destruct (S5 e He) as (f & s & Hf & _). congruence.
Qed.

Lemma holds_salt d0 d s : holds_ d0 d -> kvSalt d = None -> is_Some (keyFile d) -> s <> [] ->
  holds_ d0 (setSalt (EncodePadded s) d).
Proof.
  intros [[S1 S2 S3 S4 S5] (G1 & G2 & G3)] Hn [f Hf] Hs. split; [|split; [done|split; [by eapply kept_None|done]]].
  constructor; cbn; [congruence|done|intros v [= <-]; by exists s|done|].
  intros e He. destruct (S5 e He) as (f' & s' & _ & Hs' & _). congruence.
Qed.

Lemma holds_active d0 d id : holds_ d0 d -> kvActive d = None -> keyIDOK id = true -> holds_ d0 (setActive id d).
Proof.
  intros [[S1 S2 S3 S4 S5] (G1 & G2 & G3 & G4)] Hn Hid. split; [constructor; cbn; try done; by intros ? [= <-]|].
  split_and!; try done. by eapply kept_None.
Qed.

Lemma holds_check d0 d f s e : holds_ d0 d -> kvCheck d = None -> keyFile d = Some f -> kvSalt d = Some (EncodePadded s) ->
  checkOpens (fBytes f) s e -> holds_ d0 (setCheck e d).
Proof.
  intros [[S1 S2 S3 S4 S5] (G1 & G2 & G3 & G4)] Hn Hf Hs He. split; [constructor; cbn; try done; intros ? [= <-]; eauto|].
  split_and!; try done. by eapply kept_None.
Qed.

Lemma generateKeyFile_triple d0 key : length key = MasterKeyLen ->
  triple (fun d => holds_ d0 d /\ keyFile d = None /\ kvSalt d = None) (generateKeyFile key)
    (fun a d => holds_ d0 d /\ kvSalt d = None /\ keyFile d = Some (mkKeyFile a true keyFileMode)) (holds_ d0).
Proof.
  intros Hl. unfold generateKeyFile. set (P := fun t d => holds_ d0 d /\ keyFile d = None /\ kvSalt d = None /\ tmpKey d = t).
  eapply (t_seq _ _ _ (P (Some []))).
  { apply t_writeq. intros d (Hh & Hk & Hs). split; [done|]. split_and!; [by apply holds_tmp|done..]. }
  apply t_deferring; [|intros a d (Hh & Hs & Hk); split; [by apply holds_tmp|done]|intros d; apply holds_tmp].
  assert (forall t, triple (P t) point (fun _ => P t) (holds_ d0)) as Hp by (intros t; apply t_point; intros d Hd; by split; [apply Hd|]).
  eapply t_seq; [apply Hp|]. eapply (t_seq _ _ _ (P (Some key))).
  { apply t_writeq. intros d (Hh & Hk & Hs & _). split; [done|]. split_and!; [by apply holds_tmp|done..]. }
  eapply t_seq; [apply Hp|]. eapply t_seq; [apply Hp|].
  set (Q := fun d => holds_ d0 d /\ kvSalt d = None /\ keyFile d = Some (mkKeyFile key true keyFileMode)).
  eapply (t_seq _ _ _ Q).
  { apply t_stmt. intros d (Hh & Hk & Hs & Ht). split; [done|]. rewrite Hk, Ht. split; [by apply holds_key|done]. }
  assert (triple Q point (fun _ => Q) (holds_ d0)) as Hq by (apply t_point; intros d Hd; by split; [apply Hd|]).
  eapply t_seq; [apply Hq|]. eapply t_seq; [apply Hq|]. apply t_ret. intros d (Hh & Hs & Hk). done.
Qed.

(** A statement that keeps what holds. *)
Lemma t_read {A} (f : SecretDB -> A) P (d0 : SecretDB) : (forall d, P d -> holds_ d0 d) ->
  triple P (readq f) (fun a d => P d /\ a = f d) (holds_ d0).
Proof. intros HP. apply t_readq. intros d Hd. split; [by apply HP|done]. Qed.

Definition keyed (key : bytes) (d : SecretDB) : Prop := exists f, keyFile d = Some f /\ fBytes f = key /\ length key = MasterKeyLen.

Lemma readKeyFile_triple d0 path salt draw : path <> [] -> length draw = MasterKeyLen ->
  triple (fun d => holds_ d0 d /\ kvSalt d = salt) (readKeyFile path (bool_decide (salt = None)) draw)
    (fun key d => holds_ d0 d /\ kvSalt d = salt /\ keyed key d) (holds_ d0).
Proof.
  intros Hp Hd. unfold readKeyFile. rewrite bool_decide_eq_false_2 by done.
  eapply t_bind; [apply (t_read keyFile); tauto|]. intros [f|]; cbn beta.
  - destruct (negb (fRegular f)); [apply t_fail; tauto|]. destruct (negb (Z.land (fPerm f) 63 =? 0)); [apply t_fail; tauto|].
    eapply t_bind; [apply (t_read (fun d => fBytes <$> keyFile d)); tauto|]. intros [key|]; cbn beta; [|apply t_fail; tauto].
    destruct (length key =? MasterKeyLen)%nat eqn:E3; [|apply t_fail; tauto]. apply Nat.eqb_eq in E3.
    apply t_ret. intros d (((Hh & Hs) & Hf) & Hk). rewrite <- Hf in Hk. injection Hk as ->. by split_and!; [..|exists f].
  - destruct (bool_decide_reflect (salt = None)) as [->|Hne]; [|apply t_fail; tauto].
    eapply t_weaken; [by apply (generateKeyFile_triple d0 draw)| | |done].
    + intros d ((Hh & Hs) & Hk). done.
    + intros key d (Hh & Hs & Hk). split_and!; [done..|]. exists (mkKeyFile key true keyFileMode). split_and!; [done..|].
      destruct Hh as [[_ Hok _ _ _] _]. by destruct (Hok _ Hk) as (_ & _ & ?).
Qed.

Lemma loadMasterKey_panel env generate draw : panelKey env -> loadMasterKey env generate draw = readKeyFile (ePath env) generate draw.
Proof. intros (Hi & Hf & _). unfold loadMasterKey. by rewrite Hi, Hf. Qed.

Lemma loadSalt_triple d0 : triple (holds_ d0) loadSalt (fun o d => holds_ d0 d /\ kvSalt d = EncodePadded <$> o /\ o <> Some []) (holds_ d0).
Proof.
  unfold loadSalt. eapply t_bind; [by apply (t_read kvSalt)|]. intros [v|]; cbn beta.
  - destruct (DecodePadded v) as [s|] eqn:E; [|apply t_fail; tauto]. apply t_ret. intros d [Hh Hv]. split; [done|].
    destruct Hh as [[_ _ Hs _ _] _]. destruct (Hs v) as (s' & -> & Hne); [done|]. rewrite DecodePadded_Encode in E. injection E as ->.
    split; [done|]. by intros [= ->].
  - apply t_ret. intros d [Hh Hv]. done.
Qed.

Lemma settle_triple d0 key salt draw : length draw = saltLen ->
  triple (fun d => holds_ d0 d /\ kvSalt d = EncodePadded <$> salt /\ salt <> Some [] /\ keyed key d) (settle key salt draw)
    (fun k d => holds_ d0 d /\ settledOn k d) (holds_ d0).
Proof.
  intros Hd. unfold settle.
  eapply (t_bind _ _ _ (fun s d => holds_ d0 d /\ kvSalt d = Some (EncodePadded s) /\ s <> [] /\ keyed key d)).
  { destruct salt as [s|].
    - apply t_ret. intros d (Hh & Hs & Hne & Hk). split_and!; [done..| |done]. by intros ->.
    - eapply t_seq; [apply t_writeq|apply t_ret; intros d Hq; exact Hq]. intros d (Hh & Hs & _ & f & Hf & Hb & Hl).
      assert (draw <> []) as Hne by (by intros ->). split; [done|]. split_and!; [|done|done|by exists f].
      apply holds_salt; [done..|by eexists|done]. }
  intros s. eapply t_bind; [apply (t_read kvActive); tauto|]. intros found. cbn beta.
  eapply (t_bind _ _ _ (fun id d => holds_ d0 d /\ kvSalt d = Some (EncodePadded s) /\ s <> [] /\ keyed key d /\ kvActive d = Some id)).
  { destruct found as [id|].
    - apply t_ret. intros d ((Hh & Hs & Hne & Hk) & Hf). done.
    - eapply t_seq; [apply t_writeq|apply t_ret; intros d Hq; exact Hq]. intros d ((Hh & Hs & Hne & Hk) & Hf). split; [done|].
      split_and!; [|done..]. by apply holds_active. }
  intros id s0 r s' (Hh & Hs & Hne & (f & Hf & Hb & Hl) & Ha). unfold lift.
  destruct (NewKeeper key s id) as [k|e] eqn:E; intros [= <- <-]; [|done]. apply NewKeeper_Ok in E as [-> Hw]. split; [done|].
  split_and!; [done..|]. by exists f.
Qed.

Lemma CheckKey_triple d0 k : triple (fun d => holds_ d0 d /\ settledOn k d) (CheckKey k)
  (fun b d => holds_ d0 d /\ settledOn k d /\ (if b then is_Some (kvCheck d) else kvCheck d = None)) (holds_ d0).
Proof.
  unfold CheckKey. eapply t_bind; [apply (t_read kvCheck); tauto|]. intros [e|]; cbn beta.
  - destruct (bool_decide _); [|apply t_fail; tauto]. apply t_ret. intros d ((Hh & Hs) & He). by rewrite <- He.
  - apply t_ret. intros d ((Hh & Hs) & He). done.
Qed.

Lemma WriteKeyCheck_triple d0 k nonce : length nonce = NonceSizeX ->
  triple (fun d => holds_ d0 d /\ settledOn k d /\ kvCheck d = None) (WriteKeyCheck k nonce)
    (fun _ d => holds_ d0 d /\ settledOn k d /\ is_Some (kvCheck d)) (holds_ d0).
Proof.
  intros Hn s r s' (Hh & Hset & Hc). pose proof Hset as (Hw & Ha & Hs & f & Hf & Hb). unfold WriteKeyCheck.
  assert (exists e, Encrypt k PurposeKeyCheck keyCheckLocation keyCheckPlaintext nonce = Ok e /\ checkOpens (masterKey k) (salt_ k) e) as (e & He & Hop).
  { assert (PurposeKeyCheck ∈ purposes) as Hp by (apply (bool_decide_unpack _); vm_compute; exact I).
    destruct (Encrypt_opens k k PurposeKeyCheck keyCheckLocation keyCheckPlaintext nonce Hw (conj eq_refl eq_refl) Hp Hn) as (e & He & _ & Hd).
    exists e. split; [done|]. intros id. rewrite <- Hd. by apply Decrypt_root. }
  rewrite He. unfold tbind, lift, tret. intros [[-> E]|[[x ->] E]]%writeq_cases; rewrite E; [|done].
  split_and!; [|done..]. apply (holds_check d0 s.1 f (salt_ k)); [done..|by rewrite Hb].
Qed.

Lemma Open_triple d0 env d verify : panelKey env -> drawn d -> readOnly verify ->
  triple (holds_ d0) (OpenVerified env d verify) (fun k d' => holds_ d0 d' /\ settledOn k d' /\ is_Some (kvCheck d')) (holds_ d0).
Proof.
  intros He (Hd1 & Hd2 & Hd3) Hv. unfold OpenVerified. eapply t_bind; [apply loadSalt_triple|]. intros o.
  rewrite loadMasterKey_panel by done.
  assert (bool_decide (o = None) = bool_decide (EncodePadded <$> o = None)) as -> by (by destruct o).
  eapply t_bind.
  { eapply t_weaken; [apply (readKeyFile_triple d0 (ePath env) (EncodePadded <$> o) (drawKey d)); [apply He|done]| | |].
    - intros x (Hh & Hs & _). done.
    - intros key x Hx. exact Hx.
    - done. }
  intros key. destruct (decide (o = Some [])) as [->|Hne].
  { intros s r s' (Hh & Hs & Hk). exfalso. destruct Hh as [[_ _ Hok _ _] _]. destruct (Hok (EncodePadded [])) as (s1 & E & Hne); [done|].
    by apply EncodePadded_inj in E. }
  eapply t_bind; [eapply t_weaken; [by apply (settle_triple d0 key o)| | |]; [|intros k x Hx; exact Hx|done]|].
  { intros x (Hh & Hs & Hk). done. }
  intros k. eapply t_bind; [apply CheckKey_triple|]. intros [|].
  - apply t_ret. done.
  - eapply (t_bind _ _ _ (fun _ x => holds_ d0 x /\ settledOn k x /\ kvCheck x = None)).
    { intros s r s' Hs. specialize (Hv k s). destruct (verify k s) as [[u|e] s1]; cbn in Hv; intros [= <- <-]; rewrite Hv; tauto. }
    intros _. eapply t_seq; [by apply WriteKeyCheck_triple|]. apply t_ret. done.
Qed.

(** ** Without failures *)

Definition runs {A} (P : SecretDB -> Prop) (m : KTx A) : Prop := forall d, P d -> exists a d', m (d, []) = (Ok a, (d', [])).

Lemma runs_seq {A B} (m : KTx A) (k : A -> KTx B) P R E :
  runs P m -> triple P m R E -> (forall a, runs (R a) (k a)) -> runs P (tbind m k).
Proof.
  intros Hm Ht Hk d Hd. destruct (Hm d Hd) as (a & d1 & Ea). specialize (Ht (d, []) _ _ Hd Ea). cbn in Ht.
  destruct (Hk a d1 Ht) as (b & d2 & Eb). exists b, d2. unfold tbind. by rewrite Ea.
Qed.
Lemma runs_ret {A} (a : A) P : runs P (tret a).
Proof. intros d _. by eexists _, _. Qed.
Lemma runs_readq {A} (f : SecretDB -> A) P : runs P (readq f).
Proof. intros d _. by eexists _, _. Qed.

Lemma readKeyFile_runs path draw salt : path <> [] ->
  runs (fun d => sound d /\ kvSalt d = salt) (readKeyFile path (bool_decide (salt = None)) draw).
Proof.
  intros Hp d [[S1 S2 _ _ _] Hs]. unfold readKeyFile. rewrite bool_decide_eq_false_2 by done. unfold tbind at 1, readq at 1.
  rewrite stmt_run. destruct (keyFile d) as [f|] eqn:Hf; cbv iota beta.
  - destruct (S2 f eq_refl) as (-> & -> & Hl). cbn [negb Z.eqb]. unfold tbind, readq. rewrite stmt_run. cbv iota beta.
    rewrite Hf. cbn [fmap option_fmap option_map]. rewrite Hl. by eexists _, _.
  - rewrite bool_decide_eq_true_2 by (rewrite <- Hs; auto). unfold generateKeyFile, deferring, tbind, point, writeq.
    rewrite stmt_run. cbv iota beta. repeat (rewrite stmt_run; cbn [keyFile tmpKey setTmp setFile]; rewrite ?Hf; cbv iota beta).
    by eexists _, _.
Qed.

Lemma loadSalt_runs : runs sound loadSalt.
Proof.
  intros d Hd. unfold loadSalt, tbind, readq. rewrite stmt_run. cbv iota beta. destruct (kvSalt d) as [v|] eqn:E; [|by eexists _, _].
  destruct (salt_ok d Hd v E) as (s & -> & _). rewrite DecodePadded_Encode. by eexists _, _.
Qed.

Lemma settle_runs key salt draw : length draw = saltLen ->
  runs (fun d => sound d /\ kvSalt d = EncodePadded <$> salt /\ salt <> Some [] /\ keyed key d) (settle key salt draw).
Proof.
  intros Hd d (Hs & Hv & Hne & f & Hf & Hb & Hl). set (act := kvActive d).
  assert (forall id, act = Some id -> keyIDOK id = true) as Hact by (by apply active_ok).
  assert (exists s d1, s <> [] /\ kvActive d1 = act /\
    (match salt with Some s => tret s | None => let! _ := writeq (setSalt (EncodePadded draw)) in tret draw end) (d, [])
      = (Ok s, (d1, []))) as (s & d1 & Hns & Ha & E).
  { destruct salt as [s|]; [exists s, d|exists draw, (setSalt (EncodePadded draw) d)]; (split_and!; [by intros ->|done..]). }
  assert (exists id d2, keyIDOK id = true /\
    (match act with Some id => tret id | None => let! _ := writeq (setActive firstKeyID) in tret firstKeyID end) (d1, [])
      = (Ok id, (d2, []))) as (id & d2 & Hid & E2).
  { destruct act as [id|]; [exists id, d1|exists firstKeyID, (setActive firstKeyID d1)]; (split; [by auto|done]). }
  unfold settle, tbind at 1. rewrite E. unfold tbind at 1, readq. rewrite stmt_run. cbv iota beta. rewrite Ha.
  unfold tbind at 1. rewrite E2. rewrite NewKeeper_run by done. by eexists _, _.
Qed.

Lemma CheckKey_runs k : runs (fun d => sound d /\ settledOn k d) (CheckKey k).
Proof.
  intros d (Hs & Hw & Ha & Hv & f & Hf & Hb). unfold CheckKey, tbind, readq. rewrite stmt_run. cbv iota beta.
  destruct (kvCheck d) as [e|] eqn:E; [|by eexists _, _]. destruct (check_ok d Hs e E) as (f' & s & Hf' & Hs' & Hop).
  assert (f' = f) as -> by congruence. assert (s = salt_ k) as -> by (apply EncodePadded_inj; congruence).
  rewrite bool_decide_eq_true_2; [by eexists _, _|]. specialize (Hop (activeKeyID k)). rewrite Hb in Hop. by destruct k.
Qed.

Lemma WriteKeyCheck_runs k nonce : length nonce = NonceSizeX -> runs (settledOn k) (WriteKeyCheck k nonce).
Proof.
  intros Hn d (Hw & _). unfold WriteKeyCheck, lift.
  assert (PurposeKeyCheck ∈ purposes) as Hp by (apply (bool_decide_unpack _); vm_compute; exact I).
  destruct (Encrypt_opens k k PurposeKeyCheck keyCheckLocation keyCheckPlaintext nonce Hw (conj eq_refl eq_refl) Hp Hn) as (e & He & _).
  rewrite He. by eexists _, _.
Qed.

Lemma grows_refl d : grows d d.
Proof. split_and!; apply kept_same. Qed.

Lemma Open_runs env d db : panelKey env -> drawn d -> sound db ->
  exists k db', Open_ env d (db, []) = (Ok k, (db', [])) /\ sound db' /\ grows db db' /\ settledOn k db' /\ is_Some (kvCheck db').
Proof.
  intros He Hd Hs. assert (runs (holds_ db) (Open_ env d)) as Hr.
  { destruct Hd as (Hd1 & Hd2 & Hd3). unfold Open_, OpenVerified.
    eapply runs_seq; [intros x [Hx _]; by apply loadSalt_runs|apply loadSalt_triple|]. intros o. rewrite loadMasterKey_panel by done.
    assert (bool_decide (o = None) = bool_decide (EncodePadded <$> o = None)) as -> by (by destruct o).
    eapply runs_seq.
    { intros x ((Hx & _) & Hv & _). apply (readKeyFile_runs (ePath env) (drawKey d) (EncodePadded <$> o)); [apply He|done]. }
    { eapply t_weaken; [apply (readKeyFile_triple db (ePath env) (EncodePadded <$> o) (drawKey d)); [apply He|done]| | |].
      - intros x (Hh & Hv & _). done.
      - intros key x Hx. exact Hx.
      - done. }
    intros key. destruct (decide (o = Some [])) as [->|Hne].
    { intros x (Hh & Hv & _). exfalso. destruct Hh as [Hx _]. destruct (salt_ok x Hx (EncodePadded [])) as (s1 & E & Hne); [done|].
      by apply EncodePadded_inj in E. }
    eapply runs_seq; [intros x (Hh & Hv & Hk); apply settle_runs; [done|split; [apply Hh|done]]| |].
    { eapply t_weaken; [by apply (settle_triple db key o (drawSalt d))| | |]; [|intros k x Hx; exact Hx|done]. intros x (Hh & Hv & Hk). done. }
    intros k. eapply runs_seq; [intros x (Hh & Hx); apply CheckKey_runs; by split; [apply Hh|]|apply CheckKey_triple|]. intros [|]; [apply runs_ret|].
    eapply (runs_seq _ _ _ (fun _ x => settledOn k x) (fun _ => True)); [apply runs_ret|intros s r s' (_ & Hx & _) [= <- <-]; done|]. intros []. cbn beta.
    eapply runs_seq; [by apply WriteKeyCheck_runs| |intros ?; apply runs_ret].
    instantiate (1 := fun _ => True). instantiate (1 := fun _ _ => True). by intros s [] s' _ _. }
  destruct (Hr db (conj Hs (grows_refl db))) as (k & db' & E). exists k, db'. split; [done|].
  destruct (Open_triple db env d (fun _ => tret tt) He Hd (fun _ _ => eq_refl) (db, []) _ _ (conj Hs (grows_refl db)) E) as ((Hs' & Hg) & Hk & Hc).
  done.
Qed.

(** One start, with the draws, failures and check of stored secrets it met. *)
Definition attempt_ (env : KeyEnv) (db db' : SecretDB) : Prop :=
  exists d verify fs fs' r, drawn d /\ readOnly verify /\ OpenVerified env d verify (db, fs) = (r, (db', fs')).

Lemma attempts_hold env db db' : panelKey env -> rtc (attempt_ env) db db' -> sound db -> sound db' /\ grows db db'.
Proof.
  intros He. induction 1 as [db|db db1 db' (d & v & fs & fs' & r & Hd & Hv & E) _ IH]; intros Hs; [by split; [|apply grows_refl]|].
  pose proof (Open_triple db env d v He Hd Hv (db, fs) _ _ (conj Hs (grows_refl db)) E) as Ht. cbn in Ht.
  assert (holds_ db db1) as [Hs1 (G1 & G2 & G3 & G4)] by (destruct r; [apply Ht|exact Ht]).
  destruct (IH Hs1) as [Hs2 (K1 & K2 & K3 & K4)]. split; [done|]. unfold grows, kept in *. split_and!; eauto.
Qed.

Definition emptyDB : SecretDB := mkSecretDB None None None None None ∅ ∅.
Lemma emptyDB_sound : sound emptyDB.
Proof. by split. Qed.

(** C13. However many starts of a new panel stopped, failed or succeeded, at
    whatever statement or system call, the next one opens the panel; and every
    start that ever handed out a keeper handed out the same key and salt, so what
    any of them sealed still opens. *)
Theorem start_recovers env db1 db2 db3 d d' verify fs fs' k :
  panelKey env -> drawn d -> drawn d' -> readOnly verify ->
  rtc (attempt_ env) emptyDB db1 -> OpenVerified env d' verify (db1, fs) = (Ok k, (db2, fs')) -> rtc (attempt_ env) db2 db3 ->
  (exists k1 db', Open_ env d (db1, []) = (Ok k1, (db', []))) /\
  (exists k3 db', Open_ env d (db3, []) = (Ok k3, (db', [])) /\ sameRoot k k3 /\ wellFormed k3).
Proof.
  intros He Hd Hd' Hv H1 E H3. destruct (attempts_hold _ _ _ He H1 emptyDB_sound) as [Hs1 _]. split.
  { destruct (Open_runs env d db1 He Hd Hs1) as (k1 & db' & E1 & _). eauto. }
  destruct (Open_triple db1 env d' verify He Hd' Hv (db1, fs) _ _ (conj Hs1 (grows_refl db1)) E)
    as ((Hs2 & _) & (Hw & Ha & Hsalt & f & Hf & Hb) & _).
  cbn in *. destruct (attempts_hold _ _ _ He H3 Hs2) as [Hs3 (G1 & G2 & G3 & G4)].
  destruct (Open_runs env d db3 He Hd Hs3) as (k' & db4 & E4 & Hs4 & (K1 & K2 & K3 & K4) & (Hw' & Ha' & Hsalt' & f' & Hf' & Hb') & _).
  exists k', db4. split; [done|]. split; [|done]. rewrite (K1 _ (G1 _ Hf)) in Hf'. injection Hf' as <-.
  rewrite (K2 _ (G2 _ Hsalt)) in Hsalt'. injection Hsalt' as Es%EncodePadded_inj. split; congruence.
Qed.
End Starts.
