(* ===== verification/Rotation.v ===== *)
(** internal/store/rotate.go and internal/crypto/rotation: the sealed columns, what
    is left on an older generation, and the job that moves every secret to a new one.

    The job is a machine that takes one statement a turn, so that other writers run
    between any two; a writer seals a value and stores it in two steps.  SQLite's
    [LIKE] compares ASCII letters without case. *)
From S2P Require Import Prelude GoBytes Lifecycle Sql UserStore Argon Keeper KeeperSafe.

Open Scope Z_scope.

(** ** The registry *)

Definition colTable (c : Col) : string :=
  match c with
  | RemoteCredentials => "remote_backup_destinations" | InstancePassword | BranchPassword => "instances"
  | TotpSecret => "users" | WebhookURL => "webhooks" | DiscordToken => "discord_bot"
  end.
Definition colColumn (c : Col) : string :=
  match c with
  | RemoteCredentials => "credentials" | InstancePassword => "password" | BranchPassword => "game_branch_password"
  | TotpSecret => "totp_secret" | WebhookURL => "url" | DiscordToken => "token"
  end.
Definition colPurpose (c : Col) : Purpose :=
  match c with
  | RemoteCredentials => "remote-backup" | InstancePassword => "instance-password" | BranchPassword => "branch-password"
  | TotpSecret => "totp-secret" | WebhookURL => "webhook-url" | DiscordToken => "discord-token"
  end.
Definition EncryptedColumns : list string := map (fun c => colTable c +:+ "." +:+ colColumn c) encryptedColumns.

Record StaleSecret := mkStale { sTable : string; sColumn : string; sRowID : string; sPurpose : string; sEnvelope : bytes }.
Definition staleLoc (s : StaleSecret) : Location := mkLocation (sTable s) (sColumn s) (sRowID s).
Definition staleOf (c : Col) (row : string * bytes) : StaleSecret := mkStale (colTable c) (colColumn c) row.1 (colPurpose c) row.2.

(** ** Statements *)

(** SQLite's [LIKE]. *)
Fixpoint like (p s : bytes) : bool :=
  match p with
  | [] => bool_decide (s = [])
  | c :: p =>
      if is_byte "%" c then
        (fix any (s : bytes) : bool := like p s || match s with [] => false | _ :: s => any s end) s
      else match s with
           | [] => false
           | x :: s => (is_byte "_" c || bool_decide (lower_byte c = lower_byte x)) && like p s
           end
  end.
Definition onGeneration (keyID : bytes) : bytes := L "v1." ++ keyID ++ L ".%".

Definition id_le (x y : string * bytes) : Prop := String.le x.1 y.1.
#[export] Instance id_le_dec x y : Decision (id_le x y).
Proof. unfold id_le. apply _. Defined.

(** The rows of a column that hold a value, in the order of their ids. *)
Definition rowsOf (c : Col) (d : SecretDB) : list (string * bytes) :=
  merge_sort id_le ((fun kv => (kv.1.2, kv.2)) <$> filter (fun kv => kv.1.1 = c /\ kv.2 <> []) (map_to_list (values d))).
Definition staleRows (c : Col) (keyID : bytes) (d : SecretDB) : list StaleSecret :=
  staleOf c <$> filter (fun row => like (onGeneration keyID) row.2 = false) (rowsOf c d).

(** [staleIn]; limit 0 is every row. *)
Definition staleIn (c : Col) (keyID : bytes) (limit : nat) : KTx (list StaleSecret) :=
  readq (fun d => let rows := staleRows c keyID d in if (limit =? 0)%nat then rows else take limit rows).

Fixpoint countIn (cols : list Col) (keyID : bytes) (total : nat) : KTx nat :=
  match cols with
  | [] => tret total
  | c :: cols => let! found := staleIn c keyID 0 in countIn cols keyID (total + length found)
  end.
Definition CountStaleSecrets (keyID : bytes) : KTx nat := countIn encryptedColumns keyID 0.

Fixpoint listIn (cols : list Col) (keyID : bytes) (limit : nat) (out : list StaleSecret) : KTx (list StaleSecret) :=
  match cols with
  | [] => tret out
  | c :: cols =>
      if (limit <=? length out)%nat then tret out
      else let! found := staleIn c keyID (limit - length out) in listIn cols keyID limit (out ++ found)
  end.
Definition ListStaleSecrets (keyID : bytes) (limit : nat) : KTx (list StaleSecret) := listIn encryptedColumns keyID limit [].

Fixpoint everyIn (cols : list Col) (out : list StaleSecret) : KTx (list StaleSecret) :=
  match cols with
  | [] => tret out
  | c :: cols => let! found := staleIn c [] 0 in everyIn cols (out ++ found)
  end.
Definition ListSecrets : KTx (list StaleSecret) := everyIn encryptedColumns [].

Definition ErrNotEncrypted : TxErr := EHook "not an encrypted column".
Definition ReplaceSecret (s : StaleSecret) (sealed : bytes) : KTx bool :=
  match list_find (fun c => colTable c = sTable s /\ colColumn c = sColumn s) encryptedColumns with
  | None => tfail ErrNotEncrypted
  | Some (_, c) =>
      stmt (fun d => if decide (values d !! (c, sRowID s) = Some (sEnvelope s))
                     then Ok (true, setValues (<[(c, sRowID s) := sealed]> (values d)) d)
                     else Ok (false, d))
  end.

Section Rotation.
Context `{Cipher}.

(** cmd/valmind's check of a key against the first stored secret. *)
Definition opensAStoredSecret (k : Keeper) : KTx unit :=
  let! secrets := ListSecrets in
  match secrets with
  | [] => tret tt
  | s :: _ => match Decrypt k (sPurpose s) (staleLoc s) (sEnvelope s) with
              | Ok _ => tret tt
              | Err _ => tfail ErrKeyMismatch
              end
  end.

(** ** The job *)

Definition keyRotateBatch : nat := 100.

Inductive Outcome := Succeeded | Cancelled | FailedJob (e : TxErr).

(** Where [run] is: before the flip, before the count, reading the next columns of
    a batch, sweeping what is left of one. *)
Inductive Phase :=
| Publishing
| Counting (gen : bytes)
| Listing (gen : bytes) (cols : list Col) (out : list StaleSecret)
| Sweeping (gen : bytes) (rest : list StaleSecret) (moved : nat)
| Done (o : Outcome).

(** A batch begins where the context is not cancelled. *)
Definition loopHead (cancelled : bool) (gen : bytes) : Phase :=
  if cancelled then Done Cancelled else Listing gen encryptedColumns [].

(** A batch that was read in full, or that is full. *)
Definition listed (gen : bytes) (out : list StaleSecret) : Phase :=
  match out with [] => Done Succeeded | _ => Sweeping gen out 0 end.

(** One row of [sweep]. *)
Definition sweepRow (k : Keeper) (nonce : bytes) (s : StaleSecret) : KTx bool :=
  let! plaintext := lift (Decrypt k (sPurpose s) (staleLoc s) (sEnvelope s)) in
  let! sealed := lift (Encrypt k (sPurpose s) (staleLoc s) plaintext nonce) in
  ReplaceSecret s sealed.

(** One turn: the statement the job is at, then the code up to the next. *)
Definition turn (cancelled : bool) (nonce : bytes) (k : Keeper) (p : Phase) : KTx (Keeper * Phase) := fun s =>
  let failing {A} (m : KTx A) (next : A -> Keeper * Phase) :=
    match m s with
    | (Ok a, s') => (Ok (next a), s')
    | (Err e, s') => (Ok (k, Done (FailedJob e)), s')
    end in
  match p with
  | Publishing => failing (Rotate k) (fun '(gen, k') => (k', Counting gen))
  | Counting gen => failing (CountStaleSecrets gen) (fun _ => (k, loopHead cancelled gen))
  | Listing gen [] out => (Ok (k, listed gen out), s)
  | Listing gen (c :: cols) out =>
      if (keyRotateBatch <=? length out)%nat then (Ok (k, listed gen out), s)
      else failing (staleIn c gen (keyRotateBatch - length out)) (fun found => (k, Listing gen cols (out ++ found)))
  | Sweeping gen [] moved =>
      (Ok (k, if cancelled then Done Cancelled
              else if (moved =? 0)%nat then Done (FailedJob (EHook "secrets are still on an older generation"))
              else loopHead cancelled gen), s)
  | Sweeping gen (x :: rest) moved =>
      failing (sweepRow k nonce x) (fun replaced => (k, Sweeping gen rest (if replaced : bool then S moved else moved)))
  | Done o => (Ok (k, Done o), s)
  end.

(** ** Other writers *)

(** A panel while the job runs: the values sealed and not yet stored, and what each
    stored value was sealed from. *)
Record World := mkWorld {
  wDB : SecretDB; wKeeper : Keeper; wPhase : Phase;
  wPending : list (Col * string * bytes * bytes);   (* column, row, envelope, plaintext *)
  wTruth : gmap (Col * string) bytes
}.

Definition locOf (c : Col) (id : string) : Location := mkLocation (colTable c) (colColumn c) id.

Inductive wstep : World -> World -> Prop :=
| WTurn cancelled nonce fs fs' w k p db : length nonce = NonceSizeX ->
    turn cancelled nonce (wKeeper w) (wPhase w) (wDB w, fs) = (Ok (k, p), (db, fs')) ->
    wstep w (mkWorld db k p (wPending w) (wTruth w))
| WSeal c id plaintext nonce e w : length nonce = NonceSizeX ->
    Encrypt (wKeeper w) (colPurpose c) (locOf c id) plaintext nonce = Ok e ->
    wstep w (mkWorld (wDB w) (wKeeper w) (wPhase w) ((c, id, e, plaintext) :: wPending w) (wTruth w))
| WStore pre post c id e plaintext w : wPending w = pre ++ (c, id, e, plaintext) :: post ->
    wstep w (mkWorld (setValues (<[(c, id) := e]> (values (wDB w))) (wDB w)) (wKeeper w) (wPhase w) (pre ++ post)
               (<[(c, id) := plaintext]> (wTruth w)))
| WClear c id w : is_Some (values (wDB w) !! (c, id)) ->
    wstep w (mkWorld (setValues (<[(c, id) := []]> (values (wDB w))) (wDB w)) (wKeeper w) (wPhase w) (wPending w) (wTruth w))
| WDelete c id w :
    wstep w (mkWorld (setValues (delete (c, id) (values (wDB w))) (wDB w)) (wKeeper w) (wPhase w) (wPending w) (wTruth w)).

End Rotation.
