(* ===== verification/RotationSafe.v ===== *)
(** What the rotation promises: it loses no secret whoever else writes, ends with
    every secret on its generation, and ends. *)
From S2P Require Import Prelude GoBytes Lifecycle Sql UserStore Argon Keeper KeeperSafe Rotation.

Open Scope Z_scope.

(** ** LIKE *)

Lemma like_any s : like (L "%") s = true.
Proof.
  induction s as [|x s IH]; [done|]. change (like (L "%") (x :: s)) with (like [] (x :: s) || like (L "%") s).
  by rewrite IH, orb_true_r.
Qed.

Lemma upper_lowered x : is_upper x = true -> is_lower (lower_byte x) = true.
Proof. destruct x as [[] [] [] [] [] [] [] []]; intros Hx; first [discriminate Hx | by vm_compute]. Qed.

Lemma lower_fixed c x : is_upper c = false -> is_lower c = false -> lower_byte c = lower_byte x -> x = c.
Proof.
  intros Hu Hl E. assert (lower_byte c = c) as Ec by (unfold lower_byte; by rewrite Hu). rewrite Ec in E.
  destruct (is_upper x) eqn:Hx; [apply upper_lowered in Hx; rewrite <- E in Hx; congruence|].
  unfold lower_byte in E. by rewrite Hx in E.
Qed.

(** A pattern of digits and dots matches nothing but itself. *)
Definition plainByte (c : ascii) : Prop := is_digit c = true \/ c = "."%char.
Lemma plain_not_special c : plainByte c -> is_byte "%" c = false /\ is_byte "_" c = false /\ is_upper c = false /\ is_lower c = false.
Proof. destruct c as [[] [] [] [] [] [] [] []]; intros [Hc|Hc]; first [discriminate Hc | by vm_compute]. Qed.

Lemma like_plain p q s : Forall plainByte p -> like (p ++ q) s = true <-> exists r, s = p ++ r /\ like q r = true.
Proof.
  intros Hp. revert s. induction Hp as [|c p Hc _ IH]; intros s; [naive_solver|].
  destruct (plain_not_special c Hc) as (E1 & E2 & E3 & E4). cbn [app like]. rewrite E1, E2. cbn [orb]. destruct s as [|x s].
  { split; [done|]. by intros (r & ? & _). }
  rewrite andb_true_iff, IH, bool_decide_eq_true. split.
  - intros [Ex (r & -> & Hr)]. exists r. split; [|done]. f_equal. by apply lower_fixed.
  - intros (r & [= -> ->] & Hr). split; [done|]. eauto.
Qed.

Lemma like_generation gen e : Forall plainByte gen -> hasPrefix (L "v1.") e = true ->
  like (onGeneration gen) e = true <-> sealedUnder gen e.
Proof.
  intros Hg He. apply hasPrefix_spec in He as [r ->]. unfold sealedUnder, onGeneration. change (envelopeVersion ++ L "." ++ gen ++ L ".") with (L "v1." ++ gen ++ L ".").
  rewrite hasPrefix_spec. change (like (L "v1." ++ gen ++ L ".%") (L "v1." ++ r)) with (like (L "1." ++ gen ++ L ".%") (L "1." ++ r)).
  change (L ".%") with (L "." ++ L "%"). rewrite !app_assoc. rewrite like_plain; [|].
  - split.
    + intros (x & E & _). exists x. rewrite <- !app_assoc in E. apply (app_inv_head (L "1.")) in E. by rewrite E, <- !app_assoc.
    + intros (x & E). exists x. split; [|apply like_any]. rewrite <- !app_assoc in E. apply (app_inv_head (L "v1.")) in E.
      by rewrite E, <- !app_assoc.
  - rewrite !Forall_app. split_and!; [|done|]; repeat constructor; (left; done) || (right; done).
Qed.

Lemma itoa_plain n : 0 <= n < 10 ^ 20 -> Forall plainByte (itoa n).
Proof. intros Hn. eapply Forall_impl; [by apply itoa_digits|]. by left. Qed.

(** ** The statements *)

Lemma elem_of_rowsOf c d id v : (id, v) ∈ rowsOf c d <-> values d !! (c, id) = Some v /\ v <> [].
Proof.
  unfold rowsOf. rewrite merge_sort_Permutation, list_elem_of_fmap. split.
  - intros ([[c' id'] v'] & [= -> ->] & Hin). apply list_elem_of_filter in Hin as [[Hc Hv] Hin]. cbn in Hc. subst c'. by apply elem_of_map_to_list in Hin.
  - intros [Hl Hv]. exists ((c, id), v). split; [done|]. apply list_elem_of_filter. split; [done|]. by apply elem_of_map_to_list.
Qed.

Lemma elem_of_staleRows c gen d s : s ∈ staleRows c gen d <->
  exists id v, s = staleOf c (id, v) /\ values d !! (c, id) = Some v /\ v <> [] /\ like (onGeneration gen) v = false.
Proof.
  unfold staleRows. rewrite list_elem_of_fmap. split.
  - intros ([id v] & -> & [Hk Hin%elem_of_rowsOf]%list_elem_of_filter). naive_solver.
  - intros (id & v & -> & Hl & Hv & Hk). exists (id, v). split; [done|]. apply list_elem_of_filter. split; [done|]. by apply elem_of_rowsOf.
Qed.

Lemma ReplaceSecret_run c id v sealed : ReplaceSecret (staleOf c (id, v)) sealed =
  stmt (fun d => if decide (values d !! (c, id) = Some v) then Ok (true, setValues (<[(c, id) := sealed]> (values d)) d) else Ok (false, d)).
Proof. unfold ReplaceSecret. by destruct c. Qed.

Lemma ReplaceSecret_cases c id v sealed s r s' : ReplaceSecret (staleOf c (id, v)) sealed s = (r, s') ->
  (s'.1 = s.1 /\ r <> Ok true) \/
  (r = Ok true /\ values s.1 !! (c, id) = Some v /\ s'.1 = setValues (<[(c, id) := sealed]> (values s.1)) s.1).
Proof.
  rewrite ReplaceSecret_run. intros E. destruct r as [b|e].
  - apply stmt_Ok in E as [E _]. destruct (decide _) as [Hv|Hv]; injection E as <- <-; [by right|by left].
  - apply stmt_Err in E as [E _]. by left.
Qed.

Lemma CountStale_state cols gen n s r s' : countIn cols gen n s = (r, s') -> s'.1 = s.1.
Proof.
  revert n s. induction cols as [|c cols IH]; intros n s; [by intros [= _ <-]|]. cbn [countIn]. unfold tbind, staleIn.
  destruct (readq _ s) as [[x|e] s1] eqn:E; apply readq_state in E; [|by intros [= _ <-]]. intros Hc%IH. congruence.
Qed.

(** ** Worlds *)

Section Worlds.
Context `{CipherLaws}.

(** An envelope of the row's value under the keeper. *)
Definition opensTo (k : Keeper) (row : Col * string) (e pt : bytes) : Prop :=
  Decrypt k (colPurpose row.1) (locOf row.1 row.2) e = Ok pt.

Definition shaped (s : StaleSecret) : Prop := exists c row, s = staleOf c row.
Definition shapedPhase (p : Phase) : Prop :=
  match p with
  | Listing _ _ out => Forall shaped out
  | Sweeping _ rest _ => Forall shaped rest
  | _ => True
  end.

(** Every stored value opens to what its last writer sealed, and so will every
    value sealed and not yet stored. *)
Record intact (w : World) : Prop := {
  intact_keeper : wellFormed (wKeeper w);
  intact_values row v : values (wDB w) !! row = Some v -> v <> [] ->
    exists pt, wTruth w !! row = Some pt /\ opensTo (wKeeper w) row v pt;
  intact_pending c id e pt : (c, id, e, pt) ∈ wPending w -> opensTo (wKeeper w) (c, id) e pt;
  intact_phase : shapedPhase (wPhase w)
}.

Lemma shaped_head c gen : shapedPhase (loopHead c gen).
Proof. destruct c; [done|apply Forall_nil_2]. Qed.

Lemma colPurpose_known c : colPurpose c ∈ purposes.
Proof. destruct c; apply (bool_decide_unpack _); vm_compute; exact I. Qed.

Lemma opensTo_root k k' row e pt : sameRoot k k' -> opensTo k row e pt -> opensTo k' row e pt.
Proof. intros Hr. unfold opensTo. by rewrite (Decrypt_root k k'). Qed.

Lemma sealed_row k c id pt nonce e : wellFormed k -> length nonce = NonceSizeX ->
  Encrypt k (colPurpose c) (locOf c id) pt nonce = Ok e -> opensTo k (c, id) e pt /\ sealedUnder (activeKeyID k) e.
Proof.
  intros Hk Hn E. destruct (Encrypt_opens k k (colPurpose c) (locOf c id) pt nonce Hk (conj eq_refl eq_refl) (colPurpose_known c) Hn)
    as (e' & E' & Hu & Hd). rewrite E in E'. by injection E' as <-.
Qed.

Lemma staleRows_shaped c gen d : Forall shaped (staleRows c gen d).
Proof. apply Forall_forall. intros s (id & v & -> & _)%elem_of_staleRows. by exists c, (id, v). Qed.

(** What a turn of the job may do to the database: move one row to an envelope of
    the same text under the active generation, or publish a generation. *)
Inductive moves (k k' : Keeper) (db db' : SecretDB) : Prop :=
| MNone : k' = k -> db' = db -> moves k k' db db'
| MFlip id : k' = activate id k -> nextKeyID (activeKeyID k) = Ok id -> db' = setActive id db -> moves k k' db db'
| MRow row v pt e : k' = k -> values db !! row = Some v -> opensTo k row v pt -> opensTo k row e pt ->
    sealedUnder (activeKeyID k) e -> db' = setValues (<[row := e]> (values db)) db -> moves k k' db db'.

Lemma sweepRow_moves k nonce c row s r s' : wellFormed k -> length nonce = NonceSizeX ->
  sweepRow k nonce (staleOf c row) s = (r, s') -> moves k k s.1 s'.1.
Proof.
  destruct row as [id v]. intros Hk Hn. unfold sweepRow, tbind, lift.
  change (staleLoc (staleOf c (id, v))) with (locOf c id). change (sPurpose (staleOf c (id, v))) with (colPurpose c).
  change (sEnvelope (staleOf c (id, v))) with v.
  destruct (Decrypt k (colPurpose c) (locOf c id) v) as [pt|e] eqn:Ed; [|intros [= _ <-]; by apply MNone]. unfold tret.
  destruct (Encrypt k (colPurpose c) (locOf c id) pt nonce) as [sealed|e] eqn:Es; [|intros [= _ <-]; by apply MNone].
  intros [[E _]|(_ & Hv & E)]%ReplaceSecret_cases; [by apply MNone|].
  destruct (sealed_row k c id pt nonce sealed Hk Hn Es) as [Ho Hu]. by eapply (MRow _ _ _ _ (c, id) v pt sealed).
Qed.

Lemma turn_moves cancelled nonce k p s k' p' s' : wellFormed k -> length nonce = NonceSizeX -> shapedPhase p ->
  turn cancelled nonce k p s = (Ok (k', p'), s') -> moves k k' s.1 s'.1 /\ shapedPhase p'.
Proof.
  intros Hk Hn Hp. unfold turn. destruct p as [|gen|gen cols out|gen rest moved|o].
  - destruct (Rotate k s) as [[[id k1]|e] s1] eqn:E; apply Rotate_cases in E; intros [= <- <- <-]; [|by split; [apply MNone|]].
    destruct E as (En & -> & Es). split; [by eapply MFlip|done].
  - destruct (CountStaleSecrets gen s) as [[n|e] s1] eqn:E; apply CountStale_state in E; intros [= <- <- <-]; split; try (by apply MNone); [|done].
    apply shaped_head.
  - assert (shapedPhase (listed gen out)) as Hl by (by destruct out).
    destruct cols as [|c cols]; [intros [= <- <- <-]; by split; [apply MNone|]|].
    destruct (_ <=? _)%nat; [intros [= <- <- <-]; by split; [apply MNone|]|].
    destruct (staleIn c gen _ s) as [[found|e] s1] eqn:E.
    + apply readq_Ok in E as [-> Es]. intros [= <- <- <-]. split; [by apply MNone|]. cbn in *. apply Forall_app. split; [done|].
      pose proof (staleRows_shaped c gen s.1) as Hs. destruct (_ =? 0)%nat; [done|by apply Forall_take].
    + apply readq_state in E. intros [= <- <- <-]. by split; [apply MNone|].
  - destruct rest as [|x rest].
    + intros [= <- <- <-]. split; [by apply MNone|]. destruct cancelled; [done|]. destruct (moved =? 0)%nat; [done|apply shaped_head].
    + apply Forall_cons in Hp as [(c & row & ->) Hp]. destruct (sweepRow k nonce (staleOf c row) s) as [[b|e] s1] eqn:E;
        apply sweepRow_moves in E; try done; intros [= <- <- <-]; done.
  - intros [= <- <- <-]. by split; [apply MNone|].
Qed.

Lemma moves_keeper k k' db db' : wellFormed k -> moves k k' db db' -> wellFormed k' /\ sameRoot k k'.
Proof.
  intros Hk [-> _|id -> Hn _|row v pt e -> _ _ _ _ _]; [by split| |by split]. split; [|done]. destruct Hk as (Hm & Hs & _).
  apply nextKeyID_Ok in Hn as (n & _ & Hn & ->). split_and!; [done..|]. cbn. apply keyIDOK_itoa. lia.
Qed.

Lemma intact_step w w' : intact w -> wstep w w' -> intact w'.
Proof.
  intros [Hk Hv Hp Hs] Hstep.
  destruct Hstep as [cancelled nonce fs fs' w k p db Hn E|c id pt nonce e w Hn E|pre post c id e pt w Epend|c id w Hrow|c id w]; cbn.
  - destruct (turn_moves _ _ _ _ _ _ _ _ Hk Hn Hs E) as [Hm Hs']. cbn in Hm. destruct (moves_keeper _ _ _ _ Hk Hm) as [Hk' Hr].
    split; cbn; [done| |intros; by eapply opensTo_root; [|apply Hp]|done].
    intros row v Hrow Hne. assert (exists v0, values (wDB w) !! row = Some v0 /\ v0 <> [] /\ forall pt, opensTo (wKeeper w) row v0 pt -> opensTo (wKeeper w) row v pt) as (v0 & Hv0 & Hne0 & Hsame).
    { destruct Hm as [_ ->|? _ _ ->|row0 v0 pt e _ Hv0 Ho Ho' _ ->]; [by exists v..|].
      cbn in Hrow. apply lookup_insert_cases in Hrow as [[<- <-]|[Hne' Hrow]]; [|by exists v]. exists v0. split; [done|]. split.
      - intros ->. by vm_compute in Ho.
      - intros pt' Ho2. unfold opensTo in *. congruence. }
    destruct (Hv row v0 Hv0 Hne0) as (pt & Ht & Ho). exists pt. split; [done|]. eapply opensTo_root; [done|]. by apply Hsame.
  - split; cbn; [done..| |done]. intros c' id' e' pt' [[= -> -> -> ->]|Hin]%elem_of_cons; [|by apply Hp].
    by eapply sealed_row.
  - assert ((c, id, e, pt) ∈ wPending w) as Hin by (rewrite Epend; set_solver).
    split; cbn; [done| | |done].
    + intros row v Hrow Hne. apply lookup_insert_cases in Hrow as [[<- <-]|[Hne' Hrow]].
      * exists pt. split; [by rewrite lookup_insert_eq|]. by apply Hp.
      * rewrite lookup_insert_ne by done. by apply Hv.
    + intros c' id' e' pt' Hin'. apply Hp. rewrite Epend. set_solver.
  - split; cbn; [done| |done..]. intros row v [[<- <-]|[Hne' Hl]]%lookup_insert_cases Hne; [done|by apply Hv].
  - split; cbn; [done| |done..]. intros row v [Hne' Hrow]%lookup_delete_Some Hne. by apply Hv.
Qed.

Lemma intact_steps w w' : intact w -> rtc wstep w w' -> intact w'.
Proof. intros Hw. induction 1; [done|]. eauto using intact_step. Qed.

Lemma root_steps w w' : intact w -> rtc wstep w w' -> sameRoot (wKeeper w) (wKeeper w').
Proof.
  intros Hw Hs. induction Hs as [w|w w1 w' H1 _ IH]; [done|]. specialize (IH (intact_step _ _ Hw H1)).
  assert (sameRoot (wKeeper w) (wKeeper w1)) as [E1 E2]; [|destruct IH; split; congruence].
  destruct H1 as [cancelled nonce fs fs' w k p db Hn E| | | |]; try done.
  destruct (turn_moves _ _ _ _ _ _ _ _ (intact_keeper _ Hw) Hn (intact_phase _ Hw) E) as [Hm _]. eapply moves_keeper; [apply Hw|done].
Qed.

(** ** The sweep is complete *)

Definition freshRow (gen : bytes) (d : SecretDB) (row : Col * string) : Prop :=
  forall v, values d !! row = Some v -> v <> [] -> sealedUnder gen v.
Definition pendingFresh (w : World) : Prop :=
  forall c id e pt, (c, id, e, pt) ∈ wPending w -> sealedUnder (activeKeyID (wKeeper w)) e.
Definition counted (k : Keeper) : Prop := exists n, 0 <= n < 10 ^ 20 /\ activeKeyID k = itoa n.

Definition sweptSo (w : World) : Prop :=
  let gen := activeKeyID (wKeeper w) in
  match wPhase w with
  | Publishing | Done Cancelled | Done (FailedJob _) => True
  | Counting g | Sweeping g _ _ => g = gen /\ counted (wKeeper w) /\ pendingFresh w
  | Listing g cols out => g = gen /\ counted (wKeeper w) /\ pendingFresh w /\
      exists pre, encryptedColumns = pre ++ cols /\ (out = [] -> forall c id, c ∈ pre -> freshRow gen (wDB w) (c, id))
  | Done Succeeded => counted (wKeeper w) /\ pendingFresh w /\ forall row, freshRow gen (wDB w) row
  end.

Lemma opens_prefix k row e pt : opensTo k row e pt -> hasPrefix (L "v1.") e = true.
Proof.
  unfold opensTo, Decrypt. pose proof (join_split "."%char e) as Ej.
  destruct (split "."%char e) as [|version [|keyID [|nonce [|sealed [|]]]]]; try done.
  destruct (bool_decide_reflect (version = envelopeVersion)) as [->|]; [|done]. intros _. apply hasPrefix_spec. rewrite <- Ej.
  by eexists.
Qed.

Lemma staleRows_nil c gen w : counted (wKeeper w) -> gen = activeKeyID (wKeeper w) -> intact w ->
  staleRows c gen (wDB w) = [] -> forall id, freshRow gen (wDB w) (c, id).
Proof.
  intros (n & Hn & En) -> Hw Hnil id v Hv Hne. destruct (intact_values _ Hw (c, id) v Hv Hne) as (pt & _ & Ho).
  apply like_generation; [rewrite En; by apply itoa_plain|by eapply opens_prefix|].
  destruct (like _ v) eqn:E; [done|]. assert (staleOf c (id, v) ∈ staleRows c (activeKeyID (wKeeper w)) (wDB w)) as Hin.
  { apply elem_of_staleRows. by exists id, v. }
  rewrite Hnil in Hin. by apply elem_of_nil in Hin.
Qed.

(** Only the flip changes the keeper. *)
Lemma turn_keeper cancelled nonce k p s k' p' s' : turn cancelled nonce k p s = (Ok (k', p'), s') -> p <> Publishing -> k' = k /\ p' <> Publishing.
Proof.
  unfold turn. destruct p as [|gen|gen cols out|gen rest moved|o]; intros E Hne; [done|..].
  - destruct (CountStaleSecrets gen s) as [[?|?] ?]; injection E as <- <- <-; [|done]. by destruct cancelled.
  - destruct cols as [|c cols]; [injection E as <- <- <-; by destruct out|]. destruct (_ <=? _)%nat; [injection E as <- <- <-; by destruct out|].
    destruct (staleIn _ _ _ _) as [[?|?] ?]; by injection E as <- <- <-.
  - destruct rest; [injection E as <- <- <-; destruct cancelled; [done|]; by destruct (moved =? 0)%nat|].
    destruct (sweepRow _ _ _ _) as [[?|?] ?]; by injection E as <- <- <-.
  - by injection E as <- <- <-.
Qed.

Lemma fresh_moves k db db' row : moves k k db db' -> (forall id, nextKeyID (activeKeyID k) = Ok id -> activate id k = k -> False) ->
  freshRow (activeKeyID k) db row -> freshRow (activeKeyID k) db' row.
Proof.
  intros [_ ->|id E Hn ->|row0 v0 pt e _ _ _ _ Hu ->] Hno Hf; [done|by destruct (Hno id)|].
  intros v Hv Hne. cbn in Hv. apply lookup_insert_cases in Hv as [[<- <-]|[_ Hv]]; [done|by apply Hf].
Qed.

Lemma next_differs k id : counted k -> nextKeyID (activeKeyID k) = Ok id -> activate id k = k -> False.
Proof.
  intros (m & Hm & Em) (n & Hp & Hn & ->)%nextKeyID_Ok E. apply (f_equal activeKeyID) in E.
  change (itoa (n + 1) = activeKeyID k) in E. rewrite Em in E, Hp. apply itoa_inj in E; [|lia..].
  apply ParseUint32_inv in Hp; lia.
Qed.

Lemma swept_turn cancelled nonce fs fs' w k p db : intact w -> length nonce = NonceSizeX -> wPhase w <> Publishing -> sweptSo w ->
  turn cancelled nonce (wKeeper w) (wPhase w) (wDB w, fs) = (Ok (k, p), (db, fs')) ->
  sweptSo (mkWorld db k p (wPending w) (wTruth w)).
Proof.
  intros Hw Hn Hph Hsw E. destruct (turn_keeper _ _ _ _ _ _ _ _ E Hph) as [-> Hp'].
  destruct (turn_moves _ _ _ _ _ _ _ _ (intact_keeper _ Hw) Hn (intact_phase _ Hw) E) as [Hm _]. cbn in Hm. revert E.
  unfold sweptSo in *. cbn. destruct (wPhase w) as [|g|g cols out|g rest moved|o] eqn:Ep; [done|..]; unfold turn.
  - destruct Hsw as (-> & Hc & Hpend). destruct (CountStaleSecrets _ _) as [[?|?] [? ?]]; intros [= <- <- <-]; [|done].
    destruct cancelled; cbn; [done|]. split_and!; [done..|]. exists []. split; [done|]. intros _ c id Hin. by apply elem_of_nil in Hin.
  - destruct Hsw as (-> & Hc & Hpend & pre & Epre & Hfresh). set (gen := activeKeyID (wKeeper w)) in *.
    assert (forall out', (out' = [] -> forall row, freshRow gen (wDB w) row) ->
      match listed gen out' with Publishing | Done Cancelled | Done (FailedJob _) => True
      | Counting g | Sweeping g _ _ => g = gen /\ counted (wKeeper w) /\ pendingFresh (mkWorld (wDB w) (wKeeper w) (listed gen out') (wPending w) (wTruth w))
      | Listing g cols0 out0 => True
      | Done Succeeded => counted (wKeeper w) /\ pendingFresh (mkWorld (wDB w) (wKeeper w) (listed gen out') (wPending w) (wTruth w)) /\ forall row, freshRow gen (wDB w) row end) as Hlisted.
    { intros [|x out']; cbn; auto. }
    destruct cols as [|c cols].
    + intros [= <- <- <-]. destruct out as [|x out]; cbn; [|done]. split_and!; [done..|]. intros [c id]. apply Hfresh; [done|].
      rewrite app_nil_r in Epre. rewrite <- Epre. destruct c; apply (bool_decide_unpack _); vm_compute; exact I.
    + destruct (keyRotateBatch <=? length out)%nat eqn:Hl; [intros [= <- <- <-]; by destruct out|].
      destruct (staleIn c gen _ _) as [[found|e] [d1 fs1]] eqn:Es; intros [= <- <- <-]; [|done]. unfold staleIn in Es. apply readq_Ok in Es as [-> Es]. cbn in Es. subst d1.
      split_and!; [done..|]. exists (pre ++ [c]). split; [by rewrite <- app_assoc|]. intros [-> Hnil]%app_nil c' id' [Hin|<-%list_elem_of_singleton]%elem_of_app.
      * by apply Hfresh.
      * apply (staleRows_nil c'); [done..|]. cbn in Hnil. destruct (staleRows c' gen (wDB w)); [done|discriminate Hnil].
  - destruct Hsw as (-> & Hc & Hpend). destruct rest as [|x rest].
    + intros [= <- <- <-]. destruct cancelled; [done|]. destruct (moved =? 0)%nat; [done|]. cbn. split_and!; [done..|]. exists []. split; [done|].
      intros _ c id Hin. by apply elem_of_nil in Hin.
    + destruct (sweepRow _ _ _ _) as [[b|e] [d1 fs1]]; intros [= <- <- <-]; [|done]. done.
  - intros [= <- <- <-]. destruct o; [|done..]. destruct Hsw as (Hc & Hpend & Hf). done.
Qed.

Lemma swept_step w w' : intact w -> wPhase w <> Publishing -> sweptSo w -> wstep w w' -> sweptSo w' /\ wPhase w' <> Publishing.
Proof.
  intros Hw Hph Hsw Hstep.
  assert (forall d pend truth, (pendingFresh w ->
      (forall row, freshRow (activeKeyID (wKeeper w)) (wDB w) row -> freshRow (activeKeyID (wKeeper w)) d row) /\
      pendingFresh (mkWorld d (wKeeper w) (wPhase w) pend truth)) ->
    sweptSo (mkWorld d (wKeeper w) (wPhase w) pend truth)) as Hgen.
  { intros d pend truth Hf. unfold sweptSo in *. cbn. destruct (wPhase w) as [|g|g cols out|g rest moved|[]]; try done.
    - destruct Hsw as (? & ? & Hp). destruct (Hf Hp). done.
    - destruct Hsw as (? & ? & Hp & pre & ? & Hpre). destruct (Hf Hp) as [Hr ?]. split_and!; [done..|]. exists pre. split; [done|].
      intros ? c id ?. by apply Hr, Hpre.
    - destruct Hsw as (? & ? & Hp). destruct (Hf Hp). done.
    - destruct Hsw as (? & Hp & Hall). destruct (Hf Hp) as [Hr ?]. split_and!; [done..|]. intros row. by apply Hr. }
  destruct Hstep as [cancelled nonce fs fs' w k p db Hn E|c id pt nonce e w Hn E|pre post c id e pt w Epend|c id w Hrow|c id w].
  - split; [by eapply swept_turn|]. by eapply turn_keeper.
  - split; [|done]. apply Hgen. intros Hp. split; [done|]. intros c' id' e' pt' [[= -> -> -> ->]|Hin]%elem_of_cons; [|by eapply Hp].
    cbn. eapply sealed_row; [apply Hw|done..].
  - split; [|done]. apply Hgen. intros Hp. split.
    + intros row Hr v Hv Hne. cbn in Hv. apply lookup_insert_cases in Hv as [[<- <-]|[_ Hv]]; [|by apply Hr].
      apply (Hp c id e pt). rewrite Epend. set_solver.
    + intros c' id' e' pt' Hin'. cbn in *. apply (Hp c' id' e' pt'). rewrite Epend. set_solver.
  - split; [|done]. apply Hgen. intros Hp. split; [|done]. intros row Hr v Hv Hne. cbn in Hv.
    apply lookup_insert_cases in Hv as [[<- <-]|[_ Hv]]; [done|by apply Hr].
  - split; [|done]. apply Hgen. intros Hp. split; [|done]. intros row Hr v Hv Hne. cbn in Hv.
    apply lookup_delete_Some in Hv as [_ Hv]. by apply Hr.
Qed.

Lemma swept_steps w w' : intact w -> wPhase w <> Publishing -> sweptSo w -> rtc wstep w w' -> sweptSo w'.
Proof.
  intros Hw Hph Hsw Hs. induction Hs as [w|w w1 w' H1 _ IH]; [done|].
  destruct (swept_step w w1 Hw Hph Hsw H1). apply IH; [by eapply intact_step|done..].
Qed.

(** The flip, with nothing sealed and not yet stored. *)
Lemma flip_swept w k p db nonce fs fs' gen : intact w -> wPending w = [] -> wPhase w = Publishing ->
  turn false nonce (wKeeper w) Publishing (wDB w, fs) = (Ok (k, p), (db, fs')) -> p = Counting gen ->
  sweptSo (mkWorld db k p [] (wTruth w)) /\ activeKeyID k = gen.
Proof.
  intros Hw Hpend Hph E ->. unfold turn in E. destruct (Rotate (wKeeper w) (wDB w, fs)) as [[[id k1]|e] s1] eqn:Er; apply Rotate_cases in Er; [|done].
  injection E as <- <- _. destruct Er as (Hid & -> & _). apply nextKeyID_Ok in Hid as (n & _ & Hn & ->).
  split; [|done]. unfold sweptSo. cbn [wPhase wKeeper]. split_and!; [done|exists (n + 1); split; [lia|done]|].
  intros c id e pt Hin. by apply elem_of_nil in Hin.
Qed.

Lemma keeper_steps w w' : wPhase w <> Publishing -> rtc wstep w w' -> wKeeper w' = wKeeper w.
Proof.
  intros Hph Hs. induction Hs as [w|w w1 w' H1 _ IH]; [done|].
  assert (wKeeper w1 = wKeeper w /\ wPhase w1 <> Publishing) as [E Hph1]; [|rewrite IH; done].
  destruct H1 as [cancelled nonce fs fs' w k p db Hn E| | | |]; try done. by apply turn_keeper in E.
Qed.

(** ** It ends *)

(** A turn with no failure, no cancellation and nobody else. *)
Definition calm (nonce : bytes) (w : World) : World :=
  match turn false nonce (wKeeper w) (wPhase w) (wDB w, []) with
  | (Ok (k, p), (db, _)) => mkWorld db k p (wPending w) (wTruth w)
  | _ => w
  end.

Definition staleValue (gen : bytes) (kv : (Col * string) * bytes) : Prop := kv.2 <> [] /\ like (onGeneration gen) kv.2 = false.
Definition owed (gen : bytes) (d : SecretDB) : nat := size (filter (staleValue gen) (values d)).

Context (nonce : bytes) (Hnonce : length nonce = NonceSizeX).

Lemma turn_total c k p s : exists k' p' s', turn c nonce k p s = (Ok (k', p'), s').
Proof.
  unfold turn. repeat case_match; subst; eauto.
Qed.

Lemma calm_step w : wstep w (calm nonce w).
Proof.
  unfold calm. destruct (turn_total false (wKeeper w) (wPhase w) (wDB w, [])) as (k & p & [db fs] & E). rewrite E. by eapply WTurn.
Qed.
Lemma calm_intact w : intact w -> intact (calm nonce w).
Proof. intros Hw. eapply intact_step; [done|apply calm_step]. Qed.

Lemma calm_steps n w : rtc wstep w (Nat.iter n (calm nonce) w).
Proof. induction n as [|n IH]; [done|]. eapply rtc_r; [exact IH|apply calm_step]. Qed.

Lemma owed_insert gen d row e : like (onGeneration gen) e = true ->
  (owed gen (setValues (<[row := e]> (values d)) d) <= owed gen d)%nat /\
  (forall v, values d !! row = Some v -> staleValue gen (row, v) ->
     (owed gen (setValues (<[row := e]> (values d)) d) < owed gen d)%nat).
Proof.
  intros He. unfold owed. cbn [values setValues]. rewrite map_filter_insert_False by (intros [_ Hx]; change (like (onGeneration gen) e = false) in Hx; congruence).
  rewrite map_filter_delete. split.
  - apply map_subseteq_size, delete_subseteq.
  - intros v Hv Hst. assert (filter (staleValue gen) (values d) !! row = Some v) as Hl by (by apply map_lookup_filter_Some).
    rewrite map_size_delete_Some by (by eexists). assert (size (filter (staleValue gen) (values d)) <> 0)%nat; [|lia].
    intros E%map_size_empty_inv. rewrite E in Hl. by rewrite lookup_empty in Hl.
Qed.

Lemma sealed_not_stale k row e pt : counted k -> opensTo k row e pt -> sealedUnder (activeKeyID k) e ->
  like (onGeneration (activeKeyID k)) e = true.
Proof. intros (n & Hn & En) Ho Hu. apply like_generation; [rewrite En; by apply itoa_plain|by eapply opens_prefix|done]. Qed.

(** One row of a batch that opens. *)
Lemma sweepRow_run k c id v pt d : wellFormed k -> counted k -> opensTo k (c, id) v pt ->
  exists b d', sweepRow k nonce (staleOf c (id, v)) (d, []) = (Ok b, (d', [])) /\
    (owed (activeKeyID k) d' <= owed (activeKeyID k) d)%nat /\
    (values d !! (c, id) = Some v -> staleValue (activeKeyID k) ((c, id), v) -> b = true /\ (owed (activeKeyID k) d' < owed (activeKeyID k) d)%nat).
Proof.
  intros Hk Hc Ho. unfold sweepRow, tbind, lift. change (staleLoc (staleOf c (id, v))) with (locOf c id).
  change (sPurpose (staleOf c (id, v))) with (colPurpose c). change (sEnvelope (staleOf c (id, v))) with v.
  unfold opensTo in Ho. cbn [fst snd] in Ho. rewrite Ho. unfold tret.
  destruct (Encrypt_opens k k (colPurpose c) (locOf c id) pt nonce Hk (conj eq_refl eq_refl) (colPurpose_known c) Hnonce) as (e & Ee & Hu & Hd).
  rewrite Ee, ReplaceSecret_run, stmt_run.
  destruct (owed_insert (activeKeyID k) d (c, id) e (sealed_not_stale k (c, id) e pt Hc Hd Hu)) as [Hle Hlt].
  destruct (decide (values d !! (c, id) = Some v)) as [Hv|Hv].
  - eexists true, _. split_and!; [reflexivity|done|]. intros _ Hst. split; [done|]. by apply (Hlt v).
  - eexists false, d. split_and!; [reflexivity|done|]. intros Hv' _. done.
Qed.

Definition opensBatch (k : Keeper) (s : StaleSecret) : Prop :=
  exists c id v pt, s = staleOf c (id, v) /\ opensTo k (c, id) v pt.
Definition owedRow (gen : bytes) (d : SecretDB) (s : StaleSecret) : Prop :=
  exists c id v, s = staleOf c (id, v) /\ values d !! (c, id) = Some v /\ staleValue gen ((c, id), v).

Lemma sweep_calm gen rest : forall w moved, intact w -> wPhase w = Sweeping gen rest moved -> counted (wKeeper w) ->
  gen = activeKeyID (wKeeper w) -> Forall (opensBatch (wKeeper w)) rest ->
  exists n moved', let w' := Nat.iter n (calm nonce) w in
    wPhase w' = Sweeping gen [] moved' /\ wKeeper w' = wKeeper w /\ (moved <= moved')%nat /\ (owed gen (wDB w') <= owed gen (wDB w))%nat /\
    (forall x, head rest = Some x -> owedRow gen (wDB w) x -> (moved < moved')%nat /\ (owed gen (wDB w') < owed gen (wDB w))%nat).
Proof.
  induction rest as [|x rest IH]; intros w moved Hw Hph Hc Hg Hrest.
  { exists 0%nat, moved. split_and!; done. }
  apply Forall_cons in Hrest as [(c & id & v & pt & -> & Ho) Hrest].
  destruct (sweepRow_run (wKeeper w) c id v pt (wDB w) (intact_keeper _ Hw) Hc Ho) as (b & d' & E & Hle & Hlt). rewrite <- Hg in Hle, Hlt.
  assert (calm nonce w = mkWorld d' (wKeeper w) (Sweeping gen rest (if b then S moved else moved)) (wPending w) (wTruth w)) as Ecalm.
  { unfold calm. rewrite Hph. unfold turn. by rewrite E. }
  assert (wDB (calm nonce w) = d') as Ed by (by rewrite Ecalm).
  destruct (IH (calm nonce w) (if b then S moved else moved)) as (n & moved' & IHn).
  - by apply calm_intact.
  - by rewrite Ecalm.
  - by rewrite Ecalm.
  - by rewrite Ecalm.
  - by rewrite Ecalm.
  - destruct IHn as (H1 & H2 & H3 & H4 & _). exists (S n), moved'. cbv zeta. rewrite Nat.iter_succ_r.
    split_and!; [done|by rewrite H2, Ecalm|destruct b; lia|rewrite Ed in H4; lia|].
    intros y [= <-] (c' & id' & v' & Es & Hv & Hst). assert (c' = c /\ id' = id /\ v' = v) as (-> & -> & ->).
    { unfold staleOf in Es. destruct c, c'; cbn in Es; try discriminate Es; by injection Es as -> ->. }
    destruct (Hlt Hv Hst) as [-> Hlt']. rewrite Ed in H4. split; lia.
Qed.

Lemma list_calm gen cols : forall w out, intact w -> wPhase w = Listing gen cols out -> Forall (owedRow gen (wDB w)) out ->
  exists n out', let w' := Nat.iter n (calm nonce) w in
    wPhase w' = listed gen out' /\ wKeeper w' = wKeeper w /\ wDB w' = wDB w /\ Forall (owedRow gen (wDB w)) out'.
Proof.
  induction cols as [|c cols IH]; intros w out Hw Hph Hout.
  { exists 1%nat, out. cbn. unfold calm. rewrite Hph. done. }
  destruct (keyRotateBatch <=? length out)%nat eqn:Hl.
  { exists 1%nat, out. cbn. unfold calm. rewrite Hph. unfold turn. by rewrite Hl. }
  set (found := (fun d => let rows := staleRows c gen d in
    if (keyRotateBatch - length out =? 0)%nat then rows else take (keyRotateBatch - length out) rows) (wDB w)).
  assert (calm nonce w = mkWorld (wDB w) (wKeeper w) (Listing gen cols (out ++ found)) (wPending w) (wTruth w)) as Ecalm.
  { unfold calm. rewrite Hph. unfold turn. rewrite Hl. unfold staleIn, readq. by rewrite stmt_run. }
  destruct (IH (calm nonce w) (out ++ found)) as (n & out' & IHn).
  - by apply calm_intact.
  - by rewrite Ecalm.
  - rewrite Ecalm. cbn. apply Forall_app. split; [done|]. assert (Forall (owedRow gen (wDB w)) (staleRows c gen (wDB w))) as Hs.
    { apply Forall_forall. intros s (id & v & -> & Hv & Hne & Hlk)%elem_of_staleRows. exists c, id, v. done. }
    subst found. cbv beta zeta. destruct (_ =? 0)%nat; [done|by apply Forall_take].
  - exists (S n), out'. cbv zeta in *. rewrite Nat.iter_succ_r. destruct IHn as (H1 & H2 & H3 & H4).
    assert (wDB (calm nonce w) = wDB w) as Ed by (by rewrite Ecalm). assert (wKeeper (calm nonce w) = wKeeper w) as Ek by (by rewrite Ecalm).
    rewrite Ed in H3, H4. rewrite Ek in H2. done.
Qed.

(** From the head of the loop the job succeeds. *)
Lemma loop_calm gen : forall m w, (owed gen (wDB w) < m)%nat -> intact w -> wPhase w = Listing gen encryptedColumns [] ->
  counted (wKeeper w) -> gen = activeKeyID (wKeeper w) -> exists n, wPhase (Nat.iter n (calm nonce) w) = Done Succeeded.
Proof.
  induction m as [|m IH]; intros w Hm Hw Hph Hc Hg; [lia|].
  destruct (list_calm gen encryptedColumns w [] Hw Hph (Forall_nil_2 _)) as (n & out & H1 & H2 & H3 & H4). cbv zeta in *.
  set (w1 := Nat.iter n (calm nonce) w) in *. assert (intact w1) as Hw1 by (eapply intact_steps; [exact Hw|apply calm_steps]).
  destruct out as [|x out]; [by exists n|]. cbn [listed] in H1.
  destruct (sweep_calm gen (x :: out) w1 0 Hw1 H1) as (n2 & moved & S1 & S2 & S3 & S4 & S5); [by rewrite H2|by rewrite H2| |].
  { eapply Forall_impl; [exact H4|]. intros s (c & id & v & -> & Hv & Hne & _). rewrite <- H3 in Hv.
    destruct (intact_values _ Hw1 (c, id) v Hv Hne) as (pt & _ & Ho). by exists c, id, v, pt. }
  cbv zeta in *. set (w2 := Nat.iter n2 (calm nonce) w1) in *.
  assert (intact w2) as Hw2 by (eapply intact_steps; [exact Hw1|apply calm_steps]).
  assert (owedRow gen (wDB w1) x) as Hx by (rewrite H3; by apply Forall_cons in H4 as [? _]).
  destruct (S5 x eq_refl Hx) as [Hmoved Hless].
  assert (calm nonce w2 = mkWorld (wDB w2) (wKeeper w2) (Listing gen encryptedColumns []) (wPending w2) (wTruth w2)) as Ecalm.
  { unfold calm. rewrite S1. unfold turn. assert ((moved =? 0)%nat = false) as -> by (apply Nat.eqb_neq; lia). done. }
  destruct (IH (calm nonce w2)) as [n3 Hn3].
  - rewrite Ecalm. cbn. rewrite <- H3 in Hm. lia.
  - by apply calm_intact.
  - by rewrite Ecalm.
  - rewrite Ecalm. cbn. by rewrite S2, H2.
  - rewrite Ecalm. cbn. by rewrite S2, H2.
  - exists (n3 + (1 + (n2 + n)))%nat. rewrite !Nat.iter_add. exact Hn3.
Qed.

Lemma count_run cols gen : forall total d, exists n, countIn cols gen total (d, []) = (Ok n, (d, [])).
Proof.
  induction cols as [|c cols IH]; intros total d; [by eexists|]. cbn [countIn]. unfold tbind, staleIn, readq. rewrite stmt_run. apply IH.
Qed.

(** ** Properties *)

(** C12. The rotation loses no secret: whatever it, the failures it meets and the
    other writers do, in any order, every stored value opens, at any moment, to what
    its last writer sealed, under a keeper of the same root. *)
Theorem rotation_keeps_secrets w w' : intact w -> rtc wstep w w' ->
  sameRoot (wKeeper w) (wKeeper w') /\
  forall row v, values (wDB w') !! row = Some v -> v <> [] ->
    exists pt, wTruth w' !! row = Some pt /\ Decrypt (wKeeper w') (colPurpose row.1) (locOf row.1 row.2) v = Ok pt.
Proof.
  intros Hw Hs. split; [by apply root_steps|]. apply (intact_values _ (intact_steps _ _ Hw Hs)).
Qed.

(** C14. A rotation that reports success left every secret on its generation, and
    there it stays, whoever else wrote meanwhile: provided no writer held a sealed
    value it had not stored when the generation was published. *)
Theorem rotation_complete w fs fs' k db gen w' : intact w -> wPending w = [] -> wPhase w = Publishing ->
  turn false nonce (wKeeper w) Publishing (wDB w, fs) = (Ok (k, Counting gen), (db, fs')) ->
  rtc wstep (mkWorld db k (Counting gen) [] (wTruth w)) w' -> wPhase w' = Done Succeeded ->
  activeKeyID (wKeeper w') = gen /\ forall row v, values (wDB w') !! row = Some v -> v <> [] -> sealedUnder gen v.
Proof.
  intros Hw Hpend Hph E Hs Hdone. destruct (flip_swept w k _ db nonce fs fs' gen Hw Hpend Hph E eq_refl) as [Hsw Hg].
  assert (intact (mkWorld db k (Counting gen) [] (wTruth w))) as Hw1.
  { rewrite <- Hpend. eapply intact_step; [exact Hw|]. eapply WTurn; [done|]. by rewrite Hph. }
  assert (wPhase (mkWorld db k (Counting gen) [] (wTruth w)) <> Publishing) as Hne by done.
  pose proof (swept_steps _ _ Hw1 Hne Hsw Hs) as Hsw'. pose proof (keeper_steps _ _ Hne Hs) as Ek. cbn in Ek.
  unfold sweptSo in Hsw'. rewrite Hdone, Ek, Hg in Hsw'. rewrite Ek. split; [done|]. intros row v. apply (proj2 (proj2 Hsw') row v).
Qed.

(** C15. Left to itself the job ends, having moved every secret: whatever is stored,
    however many batches, with nothing lost on the way. *)
Theorem rotation_ends w n : intact w -> wPending w = [] -> wPhase w = Publishing -> ParseUint32 (activeKeyID (wKeeper w)) = Some n ->
  exists m, let w' := Nat.iter m (calm nonce) w in
    wPhase w' = Done Succeeded /\ activeKeyID (wKeeper w') = itoa (n + 1) /\
    forall row v, values (wDB w') !! row = Some v -> v <> [] ->
      sealedUnder (itoa (n + 1)) v /\ exists pt, wTruth w' !! row = Some pt /\ opensTo (wKeeper w') row v pt.
Proof.
  intros Hw Hpend Hph Hp. assert (nextKeyID (activeKeyID (wKeeper w)) = Ok (itoa (n + 1))) as Hnext by (unfold nextKeyID; by rewrite Hp).
  pose proof Hnext as Hn'. apply nextKeyID_Ok in Hn' as (n' & Hp' & Hn & _). assert (n' = n) as -> by congruence.
  set (k := activate (itoa (n + 1)) (wKeeper w)). set (db := setActive (itoa (n + 1)) (wDB w)).
  assert (turn false nonce (wKeeper w) Publishing (wDB w, []) = (Ok (k, Counting (itoa (n + 1))), (db, []))) as E.
  { unfold turn, Rotate, lift, tbind. rewrite Hnext. unfold tret, writeq. by rewrite stmt_run. }
  set (w1 := mkWorld db k (Counting (itoa (n + 1))) [] (wTruth w)).
  assert (calm nonce w = w1) as E1 by (unfold calm; rewrite Hph, E, Hpend; reflexivity).
  assert (intact w1) as Hw1 by (rewrite <- E1; by apply calm_intact).
  assert (calm nonce w1 = mkWorld db k (Listing (itoa (n + 1)) encryptedColumns []) [] (wTruth w)) as E2.
  { unfold calm, w1, turn. cbn [wPhase wKeeper wDB]. unfold CountStaleSecrets.
    destruct (count_run encryptedColumns (itoa (n + 1)) 0 db) as [x ->]. done. }
  destruct (loop_calm (itoa (n + 1)) (S (owed (itoa (n + 1)) db)) (calm nonce w1)) as [m Hm].
  { rewrite E2. cbn [wDB]. lia. }
  { by apply calm_intact. }
  { by rewrite E2. }
  { rewrite E2. exists (n + 1). split; [lia|done]. }
  { by rewrite E2. }
  exists (m + 2)%nat. cbv zeta. rewrite Nat.iter_add. change (Nat.iter 2 (calm nonce) w) with (calm nonce (calm nonce w)). rewrite E1.
  set (w' := Nat.iter m (calm nonce) (calm nonce w1)) in *.
  assert (rtc wstep w1 w') as Hs by (eapply rtc_l; [apply calm_step|apply calm_steps]).
  destruct (flip_swept w k _ db nonce [] [] (itoa (n + 1)) Hw Hpend Hph E eq_refl) as [Hsw Hg].
  assert (wPhase w1 <> Publishing) as Hne1 by done.
  pose proof (swept_steps _ _ Hw1 Hne1 Hsw Hs) as Hsw'. pose proof (keeper_steps _ _ Hne1 Hs) as Ek. change (wKeeper w1) with k in Ek.
  unfold sweptSo in Hsw'. rewrite Hm, Ek, Hg in Hsw'. split_and!; [done|by rewrite Ek|]. intros row v Hv Hne. split; [by apply (proj2 (proj2 Hsw') row v)|].
  apply (intact_values _ (intact_steps _ _ Hw1 Hs) row v Hv Hne).
Qed.
End Worlds.
