(* ===== verification/KeyLoss.v ===== *)
(** cmd/valmind/keyloss.go: adopting a new master key after the old one is lost.

    No panel runs beside it.  The password drawn for a server is the first the
    launch check takes; [None] is a loop still drawing. *)
From S2P Require Import Prelude GoBytes Lifecycle Sql UserStore Argon Keeper KeeperSafe Rotation RotationSafe.

Open Scope Z_scope.

Definition ErrInstance : TxErr := EHook "read instance: not found".
Definition ErrWebhookGone : TxErr := EHook "webhook disappeared during recovery".
Definition ErrNoRule : TxErr := EHook "no recovery rule".

Section KeyLoss.
Context `{Cipher}.
Context (newPassword : string -> option bytes) (nonceFor : string -> bytes) (checkNonce : bytes).

Definition rowThere (c : Col) (id : string) : KTx bool := readq (fun d => bool_decide (is_Some (values d !! (c, id)))).
Definition setFlag (c : Col) (id : string) (b : bool) : KTx unit := writeq (fun d => setFlags (<[(c, id) := b]> (flags d)) d).

Definition clearSecret (s : StaleSecret) : KTx unit := let! _ := ReplaceSecret s [] in tret tt.

Definition ResetInstancePassword (id : string) (sealed : bytes) : KTx unit :=
  stmt (fun d => if bool_decide (is_Some (values d !! (InstancePassword, id)))
                 then Ok (tt, setFlags (<[(InstancePassword, id) := true]> (flags d))
                                (setValues (<[(InstancePassword, id) := sealed]> (values d)) d))
                 else Err ErrInstance).

Definition resetServerPassword (k : Keeper) (id : string) : KTx unit :=
  let! inst := rowThere InstancePassword id in
  if negb inst then tfail ErrInstance
  else match newPassword id with
       | None => tfail (EHook "still drawing")
       | Some password =>
           let! sealed := lift (Encrypt k PurposeInstancePassword (InstancePasswordLocation id) password (nonceFor id)) in
           ResetInstancePassword id sealed
       end.

Definition disableWebhook (s : StaleSecret) : KTx unit :=
  let! w := rowThere WebhookURL (sRowID s) in
  if negb w then tfail ErrWebhookGone
  else
    let! _ := setFlag WebhookURL (sRowID s) false in
    let! _ := ReplaceSecret s [] in tret tt.

(** Every bot of the table. *)
Definition disableDiscordBot (s : StaleSecret) : KTx unit :=
  let! _ := writeq (fun d => setFlags (map_imap (fun row b => Some (if decide (row.1 = DiscordToken) then false else b)) (flags d)) d) in
  let! _ := ReplaceSecret s [] in tret tt.

(** [recoveries]. *)
Definition recovery (k : Keeper) (c : Col) (s : StaleSecret) : KTx unit :=
  match c with
  | InstancePassword => resetServerPassword k (sRowID s)
  | BranchPassword => let! _ := rowThere InstancePassword (sRowID s) in clearSecret s
  | RemoteCredentials => let! _ := setFlag RemoteCredentials (sRowID s) false in clearSecret s
  | TotpSecret => clearSecret s
  | WebhookURL => disableWebhook s
  | DiscordToken => disableDiscordBot s
  end.
Definition reset (k : Keeper) (s : StaleSecret) : KTx unit :=
  match list_find (fun c => colTable c = sTable s /\ colColumn c = sColumn s) encryptedColumns with
  | Some (_, c) => recovery k c s
  | None => tfail ErrNoRule
  end.

Definition opensUnder (k : Keeper) (s : StaleSecret) : bool := is_ok (Decrypt k (sPurpose s) (staleLoc s) (sEnvelope s)).

Fixpoint resetEach (k : Keeper) (secrets : list StaleSecret) : KTx unit :=
  match secrets with
  | [] => tret tt
  | s :: secrets =>
      if opensUnder k s then resetEach k secrets
      else let! _ := reset k s in resetEach k secrets
  end.

(** [acceptNewKey]; the answer is whether anything was to be done. *)
Definition acceptNewKey (k : Keeper) : KTx bool := fun s =>
  let go s := (let! secrets := ListSecrets in
               let! _ := resetEach k secrets in
               let! _ := WriteKeyCheck k checkNonce in tret true) s in
  match CheckKey k s with
  | (Ok true, s') => (Ok false, s')
  | (Ok false, s') => go s'
  | (Err e, s') => if decide (e = ErrKeyMismatch) then go s' else (Err e, s')
  end.

End KeyLoss.
