(* ===== verification/KeyLossSafe.v ===== *)
(** What adopting a new key promises: what still opens is left alone wherever it
    stops, nothing is left on without its secret, and a run that is not
    interrupted leaves every secret readable. *)
From S2P Require Import Prelude GoBytes Lifecycle Sql UserStore Argon Keeper KeeperSafe Rotation RotationSafe KeyLoss.

Open Scope Z_scope.

Section Accept.
Context `{CipherLaws}.
Context (newPassword : string -> option bytes) (nonceFor : string -> bytes) (checkNonce : bytes).
Context (k : Keeper) (db0 : SecretDB).

Abbreviation reset := (reset newPassword nonceFor).
Abbreviation resetEach := (resetEach newPassword nonceFor).
Abbreviation acceptNewKey := (acceptNewKey newPassword nonceFor checkNonce).

(** A listed secret that the new key does not open. *)
Definition listedIn (d : SecretDB) (s : StaleSecret) : Prop :=
  exists c id v, s = staleOf c (id, v) /\ values d !! (c, id) = Some v /\ v <> [].

Lemma reset_recovery c row : reset k (staleOf c row) = recovery newPassword nonceFor k c (staleOf c row).
Proof. by destruct c. Qed.

Lemma opensUnder_spec c id v : opensUnder k (staleOf c (id, v)) = true <-> exists pt, opensTo k (c, id) v pt.
Proof.
  unfold opensUnder, opensTo. change (staleLoc (staleOf c (id, v))) with (locOf c id). cbn [sPurpose sEnvelope staleOf fst snd].
  destruct (Decrypt _ _ _ _); naive_solver.
Qed.

Lemma ListSecrets_triple d0 : triple (fun d => d = d0) ListSecrets
  (fun out d => d = d0 /\ (forall s, s ∈ out -> listedIn d0 s) /\
     forall c id v, values d0 !! (c, id) = Some v -> v <> [] -> like (onGeneration []) v = false -> staleOf c (id, v) ∈ out) (fun d => d = d0).
Proof.
  assert (forall cols out, triple (fun d => d = d0) (everyIn cols out) (fun r d => d = d0 /\
    (forall s, s ∈ r <-> s ∈ out \/ exists c, c ∈ cols /\ s ∈ staleRows c [] d0)) (fun d => d = d0)) as Hgen.
  { induction cols as [|c cols IH]; intros out; cbn [everyIn].
    - apply t_ret. intros d ->. split; [done|]. intros s. split; [by left|]. intros [?|(c & Hc & _)]; [done|by apply elem_of_nil in Hc].
    - eapply t_bind; [apply (t_readq _ _ (fun found d => d = d0 /\ found = staleRows c [] d0)); intros d ->; done|].
      intros found. intros s r s' [Hd ->] E. specialize (IH (out ++ staleRows c [] d0) s r s' Hd E). destruct r; [|done].
      destruct IH as [Hd' IH]. split; [done|]. intros x. rewrite IH. setoid_rewrite elem_of_cons. setoid_rewrite elem_of_app. naive_solver. }
  eapply t_weaken; [apply (Hgen encryptedColumns [])|done| |done]. intros out d [-> Hout]. split; [done|]. split.
  - intros s [Hs|(c & _ & (id & v & -> & Hv & Hne & _)%elem_of_staleRows)]%Hout; [by apply elem_of_nil in Hs|by exists c, id, v].
  - intros c id v Hv Hne Hl. apply Hout. right. exists c. split; [destruct c; apply (bool_decide_unpack _); vm_compute; exact I|].
    apply elem_of_staleRows. by exists id, v.
Qed.

(** ** Wherever it stops *)

Definition switched (c : Col) : Prop := c = RemoteCredentials \/ c = WebhookURL \/ c = DiscordToken.
Definition spared (d : SecretDB) : Prop :=
  (forall row v pt, values db0 !! row = Some v -> opensTo k row v pt -> values d !! row = Some v) /\
  (forall c id, switched c -> values d !! (c, id) = Some [] -> values db0 !! (c, id) = Some [] \/ flags d !! (c, id) <> Some true).

Lemma spared_value d c id e : spared d -> (forall v pt, values db0 !! (c, id) = Some v -> ~ opensTo k (c, id) v pt) ->
  (switched c -> e <> [] \/ flags d !! (c, id) <> Some true) -> spared (setValues (<[(c, id) := e]> (values d)) d).
Proof.
  intros [S1 S2] Hno He. split; cbn.
  - intros row v pt Hv Ho. rewrite lookup_insert_ne; [by eapply S1|]. intros <-. by eapply Hno.
  - intros c' id' Hs' [[[= <- <-] ->]|[_ Hl]]%lookup_insert_cases; [right; by destruct (He Hs')|by apply S2].
Qed.

Lemma spared_flag d c id b : spared d -> (c = InstancePassword \/ b = false) -> spared (setFlags (<[(c, id) := b]> (flags d)) d).
Proof.
  intros [S1 S2] Hb. split; cbn; [done|]. intros c' id' Hs' Hl. destruct (S2 c' id' Hs' Hl) as [|Hf]; [by left|]. right.
  intros [[[= <- <-] ->]|[_ Hx]]%lookup_insert_cases; [|done]. destruct Hb as [->|]; [|done]. by destruct Hs' as [?|[?|?]].
Qed.

Definition deadRow (c : Col) (id : string) : Prop := forall v pt, values db0 !! (c, id) = Some v -> ~ opensTo k (c, id) v pt.

Lemma Replace_triple c id v : deadRow c id ->
  triple (fun d => spared d /\ (switched c -> flags d !! (c, id) <> Some true)) (ReplaceSecret (staleOf c (id, v)) []) (fun _ => spared) spared.
Proof.
  intros Hd. rewrite ReplaceSecret_run. apply t_stmt. intros d [Hs Hf]. split; [done|]. destruct (decide _); [|done].
  apply spared_value; [done..|]. intros Hw. right. by apply Hf.
Qed.

Lemma clear_triple c id v : deadRow c id ->
  triple (fun d => spared d /\ (switched c -> flags d !! (c, id) <> Some true)) (clearSecret (staleOf c (id, v))) (fun _ => spared) spared.
Proof. intros Hd. unfold clearSecret. eapply t_bind; [by apply Replace_triple|]. intros b. by apply t_ret. Qed.

Lemma t_same {A} (m : KTx A) P : (forall s r s', m s = (r, s') -> s'.1 = s.1) -> triple P m (fun _ => P) P.
Proof. intros Hm s r s' HP E. rewrite (Hm _ _ _ E). by destruct r. Qed.

Lemma setFlag_triple c id : switched c ->
  triple spared (setFlag c id false) (fun _ d => spared d /\ (switched c -> flags d !! (c, id) <> Some true)) spared.
Proof.
  intros Hc. apply t_writeq. intros d Hs. split; [done|]. split; [apply spared_flag; auto|]. intros _. cbn. by rewrite lookup_insert_eq.
Qed.

Lemma reset_triple c id v : deadRow c id -> triple spared (reset k (staleOf c (id, v))) (fun _ => spared) spared.
Proof.
  intros Hd. rewrite reset_recovery. assert (forall P c' id', triple P (rowThere c' id') (fun _ => P) P) as Hrow by (intros; apply t_same, readq_state).
  assert (~ switched c -> triple spared (clearSecret (staleOf c (id, v))) (fun _ => spared) spared) as Hplain.
  { intros Hc. eapply t_weaken; [by apply clear_triple|by split|done..]. }
  destruct c; cbn [recovery sRowID staleOf fst].
  - eapply t_seq; [apply setFlag_triple; by left|]. by apply clear_triple.
  - unfold resetServerPassword. eapply t_bind; [apply Hrow|]. intros b. destruct (negb b); [by apply t_fail|].
    destruct (newPassword id) as [pw|]; [|by apply t_fail]. unfold lift. destruct (Encrypt _ _ _ _ _) as [sealed|e]; cbn; [|by apply t_fail].
    apply t_stmt. intros d Hs. split; [done|]. destruct (bool_decide _); [|done].
    apply (spared_flag (setValues (<[(InstancePassword, id) := sealed]> (values d)) d) InstancePassword id true); [|by left].
    apply spared_value; [done..|]. by intros [?|[?|?]].
  - eapply t_bind; [apply Hrow|]. intros b. apply Hplain. by intros [?|[?|?]].
  - apply Hplain. by intros [?|[?|?]].
  - unfold disableWebhook. cbn [sRowID staleOf fst]. eapply t_bind; [apply Hrow|]. intros b. destruct (negb b); [by apply t_fail|].
    eapply t_seq; [apply setFlag_triple; right; by left|]. eapply t_bind; [by apply Replace_triple|]. intros b'. by apply t_ret.
  - unfold disableDiscordBot. eapply (t_seq _ _ _ (fun d => spared d /\ (switched DiscordToken -> flags d !! (DiscordToken, id) <> Some true))).
    + apply t_writeq. intros d [S1 S2]. split; [by split|]. cbn. split; [split; cbn; [done|]|].
      * intros c' id' Hs' Hl. destruct (S2 c' id' Hs' Hl) as [|Hf]; [by left|]. right. rewrite map_lookup_imap.
        destruct (flags d !! (c', id')) as [b|]; [|done]. cbn. by destruct (decide _), b.
      * intros _. rewrite map_lookup_imap. destruct (flags d !! (DiscordToken, id)) as [b|]; [|done]. cbn. done.
    + eapply t_bind; [by apply Replace_triple|]. intros b'. by apply t_ret.
Qed.

Lemma resetEach_triple secrets : (forall s, s ∈ secrets -> listedIn db0 s) -> triple spared (resetEach k secrets) (fun _ => spared) spared.
Proof.
  induction secrets as [|s secrets IH]; intros Hl; [by apply t_ret|]. cbn [KeyLoss.resetEach].
  assert (triple spared (resetEach k secrets) (fun _ => spared) spared) as Hrest by (apply IH; intros; apply Hl; by right).
  destruct (opensUnder k s) eqn:E; [done|]. eapply t_seq; [|exact Hrest].
  destruct (Hl s) as (c & id & v & -> & Hv & _); [by left|]. apply reset_triple. intros v' pt Hv' Ho.
  assert (opensUnder k (staleOf c (id, v)) = true); [|congruence]. apply opensUnder_spec. exists pt. congruence.
Qed.

Lemma spared_start : spared db0.
Proof. split; [done|]. by left. Qed.

Lemma spared_check d e : spared d -> spared (setCheck e d).
Proof. by intros [S1 S2]. Qed.

Lemma WriteKeyCheck_spared nonce : triple spared (WriteKeyCheck k nonce) (fun _ => spared) spared.
Proof.
  intros s r s' Hs. unfold WriteKeyCheck, lift, tbind. destruct (Encrypt _ _ _ _ _) as [e|x]; [|by intros [= <- <-]].
  intros [[-> E]|[[x ->] E]]%writeq_cases; rewrite E; [by apply spared_check|done].
Qed.

Lemma accept_body : triple (fun d => d = db0)
  (let! secrets := ListSecrets in let! _ := resetEach k secrets in let! _ := WriteKeyCheck k checkNonce in tret true) (fun _ => spared) spared.
Proof.
  eapply t_bind.
  { eapply t_weaken; [apply (ListSecrets_triple db0)| |intros out d Hd; exact Hd|].
    - intros d Hd. exact Hd.
    - intros d ->. apply spared_start. }
  intros out s r s' (Hs & Hin & _) E.
  refine (t_seq _ _ spared spared (fun _ => spared) spared (resetEach_triple out Hin) _ s r s' _ E); [|rewrite Hs; apply spared_start].
  eapply t_seq; [apply WriteKeyCheck_spared|]. by apply t_ret.
Qed.

Lemma CheckKey_same s r s' : CheckKey k s = (r, s') -> s'.1 = s.1.
Proof.
  unfold CheckKey, tbind. destruct (readq kvCheck s) as [[[e|]|e] s1] eqn:E; apply readq_state in E; [|by intros [= _ <-]..].
  destruct (bool_decide _); by intros [= _ <-].
Qed.

(** Adopting a new key spares what it opens: wherever the command stops,
    every secret the new key opens is still stored as it was, and no remote
    destination, webhook or bot is left on with its secret emptied. *)
Theorem accept_spares fs r d fs' : acceptNewKey k (db0, fs) = (r, (d, fs')) ->
  (forall row v pt, values db0 !! row = Some v -> Decrypt k (colPurpose row.1) (locOf row.1 row.2) v = Ok pt -> values d !! row = Some v) /\
  (forall c id, switched c -> values d !! (c, id) = Some [] -> values db0 !! (c, id) = Some [] \/ flags d !! (c, id) <> Some true).
Proof.
  unfold KeyLoss.acceptNewKey. destruct (CheckKey k (db0, fs)) as [c s1] eqn:Ec. apply CheckKey_same in Ec. cbn in Ec.
  assert (forall r s', (let! secrets := ListSecrets in let! _ := resetEach k secrets in let! _ := WriteKeyCheck k checkNonce in tret true) s1 = (r, s') ->
    spared s'.1) as Hgo.
  { intros r1 s' E. pose proof (accept_body s1 r1 s' Ec E) as Hp. by destruct r1. }
  intros E. assert (spared d) as Hs; [|exact Hs]. destruct c as [[]|e]; [| |destruct (decide (e = ErrKeyMismatch))].
  - injection E as _ Es. rewrite Es in Ec. cbn in Ec. rewrite Ec. apply spared_start.
  - apply (Hgo _ _ E).
  - apply (Hgo _ _ E).
  - injection E as _ Es. rewrite Es in Ec. cbn in Ec. rewrite Ec. apply spared_start.
Qed.

(** ** Left to itself *)

Context (Hk : wellFormed k) (Hnonces : forall id, length (nonceFor id) = NonceSizeX) (Hcheck : length checkNonce = NonceSizeX).

Definition readable (d : SecretDB) (row : Col * string) : Prop :=
  forall v, values d !! row = Some v -> v <> [] -> exists pt, opensTo k row v pt.
Definition sameRows (d d' : SecretDB) : Prop := forall row, is_Some (values d' !! row) <-> is_Some (values d !! row).

(** One reset: its row becomes readable, the others stay. *)
Definition resets (c : Col) (id : string) (v : bytes) (d d' : SecretDB) : Prop :=
  sameRows d d' /\ (forall row, row <> (c, id) -> values d' !! row = values d !! row) /\
  ((values d !! (c, id) = Some v \/ readable d (c, id)) -> readable d' (c, id)).

Lemma resets_clear c id v d fl : is_Some (values d !! (c, id)) ->
  exists b, ReplaceSecret (staleOf c (id, v)) [] (setFlags fl d, []) = (Ok b, (if decide (values d !! (c, id) = Some v)
      then setValues (<[(c, id) := []]> (values d)) (setFlags fl d) else setFlags fl d, [])) /\
  resets c id v d (if decide (values d !! (c, id) = Some v) then setValues (<[(c, id) := []]> (values d)) (setFlags fl d) else setFlags fl d).
Proof.
  intros Hrow. rewrite ReplaceSecret_run, stmt_run. cbn [values setFlags]. destruct (decide (values d !! (c, id) = Some v)) as [Hv|Hv].
  - exists true. split; [done|]. split_and!; cbn.
    + intros row. cbn. rewrite lookup_insert_is_Some_cases. naive_solver.
    + intros row Hne. cbn. by rewrite lookup_insert_ne.
    + intros _ v' Hv' Hne. cbn in Hv'. rewrite lookup_insert_eq in Hv'. congruence.
  - exists false. split; [done|]. split_and!; [done..|]. by intros [|Hr].
Qed.

Lemma reset_runs c id v d : is_Some (values d !! (c, id)) ->
  (forall i, is_Some (values d !! (InstancePassword, i)) -> is_Some (newPassword i)) ->
  exists d', reset k (staleOf c (id, v)) (d, []) = (Ok tt, (d', [])) /\ resets c id v d d'.
Proof.
  intros Hrow Hpw. rewrite reset_recovery.
  assert (forall fl, exists d', clearSecret (staleOf c (id, v)) (setFlags fl d, []) = (Ok tt, (d', [])) /\ resets c id v d d') as Hclear.
  { intros fl. destruct (resets_clear c id v d fl Hrow) as (b & E & Hr). unfold clearSecret, tbind. rewrite E. eauto. }
  assert (setFlags (flags d) d = d) as Hid by (by destruct d).
  destruct c; cbn [recovery sRowID staleOf fst]; unfold tbind, setFlag, rowThere, readq, writeq.
  - rewrite stmt_run. cbv iota beta. apply Hclear.
  - unfold resetServerPassword, rowThere, readq, tbind, lift. rewrite stmt_run. cbv iota beta. rewrite bool_decide_eq_true_2 by done. cbn [negb].
    destruct (Hpw id Hrow) as [pw ->].
    destruct (Encrypt_opens k k PurposeInstancePassword (InstancePasswordLocation id) pw (nonceFor id) Hk (conj eq_refl eq_refl)
      (colPurpose_known InstancePassword) (Hnonces id)) as (e & -> & _ & Hd).
    unfold tret, ResetInstancePassword. rewrite stmt_run, bool_decide_eq_true_2 by done. eexists. split; [reflexivity|]. split_and!; cbn.
    + intros row. cbn. rewrite lookup_insert_is_Some_cases. naive_solver.
    + intros row Hne. cbn. by rewrite lookup_insert_ne.
    + intros _ v' Hv' _. cbn in Hv'. rewrite lookup_insert_eq in Hv'. injection Hv' as <-. by exists pw.
  - rewrite stmt_run. cbv iota beta. pose proof (Hclear (flags d)) as Hc; rewrite Hid in Hc; exact Hc.
  - pose proof (Hclear (flags d)) as Hc; rewrite Hid in Hc; exact Hc.
  - unfold disableWebhook, rowThere, setFlag, readq, writeq, tbind. cbn [sRowID staleOf fst]. rewrite stmt_run. cbv iota beta.
    rewrite bool_decide_eq_true_2 by done. cbn [negb]. rewrite stmt_run. cbv iota beta.
    destruct (resets_clear WebhookURL id v d (<[(WebhookURL, id) := false]> (flags d)) Hrow) as (b & -> & Hr). eauto.
  - unfold disableDiscordBot, writeq, tbind. rewrite stmt_run. cbv iota beta.
    destruct (resets_clear DiscordToken id v d (map_imap (fun row b => Some (if decide (row.1 = DiscordToken) then false else b)) (flags d)) Hrow)
      as (b & -> & Hr). eauto.
Qed.

Lemma resets_readable c id v d d' row : resets c id v d d' -> readable d row -> readable d' row.
Proof.
  intros (_ & Hoth & Hown) Hr. destruct (decide (row = (c, id))) as [->|Hne]; [by apply Hown; right|].
  intros v' Hv'. rewrite Hoth in Hv' by done. by apply Hr.
Qed.

Lemma resetEach_runs secrets : forall d, (forall s, s ∈ secrets -> listedIn db0 s) -> sameRows db0 d ->
  (forall row, values d !! row = values db0 !! row \/ readable d row) ->
  (forall i, is_Some (values db0 !! (InstancePassword, i)) -> is_Some (newPassword i)) ->
  exists d', resetEach k secrets (d, []) = (Ok tt, (d', [])) /\ (forall row, readable d row -> readable d' row) /\
    (forall c row, staleOf c row ∈ secrets -> readable d' (c, row.1)) /\
    (forall row, values d' !! row = values d !! row \/ readable d' row).
Proof.
  induction secrets as [|s secrets IH]; intros d Hl Hrows Hd Hpw.
  { exists d. split_and!; [done|done| |by left]. intros c row Hin. by apply elem_of_nil in Hin. }
  destruct (Hl s) as (c & id & v & -> & Hv & Hne); [by left|]. cbn [KeyLoss.resetEach].
  assert (forall c' row, staleOf c' row = staleOf c (id, v) -> c' = c /\ row = (id, v)) as Hinj.
  { intros c' [i' v'] Es. unfold staleOf in Es. destruct c, c'; cbn in Es; try discriminate Es; by injection Es as -> ->. }
  destruct (opensUnder k (staleOf c (id, v))) eqn:Eo.
  - destruct (IH d) as (d' & E & Hm & Hs & Hr); [intros; apply Hl; by right|done..|]. exists d'. split_and!; [done..| |done].
    intros c' row [Es|Hin]%elem_of_cons; [|by apply Hs]. apply Hinj in Es as [-> ->]. apply Hm. cbn.
    destruct (Hd (c, id)) as [E'|]; [|done]. apply opensUnder_spec in Eo. intros v' Hv' _. rewrite E' in Hv'. assert (v' = v) as -> by congruence. exact Eo.
  - destruct (reset_runs c id v d) as (d1 & E1 & Hr1); [by apply Hrows|intros i Hi; apply Hpw; by apply Hrows|].
    pose proof Hr1 as (Hrows1 & Hoth & Hown).
    assert (readable d1 (c, id)) as Hc1 by (apply Hown; destruct (Hd (c, id)) as [E'|]; [left; congruence|by right]).
    destruct (IH d1) as (d' & E & Hm & Hs & Hr).
    + intros; apply Hl; by right.
    + intros row. by rewrite (Hrows1 row).
    + intros row. destruct (decide (row = (c, id))) as [->|Hnr]; [by right|]. rewrite Hoth by done.
      destruct (Hd row) as [|Hrow]; [by left|right; by eapply resets_readable].
    + done.
    + exists d'. split_and!.
      * unfold tbind. by rewrite E1.
      * intros row Hrow. by eapply Hm, resets_readable.
      * intros c' row [Es|Hin]%elem_of_cons; [|by apply Hs]. apply Hinj in Es as [-> ->]. by apply Hm.
      * intros row. destruct (decide (row = (c, id))) as [->|Hnr]; [right; by apply Hm|]. rewrite <- (Hoth row Hnr). apply Hr.
Qed.

Lemma everyIn_run cols : forall out d, exists r, everyIn cols out (d, []) = (Ok r, (d, [])).
Proof.
  induction cols as [|c cols IH]; intros out d; [by eexists|]. cbn [everyIn]. unfold tbind, staleIn, readq. rewrite stmt_run. apply IH.
Qed.

(** Adopting a new key, left to itself, succeeds from any state, one an earlier
    run left half done included: the key check then opens, every stored secret is
    readable with the new key or emptied, and nothing is touched when the key
    already matched. *)
Theorem accept_recovers :
  (forall i, is_Some (values db0 !! (InstancePassword, i)) -> is_Some (newPassword i)) ->
  exists b d, acceptNewKey k (db0, []) = (Ok b, (d, [])) /\
    (exists e, kvCheck d = Some e /\ Decrypt k PurposeKeyCheck keyCheckLocation e = Ok keyCheckPlaintext) /\
    (if b then forall row v, values d !! row = Some v -> v <> [] -> like (L "v1..%") v = false ->
                exists pt, Decrypt k (colPurpose row.1) (locOf row.1 row.2) v = Ok pt
     else d = db0).
Proof.
  intros Hpw. unfold KeyLoss.acceptNewKey, CheckKey, tbind at 1, readq at 1. rewrite stmt_run. cbv iota beta.
  assert (exists d, (let! secrets := ListSecrets in let! _ := resetEach k secrets in let! _ := WriteKeyCheck k checkNonce in tret true) (db0, [])
      = (Ok true, (d, [])) /\
    (exists e, kvCheck d = Some e /\ Decrypt k PurposeKeyCheck keyCheckLocation e = Ok keyCheckPlaintext) /\
    (forall row v, values d !! row = Some v -> v <> [] -> like (L "v1..%") v = false ->
                exists pt, Decrypt k (colPurpose row.1) (locOf row.1 row.2) v = Ok pt)) as (d & Ego & Hd).
  { destruct (everyIn_run encryptedColumns [] db0) as [secrets Es].
    destruct (ListSecrets_triple db0 (db0, []) _ _ eq_refl Es) as (_ & Hin & Hall).
    destruct (resetEach_runs secrets db0 Hin) as (d1 & E1 & _ & Hs & Hr); [done|by left|done|].
    assert (PurposeKeyCheck ∈ purposes) as Hp by (apply (bool_decide_unpack _); vm_compute; exact I).
    destruct (Encrypt_opens k k PurposeKeyCheck keyCheckLocation keyCheckPlaintext checkNonce Hk (conj eq_refl eq_refl) Hp Hcheck) as (e & Ee & _ & Hd).
    exists (setCheck e d1). split; [|split; [by exists e|]].
    - unfold tbind at 1. unfold ListSecrets. rewrite Es. unfold tbind at 1. rewrite E1. unfold WriteKeyCheck, lift, tbind. rewrite Ee.
      unfold tret, writeq. by rewrite stmt_run.
    - cbn. intros [c id] v Hv Hne Hl. destruct (Hr (c, id)) as [E|Hrd]; [|by apply Hrd].
      rewrite E in Hv. apply (Hs c (id, v)); [by apply Hall| |done]. cbn. congruence. }
  destruct (kvCheck db0) as [e|] eqn:Ec.
  - destruct (bool_decide_reflect (Decrypt k PurposeKeyCheck keyCheckLocation e = Ok keyCheckPlaintext)) as [Hdec|Hdec].
    + exists false, db0. split; [done|]. split; [by exists e|done].
    + exists true, d. cbn. split; [|done]. exact Ego.
  - exists true, d. cbn. split; [|done]. exact Ego.
Qed.
End Accept.
