(* ===== verification/SecretWitness.v ===== *)
(** Concrete panels for the properties of the secrets, over a cipher that writes its
    key and associated data before the text; and two readings of the rotation that
    do not hold. *)
From S2P Require Import Prelude GoBytes Lifecycle Sql UserStore Argon Keeper KeeperSafe Rotation RotationSafe KeyLoss KeyLossSafe.

Open Scope Z_scope.

(** ** A cipher *)

Definition padKey (b : bytes) : bytes := take 32 (b ++ replicate 32 "000"%char).
#[local] Instance plainCipher : Cipher := {
  hkdfKey secret salt info n := Some (padKey (take 8 info ++ secret));
  hmac key msg := key ++ msg;
  seal k n p ad := k ++ ad ++ p;
  unseal k n c ad := cutPrefix (k ++ ad) c
}.
#[local] Instance plainCipher_laws : CipherLaws.
Proof.
  split.
  - intros secret salt info. eexists. split; [reflexivity|]. unfold padKey. rewrite length_take, !length_app, length_replicate. lia.
  - intros k n p ad. unfold unseal, seal, plainCipher. rewrite app_assoc. apply cutPrefix_app.
Qed.

Definition key0 : bytes := L "0123456789abcdef0123456789abcdef".
Definition key1 : bytes := L "fedcba9876543210fedcba9876543210".
Definition salt0 : bytes := L "salt-salt-salt-salt-salt-salt-32".
Definition nonce0 : bytes := L "twenty-four nonce bytes.".
Definition keeper0 : Keeper := mkKeeper key0 salt0 firstKeyID.
Definition keeper1 : Keeper := mkKeeper key1 salt0 firstKeyID.
Definition keeper2 : Keeper := activate (L "2") keeper0.

Lemma keeper0_wf : wellFormed keeper0.
Proof. split_and!; [reflexivity|discriminate|vm_compute; reflexivity]. Qed.
Lemma keeper1_wf : wellFormed keeper1.
Proof. split_and!; [reflexivity|discriminate|vm_compute; reflexivity]. Qed.

Lemma keeper2_later : later keeper0 keeper2.
Proof. apply rtc_once. exists (emptyDB, []), (setActive (L "2") emptyDB, []), (L "2"). vm_compute. reflexivity. Qed.

Definition place : Location := InstancePasswordLocation "i1".
Definition sealed0 : bytes :=
  match Encrypt keeper0 PurposeInstancePassword place (L "secret") nonce0 with Ok e => e | Err _ => [] end.

Lemma known : PurposeInstancePassword ∈ purposes.
Proof. apply (bool_decide_unpack _). vm_compute. exact I. Qed.

Example sealed_opens_witness :
  exists e, Encrypt keeper0 PurposeInstancePassword place (L "secret") nonce0 = Ok e /\
    Decrypt keeper2 PurposeInstancePassword place e = Ok (L "secret").
Proof.
  destruct (sealed_opens keeper0 keeper2 PurposeInstancePassword place (L "secret") nonce0 keeper0_wf keeper2_later known eq_refl)
    as (_ & (e & He & _ & _ & Hd) & _).
  exists e. split; [exact He|exact Hd].
Defined.

Lemma sealed0_opens : Decrypt keeper0 PurposeInstancePassword place sealed0 = Ok (L "secret").
Proof. vm_compute. reflexivity. Qed.

Example bound_in_place_witness :
  aad PurposeInstancePassword (mkLocation "instance" "spassword" "i1") <> aad PurposeInstancePassword place.
Proof.
  refine (proj2 (bound_in_place keeper0 PurposeInstancePassword place sealed0 (L "secret") sealed0_opens)
    PurposeInstancePassword (mkLocation "instance" "spassword" "i1") _ _ _ _ _ _ _ _ _); [vm_compute; reflexivity..|discriminate].
Defined.

(** ** Starts *)

Definition env0 : KeyEnv := mkKeyEnv [] [] None (L "/data/secret.key").
Definition draws0 : KeyDraws := mkKeyDraws key0 salt0 nonce0.
Definition draws1 : KeyDraws := mkKeyDraws key1 (rev salt0) nonce0.

(** A first start that dies once the key file is linked. *)
Definition died : SecretDB := (Open_ env0 draws0 (emptyDB, replicate 8 false ++ replicate 40 true)).2.1.
Example died_half_way : kvSalt died = None /\ fBytes <$> keyFile died = Some key0.
Proof. split; vm_compute; reflexivity. Qed.
Definition opened : SecretDB := (Open_ env0 draws1 (died, [])).2.1.

Lemma draws_ok : drawn draws0 /\ drawn draws1.
Proof. repeat split; reflexivity. Qed.
Lemma env0_panel : panelKey env0.
Proof. by split_and!. Qed.

Lemma opensAStoredSecret_reads : readOnly opensAStoredSecret.
Proof.
  intros k s. unfold opensAStoredSecret, tbind. assert (forall cols out s r s', everyIn cols out s = (r, s') -> s'.1 = s.1) as Hev.
  { induction cols as [|c cols IH]; intros out s0 r s'; [by intros [= _ <-]|]. cbn [everyIn]. unfold tbind.
    destruct (staleIn c [] 0 s0) as [[x|e] s1] eqn:E; unfold staleIn in E; apply readq_state in E; [|by intros [= _ <-]].
    intros Hr%IH. congruence. }
  destruct (ListSecrets s) as [[secrets|e] s1] eqn:E; apply Hev in E; [|done]. destruct secrets as [|x secrets]; [done|].
  by destruct (Decrypt _ _ _ _).
Qed.

Example start_recovers_witness :
  exists k db', Open_ env0 draws0 (opened, []) = (Ok k, (db', [])) /\ sameRoot (mkKeeper key0 (rev salt0) firstKeyID) k.
Proof.
  assert (OpenVerified env0 draws1 opensAStoredSecret (died, []) = (Ok (mkKeeper key0 (rev salt0) firstKeyID), (opened, []))) as E
    by (vm_compute; reflexivity).
  destruct draws_ok as [H0 H1].
  destruct (start_recovers env0 died opened opened draws0 draws1 opensAStoredSecret [] [] (mkKeeper key0 (rev salt0) firstKeyID) env0_panel H0 H1
    opensAStoredSecret_reads) as [_ (k & db' & Ek & Hr & _)].
  - apply rtc_once. exists draws0, (fun _ => tret tt), (replicate 8 false ++ replicate 40 true). eexists _, _.
    split; [exact H0|]. split; [done|]. vm_compute. reflexivity.
  - exact E.
  - apply rtc_refl.
  - exists k, db'. split; [exact Ek|exact Hr].
Defined.

(** ** A rotation *)

Definition sealAt (k : Keeper) (c : Col) (id : string) (text : string) : bytes :=
  match Encrypt k (colPurpose c) (locOf c id) (L text) nonce0 with Ok e => e | Err _ => [] end.
Definition hook0 : bytes := sealAt keeper0 WebhookURL "w1" "https://a".
Definition pass0 : bytes := sealAt keeper0 InstancePassword "i1" "secret".
Definition secretDB : SecretDB :=
  mkSecretDB (Some (EncodePadded salt0)) (Some firstKeyID) None (Some (mkKeyFile key0 true keyFileMode)) None
    (<[(WebhookURL, "w1") := hook0]> {[ (InstancePassword, "i1") := pass0 ]}) {[ (WebhookURL, "w1") := true ]}.
Definition truth0 : gmap (Col * string) bytes :=
  <[(WebhookURL, "w1") := L "https://a"]> {[ (InstancePassword, "i1") := L "secret" ]}.
Definition world0 : World := mkWorld secretDB keeper0 Publishing [] truth0.

Lemma world0_intact : intact world0.
Proof.
  split; [exact keeper0_wf| |intros c id e pt Hin; by apply elem_of_nil in Hin|exact I].
  intros row v [[<- <-]|[_ Hv]]%lookup_insert_cases Hne.
  - exists (L "https://a"). split; vm_compute; reflexivity.
  - apply lookup_singleton_Some in Hv as [<- <-]. exists (L "secret"). split; vm_compute; reflexivity.
Qed.

Definition ended : World := Nat.iter 20 (calm nonce0) world0.
Lemma ended_reached : rtc wstep world0 ended.
Proof. by apply calm_steps. Qed.

Example rotation_keeps_secrets_witness :
  exists pt, wTruth ended !! (WebhookURL, "w1") = Some pt /\
    Decrypt (wKeeper ended) "webhook-url" (locOf WebhookURL "w1") (sealAt keeper2 WebhookURL "w1" "https://a") = Ok pt.
Proof.
  refine (proj2 (rotation_keeps_secrets world0 ended world0_intact ended_reached) (WebhookURL, "w1")
    (sealAt keeper2 WebhookURL "w1" "https://a") _ _); [vm_compute; reflexivity|vm_compute; discriminate].
Defined.

Definition flipped : World := calm nonce0 world0.
Example rotation_complete_witness :
  exists v, values (wDB ended) !! (InstancePassword, "i1") = Some v /\ v <> [] /\ sealedUnder (L "2") v.
Proof.
  pose proof (proj2 (rotation_complete nonce0 eq_refl world0 [] [] keeper2 (setActive (L "2") secretDB) (L "2") ended world0_intact eq_refl eq_refl
    ltac:(vm_compute; reflexivity)
    ltac:(change (wTruth world0) with truth0;
          assert (calm nonce0 world0 = mkWorld (setActive (L "2") secretDB) keeper2 (Counting (L "2")) [] truth0) as E by (vm_compute; reflexivity);
          rewrite <- E; unfold ended; rewrite (Nat.iter_succ_r 19); by apply calm_steps)
    ltac:(vm_compute; reflexivity)) (InstancePassword, "i1")) as H.
  destruct (values (wDB ended) !! (InstancePassword, "i1")) as [v|] eqn:Ev; [|revert Ev; vm_compute; discriminate].
  exists v. assert (v <> []) as Hv.
  { intros ->. revert Ev. vm_compute. discriminate. }
  split; [reflexivity|]. split; [exact Hv|]. exact (H v eq_refl Hv).
Defined.

Example rotation_ends_witness : exists m, wPhase (Nat.iter m (calm nonce0) world0) = Done Succeeded.
Proof.
  destruct (rotation_ends nonce0 eq_refl world0 1 world0_intact eq_refl eq_refl eq_refl) as (m & Hm & _). exists m. exact Hm.
Defined.

(** A writer that sealed before the flip and stores after the last batch: the job
    succeeded and a secret is left on the old generation. *)
Definition lateEnvelope : bytes := sealAt keeper0 DiscordToken "b1" "token".
Definition late0 : World := mkWorld secretDB keeper0 Publishing [(DiscordToken, "b1", lateEnvelope, L "token")] truth0.
Definition late1 : World := Nat.iter 20 (calm nonce0) late0.
Definition late2 : World :=
  mkWorld (setValues (<[(DiscordToken, "b1") := lateEnvelope]> (values (wDB late1))) (wDB late1)) (wKeeper late1) (wPhase late1) []
    (<[(DiscordToken, "b1") := L "token"]> (wTruth late1)).

Example late_writer_left_behind :
  wstep world0 late0 /\ rtc wstep late0 late2 /\ wPhase late2 = Done Succeeded /\
  values (wDB late2) !! (DiscordToken, "b1") = Some lateEnvelope /\ hasPrefix (L "v1.2.") lateEnvelope = false.
Proof.
  split_and!; [|refine (rtc_r late0 late1 late2 _ _)|vm_compute; reflexivity..].
  - assert (Encrypt (wKeeper world0) (colPurpose DiscordToken) (locOf DiscordToken "b1") (L "token") nonce0 = Ok lateEnvelope) as E
      by (vm_compute; reflexivity).
    exact (WSeal DiscordToken "b1" (L "token") nonce0 lateEnvelope world0 eq_refl E).
  - unfold late1. apply (calm_steps nonce0 eq_refl 20 late0).
  - assert (wPending late1 = [] ++ (DiscordToken, "b1", lateEnvelope, L "token") :: []) as E by (vm_compute; reflexivity).
    unfold late2. exact (WStore [] [] DiscordToken "b1" lateEnvelope (L "token") late1 E).
Qed.

(** A key id the pattern allows whose underscore matches another generation's. *)
Example like_wildcard :
  keyIDOK (L "a_b") = true /\ like (onGeneration (L "a_b")) (L "v1.axb.n.c") = true /\ keyIDOK (L "axb") = true.
Proof. split_and!; vm_compute; reflexivity. Qed.

(** ** A lost key *)

Definition nextPassword (id : string) : option bytes := Some (L "fresh-pass").
Definition nonceOf (id : string) : bytes := nonce0.

Definition lost : SecretDB := setCheck (sealAt keeper0 TotpSecret "u1" "x") secretDB.
Definition recovered : SecretDB := (acceptNewKey nextPassword nonceOf nonce0 keeper1 (lost, [])).2.1.

Example accept_recovers_witness :
  exists b d, acceptNewKey nextPassword nonceOf nonce0 keeper1 (lost, []) = (Ok b, (d, [])) /\
    exists e, kvCheck d = Some e /\ Decrypt keeper1 PurposeKeyCheck keyCheckLocation e = Ok keyCheckPlaintext.
Proof.
  destruct (accept_recovers nextPassword nonceOf nonce0 keeper1 lost keeper1_wf (fun _ => eq_refl) eq_refl (fun _ _ => ltac:(by eexists)))
    as (b & d & E & Hc & _).
  exists b, d. split; [exact E|exact Hc].
Defined.

Example accept_outcome :
  values recovered !! (WebhookURL, "w1") = Some [] /\ flags recovered !! (WebhookURL, "w1") = Some false /\
  flags recovered !! (InstancePassword, "i1") = Some true.
Proof. split_and!; vm_compute; reflexivity. Qed.

(** The command dies once the webhook is off. *)
Definition mixed : SecretDB :=
  setValues (<[(TotpSecret, "u1") := sealAt keeper1 TotpSecret "u1" "x"]> (values lost)) lost.
Example accept_spares_witness :
  values (acceptNewKey nextPassword nonceOf nonce0 keeper1 (mixed, replicate 12 false ++ [true])).2.1 !! (TotpSecret, "u1")
    = Some (sealAt keeper1 TotpSecret "u1" "x").
Proof.
  refine (proj1 (accept_spares nextPassword nonceOf nonce0 keeper1 mixed (replicate 12 false ++ [true])
    (acceptNewKey nextPassword nonceOf nonce0 keeper1 (mixed, replicate 12 false ++ [true])).1 _
    (acceptNewKey nextPassword nonceOf nonce0 keeper1 (mixed, replicate 12 false ++ [true])).2.2 _) (TotpSecret, "u1") _ (L "x") _ _).
  - by destruct (acceptNewKey _ _ _ _ _) as [r [d fs]].
  - apply lookup_insert_eq.
  - vm_compute. reflexivity.
Defined.
