(* ===== verification/Netip.v ===== *)
(** Go's net/netip as the middleware calls it: parsing and printing of addresses,
    [ParseAddrPort], [Unmap] and [Prefix.Contains].  An address is its integer. *)
From S2P Require Import Prelude GoBytes Argon.

Open Scope Z_scope.

(** ** Addresses *)

Inductive Addr := NoAddr | A4 (x : Z) | A6 (x : Z) (zone : bytes).
#[export] Instance Addr_eq_dec : EqDecision Addr.
Proof. solve_decision. Defined.

Definition IsValid (a : Addr) : bool := match a with NoAddr => false | _ => true end.
Definition Is4 (a : Addr) : bool := match a with A4 _ => true | _ => false end.
Definition Is6 (a : Addr) : bool := match a with A6 _ _ => true | _ => false end.
Definition Is4In6 (a : Addr) : bool := match a with A6 x _ => Z.shiftr x 32 =? 65535 | _ => false end.
Definition Unmap (a : Addr) : Addr :=
  match a with A6 x _ => if Is4In6 a then A4 (Z.land x (2 ^ 32 - 1)) else a | _ => a end.

(** ** Parsing *)

(** The base-256 number of some bytes. *)
Definition number (l : list Z) : Z := fold_left (fun acc b => acc * 256 + b) l 0.
Definition digitOf (c : ascii) : Z := Z.of_N (code c) - 48.

(** [parseIPv4Fields]; [fresh] is the start of a field. *)
Fixpoint v4Fields (s : bytes) (fields : list Z) (val : Z) (digLen : nat) (fresh : bool) : option (list Z) :=
  match s with
  | [] => if fresh || negb (length fields =? 3)%nat then None else Some (fields ++ [val])
  | c :: s =>
      if is_digit c then
        if (digLen =? 1)%nat && (val =? 0) then None
        else let val := val * 10 + digitOf c in
             if 255 <? val then None else v4Fields s fields val (S digLen) false
      else if is_byte "." c then
        if fresh || (length fields =? 3)%nat then None
        else v4Fields s (fields ++ [val]) 0 0 true
      else None
  end.
Definition parseIPv4 (s : bytes) : option Addr := A4 ∘ number <$> v4Fields s [] 0 0 true.

Definition hexOf (c : ascii) : option Z :=
  if is_digit c then Some (digitOf c)
  else if in_range 97 102 c then Some (Z.of_N (code c) - 87)
  else if in_range 65 70 c then Some (Z.of_N (code c) - 55)
  else None.

(** The digits of one group, five being an error. *)
Fixpoint hexGroup (s : bytes) (off : nat) (acc : Z) : option (nat * Z * bytes) :=
  match s with
  | c :: s' =>
      match hexOf c with
      | Some d => if (3 <? off)%nat then None else hexGroup s' (S off) (acc * 16 + d)
      | None => Some (off, acc, s)
      end
  | [] => Some (off, acc, s)
  end.

(** The loop of [parseIPv6] over the bytes written so far; a turn writes two or
    four of the sixteen. *)
Fixpoint v6Groups (fuel : nat) (s : bytes) (ip : list Z) (ellipsis : option nat) : option (list Z * option nat * bytes) :=
  match fuel with
  | O => Some (ip, ellipsis, s)
  | S fuel =>
      match hexGroup s 0 0 with
      | None | Some (O, _, _) => None
      | Some (_, acc, rest) =>
          match rest with
          | c :: rest' =>
              if is_byte "." c then
                if (bool_decide (ellipsis = None) && negb (length ip =? 12)%nat) || (12 <? length ip)%nat then None
                else match v4Fields s [] 0 0 true with
                     | Some v4 => Some (ip ++ v4, ellipsis, [])
                     | None => None
                     end
              else if negb (is_byte ":" c) then None
              else
                let ip := ip ++ [acc / 256; acc mod 256] in
                match rest' with
                | [] => None
                | c' :: rest'' =>
                    if is_byte ":" c' then
                      if bool_decide (is_Some ellipsis) then None
                      else match rest'' with
                           | [] => Some (ip, Some (length ip), [])
                           | _ => v6Groups fuel rest'' ip (Some (length ip))
                           end
                    else v6Groups fuel rest' ip ellipsis
                end
          | [] => Some (ip ++ [acc / 256; acc mod 256], ellipsis, [])
          end
      end
  end.

Definition expand (ip : list Z) (ellipsis : option nat) : option (list Z) :=
  if (length ip <? 16)%nat then
    match ellipsis with
    | Some i => Some (take i ip ++ replicate (16 - length ip) 0 ++ drop i ip)
    | None => None
    end
  else if bool_decide (is_Some ellipsis) then None else Some ip.

Definition parseIPv6 (s : bytes) : option Addr :=
  let '(s, zone) := match cut "%" s with Some (a, z) => (a, Some z) | None => (s, None) end in
  if bool_decide (zone = Some []) then None
  else
    let zone := default [] zone in
    let finish ip ell rest :=
      match rest with
      | [] => (fun b => A6 (number b) zone) <$> expand ip ell
      | _ => None
      end in
    match s with
    | ":"%char :: ":"%char :: [] => Some (A6 0 zone)
    | ":"%char :: ":"%char :: s =>
        match v6Groups 8 s [] (Some 0%nat) with Some (ip, ell, rest) => finish ip ell rest | None => None end
    | _ => match v6Groups 8 s [] None with Some (ip, ell, rest) => finish ip ell rest | None => None end
    end.

(** [ParseAddr]: the first of the three characters decides. *)
Fixpoint addrKind (s : bytes) : option ascii :=
  match s with
  | [] => None
  | c :: s => if one_of [".";":";"%"]%char c then Some c else addrKind s
  end.
Definition ParseAddr (s : bytes) : option Addr :=
  match addrKind s with
  | Some "."%char => parseIPv4 s
  | Some ":"%char => parseIPv6 s
  | _ => None
  end.

(** [strconv.ParseUint(s, 10, 16)], as an answer. *)
Definition isPort (s : bytes) : bool :=
  match s with
  | [] => false
  | _ => forallb is_digit s && (fold_left (fun acc c => acc * 10 + digitOf c) s 0 <? 65536)
  end.

(** The address of [ParseAddrPort]. *)
Definition ParseAddrPort (s : bytes) : option Addr :=
  match cutLast ":" s with
  | None | Some ([], _) => None
  | Some (ip, port) =>
      let bracket := is_byte "[" (hd "000"%char ip) in
      if bracket && negb ((1 <? length ip)%nat && is_byte "]" (List.last ip "000"%char)) then None
      else
        let host := if bracket then removelast (tail ip) else ip in
        if negb (isPort port) then None
        else match ParseAddr host with
             | Some a => if (if bracket then Is4 a else Is6 a) then None else Some a
             | None => None
             end
  end.

(** ** Prefixes *)

Record Prefix := mkPrefix { pfxAddr : Addr; pfxBits : Z }.

Definition Contains (p : Prefix) (a : Addr) : bool :=
  (0 <=? pfxBits p) &&
  match pfxAddr p, a with
  | A4 x, A4 y => Z.shiftr (Z.lxor x y) (32 - pfxBits p) =? 0
  | A6 x _, A6 y [] => Z.shiftr (Z.lxor x y) (128 - pfxBits p) =? 0
  | _, _ => false
  end.

(** ** Printing *)

Definition octet (x i : Z) : Z := Z.land (Z.shiftr x (8 * i)) 255.
Definition string4 (x : Z) : bytes :=
  itoa (octet x 3) ++ L "." ++ itoa (octet x 2) ++ L "." ++ itoa (octet x 1) ++ L "." ++ itoa (octet x 0).

Definition group (x : Z) (i : nat) : Z := Z.land (Z.shiftr x (16 * (7 - Z.of_nat i))) 65535.
Definition hexDigit (d : Z) : ascii := ascii_of_N (Z.to_N (if d <? 10 then 48 + d else 87 + d)).
Fixpoint hexDigits (fuel : nat) (x : Z) (acc : bytes) : bytes :=
  match fuel with
  | O => acc
  | S n => let acc := hexDigit (x mod 16) :: acc in if x <? 16 then acc else hexDigits n (x / 16) acc
  end.
Definition hex (x : Z) : bytes := hexDigits 4 x [].

(** The length of a run of zero groups, and the first longest of two or more. *)
Fixpoint zeroRun (x : Z) (i n : nat) : nat :=
  match n with O => O | S n => if group x i =? 0 then S (zeroRun x (S i) n) else O end.
Definition longestRun (x : Z) : nat * nat :=
  fold_left (fun best i => let l := zeroRun x i (8 - i) in
    if (2 <=? l)%nat && (best.2 <? l)%nat then (i, l) else best) (seq 0 8) (8, 0)%nat.

Fixpoint groupsFrom (x : Z) (run : nat * nat) (skip i n : nat) : bytes :=
  match n with
  | O => []
  | S n =>
      match skip with
      | S skip => groupsFrom x run skip (S i) n
      | O =>
          if (i =? run.1)%nat && (0 <? run.2)%nat then L "::" ++ groupsFrom x run (run.2 - 1) (S i) n
          else (if (0 <? i)%nat && negb ((i =? run.1 + run.2)%nat && (0 <? run.2)%nat) then L ":" else []) ++
               hex (group x i) ++ groupsFrom x run 0 (S i) n
      end
  end.
Definition string6 (x : Z) : bytes := groupsFrom x (longestRun x) 0 0 8.

Definition withZone (zone s : bytes) : bytes := match zone with [] => s | _ => s ++ L "%" ++ zone end.
Definition AddrString (a : Addr) : bytes :=
  match a with
  | NoAddr => L "invalid IP"
  | A4 x => string4 x
  | A6 x zone =>
      if Is4In6 a then withZone zone (L "::ffff:" ++ string4 (Z.land x (2 ^ 32 - 1))) else withZone zone (string6 x)
  end.

(** [addr.Prefix(64)] of an IPv6 address, printed. *)
Definition net64 (x : Z) : Z := Z.shiftl (Z.shiftr x 64) 64.
Definition Net64String (x : Z) : bytes := AddrString (A6 (net64 x) []) ++ L "/64".

(** ** Examples *)

Example parse_print :
  map (fun s => match ParseAddr (L s) with Some a => String.string_of_list_ascii (AddrString a) | None => "-" end)
    ["10.0.0.255"; "1.2.3"; "01.2.3.4"; "1.2.3.256"; "2001:DB8::1"; "::"; "::1"; "1::"; "fe80::1%eth0"; "::ffff:1.2.3.4";
     "1:2:3:4:5:6:7:8"; "1:0:0:2:0:0:0:3"; "1::2::3"; "12345::"; "1:2:3:4:5:6:7::"; "::%"; "64:ff9b::1.2.3.4"; "1:2"; ""] =
  ["10.0.0.255"; "-"; "-"; "-"; "2001:db8::1"; "::"; "::1"; "1::"; "fe80::1%eth0"; "::ffff:1.2.3.4";
   "1:2:3:4:5:6:7:8"; "1:0:0:2::3"; "-"; "-"; "1:2:3:4:5:6:7:0"; "-"; "64:ff9b::102:304"; "-"; "-"].
Proof. vm_compute. reflexivity. Qed.

Example parse_ports :
  map (fun s => match ParseAddrPort (L s) with Some a => String.string_of_list_ascii (AddrString (Unmap a)) | None => "-" end)
    ["10.0.0.1:80"; "[::ffff:10.0.0.1]:80"; "::1:80"; "[10.0.0.1]:80"; "10.0.0.1:65536"; "10.0.0.1"; "[::1]:"] =
  ["10.0.0.1"; "10.0.0.1"; "-"; "-"; "-"; "-"; "-"].
Proof. vm_compute. reflexivity. Qed.
