(* ===== verification/Limiter.v ===== *)
(** internal/ratelimit/limiter.go: the keyed token bucket, its floating point
    numbers being IEEE 754 doubles (the standard library's SpecFloat).

    The order Go ranges over the table is an argument, some permutation of it; the
    clock reading too.  A product and the sum it feeds round twice, and a float out
    of an int64's range converts, as on amd64. *)
From Stdlib Require Import Floats.SpecFloat.
From S2P Require Import Prelude.

Open Scope Z_scope.

(** ** Doubles *)

#[export] Instance spec_float_dec : EqDecision spec_float.
Proof. solve_decision. Defined.


Definition float64 (z : Z) : spec_float := binary_normalize 53 1024 z 0 false.
Definition fadd := SFadd 53 1024.
Definition fsub := SFsub 53 1024.
Definition fmul := SFmul 53 1024.
Definition fdiv := SFdiv 53 1024.

(** [math.Min]. *)
Definition fmin (x y : spec_float) : spec_float :=
  match x, y with
  | S754_infinity true, _ | _, S754_infinity true => S754_infinity true
  | S754_nan, _ | _, S754_nan => S754_nan
  | S754_zero s, S754_zero _ => if s then x else y
  | _, _ => if SFltb x y then x else y
  end.

Definition trunc (f : spec_float) : Z :=
  match f with
  | S754_zero _ => 0
  | S754_finite s m e =>
      let v := if 0 <=? e then Zpos m * 2 ^ e else Zpos m / 2 ^ (- e) in
      let v := if s then - v else v in
      if (- 2 ^ 63 <=? v) && (v <? 2 ^ 63) then v else - 2 ^ 63
  | _ => - 2 ^ 63
  end.

(** [Duration.Seconds]. *)
Definition second_ : Z := 1000000000.
Definition Seconds (d : Z) : spec_float :=
  fadd (float64 (Z.quot d second_)) (fdiv (float64 (Z.rem d second_)) (float64 second_)).

(** [Time.Sub], which saturates, and the addition of two durations. *)
Definition Sub (t u : Z) : Z := Z.max (- 2 ^ 63) (Z.min (2 ^ 63 - 1) (t - u)).
Definition wrap64 (z : Z) : Z := (z + 2 ^ 63) mod 2 ^ 64 - 2 ^ 63.

(** ** The limiter *)

Record bucket := mkBucket { tokens : spec_float; last_ : Z }.
Record Limiter := mkLimiter {
  rate : spec_float; burst : spec_float; maxKeys : nat; buckets : gmap string bucket
}.

Definition New (per period burst : Z) : Limiter :=
  mkLimiter (fdiv (float64 per) (Seconds period)) (float64 burst) (Z.to_nat 10000) ∅.

Definition withBuckets (f : gmap string bucket -> gmap string bucket) (l : Limiter) : Limiter :=
  mkLimiter (rate l) (burst l) (maxKeys l) (f (buckets l)).

Definition Refund (key : string) (l : Limiter) : Limiter :=
  match buckets l !! key with
  | Some b => withBuckets <[key := mkBucket (fmin (burst l) (fadd (tokens b) (float64 1))) (last_ b)]> l
  | None => l
  end.

(** What a bucket holds at [now], before the cap. *)
Definition refilled (l : Limiter) (now : Z) (b : bucket) : spec_float :=
  fadd (tokens b) (fmul (Seconds (Sub now (last_ b))) (rate l)).

(** The loop of [sweep]: the table, and the oldest key seen, [""] at first. *)
Fixpoint sweepLoop (l : Limiter) (now : Z) (range : list (string * bucket)) (m : gmap string bucket)
    (oldestKey : string) (oldest : Z) : gmap string bucket * string :=
  match range with
  | [] => (m, oldestKey)
  | (k, b) :: range =>
      if SFleb (burst l) (refilled l now b) then sweepLoop l now range (delete k m) oldestKey oldest
      else if bool_decide (oldestKey = "") || (last_ b <? oldest) then sweepLoop l now range m k (last_ b)
      else sweepLoop l now range m oldestKey oldest
  end.

Section Allow.
(** Go's order of a range over the table. *)
Context (range : gmap string bucket -> list (string * bucket)).

Definition sweep (now : Z) (l : Limiter) : Limiter :=
  if (size (buckets l) <? maxKeys l)%nat then l
  else
    let '(m, oldestKey) := sweepLoop l now (range (buckets l)) (buckets l) "" 0 in
    withBuckets (fun _ => if (maxKeys l <=? size m)%nat && negb (bool_decide (oldestKey = ""))
                          then delete oldestKey m else m) l.

Definition Allow (now : Z) (key : string) (l : Limiter) : (bool * Z) * Limiter :=
  let '(b, l) := match buckets l !! key with
                 | Some b => (b, l)
                 | None => let b := mkBucket (burst l) now in
                           (b, withBuckets <[key := b]> (sweep now l))
                 end in
  let held := fmin (burst l) (refilled l now b) in
  if SFltb held (float64 1)
  then ((false, wrap64 (trunc (fmul (fdiv (fsub (float64 1) held) (rate l)) (float64 second_)) + second_)),
        withBuckets <[key := mkBucket held now]> l)
  else ((true, 0), withBuckets <[key := mkBucket (fsub held (float64 1)) now]> l).
End Allow.

(** api/limits.go: what the panel's limiters are made with. *)
Definition perMinute (n burst : Z) : Limiter := New n (60 * second_) burst.
Definition flood : Limiter := perMinute 300 100.
Definition limits : list (Z * Z) :=
  [(300, 100); (5, 5); (10, 10); (5, 5); (30, 30); (10, 10); (5, 5); (10, 10); (60, 20); (5, 5); (5, 5)].

(** ** Laws *)

(** A range lists the table once. *)
Definition ranges (range : gmap string bucket -> list (string * bucket)) : Prop :=
  forall m, range m ≡ₚ map_to_list m.

Lemma sweepLoop_sub l now rg m k0 t0 : (sweepLoop l now rg m k0 t0).1 ⊆ m.
Proof.
  revert m k0 t0. induction rg as [|[k b] rg IH]; intros m k0 t0; simpl; [done|].
  destruct (SFleb _ _); [trans (delete k m); [apply IH|apply delete_subseteq]|]. destruct (_ || _); apply IH.
Qed.

(** A walk over a table drops a row of it or finds an oldest one. *)
Lemma sweepLoop_room l now rg m k0 t0 :
  NoDup rg.*1 -> (forall k b, (k, b) ∈ rg -> is_Some (m !! k) /\ k <> "") ->
  (k0 <> "" -> is_Some (m !! k0)) -> rg <> [] \/ k0 <> "" ->
  let r := sweepLoop l now rg m k0 t0 in
  (size r.1 < size m)%nat \/ (is_Some (r.1 !! r.2) /\ r.2 <> "").
Proof.
  revert k0 t0. induction rg as [|[k b] rg IH]; intros k0 t0 Hnd Hin Hk0 Hne; simpl.
  { destruct Hne as [|Hne]; [done|]. right. auto. }
  cbn [fmap list_fmap fst] in Hnd. apply NoDup_cons in Hnd as [_ Hnd].
  destruct (Hin k b) as [Hb Hkn]; [by left|].
  destruct (SFleb _ _).
  { left. apply Nat.le_lt_trans with (size (delete k m)); [apply map_subseteq_size, sweepLoop_sub|].
    rewrite map_size_delete_Some by done. assert (size m <> 0)%nat; [|lia].
    intros E%map_size_empty_inv. subst. rewrite lookup_empty in Hb. by destruct Hb. }
  destruct (bool_decide (k0 = "") || (last_ b <? t0)) eqn:E.
  - apply IH; [done|set_solver|done|by right].
  - apply orb_false_iff in E as [E _]. apply bool_decide_eq_false in E. apply IH; [done|set_solver|done|by right].
Qed.

Definition bounded (l : Limiter) : Prop := (size (buckets l) <= maxKeys l)%nat /\ forall k, is_Some (buckets l !! k) -> k <> "".

Section Bounds.
Context (range : gmap string bucket -> list (string * bucket)) (Hrange : ranges range).

(** A sweep makes room for one more key. *)
Lemma sweep_room now l : (0 < maxKeys l)%nat -> bounded l ->
  (size (buckets (sweep range now l)) < maxKeys l)%nat /\ buckets (sweep range now l) ⊆ buckets l.
Proof using Hrange.
  intros Hm [Hsz Hk]. unfold sweep. destruct (_ <? _)%nat eqn:E; [by apply Nat.ltb_lt in E|]. apply Nat.ltb_ge in E.
  pose proof (sweepLoop_sub l now (range (buckets l)) (buckets l) "" 0) as Hsub.
  pose proof (sweepLoop_room l now (range (buckets l)) (buckets l) "" 0) as Hroom. cbv zeta in Hroom.
  destruct (sweepLoop _ _ _ _ _ _) as [m o]. cbn [fst snd] in *. simpl.
  assert ((size m < size (buckets l))%nat \/ (is_Some (m !! o) /\ o <> "")) as Hr.
  { apply Hroom.
    - rewrite (Hrange (buckets l)). apply NoDup_fst_map_to_list.
    - intros k b Hin. rewrite (Hrange (buckets l)) in Hin. apply elem_of_map_to_list in Hin. split; [by eexists|].
      apply Hk. by eexists.
    - done.
    - left. intros Hnil. pose proof (Hrange (buckets l)) as Hp. rewrite Hnil in Hp. symmetry in Hp.
      apply Permutation_nil_r in Hp. apply (f_equal length) in Hp. rewrite length_map_to_list in Hp. simpl in Hp. lia. }
  split; [|destruct (_ && _); [trans m; [apply delete_subseteq|]|]; done].
  destruct (_ <=? _)%nat eqn:Em; [apply Nat.leb_le in Em|apply Nat.leb_gt in Em; simpl; lia].
  destruct Hr as [|[Ho Hne]]; [lia|]. rewrite bool_decide_eq_false_2 by done. simpl.
  rewrite map_size_delete_Some by done. pose proof (map_subseteq_size _ _ Hsub). lia.
Qed.

(** The table never outgrows its cap, whatever keys arrive and in whatever
    order Go ranges over it; it never holds the empty key, and a call touches no
    other key's bucket than by sweeping it away. *)
Theorem Allow_bounded now key l : key <> "" -> (0 < maxKeys l)%nat -> bounded l ->
  bounded (Allow range now key l).2 /\ bounded (Refund key l) /\
  (forall k, k <> key -> is_Some (buckets (Allow range now key l).2 !! k) ->
     buckets (Allow range now key l).2 !! k = buckets l !! k).
Proof using Hrange.
  intros Hkey Hm Hl.
  assert (forall (b : bucket) (m0 : gmap string bucket), (size m0 <= maxKeys l)%nat -> is_Some (m0 !! key) -> (forall k, is_Some (m0 !! k) -> k <> "") ->
    (size (<[key := b]> m0) <= maxKeys l)%nat /\ forall k : string, is_Some (<[key := b]> m0 !! k) -> k <> "") as Hins.
  { intros b m0 H1 H2 H3. rewrite map_size_insert_Some by done. split; [done|].
    intros k [<-|[_ ?]]%lookup_insert_is_Some; auto. }
  assert (exists m0 : gmap string bucket, (size m0 <= maxKeys l)%nat /\ is_Some (m0 !! key) /\ (forall k, is_Some (m0 !! k) -> k <> "") /\
    (forall k, k <> key -> is_Some (m0 !! k) -> m0 !! k = buckets l !! k) /\
    exists b, buckets (Allow range now key l).2 = <[key := b]> m0 /\ maxKeys (Allow range now key l).2 = maxKeys l) as
    (m0 & H1 & H2 & H3 & H4 & b & E & Em).
  { destruct Hl as [Hsz Hk]. unfold Allow. destruct (buckets l !! key) as [b|] eqn:Eb.
    - exists (buckets l). split_and!; [done|by eexists|done|done|]. destruct (SFltb _ _); by eexists.
    - destruct (sweep_room now l Hm (conj Hsz Hk)) as [Hroom Hsub].
      exists (<[key := mkBucket (burst l) now]> (buckets (sweep range now l))). split_and!.
      + rewrite map_size_insert. destruct (buckets (sweep range now l) !! key); unfold id; lia.
      + rewrite lookup_insert_eq. by eexists.
      + intros k [<-|[_ [x Hx]]]%lookup_insert_is_Some; [done|]. apply Hk. eexists. by eapply lookup_weaken.
      + intros k Hne [x Hx]. rewrite lookup_insert_ne in Hx |- * by done. rewrite Hx. symmetry. by eapply lookup_weaken.
      + assert (maxKeys (sweep range now l) = maxKeys l) as Hmk.
        { unfold sweep. destruct (_ <? _)%nat; [done|]. by destruct (sweepLoop _ _ _ _ _ _). }
        destruct (SFltb _ _); by eexists. }
  split_and!.
  - unfold bounded. rewrite E, Em. by apply Hins.
  - unfold Refund, bounded. destruct (buckets l !! key) eqn:Eb; [|done]. destruct Hl. apply Hins; [done|by eexists|done].
  - intros k Hne. rewrite E, lookup_insert_ne by done. auto.
Qed.
End Bounds.

(** ** A burst *)

Definition allowMany (range : gmap string bucket -> list (string * bucket)) (now : Z) (key : string) : nat -> Limiter -> list bool * Limiter :=
  fix go n l := match n with
                | O => ([], l)
                | S n => let '((ok, _), l) := Allow range now key l in
                         let '(rest, l) := go n l in (ok :: rest, l)
                end.

Definition whole (i : nat) : spec_float := float64 (Z.of_nat i).

(** Whole numbers of tokens up to 200 are exact. *)
Lemma whole_checked : forallb (fun n =>
  bool_decide (fadd (whole n) (S754_zero false) = whole n) && Bool.eqb (SFltb (whole n) (float64 1)) (n =? 0)%nat &&
  ((n =? 0)%nat || bool_decide (fsub (whole n) (float64 1) = whole (pred n))) &&
  forallb (fun i => bool_decide (fmin (whole n) (whole i) = whole i)) (seq 0 (S n))) (seq 0 201) = true.
Proof. vm_compute. reflexivity. Qed.

Lemma whole_laws n : (n <= 200)%nat ->
  fadd (whole n) (S754_zero false) = whole n /\ SFltb (whole n) (float64 1) = (n =? 0)%nat /\
  (n <> 0%nat -> fsub (whole n) (float64 1) = whole (pred n)) /\
  (forall i, (i <= n)%nat -> fmin (whole n) (whole i) = whole i).
Proof.
  intros Hn. pose proof whole_checked as H. rewrite forallb_elem_of in H. specialize (H n).
  assert (n ∈ seq 0 201) as Hin by (apply elem_of_seq; lia). apply H in Hin. clear H.
  apply andb_true_iff in Hin as [Hin H4]. apply andb_true_iff in Hin as [Hin H3]. apply andb_true_iff in Hin as [H1 H2].
  apply bool_decide_eq_true in H1. apply eqb_prop in H2. split_and!; [done|done|..].
  - intros Hne. apply orb_true_iff in H3 as [H3%Nat.eqb_eq|H3]; [done|]. by apply bool_decide_eq_true in H3.
  - intros i Hi. rewrite forallb_elem_of in H4. apply (bool_decide_eq_true_1 (fmin (whole n) (whole i) = whole i)), H4.
    apply elem_of_seq. lia.
Qed.

Section Burst.
Context (range : gmap string bucket -> list (string * bucket)) (n : nat) (now : Z) (key : string).

(** A bucket of [i] whole tokens, last touched at this instant. *)
Definition holds (i : nat) (l : Limiter) : Prop :=
  burst l = whole n /\ (exists m e, rate l = S754_finite false m e) /\ buckets l !! key = Some (mkBucket (whole i) now).

Lemma refilled_now i l : holds i l -> (i <= 200)%nat -> refilled l now (mkBucket (whole i) now) = whole i.
Proof.
  intros (_ & (m & e & Hr) & _) Hi. unfold refilled, Sub. cbn [tokens last_]. rewrite Z.sub_diag, Hr.
  change (Z.max (- 2 ^ 63) (Z.min (2 ^ 63 - 1) 0)) with 0.
  change (fmul (Seconds 0) (S754_finite false m e)) with (S754_zero false). by apply whole_laws.
Qed.

Lemma Allow_holds i l : (n <= 200)%nat -> (i <= n)%nat -> holds i l ->
  (Allow range now key l).1.1 = negb (i =? 0)%nat /\ holds (pred i) (Allow range now key l).2.
Proof.
  intros Hn Hi Hl. pose proof (refilled_now i l Hl ltac:(lia)) as Hre. destruct Hl as (Hb & Hr & Hk).
  unfold Allow. rewrite Hk, Hre, Hb. destruct (whole_laws n Hn) as (_ & _ & _ & Hmin). rewrite (Hmin i) by done.
  destruct (whole_laws i ltac:(lia)) as (_ & Hlt & Hsub & _). rewrite Hlt. destruct (i =? 0)%nat eqn:E.
  - apply Nat.eqb_eq in E as ->. split; [done|]. split_and!; [done..|]. apply lookup_insert_eq.
  - apply Nat.eqb_neq in E. rewrite Hsub by done. split; [done|]. split_and!; [done..|]. apply lookup_insert_eq.
Qed.

Lemma allowMany_holds k i l : (n <= 200)%nat -> (i <= n)%nat -> holds i l ->
  (allowMany range now key k l).1 = replicate (Nat.min k i) true ++ replicate (k - i) false.
Proof.
  intros Hn. revert i l. induction k as [|k IH]; intros i l Hi Hl; [done|]. simpl.
  destruct (Allow_holds i l Hn Hi Hl) as [Hok Hl']. destruct (Allow range now key l) as [[ok w] l']. simpl in Hok, Hl'. subst ok.
  specialize (IH (pred i) l' ltac:(lia) Hl'). destruct (allowMany range now key k l') as [rest l'']. simpl in *. rewrite IH.
  destruct i as [|i]; simpl; [|done]. rewrite Nat.min_0_r, Nat.sub_0_r. done.
Qed.

(** C35. A key not seen before passes exactly its burst of requests at one instant
    and no more, whatever the rate: for every burst of whole tokens up to 200, the
    panel's own limits among them. *)
Theorem burst_exact k l : (1 <= n <= 200)%nat -> burst l = whole n ->
  (exists m e, rate l = S754_finite false m e) -> buckets l !! key = None ->
  (allowMany range now key k l).1 = replicate (Nat.min k n) true ++ replicate (k - n) false.
Proof.
  intros Hn Hb Hr Hk. destruct k as [|k]; [done|].
  set (l1 := withBuckets <[key := mkBucket (burst l) now]> (sweep range now l)).
  assert (burst l1 = burst l /\ rate l1 = rate l) as [E1 E2].
  { subst l1. unfold sweep. destruct (_ <? _)%nat; [done|]. by destruct (sweepLoop _ _ _ _ _ _). }
  assert (holds n l1) as Hl.
  { split_and!; [by rewrite E1|by rewrite E2|]. subst l1. simpl. rewrite Hb. apply lookup_insert_eq. }
  assert (allowMany range now key (S k) l = allowMany range now key (S k) l1) as ->; [|apply allowMany_holds; [lia..|done]].
  cbn [allowMany]. assert (Allow range now key l = Allow range now key l1) as ->; [|done].
  unfold Allow. rewrite Hk. fold l1. rewrite (proj2 (proj2 Hl)), Hb. done.
Qed.
End Burst.

Definition inOrder (m : gmap string bucket) : list (string * bucket) := map_to_list m.

Example burst_exact_witness :
  (allowMany inOrder 5 "10.0.0.1" 12 (New 10 (60 * second_) 10)).1 = replicate 10 true ++ replicate 2 false.
Proof.
  apply (burst_exact inOrder 10 5 "10.0.0.1" 12).
  - lia.
  - vm_compute. reflexivity.
  - eexists _, _. vm_compute. reflexivity.
  - reflexivity.
Defined.

(** Every limiter of the panel lets its whole burst through. *)
Example panel_bursts : forallb (fun nb =>
  let n := Z.to_nat nb.2 in
  bool_decide ((allowMany inOrder 7 "k" (S (S n)) (perMinute nb.1 nb.2)).1 = replicate n true ++ [false; false])) limits = true.
Proof. vm_compute. reflexivity. Qed.

Example Allow_bounded_witness : bounded (Allow inOrder 5 "10.0.0.1" (New 10 (60 * second_) 10)).2.
Proof.
  refine (proj1 (Allow_bounded inOrder (fun m => reflexivity _) 5 "10.0.0.1" (New 10 (60 * second_) 10) _ _ _)); [done| |].
  - change (0 < Z.to_nat 10000)%nat. lia.
  - split; [change (0 <= Z.to_nat 10000)%nat; lia|]. intros k [x Hx]. change ((∅ : gmap string bucket) !! k = Some x) in Hx. by rewrite lookup_empty in Hx.
Defined.

(** One token comes back after six seconds of ten a minute. *)
Example refill : let l := (allowMany inOrder 0 "a" 10 (New 10 (60 * second_) 10)).2 in
  ((Allow inOrder (5 * second_) "a" l).1, (Allow inOrder (6 * second_) "a" l).1) = ((false, 1 *  second_ + second_)%Z, (true, 0)).
Proof. vm_compute. reflexivity. Qed.
