(* ===== verification/Errcode.v ===== *)
(** internal/errcode/code.go: the closed registry of wire codes that HTTP answers and
    job rows share. *)
From S2P Require Import Prelude.

Open Scope Z_scope.

(** A code: its wire name, the HTTP status it is paired with (0 for a job-only
    code) and the sentence a caller sees. *)
Record Code := mkCode { codeName : string; Status : Z; Message : string }.
#[export] Instance Code_eq_dec : EqDecision Code.
Proof. solve_decision. Defined.

Definition Unauthenticated : Code := mkCode "unauthenticated" 401 "Sign in to continue.".
Definition InvalidCredentials : Code := mkCode "invalid_credentials" 401 "The username or password is incorrect.".
Definition TOTPRequired : Code := mkCode "totp_required" 401 "Enter an authentication code to finish signing in.".
Definition Forbidden : Code := mkCode "forbidden" 403 "You do not have permission to perform this action.".
Definition CSRFFailed : Code := mkCode "csrf_failed" 403 "This request could not be verified. Reload the page and try again.".
Definition OriginRejected : Code := mkCode "origin_rejected" 403 "This request was blocked because it came from another site. Open Valmin directly to continue.".
Definition SetupRequired : Code := mkCode "setup_required" 503 "This panel has not been set up yet.".
Definition SetupConsumed : Code := mkCode "setup_consumed" 410 "Setup is already complete. Sign in with an existing account.".
Definition InviteInvalid : Code := mkCode "invite_invalid" 410 "This invite is invalid, expired, revoked, or already used. Ask an administrator for a new invite.".
Definition RateLimited : Code := mkCode "rate_limited" 429 "Too many requests. Try again shortly.".
Definition MalformedJSON : Code := mkCode "malformed_json" 400 "The request body is not valid JSON.".
Definition InvalidParameter : Code := mkCode "invalid_parameter" 400 "A request parameter is not valid.".
Definition ValidationFailed : Code := mkCode "validation_failed" 422 "Some values are invalid. Check the validation details.".
Definition NotFound : Code := mkCode "not_found" 404 "The requested item could not be found.".
Definition MethodNotAllowed : Code := mkCode "method_not_allowed" 405 "This action is not supported at this address.".
Definition StaleWrite : Code := mkCode "stale_write" 412 "The saved version changed after you loaded it. Review the latest version before saving.".
Definition PayloadTooLarge : Code := mkCode "payload_too_large" 413 "The upload exceeds the allowed size. Choose a smaller file.".
Definition UnsupportedMediaType : Code := mkCode "unsupported_media_type" 415 "This file or request format is not supported.".
Definition InvalidState : Code := mkCode "invalid_state" 409 "This action is unavailable in the server's current state. Check its status before trying again.".
Definition JobInProgress : Code := mkCode "job_in_progress" 409 "Another task is running on this server. Wait for it to finish.".
Definition InstanceMustBeStopped : Code := mkCode "instance_must_be_stopped" 409 "Stop the server before performing this action.".
Definition JobNotCancellable : Code := mkCode "job_not_cancellable" 409 "This job is past the point where it can be cancelled.".
Definition NameTaken : Code := mkCode "name_taken" 409 "This name is already in use. Choose a different name.".
Definition PortExhausted : Code := mkCode "port_exhausted" 409 "There is no free port range left on this host.".
Definition InsufficientDisk : Code := mkCode "insufficient_disk" 409 "There is not enough free disk space.".
Definition InsufficientMemory : Code := mkCode "insufficient_memory" 409 "There is not enough free memory on this host.".
Definition Unsupported : Code := mkCode "unsupported" 409 "This server build does not support that.".
Definition WorldPairIncomplete : Code := mkCode "world_pair_incomplete" 422 "A world needs both its .db and .fwl file.".
Definition DependencyUnresolved : Code := mkCode "dependency_unresolved" 409 "A required mod dependency is missing.".
Definition PackageInvalid : Code := mkCode "package_invalid" 422 "That mod package cannot be installed.".
Definition ModConflict : Code := mkCode "mod_conflict" 409 "That conflicts with a mod already installed.".
Definition ModUnownedFiles : Code := mkCode "mod_unowned_files" 0 "The mod would replace files no installed mod owns. Choose to keep them or replace them.".
Definition ContainerMismatch : Code := mkCode "container_mismatch" 409 "This container does not match the configuration required for recovery. Check the server settings and container configuration.".
Definition BackupUnverifiable : Code := mkCode "backup_unverifiable" 0 "Valmin could not verify that the backup is complete.".
Definition Interrupted : Code := mkCode "interrupted" 0 "The panel stopped while this job was running.".
Definition Timeout : Code := mkCode "timeout" 504 "The request timed out. Check the current status before trying again.".
Definition Stalled : Code := mkCode "stalled" 0 "This job stopped making progress.".
Definition Internal : Code := mkCode "internal" 500 "Valmin could not complete the request.".
Definition Unavailable : Code := mkCode "unavailable" 503 "Valmin is temporarily unavailable. Check its status before trying again.".

Definition registry : list Code :=
  [Unauthenticated; InvalidCredentials; TOTPRequired; Forbidden; CSRFFailed; OriginRejected; SetupRequired;
   SetupConsumed; InviteInvalid; RateLimited; MalformedJSON; InvalidParameter; ValidationFailed; NotFound;
   MethodNotAllowed; StaleWrite; PayloadTooLarge; UnsupportedMediaType; InvalidState; JobInProgress;
   InstanceMustBeStopped; JobNotCancellable; NameTaken; PortExhausted; InsufficientDisk; InsufficientMemory;
   Unsupported; WorldPairIncomplete; DependencyUnresolved; PackageInvalid; ModConflict; ModUnownedFiles;
   ContainerMismatch; BackupUnverifiable; Interrupted; Timeout; Stalled; Internal; Unavailable].

(** The names are distinct, the messages are there, and what is answered over HTTP
    is an error status. *)
Lemma registry_wellformed :
  NoDup (codeName <$> registry) /\
  forall c, c ∈ registry -> Message c <> "" /\ (Status c = 0 \/ 400 <= Status c < 600).
Proof.
  split; [apply (bool_decide_unpack _); vm_compute; exact I|].
  apply Forall_forall, (bool_decide_unpack _). vm_compute. exact I.
Qed.
