(* ===== verification/Middleware.v ===== *)
(** internal/api/middleware: the chain every API request passes, from the layers as
    the code nests them; and internal/api/errors' answer.

    A request is what net/http parsed of it, headers under their canonical names;
    a handler maps it and the world (the tables, the gate, the limiters and the
    response so far) to an outcome and a world.  Clock readings and random draws
    come in [Draws]; a log line is not modelled. *)
From S2P Require Import Prelude GoBytes Lifecycle Sql Store Authz UserStore UserLaws AccountSafe Argon Auth Keeper Netip Limiter Errcode.

Open Scope Z_scope.

(** ** Requests and responses *)

(** What [context.go] attaches; [""], the zero address and [None] are absence. *)
Record Context := mkContext {
  ctxRequestID : string; ctxClientIP : Addr; ctxSessionID : string; ctxUser : option PUser; ctxErrorID : string
}.
Definition background : Context := mkContext "" NoAddr "" None "".

Record Request := mkRequest {
  Method : string; Path : string; RemoteAddr : bytes;
  Header : gmap string (list string); Cookies : list (string * string);
  ContentLength : Z; BodyCaps : list Z; Ctx : Context
}.
Definition withCtx (c : Context) (r : Request) : Request :=
  mkRequest (Method r) (Path r) (RemoteAddr r) (Header r) (Cookies r) (ContentLength r) (BodyCaps r) c.
Definition withCap (n : Z) (r : Request) : Request :=
  mkRequest (Method r) (Path r) (RemoteAddr r) (Header r) (Cookies r) (ContentLength r) (n :: BodyCaps r) (Ctx r).

(** [textproto.CanonicalMIMEHeaderKey]. *)
Definition tokenByte (c : ascii) : bool := is_alnum c || one_of (L "!#$%&'*+-.^_`|~") c.
Definition upper_byte (c : ascii) : ascii := if is_lower c then ascii_of_N (code c - 32) else c.
Fixpoint canonicalFrom (upper : bool) (s : bytes) : bytes :=
  match s with
  | [] => []
  | c :: s => let c' := if upper then upper_byte c else lower_byte c in c' :: canonicalFrom (is_byte "-" c') s
  end.
Definition canonicalKey (s : string) : string :=
  if forallb tokenByte (L s) then S_ (canonicalFrom true (L s)) else s.

(** [Header.Values] and [Header.Get]. *)
Definition Values (r : Request) (key : string) : list string := default [] (Header r !! canonicalKey key).
Definition Get (r : Request) (key : string) : string := default "" (head (Values r key)).
(** [Request.Cookie]. *)
Definition CookieOf (r : Request) (name : string) : option string := snd <$> find (fun c => bool_decide (c.1 = name)) (Cookies r).

Record Cookie := mkCookie {
  ckName : string; ckValue : string; ckPath : string; ckMaxAge : Z; ckExpires : option Time;
  ckHttpOnly : bool; ckSecure : bool; ckStrict : bool
}.

(** The error envelope. *)
Record Envelope := mkEnvelope { eCode : Code; eLimit : option Z; eRequestID : string }.

(** A response: its headers, the cookies set, what was sent with the first status,
    and the envelopes written. *)
Record Sent := mkSent { sStatus : Z; sHeader : gmap string string; sCookies : list Cookie }.
Record Writer := mkWriter { wHeader : gmap string string; wCookies : list Cookie; wSent : option Sent; wBody : list Envelope }.
Definition freshWriter : Writer := mkWriter ∅ [] None [].

Definition Set_ (key value : string) (w : Writer) : Writer := mkWriter (<[key := value]> (wHeader w)) (wCookies w) (wSent w) (wBody w).
Definition SetCookie (c : Cookie) (w : Writer) : Writer := mkWriter (wHeader w) (wCookies w ++ [c]) (wSent w) (wBody w).
Definition WriteHeader (status : Z) (w : Writer) : Writer :=
  mkWriter (wHeader w) (wCookies w) (match wSent w with Some s => Some s | None => Some (mkSent status (wHeader w) (wCookies w)) end) (wBody w).

(** [errors.Write] of an [*Error]. *)
Definition Write (r : Request) (c : Code) (limit : option Z) (w : Writer) : Writer :=
  let '(c, limit) := if Status c =? 0 then (Internal, None) else (c, limit) in
  let requestID := if bool_decide (ctxErrorID (Ctx r) = "") then default "" (wHeader w !! "X-Request-Id") else ctxErrorID (Ctx r) in
  let limit := if bool_decide (c = Internal) then None else limit in
  let w := WriteHeader (Status c) (Set_ "Cache-Control" "no-store" (Set_ "Content-Type" "application/json" w)) in
  mkWriter (wHeader w) (wCookies w) (wSent w) (wBody w ++ [mkEnvelope c limit requestID]).

(** ** The world *)

Record World := mkWorld {
  tables : UTxS; pending : bool; perIP : option Limiter; perUser : option Limiter; out : Writer
}.
Definition withTables (t : UTxS) (w : World) : World := mkWorld t (pending w) (perIP w) (perUser w) (out w).
Definition withOut (f : Writer -> Writer) (w : World) : World := mkWorld (tables w) (pending w) (perIP w) (perUser w) (f (out w)).
Definition refuse (r : Request) (c : Code) (limit : option Z) (w : World) : World := withOut (Write r c limit) w.

Inductive Panic := ErrAbortHandler | OtherPanic.
Inductive Outcome := Returned | Panicked (p : Panic).
Definition Handler := Request -> World -> Outcome * World.
Definition Layer := Handler -> Handler.

(** ** chain.go *)

Definition Recover : Layer := fun next r w =>
  match next r w with
  | (Panicked OtherPanic, w') => (Returned, refuse r Internal None w')
  | x => x
  end.

(** What the layers draw: a request id, the three clock readings of a session
    lookup, what a session is opened with, the clock of each limiter. *)
Record Draws := mkDraws {
  drawID : string; authNow : Time * Time * Time; openWith : string * bytes * Time; ipNow : Z; userNow : Z
}.

Section Chain.
Context `{Crypt, Cipher}.
Context (range : gmap string bucket -> list (string * bucket)) (d : Draws).

Definition RequestID : Layer := fun next r w =>
  let id := drawID d in
  let c := Ctx r in
  next (withCtx (mkContext id (ctxClientIP c) (ctxSessionID c) (ctxUser c) id) r) (withOut (Set_ "X-Request-Id" id) w).

Definition securityHeaders (w : Writer) : Writer :=
  Set_ "Cache-Control" "no-store" (Set_ "Referrer-Policy" "no-referrer" (Set_ "X-Frame-Options" "DENY" (Set_ "X-Content-Type-Options" "nosniff" w))).
Definition SecurityHeaders : Layer := fun next r w => next r (withOut securityHeaders w).

Definition BodyLimit (n : Z) (largeBody : option (Request -> bool)) : Layer := fun next r w =>
  if (match largeBody with Some f => f r | None => false end) then next r w
  else if n <? ContentLength r then (Returned, refuse r PayloadTooLarge (Some n) w)
  else next (withCap n r) w.

(** ** origin.go *)

Definition originOf (external : option (string * string)) : string :=
  match external with Some (scheme, host) => scheme +:+ "://" +:+ host | None => "" end.
Definition crossSite (r : Request) (want : string) : option (string * string) :=
  let site := Get r "Sec-Fetch-Site" in
  if bool_decide (site = "cross-site") || bool_decide (site = "same-site") then Some ("Sec-Fetch-Site", site)
  else let got := Get r "Origin" in
       if negb (bool_decide (got = "")) && negb (bool_decide (got = want)) then Some ("Origin", got) else None.
Definition Origin (external : option (string * string)) : Layer := fun next r w =>
  match crossSite r (originOf external) with
  | Some _ => (Returned, refuse r OriginRejected None w)
  | None => next r w
  end.

(** ** clientip.go *)

Definition isTrusted (a : Addr) (trusted : list Prefix) : bool := IsValid a && existsb (fun p => Contains p a) trusted.
Definition peerAddr (remote : bytes) : Addr :=
  match ParseAddrPort remote with
  | Some a => Unmap a
  | None => match ParseAddr remote with Some a => Unmap a | None => NoAddr end
  end.

(** One header's entries from the last. *)
Fixpoint lastUntrusted (entries : list bytes) (trusted : list Prefix) : option Addr :=
  match entries with
  | [] => None
  | e :: entries =>
      match ParseAddr (trimSpace e) with
      | None => lastUntrusted entries trusted
      | Some a => let a := Unmap a in if isTrusted a trusted then lastUntrusted entries trusted else Some a
      end
  end.
Fixpoint scanHeaders (headers : list string) (trusted : list Prefix) : option Addr :=
  match headers with
  | [] => None
  | h :: headers =>
      match lastUntrusted (rev (split ","%char (L h))) trusted with
      | Some a => Some a
      | None => scanHeaders headers trusted
      end
  end.
Definition rightmostUntrusted (headers : list string) (trusted : list Prefix) : option Addr := scanHeaders (rev headers) trusted.

Definition resolveIP (r : Request) (trusted : list Prefix) : Addr :=
  let peer := peerAddr (RemoteAddr r) in
  if negb (isTrusted peer trusted) then peer
  else match rightmostUntrusted (Values r "X-Forwarded-For") trusted with
       | Some fwd => fwd
       | None => peer
       end.
Definition ClientIP (trusted : list Prefix) : Layer := fun next r w =>
  let c := Ctx r in
  next (withCtx (mkContext (ctxRequestID c) (resolveIP r trusted) (ctxSessionID c) (ctxUser c) (ctxErrorID c)) r) w.

(** [strconv.Itoa]. *)
Definition Itoa (z : Z) : bytes := if z <? 0 then "-"%char :: itoa (- z) else itoa z.

(** [context.go]'s rate-limit key. *)
Definition ClientKey (c : Context) : string :=
  let a := Unmap (ctxClientIP c) in
  S_ (match a with A6 x _ => Net64String x | _ => AddrString a end).

(** ** bootstrap.go *)

Definition exempt (path : string) : bool := bool_decide (path = "/api/v1/setup").
Definition Complete (w : World) : World := mkWorld (tables w) false (perIP w) (perUser w) (out w).
Definition SetupGate : Layer := fun next r w =>
  if pending w && negb (exempt (Path r)) then (Returned, refuse r SetupRequired None w) else next r w.

(** ** ratelimit.go *)

Definition RefuseRateLimited (r : Request) (retry : Z) (w : World) : World :=
  refuse r RateLimited None (withOut (Set_ "Retry-After" (S_ (Itoa (trunc (Seconds retry))))) w).

Definition keyedRateLimit (lim : World -> option Limiter) (put : Limiter -> World -> World) (now : Z) (key : Request -> string) : Layer :=
  fun next r w =>
    match lim w with
    | None => next r w
    | Some l =>
        let k := key r in
        if bool_decide (k = "") then next r w
        else let '((ok, retry), l') := Allow range now k l in
             let w := put l' w in
             if negb ok then (Returned, RefuseRateLimited r retry w) else next r w
    end.
Definition putIP (l : Limiter) (w : World) : World := mkWorld (tables w) (pending w) (Some l) (perUser w) (out w).
Definition putUser (l : Limiter) (w : World) : World := mkWorld (tables w) (pending w) (perIP w) (Some l) (out w).
Definition RateLimit : Layer := keyedRateLimit perIP putIP (ipNow d) (fun r => ClientKey (Ctx r)).
Definition AuthRateLimit : Layer :=
  keyedRateLimit perUser putUser (userNow d) (fun r => match ctxUser (Ctx r) with Some u => pID u | None => "" end).

(** ** session.go *)

Definition SessionCookie : string := "valmin_session".
Definition SetSessionCookie (value : string) (expires : Time) : Writer -> Writer :=
  SetCookie (mkCookie SessionCookie value "/" 0 (Some expires) true true true).
Definition ClearSessionCookie : Writer -> Writer := SetCookie (mkCookie SessionCookie "" "/" (-1) None true true true).
Definition DeviceCookie : string := "valmin_device".
Definition SetDeviceCookie (value : string) (maxAge : Z) : Writer -> Writer :=
  SetCookie (mkCookie DeviceCookie value "/api/v1/auth/login" (trunc (Seconds maxAge)) None true true true).

Definition cookieSession (cfg : SessionConfig) (r : Request) (w : World) : option (PUser * string) * World :=
  match CookieOf r SessionCookie with
  | None | Some "" => (None, w)
  | Some v =>
      let '(n1, n2, n3) := authNow d in
      match Authenticate cfg (L v) n1 n2 n3 (tables w) with
      | (Ok found, t) => (found, withTables t w)
      | (Err _, t) => (None, withTables t w)
      end
  end.

Record ProxyAuth := mkProxyAuth { pxHeader : string; pxTrusted : list Prefix }.
Definition username (p : option ProxyAuth) (r : Request) : string :=
  match p with
  | None => ""
  | Some p => if isTrusted (peerAddr (RemoteAddr r)) (pxTrusted p) then S_ (trimSpace (L (Get r (pxHeader p)))) else ""
  end.

Definition signIn (cfg : SessionConfig) (r : Request) (name : string) (w : World) : option (PUser * string) * World :=
  let ip := S_ (AddrString (ctxClientIP (Ctx r))) in
  let '(oid, raw, now) := openWith d in
  match LoginTrusted cfg name (mkOpening oid raw now ip (Get r "User-Agent")) (tables w) with
  | (Err _, t) => (None, withTables t w)
  | (Ok logged, t) =>
      (Some (lUser logged, lSessionID logged), withOut (SetSessionCookie (S_ (lCookie logged)) (lExpires logged)) (withTables t w))
  end.

Definition safeMethod (m : string) : bool := bool_decide (m = "GET") || bool_decide (m = "HEAD").
Definition withSession (found : option (PUser * string)) (r : Request) : Request :=
  match found with
  | None => r
  | Some (u, sid) => let c := Ctx r in withCtx (mkContext (ctxRequestID c) (ctxClientIP c) sid (Some u) (ctxErrorID c)) r
  end.
Definition SessionAuth (cfg : SessionConfig) (proxy : option ProxyAuth) : Layer := fun next r w =>
  let '(found, w) := cookieSession cfg r w in
  let name := username proxy r in
  let '(found, w) :=
    if negb (bool_decide (name = "")) && negb (match found with Some (u, _) => bool_decide (pUsername u = name) | None => false end)
    then if safeMethod (Method r) then signIn cfg r name w else (None, w)
    else (found, w) in
  next (withSession found r) w.

(** ** csrf.go *)

Definition CSRFCookie : string := "valmin_csrf".
Definition CSRFHeader : string := "X-CSRF-Token".
Definition CSRFToken (k : Keeper) (sessionID : string) : result TxErr string :=
  match MAC k PurposeCSRF (L sessionID) with
  | Err e => Err e
  | Ok mac => Ok (S_ (EncodeToString urlAlphabet mac))
  end.
Definition SetCSRFCookie (token : string) : Writer -> Writer := SetCookie (mkCookie CSRFCookie token "/" 0 None false true true).
Definition ClearCSRFCookie : Writer -> Writer := SetCookie (mkCookie CSRFCookie "" "/" (-1) None false true true).
Definition stateChanging (m : string) : bool :=
  bool_decide (m = "POST") || bool_decide (m = "PUT") || bool_decide (m = "PATCH") || bool_decide (m = "DELETE").

Definition CSRF (k : Keeper) : Layer := fun next r w =>
  let session := ctxSessionID (Ctx r) in
  if bool_decide (session = "") then next r w
  else match CSRFToken k session with
       | Err _ => (Returned, refuse r Internal None w)
       | Ok want =>
           if negb (stateChanging (Method r)) then next r (withOut (SetCSRFCookie want) w)
           else if negb (bool_decide (Get r CSRFHeader = want)) then (Returned, refuse r CSRFFailed None w)
           else next r w
       end.

(** ** The chain *)

Record Config := mkConfig {
  TrustedProxies : list Prefix; ExternalURL : option (string * string); BodyCap : Z; LargeBody : option (Request -> bool);
  CSRFKeeper : Keeper; Bootstrap : bool; Sessions : option SessionConfig; Proxy : option ProxyAuth
}.

Definition Chain (cfg : Config) : list Layer :=
  [Recover; RequestID; ClientIP (TrustedProxies cfg); SecurityHeaders; BodyLimit (BodyCap cfg) (LargeBody cfg); Origin (ExternalURL cfg)]
  ++ (if Bootstrap cfg then [SetupGate] else [])
  ++ [RateLimit]
  ++ (match Sessions cfg with Some s => [SessionAuth s (Proxy cfg)] | None => [] end)
  ++ [CSRF (CSRFKeeper cfg); AuthRateLimit].

Definition PublicChain (trusted : list Prefix) : list Layer := [Recover; RequestID; ClientIP trusted; SecurityHeaders; RateLimit].

(** [layers[0]] is the outermost. *)
Definition Apply (h : Handler) (layers : list Layer) : Handler := fold_right (fun layer h => layer h) h layers.

End Chain.
