(* ===== verification/MiddlewareSafe.v ===== *)
(** What the chain promises: the nested layers decide as one list of questions, who
    gets through it, what a refusal answers, and whose address a request counts
    under. *)
From S2P Require Import Prelude GoBytes Lifecycle Sql Store Authz UserStore UserLaws AccountSafe Argon Auth AuthSafe Keeper Netip Limiter Errcode Middleware.

Open Scope Z_scope.

Section Chain.
Context `{Crypt, Cipher}.
Context (range : gmap string bucket -> list (string * bucket)) (d : Draws) (cfg : Config).

(** ** The questions, in order *)

(** A request that goes on, or the world its refusal leaves. *)
Definition Verdict := result World (Request * World).

Definition identified (r : Request) : Request :=
  withCtx (mkContext (drawID d) (resolveIP r (TrustedProxies cfg)) (ctxSessionID (Ctx r)) (ctxUser (Ctx r)) (drawID d)) r.
Definition stamped (w : World) : World := withOut securityHeaders (withOut (Set_ "X-Request-Id" (drawID d)) w).

Definition large (r : Request) : bool := match LargeBody cfg with Some f => f r | None => false end.
Definition askBody (r : Request) (w : World) : Verdict :=
  if large r then Ok (r, w)
  else if BodyCap cfg <? ContentLength r then Err (refuse r PayloadTooLarge (Some (BodyCap cfg)) w)
  else Ok (withCap (BodyCap cfg) r, w).
Definition askOrigin (r : Request) (w : World) : Verdict :=
  if bool_decide (is_Some (crossSite r (originOf (ExternalURL cfg)))) then Err (refuse r OriginRejected None w) else Ok (r, w).
Definition askGate (r : Request) (w : World) : Verdict :=
  if Bootstrap cfg && pending w && negb (exempt (Path r)) then Err (refuse r SetupRequired None w) else Ok (r, w).
Definition askLimit (l : option Limiter) (put : Limiter -> World -> World) (now : Z) (key : string) (r : Request) (w : World) : Verdict :=
  match l with
  | None => Ok (r, w)
  | Some l =>
      if bool_decide (key = "") then Ok (r, w)
      else let '((ok, retry), l') := Allow range now key l in
           if ok then Ok (r, put l' w) else Err (RefuseRateLimited r retry (put l' w))
  end.

(** Whose session: the cookie's, unless the proxy names someone else. *)
Definition whose (s : SessionConfig) (r : Request) (w : World) : option (PUser * string) * World :=
  let '(found, w) := cookieSession d s r w in
  let name := username (Proxy cfg) r in
  if bool_decide (name = "") || bool_decide (Some name = pUsername ∘ fst <$> found) then (found, w)
  else if safeMethod (Method r) then signIn d s r name w
  else (None, w).
Definition askSession (r : Request) (w : World) : Request * World :=
  match Sessions cfg with
  | None => (r, w)
  | Some s => let '(found, w) := whose s r w in (withSession found r, w)
  end.
Definition askCSRF (r : Request) (w : World) : Verdict :=
  let session := ctxSessionID (Ctx r) in
  if bool_decide (session = "") then Ok (r, w)
  else match CSRFToken (CSRFKeeper cfg) session with
       | Err _ => Err (refuse r Internal None w)
       | Ok want =>
           if negb (stateChanging (Method r)) then Ok (r, withOut (SetCSRFCookie want) w)
           else if bool_decide (Get r CSRFHeader = want) then Ok (r, w)
           else Err (refuse r CSRFFailed None w)
       end.

Definition admission (r : Request) (w : World) : Verdict :=
  let? (r, w) := askBody (identified r) (stamped w) in
  let? (r, w) := askOrigin r w in
  let? (r, w) := askGate r w in
  let? (r, w) := askLimit (perIP w) putIP (ipNow d) (ClientKey (Ctx r)) r w in
  let (r, w) := askSession r w in
  let? (r, w) := askCSRF r w in
  askLimit (perUser w) putUser (userNow d) (match ctxUser (Ctx r) with Some u => pID u | None => "" end) r w.

(** A handler run under the outermost layer. *)
Definition recovered (r : Request) (x : Outcome * World) : Outcome * World :=
  match x with
  | (Panicked OtherPanic, w') => (Returned, refuse r Internal None w')
  | x => x
  end.

Definition through (v : Verdict) (h : Handler) : Outcome * World :=
  match v with Ok (r, w) => h r w | Err w => (Returned, w) end.

Lemma through_bind v k h : through (rbind v k) h = through v (fun r w => through (k (r, w)) h).
Proof. by destruct v as [[r w]|w]. Qed.

Lemma BodyLimit_asks next r w : BodyLimit (BodyCap cfg) (LargeBody cfg) next r w = through (askBody r w) next.
Proof. unfold BodyLimit, askBody, large. by repeat case_match. Qed.
Lemma Origin_asks next r w : Origin (ExternalURL cfg) next r w = through (askOrigin r w) next.
Proof. unfold Origin, askOrigin. by destruct (crossSite _ _). Qed.
Lemma Gate_asks next r w : (if Bootstrap cfg then SetupGate next else next) r w = through (askGate r w) next.
Proof. unfold askGate. destruct (Bootstrap cfg); [|done]. unfold SetupGate. cbn [andb]. by destruct (_ && _). Qed.
Lemma Limit_asks lim put now key next r w :
  keyedRateLimit range lim put now key next r w = through (askLimit (lim w) put now (key r) r w) next.
Proof.
  unfold keyedRateLimit, askLimit. destruct (lim w) as [l|]; [|done]. destruct (bool_decide _); [done|].
  destruct (Allow _ _ _ _) as [[[] retry] l']; done.
Qed.
Lemma Session_asks next r w :
  match Sessions cfg with Some s => SessionAuth d s (Proxy cfg) next | None => next end r w = (let (r, w) := askSession r w in next r w).
Proof.
  unfold askSession. destruct (Sessions cfg) as [s|]; [|done]. unfold SessionAuth, whose.
  destruct (cookieSession d s r w) as [found w1]. set (name := username (Proxy cfg) r).
  destruct (bool_decide_reflect (name = "")) as [Hn|Hn]; cbn [negb andb orb]; [done|].
  assert (bool_decide (Some name = pUsername ∘ fst <$> found) = match found with Some (u, _) => bool_decide (pUsername u = name) | None => false end) as ->.
  { destruct found as [[u sid]|]; [|done]. cbn. apply bool_decide_ext. split; [by intros [= ->]|by intros ->]. }
  destruct (match found with Some (u, _) => bool_decide (pUsername u = name) | None => false end); cbn [negb]; [done|].
  destruct (safeMethod (Method r)); [|done]. by destruct (signIn d s r name w1).
Qed.
Lemma CSRF_asks next r w : CSRF (CSRFKeeper cfg) next r w = through (askCSRF r w) next.
Proof.
  unfold CSRF, askCSRF. destruct (bool_decide _); [done|]. destruct (CSRFToken _ _); [|done]. destruct (negb (stateChanging _)); [done|].
  by destruct (bool_decide _).
Qed.

Lemma Recover_asks next r w : Recover next r w = recovered r (next r w).
Proof. unfold Recover, recovered. by destruct (next r w) as [[|[]] w']. Qed.
Lemma Prepared next r w :
  RequestID d (ClientIP (TrustedProxies cfg) (SecurityHeaders next)) r w = next (identified r) (stamped w).
Proof. reflexivity. Qed.

Lemma Apply_app h l1 l2 : Apply h (l1 ++ l2) = Apply (Apply h l2) l1.
Proof. apply fold_right_app. Qed.

(** C32. The nested layers are a list of questions: a request that answers them all
    reaches the handler once, as they leave it, and any other is answered without
    it; a panic of the handler is answered too, unless it gave up the connection. *)
Theorem chain_is_admission h r w :
  Apply h (Chain range d cfg) r w =
  recovered r (match admission r w with Ok (r', w') => h r' w' | Err w' => (Returned, w') end).
Proof.
  change (match admission r w with Ok (r', w') => h r' w' | Err w' => (Returned, w') end) with (through (admission r w) h).
  unfold Chain. rewrite !Apply_app. unfold Apply at 1. cbn [fold_right]. rewrite Recover_asks. f_equal.
  rewrite Prepared. unfold admission. rewrite BodyLimit_asks, through_bind.
  assert (forall v (f g : Handler), (forall r w, f r w = g r w) -> through v f = through v g) as Hext by (intros [[]|] ? ? Hfg; [apply Hfg|done]).
  apply Hext. clear r w. intros r w. rewrite Origin_asks, through_bind. apply Hext. clear r w. intros r w.
  rewrite through_bind. unfold Apply at 1.
  transitivity ((if Bootstrap cfg then SetupGate (Apply (Apply (Apply h [CSRF (CSRFKeeper cfg); AuthRateLimit range d])
    match Sessions cfg with Some s => [SessionAuth d s (Proxy cfg)] | None => [] end) [RateLimit range d])
    else (Apply (Apply (Apply h [CSRF (CSRFKeeper cfg); AuthRateLimit range d])
    match Sessions cfg with Some s => [SessionAuth d s (Proxy cfg)] | None => [] end) [RateLimit range d])) r w); [by destruct (Bootstrap cfg)|].
  rewrite Gate_asks. apply Hext. clear r w. intros r w. rewrite through_bind. unfold Apply at 1. cbn [fold_right]. unfold RateLimit. rewrite Limit_asks.
  apply Hext. clear r w. intros r w.
  transitivity (match Sessions cfg with Some s => SessionAuth d s (Proxy cfg) (Apply h [CSRF (CSRFKeeper cfg); AuthRateLimit range d])
    | None => Apply h [CSRF (CSRFKeeper cfg); AuthRateLimit range d] end r w); [by destruct (Sessions cfg)|].
  rewrite Session_asks. destruct (askSession r w) as [r1 w1]. rewrite through_bind. unfold Apply. cbn [fold_right]. rewrite CSRF_asks. apply Hext.
  clear r w r1 w1. intros r w. unfold AuthRateLimit. by rewrite Limit_asks.
Qed.

(** ** Who gets through *)

(** A session the request's cookie names. *)
Definition byCookie (r : Request) (db : UDB) (u : PUser) (sid : string) : Prop :=
  exists v x row, CookieOf r SessionCookie = Some v /\ hashToken (L v) = Some (sToken x) /\ tSessions db !! sid = Some x /\
    ((authNow d).1.1 < sIdle x) /\ ((authNow d).1.2 < sAbs x) /\ tUsers db !! sUser x = Some row /\ uDisabled row = false /\
    u = joinedUser (sUser x) row.

(** A session opened for the user the proxy names. *)
Definition byProxy (r : Request) (db : UDB) (u : PUser) (sid : string) : Prop :=
  exists p id row, Proxy cfg = Some p /\ isTrusted (peerAddr (RemoteAddr r)) (pxTrusted p) = true /\
    uUsername row = username (Some p) r /\ safeMethod (Method r) = true /\ sid = (openWith d).1.1 /\
    tUsers db !! id = Some row /\ uDisabled row = false /\ uRole row <> RoleAdmin /\ u = userOf id row.

Lemma Authenticate_users s cookie n1 n2 n3 t r t' : Authenticate s cookie n1 n2 n3 t = (r, t') -> tUsers t'.1 = tUsers t.1.
Proof.
  unfold Authenticate, tbind. destruct (hashToken cookie); [|by intros [= _ <-]].
  destruct (SessionAndUser _ _ _ t) as [[[[[sid x] u]|]|e] t1] eqn:E; apply readq_state in E; [|by intros [= _ <-]; rewrite E..].
  destruct (pDisabled u); [by intros [= _ <-]; rewrite E|].
  destruct (TouchSession _ _ _ _ t1) as [[?|?] t2] eqn:Et; apply writeq_cases in Et as [[_ Et]|[_ Et]]; intros [= _ <-]; rewrite Et, <- ?E; try done;
    by repeat case_match.
Qed.

Lemma cookieSession_found s r w found w' : cookieSession d s r w = (found, w') ->
  (forall u sid, found = Some (u, sid) -> byCookie r (tables w).1 u sid) /\ tUsers (tables w').1 = tUsers (tables w).1 /\
  pending w' = pending w /\ perIP w' = perIP w /\ perUser w' = perUser w /\ out w' = out w.
Proof.
  unfold cookieSession. destruct (CookieOf r SessionCookie) as [v|] eqn:Ec; [|by intros [= <- <-]].
  destruct (decide (v = "")) as [->|Hv]; [by intros [= <- <-]|].
  assert (match v with "" => (None, w) | _ => let '(n1, n2, n3) := authNow d in match Authenticate s (L v) n1 n2 n3 (tables w) with
      | (Ok found, t) => (found, withTables t w) | (Err _, t) => (None, withTables t w) end end =
    let '(n1, n2, n3) := authNow d in match Authenticate s (L v) n1 n2 n3 (tables w) with
      | (Ok found, t) => (found, withTables t w) | (Err _, t) => (None, withTables t w) end) as -> by (by destruct v).
  destruct (authNow d) as [[n1 n2] n3] eqn:En.
  destruct (Authenticate s (L v) n1 n2 n3 (tables w)) as [[fnd|e] t] eqn:E; intros [= <- <-].
  - split.
    + intros u sid ->. apply Authenticate_opens in E as (x & row & Hs & Hh & [H1 H2] & Hu & Hd & -> & _).
      unfold byCookie. rewrite En. by exists v, x, row.
    + split; [|done]. by apply Authenticate_users in E.
  - split; [done|]. split; [|done]. by apply Authenticate_users in E.
Qed.

Lemma LoginTrusted_Ok s name o t l t' : LoginTrusted s name o t = (Ok l, t') ->
  exists id row, tUsers t.1 !! id = Some row /\ uUsername row = name /\ uDisabled row = false /\ uRole row <> RoleAdmin /\
    lUser l = userOf id row /\ lSessionID l = oID o.
Proof.
  unfold LoginTrusted. intros (rec & t1 & [Ht Hrec]%UserForLogin_Ok & E)%tbind_Ok. destruct rec as [rec|]; [|done].
  destruct Hrec as (id & row & Hrow & Hname & ->). cbn [aUser scanUser pDisabled pRole userOf] in E.
  destruct (uDisabled row) eqn:Hd; [done|]. destruct (bool_decide_reflect (uRole row = RoleAdmin)) as [|Hr]; [done|].
  unfold openSession in E. cbn [NewSessionToken] in E. apply tbind_Ok in E as (u & t2 & _ & E). apply tbind_Ok in E as (u2 & t3 & _ & [= <- _]).
  exists id, row. done.
Qed.

Lemma sameLimits_out f w : pending (withOut f w) = pending w /\ perIP (withOut f w) = perIP w /\ perUser (withOut f w) = perUser w.
Proof. done. Qed.

Lemma signIn_found s r name w found w' p : Proxy cfg = Some p -> isTrusted (peerAddr (RemoteAddr r)) (pxTrusted p) = true ->
  name = username (Some p) r -> safeMethod (Method r) = true -> signIn d s r name w = (found, w') ->
  (forall u sid, found = Some (u, sid) -> byProxy r (tables w).1 u sid) /\ pending w' = pending w /\ perIP w' = perIP w /\ perUser w' = perUser w /\
  wSent (out w') = wSent (out w) /\ wHeader (out w') = wHeader (out w).
Proof.
  intros Hp Htr Hn Hm. unfold signIn. destruct (openWith d) as [[oid raw] now] eqn:Eo.
  destruct (LoginTrusted _ _ _ _) as [[l|e] t] eqn:E; intros [= <- <-]; [|done]. split; [|done].
  intros u sid [= <- <-]. apply LoginTrusted_Ok in E as (id & row & Hrow & Hname & Hd & Hr & -> & ->).
  exists p, id, row. rewrite Eo. split_and!; try done. congruence.
Qed.

Definition named (r : Request) : string := username (Proxy cfg) r.

Lemma whose_found s r w found w' : whose s r w = (found, w') ->
  (forall u sid, found = Some (u, sid) ->
     (byCookie r (tables w).1 u sid \/ byProxy r (tables w).1 u sid) /\ (named r = "" \/ pUsername u = named r)) /\
  pending w' = pending w /\ perIP w' = perIP w /\ perUser w' = perUser w /\ wSent (out w') = wSent (out w) /\ wHeader (out w') = wHeader (out w).
Proof.
  unfold whose. destruct (cookieSession d s r w) as [f w1] eqn:Ec. apply cookieSession_found in Ec as (Hf & Hu & Hp & Hi & Hus & Ho).
  unfold named. destruct (bool_decide_reflect (username (Proxy cfg) r = "")) as [Hn|Hn]; cbn [orb].
  { intros [= <- <-]. rewrite Ho. split; [|done]. intros u sid Hfound. split; [left; by apply Hf|by left]. }
  destruct (bool_decide_reflect (Some (username (Proxy cfg) r) = pUsername ∘ fst <$> f)) as [Hsame|Hne].
  { intros [= <- <-]. rewrite Ho. split; [|done]. intros u sid ->. split; [left; by apply Hf|right]. cbn in Hsame. congruence. }
  destruct (safeMethod (Method r)) eqn:Hm; [|intros [= <- <-]; rewrite Ho; done].
  destruct (Proxy cfg) as [p|] eqn:Epx; [|by destruct Hn]. cbn [username] in Hn.
  destruct (isTrusted (peerAddr (RemoteAddr r)) (pxTrusted p)) eqn:Htr; [|done].
  intros E. eapply (signIn_found s r _ w1 found w' p) in E as (Hs & E1 & E2 & E3 & E4 & E5); [|done..].
  split; [|by rewrite E1, E2, E3, E4, E5, Hp, Hi, Hus, Ho]. intros u sid Hfound. specialize (Hs u sid Hfound).
  destruct Hs as (p' & id & row & Hpx & Ht' & Hname & Hmm & Hsid & Hrow & Hd & Hrole & ->).
  assert (p' = p) as -> by congruence. split.
  - right. exists p, id, row. rewrite Hu in Hrow. split_and!; done.
  - right. exact Hname.
Qed.

(** ** Through the chain *)

Lemma Ok_bind {E A B} (v : result E A) (k : A -> result E B) b : rbind v k = Ok b -> exists a, v = Ok a /\ k a = Ok b.
Proof. destruct v; [eauto|done]. Qed.

Lemma askLimit_Ok l put now key r w r' w' : askLimit l put now key r w = Ok (r', w') ->
  r' = r /\ (w' = w \/ exists l', w' = put l' w).
Proof.
  unfold askLimit. destruct l as [l|]; [|intros [= <- <-]; auto]. destruct (bool_decide _); [intros [= <- <-]; auto|].
  destruct (Allow _ _ _ _) as [[[] retry] l']; [|done]. intros [= <- <-]. eauto.
Qed.


(** ** Refusals *)

(** A response an error answered: its status, and the headers every answer has. *)
Definition answeredWith (c : Code) (w : World) : Prop :=
  exists x, wSent (out w) = Some x /\ sStatus x = Status c /\ sHeader x !! "X-Request-Id" = Some (drawID d) /\
    sHeader x !! "X-Content-Type-Options" = Some "nosniff" /\ sHeader x !! "X-Frame-Options" = Some "DENY" /\
    sHeader x !! "Referrer-Policy" = Some "no-referrer" /\ sHeader x !! "Cache-Control" = Some "no-store" /\
    eCode <$> last (wBody (out w)) = Some c /\ eRequestID <$> last (wBody (out w)) = Some (drawID d).

(** What the first layers left on the response. *)
Definition prepared (r : Request) (w : World) : Prop :=
  wSent (out w) = None /\ ctxErrorID (Ctx r) = drawID d /\ wHeader (out w) !! "X-Request-Id" = Some (drawID d) /\
  wHeader (out w) !! "X-Content-Type-Options" = Some "nosniff" /\ wHeader (out w) !! "X-Frame-Options" = Some "DENY" /\
  wHeader (out w) !! "Referrer-Policy" = Some "no-referrer".

Lemma Write_sent r c limit x : Status c <> 0 -> wSent x = None ->
  wSent (Write r c limit x) = Some (mkSent (Status c) (<["Cache-Control" := "no-store"]> (<["Content-Type" := "application/json"]> (wHeader x))) (wCookies x)) /\
  exists l, wBody (Write r c limit x) = wBody x ++
    [mkEnvelope c l (if bool_decide (ctxErrorID (Ctx r) = "") then default "" (wHeader x !! "X-Request-Id") else ctxErrorID (Ctx r))].
Proof.
  intros Hc Hs. unfold Write. rewrite (proj2 (Z.eqb_neq _ _) Hc). unfold WriteHeader, Set_. cbn [wSent wHeader wCookies wBody].
  rewrite Hs. split; [done|by eexists].
Qed.

Lemma refuse_answers r c limit w : Status c <> 0 -> prepared r w -> answeredWith c (refuse r c limit w).
Proof.
  intros Hc (Hs & Hid & H1 & H2 & H3 & H4). unfold answeredWith, refuse, withOut. cbn [out].
  destruct (Write_sent r c limit (out w) Hc Hs) as [-> [l ->]]. eexists. split; [reflexivity|]. cbn [sStatus sHeader].
  rewrite last_snoc. rewrite !lookup_insert_ne by done. rewrite lookup_insert_eq. split_and!; try done. cbn [fmap option_fmap option_map eRequestID].
  rewrite Hid, H1. cbn [default]. by case_bool_decide.
Qed.

Lemma prepared_put r w w' : prepared r w -> out w' = out w -> prepared r w'.
Proof. unfold prepared. by intros Hp ->. Qed.
Lemma prepared_headers r w w' : prepared r w -> wSent (out w') = wSent (out w) -> wHeader (out w') = wHeader (out w) -> prepared r w'.
Proof. unfold prepared. by intros Hp -> ->. Qed.
Lemma prepared_start r w : wSent (out w) = None -> prepared (identified r) (stamped w).
Proof.
  intros Hs. unfold prepared, stamped, withOut. cbn.
  split_and!; try done; repeat (rewrite lookup_insert_eq || rewrite lookup_insert_ne by done); done.
Qed.

Lemma askLimit_Err l put now key r w w' : (forall l w, out (put l w) = out w /\ tables (put l w) = tables w) -> prepared r w ->
  askLimit l put now key r w = Err w' -> answeredWith RateLimited w' /\ tables w' = tables w.
Proof.
  intros Hput Hp. unfold askLimit. destruct l as [l|]; [|done]. destruct (bool_decide _); [done|].
  destruct (Allow _ _ _ _) as [[[] retry] l']; [done|]. intros [= <-]. unfold RefuseRateLimited. split; [|apply Hput].
  apply refuse_answers; [done|]. unfold prepared in *. cbn. destruct (Hput l' w) as [-> _].
  rewrite !lookup_insert_ne by done. done.
Qed.

End Chain.

(** ** Addresses *)

Definition parsedEntries (headers : list string) : list Addr :=
  omap (fun e => Unmap <$> ParseAddr (trimSpace e)) (concat (map (fun h => split ","%char (L h)) headers)).

Lemma lastUntrusted_spec entries trusted :
  lastUntrusted entries trusted = head (filter (fun a => isTrusted a trusted = false) (omap (fun e => Unmap <$> ParseAddr (trimSpace e)) entries)).
Proof.
  induction entries as [|e entries IH]; [done|]. cbn [lastUntrusted omap list_omap].
  destruct (ParseAddr (trimSpace e)) as [a|]; cbn [fmap option_fmap option_map]; [|done].
  destruct (isTrusted (Unmap a) trusted) eqn:E.
  - rewrite filter_cons_False by congruence. done.
  - by rewrite filter_cons_True.
Qed.

Lemma omap_app_ {A B} (f : A -> option B) l1 l2 : omap f (l1 ++ l2) = omap f l1 ++ omap f l2.
Proof. induction l1 as [|x l1 IH]; [done|]. cbn. destruct (f x); cbn; by rewrite IH. Qed.

Lemma scanHeaders_spec headers trusted :
  scanHeaders headers trusted =
  head (filter (fun a => isTrusted a trusted = false)
    (omap (fun e => Unmap <$> ParseAddr (trimSpace e)) (concat (map (fun h => rev (split ","%char (L h))) headers)))).
Proof.
  induction headers as [|h headers IH]; [done|]. cbn [scanHeaders map concat]. rewrite omap_app_, filter_app, lastUntrusted_spec, IH.
  by destruct (filter _ (omap _ (rev _))).
Qed.

(** C31. Whose address a request counts under, as documented: a peer that is no
    trusted proxy counts as itself whatever it claims; behind a trusted one, the
    address is the last entry of all the forwarding headers together that is an
    address and no trusted proxy's, or the peer's when there is none. *)
Theorem resolveIP_spec r trusted :
  resolveIP r trusted =
  if isTrusted (peerAddr (RemoteAddr r)) trusted
  then default (peerAddr (RemoteAddr r))
         (last (filter (fun a => isTrusted a trusted = false) (parsedEntries (Values r "X-Forwarded-For"))))
  else peerAddr (RemoteAddr r).
Proof.
  unfold resolveIP. destruct (isTrusted _ trusted); [|done]. cbn [negb]. unfold rightmostUntrusted. rewrite scanHeaders_spec.
  assert (forall hs, omap (fun e => Unmap <$> ParseAddr (trimSpace e)) (concat (map (fun h => rev (split ","%char (L h))) (rev hs))) = rev (parsedEntries hs)) as ->.
  { intros hs. unfold parsedEntries. induction hs as [|h hs IH]; [done|]. cbn [rev map concat].
    rewrite map_app, concat_app, omap_app_, IH. cbn [map concat]. rewrite app_nil_r, omap_app_, rev_app_distr. f_equal.
    induction (split ","%char (L h)) as [|e es IHe]; [done|]. cbn [rev]. rewrite omap_app_, IHe. cbn.
    destruct (ParseAddr (trimSpace e)); cbn; by rewrite ?app_nil_r. }
  assert (forall l, filter (fun a => isTrusted a trusted = false) (rev l) = rev (filter (fun a => isTrusted a trusted = false) l)) as ->.
  { induction l as [|a l IH]; [done|]. cbn [rev]. rewrite filter_app, IH. destruct (decide (isTrusted a trusted = false)) as [Ha|Ha].
    - by rewrite !filter_cons_True.
    - rewrite !filter_cons_False by done. cbn. by rewrite app_nil_r. }
  assert (forall l : list Addr, head (rev l) = last l) as -> by (intros l; rewrite rev_alt; apply head_reverse).
  by destruct (last _).
Qed.
