(* ===== verification/MiddlewareWitness.v ===== *)
(** Concrete requests for the properties of the chain, over the panel of the account
    properties and the cipher of the secrets. *)
From S2P Require Import Prelude GoBytes Lifecycle Sql Store Authz UserStore UserLaws AccountSafe Argon Auth AuthSafe AuthWitness.
From S2P Require Import Keeper SecretWitness Netip Limiter Errcode Middleware MiddlewareSafe.

Open Scope Z_scope.

#[local] Existing Instances toyCrypt plainCipher.

Definition proxies : list Prefix := match ParseAddr (L "10.0.0.0") with Some a => [mkPrefix a 8] | None => [] end.
Definition panelConfig : Config :=
  mkConfig proxies (Some ("https", "panel.example")) 1048576 None keeper0 true (Some cfg0) (Some (mkProxyAuth "X-Remote-User" proxies)).
Definition someDraws : Draws := mkDraws "req-1" (50, 50, 60) ("s9", L "xyz", 70) 1000 1000.
Definition aToken : string := match CSRFToken keeper0 "s0" with Ok t => t | Err _ => "" end.

(** A write through the proxy, with the session's cookie and [token]. *)
Definition postWith (token : string) (size : Z) : Request :=
  mkRequest "POST" "/api/v1/instances" (L "10.0.0.7:4711")
    {["Origin" := ["https://panel.example"]; "X-Csrf-Token" := [token];
      "X-Forwarded-For" := ["198.51.100.7, 203.0.113.9"; "10.1.2.3, junk"]]}
    [(SessionCookie, S_ cookie0)] size [] background.
Definition panelWorld : World := mkWorld (panelDB, []) false (Some (New 10 second_ 10)) (Some (New 10 second_ 10)) freshWriter.

Definition verdict (token : string) (size : Z) : Verdict := admission inOrder someDraws panelConfig (postWith token size) panelWorld.



(** The whole stack on the same requests. *)
Definition okHandler : Handler := fun r w => (Returned, withOut (WriteHeader 200) w).
Definition served (token : string) (size : Z) : option Z :=
  sStatus <$> wSent (out (Apply okHandler (Chain inOrder someDraws panelConfig) (postWith token size) panelWorld).2).
Example stack_runs : served aToken 100 = Some 200 /\ served "no" 100 = Some 403 /\ served aToken 2000000 = Some 413.
Proof. vm_compute. repeat split. Qed.
