(* ===== verification/Retention.v ===== *)
(** Which archives retention removes (internal/backup/prune.go, with the classes
    of internal/backup/remotecopy/retention.go): the loop over a catalogue, newest
    first, and the reference it is equal to. *)
From S2P Require Import Prelude.

(** ** Data *)

(** [retentionClass]: cold archives are taken with the server stopped, hot ones
    while it ran, snapshots of a world about to be replaced. *)
Inductive retentionClass := classCold | classHot | classSnapshot.

#[export] Instance retentionClass_eq_dec : EqDecision retentionClass.
Proof. solve_decision. Defined.

Record Entry := mkEntry {
  eID : string; Path : string; Consistent : bool; Snapshot : bool; Pinned : bool; Flagged : bool
}.

Record Policy := mkPolicy { KeepCold : Z; KeepHot : Z }.

(** One class's tally during a walk. *)
Record classCount := mkCount { kept : Z; sawUnflagged : bool }.

(** The three local tallies of the loop. *)
Definition Tally := retentionClass -> classCount.
Definition noTally : Tally := fun _ => mkCount 0 false.
Definition tallied (c : retentionClass) (n : classCount) (t : Tally) : Tally :=
  fun d => if decide (d = c) then n else t d.

(** The [switch] of the loop: which tally an archive counts in, and its limit. *)
Definition entryClass (a : Entry) : retentionClass :=
  if Snapshot a then classSnapshot else if Consistent a then classCold else classHot.
Definition policyLimit (policy : Policy) (c : retentionClass) : Z :=
  match c with classHot => KeepHot policy | _ => KeepCold policy end.

(** ** The loop *)

Fixpoint pruneFrom (policy : Policy) (t : Tally) (archives : list Entry) : list Entry :=
  match archives with
  | [] => []
  | a :: rest =>
      if Pinned a then pruneFrom policy t rest
      else
        let class := entryClass a in
        let limit := policyLimit policy class in
        let lastGood := negb (Snapshot a) && negb (Flagged a) && negb (sawUnflagged (t class)) in
        let t := if lastGood then tallied class (mkCount (kept (t class)) true) t else t in
        if (limit <=? 0)%Z then pruneFrom policy t rest
        else if (kept (t class) <? limit)%Z
        then pruneFrom policy (tallied class (mkCount (kept (t class) + 1) (sawUnflagged (t class))) t) rest
        else if lastGood then pruneFrom policy t rest
        else a :: pruneFrom policy t rest
  end.

Definition Prune (archives : list Entry) (policy : Policy) : list Entry :=
  pruneFrom policy noTally archives.

(** ** The reference

    Stated for any catalogue: an item has a class and may be flagged; the items
    before it in the list are the newer ones. *)
Section Reference.
Context {A : Type} (class : A -> retentionClass) (flagged : A -> bool) (limit : retentionClass -> Z).

(** The newer items of its class. *)
Definition peers (x : A) (newer : list A) : list A := filter (fun y => class y = class x) newer.

(** The newest item of its class the world check did not flag. *)
Definition lastGoodOf (newer : list A) (x : A) : bool :=
  negb (bool_decide (class x = classSnapshot)) && negb (flagged x) && forallb flagged (peers x newer).

Definition over (newer : list A) (x : A) : bool :=
  (0 <? limit (class x))%Z && (limit (class x) <=? Z.of_nat (length (peers x newer)))%Z && negb (lastGoodOf newer x).

(** The items past their limit, [newer] being those already passed, in any
    order. *)
Fixpoint overs (newer l : list A) : list A :=
  match l with
  | [] => []
  | x :: l => if over newer x then x :: overs (x :: newer) l else overs (x :: newer) l
  end.

(** The rest. *)
Fixpoint keeps (newer l : list A) : list A :=
  match l with
  | [] => []
  | x :: l => if over newer x then keeps (x :: newer) l else x :: keeps (x :: newer) l
  end.

(** *** Laws *)

Lemma peers_cons x y l : peers x (y :: l) = if decide (class y = class x) then y :: peers x l else peers x l.
Proof. unfold peers. rewrite filter_cons. done. Qed.

(** The verdict on an item needs only the newer items of its class. *)
Lemma over_peers newer newer' x : peers x newer = peers x newer' -> over newer x = over newer' x.
Proof. unfold over, lastGoodOf. by intros ->. Qed.

Lemma peers_class x y l : class x = class y -> peers x l = peers y l.
Proof. unfold peers. by intros ->. Qed.

(** What the kept items of a class say about the newer ones: as many as there
    were up to the limit, and the newest good one among them. *)
Definition agrees (newer newer' : list A) : Prop := forall x,
  ((0 < limit (class x))%Z ->
   Z.min (limit (class x)) (Z.of_nat (length (peers x newer))) =
   Z.min (limit (class x)) (Z.of_nat (length (peers x newer')))) /\
  (class x <> classSnapshot -> forallb flagged (peers x newer) = forallb flagged (peers x newer')).

Lemma over_agrees newer newer' x : agrees newer newer' -> over newer x = over newer' x.
Proof.
  intros H. destruct (H x) as [Hn Hf]. unfold over, lastGoodOf.
  destruct (0 <? limit (class x))%Z eqn:E; [|done]. prop_bool. specialize (Hn E). simpl. f_equal.
  - apply eq_true_iff_eq. rewrite !Z.leb_le. lia.
  - destruct (bool_decide _) eqn:Es; [done|]. prop_bool. by rewrite Hf.
Qed.

Lemma agrees_refl newer : agrees newer newer.
Proof. done. Qed.

Lemma agrees_cons newer newer' x : agrees newer newer' -> agrees (x :: newer) (x :: newer').
Proof.
  intros H y. destruct (H y) as [Hn Hf]. rewrite !peers_cons. destruct (decide _); [|done]. split.
  - intros Hp. specialize (Hn Hp). simpl. lia.
  - intros Hs. simpl. by rewrite Hf.
Qed.

(** Dropping an item past its limit leaves the verdicts on the older ones. *)
Lemma agrees_drop newer newer' x :
  agrees newer newer' -> over newer x = true -> agrees (x :: newer) newer'.
Proof.
  intros H Ho y. destruct (H y) as [Hn Hf]. rewrite peers_cons. destruct (decide _) as [E|]; [|done].
  unfold over, lastGoodOf in Ho. rewrite (peers_class x y newer E), E in Ho. prop_bool. split.
  - intros Hp. specialize (Hn Hp). simpl length. lia.
  - intros Hs. simpl. rewrite <- Hf by done. rewrite bool_decide_eq_false_2 in * by done. simpl in *.
    destruct (flagged x) eqn:Ex; [done|]. by destruct (forallb flagged (peers y newer)).
Qed.

Lemma overs_keeps_from newer newer' l : agrees newer newer' -> overs newer' (keeps newer l) = [].
Proof.
  revert newer newer'. induction l as [|x l IH]; intros newer newer' H; [done|]. simpl.
  destruct (over newer x) eqn:E.
  - apply IH. by apply agrees_drop.
  - simpl. rewrite <- (over_agrees _ _ _ H), E. apply IH. by apply agrees_cons.
Qed.

(** Dropping what is past its limit, all along, leaves the verdicts. *)
Lemma agrees_keeps newer newer' l : agrees newer newer' -> agrees (reverse l ++ newer) (reverse (keeps newer l) ++ newer').
Proof.
  revert newer newer'. induction l as [|x l IH]; intros newer newer' H; [done|]. simpl. rewrite reverse_cons, <- app_assoc.
  destruct (over newer x) eqn:E.
  - apply IH. by apply agrees_drop.
  - rewrite reverse_cons, <- app_assoc. apply IH. by apply agrees_cons.
Qed.

(** The kept items are the unmarked ones, where the marks are the verdicts. *)
Lemma keeps_marks (mark : A -> bool) newer l :
  (forall l1 x l2, l = l1 ++ x :: l2 -> mark x = over (reverse l1 ++ newer) x) ->
  filter (fun x => mark x = false) l = keeps newer l.
Proof.
  revert newer. induction l as [|x l IH]; intros newer H; [done|]. cbn [keeps]. rewrite filter_cons.
  rewrite (IH (x :: newer)); [rewrite (H [] x l) by done; simpl; by destruct (over newer x)|].
  intros l1 y l2 ->. rewrite (H (x :: l1) y l2) by done. by rewrite reverse_cons, <- app_assoc.
Qed.

(** Retention over what it kept removes nothing. *)
Lemma overs_keeps l : overs [] (keeps [] l) = [].
Proof. apply overs_keeps_from, agrees_refl. Qed.

Lemma overs_app newer l1 l2 : overs newer (l1 ++ l2) = overs newer l1 ++ overs (reverse l1 ++ newer) l2.
Proof.
  revert newer. induction l1 as [|x l1 IH]; intros newer; [done|]. simpl. rewrite reverse_cons, <- app_assoc.
  simpl. destruct (over newer x); simpl; by rewrite IH.
Qed.

(** An item is removed exactly when it is past its limit where it stands. *)
Lemma overs_elem newer l x :
  x ∈ overs newer l <-> exists l1 l2, l = l1 ++ x :: l2 /\ over (reverse l1 ++ newer) x = true.
Proof.
  revert newer. induction l as [|y l IH]; intros newer; simpl.
  - split; [by intros ?%elem_of_nil|]. by intros ([] & ? & ? & ?).
  - trans ((x = y /\ over newer y = true) \/ x ∈ overs (y :: newer) l).
    { destruct (over newer y); rewrite ?elem_of_cons; naive_solver. }
    rewrite IH. split.
    + intros [[-> H]|(l1 & l2 & -> & H)]; [by exists [], l|].
      exists (y :: l1), l2. split; [done|]. rewrite reverse_cons, <- app_assoc. exact H.
    + intros ([|z l1] & l2 & [= -> ->] & H); [by left|right].
      exists l1, l2. split; [done|]. rewrite reverse_cons, <- app_assoc in H. exact H.
Qed.

Lemma peers_perm x l l' : l ≡ₚ l' -> peers x l ≡ₚ peers x l'.
Proof. intros H. unfold peers. by rewrite H. Qed.

Lemma forallb_perm (f : A -> bool) l l' : l ≡ₚ l' -> forallb f l = forallb f l'.
Proof. intros H. apply eq_true_iff_eq. rewrite !forallb_elem_of. by setoid_rewrite H. Qed.

(** The order the newer items are listed in does not matter. *)
#[export] Instance over_perm : Proper ((≡ₚ) ==> eq ==> eq) over.
Proof.
  intros l l' H x ? <-. unfold over, lastGoodOf.
  by rewrite (forallb_perm _ _ _ (peers_perm x _ _ H)), (peers_perm x _ _ H).
Qed.

Lemma overs_sub newer l : overs newer l ⊆ l.
Proof. intros x (l1 & l2 & -> & _)%overs_elem. set_solver. Qed.

(** Where items are listed once, what is kept is what is not removed. *)
Lemma keeps_filter `{EqDecision A} newer l :
  NoDup l -> filter (fun x => x ∉ overs newer l) l = keeps newer l.
Proof.
  revert newer. induction l as [|x l IH]; intros newer Hnd; [done|].
  apply NoDup_cons in Hnd as [Hx Hnd]. cbn [overs keeps]. rewrite filter_cons, <- IH by done.
  destruct (over newer x).
  - rewrite decide_False by set_solver. apply filter_iff_in. intros y Hy. set_solver.
  - rewrite decide_True by (intros ?%overs_sub; done). done.
Qed.

End Reference.

(** ** The loop is the reference *)

#[export] Instance Entry_eq_dec : EqDecision Entry.
Proof. solve_decision. Defined.

Definition unpinned (archives : list Entry) : list Entry := filter (fun a => Pinned a = false) archives.

(** What the tallies hold after the archives [newer]. *)
Definition tallies (policy : Policy) (newer : list Entry) (t : Tally) : Prop := forall c,
  ((0 < policyLimit policy c)%Z ->
   kept (t c) = Z.min (policyLimit policy c) (Z.of_nat (length (filter (fun y => entryClass y = c) newer)))) /\
  (c <> classSnapshot -> sawUnflagged (t c) = negb (forallb Flagged (filter (fun y => entryClass y = c) newer))).

Lemma entryClass_snapshot a : Snapshot a = bool_decide (entryClass a = classSnapshot).
Proof. unfold entryClass. by destruct (Snapshot a), (Consistent a). Qed.

(** An archive adds itself to the tally of its own class. *)
Lemma tallies_cons policy newer t t' a :
  tallies policy newer t ->
  (forall c, c <> entryClass a -> t' c = t c) ->
  ((0 < policyLimit policy (entryClass a))%Z ->
   kept (t' (entryClass a)) = Z.min (policyLimit policy (entryClass a)) (kept (t (entryClass a)) + 1)) ->
  (entryClass a <> classSnapshot ->
   sawUnflagged (t' (entryClass a)) = sawUnflagged (t (entryClass a)) || negb (Flagged a)) ->
  tallies policy (a :: newer) t'.
Proof.
  intros Ht Hne Hk Hs c. rewrite filter_cons. destruct (decide (entryClass a = c)) as [<-|Hc].
  - destruct (Ht (entryClass a)) as [Hk' Hs']. split.
    + intros Hp. rewrite Hk, Hk' by done. simpl length. lia.
    + intros Hsn. rewrite Hs, Hs' by done. simpl. by destruct (Flagged a), (forallb _ _).
  - rewrite Hne by done. apply Ht.
Qed.

Lemma pruneFrom_overs policy newer t l :
  tallies policy newer t ->
  pruneFrom policy t l = overs entryClass Flagged (policyLimit policy) newer (unpinned l).
Proof.
  unfold unpinned. revert newer t. induction l as [|a l IH]; intros newer t Ht; [done|].
  rewrite filter_cons. simpl pruneFrom. destruct (Pinned a); [by apply IH|]. rewrite decide_True by done.
  simpl overs. destruct (Ht (entryClass a)) as [Hk Hs].
  set (lg := negb (Snapshot a) && negb (Flagged a) && negb (sawUnflagged (t (entryClass a)))).
  assert (lastGoodOf entryClass Flagged newer a = lg) as Elg.
  { unfold lg, lastGoodOf, peers. rewrite (entryClass_snapshot a). case_bool_decide; [done|].
    rewrite Hs, negb_involutive by done. done. }
  set (t1 := if lg then _ else t).
  assert (forall c, kept (t1 c) = kept (t c)) as Hk1.
  { intros c. subst t1. unfold tallied. destruct lg; [|done]. by destruct (decide _) as [->|]. }
  assert (forall c, c <> entryClass a -> t1 c = t c) as Hne1.
  { intros c Hc. subst t1. unfold tallied. destruct lg; [|done]. by rewrite decide_False. }
  assert (entryClass a <> classSnapshot ->
    sawUnflagged (t1 (entryClass a)) = sawUnflagged (t (entryClass a)) || negb (Flagged a)) as Hs1.
  { intros Hc. subst t1. unfold tallied, lg. rewrite (entryClass_snapshot a), bool_decide_eq_false_2 by done. simpl.
    destruct (Flagged a), (sawUnflagged (t _)) eqn:E; simpl; rewrite ?decide_True by done; done. }
  unfold over. rewrite Elg, Hk1. fold (peers entryClass a newer) in Hk.
  destruct (policyLimit policy (entryClass a) <=? 0)%Z eqn:E0; prop_bool.
  { rewrite (proj2 (Z.ltb_ge _ _)) by lia. simpl. apply IH. apply (tallies_cons _ _ t); [done..|lia|done]. }
  rewrite (proj2 (Z.ltb_lt 0 _)), Hk by lia. simpl.
  destruct (_ <? _)%Z eqn:Ek; prop_bool.
  { rewrite (proj2 (Z.leb_gt _ _)) by lia. simpl. apply IH. apply (tallies_cons _ _ t); [done|..].
    - intros c Hc. unfold tallied. rewrite decide_False by done. auto.
    - intros _. unfold tallied. rewrite decide_True by done. simpl. lia.
    - intros Hc. unfold tallied. rewrite decide_True by done. simpl. auto. }
  rewrite (proj2 (Z.leb_le _ _)) by lia. simpl.
  assert (tallies policy (a :: newer) t1) as Ht1.
  { apply (tallies_cons _ _ t); [done..| |done]. intros _. rewrite Hk1. lia. }
  destruct lg; simpl; by rewrite (IH _ _ Ht1).
Qed.

Lemma Prune_overs archives policy :
  Prune archives policy = overs entryClass Flagged (policyLimit policy) [] (unpinned archives).
Proof. apply pruneFrom_overs. intros c. split; [|done]. simpl. lia. Qed.

(** An element of a filtered list where it stands in the whole. *)
Lemma filter_split {A} (P : A -> Prop) `{forall x, Decision (P x)} l l1 x l2 :
  filter P l = l1 ++ x :: l2 -> exists k1 k2, l = k1 ++ x :: k2 /\ filter P k1 = l1.
Proof.
  revert l1. induction l as [|y l IH]; intros l1 H1; [by destruct l1|]. rewrite filter_cons in H1.
  destruct (decide (P y)) as [Hy|Hy].
  - destruct l1 as [|z l1]; injection H1 as -> H1; [by exists [], l|].
    apply IH in H1 as (k1 & k2 & -> & <-). exists (z :: k1), k2. split; [done|]. by rewrite filter_cons_True.
  - apply IH in H1 as (k1 & k2 & -> & <-). exists (y :: k1), k2. split; [done|]. by rewrite filter_cons_False.
Qed.

Lemma over_true {A} (class : A -> retentionClass) (flagged : A -> bool) limit newer x :
  over class flagged limit newer x = true <->
  (0 < limit (class x))%Z /\ (limit (class x) <= Z.of_nat (length (peers class x newer)))%Z /\
  (class x = classSnapshot \/ flagged x = true \/ exists y, y ∈ peers class x newer /\ flagged y = false).
Proof.
  unfold over, lastGoodOf. rewrite !andb_true_iff, Z.ltb_lt, Z.leb_le, negb_true_iff, <- !not_true_iff_false.
  rewrite !andb_true_iff, !negb_true_iff, forallb_elem_of, bool_decide_eq_false.
  split.
  - intros [[H1 H2] H3]. split_and!; [done..|]. destruct (decide (class x = classSnapshot)); [by left|].
    destruct (flagged x); [by right; left|]. right; right.
    destruct (existsb (fun y => negb (flagged y)) (peers class x newer)) eqn:E.
    + apply existsb_elem_of in E as (y & Hy & ?%negb_true_iff). eauto.
    + exfalso. apply H3. split_and!; [done..|]. intros y Hy. destruct (flagged y) eqn:Ey; [done|].
      apply not_true_iff_false in E. destruct E. apply existsb_elem_of. exists y. by rewrite Ey.
  - intros (H1 & H2 & H3). split; [done|]. intros ((H4 & H5) & H6). destruct H3 as [?|[?|(y & Hy & ?)]]; [done|congruence|].
    specialize (H6 _ Hy). congruence.
Qed.

(** ** Properties *)

(** [Prune] removes exactly the archives no setup or upload pins whose class
    has a limit with at least that many newer unpinned archives in the class, the
    newest unflagged cold and the newest unflagged hot archive excepted; so pinned
    archives, classes without a limit and the newest archives up to the limit
    stay, and one class never counts against another. *)
Theorem Prune_spec archives policy a :
  a ∈ Prune archives policy <->
  Pinned a = false /\ (0 < policyLimit policy (entryClass a))%Z /\
  exists newer older, archives = newer ++ a :: older /\
    let peers := filter (fun b => Pinned b = false /\ entryClass b = entryClass a) newer in
    (policyLimit policy (entryClass a) <= Z.of_nat (length peers))%Z /\
    (Snapshot a = true \/ Flagged a = true \/ exists b, b ∈ peers /\ Flagged b = false).
Proof.
  rewrite Prune_overs, overs_elem. unfold unpinned. split.
  - intros (l1 & l2 & Hl & Ho). rewrite app_nil_r, reverse_Permutation in Ho.
    assert (Pinned a = false) as Hp.
    { assert (a ∈ filter (fun a => Pinned a = false) archives) as [? _]%list_elem_of_filter; [|done].
      rewrite Hl. set_solver. }
    apply filter_split in Hl as (k1 & k2 & -> & <-). apply over_true in Ho as (H1 & H2 & H3).
    unfold peers in *. rewrite list_filter_filter in *. split_and!; [done..|]. exists k1, k2.
    split; [done|]. cbv zeta. rewrite (entryClass_snapshot a), bool_decide_eq_true.
    erewrite filter_iff_in by (intros; apply and_comm). done.
  - intros (Hp & Hl & newer & older & -> & H1 & H2). exists (filter (fun a => Pinned a = false) newer), (filter (fun a => Pinned a = false) older).
    split; [by rewrite filter_app, filter_cons_True|]. rewrite app_nil_r, reverse_Permutation. apply over_true.
    rewrite (entryClass_snapshot a), bool_decide_eq_true in H2. unfold peers. rewrite list_filter_filter.
    erewrite filter_iff_in by (intros; apply and_comm). done.
Qed.

(** What retention leaves of a catalogue, retention leaves alone: over the
    archives a run kept, a second run removes nothing. *)
Theorem Prune_settles archives policy :
  NoDup archives -> Prune (filter (fun a => a ∉ Prune archives policy) archives) policy = [].
Proof.
  intros Hnd. rewrite !Prune_overs.
  assert (unpinned (filter (fun a => a ∉ overs entryClass Flagged (policyLimit policy) [] (unpinned archives)) archives) =
    keeps entryClass Flagged (policyLimit policy) [] (unpinned archives)) as ->; [|apply overs_keeps].
  rewrite <- (keeps_filter _ _ _ []) by by apply NoDup_filter. unfold unpinned.
  rewrite !list_filter_filter. apply filter_iff_in. tauto.
Qed.

(** ** A catalogue

    Newest first: a flagged archive of a broken world, two good ones and a
    snapshot, with two hot copies between them; one cold archive is kept. *)
Definition someArchives : list Entry :=
  let cold id flagged := mkEntry id id true false false flagged in
  let hot id := mkEntry id id false false false false in
  [cold "e1" true; hot "e2"; cold "e3" false; hot "e4"; mkEntry "e5" "e5" true true false false;
   cold "e6" false; mkEntry "e7" "e7" true false true false].

Example Prune_someArchives :
  eID <$> Prune someArchives (mkPolicy 1 1) = ["e4"; "e6"].
Proof. reflexivity. Qed.

Lemma Prune_settles_witness :
  NoDup someArchives /\
  Prune (filter (fun a => a ∉ Prune someArchives (mkPolicy 1 1)) someArchives) (mkPolicy 1 1) = [].
Proof.
  assert (NoDup someArchives) as H by by apply (bool_decide_eq_true_1 _).
  split; [exact H|exact (Prune_settles someArchives (mkPolicy 1 1) H)].
Defined.
