(* ===== verification/RemoteStore.v ===== *)
(** internal/store: the archive catalogue (backups.go), the copies of archives on
    off-host destinations (remote_copies.go, remote_retention.go,
    remote_destinations.go) and the links of saved setups to archives (setups.go),
    over the job tables of Store.

    An operation reads the clock once.  An attention column is the list of
    findings its JSON text encodes, NULL being none. *)
From S2P Require Import Prelude Lifecycle Sql Store.

(** ** Tables *)

Record BackupRow := mkBackup {
  bInstance : string; bPath : string; bSize : Z; bSHA : string; bWorld : string; bTrigger : string;
  bConsistent : bool; bCreated : Time; bWorldBytes : option Z; bAttention : list (string * string)
}.

(** The columns of remote_copies no statement writes after the insert. *)
Record CopySource := mkSource {
  cDest : string; cInstance : string; cBackup : string; cInstanceName : string; cWorld : string;
  cTrigger : string; cConsistent : bool; cSize : Z; cSHA : string; cPath : string; cArchiveAt : Time; cCreated : Time
}.

Record CopyRow := mkCopy {
  cSource : CopySource; cStatus : string; cAttempts : Z; cNextAttempt : Time; cDeadline : Time;
  cLastError : string; cCancel : bool; cJob : option string; cObject : string; cManifest : string;
  cSucceeded : option Time; cCleanup : bool; cCleanupError : string; cCleanupNext : Time;
  cUpdated : Time; cFlagged : bool
}.

Record DestRow := mkDest {
  dKind : string; dEnabled : bool; dRetired : bool; dEndpoint : string; dUsername : string;
  dCredentials : string; dRemoteName : string; dFolder : string; dLastTestAt : option Time;
  dLastTestError : string; dCreated : Time; dUpdated : Time
}.

(** The retention columns of an instances row. *)
Record RetentionCols := mkRetentionCols {
  BackupKeepCold : Z; BackupKeepHot : Z; RemoteBackupEnabled : bool;
  RemoteKeepCold : Z; RemoteKeepHot : Z; RemoteKeepSnapshots : Z
}.
(** Their defaults in the schema. *)
Definition defaultCols : RetentionCols := mkRetentionCols 2 5 false 10 5 10.

Record RDB := mkRDB {
  rBase : DB;
  rBackups : gmap string BackupRow;
  rCopies : gmap string CopyRow;
  rDests : gmap string DestRow;
  rPins : gset (string * string);      (* (instance, backup) of the saved setups *)
  rCols : gmap string RetentionCols    (* instances, the retention columns *)
}.

Definition withBase (b : DB) (db : RDB) : RDB := mkRDB b (rBackups db) (rCopies db) (rDests db) (rPins db) (rCols db).
Definition withBackups (f : gmap string BackupRow -> gmap string BackupRow) (db : RDB) : RDB :=
  mkRDB (rBase db) (f (rBackups db)) (rCopies db) (rDests db) (rPins db) (rCols db).
Definition withCopies (f : gmap string CopyRow -> gmap string CopyRow) (db : RDB) : RDB :=
  mkRDB (rBase db) (rBackups db) (f (rCopies db)) (rDests db) (rPins db) (rCols db).
Definition withDests (f : gmap string DestRow -> gmap string DestRow) (db : RDB) : RDB :=
  mkRDB (rBase db) (rBackups db) (rCopies db) (f (rDests db)) (rPins db) (rCols db).
Definition withCols (f : gmap string RetentionCols -> gmap string RetentionCols) (db : RDB) : RDB :=
  mkRDB (rBase db) (rBackups db) (rCopies db) (rDests db) (rPins db) (f (rCols db)).
Definition colsOf (id : string) (db : RDB) : RetentionCols := default defaultCols (rCols db !! id).

Abbreviation RTx := (Sql.Tx RDB).

(** A statement or transaction of the job tables, in the whole database. *)
Definition onBase {A} (m : Sql.Tx DB A) : RTx A := fun s =>
  match m (rBase s.1, s.2) with (r, (b, fs)) => (r, (withBase b s.1, fs)) end.

(** The foreign keys SQLite checks at the commit: a setup's archive and a copy's
    job. *)
Definition pinHeld (db : RDB) (p : string * string) : bool :=
  match rBackups db !! p.2 with Some b => bool_decide (bInstance b = p.1) | None => false end.
Definition jobHeld (db : RDB) (c : CopyRow) : bool :=
  match cJob c with None => true | Some id => bool_decide (is_Some (runs (rBase db) !! id)) end.
Definition refsHeld (db : RDB) : bool :=
  forallb (pinHeld db) (elements (rPins db)) && forallb (jobHeld db) (map_to_list (rCopies db)).*2.
Definition deferred : RTx unit := fun s => if refsHeld s.1 then (Ok tt, s) else (Err EConstraint, s).

(** A transaction of this database. *)
Definition inRTx {A} (body : RTx A) : RTx A := inTx (let! a := body in let! _ := deferred in tret a).

(** ** Errors *)

Definition ErrRemoteBusy : TxErr := EHook "remote backup transfer is active".
Definition ErrBackupProtected : TxErr := EHook "backup is protected by a remote copy".
Definition ErrRemoteUnavailable : TxErr := EHook "remote backup destination is disabled or unavailable".
Definition ErrBackupPinned : TxErr := EHook "backup is linked to a saved setup".

(** ** Statuses and triggers *)

Definition RemoteCopyPending : string := "pending".
Definition RemoteCopyUploading : string := "uploading".
Definition RemoteCopyRetryWait : string := "retry_wait".
Definition RemoteCopySucceeded : string := "succeeded".
Definition RemoteCopyFailed : string := "failed".
Definition RemoteCopyCancelled : string := "cancelled".
Definition RemoteCopyPruned : string := "pruned".

(** [status IN ('pending','retry_wait')], [status IN ('failed','cancelled')]. *)
Definition waiting (c : CopyRow) : bool :=
  bool_decide (cStatus c = RemoteCopyPending) || bool_decide (cStatus c = RemoteCopyRetryWait).
Definition gaveUp (c : CopyRow) : bool :=
  bool_decide (cStatus c = RemoteCopyFailed) || bool_decide (cStatus c = RemoteCopyCancelled).
Definition uploading (c : CopyRow) : bool := bool_decide (cStatus c = RemoteCopyUploading).
Definition succeeded (c : CopyRow) : bool := bool_decide (cStatus c = RemoteCopySucceeded).

Definition triggers : list string := ["manual"; "scheduled"; "pre_update"; "pre_restore"; "pre_import"].
Definition SnapshotTrigger (trigger : string) : bool :=
  bool_decide (trigger = "pre_update") || bool_decide (trigger = "pre_restore") || bool_decide (trigger = "pre_import").

(** The lock every transfer holds, and one per instance against its deletion. *)
Definition RemoteLockKey : string := "global:remote_backup".
Definition remoteInstanceKey (id : string) : string := "remote_instance:" +:+ id.

Definition hour : Z := 3600 * 1000000000.

(** ** Conditions the statements share *)

(** [state <> 'deleting'], of an instance that exists. *)
Definition instanceKept (db : RDB) (id : string) : bool :=
  match instances (rBase db) !! id with Some i => negb (bool_decide (iState i = StateDeleting)) | None => false end.
(** [enabled=TRUE AND retired=FALSE]. *)
Definition takes (d : DestRow) : bool := dEnabled d && negb (dRetired d).
Definition destTakes (db : RDB) (id : string) : bool :=
  match rDests db !! id with Some d => takes d | None => false end.
(** An archive of an instance that is not being deleted. *)
Definition archiveKept (db : RDB) (id : string) : bool :=
  match rBackups db !! id with Some b => instanceKept db (bInstance b) | None => false end.
(** A job that is queued or running. *)
Definition jobLive (db : DB) (id : option string) : bool :=
  match id with
  | Some id => match runs db !! id with
               | Some j => bool_decide (Status j = StatusQueued) || bool_decide (Status j = StatusRunning)
               | None => false
               end
  | None => false
  end.

(** [UPDATE remote_copies SET f WHERE id = ? AND p]: whether a row matched. *)
Definition updateCopy (id : string) (p : RDB -> CopyRow -> bool) (f : RDB -> CopyRow -> CopyRow) : RTx bool :=
  stmt (fun db =>
    match rCopies db !! id with
    | Some c => if p db c then Ok (true, withCopies <[id := f db c]> db) else Ok (false, db)
    | None => Ok (false, db)
    end).

(** [UPDATE remote_copies SET f WHERE p]. *)
Definition updateCopies (p : RDB -> CopyRow -> bool) (f : CopyRow -> CopyRow) : RTx unit :=
  writeq (fun db => withCopies (fmap (fun c => if p db c then f c else c)) db).

Definition setStatus (status : string) (now : Time) (c : CopyRow) : CopyRow :=
  mkCopy (cSource c) status (cAttempts c) (cNextAttempt c) (cDeadline c) (cLastError c) (cCancel c) (cJob c)
    (cObject c) (cManifest c) (cSucceeded c) (cCleanup c) (cCleanupError c) (cCleanupNext c) now (cFlagged c).
Definition setError (message : string) (c : CopyRow) : CopyRow :=
  mkCopy (cSource c) (cStatus c) (cAttempts c) (cNextAttempt c) (cDeadline c) message (cCancel c) (cJob c)
    (cObject c) (cManifest c) (cSucceeded c) (cCleanup c) (cCleanupError c) (cCleanupNext c) (cUpdated c) (cFlagged c).
Definition setCleanup (pending : bool) (message : string) (c : CopyRow) : CopyRow :=
  mkCopy (cSource c) (cStatus c) (cAttempts c) (cNextAttempt c) (cDeadline c) (cLastError c) (cCancel c) (cJob c)
    (cObject c) (cManifest c) (cSucceeded c) pending message (cCleanupNext c) (cUpdated c) (cFlagged c).
Definition setObjects (object manifest : string) (c : CopyRow) : CopyRow :=
  mkCopy (cSource c) (cStatus c) (cAttempts c) (cNextAttempt c) (cDeadline c) (cLastError c) (cCancel c) (cJob c)
    object manifest (cSucceeded c) (cCleanup c) (cCleanupError c) (cCleanupNext c) (cUpdated c) (cFlagged c).
Definition setCopyJob (job : option string) (c : CopyRow) : CopyRow :=
  mkCopy (cSource c) (cStatus c) (cAttempts c) (cNextAttempt c) (cDeadline c) (cLastError c) (cCancel c) job
    (cObject c) (cManifest c) (cSucceeded c) (cCleanup c) (cCleanupError c) (cCleanupNext c) (cUpdated c) (cFlagged c).
Definition clearFlag (c : CopyRow) : CopyRow :=
  mkCopy (cSource c) (cStatus c) (cAttempts c) (cNextAttempt c) (cDeadline c) (cLastError c) (cCancel c) (cJob c)
    (cObject c) (cManifest c) (cSucceeded c) (cCleanup c) (cCleanupError c) (cCleanupNext c) (cUpdated c) false.

Definition maybeAudit (auditID : string) (now : Time) (audit : option AuditEntry) : RTx unit :=
  match audit with None => tret tt | Some e => onBase (writeAuditLog auditID now e) end.

(** ** The queue of copies (remote_copies.go) *)

(** The destinations that take uploads; the unique index allows one. *)
Definition activeDests (db : RDB) : list string := (filter (fun kv => takes kv.2) (map_to_list (rDests db))).*1.

Definition copyOf (dest backup : string) (db : RDB) : option (string * CopyRow) :=
  head (filter (fun kv => cDest (cSource kv.2) = dest /\ cBackup (cSource kv.2) = backup) (map_to_list (rCopies db))).

(** The row an upload of archive [b] starts as. *)
Definition queuedCopy (dest backup : string) (b : BackupRow) (instanceName : string) (now : Time) : CopyRow :=
  mkCopy (mkSource dest (bInstance b) backup instanceName (bWorld b) (bTrigger b) (bConsistent b) (bSize b) (bSHA b)
            (bPath b) (bCreated b) now)
    RemoteCopyPending 0 now (now + 24 * hour) "" false None "{}" "{}" None false "" now now
    (negb (bool_decide (bAttention b = []))).

Definition enqueueRemoteCopy (newID : string) (now : Time) (instanceID backupID : string) (automatic : bool) : RTx unit :=
  stmt (fun db =>
    match rBackups db !! backupID, instances (rBase db) !! instanceID, activeDests db with
    | Some b, Some i, dest :: _ =>
        if bool_decide (bInstance b = instanceID) && negb (bool_decide (iState i = StateDeleting)) &&
           (negb automatic || RemoteBackupEnabled (colsOf instanceID db))
        then if decide (is_Some (copyOf dest backupID db)) then Ok (tt, db)
             else if decide (is_Some (rCopies db !! newID)) then Err EUnique
             else Ok (tt, withCopies <[newID := queuedCopy dest backupID b (iName i) now]> db)
        else Ok (tt, db)
    | _, _, _ => Ok (tt, db)
    end).

Definition QueueRemoteCopy (newID : string) (now : Time) (instanceID backupID auditID : string)
    (audit : option AuditEntry) : RTx (string * CopyRow) :=
  inRTx (
    let! _ := enqueueRemoteCopy newID now instanceID backupID false in
    let! c := readq (fun db => head (filter (fun kv =>
                cInstance (cSource kv.2) = instanceID /\ cBackup (cSource kv.2) = backupID /\
                cDest (cSource kv.2) ∈ activeDests db) (map_to_list (rCopies db)))) in
    match c with
    | None => tfail ErrRemoteUnavailable
    | Some c => let! _ := maybeAudit auditID now audit in tret c
    end).

Definition copyByID (instanceID id : string) (db : RDB) : option CopyRow :=
  match rCopies db !! id with
  | Some c => if bool_decide (cInstance (cSource c) = instanceID) then Some c else None
  | None => None
  end.
Definition RemoteCopyByID (instanceID id : string) : RTx (option CopyRow) := readq (copyByID instanceID id).

(** [ORDER BY next_attempt_at,id] and [ORDER BY cleanup_next_at,id]. *)
Definition by_le (at_ : CopyRow -> Time) (x y : string * CopyRow) : Prop :=
  (at_ x.2 < at_ y.2)%Z \/ (at_ x.2 = at_ y.2 /\ String.le x.1 y.1).
#[export] Instance by_le_dec at_ x y : Decision (by_le at_ x y).
Proof. unfold by_le. apply _. Defined.

Definition due (now : Time) (db : RDB) (kv : string * CopyRow) : bool :=
  waiting kv.2 && (cNextAttempt kv.2 <=? now)%Z && (now <? cDeadline kv.2)%Z &&
  destTakes db (cDest (cSource kv.2)) && instanceKept db (cInstance (cSource kv.2)).
Definition DueRemoteCopies (now : Time) (db : RDB) : option (string * CopyRow) :=
  head (merge_sort (by_le cNextAttempt) (filter (fun kv => due now db kv = true) (map_to_list (rCopies db)))).

Definition interrupted (now : Time) (c : CopyRow) : CopyRow :=
  setError "Previous transfer was interrupted."
    (setStatus (if cCancel c then RemoteCopyCancelled
                else if (cDeadline c <=? now)%Z then RemoteCopyFailed else RemoteCopyRetryWait) now c).
Definition expired (now : Time) (c : CopyRow) : CopyRow :=
  setError "Upload retry window expired or source archive is unavailable." (setStatus RemoteCopyFailed now c).

Definition orphaned (db : RDB) (c : CopyRow) : bool := uploading c && negb (jobLive (rBase db) (cJob c)).
Definition sourceGone (db : RDB) (c : CopyRow) : bool :=
  match rBackups db !! cBackup (cSource c) with
  | Some b => negb (bool_decide (bInstance b = cInstance (cSource c)))
  | None => true
  end.
Definition overdue (now : Time) (db : RDB) (c : CopyRow) : bool :=
  waiting c && ((cDeadline c <=? now)%Z || negb (instanceKept db (cInstance (cSource c))) || sourceGone db c).

Definition ReconcileRemoteCopies (now : Time) : RTx unit :=
  let! _ := updateCopies orphaned (interrupted now) in
  updateCopies (overdue now) (expired now).

Definition claimable (now : Time) (db : RDB) (c : CopyRow) : bool :=
  waiting c && negb (cCancel c) && (now <? cDeadline c)%Z && destTakes db (cDest (cSource c)) &&
  archiveKept db (cBackup (cSource c)).
Definition claimed (now : Time) (db : RDB) (c : CopyRow) : CopyRow :=
  mkCopy (cSource c) RemoteCopyUploading (cAttempts c + 1) (cNextAttempt c) (cDeadline c) (cLastError c) (cCancel c)
    (LockHolder RemoteLockKey (rBase db)) (cObject c) (cManifest c) (cSucceeded c) (cCleanup c) (cCleanupError c)
    (cCleanupNext c) now (cFlagged c).
Definition TxClaimRemoteCopy (now : Time) (id : string) : RTx unit :=
  let! n := updateCopy id (claimable now) (claimed now) in must n ErrRemoteUnavailable.

Definition SaveRemoteObjects (id object manifest : string) : RTx unit :=
  let! _ := updateCopy id (fun _ _ => true) (fun _ => setObjects object manifest) in tret tt.

Definition finished (status message : string) (next now : Time) (c : CopyRow) : CopyRow :=
  mkCopy (cSource c) status (cAttempts c) next (cDeadline c) message (cCancel c) (cJob c) (cObject c) (cManifest c)
    (if bool_decide (status = RemoteCopySucceeded) then Some now else cSucceeded c) (cCleanup c) (cCleanupError c)
    (cCleanupNext c) now (cFlagged c).
Definition TxFinishRemoteCopy (now : Time) (id status message : string) (next : Time) : RTx unit :=
  let! _ := updateCopy id (fun _ _ => true) (fun _ => finished status message next now) in tret tt.

Definition cancelled (now : Time) (c : CopyRow) : CopyRow :=
  mkCopy (cSource c) (if uploading c then cStatus c else RemoteCopyCancelled) (cAttempts c) (cNextAttempt c)
    (cDeadline c) (cLastError c) true (cJob c) (cObject c) (cManifest c) (cSucceeded c) (cCleanup c)
    (cCleanupError c) (cCleanupNext c) now (cFlagged c).
Definition retried (now : Time) (c : CopyRow) : CopyRow :=
  mkCopy (cSource c) RemoteCopyPending 0 now (now + 24 * hour) "" false (cJob c) (cObject c) (cManifest c)
    (cSucceeded c) false "" (cCleanupNext c) now (cFlagged c).

Definition changeRemoteCopy (now : Time) (instanceID id : string) (retry : bool) (auditID : string)
    (audit : option AuditEntry) : RTx unit :=
  inRTx (
    let! n := updateCopy id
      (fun db c => bool_decide (cInstance (cSource c) = instanceID) &&
         if retry then gaveUp c && archiveKept db (cBackup (cSource c)) && destTakes db (cDest (cSource c))
         else waiting c || uploading c)
      (fun _ => if retry then retried now else cancelled now) in
    let! _ := must n ErrRemoteUnavailable in
    maybeAudit auditID now audit).
Definition CancelRemoteCopy (now : Time) (instanceID id auditID : string) (audit : option AuditEntry) : RTx unit :=
  changeRemoteCopy now instanceID id false auditID audit.
Definition RetryRemoteCopy (now : Time) (instanceID id auditID : string) (audit : option AuditEntry) : RTx unit :=
  changeRemoteCopy now instanceID id true auditID audit.

(** ** Cleanup (remote_retention.go) *)

(** [ORDER BY archive_created_at DESC,id DESC]. *)
Definition newest (x y : string * CopyRow) : Prop :=
  (cArchiveAt (cSource y.2) < cArchiveAt (cSource x.2))%Z \/
  (cArchiveAt (cSource x.2) = cArchiveAt (cSource y.2) /\ String.le y.1 x.1).
#[export] Instance newest_dec x y : Decision (newest x y).
Proof. unfold newest. apply _. Defined.

Definition retentionCopies (instanceID destinationID : string) (db : RDB) : list (string * CopyRow) :=
  merge_sort newest (filter (fun kv => cInstance (cSource kv.2) = instanceID /\
    cDest (cSource kv.2) = destinationID /\ cStatus kv.2 = RemoteCopySucceeded) (map_to_list (rCopies db))).
Definition RemoteRetentionCopies (instanceID destinationID : string) : RTx (list (string * CopyRow)) :=
  readq (retentionCopies instanceID destinationID).

Definition UnmarkRemoteCleanup (id : string) : RTx unit :=
  let! _ := updateCopy id (fun _ c => succeeded c && cCleanup c) (fun _ => setCleanup false "") in tret tt.

Definition MarkRemoteCleanup (id : string) : RTx unit :=
  let! _ := updateCopy id (fun _ => succeeded) (fun _ c => setCleanup true (cCleanupError c) c) in tret tt.

Definition abandoned (instanceID destinationID : string) (_ : RDB) (c : CopyRow) : bool :=
  bool_decide (cInstance (cSource c) = instanceID) && bool_decide (cDest (cSource c) = destinationID) && gaveUp c &&
  negb (bool_decide (cObject c = "{}")) && negb (cCleanup c).
Definition MarkAbandonedRemoteUploads (instanceID destinationID : string) : RTx unit :=
  updateCopies (abandoned instanceID destinationID) (fun c => setCleanup true (cCleanupError c) c).

Definition cleanupDue (now : Time) (db : RDB) (kv : string * CopyRow) : bool :=
  cCleanup kv.2 && (cCleanupNext kv.2 <=? now)%Z && instanceKept db (cInstance (cSource kv.2)) &&
  destTakes db (cDest (cSource kv.2)).
Definition DueRemoteCleanup (now : Time) (db : RDB) : option (string * CopyRow) :=
  head (merge_sort (by_le cCleanupNext) (filter (fun kv => cleanupDue now db kv = true) (map_to_list (rCopies db)))).

Definition cleaned (message : string) (next now : Time) (c : CopyRow) : CopyRow :=
  let ok := bool_decide (message = "") in
  mkCopy (cSource c) (if ok && succeeded c then RemoteCopyPruned else cStatus c) (cAttempts c) (cNextAttempt c)
    (cDeadline c) (cLastError c) (cCancel c) (cJob c)
    (if ok && negb (succeeded c) then "{}" else cObject c)
    (if ok && negb (succeeded c) then "{}" else cManifest c)
    (cSucceeded c) (negb ok) message next now (cFlagged c).
Definition TxFinishRemoteCleanup (now : Time) (id message : string) (next : Time) : RTx unit :=
  let! _ := updateCopy id (fun _ _ => true) (fun _ => cleaned message next now) in tret tt.
Definition FinishRemoteCleanup := TxFinishRemoteCleanup.

Definition cleanable (db : RDB) (c : CopyRow) : bool :=
  (succeeded c || gaveUp c) && cCleanup c && instanceKept db (cInstance (cSource c)) &&
  destTakes db (cDest (cSource c)).
Definition TxCheckRemoteCleanup (id : string) : RTx unit :=
  let! ok := readq (fun db => match rCopies db !! id with Some c => cleanable db c | None => false end) in
  must ok ErrRemoteUnavailable.

(** ** Destinations (remote_destinations.go) *)

Definition currentDest (db : RDB) : option (string * DestRow) :=
  head (filter (fun kv => dRetired kv.2 = false) (map_to_list (rDests db))).
Definition RemoteDestination : RTx (option (string * DestRow)) := readq currentDest.

Definition retire (id : string) (m : gmap string DestRow) : gmap string DestRow :=
  map_imap (fun k d => Some (
    if negb (dRetired d) && negb (bool_decide (k = id))
    then mkDest (dKind d) false true (dEndpoint d) (dUsername d) (dCredentials d) (dRemoteName d) (dFolder d)
           (dLastTestAt d) (dLastTestError d) (dCreated d) (dUpdated d)
    else d)) m.

(** [INSERT ... ON CONFLICT(id) DO UPDATE]; the insert leaves retired at its
    default. *)
Definition upsertDest (id : string) (d : DestRow) (now : Time) : RTx unit := stmt (fun db =>
  if negb (bool_decide (dKind d = "webdav") || bool_decide (dKind d = "rclone")) then Err EConstraint
  else match rDests db !! id with
  | Some o =>
      let changed := negb (bool_decide (dCredentials o = dCredentials d)) in
      Ok (tt, withDests <[id := mkDest (dKind o) (dEnabled d) (dRetired o) (dEndpoint o) (dUsername d) (dCredentials d)
            (dRemoteName o) (dFolder o) (if changed then None else dLastTestAt o)
            (if changed then "" else dLastTestError o) (dCreated o) now]> db)
  | None =>
      if decide (is_Some (currentDest db)) then Err EUnique
      else Ok (tt, withDests <[id := mkDest (dKind d) (dEnabled d) false (dEndpoint d) (dUsername d) (dCredentials d)
            (dRemoteName d) (dFolder d) None "" now now]> db)
  end).

Definition SaveRemoteDestination (id : string) (d : DestRow) (now : Time) (auditID : string)
    (audit : option AuditEntry) : RTx unit :=
  inRTx (
    let! busy := readq (fun db => bool_decide (is_Some (locks (rBase db) !! RemoteLockKey))) in
    if busy then tfail ErrRemoteBusy
    else
      let! _ := updateCopies (fun _ c => waiting c && negb (bool_decide (cDest (cSource c) = id)))
                  (setStatus RemoteCopyCancelled now) in
      let! _ := writeq (withDests (retire id)) in
      let! _ := upsertDest id d now in
      maybeAudit auditID now audit).

Definition updateDest (id : string) (f : DestRow -> DestRow) : RTx unit := writeq (withDests (alter f id)).
Definition TxRecordRemoteTest (now : Time) (id message : string) : RTx unit :=
  updateDest id (fun d => mkDest (dKind d) (dEnabled d) (dRetired d) (dEndpoint d) (dUsername d) (dCredentials d)
    (dRemoteName d) (dFolder d) (Some now) message (dCreated d) (dUpdated d)).
Definition RecordRemoteTest := TxRecordRemoteTest.
Definition DisableRemoteDestination (now : Time) (id : string) : RTx unit :=
  updateDest id (fun d => mkDest (dKind d) false (dRetired d) (dEndpoint d) (dUsername d) (dCredentials d)
    (dRemoteName d) (dFolder d) (dLastTestAt d) (dLastTestError d) (dCreated d) now).

(** The update of the instance row's own [updated_at] is not kept here. *)
Definition UpdateRemotePolicy (id : string) (enabled : bool) (cold hot snapshots : Z) : RTx unit := stmt (fun db =>
  match instances (rBase db) !! id with
  | None => Ok (tt, db)
  | Some _ =>
      if (0 <=? cold)%Z && (0 <=? hot)%Z && (0 <=? snapshots)%Z
      then let c := colsOf id db in
           Ok (tt, withCols <[id := mkRetentionCols (BackupKeepCold c) (BackupKeepHot c) enabled cold hot snapshots]> db)
      else Err EConstraint
  end).

(** A copy of the archive is uploading or still due; [""] asks for any archive
    of the instance. *)
Definition protected (now : Time) (instanceID backupID : string) (db : RDB) : bool :=
  existsb (fun kv : string * CopyRow =>
    bool_decide (cInstance (cSource kv.2) = instanceID) &&
    (bool_decide (backupID = "") || bool_decide (cBackup (cSource kv.2) = backupID)) &&
    (uploading kv.2 || (waiting kv.2 && (now <? cDeadline kv.2)%Z))) (map_to_list (rCopies db)).
Definition TxCheckRemoteProtection (now : Time) (instanceID backupID : string) : RTx unit :=
  let! p := readq (protected now instanceID backupID) in
  if p then tfail ErrBackupProtected else tret tt.
Definition RemoteBackupProtected (now : Time) (instanceID backupID : string) : RTx bool :=
  readq (fun db => existsb (fun kv : string * CopyRow =>
    bool_decide (cInstance (cSource kv.2) = instanceID) && bool_decide (cBackup (cSource kv.2) = backupID) &&
    (uploading kv.2 || (waiting kv.2 && (now <? cDeadline kv.2)%Z))) (map_to_list (rCopies db))).

(** ** The catalogue (backups.go, setups.go) *)

Definition createBackup (newCopy : string) (now : Time) (id : string) (b : BackupRow) : RTx unit :=
  let! _ := stmt (fun db =>
    if decide (is_Some (rBackups db !! id)) then Err EUnique
    else if negb (bool_decide (bTrigger b ∈ triggers) && bool_decide (is_Some (instances (rBase db) !! bInstance b)))
    then Err EConstraint
    else Ok (tt, withBackups <[id := mkBackup (bInstance b) (bPath b) (bSize b) (bSHA b) (bWorld b) (bTrigger b)
                                       (bConsistent b) now (bWorldBytes b) (bAttention b)]> db)) in
  enqueueRemoteCopy newCopy now (bInstance b) id true.
Definition TxCreateBackup := createBackup.
Definition CreateBackup (newCopy : string) (now : Time) (id : string) (b : BackupRow) : RTx unit :=
  inRTx (createBackup newCopy now id b).

Definition deleteBackupRow (instanceID id : string) : RTx unit := writeq (fun db =>
  match rBackups db !! id with
  | Some b => if bool_decide (bInstance b = instanceID) then withBackups (delete id) db else db
  | None => db
  end).
Definition TxDeleteBackup (now : Time) (instanceID id : string) : RTx unit :=
  let! _ := TxCheckRemoteProtection now instanceID id in deleteBackupRow instanceID id.
Definition DeleteBackup (now : Time) (instanceID id : string) : RTx unit := inRTx (TxDeleteBackup now instanceID id).

Definition pinnedIn (instanceID id : string) (db : RDB) : bool := bool_decide ((instanceID, id) ∈ rPins db).
Definition BackupPinned (instanceID id : string) : RTx bool := readq (pinnedIn instanceID id).
Definition DeleteBackupUnpinned (now : Time) (instanceID id auditID : string) (audit : AuditEntry) : RTx unit :=
  inRTx (
    let! p := BackupPinned instanceID id in
    if p then tfail ErrBackupPinned
    else let! _ := TxDeleteBackup now instanceID id in onBase (writeAuditLog auditID now audit)).

Definition backupByID (instanceID id : string) (db : RDB) : option BackupRow :=
  match rBackups db !! id with
  | Some b => if bool_decide (bInstance b = instanceID) then Some b else None
  | None => None
  end.
Definition BackupByID (instanceID id : string) : RTx (option BackupRow) := readq (backupByID instanceID id).

(** [AcknowledgeWorld]; an archive that does not exist leaves nothing to commit. *)
Definition AcknowledgeWorld (now : Time) (instanceID id auditID : string) (audit : option AuditEntry) : RTx bool :=
  inRTx (
    let! n := stmt (fun db =>
      match backupByID instanceID id db with
      | Some b => Ok (true, withBackups <[id := mkBackup (bInstance b) (bPath b) (bSize b) (bSHA b) (bWorld b)
                                              (bTrigger b) (bConsistent b) (bCreated b) (bWorldBytes b) []]> db)
      | None => Ok (false, db)
      end) in
    if negb n then tret false
    else
      let! _ := updateCopies (fun _ c => bool_decide (cBackup (cSource c) = id) &&
                                         bool_decide (cInstance (cSource c) = instanceID)) clearFlag in
      let! _ := maybeAudit auditID now audit in
      tret true).

(** [ORDER BY created_at DESC, id DESC]. *)
Definition newer (x y : string * BackupRow) : Prop :=
  (bCreated y.2 < bCreated x.2)%Z \/ (bCreated x.2 = bCreated y.2 /\ String.le y.1 x.1).
#[export] Instance newer_dec x y : Decision (newer x y).
Proof. unfold newer. apply _. Defined.

Definition archivesOf (instanceID : string) (db : RDB) : list (string * BackupRow) :=
  merge_sort newer (filter (fun kv => bInstance kv.2 = instanceID) (map_to_list (rBackups db))).
(** Strictly after the cursor in that order. *)
Definition afterCursor (cursor : option (Time * string)) (kv : string * BackupRow) : bool :=
  match cursor with
  | None => true
  | Some (at_, id) => (bCreated kv.2 <? at_)%Z || ((bCreated kv.2 =? at_)%Z && negb (bool_decide (String.le id kv.1)))
  end.
Definition listBackups (instanceID : string) (cursor : option (Time * string)) (limit : nat) (db : RDB) :
    list (string * BackupRow) :=
  take limit (filter (fun kv => afterCursor cursor kv = true) (archivesOf instanceID db)).
Definition ListBackups (instanceID : string) (cursor : option (Time * string)) (limit : nat) : RTx (list (string * BackupRow)) :=
  readq (listBackups instanceID cursor limit).

(** ** The job tables' effects here

    Retention of finished jobs nulls the copies' job, and deleting an instance
    cascades to its archives and setups. *)
Definition nullJobs (db : RDB) : RDB :=
  withCopies (fmap (fun c => if jobHeld db c then c else setCopyJob None c)) db.
Definition SweepJobs (cutoff : Time) : RTx nat := fun s =>
  match onBase (SweepTerminalJobs cutoff) s with (r, (db, fs)) => (r, (nullJobs db, fs)) end.

Definition dropInstance (id : string) (db : RDB) : RDB :=
  mkRDB (rBase db) (filter (fun kv => bInstance kv.2 <> id) (rBackups db)) (rCopies db) (rDests db)
    (filter (fun p => p.1 <> id) (rPins db)) (delete id (rCols db)).
Definition DeleteInstanceRow (id : string) : RTx unit := fun s =>
  match onBase (TxDeleteInstance id StateDeleting) s with
  | (Ok u, (db, fs)) => (Ok u, (dropInstance id db, fs))
  | r => r
  end.
