(* ===== verification/RemoteCopy.v ===== *)
(** internal/backup/remotecopy (worker.go, retention.go) and
    internal/instance/control/prune.go: the worker that uploads archives, retries
    and cleans up, the retention of what the destination holds, and the pruning of
    the local catalogue, over RemoteStore's tables.

    A read of the clock, a fresh identifier and the jitter of a backoff are
    arguments.  Sending a log line is left out. *)
From S2P Require Import Prelude Kinds Lifecycle Sql Store Retention RemoteStore.

(** ** Retention of the copies (retention.go) *)

Definition classOf (trigger : string) (consistent : bool) : retentionClass :=
  if SnapshotTrigger trigger then classSnapshot else if negb consistent then classHot else classCold.
Definition keepLimit (inst : RetentionCols) (class : retentionClass) : Z :=
  match class with
  | classHot => RemoteKeepHot inst
  | classSnapshot => RemoteKeepSnapshots inst
  | classCold => RemoteKeepCold inst
  end.
Definition copyClass (kv : string * CopyRow) : retentionClass :=
  classOf (cTrigger (cSource kv.2)) (cConsistent (cSource kv.2)).
Definition copyFlagged (kv : string * CopyRow) : bool := cFlagged kv.2.

(** The loop over the copies, newest first, with its two maps. *)
Fixpoint markEach (inst : RetentionCols) (counts : retentionClass -> Z) (sawUnflagged : retentionClass -> bool)
    (copies : list (string * CopyRow)) : RTx unit :=
  match copies with
  | [] => tret tt
  | (id, c) :: rest =>
      let class := copyClass (id, c) in
      let counts := fun d => if decide (d = class) then (counts class + 1)%Z else counts d in
      let lastGood := negb (bool_decide (class = classSnapshot)) && negb (cFlagged c) && negb (sawUnflagged class) in
      let sawUnflagged := fun d => if lastGood && bool_decide (d = class) then true else sawUnflagged d in
      let limit := keepLimit inst class in
      let! _ := (if (0 <? limit)%Z && (limit <? counts class)%Z && negb lastGood then MarkRemoteCleanup id
                 else if cCleanup c then UnmarkRemoteCleanup id else tret tt) in
      markEach inst counts sawUnflagged rest
  end.

Definition markInstanceRetention (instanceID : string) (inst : RetentionCols) (destinationID : string) : RTx unit :=
  let! _ := MarkAbandonedRemoteUploads instanceID destinationID in
  let! copies := RemoteRetentionCopies instanceID destinationID in
  markEach inst (fun _ => 0%Z) (fun _ => false) copies.

(** [ListInstances], with the columns a caller here reads. *)
Definition name_le (x y : string * Inst) : Prop := String.le (iName x.2) (iName y.2).
#[export] Instance name_le_dec x y : Decision (name_le x y).
Proof. unfold name_le. apply _. Defined.
Definition listInstances (db : RDB) : list (string * State * RetentionCols) :=
  (fun kv => (kv.1, iState kv.2, colsOf kv.1 db)) <$> merge_sort name_le (map_to_list (instances (rBase db))).
Definition ListInstances : RTx (list (string * State * RetentionCols)) := readq listInstances.

(** An instance that fails does not stop the others; the errors are joined. *)
Fixpoint markInstances (destinationID : string) (insts : list (string * State * RetentionCols)) : RTx (list TxErr) :=
  match insts with
  | [] => tret []
  | (id, st, cols) :: rest =>
      if bool_decide (st = StateDeleting) then markInstances destinationID rest
      else fun s =>
        match markInstanceRetention id cols destinationID s with
        | (Ok _, s') => markInstances destinationID rest s'
        | (Err e, s') => (let! errs := markInstances destinationID rest in tret (e :: errs)) s'
        end
  end.

Definition MarkRetention : RTx (list TxErr) :=
  let! d := RemoteDestination in
  match d with
  | Some (dest, d) =>
      if dEnabled d then let! insts := ListInstances in markInstances dest insts else tret []
  | None => tret []
  end.

(** [PrunedOnArrival] of archive [id], with row [b]. *)
Definition PrunedOnArrival (instanceID : string) (inst : RetentionCols) (id : string) (b : BackupRow) : RTx bool :=
  let class := classOf (bTrigger b) (bConsistent b) in
  let limit := keepLimit inst class in
  if (limit <=? 0)%Z then tret false
  else
    let! d := RemoteDestination in
    match d with
    | None => tret false
    | Some (dest, _) =>
        let! copies := RemoteRetentionCopies instanceID dest in
        let newer := filter (fun kv => cBackup (cSource kv.2) <> id /\ cCleanup kv.2 = false /\
          copyClass kv = class /\ (bCreated b < cArchiveAt (cSource kv.2))%Z) copies in
        let newerUnflagged := filter (fun kv => cFlagged kv.2 = false) newer in
        tret (if negb (bool_decide (class = classSnapshot)) && bool_decide (bAttention b = []) &&
                 bool_decide (newerUnflagged = [])
              then false
              else (limit <=? Z.of_nat (length newer))%Z)
    end.

(** ** Jobs on this database

    [ClaimJobWithLocks] and [FinishJob], with hooks that reach these tables. *)
Definition ClaimRemoteJob (j : Job) (supplemental : list string) (owner : string) (leaseUntil now : Time)
    (onClaim : RTx unit) : RTx Job :=
  inRTx (
    let! _ := onBase (acquireLocks (ID j) now (claimKeys (LockKey j) supplemental)) in
    let! _ := onClaim in
    let! _ := onBase (insertRun (claimedRow j owner leaseUntil now)) in
    tret (claimedJob j owner leaseUntil now)).

Definition FinishRemoteJob (jobID status : string) (progress : Z) (errorCode errMsg log : option string)
    (clean : option bool) (finishedAt : Time) (onFinish : RTx unit) : RTx unit :=
  inRTx (
    let! _ := (if statusChecked status
               then onBase (updateRun jobID always (setFinished status progress errorCode errMsg log clean finishedAt))
               else stmt (fun db => match runs (rBase db) !! jobID with
                                    | Some _ => Err EConstraint
                                    | None => Ok (false, db)
                                    end)) in
    let! _ := onBase (releaseLocks jobID) in
    onFinish).

(** The payload's JSON; identifiers are [NewID]'s, which JSON does not escape. *)
Definition CopyIDField : string := "copy_id".
Definition quoted (s : string) : string := String (ascii_of_nat 34) (s +:+ String (ascii_of_nat 34) "").
Definition copyPayload (id : string) : string := "{" +:+ quoted CopyIDField +:+ ":" +:+ quoted id +:+ "}".

Definition remoteJob (kind : Kinds.Kind) (jobID id : string) (c : CopyRow) : Job :=
  mkJob jobID (kindName kind) "" RemoteLockKey (Some (cInstance (cSource c))) (cInstanceName (cSource c)) None false
    (copyPayload id) None false 0 None None None None None None 0 None None None 0 None None.

(** What a dispatch started. *)
Inductive Work := Upload (id : string) | Cleanup (id : string).

(** A refused submission is not an error of the dispatch. *)
Definition submitted {A B} (m : RTx A) (w : B) : RTx (option B) := fun s =>
  match m s with (Ok _, s') => (Ok (Some w), s') | (Err _, s') => (Ok None, s') end.
(** Neither is a read that fails. *)
Definition orElse {A} (m : RTx A) (a : A) : RTx A := fun s =>
  match m s with (Err _, s') => (Ok a, s') | r => r end.

Section Dispatch.
Context (jobID owner : string) (leaseUntil now : Time).

Definition submitCleanup (id : string) (c : CopyRow) : RTx (option Work) :=
  submitted (ClaimRemoteJob (remoteJob KindRemotePrune jobID id c) [remoteInstanceKey (cInstance (cSource c))]
               owner leaseUntil now (TxCheckRemoteCleanup id)) (Cleanup id).
Definition submitUpload (id : string) (c : CopyRow) : RTx (option Work) :=
  submitted (ClaimRemoteJob (remoteJob KindRemoteCopy jobID id c) [remoteInstanceKey (cInstance (cSource c))]
               owner leaseUntil now (TxClaimRemoteCopy now id)) (Upload id).

Definition DispatchRemote : RTx (option Work) :=
  orElse (
    let! cleanup := readq (DueRemoteCleanup now) in
    match cleanup with
    | Some (id, c) => submitCleanup id c
    | None =>
        let! copies := readq (DueRemoteCopies now) in
        match copies with
        | Some (id, c) => submitUpload id c
        | None => tret None
        end
    end) None.

End Dispatch.

(** ** Deleting an instance (internal/instance/control/submissions.go)

    The claim refuses while an upload of the instance runs or is due, and takes
    the instance's transfer lock. *)
Definition deleteOnClaim (now : Time) (id : string) (from : State) : RTx unit :=
  let! _ := TxCheckRemoteProtection now id "" in
  let! ok := (if bool_decide (from = StateDeleting) then onBase (TxUpdateInstanceState now id StateDeleting StateDeleting)
              else match ValidateTransition from StateDeleting with
                   | Err e => tfail (EState e)
                   | Ok _ => onBase (TxUpdateInstanceState now id from StateDeleting)
                   end) in
  must ok (EState (NotInState id from)).

Definition SubmitDelete (jobID owner : string) (leaseUntil now : Time) (id name payload : string) (from : State)
    (requestedBy : option string) (auditID : string) (audit : option AuditEntry) : RTx Job :=
  ClaimRemoteJob (mkJob jobID (kindName KindDelete) "" (InstanceLockKey id) (Some id) name None false payload None false
                    0 None None None None None requestedBy 0 None None None 0 None None)
    [remoteInstanceKey id] owner leaseUntil now
    (let! _ := deleteOnClaim now id from in maybeAudit auditID now audit).

(** The end of its job: the row, with what the schema cascades. *)
Definition finishDelete (now : Time) (jobID id : string) (progress : Z) (log : option string) : RTx unit :=
  FinishRemoteJob jobID StatusSucceeded progress None None log None now (DeleteInstanceRow id).

(** One pass of [Run]'s loop; [mark] is whether its daily turn has come. *)
Definition workerPass (jobID owner : string) (leaseUntil now : Time) (mark : bool) : RTx (option Work) :=
  let! _ := orElse (ReconcileRemoteCopies now) tt in
  let! _ := (if mark then orElse MarkRetention [] else tret []) in
  DispatchRemote jobID owner leaseUntil now.

(** ** Transfers (worker.go, retention.go) *)

Record ObjectRef := mkRef { Key : string; ProviderID : string }.
Record Object := mkObject { Ref : ObjectRef; SizeBytes : Z }.

(** The errors a transfer's end tells apart. *)
Inductive RErr := RFailure (message : string) (temporary : bool) | RConfiguration | RNotFound | RDeadline | ROther.

Definition safeError (e : RErr) : string :=
  match e with
  | RFailure m _ => m
  | RConfiguration => "Remote configuration or address is not allowed."
  | RNotFound => "Remote object was not found."
  | RDeadline => "Remote transfer exceeded its deadline."
  | ROther => "Remote copy could not be completed."
  end.
Definition Retryable (e : RErr) : bool := match e with RFailure _ t => t | _ => false end.

Definition remoteObjectKey (backupID : string) (c : CopyRow) : string :=
  "valmin/" +:+ cDest (cSource c) +:+ "/" +:+ cInstance (cSource c) +:+ "/" +:+ backupID +:+ ".tar.gz".
Definition objectKey (c : CopyRow) : string := remoteObjectKey (cBackup (cSource c)) c.
Definition manifestKey (c : CopyRow) : string := objectKey c +:+ ".json".

(** [encoding/json] on an [ObjectRef]. *)
Class RefJSON := { encodeRef : ObjectRef -> string; decodeRef : string -> option ObjectRef }.
Class RefJSONLaws `{RefJSON} : Prop := {
  decode_encode r : decodeRef (encodeRef r) = Some r;
  decode_empty : decodeRef "{}" = Some (mkRef "" "")
}.

(** A [remote.Backend] and the files of the host, as they answer one run.  Both
    backends name an object by the key they were given. *)
Class Backend := {
  BackendFor : string -> result RErr unit;       (* a destination's settings *)
  CheckBackend : result RErr unit;
  Put : string -> string -> result RErr Object;
  Stat : ObjectRef -> result RErr Object;
  Delete : ObjectRef -> result RErr unit;
  sourceDigest : string -> result RErr (Z * string);  (* size and SHA-256 of a file *)
  manifestFile : CopyRow -> result RErr string        (* the manifest written to a temporary file *)
}.
Class BackendLaws `{Backend} : Prop := {
  put_key key path o : Put key path = Ok o -> Ref o = mkRef key "";
  stat_key r o : Stat r = Ok o -> Ref o = mkRef (Key r) ""
}.

Section Transfer.
Context `{RefJSON, Backend}.

Definition verifyRemoteSource (c : CopyRow) : result RErr unit :=
  match sourceDigest (cPath (cSource c)) with
  | Err e => Err e
  | Ok (size, sha) =>
      if negb (size =? cSize (cSource c))%Z || negb (bool_decide (sha = cSHA (cSource c)))
      then Err (RFailure "Local archive checksum does not match its catalogue entry." false)
      else Ok tt
  end.

Definition recordObjects (id : string) (object manifest : ObjectRef) : RTx (result RErr unit) := fun s =>
  match SaveRemoteObjects id (encodeRef object) (encodeRef manifest) s with
  | (Ok _, s') => (Ok (Ok tt), s')
  | (Err _, s') => (Ok (Err ROther), s')
  end.

(** The object and its manifest, each put and then stated. *)
Definition putObject (c : CopyRow) : result RErr Object := Put (objectKey c) (cPath (cSource c)).
Definition statArchive (c : CopyRow) (o : Object) : result RErr Object :=
  match Stat (Ref o) with
  | Err e => Err e
  | Ok info =>
      if negb (SizeBytes info =? cSize (cSource c))%Z
      then Err (RFailure "Remote archive size did not match." true) else Ok info
  end.
Definition putManifest (c : CopyRow) : result RErr Object :=
  match manifestFile c with
  | Err e => Err e
  | Ok file =>
      match Put (manifestKey c) file with
      | Err e => Err e
      | Ok o =>
          match Stat (Ref o) with
          | Err e => Err e
          | Ok info =>
              if negb (SizeBytes info =? SizeBytes o)%Z
              then Err (RFailure "Remote manifest size did not match." true) else Ok info
          end
      end
  end.

(** [copyArchive]: the row is written as soon as the archive is up, and again
    with its manifest. *)
Definition copyArchive (id : string) (c : CopyRow) : RTx (result RErr unit) := fun s =>
  match readq (fun db => rDests db !! cDest (cSource c)) s with
  | (Err _, s1) => (Ok (Err ROther), s1)
  | (Ok d, s1) =>
      match (let? _ := match d with Some d => if takes d then Ok tt else Err RConfiguration | None => Err RConfiguration end in
             let? _ := BackendFor (cDest (cSource c)) in
             let? _ := CheckBackend in
             let? _ := verifyRemoteSource c in
             putObject c) with
      | Err e => (Ok (Err e), s1)
      | Ok o =>
          match recordObjects id (Ref o) (mkRef "" "") s1 with
          | (Ok (Ok _), s2) =>
              match (let? info := statArchive c o in let? m := putManifest c in Ok (info, m)) with
              | Err e => (Ok (Err e), s2)
              | Ok (info, m) => recordObjects id (Ref info) (Ref m) s2
              end
          | r => r
          end
      end
  end.

(** [backoff], its jitter being [Int64N]'s answer. *)
Definition minute : Z := 60 * 1000000000.
Definition backoffBase (attempt : Z) : Z := Z.min (minute * 2 ^ Z.min (Z.max (attempt - 1) 0) 6) hour.
Definition backoff (jitter attempt : Z) : Z := Z.min (backoffBase attempt + jitter) hour.

(** [copyOutcome]: the status, message and next attempt written, with the job's
    own status.  [stopping] is the cancelled context of a daemon going down. *)
Record CopyEnd := mkEnd { eStatus : string; eMessage : string; eNext : Time; eJob : string }.

Definition cancelRequestedJob (jobID : string) : RTx bool := fun s =>
  match readq (fun db => match runs (rBase db) !! jobID with
                         | Some j => bool_decide (is_Some (CancelRequestedAt j))
                         | None => false end) s with
  | (Ok b, s') => (Ok b, s')
  | (Err _, s') => (Ok false, s')
  end.

Definition copyOutcome (now : Time) (jitter : Z) (jobID id : string) (c : CopyRow) (stopping : bool)
    (r : result RErr unit) : RTx CopyEnd :=
  match r with
  | Ok _ => tret (mkEnd RemoteCopySucceeded "" now StatusSucceeded)
  | Err e => fun s =>
      let '(current, s1) := match RemoteCopyByID (cInstance (cSource c)) id s with
                            | (Ok cur, s1) => (cur, s1) | (Err _, s1) => (None, s1) end in
      let '(asked, s2) := match current with
                          | None => (false, s1)
                          | Some cur =>
                              if cCancel cur then (true, s1)
                              else match cancelRequestedJob jobID s1 with
                                   | (Ok b, s2) => (b, s2) | (Err _, s2) => (false, s2) end
                          end in
      (Ok (if asked then mkEnd RemoteCopyCancelled "Remote upload cancelled." now StatusCancelled
           else if stopping || ((Retryable e || match e with RDeadline => true | _ => false end) && (now <? cDeadline c)%Z)
           then mkEnd RemoteCopyRetryWait (safeError e) (now + backoff jitter (cAttempts c + 1))%Z StatusFailed
           else mkEnd RemoteCopyFailed (safeError e) now StatusFailed), s2)
  end.

(** The end of an upload's job. *)
Definition finishUpload (now : Time) (jobID id : string) (progress : Z) (log : option string) (o : CopyEnd) : RTx unit :=
  FinishRemoteJob jobID (eJob o) progress (if bool_decide (eJob o = StatusSucceeded) then None else Some "unavailable")
    (if bool_decide (eJob o = StatusSucceeded) then None else Some (eMessage o)) log None now
    (TxFinishRemoteCopy now id (eStatus o) (eMessage o) (eNext o)).

(** [DeleteRemoteObjects]: its error, and the objects it asked the backend to
    delete. *)
Definition DeleteRemoteObjects (d : option DestRow) (c : CopyRow) : result RErr unit * list ObjectRef :=
  match d with
  | Some d =>
      if negb (takes d) then (Err RConfiguration, [])
      else
        match BackendFor (cDest (cSource c)), decodeRef (cObject c), decodeRef (cManifest c) with
        | Err e, _, _ => (Err e, [])
        | _, Some archive, Some manifest =>
            let abandoned := negb (succeeded c) && bool_decide (Key manifest = "") in
            if negb (bool_decide (Key archive = objectKey c)) ||
               (negb abandoned && negb (bool_decide (Key manifest = Key archive +:+ ".json")))
            then (Err RConfiguration, [])
            else if abandoned then (Delete archive, [archive])
            else match Delete manifest with
                 | Err e => (Err e, [manifest])
                 | Ok _ => (Delete archive, [manifest; archive])
                 end
        | _, _, _ => (Err RConfiguration, [])
        end
  | None => (Err RConfiguration, [])
  end.

(** The end of a cleanup's job, and of the work it did. *)
Definition cleanupEnd (r : result RErr unit) : string * string :=
  match r with Ok _ => (StatusSucceeded, "") | Err e => (StatusFailed, safeError e) end.
Definition finishCleanup (now : Time) (jobID id : string) (progress : Z) (log : option string) (r : result RErr unit) : RTx unit :=
  let '(status, message) := cleanupEnd r in
  FinishRemoteJob jobID status progress (if bool_decide (status = StatusSucceeded) then None else Some "unavailable")
    (if bool_decide (status = StatusSucceeded) then None else Some message) log None now
    (TxFinishRemoteCleanup now id message (now + hour)).

End Transfer.
