(* ===== verification/RemoteLaws.v ===== *)
(** The laws of the remote copies: what every operation keeps of the copies, the
    archives and the job that uploads, the step relation of the running panel, and
    its invariant. *)
From S2P Require Import Prelude Kinds Lifecycle Sql Store Retention RemoteStore RemoteCopy.

(** ** Transactions *)

Section TxLaws.
Context (P : RDB -> Prop).

#[export] Instance deferred_Inv : Inv P deferred.
Proof. intros s r s'. unfold deferred. by destruct (refsHeld s.1); intros [= <- <-]. Qed.

#[export] Instance inRTx_Inv {A} (m : RTx A) : Inv P m -> Inv P (inRTx m).
Proof. intros Hm. unfold inRTx. apply _. Qed.

#[export] Instance submitted_Inv {A B} (m : RTx A) (w : B) : Inv P m -> Inv P (submitted m w).
Proof. intros Hm s r s'. unfold submitted. destruct (m s) as [[a|e] s1] eqn:E; intros [= <- <-]; exact (Hm _ _ _ E). Qed.

#[export] Instance orElse_Inv {A} (m : RTx A) (a : A) : Inv P m -> Inv P (orElse m a).
Proof. intros Hm s r s'. unfold orElse. destruct (m s) as [[x|e] s1] eqn:E; intros [= <- <-]; exact (Hm _ _ _ E). Qed.

Lemma onBase_Inv {A} (m : Sql.Tx DB A) :
  (forall s, P s.1 -> P (withBase (m (rBase s.1, s.2)).2.1 s.1)) -> Inv P (onBase m).
Proof.
  intros Hm s r s' H Hp. unfold onBase in H. specialize (Hm s Hp). destruct (m (rBase s.1, s.2)) as [r' [b fs]].
  by injection H as <- <-.
Qed.

Lemma updateCopy_Inv id p f :
  (forall db c, P db -> rCopies db !! id = Some c -> p db c = true -> P (withCopies <[id := f db c]> db)) ->
  Inv P (updateCopy id p f).
Proof.
  intros Hf. apply stmt_Inv. intros db b db' H Hp. destruct (rCopies db !! id) as [c|] eqn:E; [|by injection H as <- <-].
  destruct (p db c) eqn:Hpc; injection H as <- <-; auto.
Qed.

End TxLaws.

Lemma inRTx_Ok {A} (m : RTx A) s a s' :
  inRTx m s = (Ok a, s') -> exists fs1 s1, m (s.1, fs1) = (Ok a, s1) /\ s'.1 = s1.1.
Proof.
  intros (fs1 & s1 & E & ->)%inTx_Ok. apply tbind_Ok in E as (b & s2 & H2 & E).
  apply tbind_Ok in E as ([] & s3 & H3 & E). injection E as -> ->. unfold deferred in H3.
  destruct (refsHeld s2.1); [|done]. injection H3 as ->. eauto.
Qed.

Lemma onBase_Ok {A} (m : Sql.Tx DB A) s r s' :
  onBase m s = (r, s') -> exists b fs, m (rBase s.1, s.2) = (r, (b, fs)) /\ s' = (withBase b s.1, fs).
Proof. unfold onBase. destruct (m _) as [r' [b fs]]. intros [= <- <-]. eauto. Qed.

Lemma updateCopy_Ok id p f s b s' :
  updateCopy id p f s = (Ok b, s') ->
  (exists c, rCopies s.1 !! id = Some c /\ p s.1 c = true /\ b = true /\ s'.1 = withCopies <[id := f s.1 c]> s.1) \/
  (b = false /\ s'.1 = s.1 /\ forall c, rCopies s.1 !! id = Some c -> p s.1 c = false).
Proof.
  intros [H _]%stmt_Ok. destruct (rCopies s.1 !! id) as [c|]; [destruct (p s.1 c) eqn:Hp|]; injection H as <- <-.
  - left. by exists c.
  - right. split_and!; [done..|]. by intros ? [= <-].
  - by right.
Qed.

(** ** The status graph *)

Definition statusEdges : list (string * string) :=
  [(RemoteCopyPending, RemoteCopyUploading); (RemoteCopyPending, RemoteCopyCancelled); (RemoteCopyPending, RemoteCopyFailed);
   (RemoteCopyRetryWait, RemoteCopyUploading); (RemoteCopyRetryWait, RemoteCopyCancelled); (RemoteCopyRetryWait, RemoteCopyFailed);
   (RemoteCopyUploading, RemoteCopySucceeded); (RemoteCopyUploading, RemoteCopyFailed);
   (RemoteCopyUploading, RemoteCopyCancelled); (RemoteCopyUploading, RemoteCopyRetryWait);
   (RemoteCopyFailed, RemoteCopyPending); (RemoteCopyCancelled, RemoteCopyPending);
   (RemoteCopySucceeded, RemoteCopyPruned)].

Definition moves (c c' : CopyRow) : Prop :=
  cSource c' = cSource c /\ (cStatus c' = cStatus c \/ (cStatus c, cStatus c') ∈ statusEdges).

(** Every copy is still there and moved along one edge at most. *)
Definition copiesMove (db db' : RDB) : Prop :=
  forall id c, rCopies db !! id = Some c -> exists c', rCopies db' !! id = Some c' /\ moves c c'.

Lemma moves_refl c : moves c c.
Proof. split; [done|by left]. Qed.

Lemma moves_same c c' : cSource c' = cSource c -> cStatus c' = cStatus c -> moves c c'.
Proof. split; [done|by left]. Qed.

Lemma copiesMove_refl db : copiesMove db db.
Proof. intros id c H. exists c. split; [done|apply moves_refl]. Qed.

Lemma copiesMove_same db db' : rCopies db' = rCopies db -> copiesMove db db'.
Proof. intros E id c H. rewrite E. exists c. split; [done|apply moves_refl]. Qed.

Lemma copiesMove_insert db id c c' :
  rCopies db !! id = Some c -> moves c c' -> copiesMove db (withCopies <[id := c']> db).
Proof.
  intros Hc Hm i x Hx. simpl. destruct (decide (id = i)) as [<-|Hne].
  - rewrite lookup_insert_eq. rewrite Hc in Hx. injection Hx as <-. eauto.
  - rewrite lookup_insert_ne by done. exists x. split; [done|apply moves_refl].
Qed.

Lemma copiesMove_add db id c : rCopies db !! id = None -> copiesMove db (withCopies <[id := c]> db).
Proof.
  intros Hc i x Hx. simpl. exists x. rewrite lookup_insert_ne; [split; [done|apply moves_refl]|]. intros ->. congruence.
Qed.

Lemma copiesMove_fmap db f : (forall c, moves c (f c)) -> copiesMove db (withCopies (fmap f) db).
Proof. intros Hf id c Hc. simpl. exists (f c). by rewrite lookup_fmap, Hc. Qed.

(** A computation that leaves the copies alone, and one that moves them. *)
Class Still {A} (m : RTx A) : Prop := still s r s' : m s = (r, s') -> rCopies s'.1 = rCopies s.1.
Class Moves {A} (m : RTx A) : Prop := moved s r s' : m s = (r, s') -> copiesMove s.1 s'.1.

#[export] Instance Still_Moves {A} (m : RTx A) : Still m -> Moves m | 10.
Proof. intros Hm s r s' H. apply copiesMove_same. exact (Hm _ _ _ H). Qed.

#[export] Instance tret_Still {A} (a : A) : Still (tret a).
Proof. by intros s r s' [= <- <-]. Qed.
#[export] Instance tfail_Still {A} e : Still (tfail (A:=A) e).
Proof. by intros s r s' [= <- <-]. Qed.
#[export] Instance must_Still n e : Still (must n e).
Proof. destruct n; apply _. Qed.
#[export] Instance readq_Still {A} (f : RDB -> A) : Still (readq f).
Proof. intros s r s' H%readq_state. by rewrite H. Qed.
#[export] Instance onBase_Still {A} (m : Sql.Tx DB A) : Still (onBase m).
Proof. by intros s r s' (b & fs & _ & ->)%onBase_Ok. Qed.
#[export] Instance deferred_Still : Still deferred.
Proof. intros s r s'. unfold deferred. by destruct (refsHeld s.1); intros [= <- <-]. Qed.
#[export] Instance point_Still : Still point.
Proof. intros s r s' H. destruct r; [apply stmt_Ok in H as [H _]|apply stmt_Err in H as [-> _]; done]. by injection H as _ <-. Qed.

Lemma stmt_Still {A} (f : RDB -> result TxErr (A * RDB)) :
  (forall db a db', f db = Ok (a, db') -> rCopies db' = rCopies db) -> Still (stmt f).
Proof.
  intros Hf s r s' H. destruct r; [apply stmt_Ok in H as [H _]; eauto|apply stmt_Err in H as [-> _]; done].
Qed.
Lemma writeq_Still f : (forall db, rCopies (f db) = rCopies db) -> Still (writeq f).
Proof. intros Hf. apply stmt_Still. intros db a db' [= _ <-]. apply Hf. Qed.
Lemma stmt_Moves {A} (f : RDB -> result TxErr (A * RDB)) :
  (forall db a db', f db = Ok (a, db') -> copiesMove db db') -> Moves (stmt f).
Proof.
  intros Hf s r s' H. destruct r; [apply stmt_Ok in H as [H _]; eauto|].
  apply stmt_Err in H as [-> _]. apply copiesMove_refl.
Qed.

#[export] Instance tbind_Still {A B} (m : RTx A) (k : A -> RTx B) :
  Still m -> (forall a, Still (k a)) -> Still (tbind m k).
Proof.
  intros Hm Hk s r s'. unfold tbind. destruct (m s) as [[a|e] s1] eqn:E; intros H.
  - rewrite (Hk a _ _ _ H). exact (Hm _ _ _ E).
  - injection H as <- <-. exact (Hm _ _ _ E).
Qed.
#[export] Instance tbind_Moves_l {A B} (m : RTx A) (k : A -> RTx B) :
  Moves m -> (forall a, Still (k a)) -> Moves (tbind m k) | 5.
Proof.
  intros Hm Hk s r s'. unfold tbind. destruct (m s) as [[a|e] s1] eqn:E; intros H.
  - intros id c Hc. rewrite (Hk a _ _ _ H). exact (Hm _ _ _ E id c Hc).
  - injection H as <- <-. exact (Hm _ _ _ E).
Qed.
#[export] Instance tbind_Moves_r {A B} (m : RTx A) (k : A -> RTx B) :
  Still m -> (forall a, Moves (k a)) -> Moves (tbind m k) | 6.
Proof.
  intros Hm Hk s r s'. unfold tbind. destruct (m s) as [[a|e] s1] eqn:E; intros H.
  - intros id c Hc. apply (Hk a _ _ _ H). by rewrite (Hm _ _ _ E).
  - injection H as <- <-. apply copiesMove_same. exact (Hm _ _ _ E).
Qed.
#[export] Instance inTx_Moves {A} (m : RTx A) : Moves m -> Moves (inTx m).
Proof.
  intros Hm s r s' H. destruct r as [a|e].
  - apply inTx_Ok in H as (fs & s1 & H1 & ->). exact (Hm _ _ _ H1).
  - apply inTx_Err in H as ->. apply copiesMove_refl.
Qed.
#[export] Instance inRTx_Moves {A} (m : RTx A) : Moves m -> Moves (inRTx m).
Proof. intros Hm. unfold inRTx. apply _. Qed.
#[export] Instance if_Moves {A} (b : bool) (m m' : RTx A) : Moves m -> Moves m' -> Moves (if b then m else m').
Proof. by destruct b. Qed.
#[export] Instance if_Still {A} (b : bool) (m m' : RTx A) : Still m -> Still m' -> Still (if b then m else m').
Proof. by destruct b. Qed.
#[export] Instance submitted_Moves {A B} (m : RTx A) (w : B) : Moves m -> Moves (submitted m w).
Proof. intros Hm s r s'. unfold submitted. destruct (m s) as [[a|e] s1] eqn:E; intros [= <- <-]; exact (Hm _ _ _ E). Qed.
#[export] Instance orElse_Moves {A} (m : RTx A) (a : A) : Moves m -> Moves (orElse m a).
Proof. intros Hm s r s'. unfold orElse. destruct (m s) as [[x|e] s1] eqn:E; intros [= <- <-]; exact (Hm _ _ _ E). Qed.

#[export] Hint Extern 3 (Moves (match ?x with _ => _ end)) => destruct x : typeclass_instances.
#[export] Hint Extern 3 (Still (match ?x with _ => _ end)) => destruct x : typeclass_instances.

Lemma updateCopy_Moves id p f :
  (forall db c, p db c = true -> moves c (f db c)) -> Moves (updateCopy id p f).
Proof.
  intros Hf. apply stmt_Moves. intros db b db' H. destruct (rCopies db !! id) as [c|] eqn:E.
  - destruct (p db c) eqn:Hp; injection H as <- <-; [|apply copiesMove_refl]. apply (copiesMove_insert _ _ c); auto.
  - injection H as <- <-. apply copiesMove_refl.
Qed.
Lemma updateCopies_Moves p f : (forall db c, p db c = true -> moves c (f c)) -> Moves (updateCopies p f).
Proof.
  intros Hf. apply stmt_Moves. intros db a db' [= _ <-]. apply copiesMove_fmap. intros c.
  destruct (p db c) eqn:E; [exact (Hf _ _ E)|apply moves_refl].
Qed.

(** The branches of a statement's function. *)
Ltac by_cases H := cbv zeta in H; repeat (case_match; simplify_eq); done.

(** The statuses as propositions. *)
Ltac statuses := repeat match goal with
  | H : waiting _ = true |- _ => apply orb_true_iff in H
  | H : gaveUp _ = true |- _ => apply orb_true_iff in H
  | H : succeeded _ = true |- _ => apply bool_decide_eq_true in H
  | H : uploading _ = true |- _ => apply bool_decide_eq_true in H
  | H : bool_decide _ = true |- _ => apply bool_decide_eq_true in H
  | H : bool_decide _ = true \/ _ |- _ => destruct H as [H|H]
  | H : _ && _ = true |- _ => apply andb_true_iff in H as [? ?]
  end.
(** An edge of the graph, its ends known. *)
Ltac edge := split; [done|right; simpl; repeat match goal with H : cStatus _ = _ |- _ => rewrite H end;
  unfold statusEdges; repeat first [by left | right]].

(** *** Every statement moves the copies along the graph *)

#[export] Instance maybeAudit_Still i now a : Still (maybeAudit i now a).
Proof. destruct a; apply _. Qed.

#[export] Instance enqueueRemoteCopy_Moves newID now i b auto : Moves (enqueueRemoteCopy newID now i b auto).
Proof.
  apply stmt_Moves. intros db a db' H. repeat case_match; simplify_eq; try apply copiesMove_refl.
  apply copiesMove_add. by apply eq_None_not_Some.
Qed.

#[export] Instance claim_Moves now id : Moves (TxClaimRemoteCopy now id).
Proof.
  apply tbind_Moves_l; [|apply _]. apply updateCopy_Moves. intros db c H. unfold claimable in H. statuses; edge.
Qed.

#[export] Instance SaveRemoteObjects_Moves id o m : Moves (SaveRemoteObjects id o m).
Proof. apply tbind_Moves_l; [|apply _]. apply updateCopy_Moves. intros db c _. by apply moves_same. Qed.
#[export] Instance MarkRemoteCleanup_Moves id : Moves (MarkRemoteCleanup id).
Proof. apply tbind_Moves_l; [|apply _]. apply updateCopy_Moves. intros db c _. by apply moves_same. Qed.
#[export] Instance UnmarkRemoteCleanup_Moves id : Moves (UnmarkRemoteCleanup id).
Proof. apply tbind_Moves_l; [|apply _]. apply updateCopy_Moves. intros db c _. by apply moves_same. Qed.
#[export] Instance MarkAbandoned_Moves i d : Moves (MarkAbandonedRemoteUploads i d).
Proof. apply updateCopies_Moves. intros db c _. by apply moves_same. Qed.

#[export] Instance changeRemoteCopy_Moves now i id retry aid audit : Moves (changeRemoteCopy now i id retry aid audit).
Proof.
  apply inRTx_Moves, tbind_Moves_l; [|apply _]. apply updateCopy_Moves. intros db c H.
  apply andb_true_iff in H as [_ H]. destruct retry.
  - statuses; edge.
  - unfold cancelled. destruct (uploading c) eqn:E; [split; [done|by left]|]. rewrite orb_false_r in H. statuses; edge.
Qed.

#[export] Instance FinishCleanup_Moves now id message next : Moves (TxFinishRemoteCleanup now id message next).
Proof.
  apply tbind_Moves_l; [|apply _]. apply updateCopy_Moves. intros db c _. unfold cleaned.
  destruct (_ && succeeded c) eqn:E; [|split; [done|by left]]. statuses; edge.
Qed.

#[export] Instance SaveRemoteDestination_Moves id d now aid audit : Moves (SaveRemoteDestination id d now aid audit).
Proof.
  apply inRTx_Moves, tbind_Moves_r; [apply _|]. intros []; [apply _|]. apply tbind_Moves_l.
  - apply updateCopies_Moves. intros db c H. statuses; edge.
  - intros _. apply tbind_Still; [by apply writeq_Still|]. intros _. apply tbind_Still; [|apply _].
    apply stmt_Still. intros db a db' H. by_cases H.
Qed.

#[export] Instance updateDest_Still id f : Still (updateDest id f).
Proof. by apply writeq_Still. Qed.
#[export] Instance UpdateRemotePolicy_Still id e c h n : Still (UpdateRemotePolicy id e c h n).
Proof. apply stmt_Still. intros db a db' H. by_cases H. Qed.
#[export] Instance deleteBackupRow_Still i id : Still (deleteBackupRow i id).
Proof. apply writeq_Still. intros db. by repeat case_match. Qed.
#[export] Instance TxDeleteBackup_Still now i id : Still (TxDeleteBackup now i id).
Proof. unfold TxDeleteBackup, TxCheckRemoteProtection. apply _. Qed.

#[export] Instance createBackup_Moves n now id b : Moves (createBackup n now id b).
Proof.
  apply tbind_Moves_r; [|apply _]. apply stmt_Still. intros db a db' H. by_cases H.
Qed.

#[export] Instance AcknowledgeWorld_Moves now i id aid audit : Moves (AcknowledgeWorld now i id aid audit).
Proof.
  apply inRTx_Moves, tbind_Moves_r.
  - apply stmt_Still. intros db a db' H. by_cases H.
  - intros []; [|apply _]. apply tbind_Moves_l; [|apply _]. apply updateCopies_Moves. intros db c _. by apply moves_same.
Qed.

(** Reconciling: an interrupted upload may expire at once, which is an edge too. *)
#[export] Instance ReconcileRemoteCopies_Moves now : Moves (ReconcileRemoteCopies now).
Proof.
  intros s r s' H. unfold ReconcileRemoteCopies, tbind in H.
  destruct (updateCopies orphaned (interrupted now) s) as [[[]|e] s1] eqn:E1.
  - apply writeq_cases in E1 as [[_ E1]|[[e ?] _]]; [|done].
    assert (forall c, moves c (if orphaned s.1 c then interrupted now c else c)) as Hm1.
    { intros c. destruct (orphaned s.1 c) eqn:Eo; [|apply moves_refl]. unfold orphaned in Eo.
      unfold interrupted. simpl. destruct (cCancel c), (cDeadline c <=? now)%Z; statuses; edge. }
    apply writeq_cases in H as [[_ H]|[_ H]]; rewrite H, E1; [|by apply copiesMove_fmap].
    intros id c Hc. simpl. rewrite !lookup_fmap, Hc. simpl. eexists. split; [done|]. cbv beta.
    destruct (orphaned s.1 c) eqn:Eo; destruct (overdue now _ _) eqn:Ed; try apply moves_refl.
    + unfold orphaned in Eo. statuses; edge.
    + specialize (Hm1 c). by rewrite Eo in Hm1.
    + unfold overdue in Ed. statuses; edge.
  - injection H as <- <-. revert E1. apply updateCopies_Moves. intros db c Ho. unfold orphaned in Ho.
    unfold interrupted. destruct (cCancel c), (cDeadline c <=? now)%Z; statuses; edge.
Qed.

(** Marking touches neither sources nor statuses, however often it is done. *)
Definition copiesRest (db db' : RDB) : Prop :=
  forall id c, rCopies db !! id = Some c ->
    exists c', rCopies db' !! id = Some c' /\ cSource c' = cSource c /\ cStatus c' = cStatus c.
#[export] Instance copiesRest_preorder : PreOrder copiesRest.
Proof.
  split.
  - intros db id c H. eauto.
  - intros x y z Hxy Hyz id c (c1 & (c2 & ? & ? & ?)%Hyz & ? & ?)%Hxy. exists c2. split_and!; congruence.
Qed.
Class Rests {A} (m : RTx A) : Prop := rested s r s' : m s = (r, s') -> copiesRest s.1 s'.1.

#[export] Instance Rests_Moves {A} (m : RTx A) : Rests m -> Moves m | 9.
Proof.
  intros Hm s r s' H id c Hc. destruct (Hm _ _ _ H id c Hc) as (c' & ? & ? & ?). exists c'. split; [done|].
  by apply moves_same.
Qed.
#[export] Instance Still_Rests {A} (m : RTx A) : Still m -> Rests m | 10.
Proof. intros Hm s r s' H id c Hc. rewrite (Hm _ _ _ H). eauto. Qed.
#[export] Instance tbind_Rests {A B} (m : RTx A) (k : A -> RTx B) : Rests m -> (forall a, Rests (k a)) -> Rests (tbind m k).
Proof.
  intros Hm Hk s r s'. unfold tbind. destruct (m s) as [[a|e] s1] eqn:E; intros H.
  - trans s1.1; [exact (Hm _ _ _ E)|exact (Hk a _ _ _ H)].
  - injection H as <- <-. exact (Hm _ _ _ E).
Qed.
#[export] Instance if_Rests {A} (b : bool) (m m' : RTx A) : Rests m -> Rests m' -> Rests (if b then m else m').
Proof. by destruct b. Qed.
#[export] Hint Extern 3 (Rests (match ?x with _ => _ end)) => destruct x : typeclass_instances.

Lemma updateCopy_Rests id p f :
  (forall db c, cSource (f db c) = cSource c /\ cStatus (f db c) = cStatus c) -> Rests (updateCopy id p f).
Proof.
  intros Hf s r s' H. destruct r as [b|e]; [|apply stmt_Err in H as [-> _]; reflexivity].
  apply updateCopy_Ok in H as [(c & Hc & _ & _ & ->)|(_ & -> & _)]; [|reflexivity].
  intros i x Hx. simpl. destruct (decide (id = i)) as [<-|Hne].
  - rewrite lookup_insert_eq. rewrite Hc in Hx. injection Hx as <-. eauto.
  - rewrite lookup_insert_ne by done. eauto.
Qed.
#[export] Instance MarkRemoteCleanup_Rests id : Rests (MarkRemoteCleanup id).
Proof. apply tbind_Rests; [by apply updateCopy_Rests|apply _]. Qed.
#[export] Instance UnmarkRemoteCleanup_Rests id : Rests (UnmarkRemoteCleanup id).
Proof. apply tbind_Rests; [by apply updateCopy_Rests|apply _]. Qed.
#[export] Instance MarkAbandoned_Rests i d : Rests (MarkAbandonedRemoteUploads i d).
Proof.
  intros s r s' H. apply writeq_cases in H as [[_ H]|[_ H]]; rewrite H; [|reflexivity].
  intros id c Hc. simpl. rewrite lookup_fmap, Hc. simpl. eexists. split; [done|]. cbv beta. by case_match.
Qed.
#[export] Instance markEach_Rests inst counts saw copies : Rests (markEach inst counts saw copies).
Proof.
  revert counts saw. induction copies as [|[id c] copies IH]; intros counts saw; [apply _|].
  cbn [markEach]. cbv zeta. apply tbind_Rests; [apply _|]. intros _. apply IH.
Qed.
#[export] Instance markInstanceRetention_Rests i inst d : Rests (markInstanceRetention i inst d).
Proof. unfold markInstanceRetention. apply _. Qed.
#[export] Instance markInstances_Rests d insts : Rests (markInstances d insts).
Proof.
  induction insts as [|[[id st] cols] insts IH]; [apply _|]. cbn [markInstances]. case_bool_decide as Hd; [apply IH|].
  intros s r s' H. destruct (markInstanceRetention id cols d s) as [[[]|e] s1] eqn:E.
  - trans s1.1; [exact (markInstanceRetention_Rests _ _ _ _ _ _ E)|exact (IH _ _ _ H)].
  - trans s1.1; [exact (markInstanceRetention_Rests _ _ _ _ _ _ E)|]. revert H. apply tbind_Rests; [apply IH|apply _].
Qed.
#[export] Instance MarkRetention_Rests : Rests MarkRetention.
Proof. unfold MarkRetention, RemoteDestination, ListInstances. apply _. Qed.

#[export] Instance ClaimRemoteJob_Moves j sup o l now (hook : RTx unit) : Moves hook -> Moves (ClaimRemoteJob j sup o l now hook).
Proof. intros Hh. unfold ClaimRemoteJob. apply _. Qed.
#[export] Instance DispatchRemote_Moves jobID owner l now : Moves (DispatchRemote jobID owner l now).
Proof. unfold DispatchRemote, submitCleanup, submitUpload, TxCheckRemoteCleanup. apply _. Qed.
#[export] Instance SubmitDelete_Moves jobID owner l now id name p from rb aid a :
  Moves (SubmitDelete jobID owner l now id name p from rb aid a).
Proof. unfold SubmitDelete, deleteOnClaim, TxCheckRemoteProtection. apply _. Qed.
#[export] Instance SweepJobs_Rests cutoff : Rests (SweepJobs cutoff).
Proof.
  intros s r s' H. unfold SweepJobs in H. destruct (onBase _ s) as [r1 [db fs]] eqn:E. injection H as <- <-.
  apply (onBase_Still (SweepTerminalJobs cutoff)) in E. simpl in E. intros id c Hc. simpl.
  rewrite lookup_fmap, E, Hc. simpl. eexists. split; [done|]. cbv beta. by case_match.
Qed.
#[export] Instance DeleteInstanceRow_Still id : Still (DeleteInstanceRow id).
Proof.
  intros s r s' H. unfold DeleteInstanceRow in H. destruct (onBase _ s) as [[u|e] [db fs]] eqn:E;
    apply (onBase_Still (TxDeleteInstance id StateDeleting)) in E; injection H as <- <-; exact E.
Qed.
#[export] Instance FinishRemoteJob_Moves jobID st p c e l cl now (hook : RTx unit) :
  Moves hook -> Moves (FinishRemoteJob jobID st p c e l cl now hook).
Proof.
  intros Hh. unfold FinishRemoteJob. apply inRTx_Moves, tbind_Moves_r; [|intros; apply _].
  apply if_Still; [apply _|]. apply stmt_Still. intros db a db' H. by_cases H.
Qed.

(** ** The running panel

    The tables, and the runners that carry out what a dispatch claimed. *)
Record RW := mkRW { wDB : RDB; wActive : gmap string Work }.

(** The operations on the tables, one transaction or statement each. *)
Inductive TableOp :=
| TQueue (newID : string) (now : Time) (instanceID backupID auditID : string) (audit : option AuditEntry)
| TCancel (now : Time) (instanceID id auditID : string) (audit : option AuditEntry)
| TRetry (now : Time) (instanceID id auditID : string) (audit : option AuditEntry)
| TReconcile (now : Time)
| TMarkRetention
| TSaveObjects (id object manifest : string)
| TSaveDestination (id : string) (d : DestRow) (now : Time) (auditID : string) (audit : option AuditEntry)
| TRecordTest (now : Time) (id message : string)
| TDisable (now : Time) (id : string)
| TPolicy (id : string) (enabled : bool) (cold hot snapshots : Z)
| TCreateBackup (newCopy : string) (now : Time) (id : string) (b : BackupRow)
| TDeleteBackup (now : Time) (instanceID id : string)
| TDeleteUnpinned (now : Time) (instanceID id auditID : string) (audit : AuditEntry)
| TAcknowledge (now : Time) (instanceID id auditID : string) (audit : option AuditEntry)
| TSweepJobs (cutoff : Time)
| TDelete (jobID owner : string) (leaseUntil now : Time) (id name payload : string) (from : State)
    (requestedBy : option string) (auditID : string) (audit : option AuditEntry).

Definition void {A} (m : RTx A) : RTx unit := let! _ := m in tret tt.

Definition perform (op : TableOp) : RTx unit :=
  match op with
  | TQueue newID now i b aid a => void (QueueRemoteCopy newID now i b aid a)
  | TCancel now i id aid a => CancelRemoteCopy now i id aid a
  | TRetry now i id aid a => RetryRemoteCopy now i id aid a
  | TReconcile now => ReconcileRemoteCopies now
  | TMarkRetention => void MarkRetention
  | TSaveObjects id o m => SaveRemoteObjects id o m
  | TSaveDestination id d now aid a => SaveRemoteDestination id d now aid a
  | TRecordTest now id m => RecordRemoteTest now id m
  | TDisable now id => DisableRemoteDestination now id
  | TPolicy id e c h n => UpdateRemotePolicy id e c h n
  | TCreateBackup n now id b => CreateBackup n now id b
  | TDeleteBackup now i id => DeleteBackup now i id
  | TDeleteUnpinned now i id aid a => DeleteBackupUnpinned now i id aid a
  | TAcknowledge now i id aid a => void (AcknowledgeWorld now i id aid a)
  | TSweepJobs cutoff => void (SweepJobs cutoff)
  | TDelete jobID o l now id name p from rb aid a => void (SubmitDelete jobID o l now id name p from rb aid a)
  end.

#[export] Instance void_Moves {A} (m : RTx A) : Moves m -> Moves (void m).
Proof. intros Hm. unfold void. apply _. Qed.
#[export] Instance perform_Moves op : Moves (perform op).
Proof.
  destruct op; simpl; apply _.
Qed.

(** Identifiers the panel draws are never drawn twice. *)
Definition freshJob (w : RW) (jobID : string) : Prop :=
  wActive w !! jobID = None /\ forall id c, rCopies (wDB w) !! id = Some c -> cJob c <> Some jobID.
Definition freshBackup (db : RDB) (id : string) : Prop :=
  forall k c, rCopies db !! k = Some c -> cBackup (cSource c) <> id.
Definition fits (w : RW) (op : TableOp) : Prop :=
  match op with
  | TCreateBackup _ _ id _ => freshBackup (wDB w) id
  | TDelete jobID _ _ _ _ _ _ _ _ _ _ => freshJob w jobID
  | _ => True
  end.

Definition deletingIn (b : DB) (id : string) : Prop :=
  exists i, instances b !! id = Some i /\ iState i = StateDeleting.
Definition runningIn (b : DB) (id : string) : Prop :=
  exists j, runs b !! id = Some j /\ Status j = StatusRunning.

Definition started (r : result TxErr (option Work)) (jobID : string) (a : gmap string Work) : gmap string Work :=
  match r with Ok (Some w) => <[jobID := w]> a | _ => a end.

(** The steps of the panel, each under its own driver faults: what the job
    engine does elsewhere, an operation, a dispatch, and a runner's end.  A job
    elsewhere enters [deleting] by [TDelete] alone. *)
Inductive rstep : RW -> RW -> Prop :=
| SBase db a b fs fs' :
    jstep (rBase db, fs) (b, fs') ->
    (forall id, is_Some (runs b !! id) -> runs (rBase db) !! id = None -> freshJob (mkRW db a) id) ->
    (forall id, deletingIn b id -> deletingIn (rBase db) id) ->
    rstep (mkRW db a) (mkRW (withBase b db) a)
| STable db a op fs :
    fits (mkRW db a) op -> rstep (mkRW db a) (mkRW (perform op (db, fs)).2.1 a)
| SDispatch db a jobID owner leaseUntil now fs :
    freshJob (mkRW db a) jobID ->
    let r := DispatchRemote jobID owner leaseUntil now (db, fs) in
    rstep (mkRW db a) (mkRW r.2.1 (started r.1 jobID a))
| SFinishUpload db a jobID id now progress log o fs :
    a !! jobID = Some (Upload id) -> runningIn (rBase db) jobID -> terminal (eJob o) = true ->
    eStatus o ∈ [RemoteCopySucceeded; RemoteCopyFailed; RemoteCopyCancelled; RemoteCopyRetryWait] ->
    rstep (mkRW db a) (mkRW (finishUpload now jobID id progress log o (db, fs)).2.1 a)
| SFinishCleanup db a jobID id now progress log r fs :
    a !! jobID = Some (Cleanup id) -> runningIn (rBase db) jobID ->
    rstep (mkRW db a) (mkRW (finishCleanup now jobID id progress log r (db, fs)).2.1 a)
| SFinishDelete db a jobID id now progress log fs :
    runningIn (rBase db) jobID ->
    rstep (mkRW db a) (mkRW (finishDelete now jobID id progress log (db, fs)).2.1 a)
| SGone db a jobID : rstep (mkRW db a) (mkRW db (delete jobID a)).

(** ** The invariant *)

Record copy_ok (db : RDB) (c : CopyRow) : Prop := {
  co_src b : rBackups db !! cBackup (cSource c) = Some b -> bInstance b = cInstance (cSource c);
  co_archive : uploading c = true -> is_Some (rBackups db !! cBackup (cSource c));
  co_kept : uploading c = true -> ~ deletingIn (rBase db) (cInstance (cSource c));
  co_lock j r : uploading c = true -> cJob c = Some j -> runs (rBase db) !! j = Some r -> LockKey r = RemoteLockKey
}.

Record rinv (a : gmap string Work) (db : RDB) : Prop := {
  ri_jobs : jobs_ok (rBase db);
  ri_copies id c : rCopies db !! id = Some c -> copy_ok db c;
  ri_uniq id1 id2 c1 c2 j : rCopies db !! id1 = Some c1 -> rCopies db !! id2 = Some c2 ->
    uploading c1 = true -> uploading c2 = true -> cJob c1 = Some j -> cJob c2 = Some j -> id1 = id2;
  ri_active j id : a !! j = Some (Upload id) -> runningIn (rBase db) j ->
    exists c, rCopies db !! id = Some c /\ uploading c = true /\ cJob c = Some j
}.

(** No job row is new, none changed its key, and none runs again. *)
Definition rowsFrom (b b' : DB) : Prop :=
  forall id j', runs b' !! id = Some j' -> exists j, runs b !! id = Some j /\ LockKey j = LockKey j' /\
    (Status j' = StatusRunning -> Status j = StatusRunning).

(** A change that starts no upload, ends none whose job runs, and takes no
    archive from under one. *)
Record gentle (db db' : RDB) : Prop := {
  ge_jobs : jobs_ok (rBase db) -> jobs_ok (rBase db');
  ge_rows : rowsFrom (rBase db) (rBase db');
  ge_deleting i : deletingIn (rBase db') i -> deletingIn (rBase db) i;
  ge_copies id c' : rCopies db' !! id = Some c' ->
    (uploading c' = false /\ forall b, rBackups db' !! cBackup (cSource c') = Some b -> bInstance b = cInstance (cSource c')) \/
    exists c, rCopies db !! id = Some c /\ cSource c' = cSource c /\
      (uploading c' = true -> uploading c = true /\ (cJob c' = cJob c \/ cJob c' = None));
  ge_running id c j : rCopies db !! id = Some c -> uploading c = true -> cJob c = Some j -> runningIn (rBase db) j ->
    exists c', rCopies db' !! id = Some c' /\ uploading c' = true /\ cJob c' = Some j;
  ge_old id c b : rCopies db !! id = Some c -> rBackups db' !! cBackup (cSource c) = Some b ->
    exists b0, rBackups db !! cBackup (cSource c) = Some b0 /\ bInstance b = bInstance b0;
  ge_archives id c : rCopies db !! id = Some c -> uploading c = true ->
    is_Some (rBackups db !! cBackup (cSource c)) -> is_Some (rBackups db' !! cBackup (cSource c))
}.

Lemma rowsFrom_running b b' j : rowsFrom b b' -> runningIn b' j -> runningIn b j.
Proof. intros Hs (r & (r0 & Hr0 & _ & Hst0)%Hs & Hst). exists r0. auto. Qed.
Lemma same_jobs_rows b b' : same_jobs b b' -> rowsFrom b b'.
Proof.
  intros Hs id j' (j & Hj & Hc)%(same_jobs_Some b); [|done]. apply core_eq in Hc as (_ & Hst & Hk & _).
  exists j. split_and!; [done..|congruence].
Qed.

Lemma rinv_gentle a db db' : gentle db db' -> rinv a db -> rinv a db'.
Proof.
  intros [Hok Hj Hd Hc Hr Ho Ha] [Ij Ic Iu Ia]. split.
  - auto.
  - intros id c' Hc'. destruct (Hc _ _ Hc') as [[Hu Hb]|(c & Hc0 & Hs & Hu)].
    { split; [done|congruence..]. }
    destruct (Ic _ _ Hc0) as [I1 I2 I3 I4]. split; rewrite ?Hs.
    + intros b Hb. destruct (Ho _ _ _ Hc0 Hb) as (b0 & Hb0 & ->). auto.
    + intros Hup. destruct (Hu Hup) as [Hup' _]. eauto.
    + intros Hup. destruct (Hu Hup) as [Hup' _]. intros Hdel%Hd. by apply I3.
    + intros j r Hup Hjob Hrun. destruct (Hu Hup) as [Hup' [E|E]]; [|congruence].
      destruct (Hj _ _ Hrun) as (r0 & Hr0 & <- & _).
      apply (I4 j); congruence.
  - intros id1 id2 c1 c2 j H1 H2 U1 U2 J1 J2.
    destruct (Hc _ _ H1) as [[? _]|(x1 & X1 & _ & V1)]; [congruence|].
    destruct (Hc _ _ H2) as [[? _]|(x2 & X2 & _ & V2)]; [congruence|].
    destruct (V1 U1) as [? [?|?]]; [|congruence]. destruct (V2 U2) as [? [?|?]]; [|congruence].
    apply (Iu _ _ x1 x2 j); congruence.
  - intros j id Haj Hrun. apply (rowsFrom_running _ _ _ Hj) in Hrun.
    destruct (Ia _ _ Haj Hrun) as (c & Hcc & Hu & Hjc). exact (Hr _ _ _ Hcc Hu Hjc Hrun).
Qed.

Lemma gentle_refl db : gentle db db.
Proof. split; [done|intros ? ?; eauto|eauto 10..]. Qed.

(** Only the job tables' other columns change. *)
Lemma gentle_base db b :
  same_jobs (rBase db) b -> (forall i, deletingIn b i -> deletingIn (rBase db) i) -> gentle db (withBase b db).
Proof.
  intros Hs Hd. split; [by apply same_jobs_ok|by apply same_jobs_rows|done|eauto 10|eauto 10|simpl; eauto|done].
Qed.

(** Copies change in place. *)
Lemma gentle_copies db f :
  (forall id c, rCopies db !! id = Some c -> cSource (f c) = cSource c) ->
  (forall id c, rCopies db !! id = Some c -> uploading (f c) = true -> uploading c = true /\ (cJob (f c) = cJob c \/ cJob (f c) = None)) ->
  (forall id c j, rCopies db !! id = Some c -> uploading c = true -> cJob c = Some j -> runningIn (rBase db) j ->
     uploading (f c) = true /\ cJob (f c) = Some j) ->
  gentle db (withCopies (fmap f) db).
Proof.
  intros H1 H2 H3. split; simpl; [done|intros ? ?; eauto|done| | |eauto|done].
  - intros id c'. rewrite lookup_fmap. intros (c & Hc & ->)%fmap_Some. right. exists c. eauto.
  - intros id c j Hc Hu Hj Hr. rewrite lookup_fmap, Hc. simpl. destruct (H3 _ _ _ Hc Hu Hj Hr). eauto.
Qed.

Lemma gentle_copy db id c c' :
  rCopies db !! id = Some c -> cSource c' = cSource c ->
  (uploading c' = true -> uploading c = true /\ (cJob c' = cJob c \/ cJob c' = None)) ->
  (forall j, uploading c = true -> cJob c = Some j -> runningIn (rBase db) j -> uploading c' = true /\ cJob c' = Some j) ->
  gentle db (withCopies <[id := c']> db).
Proof.
  intros Hc H1 H2 H3. split; simpl; [done|intros ? ?; eauto|done| | |eauto|done].
  - intros i x [[<- <-]|[_ Hx]]%lookup_insert_cases; right; [exists c|exists x]; eauto.
  - intros i x j Hx Hu Hj Hr. destruct (decide (id = i)) as [<-|Hne].
    + rewrite lookup_insert_eq. rewrite Hc in Hx. injection Hx as <-. destruct (H3 j Hu Hj Hr). eauto.
    + rewrite lookup_insert_ne by done. eauto.
Qed.

(** *** Every operation keeps it *)

Section Keep.
Context (a : gmap string Work).

Lemma stmt_gentle {A} (f : RDB -> result TxErr (A * RDB)) :
  (forall db x db', rinv a db -> f db = Ok (x, db') -> gentle db db') -> Inv (rinv a) (stmt f).
Proof. intros Hf. apply stmt_Inv. intros db x db' H Hi. apply (rinv_gentle _ db); eauto. Qed.

Lemma updateCopies_rinv p f :
  (forall db c, p db c = true -> cSource (f c) = cSource c /\
     (uploading (f c) = true -> uploading c = true /\ cJob (f c) = cJob c) /\
     (uploading c = true -> uploading (f c) = true \/ jobLive (rBase db) (cJob c) = false)) ->
  Inv (rinv a) (updateCopies p f).
Proof.
  intros Hf. apply stmt_gentle. intros db x db' Hi [= _ <-].
  apply gentle_copies; intros id c; destruct (p db c) eqn:E; try destruct (Hf _ _ E) as (H1 & H2 & H3); auto.
  - intros _ Hu. destruct (H2 Hu). auto.
  - intros j _ Hu Hj (r & Hr & Hst). destruct (H3 Hu) as [Hu'|Hl].
    + destruct (H2 Hu') as [_ ->]. auto.
    + rewrite Hj in Hl. simpl in Hl. rewrite Hr, Hst in Hl. done.
Qed.

Lemma updateCopy_rinv id p f :
  (forall db c, p db c = true -> cSource (f db c) = cSource c /\
     (uploading (f db c) = uploading c) /\ cJob (f db c) = cJob c \/ uploading c = false /\ uploading (f db c) = false /\ cSource (f db c) = cSource c) ->
  Inv (rinv a) (updateCopy id p f).
Proof.
  intros Hf. apply stmt_gentle. intros db b db' _ H. destruct (rCopies db !! id) as [c|] eqn:E.
  - destruct (p db c) eqn:Hp; injection H as <- <-; [|apply gentle_refl].
    destruct (Hf _ _ Hp) as [(H1 & H2 & H3)|(H1 & H2 & H3)]; apply (gentle_copy _ _ c); try done; rewrite ?H2, ?H3; auto; congruence.
  - injection H as <- <-. apply gentle_refl.
Qed.

Lemma onBase_rinv {A} (m : Sql.Tx DB A) :
  JobFrame m -> (forall s i, deletingIn (m s).2.1 i -> deletingIn s.1 i) -> Inv (rinv a) (onBase m).
Proof.
  intros Hm Hd. apply onBase_Inv. intros s Hi. apply (rinv_gentle _ s.1); [|done].
  apply gentle_base; [exact (Hm (rBase s.1, s.2))|exact (Hd (rBase s.1, s.2))].
Qed.

Lemma writeAuditLog_instances i now e s r s' :
  writeAuditLog i now e s = (r, s') -> instances s'.1 = instances s.1.
Proof.
  unfold writeAuditLog. intros E. destruct r as [u|x]; [|by apply stmt_Err in E as [-> _]].
  apply stmt_Ok in E as [E _]. cbv zeta in E. destruct (decide _); [done|]. by injection E as _ <-.
Qed.

#[export] Instance audit_rinv i now e : Inv (rinv a) (onBase (writeAuditLog i now e)).
Proof.
  apply onBase_rinv; [apply _|]. intros s id. destruct (writeAuditLog i now e s) as [r s'] eqn:E.
  apply writeAuditLog_instances in E. unfold deletingIn. simpl. by rewrite E.
Qed.
#[export] Instance maybeAudit_rinv i now e : Inv (rinv a) (maybeAudit i now e).
Proof. destruct e; apply _. Qed.

#[export] Instance enqueue_rinv newID now i b auto : Inv (rinv a) (enqueueRemoteCopy newID now i b auto).
Proof.
  apply stmt_gentle. intros db x db' Hi H. repeat (case_match; simplify_eq); try apply gentle_refl.
  prop_bool. split; simpl; [done|intros ? ?; eauto|done| | |eauto|done].
  - intros k c' [[<- <-]|[_ Hk]]%lookup_insert_cases; [left|right; exists c'; auto].
    split; [done|]. simpl. congruence.
  - intros k c j Hk Hu Hj _. rewrite lookup_insert_ne; [eauto|]. intros <-. naive_solver.
Qed.

Lemma copy_stays id p f :
  (forall db c, p db c = true -> cSource (f db c) = cSource c /\ cStatus (f db c) = cStatus c /\ cJob (f db c) = cJob c) ->
  Inv (rinv a) (updateCopy id p f).
Proof.
  intros Hf. apply updateCopy_rinv. intros db c Hp. left. destruct (Hf _ _ Hp) as (H1 & H2 & H3).
  unfold uploading. by rewrite H2.
Qed.

#[export] Instance SaveRemoteObjects_rinv id o m : Inv (rinv a) (SaveRemoteObjects id o m).
Proof. apply tbind_Inv; [by apply copy_stays|apply _]. Qed.
#[export] Instance MarkRemoteCleanup_rinv id : Inv (rinv a) (MarkRemoteCleanup id).
Proof. apply tbind_Inv; [by apply copy_stays|apply _]. Qed.
#[export] Instance UnmarkRemoteCleanup_rinv id : Inv (rinv a) (UnmarkRemoteCleanup id).
Proof. apply tbind_Inv; [by apply copy_stays|apply _]. Qed.

Lemma not_uploading c status : cStatus c = status -> status <> RemoteCopyUploading -> uploading c = false.
Proof. intros H Hne. unfold uploading. apply bool_decide_eq_false. congruence. Qed.
Lemma waiting_idle c : waiting c = true -> uploading c = false.
Proof. intros H. statuses; by eapply not_uploading. Qed.
Lemma gaveUp_idle c : gaveUp c = true -> uploading c = false.
Proof. intros H. statuses; by eapply not_uploading. Qed.

#[export] Instance MarkAbandoned_rinv i d : Inv (rinv a) (MarkAbandonedRemoteUploads i d).
Proof. apply updateCopies_rinv. intros db c _. split_and!; [done|auto|auto]. Qed.

#[export] Instance changeRemoteCopy_rinv now i id retry aid audit :
  Inv (rinv a) (changeRemoteCopy now i id retry aid audit).
Proof.
  apply inRTx_Inv, tbind_Inv; [|apply _]. apply updateCopy_rinv. intros db c H.
  apply andb_true_iff in H as [_ H]. destruct retry.
  - right. statuses; split_and!; try done; by eapply not_uploading.
  - unfold cancelled. destruct (uploading c) eqn:E; [left|right]; by split_and!.
Qed.

#[export] Instance ReconcileRemoteCopies_rinv now : Inv (rinv a) (ReconcileRemoteCopies now).
Proof.
  apply tbind_Inv; [|intros _]; apply updateCopies_rinv; intros db c H.
  - apply andb_true_iff in H as [_ H%negb_true_iff]. split_and!; [done| |auto].
    unfold interrupted. simpl. destruct (cCancel c), (cDeadline c <=? now)%Z; done.
  - apply andb_true_iff in H as [H%waiting_idle _]. split_and!; [done|done|congruence].
Qed.

#[export] Instance FinishCleanup_rinv now id message next : Inv (rinv a) (TxFinishRemoteCleanup now id message next).
Proof.
  apply tbind_Inv; [|apply _]. apply updateCopy_rinv. intros db c _. unfold cleaned.
  destruct (succeeded c) eqn:E; [right|left].
  - statuses. split_and!; [by eapply not_uploading| |done]. unfold uploading. simpl. rewrite E.
    by destruct (bool_decide (message = "")).
  - rewrite andb_false_r. split_and!; done.
Qed.

#[export] Instance markEach_rinv inst counts saw copies : Inv (rinv a) (markEach inst counts saw copies).
Proof.
  revert counts saw. induction copies as [|[id c] copies IH]; intros counts saw; [apply _|].
  cbn [markEach]. cbv zeta. apply tbind_Inv; [apply _|]. intros _. apply IH.
Qed.
#[export] Instance markInstanceRetention_rinv i inst d : Inv (rinv a) (markInstanceRetention i inst d).
Proof. unfold markInstanceRetention, RemoteRetentionCopies. apply _. Qed.
#[export] Instance markInstances_rinv d insts : Inv (rinv a) (markInstances d insts).
Proof.
  induction insts as [|[[id st] cols] insts IH]; [apply _|]. cbn [markInstances]. case_bool_decide as Hd; [apply IH|].
  intros s r s' H. destruct (markInstanceRetention id cols d s) as [[[]|e] s1] eqn:E; intros Hi.
  - exact (IH _ _ _ H (markInstanceRetention_rinv _ _ _ _ _ _ E Hi)).
  - assert (Inv (rinv a) (let! errs := markInstances d insts in tret (e :: errs))) as Hk by apply _.
    exact (Hk _ _ _ H (markInstanceRetention_rinv _ _ _ _ _ _ E Hi)).
Qed.
#[export] Instance MarkRetention_rinv : Inv (rinv a) MarkRetention.
Proof. unfold MarkRetention, RemoteDestination, ListInstances. apply _. Qed.

(** A change of other tables. *)
Lemma stmt_aside {A} (f : RDB -> result TxErr (A * RDB)) :
  (forall db x db', f db = Ok (x, db') ->
     rBase db' = rBase db /\ rCopies db' = rCopies db /\ rBackups db' = rBackups db) -> Inv (rinv a) (stmt f).
Proof.
  intros Hf. apply stmt_gentle. intros db x db' _ (E1 & E2 & E3)%Hf. split; rewrite ?E1, ?E2, ?E3; [done|..|done].
  - intros ? ?; eauto.
  - done.
  - intros id c Hc. right. exists c. auto.
  - eauto.
  - eauto.
Qed.

#[export] Instance SaveRemoteDestination_rinv id d now aid audit : Inv (rinv a) (SaveRemoteDestination id d now aid audit).
Proof.
  apply inRTx_Inv, tbind_Inv; [apply _|]. intros []; [apply _|]. apply tbind_Inv.
  - apply updateCopies_rinv. intros db c H. apply andb_true_iff in H as [H%waiting_idle _].
    split_and!; [done|done|congruence].
  - intros _. apply tbind_Inv; [|intros _; apply tbind_Inv; [|apply _]].
    + apply stmt_aside. by intros db x db' [= _ <-].
    + apply stmt_aside. intros db x db' H. by_cases H.
Qed.
#[export] Instance updateDest_rinv id f : Inv (rinv a) (updateDest id f).
Proof. apply stmt_aside. by intros db x db' [= _ <-]. Qed.
#[export] Instance UpdateRemotePolicy_rinv id e c h n : Inv (rinv a) (UpdateRemotePolicy id e c h n).
Proof. apply stmt_aside. intros db x db' H. by_cases H. Qed.

#[export] Instance AcknowledgeWorld_rinv now i id aid audit : Inv (rinv a) (AcknowledgeWorld now i id aid audit).
Proof.
  apply inRTx_Inv, tbind_Inv.
  - apply stmt_gentle. intros db x db' _ H. unfold backupByID in H.
    destruct (rBackups db !! id) as [b|] eqn:E; [|injection H as _ <-; apply gentle_refl].
    case_bool_decide; injection H as _ <-; [|apply gentle_refl].
    split; simpl; [done|intros ? ?; eauto|done| |eauto| |].
    + intros k c Hc. right. exists c. auto.
    + intros k c b0 Hc [[<- <-]|[_ Hb]]%lookup_insert_cases; eauto.
    + intros k c _ _ Hb. apply lookup_insert_is_Some_cases. auto.
  - intros []; [|apply _]. apply tbind_Inv; [|apply _]. apply updateCopies_rinv. intros db c _. split_and!; auto.
Qed.

(** An archive under an upload is not deleted. *)
Lemma protected_spec now i id db : protected now i id db = false <->
  forall k c, rCopies db !! k = Some c -> cInstance (cSource c) = i -> (id = "" \/ cBackup (cSource c) = id) ->
    uploading c = false /\ (waiting c = true -> (cDeadline c <= now)%Z).
Proof.
  unfold protected. rewrite <- not_true_iff_false, existsb_elem_of. split.
  - intros Hn k c Hc Hi Hb. assert (forall u w, (u || w = true -> False) -> u = false /\ w = false) as Hor.
    { intros [] []; naive_solver. }
    destruct (Hor (uploading c) (waiting c && (now <? cDeadline c)%Z)) as [Hu Hw].
    { intros H. apply Hn. exists (k, c). rewrite elem_of_map_to_list. split; [done|]. cbn [snd]. rewrite H.
      rewrite (bool_decide_eq_true_2 _ Hi). destruct Hb as [->| <-]; [done|].
      by rewrite (bool_decide_eq_true_2 (cBackup (cSource c) = cBackup (cSource c))), orb_true_r. }
    split; [done|]. intros Hwt. rewrite Hwt in Hw. by apply Z.ltb_ge.
  - intros H ([k c] & Hc%elem_of_map_to_list & Hb). cbn [snd] in Hb.
    apply andb_true_iff in Hb as [[H1 H2]%andb_true_iff H3]. apply bool_decide_eq_true in H1.
    destruct (H _ _ Hc H1) as [Hu Hw].
    { apply orb_true_iff in H2 as [?%bool_decide_eq_true|?%bool_decide_eq_true]; auto. }
    rewrite Hu in H3. simpl in H3. apply andb_true_iff in H3 as [Hwt Hd%Z.ltb_lt]. specialize (Hw Hwt). lia.
Qed.

#[export] Instance TxDeleteBackup_rinv now i id : Inv (rinv a) (TxDeleteBackup now i id).
Proof.
  intros s r s' H Hi. unfold TxDeleteBackup, TxCheckRemoteProtection in H. unfold tbind in H.
  destruct (readq (protected now i id) s) as [[p|e] s1] eqn:E; [|injection H as <- <-; by apply readq_state in E as ->].
  apply readq_Ok in E as [-> E]. destruct (protected now i id s.1) eqn:Hp; [injection H as <- <-; by rewrite E|].
  simpl in H. rewrite <- E in Hi, Hp. apply writeq_cases in H as [[_ H]|[_ H]]; rewrite H; [|done].
  destruct (rBackups s1.1 !! id) as [b|] eqn:Eb; [|done]. case_bool_decide as Hbi; [|done].
  apply (rinv_gentle _ s1.1); [|done]. split; simpl; [done|intros ? ?; eauto|done| |eauto| |].
  - intros k c Hc. right. exists c. auto.
  - intros k c b0 Hc [_ Hb]%lookup_delete_Some. eauto.
  - intros k c Hc Hu [b0 Hb0]. exists b0. apply lookup_delete_Some. split; [|done]. intros Hid. rewrite <- Hid in Hb0.
    assert (b0 = b) as -> by congruence. pose proof (co_src _ _ (ri_copies _ _ Hi _ _ Hc) b) as Hs.
    rewrite <- Hid in Hs. destruct (proj1 (protected_spec now i id s1.1) Hp k c Hc) as [? _]; [|by right|congruence].
    rewrite <- Hbi. symmetry. auto.
Qed.
End Keep.

(** *** Claims *)

Lemma ClaimRemoteJob_Ok j sup owner until now (hook : RTx unit) s j' s' :
  ClaimRemoteJob j sup owner until now hook s = (Ok j', s') ->
  let keys := claimKeys (LockKey j) sup in
  exists fs1 d fs2,
    (forall key, key ∈ keys -> locks (rBase s.1) !! key = None) /\
    hook (withBase (withLocks (takeKeys (ID j) now keys) (rBase s.1)) s.1, fs1) = (Ok tt, (d, fs2)) /\
    runs (rBase d) !! ID j = None /\
    s'.1 = withBase (withRuns <[ID j := claimedRow j owner until now]> (rBase d)) d.
Proof.
  intros (fs0 & s1 & E & ->)%inRTx_Ok keys. apply tbind_Ok in E as (u & s2 & H1 & E).
  apply onBase_Ok in H1 as (b & fs1 & H1 & ->). apply acquireLocks_Ok in H1 as [Hfree Hb]. simpl in Hfree, Hb.
  apply tbind_Ok in E as ([] & [d fs2] & H2 & E). apply tbind_Ok in E as (v & s3 & H3 & E). injection E as _ <-.
  apply onBase_Ok in H3 as (b' & fs3 & H3 & ->). unfold insertRun in H3. apply stmt_Ok in H3 as [H3 _].
  cbn [fst snd] in *. change (ID (claimedRow j owner until now)) with (ID j) in H3.
  destruct (decide _) as [|Hn]; [done|]. destruct (negb _); [done|]. injection H3 as _ H3.
  exists fs1, d, fs2. split_and!.
  - intros key Hk. by apply Hfree.
  - subst b. exact H2.
  - by apply eq_None_not_Some.
  - by rewrite <- H3.
Qed.

Lemma ClaimRemoteJob_Err j sup owner until now (hook : RTx unit) s e s' :
  ClaimRemoteJob j sup owner until now hook s = (Err e, s') -> s'.1 = s.1.
Proof. apply inTx_Err. Qed.

Lemma claim_base a db keys now row d :
  rinv a db -> freshJob (mkRW db a) (ID row) ->
  (forall key, key ∈ keys -> locks (rBase db) !! key = None) -> LockKey row ∈ keys -> Status row = StatusRunning ->
  same_jobs (withLocks (takeKeys (ID row) now keys) (rBase db)) d -> runs d !! ID row = None ->
  (forall id c, rCopies db !! id = Some c -> uploading c = true -> ~ deletingIn d (cInstance (cSource c))) ->
  rinv a (withBase (withRuns <[ID row := row]> d) db).
Proof.
  intros [Ij Ic Iu Ia] [Hfa Hfc] Hfree Hkey Hst Hs Hnew Hdel. simpl in Hfa, Hfc.
  assert (forall j r, runs (withRuns <[ID row := row]> d) !! j = Some r -> j <> ID row ->
    exists r0, runs (rBase db) !! j = Some r0 /\ core r0 = core r) as Hrow.
  { intros j r Hr Hne. simpl in Hr. rewrite lookup_insert_ne in Hr by done.
    exact (same_jobs_Some _ _ _ _ Hs Hr). }
  split.
  - by apply (claim_jobs_ok (rBase db) keys now row).
  - intros id c Hc. destruct (Ic _ _ Hc) as [I1 I2 I3 I4]. split; [exact I1|exact I2| |].
    + intros Hu. exact (Hdel _ _ Hc Hu).
    + intros j r Hu Hj Hr. destruct (decide (j = ID row)) as [->|Hne]; [by destruct (Hfc _ _ Hc)|].
      destruct (Hrow _ _ Hr Hne) as (r0 & Hr0 & Hcore). apply core_eq in Hcore as (_ & _ & <- & _). eauto.
  - exact Iu.
  - intros j id Haj (r & Hr & Hrs). destruct (decide (j = ID row)) as [->|Hne]; [congruence|].
    destruct (Hrow _ _ Hr Hne) as (r0 & Hr0 & Hcore). apply core_eq in Hcore as (_ & Hst0 & _).
    apply (Ia _ _ Haj). exists r0. split; [done|congruence].
Qed.

Lemma upload_begins a db jobID id c c' row :
  rinv a db -> a !! jobID = None -> (forall k x, rCopies db !! k = Some x -> cJob x <> Some jobID) ->
  runs (rBase db) !! jobID = Some row -> LockKey row = RemoteLockKey ->
  rCopies db !! id = Some c -> uploading c = false -> is_Some (rBackups db !! cBackup (cSource c)) ->
  ~ deletingIn (rBase db) (cInstance (cSource c)) ->
  cSource c' = cSource c -> uploading c' = true -> cJob c' = Some jobID ->
  rinv (<[jobID := Upload id]> a) (withCopies <[id := c']> db).
Proof.
  intros [Ij Ic Iu Ia] Hfa Hfc Hrow Hkey Hc Hidle Harch Hdel Hs Hu Hj. split; [done|..].
  - intros k x [[<- <-]|[_ Hx]]%lookup_insert_cases.
    + destruct (Ic _ _ Hc) as [I1 _ _ _]. split; simpl; rewrite ?Hs; auto.
      intros j r _ Hj' Hr. congruence.
    + destruct (Ic _ _ Hx). by split.
  - intros k1 k2 x1 x2 j [[<- <-]|[N1 H1]]%lookup_insert_cases [[<- <-]|[N2 H2]]%lookup_insert_cases U1 U2 J1 J2;
      [done|..].
    + destruct (Hfc _ _ H2). congruence.
    + destruct (Hfc _ _ H1). congruence.
    + exact (Iu _ _ _ _ _ H1 H2 U1 U2 J1 J2).
  - intros j k [[<- [= <-]]|[Hne Ha]]%lookup_insert_cases Hrun.
    + exists c'. split; [apply lookup_insert_eq|done].
    + destruct (Ia _ _ Ha Hrun) as (x & Hx & Hux & Hjx). exists x. split; [|done]. simpl.
      rewrite lookup_insert_ne; [done|]. intros <-. congruence.
Qed.

Lemma held_key jobID now keys b :
  RemoteLockKey ∈ keys -> LockHolder RemoteLockKey (withLocks (takeKeys jobID now keys) b) = Some jobID.
Proof. intros Hk. unfold LockHolder. simpl. rewrite takeKeys_lookup. by rewrite decide_True. Qed.

Lemma remoteJob_keys kind jobID id c :
  RemoteLockKey ∈ claimKeys (LockKey (remoteJob kind jobID id c)) [remoteInstanceKey (cInstance (cSource c))].
Proof. apply claimKeys_elem. by left. Qed.

Lemma rinv_cleanup a db jobID id : a !! jobID = None -> rinv a db -> rinv (<[jobID := Cleanup id]> a) db.
Proof.
  intros Ha [Ij Ic Iu Ia]. split; [done..|]. intros j k [[<- ?]|[_ Hj]]%lookup_insert_cases; [done|auto].
Qed.

(** What a committed claim of an upload did. *)
Lemma TxClaimRemoteCopy_Ok now id s u s' :
  TxClaimRemoteCopy now id s = (Ok u, s') ->
  exists c, rCopies s.1 !! id = Some c /\ claimable now s.1 c = true /\
    s'.1 = withCopies <[id := claimed now s.1 c]> s.1.
Proof.
  intros (n & s1 & H1 & H2)%tbind_Ok. apply updateCopy_Ok in H1 as [(c & Hc & Hp & -> & E)|(-> & _ & _)]; [|done].
  injection H2 as _ <-. eauto.
Qed.

Lemma submitUpload_rinv a db jobID owner until now id c fs :
  freshJob (mkRW db a) jobID -> rinv a db ->
  let r := submitUpload jobID owner until now id c (db, fs) in rinv (started r.1 jobID a) r.2.1.
Proof.
  intros Hf Hi. unfold submitUpload, submitted. destruct (ClaimRemoteJob _ _ _ _ _ _ _) as [[j|e] s'] eqn:E; simpl;
    [|by rewrite (ClaimRemoteJob_Err _ _ _ _ _ _ _ _ _ E)].
  apply ClaimRemoteJob_Ok in E as (fs1 & d & fs2 & Hfree & Hh & Hnew & ->).
  apply TxClaimRemoteCopy_Ok in Hh as (x & Hx & Hcl & Hd). simpl in Hfree, Hx, Hcl, Hd. subst d.
  set (keys := claimKeys _ _) in *. set (row := claimedRow _ _ _ _).
  unfold claimable in Hcl. rewrite !andb_true_iff in Hcl. destruct Hcl as [[[[Hw _] _] _] Hk].
  unfold archiveKept in Hk. simpl in Hk. destruct (rBackups db !! _) as [b|] eqn:Eb; [|done].
  pose proof (co_src _ _ (ri_copies _ _ Hi _ _ Hx) _ Eb) as Hbi.
  change (withBase _ _) with (withCopies <[id := claimed now (withBase (withLocks (takeKeys jobID now keys) (rBase db)) db) x]>
    (withBase (withRuns <[ID row := row]> (withLocks (takeKeys jobID now keys) (rBase db))) db)).
  apply (upload_begins _ _ _ _ x _ row); simpl; try done.
  - apply (claim_base _ _ keys now); try done.
    + exact (remoteJob_keys KindRemoteCopy jobID id c).
    + intros k y Hy Hu. apply (co_kept _ _ (ri_copies _ _ Hi _ _ Hy) Hu).
  - apply (proj1 Hf).
  - apply (proj2 Hf).
  - apply lookup_insert_eq.
  - by apply waiting_idle.
  - rewrite <- Hbi. intros (i & Hin & Hst). unfold instanceKept in Hk. simpl in Hk, Hin. rewrite Hin in Hk.
    rewrite bool_decide_eq_true_2 in Hk by done. done.
  - exact (held_key _ _ _ _ (remoteJob_keys KindRemoteCopy jobID id c)).
Qed.

Lemma submitCleanup_rinv a db jobID owner until now id c fs :
  freshJob (mkRW db a) jobID -> rinv a db ->
  let r := submitCleanup jobID owner until now id c (db, fs) in rinv (started r.1 jobID a) r.2.1.
Proof.
  intros Hf Hi. unfold submitCleanup, submitted. destruct (ClaimRemoteJob _ _ _ _ _ _ _) as [[j|e] s'] eqn:E; simpl;
    [|by rewrite (ClaimRemoteJob_Err _ _ _ _ _ _ _ _ _ E)].
  apply ClaimRemoteJob_Ok in E as (fs1 & d & fs2 & Hfree & Hh & Hnew & ->).
  apply tbind_Ok in Hh as (ok & s1 & H1 & H2). apply readq_Ok in H1 as [_ H1]. destruct ok; [|done].
  injection H2 as H2. rewrite H2 in H1. simpl in H1, Hfree. subst d.
  apply rinv_cleanup; [apply (proj1 Hf)|].
  refine (claim_base a db (claimKeys RemoteLockKey [remoteInstanceKey (cInstance (cSource c))]) now
    (claimedRow (remoteJob KindRemotePrune jobID id c) owner until now) _ Hi Hf Hfree _ _ _ Hnew _); try done.
  - exact (remoteJob_keys KindRemotePrune jobID id c).
  - intros k y Hy Hu. apply (co_kept _ _ (ri_copies _ _ Hi _ _ Hy) Hu).
Qed.

Lemma DispatchRemote_rinv a db jobID owner until now fs :
  freshJob (mkRW db a) jobID -> rinv a db ->
  let r := DispatchRemote jobID owner until now (db, fs) in rinv (started r.1 jobID a) r.2.1.
Proof.
  intros Hf Hi. unfold DispatchRemote, orElse. destruct (tbind _ _ (db, fs)) as [[w|e] s'] eqn:E; simpl.
  - apply tbind_Ok in E as (cl & [d1 fs1] & H1 & E). apply readq_Ok in H1 as [_ H1]. simpl in H1. subst d1.
    destruct cl as [[id c]|].
    { pose proof (submitCleanup_rinv a db jobID owner until now id c fs1 Hf Hi) as Hr. by rewrite E in Hr. }
    apply tbind_Ok in E as (cp & [d2 fs2] & H2 & E). apply readq_Ok in H2 as [_ H2]. simpl in H2. subst d2.
    destruct cp as [[id c]|].
    { pose proof (submitUpload_rinv a db jobID owner until now id c fs2 Hf Hi) as Hr. by rewrite E in Hr. }
    by injection E as <- <-.
  - assert (s'.1 = db) as ->; [|done]. revert E. unfold tbind, submitCleanup, submitUpload, submitted.
    intros E. destruct (readq (DueRemoteCleanup now) (db, fs)) as [[[[id c]|]|e1] [d1 fs1]] eqn:E1;
      apply readq_state in E1; simpl in E1; subst d1.
    + by destruct (ClaimRemoteJob _ _ _ _ _ _ _) as [[]].
    + destruct (readq (DueRemoteCopies now) (db, fs1)) as [[[[id c]|]|e1] [d1 fs2]] eqn:E2;
        apply readq_state in E2; simpl in E2; subst d1; [by destruct (ClaimRemoteJob _ _ _ _ _ _ _) as [[]]|done|].
      by injection E as _ <-.
    + by injection E as _ <-.
Qed.

(** *** The other operations *)

Lemma CreateBackup_rinv a newCopy now id b s :
  freshBackup s.1 id -> rinv a s.1 -> rinv a (CreateBackup newCopy now id b s).2.1.
Proof.
  intros Hf Hi. destruct (CreateBackup newCopy now id b s) as [[u|e] s'] eqn:E; simpl;
    [|apply inTx_Err in E; by rewrite E].
  apply inRTx_Ok in E as (fs1 & s1 & E & ->). apply tbind_Ok in E as ([] & s2 & H2 & E).
  apply (enqueue_rinv _ _ _ _ _ _ _ _ _ E). apply stmt_Ok in H2 as [H2 _]. simpl in H2.
  destruct (decide _) as [|Hn]; [done|]. destruct (negb _); [done|]. injection H2 as H2. rewrite <- H2.
  apply (rinv_gentle _ s.1); [|done]. apply eq_None_not_Some in Hn.
  split; simpl; [done|intros ? ?; eauto|done| |eauto| |].
  - intros k c Hk. right. exists c. auto.
  - intros k c b0 Hk [[He _]|[_ Hb]]%lookup_insert_cases; [|eauto]. by destruct (Hf _ _ Hk).
  - intros k c _ _ Hb. apply lookup_insert_is_Some_cases. auto.
Qed.

Lemma sweptRows_sub cutoff b id j : runs (withRuns (filter (fun kv => kv.1 ∉ (ID <$> sweptRows cutoff b))) b) !! id = Some j ->
  runs b !! id = Some j.
Proof. simpl. by intros [? _]%map_lookup_filter_Some. Qed.

#[export] Instance SweepJobs_rinv a cutoff : Inv (rinv a) (SweepJobs cutoff).
Proof.
  intros s r s' H Hi. unfold SweepJobs in H. destruct (onBase _ s) as [r1 [db fs]] eqn:E. injection H as <- <-.
  apply onBase_Ok in E as (b & fs1 & E & Edb). injection Edb as -> <-. simpl.
  pose proof (jstep_ok _ _ (JSweep cutoff (rBase s.1, s.2)) (ri_jobs _ _ Hi)) as Hok. rewrite E in Hok. simpl in Hok.
  assert (rowsFrom (rBase s.1) b /\ forall i, deletingIn b i -> deletingIn (rBase s.1) i) as [Hrows Hdel].
  { unfold SweepTerminalJobs in E. destruct r1 as [n|e]; [apply stmt_Ok in E as [E _]|apply stmt_Err in E as [E _]; simpl in E; rewrite E].
    - cbv zeta in E. injection E as _ <-. split; [|done]. intros id j Hj%sweptRows_sub. eauto.
    - split; [|done]. intros id j Hj. eauto. }
  apply (rinv_gentle _ (withBase b s.1)).
  - apply gentle_copies; intros id c Hc; [by case_match|intros Hu|intros j Hu Hj (x & Hx & Hst)].
    + case_match; auto.
    + unfold jobHeld. simpl. rewrite Hj. simpl in Hx. rewrite Hx, bool_decide_eq_true_2 by eauto. done.
  - apply (rinv_gentle _ s.1); [|done]. split; simpl; [done|done|done|eauto 10|eauto 10|eauto|done].
Qed.

Lemma TxUpdate_cases now id from to s r s' : TxUpdateInstanceState now id from to s = (r, s') ->
  same_jobs s.1 s'.1 /\ forall i, deletingIn s'.1 i -> deletingIn s.1 i \/ (i = id /\ r = Ok true).
Proof.
  unfold TxUpdateInstanceState. intros H. split; [pose proof (casInstance_frame id from to (setState to now) s) as Hf; by rewrite H in Hf|].
  intros i Hd. destruct r as [n|e]; [|apply casInstance_Err in H; left; by rewrite <- H].
  apply casInstance_Ok in H as [(x & Hx & _ & _ & -> & E)|(_ & E & _)]; [|left; by rewrite <- E].
  rewrite E in Hd. destruct Hd as (y & Hy & Hst). simpl in Hy.
  apply lookup_insert_cases in Hy as [[<- _]|[_ Hy]]; [by right|left; by exists y].
Qed.

(** A claimed deletion leaves no upload of the instance. *)
Lemma deleteOnClaim_Ok now id from s u s' :
  deleteOnClaim now id from s = (Ok u, s') ->
  protected now id "" s.1 = false /\
  exists b, s'.1 = withBase b s.1 /\ same_jobs (rBase s.1) b /\
    forall i, deletingIn b i -> deletingIn (rBase s.1) i \/ i = id.
Proof.
  intros (v & s1 & H1 & E)%tbind_Ok. apply tbind_Ok in H1 as (p & s2 & H1 & H2). apply readq_Ok in H1 as [-> H1].
  destruct (protected now id "" s.1) eqn:Hp; [done|]. injection H2 as _ <-. split; [done|]. rewrite <- H1.
  apply tbind_Ok in E as (ok & s3 & H3 & E). destruct ok; [|done]. injection E as _ <-.
  assert (exists t, onBase (TxUpdateInstanceState now id t StateDeleting) s2 = (Ok true, s3)) as [t H].
  { case_bool_decide; [by eexists|]. destruct (ValidateTransition from StateDeleting); [by eexists|done]. }
  apply onBase_Ok in H as (b & fs & H & ->). apply TxUpdate_cases in H as [Hs Hd]. simpl in *.
  exists b. split_and!; [done..|]. intros i Hi. destruct (Hd i Hi) as [?|[? _]]; auto.
Qed.

Lemma SubmitDelete_rinv a db jobID owner until now id name payload from rb aid audit fs :
  freshJob (mkRW db a) jobID -> rinv a db ->
  rinv a (SubmitDelete jobID owner until now id name payload from rb aid audit (db, fs)).2.1.
Proof.
  intros Hf Hi. unfold SubmitDelete. destruct (ClaimRemoteJob _ _ _ _ _ _ _) as [[j|e] s'] eqn:E; simpl;
    [|by rewrite (ClaimRemoteJob_Err _ _ _ _ _ _ _ _ _ E)].
  apply ClaimRemoteJob_Ok in E as (fs1 & d & fs2 & Hfree & Hh & Hnew & ->). simpl in Hfree.
  apply tbind_Ok in Hh as (v & s1 & H1 & H2). apply deleteOnClaim_Ok in H1 as (Hp & b & Hb & Hs & Hd). simpl in *.
  assert (exists b', d = withBase b' db /\ same_jobs b b' /\ instances b' = instances b) as (b' & -> & Hs' & Hin).
  { unfold maybeAudit in H2. destruct audit as [e|].
    - apply onBase_Ok in H2 as (b' & fs' & H2 & E). injection E as -> _. exists b'. rewrite Hb in H2 |- *. cbn [rBase withBase] in H2.
      split; [done|]. split; [pose proof (writeAuditLog_frame aid now e (b, s1.2)) as Hw; by rewrite H2 in Hw|].
      exact (writeAuditLog_instances _ _ _ _ _ _ H2).
    - injection H2 as E. exists b. rewrite E in Hb. simpl in Hb. split; [done|]. split; [reflexivity|done]. }
  refine (claim_base a db (claimKeys (InstanceLockKey id) [remoteInstanceKey id]) now
    (claimedRow (mkJob jobID (kindName KindDelete) "" (InstanceLockKey id) (Some id) name None false payload None false
                    0 None None None None None rb 0 None None None 0 None None) owner until now) b' Hi Hf Hfree _ _ _ Hnew _); try done.
  - apply claimKeys_elem. by left.
  - by trans b.
  - intros k c Hk Hu. intros (i & Hii & Hst). rewrite Hin in Hii. destruct (Hd (cInstance (cSource c))) as [H|H]; [by exists i| |].
    + exact (co_kept _ _ (ri_copies _ _ Hi _ _ Hk) Hu H).
    + destruct (proj1 (protected_spec now id "" _) Hp k c Hk H) as [? _]; [by left|]. congruence.
Qed.

Lemma perform_rinv a db op fs : fits (mkRW db a) op -> rinv a db -> rinv a (perform op (db, fs)).2.1.
Proof.
  intros Hf Hi. assert (forall (m : RTx unit), Inv (rinv a) m -> rinv a (m (db, fs)).2.1) as Hm.
  { intros m Hm. destruct (m (db, fs)) as [r s'] eqn:E. exact (Hm _ _ _ E Hi). }
  assert (forall A (m : RTx A), (void m (db, fs)).2.1 = (m (db, fs)).2.1) as Hv.
  { intros A m. unfold void, tbind. by destruct (m (db, fs)) as [[]]. }
  destruct op; cbn [perform fits] in *; try (apply Hm; unfold void; apply _).
  - by apply (CreateBackup_rinv a newCopy now id b (db, fs)).
  - rewrite Hv. by apply SubmitDelete_rinv.
Qed.

(** *** The ends of jobs *)

Definition closedBase (jobID status : string) (p : Z) (c e l : option string) (cl : option bool) (at_ : Time) (b : DB) (row : Job) : DB :=
  withLocks (filter (fun kv => kv.2.1 <> jobID)) (withRuns <[jobID := setFinished status p c e l cl at_ row]> b).

Lemma FinishRemoteJob_Ok jobID status p c e l cl at_ (hook : RTx unit) s u s' row :
  FinishRemoteJob jobID status p c e l cl at_ hook s = (Ok u, s') -> runs (rBase s.1) !! jobID = Some row ->
  exists fs1 fs2, hook (withBase (closedBase jobID status p c e l cl at_ (rBase s.1) row) s.1, fs1) = (Ok u, (s'.1, fs2)).
Proof.
  intros (fs0 & s1 & E & ->)%inRTx_Ok Hrow. apply tbind_Ok in E as (b & s2 & H1 & E).
  apply tbind_Ok in E as ([] & s3 & H2 & E). apply onBase_Ok in H2 as (b2 & fs2 & H2 & ->).
  unfold releaseLocks in H2. apply stmt_Ok in H2 as [H2 _]. injection H2 as H2. cbn [fst] in H2.
  destruct (statusChecked status).
  - apply onBase_Ok in H1 as (b1 & fs1 & H1 & ->). apply updateRun_Ok in H1 as [(j & Hj & _ & _ & H1)|(_ & _ & [H1|(j & _ & H1)])];
      simpl in *; [|congruence|done].
    subst b1 b2. destruct s1 as [d fs3].
    rewrite Hrow in Hj. injection Hj as <-. exists fs2, fs3. exact E.
  - apply stmt_Ok in H1 as [H1 _]. cbn [fst] in H1. by rewrite Hrow in H1.
Qed.

Lemma FinishRemoteJob_Err jobID status p c e l cl at_ (hook : RTx unit) s x s' :
  FinishRemoteJob jobID status p c e l cl at_ hook s = (Err x, s') -> s'.1 = s.1.
Proof. apply inTx_Err. Qed.

Lemma closed_rinv a db jobID status p c e l cl at_ row :
  rinv a db -> runs (rBase db) !! jobID = Some row -> terminal status = true ->
  rinv a (withBase (closedBase jobID status p c e l cl at_ (rBase db) row) db).
Proof.
  intros Hi Hrow Ht. apply (rinv_gentle _ db); [|done]. split; simpl; [| |done|eauto 10|eauto 10|eauto|done].
  - intros Hok. by apply (close_jobs_ok (rBase db) jobID (setFinished status p c e l cl at_) row).
  - intros id j [[<- <-]|[_ Hj]]%lookup_insert_cases; [|eauto]. exists row. split_and!; [done..|].
    simpl. intros ->. done.
Qed.

Lemma closed_idle db jobID status p c e l cl at_ row : terminal status = true ->
  ~ runningIn (closedBase jobID status p c e l cl at_ (rBase db) row) jobID.
Proof. intros Ht (r & Hr & Hst). simpl in Hr. rewrite lookup_insert_eq in Hr. injection Hr as <-. simpl in Hst. by subst. Qed.

Lemma FinishRemoteJob_rinv a db jobID status p c e l cl at_ (hook : RTx unit) fs :
  Inv (rinv a) hook -> rinv a db -> runningIn (rBase db) jobID -> terminal status = true ->
  rinv a (FinishRemoteJob jobID status p c e l cl at_ hook (db, fs)).2.1.
Proof.
  intros Hh Hi (row & Hrow & _) Ht. destruct (FinishRemoteJob _ _ _ _ _ _ _ _ _ _) as [[u|x] s'] eqn:E; simpl;
    [|by rewrite (FinishRemoteJob_Err _ _ _ _ _ _ _ _ _ _ _ _ E)].
  apply (FinishRemoteJob_Ok _ _ _ _ _ _ _ _ _ _ _ _ row) in E as (fs1 & fs2 & E); [|done].
  apply (Hh _ _ _ E). by apply closed_rinv.
Qed.

Lemma finished_idle o m n now c :
  o ∈ [RemoteCopySucceeded; RemoteCopyFailed; RemoteCopyCancelled; RemoteCopyRetryWait] ->
  uploading (finished o m n now c) = false.
Proof. intros H. apply (not_uploading _ o); [done|]. intros ->.
  repeat (apply elem_of_cons in H as [H|H]; [done|]). by apply elem_of_nil in H.
Qed.

(** An upload's end takes its own copy, and only it, out of [uploading]. *)
Lemma finishUpload_effect a db jobID id now p log o fs u s' :
  rinv a db -> a !! jobID = Some (Upload id) -> runningIn (rBase db) jobID ->
  finishUpload now jobID id p log o (db, fs) = (Ok u, s') ->
  exists row c, runs (rBase db) !! jobID = Some row /\ rCopies db !! id = Some c /\ uploading c = true /\
    cJob c = Some jobID /\
    s'.1 = withCopies <[id := finished (eStatus o) (eMessage o) (eNext o) now c]>
      (withBase (closedBase jobID (eJob o) p (if bool_decide (eJob o = StatusSucceeded) then None else Some "unavailable")
         (if bool_decide (eJob o = StatusSucceeded) then None else Some (eMessage o)) log None now (rBase db) row) db).
Proof.
  intros Hi Ha Hr E. pose proof Hr as (row & Hrow & _). destruct (ri_active _ _ Hi _ _ Ha Hr) as (c & Hc & Hu & Hj).
  unfold finishUpload in E. destruct (FinishRemoteJob_Ok _ _ _ _ _ _ _ _ _ _ _ _ row E Hrow) as (fs1 & fs2 & E1).
  clear E. rename E1 into E.
  apply tbind_Ok in E as (n & s1 & H1 & H2). injection H2 as _ H2.
  apply updateCopy_Ok in H1 as [(x & Hx & _ & _ & H1)|(_ & _ & H1)]; simpl in *; [|by specialize (H1 _ Hc)].
  rewrite Hc in Hx. injection Hx as <-. exists row, c. split_and!; [done..|]. subst s1. exact H1.
Qed.

Lemma finishUpload_rinv a db jobID id now p log o fs :
  rinv a db -> a !! jobID = Some (Upload id) -> runningIn (rBase db) jobID -> terminal (eJob o) = true ->
  eStatus o ∈ [RemoteCopySucceeded; RemoteCopyFailed; RemoteCopyCancelled; RemoteCopyRetryWait] ->
  rinv a (finishUpload now jobID id p log o (db, fs)).2.1.
Proof.
  intros Hi Ha Hr Ht Ho. destruct (finishUpload _ _ _ _ _ _ _) as [[u|x] s'] eqn:E; cbn [snd];
    [|by rewrite (FinishRemoteJob_Err _ _ _ _ _ _ _ _ _ _ _ _ E)].
  destruct (finishUpload_effect _ _ _ _ _ _ _ _ _ _ _ Hi Ha Hr E) as (row & c & Hrow & Hc & Hu & Hj & ->).
  match goal with |- rinv _ (withCopies _ ?d) => apply (rinv_gentle _ d) end; [|by apply closed_rinv].
  apply (gentle_copy _ _ c); [done|done|by rewrite finished_idle|].
  intros j _ Hj' Hrun. assert (j = jobID) as -> by congruence. by apply closed_idle in Hrun.
Qed.

(** Deleting an instance takes no archive from an upload. *)
Lemma DeleteInstanceRow_rinv a id : Inv (rinv a) (DeleteInstanceRow id).
Proof.
  intros s r s' H Hi. unfold DeleteInstanceRow in H. destruct (onBase _ s) as [[u|e] [db fs]] eqn:E.
  - injection H as _ <-. simpl. apply onBase_Ok in E as (b & fs1 & E & Edb). injection Edb as -> _.
    pose proof (TxDeleteInstance_frame id StateDeleting (rBase s.1, s.2)) as Hs. rewrite E in Hs. simpl in Hs.
    apply tbind_Ok in E as (n & s1 & H1 & H2). destruct n; [|done]. injection H2 as H2. subst s1.
    apply stmt_Ok in H1 as [H1 _]. cbn [fst] in H1. destruct (instances (rBase s.1) !! id) as [i|] eqn:Hid; [|done].
    case_bool_decide as Hst; [|done]. injection H1 as H1.
    apply (rinv_gentle _ s.1); [|done]. split; simpl; [by apply same_jobs_ok|by apply same_jobs_rows| | |eauto| |].
    + intros k (x & Hx & Hxs). rewrite <- H1 in Hx. simpl in Hx. apply lookup_delete_Some in Hx as [_ Hx]. by exists x.
    + intros k c Hc. right. exists c. auto.
    + intros k c b0 Hc [Hb _]%map_lookup_filter_Some. eauto.
    + intros k c Hc Hu [b0 Hb0]. exists b0. apply map_lookup_filter_Some. split; [done|]. simpl.
      rewrite (co_src _ _ (ri_copies _ _ Hi _ _ Hc) _ Hb0). intros Hci.
      apply (co_kept _ _ (ri_copies _ _ Hi _ _ Hc) Hu). rewrite Hci. by exists i.
  - injection H as <- <-. apply onBase_Ok in E as (b & fs1 & E & Edb). injection Edb as -> _.
    apply (rinv_gentle _ s.1); [|done]. 
    pose proof (TxDeleteInstance_frame id StateDeleting (rBase s.1, s.2)) as Hs. rewrite E in Hs. simpl in Hs.
    apply gentle_base; [done|]. unfold TxDeleteInstance, tbind in E. destruct (stmt _ _) as [[n|e'] s1] eqn:E1.
    + apply stmt_Ok in E1 as [E1 _]. cbn [fst] in E1. destruct n; [done|]. injection E as _ E. subst s1.
      destruct (instances (rBase s.1) !! id); [case_bool_decide|]; try done; by injection E1 as <-.
    + apply stmt_Err in E1 as [E1 _]. injection E as _ E. subst s1. simpl in E1. by rewrite E1.
Qed.

(** The job engine's steps elsewhere: a row that is not new kept its key and
    does not run again. *)
Lemma core_rows (b b' : DB) id j' : core <$> runs b' !! id = core <$> runs b !! id -> runs b' !! id = Some j' ->
  exists j, runs b !! id = Some j /\ LockKey j = LockKey j' /\ (Status j' = StatusRunning -> Status j = StatusRunning).
Proof.
  intros Hc Hj. rewrite Hj in Hc. symmetry in Hc. apply fmap_Some in Hc as (j & Hj0 & Hc). simpl in Hc.
  apply (eq_sym (x:=_)) in Hc. symmetry in Hc. apply core_eq in Hc as (_ & Hst & Hk & _). exists j. split_and!; [done|congruence|congruence].
Qed.

Lemma jstep_rows s s' id j' : jstep s s' -> runs s'.1 !! id = Some j' -> runs s.1 !! id <> None ->
  exists j, runs s.1 !! id = Some j /\ LockKey j = LockKey j' /\ (Status j' = StatusRunning -> Status j = StatusRunning).
Proof.
  intros Hs Hj' Hold.
  assert (forall {A} (m : Sql.Tx DB A) s, JobFrame m -> runs (m s).2.1 !! id = Some j' ->
    exists j, runs s.1 !! id = Some j /\ LockKey j = LockKey j' /\ (Status j' = StatusRunning -> Status j = StatusRunning)) as Hframe.
  { intros A m s0 Hm. exact (same_jobs_rows _ _ (Hm s0) id j'). }
  destruct Hs as [j sup o u now hook s Hf|jid o u s|jid p m s|jid c s|jid st p code msg log clean at_ hook s Ht Hf|jid now s|jid now s|cutoff s|A m s Hf|db fs fs'];
    try (revert Hj'; apply Hframe; apply _).
  - destruct (ClaimJobWithLocks _ _ _ _ _ _ s) as [[x|e] s2] eqn:E; simpl in Hj'.
    + apply Claim_rows in E as (_ & Hn & _ & Hc); [|done]. destruct (decide (id = ID j)) as [->|Hne]; [congruence|].
      exact (core_rows _ _ _ _ (Hc _ Hne) Hj').
    + apply Claim_Err in E. rewrite E in Hj'. eauto.
  - destruct (FinishJob _ _ _ _ _ _ _ _ _ s) as [[x|e] s2] eqn:E; simpl in Hj'.
    + destruct (decide (id = jid)) as [->|Hne]; [|exact (core_rows _ _ _ _ (Finish_rows _ _ _ _ _ _ _ _ _ _ _ _ _ Hf E Hne) Hj')].
      pose proof (Finish_status _ _ _ _ _ _ _ _ _ _ _ _ Hf E _ Hj') as Hst.
      apply Finish_Ok in E as (fs1 & fs2 & _ & E). destruct x.
      match type of E with _ (?d, _) = _ => pose proof (Hf (d, fs1)) as [_ Hr]; rewrite E in Hr; simpl in Hr end.
      specialize (Hr jid). destruct (runs s.1 !! jid) as [j|] eqn:Hj; [|done]. rewrite lookup_insert_eq, Hj' in Hr.
      simpl in Hr. injection Hr as _ _ Hk _. exists j. split_and!; [done|done|]. intros Hrun. rewrite Hst in Hrun. by rewrite Hrun in Ht.
    + apply Finish_Err in E. rewrite E in Hj'. eauto.
  - destruct (decide (id = jid)) as [->|Hne]; [|exact (core_rows _ _ _ _ (cancelQueued_rows _ _ _ _ Hne) Hj')].
    destruct s as [db fs]. unfold CancelQueuedJob in Hj'. destruct (tbind _ _ _) as [[[]|e] s1] eqn:E; cbn [snd] in Hj'.
    + apply tbind_Ok in E as (? & sa & H1 & E). apply point_Ok in H1.
      apply tbind_Ok in E as (n & sb & H2 & E). destruct n; [|by injection E].
      apply updateRun_Ok in H2 as [(j & Hj & _ & _ & Hb)|([=] & _)]. simpl in E.
      apply tbind_Ok in E as (? & sc & H3 & E). apply stmt_Ok in H3 as [H3 _]. injection H3 as _ H3.
      apply tbind_Ok in E as (? & sd & H4 & E). injection E as <-. apply point_Ok in H4.
      rewrite H4, <- H3, Hb, H1 in Hj'. simpl in Hj'. rewrite lookup_insert_eq in Hj'. injection Hj' as <-.
      rewrite H1 in Hj. exists j. by split_and!.
    + destruct s1. simpl in Hj'. eauto.
    + destruct s1. simpl in Hj'. eauto.
  - unfold SweepTerminalJobs in Hj'. destruct (stmt _ s) as [[n|e] s2] eqn:E; simpl in Hj'.
    + apply stmt_Ok in E as [E _]. cbv zeta in E. injection E as _ E. rewrite <- E in Hj'.
      apply sweptRows_sub in Hj'. eauto.
    + apply stmt_Err in E as [E _]. rewrite E in Hj'. eauto.
  - simpl in *. eauto.
Qed.

Lemma rstep_rinv w w' : rstep w w' -> rinv (wActive w) (wDB w) -> rinv (wActive w') (wDB w').
Proof.
  intros [db a b fs fs' Hj Hnew Hdel|db a op fs Hf|db a jobID owner until now fs Hf|db a jobID id now p log o fs Ha Hr Ht Ho
    |db a jobID id now p log r fs Ha Hr|db a jobID id now p log fs Hr|db a jobID]; cbn [wActive wDB]; intros Hi.
  - destruct Hi as [Ij Ic Iu Ia].
    assert (forall id j, runs b !! id = Some j -> freshJob (mkRW db a) id \/
      exists j0, runs (rBase db) !! id = Some j0 /\ LockKey j0 = LockKey j /\ (Status j = StatusRunning -> Status j0 = StatusRunning)) as Hrow.
    { intros id j Hjb. destruct (runs (rBase db) !! id) as [j0|] eqn:E0; [right|left; eauto].
      apply (jstep_rows _ _ id j Hj) in Hjb as (j1 & Hj1 & ?); [|simpl; congruence]. simpl in Hj1. exists j1. split; [congruence|done]. }
    split; simpl.
    + exact (jstep_ok _ _ Hj Ij).
    + intros id c Hc. destruct (Ic _ _ Hc) as [I1 I2 I3 I4]. split; [exact I1|exact I2| |].
      * intros Hu Hd. exact (I3 Hu (Hdel _ Hd)).
      * intros j r Hu Hjc Hr. destruct (Hrow _ _ Hr) as [[_ Hf]|(j0 & Hj0 & <- & _)]; [by destruct (Hf _ _ Hc)|eauto].
    + exact Iu.
    + intros j id Haj (r & Hr & Hst). destruct (Hrow _ _ Hr) as [[Hf _]|(j0 & Hj0 & _ & Hrun)]; simpl in *; [congruence|].
      apply (Ia _ _ Haj). exists j0. auto.
  - by apply perform_rinv.
  - by apply DispatchRemote_rinv.
  - by apply finishUpload_rinv.
  - unfold finishCleanup. destruct r; apply FinishRemoteJob_rinv; done || apply _.
  - apply FinishRemoteJob_rinv; done || apply DeleteInstanceRow_rinv.
  - destruct Hi as [Ij Ic Iu Ia]. split; [done..|]. intros j k [_ Hk]%lookup_delete_Some. auto.
Qed.
