(* ===== verification/RemoteSafe.v ===== *)
(** What the remote copies promise: one upload at a time, an archive under every
    upload, statuses that move along one graph, retention that marks what it
    documents and agrees with its forecast, and transfers that touch their own
    objects only. *)
From S2P Require Import Prelude Kinds Lifecycle Sql Store Retention RemoteStore RemoteCopy RemoteLaws.

(** ** The running panel *)

Section Running.
Context (db0 : RDB) (Hruns : runs (rBase db0) = ∅) (Hlocks : locks (rBase db0) = ∅) (Hcopies : rCopies db0 = ∅).

Lemma reachable_rinv w : rtc rstep (mkRW db0 ∅) w -> rinv (wActive w) (wDB w).
Proof using Hcopies Hlocks Hruns.
  intros Hw. assert (rinv (wActive (mkRW db0 ∅)) (wDB (mkRW db0 ∅))) as H0.
  { split; simpl; rewrite ?Hcopies; try done. by apply empty_jobs_ok. }
  revert H0. induction Hw as [|x y z Hxy _ IH]; [done|]. intros H0. apply IH. exact (rstep_rinv _ _ Hxy H0).
Qed.
End Running.

(** An upload whose job runs holds the transfer lock. *)
Lemma upload_holds_lock a db id c j :
  rinv a db -> rCopies db !! id = Some c -> uploading c = true -> cJob c = Some j -> runningIn (rBase db) j ->
  LockHolder RemoteLockKey (rBase db) = Some j.
Proof.
  intros Hi Hc Hu Hj (r & Hr & Hst). destruct (ok_lock _ (ri_jobs _ _ Hi) _ _ Hr Hst) as [t Ht].
  rewrite (co_lock _ _ (ri_copies _ _ Hi _ _ Hc) _ _ Hu Hj Hr) in Ht. unfold LockHolder. by rewrite Ht.
Qed.

(** C25. Whatever operations, dispatches, crashes and driver faults led here, at
    most one copy is uploading under a running job, every uploading copy has its
    archive in the catalogue of an instance that is not being deleted, and each
    runner's copy is uploading under the runner's own job, which holds the
    transfer lock. *)
Theorem one_upload (db0 : RDB) (w : RW) :
  runs (rBase db0) = ∅ -> locks (rBase db0) = ∅ -> rCopies db0 = ∅ -> rtc rstep (mkRW db0 ∅) w ->
  (forall id1 id2 c1 c2 j1 j2, rCopies (wDB w) !! id1 = Some c1 -> rCopies (wDB w) !! id2 = Some c2 ->
    cStatus c1 = RemoteCopyUploading -> cStatus c2 = RemoteCopyUploading -> cJob c1 = Some j1 -> cJob c2 = Some j2 ->
    runningIn (rBase (wDB w)) j1 -> runningIn (rBase (wDB w)) j2 -> id1 = id2) /\
  (forall id c, rCopies (wDB w) !! id = Some c -> cStatus c = RemoteCopyUploading ->
    exists b, rBackups (wDB w) !! cBackup (cSource c) = Some b /\ bInstance b = cInstance (cSource c) /\
      ~ deletingIn (rBase (wDB w)) (bInstance b)) /\
  (forall j id, wActive w !! j = Some (Upload id) -> runningIn (rBase (wDB w)) j ->
    exists c, rCopies (wDB w) !! id = Some c /\ cStatus c = RemoteCopyUploading /\ cJob c = Some j /\
      LockHolder RemoteLockKey (rBase (wDB w)) = Some j).
Proof.
  intros H1 H2 H3 Hw. pose proof (reachable_rinv db0 H1 H2 H3 w Hw) as Hi.
  assert (forall c, cStatus c = RemoteCopyUploading -> uploading c = true) as Hup by (intros; by apply bool_decide_eq_true).
  split_and!.
  - intros id1 id2 c1 c2 j1 j2 C1 C2 U1%Hup U2%Hup J1 J2 R1 R2.
    pose proof (upload_holds_lock _ _ _ _ _ Hi C1 U1 J1 R1) as L1.
    pose proof (upload_holds_lock _ _ _ _ _ Hi C2 U2 J2 R2) as L2.
    assert (j1 = j2) as -> by congruence. exact (ri_uniq _ _ Hi _ _ _ _ _ C1 C2 U1 U2 J1 J2).
  - intros id c Hc Hu%Hup. destruct (co_archive _ _ (ri_copies _ _ Hi _ _ Hc) Hu) as [b Hb]. exists b.
    pose proof (co_src _ _ (ri_copies _ _ Hi _ _ Hc) _ Hb) as Hs. split_and!; [done..|]. rewrite Hs.
    exact (co_kept _ _ (ri_copies _ _ Hi _ _ Hc) Hu).
  - intros j id Ha Hr. destruct (ri_active _ _ Hi _ _ Ha Hr) as (c & Hc & Hu & Hj). exists c. split_and!; [done| |done|].
    + by apply bool_decide_eq_true in Hu.
    + exact (upload_holds_lock _ _ _ _ _ Hi Hc Hu Hj Hr).
Qed.

(** In every step of the running panel each copy stays where it was queued
    for and its status moves along one edge of the graph at most: an upload
    begins from a waiting status only, ends in one of four ways, a copy that gave
    up is only queued again, one that succeeded is only pruned, and a pruned one
    never changes again. *)
Theorem copies_move (db0 : RDB) (w w' : RW) :
  runs (rBase db0) = ∅ -> locks (rBase db0) = ∅ -> rCopies db0 = ∅ -> rtc rstep (mkRW db0 ∅) w -> rstep w w' ->
  copiesMove (wDB w) (wDB w').
Proof.
  intros H1 H2 H3 Hw Hs. pose proof (reachable_rinv db0 H1 H2 H3 w Hw) as Hi.
  assert (forall A (m : RTx A) s, Moves m -> copiesMove s.1 (m s).2.1) as Hm.
  { intros A m s Hm. destruct (m s) as [r s'] eqn:E. exact (Hm _ _ _ E). }
  destruct Hs as [db a b fs fs' Hj Hnew Hdel|db a op fs Hf|db a jobID owner until now fs Hf|db a jobID id now p log o fs Ha Hr Ht Ho
    |db a jobID id now p log r fs Ha Hr|db a jobID id now p log fs Hr|db a jobID]; cbn [wDB wActive] in *.
  - by apply copiesMove_same.
  - apply (Hm _ (perform op) (db, fs)), _.
  - apply (Hm _ (DispatchRemote jobID owner until now) (db, fs)), _.
  - destruct (finishUpload _ _ _ _ _ _ _) as [[u|e] s'] eqn:E; cbn [snd];
      [|rewrite (FinishRemoteJob_Err _ _ _ _ _ _ _ _ _ _ _ _ E); apply copiesMove_refl].
    destruct (finishUpload_effect _ _ _ _ _ _ _ _ _ _ _ Hi Ha Hr E) as (row & c & _ & Hc & Hu & _ & ->).
    intros k x Hx. simpl. destruct (decide (id = k)) as [<-|Hne]; [|rewrite lookup_insert_ne by done; exists x; split; [done|apply moves_refl]].
    rewrite Hc in Hx. injection Hx as <-. rewrite lookup_insert_eq. eexists. split; [done|]. split; [done|right].
    simpl. apply bool_decide_eq_true in Hu. rewrite Hu. unfold statusEdges.
    repeat (apply elem_of_cons in Ho as [->|Ho]; [repeat first [by left|right]|]). by apply elem_of_nil in Ho.
  - unfold finishCleanup. destruct (cleanupEnd r) as [st m]. apply (Hm _ (FinishRemoteJob _ _ _ _ _ _ _ _ _) (db, fs)), _.
  - apply (Hm _ (finishDelete now jobID id p log) (db, fs)). unfold finishDelete. apply _.
  - apply copiesMove_refl.
Qed.

(** ** The order of the copies *)

#[export] Instance newest_total : Total newest.
Proof.
  intros x y. unfold newest. destruct (Z.lt_trichotomy (cArchiveAt (cSource x.2)) (cArchiveAt (cSource y.2))) as [H|[H|H]]; [by right; left| |by left; left].
  destruct (total String.le x.1 y.1); [right; right|left; right]; by auto.
Qed.
#[export] Instance newest_trans : Transitive newest.
Proof.
  intros x y z. unfold newest. intros [H1|[E1 H1]] [H2|[E2 H2]]; [left; lia|left; lia|left; lia|right].
  split; [congruence|]. by trans y.1.
Qed.
Lemma newest_same x y : newest x y -> newest y x -> x.1 = y.1.
Proof. unfold newest. intros [H1|[E1 H1]] [H2|[E2 H2]]; try lia. by apply (anti_symm String.le). Qed.

(** The rows of an instance on a destination that retention counts. *)
Definition counted (i d : string) (kv : string * CopyRow) : Prop :=
  cInstance (cSource kv.2) = i /\ cDest (cSource kv.2) = d /\ cStatus kv.2 = RemoteCopySucceeded.

Lemma retentionCopies_elem i d db kv :
  kv ∈ retentionCopies i d db <-> rCopies db !! kv.1 = Some kv.2 /\ counted i d kv.
Proof.
  unfold retentionCopies. rewrite merge_sort_Permutation, list_elem_of_filter. destruct kv as [k c].
  rewrite elem_of_map_to_list. unfold counted. cbn [fst snd]. tauto.
Qed.

Lemma retentionCopies_NoDup i d db : NoDup (retentionCopies i d db).*1.
Proof.
  unfold retentionCopies. rewrite merge_sort_Permutation.
  apply (sublist_NoDup _ (map_to_list (rCopies db)).*1).
  - apply NoDup_fst_map_to_list.
  - apply fmap_sublist, sublist_filter.
Qed.

Lemma retentionCopies_sorted i d db : StronglySorted newest (retentionCopies i d db).
Proof. apply StronglySorted_merge_sort; apply _. Qed.

(** A sorted list of the counted rows is the query's answer. *)
Lemma retentionCopies_unique i d db l :
  StronglySorted newest l -> l ≡ₚ filter (counted i d) (map_to_list (rCopies db)) -> l = retentionCopies i d db.
Proof.
  intros Hs Hp. assert (retentionCopies i d db ≡ₚ l) as Hp' by (unfold retentionCopies; by rewrite merge_sort_Permutation, Hp).
  apply (StronglySorted_unique_strong newest); [|done|apply retentionCopies_sorted|done].
  intros x y Hx Hy H1 H2. pose proof (newest_same _ _ H1 H2) as Hk. rewrite <- Hp' in Hx.
  apply retentionCopies_elem in Hx as [Hx _]. apply retentionCopies_elem in Hy as [Hy _].
  destruct x as [k x], y as [k' y]. simpl in *. subst k'. congruence.
Qed.

(** ** Marking *)

(** What retention makes of a copy with verdict [v]. *)
Definition settled (v : bool) (c : CopyRow) : CopyRow :=
  if v then setCleanup true (cCleanupError c) c else if cCleanup c then setCleanup false "" c else c.

Definition copyOver (cols : RetentionCols) := over copyClass copyFlagged (keepLimit cols).

(** The loop's maps after the copies [newer]. *)
Definition countsFor (newer : list (string * CopyRow)) (counts : retentionClass -> Z) (saw : retentionClass -> bool) : Prop :=
  forall class, counts class = Z.of_nat (length (filter (fun x => copyClass x = class) newer)) /\
    (class <> classSnapshot -> saw class = negb (forallb copyFlagged (filter (fun x => copyClass x = class) newer))).

Lemma MarkRemoteCleanup_run id c db : rCopies db !! id = Some c -> succeeded c = true ->
  MarkRemoteCleanup id (db, []) = (Ok tt, (withCopies <[id := setCleanup true (cCleanupError c) c]> db, [])).
Proof. intros Hc Hs. unfold MarkRemoteCleanup, updateCopy, tbind. rewrite stmt_run, Hc, Hs. done. Qed.
Lemma UnmarkRemoteCleanup_run id c db : rCopies db !! id = Some c -> succeeded c = true -> cCleanup c = true ->
  UnmarkRemoteCleanup id (db, []) = (Ok tt, (withCopies <[id := setCleanup false "" c]> db, [])).
Proof. intros Hc Hs Hp. unfold UnmarkRemoteCleanup, updateCopy, tbind. rewrite stmt_run, Hc, Hs, Hp. done. Qed.

(** One turn of the loop. *)
Lemma markOne_run cols newer counts saw id c db :
  countsFor newer counts saw -> rCopies db !! id = Some c -> succeeded c = true ->
  let class := copyClass (id, c) in
  let lastGood := negb (bool_decide (class = classSnapshot)) && negb (cFlagged c) && negb (saw class) in
  (if (0 <? keepLimit cols class)%Z && (keepLimit cols class <? counts class + 1)%Z && negb lastGood
   then MarkRemoteCleanup id else if cCleanup c then UnmarkRemoteCleanup id else tret tt) (db, []) =
  (Ok tt, (withCopies <[id := settled (copyOver cols newer (id, c)) c]> db, [])).
Proof.
  intros Hcnt Hc Hs class lastGood. destruct (Hcnt class) as [Hn Hsaw].
  assert ((0 <? keepLimit cols class)%Z && (keepLimit cols class <? counts class + 1)%Z && negb lastGood =
    copyOver cols newer (id, c)) as ->.
  { unfold copyOver, over, lastGoodOf, peers. fold class. f_equal; [f_equal|].
    - apply eq_true_iff_eq. rewrite Z.ltb_lt, Z.leb_le. lia.
    - f_equal. unfold lastGood, copyFlagged. simpl. case_bool_decide; [done|]. by rewrite Hsaw, negb_involutive. }
  unfold settled. destruct (copyOver cols newer (id, c)); [by apply MarkRemoteCleanup_run|].
  destruct (cCleanup c) eqn:Hp; [by apply UnmarkRemoteCleanup_run|].
  unfold withCopies. rewrite insert_id by done. by destruct db.
Qed.

Lemma markEach_run cols newer copies counts saw db :
  countsFor newer counts saw -> NoDup copies.*1 ->
  (forall id c, (id, c) ∈ copies -> rCopies db !! id = Some c /\ succeeded c = true) ->
  exists m, markEach cols counts saw copies (db, []) = (Ok tt, (withCopies (fun _ => m) db, [])) /\
    (forall k, k ∉ copies.*1 -> m !! k = rCopies db !! k) /\
    (forall l1 id c l2, copies = l1 ++ (id, c) :: l2 -> m !! id = Some (settled (copyOver cols (reverse l1 ++ newer) (id, c)) c)).
Proof.
  revert newer counts saw db. induction copies as [|[id c] copies IH]; intros newer counts saw db Hcnt Hnd Hin.
  { exists (rCopies db). split_and!; [by destruct db|done|]. by intros []. }
  cbn [fmap list_fmap fst] in Hnd. apply NoDup_cons in Hnd as [Hid Hnd].
  destruct (Hin id c) as [Hc Hs]; [by left|]. cbn [markEach]. cbv zeta. rewrite decide_True by done.
  pose proof (markOne_run cols newer counts saw id c db Hcnt Hc Hs) as Hone. cbv zeta in Hone.
  unfold tbind. match goal with |- context [match ?t with _ => _ end] => change t with
    ((if (0 <? keepLimit cols (copyClass (id, c)))%Z && (keepLimit cols (copyClass (id, c)) <? counts (copyClass (id, c)) + 1)%Z &&
        negb (negb (bool_decide (copyClass (id, c) = classSnapshot)) && negb (cFlagged c) && negb (saw (copyClass (id, c))))
      then MarkRemoteCleanup id else if cCleanup c then UnmarkRemoteCleanup id else tret tt) (db, [])) end.
  rewrite Hone. set (v := copyOver cols newer (id, c)).
  destruct (IH ((id, c) :: newer) (fun d => if decide (d = copyClass (id, c)) then (counts (copyClass (id, c)) + 1)%Z else counts d)
    (fun d => if negb (bool_decide (copyClass (id, c) = classSnapshot)) && negb (cFlagged c) && negb (saw (copyClass (id, c))) &&
                 bool_decide (d = copyClass (id, c)) then true else saw d)
    (withCopies <[id := settled v c]> db)) as (m & Hm & Hout & Hall).
  - intros class. rewrite filter_cons. destruct (Hcnt class) as [Hn Hsaw]. destruct (decide (copyClass (id, c) = class)) as [<-|Hne].
    + rewrite decide_True by done. split; [rewrite Hn; simpl length; lia|]. intros Hsn.
      rewrite (bool_decide_eq_false_2 (_ = classSnapshot)) by done.
      rewrite (bool_decide_eq_true_2 (copyClass (id, c) = copyClass (id, c))) by done. rewrite Hsaw by done. simpl.
      unfold copyFlagged. simpl. by destruct (cFlagged c), (forallb _ _).
    + rewrite decide_False by done. split; [done|]. intros Hsn. rewrite (bool_decide_eq_false_2 (class = _)) by done.
      rewrite andb_false_r. auto.
  - done.
  - intros k x Hk. destruct (Hin k x) as [? ?]; [by right|]. split; [|done]. simpl. rewrite lookup_insert_ne; [done|].
    intros ->. apply Hid. apply list_elem_of_fmap. by exists (k, x).
  - exists m. split_and!; [exact Hm|..].
    + intros k Hk. cbn [fmap list_fmap fst] in Hk. rewrite Hout by set_solver. simpl. rewrite lookup_insert_ne; [done|]. set_solver.
    + intros [|x l1] k y l2 Heq.
      * injection Heq as <- <- <-. rewrite Hout by done. apply lookup_insert_eq.
      * injection Heq as <- Heq. rewrite (Hall _ _ _ _ Heq). by rewrite reverse_cons, <- app_assoc.
Qed.

(** Marking a row retention does not count leaves the query's answer. *)
Lemma filter_fmap_id {A} (P : A -> Prop) `{forall x, Decision (P x)} (g : A -> A) (l : list A) :
  (forall x, P (g x) <-> P x) -> (forall x, P x -> g x = x) -> filter P (g <$> l) = filter P l.
Proof.
  intros HP Hg. induction l as [|x l IH]; [done|]. cbn [fmap list_fmap]. rewrite !filter_cons, IH.
  destruct (decide (P x)) as [Hx|Hx].
  - rewrite decide_True by by apply HP. by rewrite Hg.
  - by rewrite decide_False by by rewrite HP.
Qed.

Definition markAbandoned (i d : string) (db : RDB) (c : CopyRow) : CopyRow :=
  if abandoned i d db c then setCleanup true (cCleanupError c) c else c.

Lemma abandoned_idle i d db c : abandoned i d db c = true -> cStatus c <> RemoteCopySucceeded.
Proof.
  unfold abandoned. rewrite !andb_true_iff. intros [[[_ H] _] _] Hs. unfold gaveUp in H. by rewrite Hs in H.
Qed.

Lemma retentionCopies_marked i d db : retentionCopies i d (withCopies (fmap (markAbandoned i d db)) db) = retentionCopies i d db.
Proof.
  unfold retentionCopies. f_equal. simpl. rewrite map_to_list_fmap.
  apply (filter_fmap_id (counted i d) (prod_map id (markAbandoned i d db))).
  - intros [k c]. unfold counted, markAbandoned. cbn [prod_map fst snd]. by destruct (abandoned i d db c).
  - intros [k c] (_ & _ & Hs). cbn [prod_map fst snd] in *. unfold markAbandoned.
    destruct (abandoned i d db c) eqn:E; [|done]. by apply abandoned_idle in E.
Qed.

Lemma writeq_run (f : RDB -> RDB) db : writeq f (db, []) = (Ok tt, (f db, [])).
Proof. reflexivity. Qed.
Lemma readq_run {A} (f : RDB -> A) db : readq f (db, []) = (Ok (f db), (db, [])).
Proof. reflexivity. Qed.

Lemma markInstanceRetention_run i cols d db :
  exists m, markInstanceRetention i cols d (db, []) = (Ok tt, (withCopies (fun _ => m) db, [])) /\
    (forall l1 id c l2, retentionCopies i d db = l1 ++ (id, c) :: l2 ->
       m !! id = Some (settled (copyOver cols l1 (id, c)) c)) /\
    (forall id, (forall c, rCopies db !! id = Some c -> ~ counted i d (id, c)) ->
       m !! id = markAbandoned i d db <$> rCopies db !! id).
Proof.
  set (db1 := withCopies (fmap (markAbandoned i d db)) db).
  destruct (markEach_run cols [] (retentionCopies i d db) (fun _ => 0%Z) (fun _ => false) db1) as (m & Hm & Hout & Hall).
  - intros class. done.
  - apply retentionCopies_NoDup.
  - intros id c [Hc Hcnt]%retentionCopies_elem. split; [|apply bool_decide_eq_true, Hcnt].
    subst db1. simpl in *. rewrite lookup_fmap, Hc. simpl. unfold markAbandoned.
    destruct (abandoned i d db c) eqn:E; [|done]. apply abandoned_idle in E. by destruct Hcnt as (_ & _ & ?).
  - exists m. split_and!.
    + unfold markInstanceRetention, tbind. unfold MarkAbandonedRemoteUploads, updateCopies.
      rewrite writeq_run. fold (markAbandoned i d db).
      match goal with |- context [withCopies (fmap ?f) db] => change (withCopies (fmap f) db) with db1 end.
      unfold RemoteRetentionCopies. rewrite readq_run. unfold db1 at 1. rewrite retentionCopies_marked. exact Hm.
    + intros l1 id c l2 Heq. rewrite (Hall _ _ _ _ Heq). unfold copyOver. by rewrite app_nil_r, reverse_Permutation.
    + intros id Hid. rewrite Hout; [by subst db1; simpl; rewrite lookup_fmap|].
      intros ([k c] & -> & Hk)%list_elem_of_fmap. apply retentionCopies_elem in Hk as [Hk Hcnt]. exact (Hid _ Hk Hcnt).
Qed.

(** With a working database the retention of an instance marks for removal
    exactly the uploaded copies past their class's limit, the newest unflagged
    cold and hot copy excepted, takes back every other mark, marks the failed and
    cancelled uploads that left an archive behind, and changes nothing else. *)
Theorem markInstanceRetention_spec i cols d db :
  exists m, markInstanceRetention i cols d (db, []) = (Ok tt, (withCopies (fun _ => m) db, [])) /\
    (forall newer id c older, retentionCopies i d db = newer ++ (id, c) :: older ->
       exists c', m !! id = Some c' /\ cStatus c' = cStatus c /\ cSource c' = cSource c /\
         (cCleanup c' = true <->
            (0 < keepLimit cols (copyClass (id, c)))%Z /\
            (keepLimit cols (copyClass (id, c)) <= Z.of_nat (length (peers copyClass (id, c) newer)))%Z /\
            (copyClass (id, c) = classSnapshot \/ cFlagged c = true \/
             exists y, y ∈ peers copyClass (id, c) newer /\ cFlagged y.2 = false))) /\
    (forall id, (forall c, rCopies db !! id = Some c -> ~ counted i d (id, c)) ->
       m !! id = markAbandoned i d db <$> rCopies db !! id).
Proof.
  destruct (markInstanceRetention_run i cols d db) as (m & Hm & Hin & Hout). exists m. split_and!; [done| |done].
  intros newer id c older Heq. rewrite (Hin _ _ _ _ Heq). eexists. split; [done|].
  rewrite <- (over_true copyClass copyFlagged (keepLimit cols) newer (id, c)). fold (copyOver cols newer (id, c)).
  unfold settled. destruct (copyOver cols newer (id, c)); [done|]. destruct (cCleanup c) eqn:E; split_and!; try done.
  by rewrite E.
Qed.

(** ** What the panel says of an archive before its copy arrives *)

Lemma filter_none {A} (P : A -> Prop) `{forall x, Decision (P x)} l : (forall x, x ∈ l -> ~ P x) -> filter P l = [].
Proof.
  intros H1. destruct (filter P l) as [|x k] eqn:E; [done|]. exfalso.
  assert (x ∈ filter P l) as [Hp Hx]%list_elem_of_filter by (rewrite E; by left). exact (H1 _ Hx Hp).
Qed.

(** A sorted list splits where a downward closed property ends. *)
Lemma sorted_split {A} (R : relation A) (P : A -> Prop) `{forall x, Decision (P x)} l :
  StronglySorted R l -> (forall x y, R x y -> P y -> P x) -> l = filter P l ++ filter (fun x => ~ P x) l.
Proof.
  intros Hs HP. induction Hs as [|x l Hs IH Hx]; [done|]. rewrite !filter_cons. destruct (decide (P x)) as [Hp|Hp].
  - rewrite decide_False by tauto. simpl. by rewrite <- IH.
  - rewrite decide_True by done. rewrite Forall_forall in Hx.
    assert (filter P l = []) as E.
    { apply filter_none. intros y Hy Hpy. apply Hp. exact (HP _ _ (Hx _ Hy) Hpy). }
    rewrite E in *. simpl. simpl in IH. by rewrite <- IH.
Qed.

Lemma StronglySorted_insert {A} (R : relation A) l1 x l2 :
  StronglySorted R (l1 ++ l2) -> (forall y, y ∈ l1 -> R y x) -> (forall y, y ∈ l2 -> R x y) ->
  StronglySorted R (l1 ++ x :: l2).
Proof.
  induction l1 as [|z l1 IH]; simpl; intros Hs H1 H2.
  - constructor; [done|]. apply Forall_forall, H2.
  - apply StronglySorted_inv in Hs as [Hs Hz]. constructor; [apply IH; set_solver|].
    rewrite Forall_forall in *. intros y Hy. apply elem_of_app in Hy as [Hy|[->|Hy]%elem_of_cons]; set_solver.
Qed.

(** Retention has had its turn: the marks of the uploaded copies are its
    verdicts. *)
Definition retentionDone (i : string) (cols : RetentionCols) (d : string) (db : RDB) : Prop :=
  forall newer kv older, retentionCopies i d db = newer ++ kv :: older -> cCleanup kv.2 = copyOver cols newer kv.

Lemma arrived_copies i d db k0 c0 :
  (forall c, rCopies db !! k0 = Some c -> ~ counted i d (k0, c)) -> counted i d (k0, c0) ->
  (forall kv, kv ∈ retentionCopies i d db -> cArchiveAt (cSource kv.2) <> cArchiveAt (cSource c0)) ->
  let newer kv := (cArchiveAt (cSource c0) < cArchiveAt (cSource kv.2))%Z in
  retentionCopies i d (withCopies <[k0 := c0]> db) =
    filter newer (retentionCopies i d db) ++ (k0, c0) :: filter (fun kv => ~ newer kv) (retentionCopies i d db).
Proof.
  intros Hk0 Hc0 Ht newer. pose proof (retentionCopies_sorted i d db) as Hs.
  pose proof (sorted_split newest newer _ Hs) as Hsplit. rewrite Hsplit in Hs at 1 by (unfold newest, newer; lia).
  symmetry. apply retentionCopies_unique.
  - apply StronglySorted_insert; [done|..].
    + intros y [Hy _]%list_elem_of_filter. by left.
    + intros y [Hy Hin]%list_elem_of_filter. left. specialize (Ht _ Hin). unfold newer in Hy. simpl. lia.
  - rewrite <- Permutation_middle, <- Hsplit by (unfold newest, newer; lia).
    unfold retentionCopies. rewrite merge_sort_Permutation. simpl.
    assert (filter (counted i d) (map_to_list (rCopies db)) ≡ₚ filter (counted i d) (map_to_list (delete k0 (rCopies db)))) as ->.
    { destruct (rCopies db !! k0) as [c|] eqn:E.
      - rewrite <- (insert_delete_id (rCopies db) k0 c) at 1 by done. rewrite map_to_list_insert by apply lookup_delete_eq.
        rewrite filter_cons_False; [done|]. by apply Hk0.
      - by rewrite delete_id. }
    rewrite <- insert_delete_eq, map_to_list_insert by apply lookup_delete_eq. by rewrite filter_cons_True.
Qed.

(** [PrunedOnArrival]'s own computation, on the copies retention keeps. *)
Lemma forecast_over cols newer x :
  (if (keepLimit cols (copyClass x) <=? 0)%Z then false
   else if negb (bool_decide (copyClass x = classSnapshot)) && negb (copyFlagged x) &&
           bool_decide (filter (fun kv => cFlagged kv.2 = false) (peers copyClass x newer) = [])
   then false else (keepLimit cols (copyClass x) <=? Z.of_nat (length (peers copyClass x newer)))%Z) =
  copyOver cols newer x.
Proof.
  unfold copyOver, over, lastGoodOf. destruct (_ <=? 0)%Z eqn:E.
  { rewrite (proj2 (Z.ltb_ge _ _)) by by apply Z.leb_le. done. }
  rewrite (proj2 (Z.ltb_lt _ _)) by by apply Z.leb_gt.
  assert (bool_decide (filter (fun kv : string * CopyRow => cFlagged kv.2 = false) (peers copyClass x newer) = []) =
    forallb copyFlagged (peers copyClass x newer)) as ->.
  { apply eq_true_iff_eq. rewrite bool_decide_eq_true, forallb_elem_of. unfold copyFlagged. split.
    - intros Hf y Hy. destruct (cFlagged y.2) eqn:Ey; [done|].
      assert (y ∈ filter (fun kv : string * CopyRow => cFlagged kv.2 = false) (peers copyClass x newer)) as Hin
        by by apply list_elem_of_filter.
      rewrite Hf in Hin. by apply elem_of_nil in Hin.
    - intros Hf. apply filter_none. intros y Hy. by rewrite Hf. }
  destruct (_ && _ && _); simpl; by rewrite ?andb_false_r, ?andb_true_r.
Qed.

(** Only the kept copies count. *)
Lemma forecast_kept i cols d db t x :
  retentionDone i cols d db ->
  let newer kv := (t < cArchiveAt (cSource kv.2))%Z in
  copyOver cols (filter newer (retentionCopies i d db)) x =
  copyOver cols (filter (fun kv => cCleanup kv.2 = false) (filter newer (retentionCopies i d db))) x.
Proof.
  intros Hdone newer. set (P := filter newer (retentionCopies i d db)).
  rewrite (keeps_marks copyClass copyFlagged (keepLimit cols) (fun kv => cCleanup kv.2) [] P).
  - unfold copyOver. pose proof (over_agrees copyClass copyFlagged (keepLimit cols) _ _ x
      (agrees_keeps copyClass copyFlagged (keepLimit cols) [] [] P (agrees_refl _ _ _ _))) as H.
    by rewrite !app_nil_r, !reverse_Permutation in H.
  - intros l1 y l2 Heq. rewrite app_nil_r, reverse_Permutation.
    apply (Hdone l1 y (l2 ++ filter (fun kv => ~ newer kv) (retentionCopies i d db))).
    rewrite (sorted_split newest newer (retentionCopies i d db)) at 1; [fold P; rewrite Heq; by rewrite <- app_assoc|apply retentionCopies_sorted|unfold newest, newer; lia].
Qed.

(** The warning given before an archive is copied is what retention does with
    the copy: once retention has had its turn, an archive told to be pruned on
    arrival is marked by the first pass after its copy arrives, and one told to
    stay is not, provided no copy of the archive is there yet and no other counted
    archive was made at the same instant. *)
Theorem PrunedOnArrival_agrees i cols id b dest drow db name now k0 c0 :
  currentDest db = Some (dest, drow) -> bInstance b = i -> retentionDone i cols dest db ->
  cSource c0 = cSource (queuedCopy dest id b name now) -> cFlagged c0 = cFlagged (queuedCopy dest id b name now) ->
  cStatus c0 = RemoteCopySucceeded ->
  (forall c, rCopies db !! k0 = Some c -> cStatus c <> RemoteCopySucceeded) ->
  (forall kv, kv ∈ retentionCopies i dest db ->
     cBackup (cSource kv.2) <> id /\ cArchiveAt (cSource kv.2) <> bCreated b) ->
  exists v m, PrunedOnArrival i cols id b (db, []) = (Ok v, (db, [])) /\
    markInstanceRetention i cols dest (withCopies <[k0 := c0]> db, []) =
      (Ok tt, (withCopies (fun _ => m) (withCopies <[k0 := c0]> db), [])) /\
    m !! k0 = Some (settled v c0).
Proof.
  intros Hd Hi Hdone Hsrc Hfl Hst Hk0 Hother.
  pose proof (markInstanceRetention_run i cols dest (withCopies <[k0 := c0]> db)) as H. revert H.
  assert (cArchiveAt (cSource c0) = bCreated b) as Hat by by rewrite Hsrc.
  assert (counted i dest (k0, c0)) as Hc0 by (unfold counted; simpl; by rewrite Hsrc).
  pose proof (arrived_copies i dest db k0 c0) as Harr. cbv zeta in Harr.
  rewrite Harr; [|intros c Hc (_ & _ & ?); by apply (Hk0 _ Hc)|done|intros kv Hkv; rewrite Hat; by apply Hother].
  clear Harr. intros (m & Hm & Hin & _).
  exists (copyOver cols (filter (fun kv => (cArchiveAt (cSource c0) < cArchiveAt (cSource kv.2))%Z) (retentionCopies i dest db)) (k0, c0)), m.
  split_and!; [|exact Hm|exact (Hin _ _ _ _ eq_refl)].
  rewrite (forecast_kept i cols dest db), <- forecast_over by done.
  assert (copyClass (k0, c0) = classOf (bTrigger b) (bConsistent b)) as Hcl by (unfold copyClass; simpl; by rewrite Hsrc).
  assert (negb (copyFlagged (k0, c0)) = bool_decide (bAttention b = [])) as ->.
  { unfold copyFlagged. simpl. rewrite Hfl. simpl. by rewrite negb_involutive. }
  unfold PrunedOnArrival. cbv zeta. rewrite Hcl, Hat. destruct (keepLimit _ _ <=? 0)%Z; [done|].
  unfold tbind, RemoteDestination, RemoteRetentionCopies. rewrite readq_run, Hd, readq_run. unfold tret.
  match goal with |- context [filter ?Q (retentionCopies i dest db)] => assert (filter Q (retentionCopies i dest db) = 
    peers copyClass (k0, c0) (filter (fun kv => cCleanup kv.2 = false)
      (filter (fun kv => (bCreated b < cArchiveAt (cSource kv.2))%Z) (retentionCopies i dest db)))) as -> end; [|done].
  unfold peers. rewrite !list_filter_filter. apply filter_iff_in. intros kv Hkv. rewrite Hcl. 
  destruct (Hother _ Hkv). tauto.
Qed.
