(* ===== verification/RemoteWork.v ===== *)
(** The remote worker's turns and transfers: which job a turn starts, what an
    upload leaves recorded and what a deletion asks for, and concrete runs. *)
From S2P Require Import Prelude Kinds Lifecycle Sql Store Retention RemoteStore RemoteCopy RemoteLaws RemoteSafe.

(** ** Dispatching *)

(** Deferred keys hold in the state a fault-free claim leaves. *)
Lemma inRTx_run {A} (m : RTx A) db :
  inRTx m (db, []) =
  match m (db, []) with
  | (Ok a, (db', [])) => if refsHeld db' then (Ok a, (db', [])) else (Err EConstraint, (db, []))
  | (Ok a, (db', b :: fs)) =>
      if refsHeld db' then match point (db', b :: fs) with
                           | (Ok _, s) => (Ok a, s)
                           | (Err e, (_, fs')) => (Err e, (db, fs'))
                           end
      else (Err EConstraint, (db, b :: fs))
  | (Err e, (_, fs)) => (Err e, (db, fs))
  end.
Proof.
  unfold inRTx. rewrite inTx_run. unfold tbind at 1. destruct (m (db, [])) as [[a|e] [db' fs]]; [|done].
  unfold tbind, deferred. cbn [fst]. destruct (refsHeld db'); by destruct fs.
Qed.

Section Claim.
Context (j : Job) (sup : list string) (owner : string) (until now : Time) (hook : RTx unit) (db : RDB).
Notation keys := (claimKeys (LockKey j) sup).
Notation taken := (withBase (withLocks (takeKeys (ID j) now keys) (rBase db)) db).
Hypothesis Hfree : forall key, key ∈ LockKey j :: sup -> key <> "" /\ locks (rBase db) !! key = None.

Lemma onBase_acquire : onBase (acquireLocks (ID j) now keys) (db, []) = (Ok tt, (taken, [])).
Proof using Hfree.
  unfold onBase. cbn [fst snd]. rewrite acquireLocks_free; [done|apply claimKeys_NoDup|].
  intros key Hk. apply Hfree. apply claimKeys_elem in Hk. set_solver.
Qed.

(** A hook that refuses undoes the claim. *)
Lemma ClaimRemoteJob_refused e :
  hook (taken, []) = (Err e, (taken, [])) -> ClaimRemoteJob j sup owner until now hook (db, []) = (Err e, (db, [])).
Proof using Hfree. intros Hh. unfold ClaimRemoteJob. rewrite inRTx_run. unfold tbind. by rewrite onBase_acquire, Hh. Qed.

Lemma ClaimRemoteJob_run d :
  hook (taken, []) = (Ok tt, (d, [])) -> runs (rBase d) !! ID j = None ->
  refOk (instances (rBase d)) (InstanceID j) = true -> RequestedBy j = None -> ScheduleID j = None ->
  let d' := withBase (withRuns <[ID j := claimedRow j owner until now]> (rBase d)) d in
  refsHeld d' = true ->
  ClaimRemoteJob j sup owner until now hook (db, []) = (Ok (claimedJob j owner until now), (d', [])).
Proof using Hfree.
  intros Hh Hnew Hinst Hreq Hsch d' Hrefs. unfold ClaimRemoteJob. rewrite inRTx_run. unfold tbind.
  rewrite onBase_acquire, Hh. unfold onBase at 1. cbn [fst snd]. unfold insertRun. rewrite stmt_run.
  cbn [ID claimedRow InstanceID RequestedBy ScheduleID]. rewrite Hinst, Hreq, Hsch.
  rewrite decide_False by (rewrite Hnew; by intros []). cbn. fold d'. by rewrite Hrefs.
Qed.
End Claim.

(** A new job row breaks no deferred key. *)
Lemma refsHeld_job db b f id c :
  refsHeld db = true -> instances b = instances (rBase db) ->
  (forall j, is_Some (runs (rBase db) !! j) -> is_Some (runs b !! j)) ->
  (forall k c', f (rCopies db) !! k = Some c' ->
     rCopies db !! k = Some c' \/ (k = id /\ c' = c /\ jobHeld (withBase b db) c = true)) ->
  refsHeld (withBase b (withCopies f db)) = true.
Proof.
  unfold refsHeld. rewrite !andb_true_iff, !forallb_elem_of. intros [Hp Hc] _ Hr Hf. split; [exact Hp|].
  intros c' Hin. apply list_elem_of_fmap in Hin as ([k x] & -> & Hk). apply elem_of_map_to_list in Hk. simpl in *.
  apply Hf in Hk as [Hk|(-> & -> & Hj)]; [|exact Hj].
  specialize (Hc x). unfold jobHeld in *. simpl. destruct (cJob x) as [j|]; [|done].
  apply bool_decide_eq_true, Hr. apply (bool_decide_eq_true_1 (is_Some (runs (rBase db) !! j))), Hc.
  apply list_elem_of_fmap. exists (k, x). split; [done|]. by apply elem_of_map_to_list.
Qed.

Lemma refOk_instance b id : is_Some (instances b !! id) -> refOk (instances b) (Some id) = true.
Proof. intros H. by apply bool_decide_eq_true. Qed.

Lemma head_filter_Some {A} (R : relation A) `{forall x y, Decision (R x y)} (P : A -> Prop) `{forall x, Decision (P x)} l x :
  head (merge_sort R (filter P l)) = Some x -> P x /\ x ∈ l.
Proof.
  intros Hh. assert (x ∈ filter P l) as ?%list_elem_of_filter; [|done].
  rewrite <- (merge_sort_Permutation R). by apply head_Some_elem_of.
Qed.

Lemma withCopies_id db : withCopies (fun m => m) db = db.
Proof. by destruct db. Qed.

Section Dispatching.
Context (jobID owner : string) (until now : Time) (db : RDB).
Hypothesis Hrefs : refsHeld db = true.
Hypothesis Hnew : runs (rBase db) !! jobID = None.
Hypothesis Hidle : locks (rBase db) !! RemoteLockKey = None /\ forall i, locks (rBase db) !! remoteInstanceKey i = None.

Lemma remote_keys_free (kind : Kinds.Kind) id c key :
  key ∈ LockKey (remoteJob kind jobID id c) :: [remoteInstanceKey (cInstance (cSource c))] ->
  key <> "" /\ locks (rBase db) !! key = None.
Proof using Hidle.
  destruct Hidle as [H1 H2]. intros Hk. apply elem_of_cons in Hk as [->|Hk]; [by split|].
  apply list_elem_of_singleton in Hk as ->. split; [done|exact (H2 _)].
Qed.

Lemma kept_instance id : instanceKept db id = true -> is_Some (instances (rBase db) !! id).
Proof using. unfold instanceKept. destruct (instances _ !! id); [eauto|done]. Qed.

(** The state its claim's hook runs in. *)
Definition taken (kind : Kinds.Kind) (c : CopyRow) : RDB :=
  withBase (withLocks (takeKeys jobID now (claimKeys RemoteLockKey [remoteInstanceKey (cInstance (cSource c))])) (rBase db)) db.

(** A job of this worker over the rows [f] leaves. *)
Definition workerState (kind : Kinds.Kind) (id : string) (c : CopyRow) (f : gmap string CopyRow -> gmap string CopyRow) : RDB :=
  let j := remoteJob kind jobID id c in
  let b := withLocks (takeKeys jobID now (claimKeys RemoteLockKey [remoteInstanceKey (cInstance (cSource c))])) (rBase db) in
  withBase (withRuns <[jobID := claimedRow j owner until now]> b) (withCopies f db).

Lemma workerState_refs kind id c f x :
  (forall k c', f (rCopies db) !! k = Some c' -> rCopies db !! k = Some c' \/ (k = id /\ c' = x /\ cJob x = Some jobID)) ->
  refsHeld (workerState kind id c f) = true.
Proof using Hrefs.
  intros Hf. apply (refsHeld_job db _ f id x Hrefs); [done|..].
  - intros j Hj. simpl. destruct (decide (jobID = j)) as [<-|Hne]; [rewrite lookup_insert_eq; eauto|by rewrite lookup_insert_ne].
  - intros k c' Hk. destruct (Hf _ _ Hk) as [?|(-> & -> & Hj)]; [by left|right]. split_and!; [done..|].
    unfold jobHeld. rewrite Hj. simpl. apply bool_decide_eq_true. rewrite lookup_insert_eq. eauto.
Qed.

Lemma worker_running kind id c f : runningIn (rBase (workerState kind id c f)) jobID.
Proof using. eexists. split; [apply lookup_insert_eq|done]. Qed.

Lemma submitCleanup_run id c :
  rCopies db !! id = Some c -> instanceKept db (cInstance (cSource c)) = true ->
  submitCleanup jobID owner until now id c (db, []) =
    if cleanable db c then (Ok (Some (Cleanup id)), (workerState KindRemotePrune id c (fun m => m), []))
    else (Ok None, (db, [])).
Proof using Hidle Hnew Hrefs.
  intros Hc Hk. unfold submitCleanup, submitted.
  assert (forall e, TxCheckRemoteCleanup id (e, []) =
    (if match rCopies e !! id with Some c => cleanable e c | None => false end then (Ok tt, (e, [])) else (Err ErrRemoteUnavailable, (e, [])))) as Hck.
  { intros e. unfold TxCheckRemoteCleanup, tbind. rewrite readq_run.
    destruct (rCopies e !! id) as [x|]; [by destruct (cleanable e x)|done]. }
  destruct (cleanable db c) eqn:Hcl.
  - pose proof (workerState_refs KindRemotePrune id c (fun m => m) c (fun k c' H => or_introl H)) as Hrefs'.
    unfold workerState in *. rewrite withCopies_id in *.
    rewrite (ClaimRemoteJob_run _ _ _ _ _ _ _ (remote_keys_free _ id c) (taken KindRemotePrune c)); [reflexivity| |exact Hnew| |done|done|exact Hrefs'].
    + rewrite Hck. cbn [rCopies withBase taken]. rewrite Hc. change (cleanable _ c) with (cleanable db c). by rewrite Hcl.
    + by apply refOk_instance, kept_instance.
  - erewrite ClaimRemoteJob_refused; [reflexivity|apply remote_keys_free|]. rewrite Hck. cbn [rCopies withBase]. rewrite Hc.
    change (cleanable _ c) with (cleanable db c). by rewrite Hcl.
Qed.

(** The copy an upload begins on. *)
Definition begun (c : CopyRow) : CopyRow :=
  mkCopy (cSource c) RemoteCopyUploading (cAttempts c + 1) (cNextAttempt c) (cDeadline c) (cLastError c) (cCancel c)
    (Some jobID) (cObject c) (cManifest c) (cSucceeded c) (cCleanup c) (cCleanupError c) (cCleanupNext c) now (cFlagged c).

Lemma submitUpload_run id c :
  rCopies db !! id = Some c -> due now db (id, c) = true ->
  submitUpload jobID owner until now id c (db, []) =
    if negb (cCancel c) && archiveKept db (cBackup (cSource c))
    then (Ok (Some (Upload id)), (workerState KindRemoteCopy id c <[id := begun c]>, []))
    else (Ok None, (db, [])).
Proof using Hidle Hnew Hrefs.
  intros Hc Hdue. unfold submitUpload, submitted.
  set (tk := taken KindRemoteCopy c).
  assert (claimable now tk c = negb (cCancel c) && archiveKept db (cBackup (cSource c))) as Hcl.
  { unfold due in Hdue. cbn [snd] in Hdue. rewrite !andb_true_iff in Hdue. destruct Hdue as [[[[H1 H2] H3] H4] H5].
    unfold claimable. rewrite H1, H3. change (destTakes tk _) with (destTakes db (cDest (cSource c))). rewrite H4.
    change (archiveKept tk _) with (archiveKept db (cBackup (cSource c))). by destruct (negb (cCancel c)). }
  assert (claimed now tk c = begun c) as Hbg.
  { unfold claimed, begun. f_equal. unfold LockHolder, tk, taken.
    cbn [locks withLocks withBase rBase]. rewrite takeKeys_lookup, decide_True; [done|].
    apply claimKeys_elem. by left. }
  assert (TxClaimRemoteCopy now id (tk, []) =
    if claimable now tk c then (Ok tt, (withCopies <[id := begun c]> tk, [])) else (Err ErrRemoteUnavailable, (tk, []))) as Htx.
  { unfold TxClaimRemoteCopy, updateCopy, tbind. rewrite stmt_run. cbn [rCopies withBase]. change (rCopies tk) with (rCopies db).
    rewrite Hc. rewrite Hbg. by destruct (claimable now tk c). }
  rewrite Hcl in Htx. destruct (negb _ && _).
  - rewrite (ClaimRemoteJob_run _ _ _ _ _ _ _ (remote_keys_free _ id c) (withCopies <[id := begun c]> tk)); [reflexivity|exact Htx|exact Hnew|..|done|done|].
    + apply refOk_instance, kept_instance. unfold due in Hdue. by apply andb_true_iff in Hdue as [_ ?].
    + apply (workerState_refs KindRemoteCopy id c <[id := begun c]> (begun c)).
      intros k c' [[<- <-]|[_ Hk]]%lookup_insert_cases; [by right|by left].
  - erewrite ClaimRemoteJob_refused; [reflexivity|apply remote_keys_free|exact Htx].
Qed.
End Dispatching.

(** With a working database, free transfer locks and a fresh job, a turn of the
    worker starts the first cleanup due if its copy may be cleaned, else nothing;
    with no cleanup due it starts the first upload due unless that copy was
    cancelled or its archive is gone.  An upload started marks its copy uploading
    under the job that holds the transfer lock, counts the attempt and touches no
    other copy. *)
Theorem DispatchRemote_starts (jobID owner : string) (until now : Time) (db : RDB) :
  refsHeld db = true -> runs (rBase db) !! jobID = None ->
  locks (rBase db) !! RemoteLockKey = None -> (forall i, locks (rBase db) !! remoteInstanceKey i = None) ->
  exists w db', DispatchRemote jobID owner until now (db, []) = (Ok w, (db', [])) /\
    match DueRemoteCleanup now db, DueRemoteCopies now db with
    | Some (id, c), _ =>
        if cleanable db c
        then w = Some (Cleanup id) /\ rCopies db' = rCopies db /\ runningIn (rBase db') jobID
        else w = None /\ db' = db
    | None, Some (id, c) =>
        if negb (cCancel c) && archiveKept db (cBackup (cSource c))
        then w = Some (Upload id) /\ runningIn (rBase db') jobID /\ LockHolder RemoteLockKey (rBase db') = Some jobID /\
             (exists c', rCopies db' = <[id := c']> (rCopies db) /\ cSource c' = cSource c /\
                cStatus c' = RemoteCopyUploading /\ cJob c' = Some jobID /\ cAttempts c' = (cAttempts c + 1)%Z)
        else w = None /\ db' = db
    | None, None => w = None /\ db' = db
    end.
Proof.
  intros Hrefs Hnew Hl1 Hl2. pose proof (conj Hl1 Hl2) as Hidle. unfold DispatchRemote, orElse, tbind. rewrite readq_run.
  destruct (DueRemoteCleanup now db) as [[id c]|] eqn:Ecl.
  - apply head_filter_Some in Ecl as [Hdue Hin%elem_of_map_to_list]. cbn [fst snd] in *.
    assert (instanceKept db (cInstance (cSource c)) = true) as Hk.
    { unfold cleanupDue in Hdue. cbn [snd] in Hdue. rewrite !andb_true_iff in Hdue. tauto. }
    rewrite (submitCleanup_run jobID owner until now db Hrefs Hnew Hidle id c Hin Hk).
    destruct (cleanable db c); eexists _, _; (split; [reflexivity|]); [|done].
    split_and!; [done|done|apply worker_running].
  - rewrite readq_run. destruct (DueRemoteCopies now db) as [[id c]|] eqn:Eup; [|by eexists _, _].
    apply head_filter_Some in Eup as [Hdue Hin%elem_of_map_to_list].
    rewrite (submitUpload_run jobID owner until now db Hrefs Hnew Hidle id c Hin Hdue).
    destruct (_ && _); eexists _, _; (split; [reflexivity|]); [|done].
    split_and!; [done| | |by eexists].
    + apply worker_running.
    + unfold LockHolder, workerState. cbn [locks withLocks withRuns withBase rBase]. 
      rewrite takeKeys_lookup, decide_True; [done|]. apply claimKeys_elem. by left.
Qed.

(** ** Transfers *)

Lemma rbind_Ok {E A B} (r : result E A) (k : A -> result E B) b :
  rbind r k = Ok b -> exists a, r = Ok a /\ k a = Ok b.
Proof. destruct r; [eauto|done]. Qed.

Section Transfers.
Context `{RefJSONLaws, BackendLaws}.

(** Whether a run put the archive. *)
Definition archivePut (c : CopyRow) (db : RDB) : option Object :=
  match (let? _ := match rDests db !! cDest (cSource c) with
                   | Some d => if takes d then Ok tt else Err RConfiguration | None => Err RConfiguration end in
         let? _ := BackendFor (cDest (cSource c)) in
         let? _ := CheckBackend in
         let? _ := verifyRemoteSource c in
         putObject c) with
  | Ok o => Some o
  | Err _ => None
  end.

Lemma recordObjects_run id o m x db : rCopies db !! id = Some x ->
  recordObjects id o m (db, []) = (Ok (Ok tt), (withCopies <[id := setObjects (encodeRef o) (encodeRef m) x]> db, [])).
Proof. intros Hx. unfold recordObjects, SaveRemoteObjects, updateCopy, tbind. by rewrite stmt_run, Hx. Qed.

Definition archiveRef (c : CopyRow) : ObjectRef := mkRef (objectKey c) "".
Definition manifestRef (c : CopyRow) : ObjectRef := mkRef (manifestKey c) "".

(** What a run leaves of the copy's row [x]. *)
Lemma copyArchive_run id c x db : rCopies db !! id = Some x ->
  exists r, match archivePut c db with
    | None => (exists e, r = Err e) /\ copyArchive id c (db, []) = (Ok r, (db, []))
    | Some _ => exists m, (m = mkRef "" "" /\ (exists e, r = Err e) \/ m = manifestRef c /\ r = Ok tt) /\
        copyArchive id c (db, []) =
          (Ok r, (withCopies <[id := setObjects (encodeRef (archiveRef c)) (encodeRef m) x]> db, []))
    end.
Proof.
  intros Hx. unfold copyArchive, archivePut. rewrite readq_run. cbv beta iota.
  destruct (let? _ := _ in _) as [o|e] eqn:E; [|by eexists; split; [eexists|]].
  assert (Ref o = archiveRef c) as Ho.
  { apply rbind_Ok in E as (? & _ & E). apply rbind_Ok in E as (? & _ & E). apply rbind_Ok in E as (? & _ & E).
    apply rbind_Ok in E as (? & _ & E). exact (put_key _ _ _ E). }
  rewrite (recordObjects_run _ _ _ x) by done. rewrite Ho.
  destruct (let? info := statArchive c o in let? m := putManifest c in Ok (info, m)) as [[info m]|e] eqn:E2.
  - apply rbind_Ok in E2 as (i & Hi & E2). apply rbind_Ok in E2 as (m' & Hm & E2). cbv beta in E2. simplify_eq.
    assert (Ref info = archiveRef c) as ->.
    { unfold statArchive in Hi. destruct (Stat (Ref o)) as [y|] eqn:Es; [|done]. destruct (negb _); [done|].
      injection Hi as <-. rewrite (stat_key _ _ Es). by rewrite Ho. }
    assert (Ref m = manifestRef c) as ->.
    { unfold putManifest in Hm. destruct (manifestFile c); [|done]. destruct (Put _ _) as [o'|] eqn:Ep; [|done].
      destruct (Stat (Ref o')) as [y|] eqn:Es; [|done]. destruct (negb _); [done|]. injection Hm as <-.
      rewrite (stat_key _ _ Es). by rewrite (put_key _ _ _ Ep). }
    exists (Ok tt), (manifestRef c). split; [by right|].
    erewrite recordObjects_run by apply lookup_insert_eq. unfold withCopies. simpl. by rewrite insert_insert_eq.
  - exists (Err e), (mkRef "" ""). split; [left; by eauto|done].
Qed.

(** Whatever a run of an upload meets, an archive it put is on record: the
    copy's row names it, and with its manifest when the run succeeded, so that the
    deletion of the copy, once it succeeded or gave up, asks the backend for
    exactly the objects on record; a run that put nothing leaves the row alone. *)
Theorem uploads_on_record id c x db :
  rCopies db !! id = Some x -> cSource x = cSource c ->
  exists r db', copyArchive id c (db, []) = (Ok r, (db', [])) /\
    match archivePut c db with
    | None => db' = db
    | Some _ => exists x', rCopies db' = <[id := x']> (rCopies db) /\
        forall status now d, takes d = true -> BackendFor (cDest (cSource c)) = Ok tt ->
          (status = RemoteCopySucceeded -> r = Ok tt) ->
          (forall ref, Delete ref = Ok tt) ->
          DeleteRemoteObjects (Some d) (setStatus status now x') =
            (Ok tt, match r with Ok _ => [manifestRef c; archiveRef c] | Err _ => [archiveRef c] end)
    end.
Proof.
  intros Hx Hsrc. destruct (copyArchive_run id c x db Hx) as [r Hr]. exists r.
  destruct (archivePut c db) as [o|]; [|destruct Hr as [_ Hr]; by eexists].
  destruct Hr as (m & Hm & Hr). eexists. split; [exact Hr|]. eexists. split; [done|].
  intros status now d Hd Hb Hst Hdel. unfold DeleteRemoteObjects. simpl. rewrite Hd, Hsrc, Hb, !decode_encode. simpl.
  assert (objectKey (setStatus status now (setObjects (encodeRef (archiveRef c)) (encodeRef m) x)) = objectKey c) as ->
    by (unfold objectKey, remoteObjectKey; simpl; by rewrite Hsrc).
  rewrite (bool_decide_eq_true_2 (objectKey c = objectKey c)) by done.
  destruct Hm as [[-> [e ->]]|[-> ->]]; simpl.
  - unfold succeeded. simpl. rewrite (bool_decide_eq_false_2 (status = _)); [simpl; by rewrite Hdel|].
    intros E. by specialize (Hst E).
  - rewrite andb_false_r, (bool_decide_eq_true_2 (manifestKey c = _)) by done. simpl. by rewrite !Hdel.
Qed.
End Transfers.

(** ** Whose objects *)

(** An identifier names one path element; [NewID]'s hold no separator. *)
Definition plainID (s : string) : Prop := "/"%char ∉ L s.

Lemma literal_app a b : L (a +:+ b) = L a ++ L b.
Proof. induction a as [|x a IH]; simpl; [done|]. by rewrite <- IH. Qed.
Lemma literal_inj a b : L a = L b -> a = b.
Proof. intros H. by rewrite <- (String.string_of_list_ascii_of_string a), H, String.string_of_list_ascii_of_string. Qed.

(** A path element ends at the first separator. *)
Lemma element_inj (a b x y : list ascii) (c : ascii) :
  c ∉ a -> c ∉ b -> a ++ c :: x = b ++ c :: y -> a = b /\ x = y.
Proof.
  revert b. induction a as [|u a IH]; intros [|v b] Ha Hb E; simpl in *.
  - by injection E.
  - injection E as -> _. set_solver.
  - injection E as <- _. set_solver.
  - injection E as <- E. destruct (IH b) as [-> ->]; [set_solver..|done|done].
Qed.

Definition plainCopy (c : CopyRow) : Prop :=
  plainID (cDest (cSource c)) /\ plainID (cInstance (cSource c)) /\ plainID (cBackup (cSource c)).
(** The archive a copy is of, and where. *)
Definition copyTarget (c : CopyRow) : string * string * string :=
  (cDest (cSource c), cInstance (cSource c), cBackup (cSource c)).

Lemma objectKey_L c : L (objectKey c) = L "valmin" ++ "/"%char :: L (cDest (cSource c)) ++ "/"%char ::
  L (cInstance (cSource c)) ++ "/"%char :: L (cBackup (cSource c)) ++ L ".tar.gz".
Proof. unfold objectKey, remoteObjectKey. rewrite !literal_app. reflexivity. Qed.

Lemma objectKey_tails c c' t t' : plainCopy c -> plainCopy c' ->
  L (objectKey c) ++ t = L (objectKey c') ++ t' ->
  cDest (cSource c) = cDest (cSource c') /\ cInstance (cSource c) = cInstance (cSource c') /\
  L (cBackup (cSource c)) ++ L ".tar.gz" ++ t = L (cBackup (cSource c')) ++ L ".tar.gz" ++ t'.
Proof.
  intros (H1 & H2 & H3) (H1' & H2' & H3'). rewrite !objectKey_L. repeat (rewrite <- ?app_assoc, <- ?app_comm_cons).
  intros E%app_inv_head. injection E as E.
  apply element_inj in E as [Ed E]; [|done|done]. apply element_inj in E as [Ei E]; [|done|done].
  by apply literal_inj in Ed, Ei.
Qed.

Lemma objectKey_inj c c' : plainCopy c -> plainCopy c' -> objectKey c = objectKey c' -> copyTarget c = copyTarget c'.
Proof.
  intros H H' E. destruct (objectKey_tails c c' [] [] H H') as (Hd & Hi & Hb); [by rewrite E|].
  rewrite !app_nil_r in Hb. apply app_inj_2 in Hb as [Hb _]; [|done]. apply literal_inj in Hb.
  unfold copyTarget. by rewrite Hd, Hi, Hb.
Qed.

(** An archive's name is no manifest's. *)
Lemma objectKey_manifestKey c c' : plainCopy c -> plainCopy c' -> objectKey c <> manifestKey c'.
Proof.
  intros H H' E. destruct (objectKey_tails c c' [] (L ".json") H H') as (_ & _ & Hb).
  { rewrite app_nil_r, E. unfold manifestKey. by rewrite literal_app. }
  rewrite app_nil_r, app_assoc in Hb.
  change (L ".tar.gz") with (L ".t" ++ L "ar.gz") in Hb at 1. rewrite app_assoc in Hb.
  by apply app_inj_2 in Hb as [_ Hb].
Qed.

Section Deletes.
Context `{RefJSON, Backend}.

(** A deletion asks the backend only for the archive and the manifest of its
    own copy, whatever references the row holds, and so never for those of a copy
    of another archive, of another instance or on another destination. *)
Theorem deletes_own_objects d c : forall ref, ref ∈ (DeleteRemoteObjects d c).2 ->
  (Key ref = objectKey c \/ Key ref = manifestKey c) /\
  (forall c', plainCopy c -> plainCopy c' -> copyTarget c <> copyTarget c' ->
     Key ref <> objectKey c' /\ Key ref <> manifestKey c').
Proof.
  intros ref Hin. assert (Key ref = objectKey c \/ Key ref = manifestKey c) as Hk.
  { unfold DeleteRemoteObjects in Hin. destruct d as [d|]; [|by apply elem_of_nil in Hin].
    destruct (negb (takes d)); [by apply elem_of_nil in Hin|].
    destruct (BackendFor _); [|by apply elem_of_nil in Hin]. destruct (decodeRef (cObject c)) as [ar|]; [|by apply elem_of_nil in Hin].
    destruct (decodeRef (cManifest c)) as [mf|]; [|by apply elem_of_nil in Hin].
    destruct (_ || _) eqn:E; [by apply elem_of_nil in Hin|]. apply orb_false_iff in E as [Ea Em].
    apply negb_false_iff, bool_decide_eq_true in Ea. destruct (negb (succeeded c) && _).
    - apply list_elem_of_singleton in Hin as ->. by left.
    - simpl in Em. apply negb_false_iff, bool_decide_eq_true in Em. rewrite Ea in Em.
      destruct (Delete mf); simpl in Hin.
      + apply elem_of_cons in Hin as [->|Hin]; [by right|]. apply list_elem_of_singleton in Hin as ->. by left.
      + apply list_elem_of_singleton in Hin as ->. by right. }
  split; [done|]. intros c' Hp Hp' Hne.
  assert (objectKey c <> objectKey c') as Ho by (intros E; by apply Hne, objectKey_inj).
  destruct Hk as [->| ->]; split; try done.
  - by apply objectKey_manifestKey.
  - intros E. by apply (objectKey_manifestKey c' c).
  - intros E. apply Ho, literal_inj. apply (f_equal L) in E. unfold manifestKey in E. rewrite !literal_app in E.
    by apply app_inj_2 in E as [E _].
Qed.
End Deletes.

(** A failed attempt is tried again after a minute at the least and an hour at
    the most, later the more attempts were made, and the jitter the code draws, at
    most a fifth of the base, never more than an hour. *)
Theorem backoff_bounds jitter attempt : (0 <= jitter <= backoffBase attempt / 5)%Z ->
  (minute <= backoff jitter attempt <= hour)%Z /\ (backoffBase attempt <= backoff jitter attempt)%Z /\
  (backoffBase attempt <= backoffBase (attempt + 1))%Z.
Proof.
  intros Hj. assert (minute <= backoffBase attempt <= hour)%Z as Hb.
  { unfold backoffBase. assert (1 <= 2 ^ Z.min (Z.max (attempt - 1) 0) 6)%Z by (apply Z.lt_pred_le, Z.pow_pos_nonneg; lia).
    unfold minute, hour. lia. }
  unfold backoff. split; [lia|]. split; [lia|]. unfold backoffBase.
  assert (2 ^ Z.min (Z.max (attempt - 1) 0) 6 <= 2 ^ Z.min (Z.max (attempt + 1 - 1) 0) 6)%Z by (apply Z.pow_le_mono_r; lia).
  unfold minute. lia.
Qed.
