(* ===== verification/Pruner.v ===== *)
(** internal/instance/control/prune.go and the end of a backup job
    (instance/control/backup.go): retention over the catalogue of RemoteStore, one
    page at a time, the rows it deletes and the files it then removes.

    A walk's fuel bounds its pages; [None] is a walk cut short, which the theorems
    exclude.  Removing a file is its path. *)
From S2P Require Import Prelude Kinds Lifecycle Sql Store Retention RemoteStore RemoteCopy RemoteLaws RemoteSafe RemoteWork.

(** ** Selection *)

Definition pruneScanLimit : nat := Z.to_nat 500.

Definition pruneEntry (kv : string * BackupRow) : Entry :=
  mkEntry kv.1 (bPath kv.2) (bConsistent kv.2) (SnapshotTrigger (bTrigger kv.2)) false
    (negb (bool_decide (bAttention kv.2 = []))).
Definition pinEntry (pinned : bool) (a : Entry) : Entry :=
  mkEntry (eID a) (Path a) (Consistent a) (Snapshot a) pinned (Flagged a).
Definition policyOf (inst : RetentionCols) : Policy := mkPolicy (BackupKeepCold inst) (BackupKeepHot inst).

(** The rows of a page. *)
Fixpoint readEntries (now : Time) (instanceID : string) (rows : list (string * BackupRow)) : RTx (list Entry) :=
  match rows with
  | [] => tret []
  | row :: rows =>
      let! pinned := BackupPinned instanceID row.1 in
      let! protected := RemoteBackupProtected now instanceID row.1 in
      let! entries := readEntries now instanceID rows in
      tret (pinEntry (pinned || protected) (pruneEntry row) :: entries)
  end.

(** The loop over the pages, from a cursor. *)
Fixpoint readPages (fuel limit : nat) (now : Time) (instanceID : string) (cursor : option (Time * string))
    (entries : list Entry) : RTx (option (list Entry)) :=
  match fuel with
  | O => tret None
  | S fuel =>
      let! rows := ListBackups instanceID cursor limit in
      let! page := readEntries now instanceID rows in
      if length rows <? limit then tret (Some (entries ++ page))
      else match last rows with
           | Some (id, b) => readPages fuel limit now instanceID (Some (bCreated b, id)) (entries ++ page)
           | None => tret (Some (entries ++ page))
           end
  end.

Definition Select (fuel : nat) (now : Time) (instanceID : string) (inst : RetentionCols)
    (fresh : option (string * BackupRow)) : RTx (option (list Entry)) :=
  let! entries := readPages fuel pruneScanLimit now instanceID None
                    (match fresh with Some row => [pruneEntry row] | None => [] end) in
  tret ((fun entries => Prune entries (policyOf inst)) <$> entries).

(** ** Deletion *)

#[export] Instance StateError_dec : EqDecision StateError_.
Proof. solve_decision. Defined.
#[export] Instance TxErr_dec : EqDecision TxErr.
Proof. solve_decision. Defined.

Definition pruneBackupRow (now : Time) (instanceID backupID : string) : RTx unit := fun s =>
  match TxDeleteBackup now instanceID backupID s with
  | (Err e, s') => if decide (e = ErrBackupProtected) then (Ok tt, s') else (Err e, s')
  | r => r
  end.

Fixpoint pruneRows (now : Time) (instanceID : string) (archives : list Entry) : RTx unit :=
  match archives with
  | [] => tret tt
  | a :: archives => let! _ := pruneBackupRow now instanceID (eID a) in pruneRows now instanceID archives
  end.

(** The paths [Cleanup] removes: of the entries with no row left. *)
Fixpoint Cleanup (instanceID : string) (entries : list Entry) : RTx (list string) :=
  match entries with
  | [] => tret []
  | a :: entries => fun s =>
      match BackupByID instanceID (eID a) s with
      | (Ok None, s') => (let! paths := Cleanup instanceID entries in tret (Path a :: paths)) s'
      | (_, s') => Cleanup instanceID entries s'
      end
  end.

(** *** The prune job

    A selection that fails is logged and skipped. *)
Fixpoint Run (fuel : nat) (now : Time) (insts : list (string * State * RetentionCols)) : RTx (list (string * list Entry)) :=
  match insts with
  | [] => tret []
  | (id, _, inst) :: insts => fun s =>
      match Select fuel now id inst None s with
      | (Ok (Some (a :: doomed)), s') => (let! all := Run fuel now insts in tret ((id, a :: doomed) :: all)) s'
      | (_, s') => Run fuel now insts s'
      end
  end.
Fixpoint runFinish (now : Time) (all : list (string * list Entry)) : RTx unit :=
  match all with
  | [] => tret tt
  | (id, archives) :: all => let! _ := pruneRows now id archives in runFinish now all
  end.
Fixpoint runAfter (all : list (string * list Entry)) : RTx (list string) :=
  match all with
  | [] => tret []
  | (id, archives) :: all => let! p := Cleanup id archives in let! q := runAfter all in tret (p ++ q)
  end.

(** The end of its job. *)
Definition finishPrune (now : Time) (jobID : string) (progress : Z) (log : option string)
    (all : list (string * list Entry)) : RTx unit :=
  FinishRemoteJob jobID StatusSucceeded progress None None log None now (runFinish now all).

(** *** The end of a backup job *)
Definition finishBackup (newCopy : string) (now : Time) (instanceID : string) (quiescing : bool)
    (id : string) (row : BackupRow) (pruned : list Entry) : RTx unit :=
  let! _ := TxCreateBackup newCopy now id row in
  let! _ := pruneRows now instanceID pruned in
  if quiescing
  then match ValidateTransition StateBackingUp StateStopped with
       | Err e => tfail (EState e)
       | Ok _ =>
           let! ok := onBase (TxUpdateInstanceState now instanceID StateBackingUp StateStopped) in
           must ok (EState (NotInState instanceID StateBackingUp))
       end
  else tret tt.

(** ** Paging *)

#[export] Instance newer_total : Total newer.
Proof.
  intros x y. unfold newer. destruct (Z.lt_trichotomy (bCreated x.2) (bCreated y.2)) as [H|[H|H]]; [by right; left| |by left; left].
  destruct (total String.le x.1 y.1); [right; right|left; right]; by auto.
Qed.
#[export] Instance newer_trans : Transitive newer.
Proof.
  intros x y z. unfold newer. intros [H1|[E1 H1]] [H2|[E2 H2]]; [left; lia|left; lia|left; lia|right].
  split; [congruence|]. by trans y.1.
Qed.

Lemma archivesOf_elem i db kv : kv ∈ archivesOf i db <-> rBackups db !! kv.1 = Some kv.2 /\ bInstance kv.2 = i.
Proof.
  unfold archivesOf. rewrite merge_sort_Permutation, list_elem_of_filter. destruct kv as [k b].
  rewrite elem_of_map_to_list. cbn [fst snd]. tauto.
Qed.
Lemma archivesOf_NoDup i db : NoDup (archivesOf i db).*1.
Proof.
  unfold archivesOf. rewrite merge_sort_Permutation. apply (sublist_NoDup _ (map_to_list (rBackups db)).*1).
  - apply NoDup_fst_map_to_list.
  - apply fmap_sublist, sublist_filter.
Qed.
Lemma archivesOf_sorted i db : StronglySorted newer (archivesOf i db).
Proof. apply StronglySorted_merge_sort; apply _. Qed.

Lemma archivesOf_length i db : length (archivesOf i db) <= size (rBackups db).
Proof.
  unfold archivesOf. rewrite merge_sort_Permutation, length_filter. by rewrite length_map_to_list.
Qed.

(** What is past a row of a sorted catalogue. *)
Lemma afterCursor_split l1 id b l2 :
  StronglySorted newer (l1 ++ (id, b) :: l2) -> NoDup (l1 ++ (id, b) :: l2).*1 ->
  filter (fun kv => afterCursor (Some (bCreated b, id)) kv = true) (l1 ++ (id, b) :: l2) = l2.
Proof.
  intros Hs Hnd. rewrite filter_app, filter_cons_False, (filter_none _ l1); [simpl|..].
  - assert (forall x, x ∈ l2 -> afterCursor (Some (bCreated b, id)) x = true) as H.
    { intros x Hx. apply StronglySorted_app_1_r in Hs. apply StronglySorted_inv in Hs as [_ Hs].
      rewrite Forall_forall in Hs. specialize (Hs _ Hx). unfold afterCursor.
      destruct Hs as [Hlt|[He Hle]]; simpl in *; [rewrite (proj2 (Z.ltb_lt _ _)) by lia; done|].
      rewrite He, Z.eqb_refl. simpl. rewrite orb_comm. rewrite bool_decide_eq_false_2; [done|]. intros Hle'.
      assert (id = x.1) as Eid by (apply (anti_symm String.le); done).
      rewrite fmap_app in Hnd. apply NoDup_app in Hnd as (_ & _ & Hnd). apply NoDup_cons in Hnd as [Hnd _].
      apply Hnd. simpl. rewrite Eid.
      exact (proj2 (list_elem_of_fmap fst l2 x.1) (ex_intro _ x (conj eq_refl Hx))). }
    clear -H. induction l2 as [|x l IH]; [done|]. rewrite filter_cons_True by (apply H; by left). rewrite IH; [done|].
    intros y Hy. apply H. by right.
  - intros x Hx Ha. assert (newer x (id, b)) as Hn.
    { eapply StronglySorted_app_1_elem_of; [exact Hs|done|by left]. }
    unfold afterCursor in Ha. destruct Hn as [Hlt|[He Hle]]; simpl in *.
    + rewrite (proj2 (Z.ltb_ge _ _)), (proj2 (Z.eqb_neq _ _)) in Ha by lia. done.
    + rewrite He, Z.ltb_irrefl, bool_decide_eq_true_2, andb_false_r in Ha by done. done.
  - unfold afterCursor. simpl. rewrite Z.ltb_irrefl, bool_decide_eq_true_2 by done. by rewrite andb_false_r.
Qed.

(** *** Selection without faults *)

Definition catalogued (now : Time) (i : string) (db : RDB) (kv : string * BackupRow) : Entry :=
  pinEntry (pinnedIn i kv.1 db || protected now i kv.1 db) (pruneEntry kv).

Lemma BackupPinned_run i id db : BackupPinned i id (db, []) = (Ok (pinnedIn i id db), (db, [])).
Proof. reflexivity. Qed.
Lemma protected_archive now i id db : id <> "" ->
  RemoteBackupProtected now i id (db, []) = (Ok (protected now i id db), (db, [])).
Proof.
  intros Hid. unfold RemoteBackupProtected, protected. rewrite readq_run. do 2 f_equal.
  by rewrite (bool_decide_eq_false_2 (id = "")).
Qed.

Lemma readEntries_run now i rows db : (forall kv, kv ∈ rows -> kv.1 <> "") ->
  readEntries now i rows (db, []) = (Ok (catalogued now i db <$> rows), (db, [])).
Proof.
  induction rows as [|row rows IH]; intros Hne; [done|]. cbn [readEntries fmap list_fmap]. unfold tbind.
  rewrite BackupPinned_run, protected_archive by (apply Hne; by left). rewrite IH; [done|]. intros kv Hkv. apply Hne. by right.
Qed.

Lemma readPages_run fuel limit now i db done_ rest cursor entries :
  0 < limit -> length rest < fuel -> archivesOf i db = done_ ++ rest -> (forall kv, kv ∈ archivesOf i db -> kv.1 <> "") ->
  filter (fun kv => afterCursor cursor kv = true) (archivesOf i db) = rest ->
  readPages fuel limit now i cursor entries (db, []) =
    (Ok (Some (entries ++ (catalogued now i db <$> rest))), (db, [])).
Proof.
  intros Hl. revert done_ rest cursor entries. induction fuel as [|fuel IH]; intros done_ rest cursor entries Hf Ha Hne Hc; [lia|].
  cbn [readPages]. unfold tbind, ListBackups. rewrite readq_run. unfold listBackups. rewrite Hc.
  rewrite readEntries_run.
  2: { intros kv Hkv. apply Hne. rewrite Ha. apply elem_of_app. right. by apply elem_of_take in Hkv as (? & ?%list_elem_of_lookup_2 & _). }
  rewrite length_take. destruct (_ <? _) eqn:E; [apply Nat.ltb_lt in E|apply Nat.ltb_ge in E].
  - rewrite take_ge by lia. done.
  - destruct (last (take limit rest)) as [[id b]|] eqn:El.
    2: { apply last_None in El. apply (f_equal length) in El. rewrite length_take in El. simpl in El. lia. }
    apply last_Some in El as [pre Hpre].
    assert (archivesOf i db = (done_ ++ pre) ++ (id, b) :: drop limit rest) as Ha'.
    { rewrite Ha, <- (take_drop limit rest) at 1. by rewrite Hpre, <- !app_assoc. }
    rewrite (IH (done_ ++ take limit rest) (drop limit rest)); [|rewrite length_drop; lia| |done|].
    + do 3 f_equal. rewrite <- app_assoc, <- fmap_app. by rewrite take_drop.
    + by rewrite Ha, <- app_assoc, take_drop.
    + rewrite Ha'. apply afterCursor_split; rewrite <- Ha'; [apply archivesOf_sorted|apply archivesOf_NoDup].
Qed.

Definition freshEntries (fresh : option (string * BackupRow)) : list Entry :=
  match fresh with Some row => [pruneEntry row] | None => [] end.

Lemma Select_run fuel now i cols fresh db :
  length (archivesOf i db) < fuel -> (forall kv, kv ∈ archivesOf i db -> kv.1 <> "") ->
  Select fuel now i cols fresh (db, []) =
    (Ok (Some (Prune (freshEntries fresh ++ (catalogued now i db <$> archivesOf i db)) (policyOf cols))), (db, [])).
Proof.
  intros Hf Hne. unfold Select, tbind.
  rewrite (readPages_run _ _ _ _ _ [] (archivesOf i db)); [done|unfold pruneScanLimit; lia|done|done|done|].
  clear. induction (archivesOf i db) as [|x l IH]; [done|]. by rewrite filter_cons_True, IH.
Qed.

(** ** Deletion without faults *)

(** The rows a list of selections names. *)
Definition listed (all : list (string * list Entry)) (kv : string * BackupRow) : bool :=
  existsb (fun p : string * list Entry => bool_decide (bInstance kv.2 = p.1) && bool_decide (kv.1 ∈ eID <$> p.2)) all.
Definition unlisted (all : list (string * list Entry)) : RDB -> RDB :=
  withBackups (filter (fun kv => listed all kv = false)).

Lemma unlisted_nil db : unlisted [] db = db.
Proof. unfold unlisted, withBackups. rewrite map_filter_id; [by destruct db|done]. Qed.

Lemma unlisted_app l1 l2 db : unlisted l2 (unlisted l1 db) = unlisted (l1 ++ l2) db.
Proof.
  unfold unlisted, withBackups. cbn [rBase rBackups rCopies rDests rPins rCols]. f_equal. rewrite map_filter_filter.
  apply map_filter_ext. intros k b _. unfold listed. rewrite existsb_app, orb_false_iff. tauto.
Qed.

Lemma pruneBackupRow_run now i a db : protected now i (eID a) db = false ->
  pruneBackupRow now i (eID a) (db, []) = (Ok tt, (unlisted [(i, [a])] db, [])).
Proof.
  intros Hp. unfold pruneBackupRow, TxDeleteBackup, TxCheckRemoteProtection, tbind. rewrite readq_run, Hp.
  unfold tret, deleteBackupRow. rewrite writeq_run. do 2 f_equal. unfold unlisted, withBackups.
  assert (forall k b, rBackups db !! k = Some b -> listed [(i, [a])] (k, b) = bool_decide (bInstance b = i /\ k = eID a)) as Hl.
  { intros k b _. unfold listed. simpl. rewrite orb_false_r, <- bool_decide_and. apply bool_decide_ext.
    by rewrite list_elem_of_singleton. }
  destruct (rBackups db !! eID a) as [b|] eqn:Eb; [case_bool_decide as Hi|].
  - f_equal. apply map_eq. intros k. apply option_eq. intros y. rewrite lookup_delete_Some, map_lookup_filter_Some. split.
    + intros [Hne Hy]. split; [done|]. rewrite (Hl _ _ Hy). apply bool_decide_eq_false_2. by intros [_ ->].
    + intros [Hy Hf]. split; [|done]. intros <-. rewrite (Hl _ _ Hy) in Hf. apply bool_decide_eq_false in Hf.
      apply Hf. split; [congruence|done].
  - rewrite map_filter_id; [by destruct db|]. intros k b' Hk. rewrite (Hl _ _ Hk). apply bool_decide_eq_false_2.
    intros [? ->]. congruence.
  - rewrite map_filter_id; [by destruct db|]. intros k b' Hk. rewrite (Hl _ _ Hk). apply bool_decide_eq_false_2.
    intros [? ->]. congruence.
Qed.

Lemma unlisted_cons i a es db : unlisted [(i, es)] (unlisted [(i, [a])] db) = unlisted [(i, a :: es)] db.
Proof.
  rewrite unlisted_app. unfold unlisted, withBackups. f_equal. apply map_filter_ext. intros k b _. unfold listed. simpl.
  rewrite !orb_false_r, orb_false_iff, !andb_false_iff, !bool_decide_eq_false. set_solver.
Qed.

Lemma pruneRows_run now i es db : (forall a, a ∈ es -> protected now i (eID a) db = false) ->
  pruneRows now i es (db, []) = (Ok tt, (unlisted [(i, es)] db, [])).
Proof.
  revert db. induction es as [|a es IH]; intros db Hp; cbn [pruneRows].
  - unfold tret. do 2 f_equal. unfold unlisted, withBackups. rewrite map_filter_id; [by destruct db|].
    intros k b _. unfold listed. simpl. by rewrite andb_false_r.
  - unfold tbind. rewrite pruneBackupRow_run by (apply Hp; by left). rewrite IH; [by rewrite unlisted_cons|].
    intros x Hx. change (protected now i (eID x) (unlisted _ db)) with (protected now i (eID x) db). apply Hp. by right.
Qed.

Lemma runFinish_run now all db : (forall i es a, (i, es) ∈ all -> a ∈ es -> protected now i (eID a) db = false) ->
  runFinish now all (db, []) = (Ok tt, (unlisted all db, [])).
Proof.
  revert db. induction all as [|[i es] all IH]; intros db Hp; cbn [runFinish]; [by rewrite unlisted_nil|].
  unfold tbind. rewrite pruneRows_run by (intros a Ha; apply (Hp i es); [by left|done]).
  rewrite IH; [by rewrite unlisted_app|]. intros i' es' a Hin Ha.
  change (protected now i' (eID a) (unlisted _ db)) with (protected now i' (eID a) db). apply (Hp i' es'); [by right|done].
Qed.

Lemma Cleanup_run i es db : (forall a, a ∈ es -> backupByID i (eID a) db = None) ->
  Cleanup i es (db, []) = (Ok (Path <$> es), (db, [])).
Proof.
  induction es as [|a es IH]; intros Hg; [done|]. cbn [Cleanup]. unfold BackupByID. rewrite readq_run, Hg by by left.
  unfold tbind. rewrite IH; [done|]. intros x Hx. apply Hg. by right.
Qed.

Lemma runAfter_run all db : (forall i es a, (i, es) ∈ all -> a ∈ es -> backupByID i (eID a) db = None) ->
  runAfter all (db, []) = (Ok (all ≫= fun p => Path <$> p.2), (db, [])).
Proof.
  induction all as [|[i es] all IH]; intros Hg; [done|]. cbn [runAfter]. unfold tbind.
  rewrite Cleanup_run by (intros a Ha; apply (Hg i es); [by left|done]). rewrite IH; [done|].
  intros i' es' a Hin Ha. apply (Hg i' es'); [by right|done].
Qed.

(** *** The whole sweep *)

(** What retention says of a catalogue. *)
Definition selection (now : Time) (db : RDB) (i : string) (cols : RetentionCols) : list Entry :=
  Prune (catalogued now i db <$> archivesOf i db) (policyOf cols).
Definition doomed (now : Time) (db : RDB) (id : string) (b : BackupRow) : Prop :=
  catalogued now (bInstance b) db (id, b) ∈ selection now db (bInstance b) (colsOf (bInstance b) db).

Definition selections (now : Time) (db : RDB) (insts : list (string * State * RetentionCols)) : list (string * list Entry) :=
  filter (fun p => p.2 <> []) ((fun x => (x.1.1, selection now db x.1.1 x.2)) <$> insts).

Lemma Run_run fuel now insts db :
  (forall i, length (archivesOf i db) < fuel) -> (forall id b, rBackups db !! id = Some b -> id <> "") ->
  Run fuel now insts (db, []) = (Ok (selections now db insts), (db, [])).
Proof.
  intros Hf Hne. induction insts as [|[[i st] cols] insts IH]; [done|]. cbn [Run].
  rewrite (Select_run fuel now i cols None db (Hf i)) by (intros kv [Hkv _]%archivesOf_elem; by apply (Hne _ kv.2)).
  cbn [freshEntries app]. fold (selection now db i cols). unfold selections in *. cbn [fmap list_fmap fst snd].
  rewrite filter_cons. cbn [snd]. destruct (selection now db i cols) as [|a es] eqn:E.
  - rewrite decide_False by (by intros []). exact IH.
  - rewrite decide_True by done. unfold tbind. by rewrite IH.
Qed.

(** Retention names unpinned archives only. *)
Lemma selection_elem now db i cols a : a ∈ selection now db i cols ->
  exists id b, rBackups db !! id = Some b /\ bInstance b = i /\ a = catalogued now i db (id, b) /\
    pinnedIn i id db = false /\ protected now i id db = false.
Proof.
  unfold selection. rewrite Prune_overs. intros Ha%overs_sub. apply list_elem_of_filter in Ha as [Hp Ha].
  apply list_elem_of_fmap in Ha as ([id b] & -> & [Hb Hi]%archivesOf_elem). exists id, b. cbn [fst snd] in *.
  simpl in Hp. apply orb_false_iff in Hp as [Hpin Hpro]. done.
Qed.

Lemma selections_elem now db insts i es : (i, es) ∈ selections now db insts ->
  exists st cols, (i, st, cols) ∈ insts /\ es = selection now db i cols.
Proof.
  unfold selections. intros [_ ([[j st] cols] & E & Hin)%list_elem_of_fmap]%list_elem_of_filter.
  cbn [fst snd] in E. injection E as -> ->. eauto.
Qed.

(** A protection that lapsed stays lapsed. *)
Lemma protected_later t1 t2 i id db : (t1 <= t2)%Z -> protected t1 i id db = false -> protected t2 i id db = false.
Proof.
  intros Ht Hp. apply not_true_iff_false. intros Hp2. apply not_true_iff_false in Hp. apply Hp.
  unfold protected in *. apply existsb_elem_of in Hp2 as (kv & Hin & Hp2). apply existsb_elem_of. exists kv. split; [done|].
  apply andb_true_iff in Hp2 as [H1 H2]. apply andb_true_iff. split; [exact H1|]. apply orb_true_iff.
  apply orb_true_iff in H2 as [H2|[H2 H3]%andb_true_iff]; [by left|right]. apply andb_true_iff. split; [done|].
  apply Z.ltb_lt in H3. apply Z.ltb_lt. lia.
Qed.

Lemma listInstances_elem db i st cols : (i, st, cols) ∈ listInstances db <->
  exists inst, instances (rBase db) !! i = Some inst /\ st = iState inst /\ cols = colsOf i db.
Proof.
  unfold listInstances. rewrite list_elem_of_fmap. setoid_rewrite merge_sort_Permutation. split.
  - intros ([k x] & E & Hk%elem_of_map_to_list). simpl in E. injection E as -> -> ->. eauto.
  - intros (x & Hx & -> & ->). exists (i, x). split; [done|]. by apply elem_of_map_to_list.
Qed.

Lemma selections_listed now db id b :
  (forall id b, rBackups db !! id = Some b -> is_Some (instances (rBase db) !! bInstance b)) ->
  rBackups db !! id = Some b ->
  listed (selections now db (listInstances db)) (id, b) = true <-> doomed now db id b.
Proof.
  intros Hfk Hb. unfold listed. rewrite existsb_elem_of. unfold doomed. split.
  - intros ([i es] & Hin & Hl). apply andb_true_iff in Hl as [Hi Hid]. apply bool_decide_eq_true in Hi, Hid. cbn [fst snd] in *.
    apply selections_elem in Hin as (st & cols & (inst & _ & _ & ->)%listInstances_elem & ->). rewrite <- Hi in *.
    apply list_elem_of_fmap in Hid as (a & -> & Ha).
    pose proof Ha as (id' & b' & Hb' & _ & -> & _)%selection_elem. cbn [eID catalogued pinEntry pruneEntry fst] in Hb.
    by assert (b' = b) as -> by congruence.
  - intros Hd. destruct (Hfk _ _ Hb) as [inst Hinst].
    exists (bInstance b, selection now db (bInstance b) (colsOf (bInstance b) db)). split.
    + apply list_elem_of_filter. split; [intros E; cbn [snd] in E; rewrite E in Hd; by apply elem_of_nil in Hd|].
      apply list_elem_of_fmap. exists (bInstance b, iState inst, colsOf (bInstance b) db). split; [done|].
      apply listInstances_elem. eauto.
    + cbn [fst snd]. rewrite (bool_decide_eq_true_2 (bInstance b = bInstance b)) by done. apply bool_decide_eq_true.
      apply list_elem_of_fmap. eexists. split; [|exact Hd]. done.
Qed.

(** The end of a job whose hook succeeds. *)
Lemma FinishRemoteJob_run jobID status p c e l cl at_ (hook : RTx unit) db row d :
  runs (rBase db) !! jobID = Some row -> statusChecked status = true ->
  hook (withBase (closedBase jobID status p c e l cl at_ (rBase db) row) db, []) = (Ok tt, (d, [])) ->
  refsHeld d = true ->
  FinishRemoteJob jobID status p c e l cl at_ hook (db, []) = (Ok tt, (d, [])).
Proof.
  intros Hrow Hst Hh Hr. unfold FinishRemoteJob. rewrite inRTx_run, Hst. unfold tbind, onBase at 1. cbn [fst snd].
  unfold updateRun. rewrite stmt_run, Hrow. cbn [always]. unfold onBase at 1. cbn [fst snd rBase withBase].
  unfold releaseLocks. rewrite stmt_run. 
  change (withBase _ (withBase _ db)) with (withBase (closedBase jobID status p c e l cl at_ (rBase db) row) db).
  match goal with |- context [hook ?x] => rewrite (Hh : hook x = _) end. by rewrite Hr.
Qed.

(** *** One sweep, from the rows it starts on *)

Section Sweep.
Context (t1 t2 : Time) (jobID : string) (row : Job) (progress : Z) (log : option string) (db : RDB).
Hypothesis Hfk : forall id b, rBackups db !! id = Some b -> is_Some (instances (rBase db) !! bInstance b).
Hypothesis Hrefs : refsHeld db = true.
Hypothesis Hrow : runs (rBase db) !! jobID = Some row.
Notation all := (selections t1 db (listInstances db)).
Notation base := (closedBase jobID StatusSucceeded progress None None log None t2 (rBase db) row).
Notation swept := (unlisted all (withBase base db)).

Lemma all_elem i es a : (i, es) ∈ all -> a ∈ es -> exists id b, rBackups db !! id = Some b /\ bInstance b = i /\
  a = catalogued t1 i db (id, b) /\ protected t1 i id db = false /\ listed all (id, b) = true.
Proof using.
  intros Hin Ha. pose proof Hin as (st & cols & _ & ->)%selections_elem.
  destruct (selection_elem _ _ _ _ _ Ha) as (id & b & Hb & Hi & -> & _ & Hp). exists id, b. split_and!; [done..|].
  unfold listed. apply existsb_elem_of. exists (i, selection t1 db i cols). split; [done|]. cbn [fst snd].
  rewrite bool_decide_eq_true_2 by done. apply bool_decide_eq_true. apply list_elem_of_fmap. by exists (catalogued t1 i db (id, b)).
Qed.

Lemma swept_rows id b : rBackups swept !! id = Some b <-> rBackups db !! id = Some b /\ ~ doomed t1 db id b.
Proof using Hfk.
  simpl. rewrite map_lookup_filter_Some. split; intros [Hb H]; (split; [done|]).
  - rewrite <- (selections_listed t1 db id b Hfk Hb). by rewrite H.
  - apply not_true_iff_false. by rewrite (selections_listed t1 db id b Hfk Hb).
Qed.

(** No setup loses its archive, no copy its job. *)
Lemma swept_refs : refsHeld swept = true.
Proof using Hfk Hrefs.
  unfold refsHeld in *. apply andb_true_iff in Hrefs as [Hp Hc]. rewrite forallb_elem_of in Hp. rewrite forallb_elem_of in Hc.
  apply andb_true_iff. rewrite !forallb_elem_of. split.
  - intros q Hq. specialize (Hp q Hq). unfold pinHeld in *.
    destruct (rBackups db !! q.2) as [b|] eqn:Eb; [|done]. apply bool_decide_eq_true in Hp.
    rewrite (proj2 (swept_rows q.2 b)); [by apply bool_decide_eq_true|]. split; [done|]. intros Hd.
    apply selection_elem in Hd as (id & b' & _ & _ & E & Hpin & _). injection E as Eid _.
    unfold pinnedIn in Hpin. apply bool_decide_eq_false in Hpin. apply Hpin. rewrite Hp, <- Eid.
    apply elem_of_elements in Hq. by destruct q.
  - intros c Hc'. specialize (Hc c Hc'). unfold jobHeld in *. destruct (cJob c) as [j|]; [|done].
    apply bool_decide_eq_true in Hc. apply bool_decide_eq_true.
    change (is_Some (<[jobID := setFinished StatusSucceeded progress None None log None t2 row]> (runs (rBase db)) !! j)).
    destruct (decide (jobID = j)) as [<-|Hnj]; [rewrite lookup_insert_eq; eauto|by rewrite lookup_insert_ne].
Qed.

Lemma finishPrune_run : (t1 <= t2)%Z -> finishPrune t2 jobID progress log all (db, []) = (Ok tt, (swept, [])).
Proof using Hfk Hrefs Hrow.
  intros Ht. unfold finishPrune. apply (FinishRemoteJob_run _ _ _ _ _ _ _ _ _ _ row); [done|done| |apply swept_refs].
  apply runFinish_run. intros i es a Hin Ha. destruct (all_elem i es a Hin Ha) as (id & b & _ & _ & -> & Hp & _).
  exact (protected_later t1 t2 i id db Ht Hp).
Qed.

Lemma swept_gone i es a : (i, es) ∈ all -> a ∈ es -> backupByID i (eID a) swept = None.
Proof using Hfk.
  intros Hin Ha. destruct (all_elem i es a Hin Ha) as (id & b & Hb & Hi & -> & _ & Hl).
  unfold backupByID. cbn [eID catalogued pinEntry pruneEntry fst].
  destruct (rBackups swept !! id) as [b'|] eqn:E; [|done]. exfalso. apply swept_rows in E as [Hb' Hnd].
  assert (b' = b) as -> by congruence. apply Hnd. by apply (selections_listed t1 db id b Hfk Hb).
Qed.

Lemma swept_paths p : p ∈ (all ≫= fun q => Path <$> q.2) <->
  exists id b, rBackups db !! id = Some b /\ doomed t1 db id b /\ p = bPath b.
Proof using Hfk.
  rewrite list_elem_of_bind. split.
  - intros ([i es] & Hp & Hin). apply list_elem_of_fmap in Hp as (a & -> & Ha).
    destruct (all_elem i es a Hin Ha) as (id & b & Hb & _ & -> & _ & Hl). exists id, b. split_and!; [done| |done].
    by apply (selections_listed t1 db id b Hfk Hb).
  - intros (id & b & Hb & Hd & ->). apply (selections_listed t1 db id b Hfk Hb) in Hd. unfold listed in Hd.
    apply existsb_elem_of in Hd as ([i es] & Hin & H). apply andb_true_iff in H as [_ Hid].
    apply bool_decide_eq_true in Hid. cbn [fst snd] in *. exists (i, es). split; [|done]. cbn [snd].
    apply list_elem_of_fmap in Hid as (a & Hida & Ha). apply list_elem_of_fmap. exists a. split; [|done].
    destruct (all_elem i es a Hin Ha) as (id' & b' & Hb' & _ & -> & _). cbn [eID catalogued pinEntry pruneEntry fst] in Hida.
    subst id'. by assert (b' = b) as -> by congruence.
Qed.
End Sweep.

(** The retention job, on a database that answers and with no change between
    its walk and its end, deletes exactly the archives retention names in each
    instance's whole catalogue, however many pages that takes: neither one linked
    to a setup nor one still being copied is among them, every other archive and
    every copy stays, and the files it then removes are those of the rows deleted. *)
Theorem prune_job_exact fuel t1 t2 jobID row progress log db :
  (forall i, length (archivesOf i db) < fuel) -> (forall id b, rBackups db !! id = Some b -> id <> "") ->
  (forall id b, rBackups db !! id = Some b -> is_Some (instances (rBase db) !! bInstance b)) ->
  refsHeld db = true -> runs (rBase db) !! jobID = Some row -> (t1 <= t2)%Z ->
  exists all db' paths,
    Run fuel t1 (listInstances db) (db, []) = (Ok all, (db, [])) /\
    finishPrune t2 jobID progress log all (db, []) = (Ok tt, (db', [])) /\
    runAfter all (db', []) = (Ok paths, (db', [])) /\
    (forall id b, rBackups db' !! id = Some b <-> rBackups db !! id = Some b /\ ~ doomed t1 db id b) /\
    (forall id b, rBackups db !! id = Some b -> doomed t1 db id b ->
       pinnedIn (bInstance b) id db = false /\ protected t1 (bInstance b) id db = false) /\
    rCopies db' = rCopies db /\ rPins db' = rPins db /\
    (forall p, p ∈ paths <-> exists id b, rBackups db !! id = Some b /\ doomed t1 db id b /\ p = bPath b).
Proof.
  intros Hf Hne Hfk Hrefs Hrow Ht. eexists _, _, _. split_and!.
  - by apply Run_run.
  - by apply (finishPrune_run t1 t2 jobID row).
  - apply runAfter_run. by apply swept_gone.
  - by apply swept_rows.
  - intros id b Hb Hd. apply selection_elem in Hd as (id' & b' & _ & _ & E & Hpin & Hpro). by injection E as <- _.
  - done.
  - done.
  - by apply swept_paths.
Qed.

(** ** What an end deletes, whatever happened since its walk *)

Section Spare.
Context (db0 : RDB) (now : Time) (all : list (string * list Entry)).

(** From [db0], only listed archives with no live copy are gone. *)
Definition spared (db : RDB) : Prop :=
  rCopies db0 ⊆ rCopies db /\ rPins db = rPins db0 /\
  forall id b, rBackups db0 !! id = Some b ->
    rBackups db !! id = Some b \/
      (rBackups db !! id = None /\ listed all (id, b) = true /\ protected now (bInstance b) id db0 = false).

Lemma spared_refl : spared db0.
Proof. split; [done|]. split; [done|]. by left. Qed.

Lemma protected_mono i id db : rCopies db0 ⊆ rCopies db -> protected now i id db = false -> protected now i id db0 = false.
Proof.
  intros Hs Hp. apply not_true_iff_false. intros Hp0. apply not_true_iff_false in Hp. apply Hp.
  unfold protected in *. apply existsb_elem_of in Hp0 as ([k c] & Hin & Hk). apply existsb_elem_of. exists (k, c).
  split; [|done]. apply elem_of_map_to_list. apply elem_of_map_to_list in Hin. exact (lookup_weaken _ _ _ _ Hin Hs).
Qed.

Lemma listed_entry i es a b : (i, es) ∈ all -> a ∈ es -> bInstance b = i -> listed all (eID a, b) = true.
Proof.
  intros Hin Ha Hi. unfold listed. apply existsb_elem_of. exists (i, es). split; [done|]. cbn [fst snd].
  rewrite bool_decide_eq_true_2 by done. apply bool_decide_eq_true. apply list_elem_of_fmap. by exists a.
Qed.

Lemma TxDeleteBackup_spared i es a : (i, es) ∈ all -> a ∈ es -> Inv spared (TxDeleteBackup now i (eID a)).
Proof.
  intros Hin Ha s r s' H Hs. unfold TxDeleteBackup, TxCheckRemoteProtection, tbind in H.
  destruct (readq (protected now i (eID a)) s) as [[p|e] s1] eqn:E; [|injection H as <- <-; by apply readq_state in E as ->].
  apply readq_Ok in E as [-> E]. destruct (protected now i (eID a) s.1) eqn:Hp; [injection H as <- <-; by rewrite E|].
  cbn [tret] in H. rewrite <- E in Hs, Hp. apply writeq_cases in H as [[_ H]|[_ H]]; rewrite H; [|done].
  destruct (rBackups s1.1 !! eID a) as [b|] eqn:Eb; [|done]. case_bool_decide as Hbi; [|done].
  destruct Hs as (Hc & Hpins & Hb). split; [done|]. split; [done|]. intros k x Hx. destruct (Hb _ _ Hx) as [Hk|(Hn & Hl)];
    [|right; split; [apply lookup_delete_None; by right|exact Hl]].
  simpl. destruct (decide (eID a = k)) as [<-|Hne]; [right|left; by rewrite lookup_delete_ne].
  assert (x = b) as -> by congruence. split; [apply lookup_delete_eq|]. split; [by apply (listed_entry i es)|]. rewrite Hbi. by apply (protected_mono i (eID a) s1.1).
Qed.

Lemma pruneRows_spared i es es' : (i, es) ∈ all -> es' ⊆ es -> Inv spared (pruneRows now i es').
Proof.
  intros Hin. induction es' as [|a es' IH]; intros Hsub; cbn [pruneRows]; [apply _|].
  apply tbind_Inv; [|intros _; apply IH; set_solver]. intros s r s' H. unfold pruneBackupRow in H.
  destruct (TxDeleteBackup now i (eID a) s) as [[u|e] s1] eqn:E.
  - injection H as <- <-. apply (TxDeleteBackup_spared i es a Hin) in E; [exact E|set_solver].
  - apply (TxDeleteBackup_spared i es a Hin) in E; [|set_solver]. destruct (decide _); by injection H as <- <-.
Qed.

Lemma runFinish_spared all' : all' ⊆ all -> Inv spared (runFinish now all').
Proof.
  induction all' as [|[i es] all' IH]; intros Hsub; cbn [runFinish]; [apply _|].
  apply tbind_Inv; [apply (pruneRows_spared i es es); set_solver|]. intros _. apply IH. set_solver.
Qed.

#[local] Instance onBase_spared {A} (m : Sql.Tx DB A) : Inv spared (onBase m).
Proof. by apply onBase_Inv. Qed.

End Spare.

(** Recording an archive adds to the catalogue and the queue. *)
Definition grown (db0 db : RDB) : Prop :=
  rCopies db0 ⊆ rCopies db /\ rPins db = rPins db0 /\ rBackups db0 ⊆ rBackups db.

Lemma grown_spared db0 db1 now all db : grown db0 db1 -> spared db1 now all db -> spared db0 now all db.
Proof.
  intros (H1 & H2 & H3) (S1 & S2 & S3). split; [by trans (rCopies db1)|]. split; [congruence|]. intros id b Hb.
  destruct (S3 id b (lookup_weaken _ _ _ _ Hb H3)) as [|(Hn & Hl & Hp)]; [by left|right]. split_and!; [done..|].
  by apply (protected_mono db0 now _ _ db1).
Qed.

Lemma createBackup_grown newCopy now id row db0 : Inv (grown db0) (createBackup newCopy now id row).
Proof.
  unfold createBackup. apply tbind_Inv; [|intros _]; apply stmt_Inv; intros db u db' H (Hc & Hp & Hb).
  - destruct (decide _) as [|Hn]; [done|]. destruct (negb _); [done|]. injection H as _ <-. split; [done|]. split; [done|].
    simpl. trans (rBackups db); [done|]. apply insert_subseteq. by apply eq_None_not_Some.
  - assert (rBackups db' = rBackups db /\ rPins db' = rPins db /\ rCopies db ⊆ rCopies db') as (E1 & E2 & E3).
    { repeat (case_match; simplify_eq; try done). split_and!; [done..|]. simpl. apply insert_subseteq. by apply eq_None_not_Some. }
    split; [by trans (rCopies db)|]. by rewrite E1, E2.
Qed.

Lemma grown_refl db : grown db db.
Proof. done. Qed.

(** A backup's end, from the rows it starts on. *)
Lemma finishBackup_spared now all newCopy i quiescing id row pruned s r s' : (i, pruned) ∈ all ->
  finishBackup newCopy now i quiescing id row pruned s = (r, s') -> spared s.1 now all s'.1.
Proof.
  intros Hin H. unfold finishBackup in H. unfold tbind at 1 in H.
  destruct (TxCreateBackup newCopy now id row s) as [[u|e] s1] eqn:E;
    pose proof (createBackup_grown newCopy now id row s.1 _ _ _ E (grown_refl _)) as Hg;
    apply (grown_spared _ _ _ _ _ Hg); [|injection H as _ <-; apply spared_refl].
  assert (Inv (spared s1.1 now all) (let! _ := pruneRows now i pruned in
    if quiescing then match ValidateTransition StateBackingUp StateStopped with
       | Err e => tfail (EState e)
       | Ok _ => let! ok := onBase (TxUpdateInstanceState now i StateBackingUp StateStopped) in
                 must ok (EState (NotInState i StateBackingUp)) end else tret tt)) as Hi.
  { pose proof (fun A m => @onBase_spared s1.1 now all A m) as Hbase.
    apply tbind_Inv; [by apply (pruneRows_spared _ _ _ i pruned pruned)|]. intros _. destruct quiescing; apply _. }
  exact (Hi _ _ _ H (spared_refl _ _ _)).
Qed.

(** A transaction that commits holds its deferred keys. *)
Lemma inRTx_refs {A} (m : RTx A) s a s' : inRTx m s = (Ok a, s') -> refsHeld s'.1 = true.
Proof.
  intros (fs1 & s1 & E & ->)%inTx_Ok. apply tbind_Ok in E as (b & s2 & H2 & E).
  apply tbind_Ok in E as ([] & s3 & H3 & E). injection E as -> <-. unfold deferred in H3.
  destruct (refsHeld s2.1) eqn:Hr; [|done]. by injection H3 as <-.
Qed.

(** A job's end: the hook runs over tables whose archives, copies and setups are
    those it started on. *)
Lemma FinishRemoteJob_hook jobID st p c e l cl at_ (hook : RTx unit) s u s' :
  FinishRemoteJob jobID st p c e l cl at_ hook s = (Ok u, s') ->
  exists b fs1 s1, hook (withBase b s.1, fs1) = (Ok u, s1) /\ s'.1 = s1.1 /\ refsHeld s'.1 = true.
Proof.
  intros H. pose proof H as Hr%inRTx_refs. apply inRTx_Ok in H as (fs1 & s1 & H & Es).
  apply tbind_Ok in H as (n & s2 & H1 & H). apply tbind_Ok in H as (v & s3 & H2 & H3).
  apply onBase_Ok in H2 as (b2 & fs2 & _ & ->).
  assert (exists b, s2.1 = withBase b s.1) as [b1 Hb1].
  { destruct (statusChecked st); [by apply onBase_Ok in H1 as (b & fs & _ & ->); exists b|].
    apply stmt_Ok in H1 as [H1 _]. exists (rBase s.1). cbn [fst] in H1. destruct s.1.
    destruct (runs _ !! jobID); [done|]. by injection H1 as _ <-. }
  destruct u. exists b2, fs2, s1. rewrite Hb1 in H3. split_and!; [exact H3|done|done].
Qed.

(** C26. Whatever happened since the walk and whatever the driver does, the end of
    the retention job, or of a backup that prunes, takes away only archives the
    walk selected, none that a copy is uploading or still due from and none a saved
    setup is linked to, and no copy. *)
Theorem ends_spare_archives now all db fs jobID st p c e l cl (hook : RTx unit) :
  hook = runFinish now all \/
  (exists newCopy i quiescing id row pruned, (i, pruned) ∈ all /\
     hook = finishBackup newCopy now i quiescing id row pruned) ->
  let db' := (FinishRemoteJob jobID st p c e l cl now hook (db, fs)).2.1 in
  rCopies db ⊆ rCopies db' /\
  forall id b, rBackups db !! id = Some b -> rBackups db' !! id = Some b \/
    (rBackups db' !! id = None /\ listed all (id, b) = true /\
     protected now (bInstance b) id db = false /\ pinnedIn (bInstance b) id db = false).
Proof.
  intros Hhook db'. subst db'. destruct (FinishRemoteJob _ _ _ _ _ _ _ _ _ _) as [[u|x] s'] eqn:E; cbn [snd].
  2: { rewrite (FinishRemoteJob_Err _ _ _ _ _ _ _ _ _ _ _ _ E). split; [done|]. by left. }
  apply FinishRemoteJob_hook in E as (b0 & fs1 & s1 & E & -> & Hr).
  assert (spared db now all s1.1) as (Hc & Hp & Hb).
  { destruct Hhook as [->|(newCopy & i & q & id & row & pruned & Hin & ->)].
    - exact (runFinish_spared (withBase b0 db) now all all (fun _ H => H) _ _ _ E (spared_refl _ _ _)).
    - exact (finishBackup_spared now all _ _ _ _ _ _ _ _ _ Hin E). }
  split; [done|]. intros id b Hid. destruct (Hb _ _ Hid) as [|(Hn & Hl & Hpr)]; [by left|right]. split_and!; [done..|].
  apply bool_decide_eq_false. intros Hpin. unfold refsHeld in Hr. apply andb_true_iff in Hr as [Hr _].
  rewrite forallb_elem_of in Hr. specialize (Hr (bInstance b, id)). rewrite elem_of_elements, Hp in Hr.
  specialize (Hr Hpin). unfold pinHeld in Hr. simpl in Hr. by rewrite Hn in Hr.
Qed.
