(* ===== verification/RemoteWitness.v ===== *)
(** Concrete runs of the remote copies: the hypotheses of their theorems hold at
    them, and two interleavings that stop the queue. *)
From S2P Require Import Prelude Kinds Lifecycle Sql Store Retention RemoteStore RemoteCopy RemoteLaws RemoteSafe RemoteWork Pruner.

(** ** A panel with a server, two archives and a destination *)

Definition worldInst : Inst := mkInst "midgard" StateStopped None None false false None 0.
Definition archiveRow (at_ : Time) : BackupRow := mkBackup "i1" "/a/b" 10 "sha" "w" "manual" true at_ None [].
Definition davDest : DestRow := mkDest "webdav" true false "" "" "" "" "" None "" 0 0.

Definition rdb0 : RDB :=
  mkRDB (mkDB ∅ ∅ {[ "i1" := worldInst ]} ∅ ∅ ∅) {[ "b1" := archiveRow 1; "b2" := archiveRow 2 ]} ∅
    {[ "d1" := davDest ]} ∅ ∅.

(** Both archives queued, then a turn of the worker. *)
Definition op1 : TableOp := TQueue "c1" 10 "i1" "b1" "a1" None.
Definition op2 : TableOp := TQueue "c2" 11 "i1" "b2" "a2" None.
Definition rdb1 : RDB := (perform op1 (rdb0, [])).2.1.
Definition rdb2 : RDB := (perform op2 (rdb1, [])).2.1.
Definition turn1 := DispatchRemote "j1" "p" 999 20 (rdb2, []).
Definition rdb3 : RDB := turn1.2.1.
Definition panel3 : RW := mkRW rdb3 (started turn1.1 "j1" ∅).

Example turn1_uploads : turn1.1 = Ok (Some (Upload "c1")) /\ cStatus <$> rCopies rdb3 !! "c1" = Some RemoteCopyUploading.
Proof. split; vm_compute; reflexivity. Qed.

Lemma fresh_by_jobs (w : RW) jobID :
  wActive w !! jobID = None -> bool_decide (map_Forall (fun _ c => cJob c <> Some jobID) (rCopies (wDB w))) = true ->
  freshJob w jobID.
Proof. intros H1 H2. split; [done|]. intros id c Hc. exact (bool_decide_eq_true_1 _ H2 id c Hc). Qed.

Lemma panel2_reached : rtc rstep (mkRW rdb0 ∅) (mkRW rdb2 ∅).
Proof.
  eapply rtc_l; [exact (STable rdb0 ∅ op1 [] I)|]. eapply rtc_l; [exact (STable rdb1 ∅ op2 [] I)|]. apply rtc_refl.
Qed.

Lemma turn1_step : rstep (mkRW rdb2 ∅) panel3.
Proof. apply (SDispatch rdb2 ∅ "j1" "p" 999 20 []). apply fresh_by_jobs; vm_compute; reflexivity. Qed.

Example one_upload_witness :
  exists c, rCopies rdb3 !! "c1" = Some c /\ cStatus c = RemoteCopyUploading /\ cJob c = Some "j1" /\
    LockHolder RemoteLockKey (rBase rdb3) = Some "j1".
Proof.
  refine (proj2 (proj2 (one_upload rdb0 panel3 eq_refl eq_refl eq_refl _)) "j1" "c1" _ _).
  - eapply rtc_r; [exact panel2_reached|exact turn1_step].
  - vm_compute. reflexivity.
  - eexists. split; vm_compute; reflexivity.
Defined.

Example copies_move_witness : copiesMove rdb2 rdb3.
Proof. exact (copies_move rdb0 (mkRW rdb2 ∅) panel3 eq_refl eq_refl eq_refl panel2_reached turn1_step). Defined.

Lemma due2 : DueRemoteCleanup 20 rdb2 = None /\
  (exists c, DueRemoteCopies 20 rdb2 = Some ("c1", c) /\ cCancel c = false /\ archiveKept rdb2 (cBackup (cSource c)) = true).
Proof. split; [vm_compute; reflexivity|]. eexists. split_and!; vm_compute; reflexivity. Qed.

Example DispatchRemote_starts_witness :
  exists w db', DispatchRemote "j1" "p" 999 20 (rdb2, []) = (Ok w, (db', [])) /\ w = Some (Upload "c1").
Proof.
  assert (refsHeld rdb2 = true) as Hr by (vm_compute; reflexivity).
  assert (locks (rBase rdb2) = ∅) as El by (vm_compute; reflexivity).
  assert (locks (rBase rdb2) !! RemoteLockKey = None) as Hl0 by (rewrite El; apply lookup_empty).
  assert (forall i, locks (rBase rdb2) !! remoteInstanceKey i = None) as Hl by (intros i; rewrite El; apply lookup_empty).
  assert (runs (rBase rdb2) !! "j1" = None) as Hn by (vm_compute; reflexivity).
  destruct due2 as [H1 (c & H2 & H3 & H4)].
  pose proof (DispatchRemote_starts "j1" "p" 999 20 rdb2 Hr Hn Hl0 Hl) as Hd. revert Hd H2 H3 H4.
  generalize (DispatchRemote "j1" "p" 999 20 (rdb2, [])). rewrite H1. intros r (w & db' & -> & Hd) H2 H3 H4. rewrite H2, H3, H4 in Hd.
  exists w, db'. split; [reflexivity|]. by destruct Hd as [? _].
Defined.

(** ** Transfers

    A reference written as its two fields, each character marked and each field
    ended, and a backend that answers every call. *)
Fixpoint field (s : string) : string :=
  match s with "" => "b" | String c s => String "a" (String c (field s)) end.
Fixpoint readField (s : string) : option (string * string) :=
  match s with
  | String "a" (String c s) => match readField s with Some (f, rest) => Some (String c f, rest) | None => None end
  | String "b" s => Some ("", s)
  | _ => None
  end.
Lemma readField_field s rest : readField (field s +:+ rest) = Some (s, rest).
Proof. induction s as [|c s IH]; simpl; [done|]. by rewrite IH. Qed.

Lemma readField_last s : readField (field s) = Some (s, "").
Proof. induction s as [|c s IH]; simpl; [done|]. by rewrite IH. Qed.

#[local] Instance toyRefJSON : RefJSON := {
  encodeRef r := if decide (Key r = "" /\ ProviderID r = "") then "{}" else field (Key r) +:+ field (ProviderID r);
  decodeRef s :=
    if decide (s = "{}") then Some (mkRef "" "")
    else match readField s with
         | Some (k, rest) => match readField rest with Some (p, _) => Some (mkRef k p) | None => None end
         | None => None
         end
}.
#[local] Instance toyRefJSON_laws : RefJSONLaws.
Proof.
  split; [|reflexivity]. intros [k p]. unfold encodeRef, decodeRef, toyRefJSON. cbn [Key ProviderID].
  destruct (decide (k = "" /\ p = "")) as [[-> ->]|Hn]; [reflexivity|]. rewrite decide_False by by destruct k.
  by rewrite readField_field, readField_last.
Qed.

#[local] Instance toyBackend : Backend := {
  BackendFor _ := Ok tt; CheckBackend := Ok tt;
  Put key _ := Ok (mkObject (mkRef key "") 10);
  Stat r := Ok (mkObject (mkRef (Key r) "") 10);
  Delete _ := Ok tt;
  sourceDigest _ := Ok (10%Z, "sha");
  manifestFile _ := Ok "/tmp/manifest"
}.
#[local] Instance toyBackend_laws : BackendLaws.
Proof. split; [by intros ? ? ? [= <-]|by intros ? ? [= <-]]. Qed.

Definition uploadingRow : CopyRow := default (queuedCopy "" "" (archiveRow 0) "" 0) (rCopies rdb3 !! "c1").

Example uploads_on_record_witness :
  exists r db', copyArchive "c1" uploadingRow (rdb3, []) = (Ok r, (db', [])) /\
    exists x', rCopies db' = <["c1" := x']> (rCopies rdb3) /\
      (r = Ok tt -> DeleteRemoteObjects (Some davDest) (setStatus RemoteCopySucceeded 40 x') =
         (Ok tt, [manifestRef uploadingRow; archiveRef uploadingRow])).
Proof.
  assert (rCopies rdb3 !! "c1" = Some uploadingRow) as Hx by (vm_compute; reflexivity).
  destruct (uploads_on_record "c1" uploadingRow uploadingRow rdb3 Hx eq_refl) as (r & db' & Hr & H).
  exists r, db'. split; [exact Hr|]. revert H. assert (exists o, archivePut uploadingRow rdb3 = Some o) as [o ->]
    by (eexists; vm_compute; reflexivity). intros (x' & Hx' & Hdel). exists x'. split; [exact Hx'|]. intros ->.
  exact (Hdel RemoteCopySucceeded 40%Z davDest eq_refl eq_refl (fun _ => eq_refl) (fun _ => eq_refl)).
Defined.

(** The copy of that run, deleted, and one of the other archive. *)
Definition uploadedRow : CopyRow :=
  setStatus RemoteCopySucceeded 40
    (default uploadingRow (rCopies (copyArchive "c1" uploadingRow (rdb3, [])).2.1 !! "c1")).
Definition otherRow : CopyRow := default uploadingRow (rCopies rdb3 !! "c2").

Example deletes_own_objects_witness :
  Key (archiveRef uploadingRow) <> objectKey otherRow /\ Key (archiveRef uploadingRow) <> manifestKey otherRow.
Proof.
  assert ((DeleteRemoteObjects (Some davDest) uploadedRow).2 = [manifestRef uploadingRow; archiveRef uploadingRow]) as E
    by (vm_compute; reflexivity).
  refine (proj2 (deletes_own_objects (Some davDest) uploadedRow (archiveRef uploadingRow) _) otherRow _ _ _).
  - rewrite E. right. left.
  - split_and!; apply (bool_decide_unpack _); vm_compute; exact I.
  - split_and!; apply (bool_decide_unpack _); vm_compute; exact I.
  - apply (bool_decide_unpack _); vm_compute; exact I.
Defined.

(** A run that meets no error succeeds. *)
Example copyArchive_succeeds : (copyArchive "c1" uploadingRow (rdb3, [])).1 = Ok (Ok tt).
Proof. vm_compute. reflexivity. Qed.

(** ** Retention *)

Definition keepOne : RetentionCols := mkRetentionCols 2 5 true 1 1 1.
Definition storedCopy (backup : string) (at_ : Time) : CopyRow :=
  setStatus RemoteCopySucceeded 50 (queuedCopy "d1" backup (archiveRow at_) "midgard" 40).
Definition rdb4 : RDB := withCopies (fun _ => {[ "c2" := storedCopy "b2" 2 ]}) rdb0.

Example PrunedOnArrival_agrees_witness :
  exists v m, PrunedOnArrival "i1" keepOne "b1" (archiveRow 1) (rdb4, []) = (Ok v, (rdb4, [])) /\
    markInstanceRetention "i1" keepOne "d1" (withCopies <["c1" := storedCopy "b1" 1]> rdb4, []) =
      (Ok tt, (withCopies (fun _ => m) (withCopies <["c1" := storedCopy "b1" 1]> rdb4), [])) /\
    m !! "c1" = Some (settled v (storedCopy "b1" 1)).
Proof.
  apply (PrunedOnArrival_agrees "i1" keepOne "b1" (archiveRow 1) "d1" davDest rdb4 "midgard" 40); try done.
  - intros newer kv older H. assert (retentionCopies "i1" "d1" rdb4 = [("c2", storedCopy "b2" 2)]) as E by (vm_compute; reflexivity).
    rewrite E in H. destruct newer as [|x newer]; [|by destruct newer]. injection H as <- <-. vm_compute. reflexivity.
  - intros kv [H _]%retentionCopies_elem. destruct kv as [k c]. simpl in H.
    apply lookup_singleton_Some in H as [_ <-]. split; by vm_compute.
Defined.

Example backoff_bounds_witness : (minute <= backoff 5 3 <= hour)%Z.
Proof. refine (proj1 (backoff_bounds 5 3 _)). split; by vm_compute. Defined.

(** ** Pruning *)

Definition keepFew : RetentionCols := mkRetentionCols 1 1 false 1 1 1.
Definition pruneRow : Job := claimedRow (remoteJob KindPrune "j9" "" (storedCopy "" 0)) "p" 999 20.
Definition rdbP : RDB :=
  mkRDB (mkDB {[ "j9" := pruneRow ]} ∅ {[ "i1" := worldInst ]} ∅ ∅ ∅)
    {[ "b1" := archiveRow 1; "b2" := archiveRow 2; "b3" := archiveRow 3 ]} ∅ ∅ {[ ("i1", "b1") ]} {[ "i1" := keepFew ]}.

Lemma rdbP_rows (P : string -> BackupRow -> Prop) : P "b1" (archiveRow 1) -> P "b2" (archiveRow 2) -> P "b3" (archiveRow 3) ->
  forall id b, rBackups rdbP !! id = Some b -> P id b.
Proof.
  intros H1 H2 H3. apply (map_Forall_insert_2 P); [done|]. apply (map_Forall_insert_2 P); [done|].
  by apply (map_Forall_singleton P).
Qed.

(** The newest stays, the oldest is a setup's. *)
Example prune_job_exact_witness :
  exists all db' paths, Run 4 20 (listInstances rdbP) (rdbP, []) = (Ok all, (rdbP, [])) /\
    finishPrune 30 "j9" 100 None all (rdbP, []) = (Ok tt, (db', [])) /\
    runAfter all (db', []) = (Ok paths, (db', [])) /\
    (forall id b, rBackups db' !! id = Some b <-> rBackups rdbP !! id = Some b /\ ~ doomed 20 rdbP id b).
Proof.
  edestruct (prune_job_exact 4 20 30 "j9" pruneRow 100 None rdbP) as (all & db' & paths & H1 & H2 & H3 & H4 & _).
  - intros i. pose proof (archivesOf_length i rdbP) as Hl. assert (size (rBackups rdbP) = 3) as E by (vm_compute; reflexivity). lia.
  - by apply rdbP_rows.
  - apply rdbP_rows; eexists; vm_compute; reflexivity.
  - vm_compute. reflexivity.
  - vm_compute. reflexivity.
  - lia.
  - by exists all, db', paths.
Defined.

Definition sweepP : list (string * list Entry) :=
  match (Run 4 20 (listInstances rdbP) (rdbP, [])).1 with Ok all => all | Err _ => [] end.
Example prune_job_runs :
  map (fun p => (p.1, map eID p.2)) sweepP = [("i1", ["b2"])] /\
  map fst (map_to_list (rBackups (finishPrune 30 "j9" 100 None sweepP (rdbP, [])).2.1)) ≡ₚ ["b1"; "b3"].
Proof. vm_compute. split; [reflexivity|]. first [reflexivity|apply perm_swap]. Qed.

Example ends_spare_archives_witness :
  let db' := (FinishRemoteJob "j9" StatusSucceeded 100 None None None None 30
    (runFinish 30 [("i1", pruneEntry <$> archivesOf "i1" rdbP)]) (rdbP, [])).2.1 in
  rCopies rdbP ⊆ rCopies db'.
Proof.
  exact (proj1 (ends_spare_archives 30 _ rdbP [] "j9" StatusSucceeded 100 None None None None _ (or_introl eq_refl))).
Defined.

(** ** Two interleavings that stop the queue

    A cancel between an upload's last read of its row and the end of its job: the
    row is left waiting with the cancel asked for, and every later turn picks it,
    before any archive queued since, and is refused. *)
Definition rdb5 : RDB := (DispatchRemote "j1" "p" 999 20 (rdb1, [])).2.1.
Definition copyRow5 : CopyRow := default (storedCopy "" 0) (rCopies rdb5 !! "c1").
Definition dropped : RErr := RFailure "Remote destination is unreachable." true.
Definition raceEnd : CopyEnd :=
  match (copyOutcome 30 0 "j1" "c1" copyRow5 false (Err dropped) (rdb5, [])).1 with Ok o => o | Err _ => mkEnd "" "" 0 "" end.
Definition raced : RTx unit :=
  let! _ := CancelRemoteCopy 31 "i1" "c1" "a3" None in
  let! _ := finishUpload 32 "j1" "c1" 10 None raceEnd in
  perform (TQueue "c2" (32 + hour) "i1" "b2" "a2" None).
Definition rdb6 : RDB := (raced (rdb5, [])).2.1.
Definition later : Time := (32 + 2 * hour)%Z.

Example cancel_race_blocks_queue :
  eStatus raceEnd = RemoteCopyRetryWait /\
  (fun c => (cStatus c, cCancel c)) <$> rCopies rdb6 !! "c1" = Some (RemoteCopyRetryWait, true) /\
  due later rdb6 ("c2", default copyRow5 (rCopies rdb6 !! "c2")) = true /\
  (DispatchRemote "j2" "p" later later (rdb6, [])).1 = Ok None /\
  (rCopies (DispatchRemote "j2" "p" later later (rdb6, [])).2.1 !! "c2") = rCopies rdb6 !! "c2".
Proof. split_and!; vm_compute; reflexivity. Qed.

(** A retry while the copy's cleanup runs, which then fails: the waiting copy is
    marked for a cleanup that is refused until it ends, and no upload starts. *)
Definition failedCopy : CopyRow :=
  setCleanup true "" (setObjects "{x}" "{}" (setStatus RemoteCopyFailed 12 (queuedCopy "d1" "b1" (archiveRow 1) "midgard" 10))).
Definition rdb7 : RDB :=
  withCopies (fun _ => {[ "c1" := failedCopy; "c2" := queuedCopy "d1" "b2" (archiveRow 2) "midgard" 11 ]}) rdb0.
Definition cleaning := DispatchRemote "j1" "p" 999 20 (rdb7, []).
Definition rdb8 : RDB := (RetryRemoteCopy 21 "i1" "c1" "a1" None (cleaning.2.1, [])).2.1.
Definition rdb9 : RDB := (finishCleanup 22 "j1" "c1" 10 None (Err dropped) (rdb8, [])).2.1.

Example retry_race_blocks_queue :
  cleaning.1 = Ok (Some (RemoteCopy.Cleanup "c1")) /\
  (fun c => (cStatus c, cCleanup c)) <$> rCopies rdb9 !! "c1" = Some (RemoteCopyPending, true) /\
  due later rdb9 ("c2", default copyRow5 (rCopies rdb9 !! "c2")) = true /\
  (DispatchRemote "j2" "p" later later (rdb9, [])).1 = Ok None /\
  (rCopies (DispatchRemote "j2" "p" later later (rdb9, [])).2.1 !! "c2") = rCopies rdb9 !! "c2".
Proof. split_and!; vm_compute; reflexivity. Qed.
