(* ===== verification/Topic.v ===== *)
(** internal/ws/topic.go and message.go: what a client may name, and what the hub
    sends.  The zero topic of the code is [None] here. *)
From Stdlib Require Import Floats.SpecFloat.
From S2P Require Import Prelude GoBytes Authz Argon Auth Errcode Limiter.

Open Scope Z_scope.

(** ** Topics *)

Inductive Kind : Set := KindConsole | KindStats | KindState | KindJob.
#[export] Instance Kind_eq_dec : EqDecision Kind.
Proof. solve_decision. Defined.
#[export] Instance Kind_countable : Countable Kind.
Proof.
  refine (inj_countable' (fun k => match k with KindConsole => 0 | KindStats => 1 | KindState => 2 | KindJob => 3 end)
    (fun n => if n =? 0 then KindConsole else if n =? 1 then KindStats else if n =? 2 then KindState else KindJob) _).
  by intros [].
Defined.

Inductive Class := Lossy | Lossless.
#[export] Instance Class_eq_dec : EqDecision Class.
Proof. solve_decision. Defined.

Record Topic := mkTopic { kind : Kind; tid : string }.
#[export] Instance Topic_eq_dec : EqDecision Topic.
Proof. solve_decision. Defined.
#[export] Instance Topic_countable : Countable Topic.
Proof. refine (inj_countable' (fun t => (kind t, tid t)) (fun p => mkTopic p.1 p.2) _). by intros []. Defined.

(** [Topic.String]. *)
Definition wire (t : Topic) : string :=
  match kind t with
  | KindConsole => "instance." +:+ tid t +:+ ".console"
  | KindStats => "instance." +:+ tid t +:+ ".stats"
  | KindState => "instance." +:+ tid t +:+ ".state"
  | KindJob => "job." +:+ tid t
  end.

Definition classOf (t : Topic) : Class :=
  match kind t with KindState | KindJob => Lossless | KindConsole | KindStats => Lossy end.

(** [Topic.Action]. *)
Definition actionOf (t : Topic) : Action :=
  match kind t with
  | KindConsole => ConsoleRead
  | KindStats => StatsRead
  | KindState | KindJob => InstanceView
  end.

Definition ConsoleTopic (instanceID : string) : Topic := mkTopic KindConsole instanceID.
Definition StatsTopic (instanceID : string) : Topic := mkTopic KindStats instanceID.
Definition StateTopic (instanceID : string) : Topic := mkTopic KindState instanceID.
Definition JobTopic (jobID : string) : Topic := mkTopic KindJob jobID.

(** Every rune of an accepted id is one byte. *)
Definition validID (s : bytes) : bool :=
  negb (bool_decide (s = [])) && (length s <=? 64)%nat && forallb (fun c => is_alnum c || is_byte "-" c || is_byte "_" c) s.

Definition Parse (s : string) : option Topic :=
  match split "."%char (L s) with
  | [p; id] => if bool_decide (p = L "job") && validID id then Some (JobTopic (S_ id)) else None
  | [p; id; k] =>
      if bool_decide (p = L "instance") && validID id then
        if bool_decide (k = L "console") then Some (ConsoleTopic (S_ id))
        else if bool_decide (k = L "stats") then Some (StatsTopic (S_ id))
        else if bool_decide (k = L "state") then Some (StateTopic (S_ id))
        else None
      else None
  | _ => None
  end.

(** ** Messages *)

(** The payloads of message.go; a message's [type] is its constructor. *)
Inductive Payload :=
| ConsoleMsg (instance : string) (seq : N) (ts : Z) (stream line : string)
| StatsMsg (instance : string) (ts : Z) (cpuPct : option spec_float) (memBytes memLimit : N) (memPct : option spec_float) (players : option Z)
| StateMsg (instance state : string) (restartRequired pendingRestart : bool)
| JoinCodeMsg (instance : string) (code : option string)
| MaintenanceMsg (instance : string)
| ModsMsg (instance : string)
| JobMsg (id kind status : string) (progress : Z) (message log : string)
| SubscribedMsg (topic : string) (seq : N)
| GapMsg (topic : string) (dropped fromSeq : N)
| ResetMsg (topic : string)
| ErrorMsg (topic : string) (c : Code)
| PongMsg.
#[export] Instance Payload_eq_dec : EqDecision Payload.
Proof. solve_decision. Defined.

Record Message := mkMessage { mSeq : N; mPayload : Payload }.
#[export] Instance Message_eq_dec : EqDecision Message.
Proof. solve_decision. Defined.
Definition Reset (t : Topic) : Message := mkMessage 0 (ResetMsg (wire t)).

(** [clientMsg] as decoded. *)
Record ClientMsg := mkClientMsg { mType : string; Topics : list string; mInstance : string; mCSRF : string }.

(** ** Laws *)

Lemma validID_dot s : validID s = true -> "."%char ∉ s.
Proof.
  unfold validID. intros H Hin. apply andb_true_iff in H as [_ H]. rewrite forallb_elem_of in H. by apply H in Hin.
Qed.

(** The wire form of a topic and the topic are one: what parses is exactly the
    printed form of the topic it parses to, a valid id in it, and every topic with a
    valid id parses back; so no wildcard, prefix or other spelling names anything. *)
Theorem Parse_exact s t : Parse s = Some t <-> s = wire t /\ validID (L (tid t)) = true.
Proof.
  assert (forall a b : string, L a = L b -> a = b) as Linj.
  { intros a b E. rewrite <- (String.string_of_list_ascii_of_string a), E. apply String.string_of_list_ascii_of_string. }
  split.
  - unfold Parse. pose proof (join_split "."%char (L s)) as E. destruct (split "."%char (L s)) as [|p [|id [|k []]]]; try done.
    + intros H. case_hyp H; [|done]. apply andb_true_iff in Heqb as [Hp%bool_decide_eq_true Hid]. injection H as <-. subst p.
      cbn [tid JobTopic]. rewrite String.list_ascii_of_string_of_list_ascii. split; [|done]. apply Linj. rewrite <- E. unfold wire. cbn [kind tid JobTopic].
      by rewrite L_append, String.list_ascii_of_string_of_list_ascii.
    + intros H. case_hyp H; [|done]. apply andb_true_iff in Heqb as [Hp%bool_decide_eq_true Hid]. subst p.
      repeat case_bool_decide; try done; injection H as <-; subst k;
        (cbn [tid ConsoleTopic StatsTopic StateTopic]; rewrite String.list_ascii_of_string_of_list_ascii; split; [|done];
         apply Linj; rewrite <- E; unfold wire; cbn [kind tid ConsoleTopic StatsTopic StateTopic];
         rewrite !L_append, String.list_ascii_of_string_of_list_ascii; by rewrite <- ?app_assoc).
  - intros [-> Hid]. pose proof (validID_dot _ Hid) as Hdot. unfold Parse, wire. destruct t as [[] id]; cbn [kind tid] in *;
      rewrite !L_append;
      [change (L "instance.") with (L "instance" ++ "."%char :: []); change (L ".console") with ("."%char :: L "console")
      |change (L "instance.") with (L "instance" ++ "."%char :: []); change (L ".stats") with ("."%char :: L "stats")
      |change (L "instance.") with (L "instance" ++ "."%char :: []); change (L ".state") with ("."%char :: L "state")
      |change (L "job.") with (L "job" ++ "."%char :: [])];
      rewrite <- app_assoc; cbn [app];
      rewrite split_app by (apply (bool_decide_unpack _); vm_compute; exact I);
      [rewrite split_app, split_nosep by (try done; apply (bool_decide_unpack _); vm_compute; exact I)..
      |rewrite split_nosep by done];
      rewrite Hid, !String.string_of_list_ascii_of_string; reflexivity.
Qed.
