(* ===== verification/Ring.v ===== *)
(** internal/instance/logreader.go's ring: an instance's recent console history and
    its pinned start-up segment; and internal/api/ws.go's replay of it. *)
From S2P Require Import Prelude GoBytes Authz Argon Auth Errcode Limiter Topic.

Open Scope Z_scope.

Definition RingLines : Z := 1000.
Definition RingBytes : Z := 2 ^ 20.
Definition StartupLines : Z := 500.
Definition StartupBytes : Z := 256 * 2 ^ 10.

Record Line := mkLine { lTS : Z; lStream : string; lText : string }.
Record Entry := mkEntry { eSeq : N; isReset : bool; eLine : Line }.
#[export] Instance Line_eq_dec : EqDecision Line.
Proof. solve_decision. Defined.
#[export] Instance Entry_eq_dec : EqDecision Entry.
Proof. solve_decision. Defined.
Record Ring := mkRing {
  seq_ : N; recent : list Entry; rBytes : Z; startup : list Entry; sBytes : Z; sealed : bool
}.
Definition emptyRing : Ring := mkRing 0 [] 0 [] 0 false.

Definition size_ (e : Entry) : Z := Z.of_nat (String.length (lText (eLine e))).

(** The loop of [overflow], over what is left of the history and its size. *)
Fixpoint overflowFrom (l : list Entry) (size : Z) : nat :=
  match l with
  | [] => O
  | e :: rest =>
      if bool_decide (rest = []) then O
      else if (RingLines <? Z.of_nat (length l)) || (RingBytes <? size) then S (overflowFrom rest (size - size_ e))
      else O
  end.
Definition overflow (r : Ring) : nat := overflowFrom (recent r) (rBytes r).

Definition total (l : list Entry) : Z := foldr (fun e n => size_ e + n) 0 l.

Definition Append (l : Line) (r : Ring) : Entry * Ring :=
  let e := mkEntry (seq_ r + 1) false l in
  let n := size_ e in
  let recent := recent r ++ [e] in
  let bytes := rBytes r + n in
  let cut := overflow (mkRing 0 recent bytes [] 0 false) in
  let bytes := bytes - total (take cut recent) in
  let recent := drop cut recent in
  (e, if sealed r then mkRing (seq_ r + 1) recent bytes (startup r) (sBytes r) true
      else let startup := startup r ++ [e] in
           let sBytes := sBytes r + n in
           mkRing (seq_ r + 1) recent bytes startup sBytes
             ((StartupLines <=? Z.of_nat (length startup)) || (StartupBytes <=? sBytes))).

Definition Seal (r : Ring) : Ring := mkRing (seq_ r) (recent r) (rBytes r) (startup r) (sBytes r) true.
Definition Arm (r : Ring) : Ring := mkRing (seq_ r) (recent r) (rBytes r) [] 0 false.
Definition Replay (r : Ring) : list Entry * list Entry := (startup r, recent r).
Fixpoint sinceIn (seq : N) (l : list Entry) : list Entry :=
  match l with
  | [] => []
  | e :: l' => if (seq <? eSeq e)%N then l else sinceIn seq l'
  end.
Definition Since (r : Ring) (seq : N) : list Entry := sinceIn seq (recent r).

(** [consoleMessage], and the replay [sockets.console] hands the hub. *)
Definition consoleMessage (instanceID : string) (e : Entry) : Message :=
  mkMessage (eSeq e) (ConsoleMsg instanceID (eSeq e) (lTS (eLine e)) (lStream (eLine e)) (lText (eLine e))).
Fixpoint rising (last : N) (l : list Entry) : list Entry :=
  match l with
  | [] => []
  | e :: l => if (eSeq e <=? last)%N then rising last l else e :: rising (eSeq e) l
  end.
Definition consoleReplay (instanceID : string) (r : Ring) : list Message :=
  let '(startup, recent) := Replay r in consoleMessage instanceID <$> rising 0 (startup ++ recent).
(** What [sockets.console] sends for one live entry. *)
Definition consoleLive (instanceID : string) (e : Entry) : Message :=
  if isReset e then Reset (ConsoleTopic instanceID) else consoleMessage instanceID e.

(** ** Laws *)

(** Entries numbered one by one from after [from]. *)
Fixpoint numbered (from : N) (l : list Entry) : Prop :=
  match l with
  | [] => True
  | e :: l => eSeq e = (from + 1)%N /\ numbered (eSeq e) l
  end.

Lemma numbered_app from l1 l2 : numbered from (l1 ++ l2) <-> numbered from l1 /\ numbered (from + N.of_nat (length l1)) l2.
Proof.
  revert from. induction l1 as [|e l1 IH]; intros from; cbn [app numbered length].
  - rewrite N.add_0_r. tauto.
  - rewrite IH. assert (eSeq e = (from + 1)%N -> (eSeq e + N.of_nat (length l1))%N = (from + N.of_nat (S (length l1)))%N) as E by lia.
    split; [intros (He & H1 & H2)|intros ((He & H1) & H2)]; split_and!; try done; by rewrite E in * by done || rewrite <- E by done.
Qed.
Lemma numbered_seq from l e : numbered from l -> e ∈ l -> (from < eSeq e <= from + N.of_nat (length l))%N.
Proof.
  revert from. induction l as [|x l IH]; intros from; [by intros _ ?%elem_of_nil|]. intros [Hx Hl] [->|He]%elem_of_cons; simpl length.
  - lia.
  - apply (IH _ Hl) in He. lia.
Qed.

Lemma total_app l1 l2 : total (l1 ++ l2) = total l1 + total l2.
Proof. induction l1 as [|e l1 IH]; simpl; [done|]. rewrite IH. lia. Qed.
Lemma total_pos l : 0 <= total l.
Proof. induction l as [|e l IH]; simpl; [done|]. unfold size_. lia. Qed.

Lemma overflow_fits l : let k := overflowFrom l (total l) in
  (l <> [] -> (k < length l)%nat) /\
  ((length (drop k l) <= 1)%nat \/ (Z.of_nat (length (drop k l)) <= RingLines /\ total (drop k l) <= RingBytes)).
Proof.
  cbv zeta. induction l as [|e l IH]; [split; [done|left; cbn; lia]|]. cbn [overflowFrom].
  destruct (bool_decide_reflect (l = [])) as [->|Hne]; [split; [cbn; lia|left; cbn; lia]|].
  destruct (_ || _) eqn:E.
  - assert (total (e :: l) - size_ e = total l) as -> by (unfold total; cbn [foldr]; lia).
    destruct IH as [IH1 IH2]. specialize (IH1 Hne). split; [intros _; cbn [length]; lia|]. exact IH2.
  - apply orb_false_iff in E as [E1%Z.ltb_ge E2%Z.ltb_ge]. split; [cbn; lia|]. right. by rewrite drop_0.
Qed.

(** What holds of a ring. *)
Record ringOK (r : Ring) : Prop := {
  ring_recent : exists from, (from + N.of_nat (length (recent r)))%N = seq_ r /\ numbered from (recent r);
  ring_bytes : rBytes r = total (recent r);
  ring_bound : (length (recent r) <= 1)%nat \/ (Z.of_nat (length (recent r)) <= RingLines /\ total (recent r) <= RingBytes);
  ring_newest : recent r = [] -> seq_ r = 0%N;
  ring_startup : exists from, (from + N.of_nat (length (startup r)) <= seq_ r)%N /\ numbered from (startup r) /\
    (sealed r = false -> (from + N.of_nat (length (startup r)))%N = seq_ r);
  ring_sbytes : sBytes r = total (startup r);
  ring_sealed : Z.of_nat (length (startup r)) <= StartupLines /\
    (sealed r = false -> Z.of_nat (length (startup r)) < StartupLines /\ sBytes r < StartupBytes)
}.

Lemma append_line_ok l r : ringOK r -> ringOK (Append l r).2 /\ last (recent (Append l r).2) = Some (Append l r).1 /\
  eSeq (Append l r).1 = seq_ (Append l r).2.
Proof.
  intros [(from & Hf & Hn) Hb _ _ (sf & Hs & Hsn & Hso) Hsb Hse]. unfold Append. set (e := mkEntry (seq_ r + 1) false l). set (l' := recent r ++ [e]).
  assert (rBytes r + size_ e = total l') as Ht by (subst l'; rewrite total_app, Hb; unfold total; cbn [foldr]; lia). rewrite Ht.
  unfold overflow. cbn [recent rBytes]. destruct (overflow_fits l') as [Hk Hfit]. set (k := overflowFrom l' (total l')) in *.
  specialize (Hk ltac:(by destruct (recent r))).
  assert (total l' - total (take k l') = total (drop k l')) as Ht2 by (rewrite <- (take_drop k l') at 1; rewrite total_app; lia). rewrite Ht2.
  assert (numbered from l') as Hn' by (subst l'; apply numbered_app; split; [done|]; cbn; split; [lia|done]).
  assert (length l' = S (length (recent r))) as Hlen by (subst l'; rewrite length_app; simpl; lia).
  assert (numbered (from + N.of_nat k) (drop k l')) as Hdn.
  { rewrite <- (take_drop k l') in Hn'. apply numbered_app in Hn' as [_ Hn']. by rewrite length_take, Nat.min_l in Hn' by lia. }
  assert ((from + N.of_nat k + N.of_nat (length (drop k l')))%N = (seq_ r + 1)%N) as Hend by (rewrite length_drop; lia).
  assert (last (drop k l') = Some e) as Hlast.
  { subst l'. rewrite drop_app_le by (rewrite Hlen in Hk; lia). apply last_snoc. }
  assert (drop k l' <> []) as Hne by (intros E0; rewrite E0 in Hlast; done).
  assert ((forall su sb se, (exists f, (f + N.of_nat (length su) <= seq_ r + 1)%N /\ numbered f su /\
      (se = false -> (f + N.of_nat (length su))%N = (seq_ r + 1)%N)) -> sb = total su ->
    Z.of_nat (length su) <= StartupLines /\ (se = false -> Z.of_nat (length su) < StartupLines /\ sb < StartupBytes) ->
    ringOK (mkRing (seq_ r + 1) (drop k l') (total (drop k l')) su sb se))) as Hok.
  { intros su sb se H1 H2 H3. split; cbn [recent seq_ rBytes startup sBytes sealed]; [|done..]. by eexists. }
  destruct (sealed r) eqn:Es; cbn [fst snd recent seq_]; (split; [apply Hok|done]).
  - exists sf. split_and!; [lia|done|done].
  - done.
  - split; [apply Hse|done].
  - exists sf. rewrite length_app. cbn [length]. specialize (Hso eq_refl). split_and!; [lia| |intros _; lia].
    apply numbered_app. split; [done|]. cbn. split; [lia|done].
  - rewrite total_app, Hsb. unfold total; cbn [foldr]. lia.
  - rewrite length_app. cbn [length]. destruct Hse as [_ Hse]. specialize (Hse eq_refl). split; [lia|]. intros [E1%Z.leb_gt E2%Z.leb_gt]%orb_false_iff.
    rewrite ?length_app in E1. cbn [length] in E1. split; [lia|done].
Qed.

Inductive RingOp := OAppend (l : Line) | OSeal | OArm.
Definition ringDo (op : RingOp) (r : Ring) : Ring :=
  match op with OAppend l => (Append l r).2 | OSeal => Seal r | OArm => Arm r end.

Lemma ringDo_ok op r : ringOK r -> ringOK (ringDo op r).
Proof.
  intros H. destruct op; cbn [ringDo]; [by apply append_line_ok|..]; destruct H as [H1 H2 H3 H4 (sf & H5 & H6 & H7) H8 H9]; split; cbn; try done.
  - exists sf. split_and!; try done.
  - split; [apply H9|done].
  - exists (seq_ r). split_and!; [lia|done|intros _; lia].
Qed.
Lemma emptyRing_ok : ringOK emptyRing.
Proof. split; cbn; try done; [exists 0%N; by split|left; lia|exists 0%N; split_and!; [lia|done|done]]. Qed.
Lemma ring_ok ops : ringOK (foldl (fun r op => ringDo op r) emptyRing ops).
Proof. induction ops as [|op ops IH] using rev_ind; [apply emptyRing_ok|]. rewrite foldl_app. by apply ringDo_ok. Qed.

Definition lastSeq (l : list Entry) : N := default 0%N (eSeq <$> last l).

Lemma lastSeq_cons e l : lastSeq (e :: l) = match l with [] => eSeq e | _ => lastSeq l end.
Proof. by destruct l. Qed.
Lemma numbered_last from l : numbered from l -> l <> [] -> lastSeq l = (from + N.of_nat (length l))%N.
Proof.
  revert from. induction l as [|e l IH]; intros from; [done|]. intros [He Hl] _. rewrite lastSeq_cons. cbn [length].
  destruct l as [|e' l]; [cbn; lia|]. rewrite (IH _ Hl) by done. lia.
Qed.

Lemma rising_filter last from l : numbered from l -> rising last l = filter (fun e => (last < eSeq e)%N) l.
Proof.
  revert last from. induction l as [|e l IH]; intros last from; [done|]. intros [He Hn]. cbn [rising].
  destruct (eSeq e <=? last)%N eqn:E.
  - apply N.leb_le in E. rewrite filter_cons_False by lia. by eapply IH.
  - apply N.leb_gt in E. rewrite filter_cons_True by done. f_equal. rewrite (IH _ _ Hn).
    apply filter_iff_in. intros x Hx. apply (numbered_seq _ _ _ Hn) in Hx. lia.
Qed.
Lemma rising_app last from l1 l2 : numbered from l1 -> (last <= from)%N ->
  rising last (l1 ++ l2) = l1 ++ rising (match l1 with [] => last | _ => lastSeq l1 end) l2.
Proof.
  revert last from. induction l1 as [|e l1 IH]; intros last from; [done|]. intros [He Hn] Hle. cbn [rising app].
  rewrite (proj2 (N.leb_gt _ _)) by lia. rewrite (IH _ _ Hn) by lia. rewrite lastSeq_cons. by destruct l1.
Qed.

Lemma numbered_sorted from l : numbered from l -> StronglySorted (fun a b => (eSeq a < eSeq b)%N) l.
Proof.
  revert from. induction l as [|e l IH]; intros from; [constructor|]. intros [He Hn]. constructor; [by eapply IH|].
  apply Forall_forall. intros x Hx. apply (numbered_seq _ _ _ Hn) in Hx. lia.
Qed.

Lemma sorted_filter {A} (R : relation A) (P : A -> Prop) `{forall x, Decision (P x)} l : StronglySorted R l -> StronglySorted R (filter P l).
Proof.
  induction 1 as [|x l Hl IH Hx]; [constructor|]. rewrite filter_cons. destruct (decide (P x)); [|done]. constructor; [done|].
  rewrite Forall_forall in Hx |- *. intros y [_ Hy]%list_elem_of_filter. by apply Hx.
Qed.

