(* ===== verification/Hub.v ===== *)
(** internal/ws/hub.go, conn.go and subscribe.go: the hub, its connections and their
    goroutines.

    A goroutine is the list of what it has still to do; an instruction is what the
    code does between two points where another goroutine can come in (a critical
    section of a mutex, one operation on a channel, one read of the database), and
    [exec] says what it does, what it puts in its own place and what it starts.  It
    is [None] where the goroutine waits.  What an instruction is told from outside
    comes in [Input]: the clock, whether the read or the write fails, which ready
    case a [select] takes, the client's next message, the replay of a source. *)
From S2P Require Import Prelude GoBytes Authz Argon Auth Errcode Limiter Topic.

Open Scope Z_scope.

(** ** Limits *)

Definition maxTopics : nat := 64.
Definition maxConnectionsPerSession : nat := 8.
Definition maxConnectionsPerUser : nat := 32.
Definition queueDepth : nat := 256.
Definition stuckTimeout : Z := 30 * second_.

(** websocket close codes. *)
Definition StatusNormalClosure : Z := 1000.
Definition StatusGoingAway : Z := 1001.
Definition StatusPolicyViolation : Z := 1008.
Definition StatusInternalError : Z := 1011.
Definition statusSessionExpired : Z := 4401.

(** ** State *)

(** A queued frame: one message, or a whole replay. *)
Inductive Outbound :=
| One (topic : option Topic) (seq : N) (payload : Payload)
| Whole (topic : Topic) (replay : list Message).

#[export] Instance Outbound_eq_dec : EqDecision Outbound.
Proof. solve_decision. Defined.

(** [subscription], with the connection its source's callback sends to; the lock is
    held by whoever is inside it. *)
Record Sub := mkSub {
  sConn : nat; sTopic : Topic; sInstance : string; sLocked : bool; sCancel : bool; sDropped : bool; sReplayed : N; sNextSeq : N
}.

(** [conn], with the writer's own [last] and what it has written. *)
Record Conn := mkConn {
  cUser : User; cSession : string; connectedAt : Z;
  lossy : list Outbound; lossless : list Outbound; closedWith : option Z;
  subs : gmap Topic nat; grantGen : N; stuckSince : option Z; csrfDone : bool;
  lastSeen : gmap Topic N; written : list Payload; loops : nat; stopped : bool
}.
Definition newConn (u : User) (session : string) (now : Z) (csrf : bool) : Conn :=
  mkConn u session now [] [] None ∅ 0 None csrf ∅ [] 0 false.

Definition withQueues (f g : list Outbound -> list Outbound) (c : Conn) : Conn :=
  mkConn (cUser c) (cSession c) (connectedAt c) (f (lossy c)) (g (lossless c)) (closedWith c) (subs c) (grantGen c) (stuckSince c) (csrfDone c)
    (lastSeen c) (written c) (loops c) (stopped c).
Definition closeConn (code : Z) (c : Conn) : Conn :=
  mkConn (cUser c) (cSession c) (connectedAt c) (lossy c) (lossless c) (match closedWith c with Some x => Some x | None => Some code end)
    (subs c) (grantGen c) (stuckSince c) (csrfDone c) (lastSeen c) (written c) (loops c) (stopped c).
Definition withSubs (f : gmap Topic nat -> gmap Topic nat) (gen : N) (c : Conn) : Conn :=
  mkConn (cUser c) (cSession c) (connectedAt c) (lossy c) (lossless c) (closedWith c) (f (subs c)) gen (stuckSince c) (csrfDone c)
    (lastSeen c) (written c) (loops c) (stopped c).
Definition withStuck (s : option Z) (c : Conn) : Conn :=
  mkConn (cUser c) (cSession c) (connectedAt c) (lossy c) (lossless c) (closedWith c) (subs c) (grantGen c) s (csrfDone c)
    (lastSeen c) (written c) (loops c) (stopped c).
Definition withCSRF (c : Conn) : Conn :=
  mkConn (cUser c) (cSession c) (connectedAt c) (lossy c) (lossless c) (closedWith c) (subs c) (grantGen c) (stuckSince c) true
    (lastSeen c) (written c) (loops c) (stopped c).
Definition withWriter (last : gmap Topic N) (out : list Payload) (c : Conn) : Conn :=
  mkConn (cUser c) (cSession c) (connectedAt c) (lossy c) (lossless c) (closedWith c) (subs c) (grantGen c) (stuckSince c) (csrfDone c)
    last (written c ++ out) (loops c) (stopped c).
Definition withLoops (n : nat) (stop : bool) (c : Conn) : Conn :=
  mkConn (cUser c) (cSession c) (connectedAt c) (lossy c) (lossless c) (closedWith c) (subs c) (grantGen c) (stuckSince c) (csrfDone c)
    (lastSeen c) (written c) n stop.

(** What is left to do. *)
Inductive Instr :=
(* ServeHTTP and serve *)
| IAdd (u : User) (session : string) (now : Z) (csrf : bool) | IExpiry (c : nat) | ILoops (c : nat) | IRead (c : nat)
| IClose (c : nat) (code : Z) | IWait (c : nat) | IStop (c : nat) | IUnsubscribeAll (c : nat) | IRemove (c : nat) | ITimer (c : nat) (until : Z)
(* the client's messages *)
| ITopics (c : nat) (on : bool) (raws : list string) | ISubscribe (c : nat) (raw : string) | IGen (c : nat) (t : Topic) (raw : string)
| IExists (c : nat) (t : Topic) (raw : string) (gen : N) | ICan (c : nat) (t : Topic) (raw : string) (gen : N) (instance : string)
| IRegister (c : nat) (t : Topic) (raw : string) (gen : N) (instance : string)
| IExistsAgain (c : nat) (t : Topic) (raw : string) (sid : nat) | ICanAgain (c : nat) (t : Topic) (raw : string) (sid : nat) (instance : string)
| IOpen (c : nat) (t : Topic) (sid : nat) | IAck (c : nat) (t : Topic) (sid : nat) (replay : list Message)
| IReplay (c : nat) (t : Topic) (replay : list Message) | IUnlock (sid : nat)
| IUnsubscribe (c : nat) (raw : string) | IDrop (c : nat) (t : Topic) (why : option (string * Code)) | IEnd (sid : nat)
| ICommand (c : nat) (instance : string) | ISend (c : nat) (p : Payload)
(* the queues *)
| ILossless (c : nat) (ob : Outbound) | ILossy (c : nat) (ob : Outbound) | IUnstick (c : nat)
| IStuck (c : nat) (ob : Outbound) | IDropOldest (c : nat) (ob : Outbound) | ISecond (c : nat) (ob : Outbound)
(* the writer and the pings *)
| IOuter (c : nat) | IInner (c : nat) | IFrame (c : nat) (ob : Outbound) | IWrite (c : nat) (t : option Topic) (l : list (N * Payload)) | ILoopEnd (c : nat)
| IPing (c : nat)
(* the sources and the hub's callers *)
| ILive (c sid : nat) (m : Message)
| IPublish (t : Topic) (m : Message) | IDeliver (c : nat) (t : Topic) (m : Message)
| IGrantChanged (user instance : string) | IRecheck (c : nat) (instance : string) | IRecheckOne (c : nat) (t : Topic) (instance : string)
| IInstanceDeleted (instance : string) | IDropInstance (c : nat) (instance : string)
| ISessionRevoked (session : string) | IUserRevoked (user : string) | IHubClose | ICloseAll.
#[export] Instance User_eq_dec : EqDecision User.
Proof. solve_decision. Defined.
#[export] Instance Instr_eq_dec : EqDecision Instr.
Proof. solve_decision. Defined.
Abbreviation Thread := (list Instr).

(** The hub, the connections and subscriptions there have been, the goroutines, and
    the rows the hub reads: live grants, instances (and those deleted), the jobs'
    instances, the sessions with their expiry. *)
Record Hub := mkHub {
  conns : gmap nat Conn; registered : gset nat; closed : bool; churn : Limiter; objects : gmap nat Sub;
  threads : list Thread;
  grants : gmap (string * string) Grant; instances : gset string; gone : gset string; jobs : gmap string string;
  sessions : gmap string Z
}.
Definition withConns (f : gmap nat Conn -> gmap nat Conn) (h : Hub) : Hub :=
  mkHub (f (conns h)) (registered h) (closed h) (churn h) (objects h) (threads h) (grants h) (instances h) (gone h) (jobs h) (sessions h).
Definition withRegistered (f : gset nat -> gset nat) (h : Hub) : Hub :=
  mkHub (conns h) (f (registered h)) (closed h) (churn h) (objects h) (threads h) (grants h) (instances h) (gone h) (jobs h) (sessions h).
Definition withChurn (l : Limiter) (h : Hub) : Hub :=
  mkHub (conns h) (registered h) (closed h) l (objects h) (threads h) (grants h) (instances h) (gone h) (jobs h) (sessions h).
Definition withObjects (f : gmap nat Sub -> gmap nat Sub) (h : Hub) : Hub :=
  mkHub (conns h) (registered h) (closed h) (churn h) (f (objects h)) (threads h) (grants h) (instances h) (gone h) (jobs h) (sessions h).
Definition withThreads (f : list Thread -> list Thread) (h : Hub) : Hub :=
  mkHub (conns h) (registered h) (closed h) (churn h) (objects h) (f (threads h)) (grants h) (instances h) (gone h) (jobs h) (sessions h).
Definition closeHub (h : Hub) : Hub :=
  mkHub (conns h) (registered h) true (churn h) (objects h) (threads h) (grants h) (instances h) (gone h) (jobs h) (sessions h).

Inductive ReadResult := ReadError | NotText | NotJSON | ClientSent (m : ClientMsg).
Record Input := mkInput { now : Z; fault : bool; pick : nat; got : ReadResult; replayed : list Message }.

(** ** What the hub asks *)

(** The grants table, whose read may fail. *)
Definition table (fault : bool) (h : Hub) : Grants := {|
  GrantFor u i := if fault then None else Some (grants h !! (u, i));
  GrantedInstances u := None
|}.
(** [Authorizer.Can], which authz implements. *)
Definition can (fault : bool) (h : Hub) (u : User) (act : Action) (instanceID : string) : bool :=
  @Can (table fault h) (Some u) act instanceID.
(** [InstanceExists] or [JobInstance]: the instance a topic hangs on; an error is not found. *)
Definition resolve (fault : bool) (h : Hub) (t : Topic) : option string :=
  if fault then None
  else match kind t with
       | KindJob => jobs h !! tid t
       | _ => if bool_decide (tid t ∈ instances h) then Some (tid t) else None
       end.
(** [source]. *)
Definition hasSource (t : Topic) : bool := negb (bool_decide (kind t = KindState)).

(** [tally]: how many, and the oldest of them. *)
Definition older (h : Hub) (best : option nat) (c : nat) : option nat :=
  match best with
  | None => Some c
  | Some b => if default 0 (connectedAt <$> conns h !! c) <? default 0 (connectedAt <$> conns h !! b) then Some c else Some b
  end.
Definition oldest (h : Hub) (l : list nat) : option nat := fold_left (older h) l None.

(** ** What is sent *)

Definition obTopic (ob : Outbound) : option Topic := match ob with One t _ _ => t | Whole t _ => Some t end.
Definition sendError (c : nat) (topic : string) (code : Code) : Instr := ISend c (ErrorMsg topic code).

(** [push]. *)
Definition push (c : nat) (t : Topic) (seq : N) (p : Payload) : Instr :=
  match classOf t with Lossless => ILossless c (One (Some t) seq p) | Lossy => ILossy c (One (Some t) seq p) end.

(** [gapBefore]. *)
Definition MaxInt32 : N := 2147483647.
Definition gapBefore (last : gmap Topic N) (t : Topic) (seq : N) : option Payload * gmap Topic N :=
  if (seq =? 0)%N then (None, last)
  else let last' := <[t := seq]> last in
       match last !! t with
       | None => (None, last')
       | Some seen => if (seq <=? seen + 1)%N then (None, last')
                      else (Some (GapMsg (wire t) (N.min (seq - seen - 1) MaxInt32) (seen + 1)), last')
       end.

Section Hub.
Context (range : gmap string bucket -> list (string * bucket)) (order : gset nat -> list nat).
Context (Origin_ : string) (csrfOK : string -> string -> bool) (watch : bool).
(** Whose a session is, for as long as there are sessions. *)
Context (owner : string -> string).

(** The connections in the order a range over them has. *)
Definition snapshot (h : Hub) : list nat := order (registered h).
Definition whoseUser (h : Hub) (u : string) : list nat :=
  filter (fun c => (userID ∘ cUser <$> conns h !! c) = Some u) (snapshot h).
Definition whoseSession (h : Hub) (s : string) : list nat :=
  filter (fun c => (cSession <$> conns h !! c) = Some s) (snapshot h).

Definition Out : Type := option (list Instr * list Thread * Hub).
Definition on (h : Hub) (c : nat) (k : Conn -> Out) : Out := match conns h !! c with Some x => k x | None => None end.
Definition continue (l : list Instr) (h : Hub) : Out := Some (l, [], h).
Definition setConn (c : nat) (x : Conn) (h : Hub) : Hub := withConns <[c := x]> h.
Definition setSub (sid : nat) (s : Sub) (h : Hub) : Hub := withObjects <[sid := s]> h.
Definition open_ (x : Conn) : bool := bool_decide (closedWith x = None).
Definition room (l : list Outbound) : bool := (length l <? queueDepth)%nat.

(** The case a [select] without default takes among the ready ones. *)
Definition select (n : nat) (cases : list (bool * Out)) : Out :=
  match filter (fun x => x.1 = true) cases with
  | [] => None
  | ready => default None (snd <$> ready !! (n `mod` length ready)%nat)
  end.

(** [serve], after [add]. *)
Definition serve (c : nat) : list Instr :=
  (if watch then [IExpiry c] else []) ++
  [ILoops c; IRead c; IClose c StatusNormalClosure; IWait c; IStop c; IUnsubscribeAll c; IRemove c].

Definition lock (b : bool) (s : Sub) : Sub := mkSub (sConn s) (sTopic s) (sInstance s) b (sCancel s) (sDropped s) (sReplayed s) (sNextSeq s).

(** [add], on the connection [newConn] made, which nobody else sees before it is
    registered. *)
Definition add (u : User) (session : string) (at_ : Z) (csrf : bool) (h : Hub) : Out :=
  let c := fresh (dom (conns h)) in
  let x := newConn u session at_ csrf in
  if closed h then continue (serve c) (setConn c (closeConn StatusGoingAway x) h)
  else
    let h := setConn c x h in
    let h := withRegistered (fun r => {[c]} ∪ r) h in
    let account := whoseUser h (userID u) in
    let session := filter (fun c => c ∈ whoseSession h session) account in
    let victim := if (maxConnectionsPerSession <? length session)%nat then oldest h session
                  else if (maxConnectionsPerUser <? length account)%nat then oldest h account
                  else None in
    continue (match victim with Some v => [IClose v StatusPolicyViolation] | None => [] end ++ serve c) h.

(** [dispatch], and the reading around it. *)
Definition dispatch (c : nat) (m : ClientMsg) : list Instr :=
  if bool_decide (mType m = "subscribe") then [ITopics c true (Topics m)]
  else if bool_decide (mType m = "unsubscribe") then [ITopics c false (Topics m)]
  else if bool_decide (mType m = "ping") then [ISend c PongMsg; IRead c]
  else if bool_decide (mType m = "console.command") then [ICommand c (mInstance m); IRead c]
  else [sendError c "" InvalidParameter; IRead c].
Definition readLoop (c : nat) (inp : Input) (h : Hub) : Out :=
  match got inp with
  | ReadError => continue [] h
  | NotText => continue [IRead c] h
  | NotJSON => continue [sendError c "" MalformedJSON; IRead c] h
  | ClientSent m =>
      on h c (fun x =>
        if csrfDone x then continue (dispatch c m) h
        else if csrfOK (cSession x) (mCSRF m) then continue (dispatch c m) (setConn c (withCSRF x) h)
        else continue [IClose c StatusPolicyViolation] h)
  end.

(** [watchExpiry]'s check. *)
Definition expiryCheck (c : nat) (inp : Input) (h : Hub) : Out :=
  on h c (fun x =>
    if fault inp then continue [IClose c statusSessionExpired] h
    else match sessions h !! cSession x with
         | None => continue [IClose c statusSessionExpired] h
         | Some until => if until <=? now inp then continue [IClose c statusSessionExpired] h
                              else Some ([], [[ITimer c until]], h)
         end).

(** [subscribe], from the topic's parsing to its registration. *)
Definition subscribe (c : nat) (raw : string) (h : Hub) : Out :=
  match Parse raw with
  | None => continue [sendError c raw InvalidParameter] h
  | Some t => on h c (fun x =>
      if bool_decide (is_Some (subs x !! t)) then continue [] h
      else if (maxTopics <=? size (subs x))%nat then continue [sendError c raw RateLimited] h
      else continue [IGen c t raw] h)
  end.
Definition register (c : nat) (t : Topic) (gen : N) (raw instance : string) (h : Hub) : Out :=
  on h c (fun x =>
    if bool_decide (is_Some (subs x !! t)) then continue [] h
    else
      let sid := fresh (dom (objects h)) in
      let h := setSub sid (mkSub c t instance false false false 0 0) (setConn c (withSubs <[t := sid]> (grantGen x) x) h) in
      if negb (bool_decide (grantGen x = gen)) then continue [IExistsAgain c t raw sid] h
      else continue [IOpen c t sid] h).
(** The source's opening, under the subscription's lock. *)
Definition openSource (c : nat) (t : Topic) (sid : nat) (inp : Input) (h : Hub) : Out :=
  match objects h !! sid with
  | None => None
  | Some s =>
      if sLocked s then None
      else
        let replay := if hasSource t then replayed inp else [] in
        if sDropped s then continue [] (setSub sid (mkSub (sConn s) (sTopic s) (sInstance s) false false true (sReplayed s) (sNextSeq s)) h)
        else continue [IAck c t sid replay]
               (setSub sid (mkSub (sConn s) (sTopic s) (sInstance s) true (hasSource t) false
                              (match last replay with Some m => mSeq m | None => sReplayed s end) (sNextSeq s)) h)
  end.
(** [pushLossless], and what follows it. *)
Definition pushLossless (c : nat) (ob : Outbound) (pushed gaveUp : list Instr) (inp : Input) (h : Hub) : Out :=
  on h c (fun x =>
    let yes := continue pushed (setConn c (withQueues id (fun l => l ++ [ob]) x) h) in
    let no := continue gaveUp h in
    if room (lossless x) || negb (open_ x) then select (pick inp) [(room (lossless x), yes); (negb (open_ x), no)]
    else continue (IClose c StatusInternalError :: gaveUp) h).

(** [sendLive]: the live message, pushed under the lock. *)
Definition sendLive (c sid : nat) (m : Message) (h : Hub) : Out :=
  match objects h !! sid with
  | None => None
  | Some s =>
      if sLocked s then None
      else if sDropped s || (negb (mSeq m =? 0)%N && (mSeq m <=? sReplayed s)%N) then continue [] h
      else
        let number := (mSeq m =? 0)%N && bool_decide (classOf (sTopic s) = Lossy) in
        let next := if number then (sNextSeq s + 1)%N else sNextSeq s in
        continue [push c (sTopic s) (if number then next else mSeq m) (mPayload m); IUnlock sid]
          (setSub sid (mkSub (sConn s) (sTopic s) (sInstance s) true (sCancel s) false (sReplayed s) next) h)
  end.

(** [push] on a lossy topic, one channel operation at a time. *)
Definition pushLossy (c : nat) (ob : Outbound) (inp : Input) (h : Hub) : Out :=
  on h c (fun x =>
    if room (lossy x) || negb (open_ x)
    then select (pick inp)
           [(room (lossy x), continue [IUnstick c] (setConn c (withQueues (fun l => l ++ [ob]) id x) h)); (negb (open_ x), continue [] h)]
    else continue [IStuck c ob] h).
Definition stuckTooLong (c : nat) (ob : Outbound) (inp : Input) (h : Hub) : Out :=
  on h c (fun x =>
    match stuckSince x with
    | None => continue [IDropOldest c ob] (setConn c (withStuck (Some (now inp)) x) h)
    | Some since => if stuckTimeout <? now inp - since then continue [IClose c StatusInternalError] h else continue [IDropOldest c ob] h
    end).

(** [writeLoop]'s two selects. *)
Definition outer (c : nat) (h : Hub) : Out :=
  on h c (fun x => match lossless x with
                   | ob :: _ => continue [IFrame c ob] (setConn c (withQueues id tail x) h)
                   | [] => continue [IInner c] h
                   end).
Definition inner (c : nat) (inp : Input) (h : Hub) : Out :=
  on h c (fun x => select (pick inp)
    [(negb (bool_decide (lossless x = [])),
      match lossless x with ob :: _ => continue [IFrame c ob] (setConn c (withQueues id tail x) h) | [] => None end);
     (negb (bool_decide (lossy x = [])),
      match lossy x with ob :: _ => continue [IFrame c ob] (setConn c (withQueues tail id x) h) | [] => None end);
     (negb (open_ x), continue [ILoopEnd c] h)]).
(** [writeFrame]; a replay's messages are numbered as they are written. *)
Definition writeFrame (c : nat) (ob : Outbound) (h : Hub) : Out :=
  on h c (fun x =>
    if match obTopic ob with
       | Some t => bool_decide (classOf t = Lossy) && negb (bool_decide (is_Some (subs x !! t)))
       | None => false
       end then continue [IOuter c] h
    else match ob with
         | Whole t l => continue [IWrite c (Some t) ((fun m => (mSeq m, mPayload m)) <$> l)] h
         | One None _ p => continue [IWrite c None [(0%N, p)]] h
         | One (Some t) seq p =>
             let '(gap, last) := gapBefore (lastSeen x) t seq in
             continue [IWrite c None ((match gap with Some g => [(0%N, g)] | None => [] end) ++ [(0%N, p)])] (setConn c (withWriter last [] x) h)
         end).
Definition write (c : nat) (t : option Topic) (l : list (N * Payload)) (inp : Input) (h : Hub) : Out :=
  on h c (fun x =>
    match l with
    | [] => continue [IOuter c] h
    | (seq, p) :: l =>
        let last := match t with Some t => if (seq =? 0)%N then lastSeen x else <[t := seq]> (lastSeen x) | None => lastSeen x end in
        if fault inp then continue [ILoopEnd c] (setConn c (closeConn StatusInternalError (withWriter last [] x)) h)
        else continue [IWrite c t l] (setConn c (withWriter last [p] x) h)
    end).

(** The topics of a connection hanging on one instance. *)
Definition hangingOn (h : Hub) (instance : string) (x : Conn) : list Topic :=
  (map_to_list (subs x)).*1 ≫= (fun t => match subs x !! t with
    | Some sid => if bool_decide ((sInstance <$> objects h !! sid) = Some instance) then [t] else []
    | None => []
    end).

Definition exec (i : Instr) (inp : Input) (h : Hub) : Out :=
  match i with
  | IAdd u session at_ csrf => add u session at_ csrf h
  | IExpiry c => expiryCheck c inp h
  | ITimer c until => on h c (fun x => if stopped x then continue [] h
                                       else if until <=? now inp then continue [IExpiry c] h else None)
  | ILoops c => on h c (fun x => Some ([], [[IOuter c]; [IPing c]], setConn c (withLoops 2 (stopped x) x) h))
  | IRead c => readLoop c inp h
  | IClose c code => on h c (fun x => continue [] (setConn c (closeConn code x) h))
  | IWait c => on h c (fun x => if (loops x =? 0)%nat then continue [] h else None)
  | IStop c => on h c (fun x => continue [] (setConn c (withLoops (loops x) true x) h))
  | IUnsubscribeAll c => on h c (fun x =>
      continue (IEnd <$> (map_to_list (subs x)).*2) (setConn c (withSubs (fun _ => ∅) (grantGen x) x) h))
  | IRemove c => continue [] (withRegistered (fun r => r ∖ {[c]}) h)
  | ITopics c on_ raws =>
      match raws with
      | [] => continue [IRead c] h
      | raw :: raws => on h c (fun x =>
          let '((ok, _), l) := Allow range (now inp) (cSession x) (churn h) in
          continue (if ok then [if on_ then ISubscribe c raw else IUnsubscribe c raw; ITopics c on_ raws]
                    else [sendError c raw RateLimited; IRead c]) (withChurn l h))
      end
  | ISubscribe c raw => subscribe c raw h
  | IGen c t raw => on h c (fun x => continue [IExists c t raw (grantGen x)] h)
  | IExists c t raw gen => match resolve (fault inp) h t with
                           | None => continue [sendError c raw NotFound] h
                           | Some instance => continue [ICan c t raw gen instance] h
                           end
  | ICan c t raw gen instance => on h c (fun x =>
      if can (fault inp) h (cUser x) (actionOf t) instance then continue [IRegister c t raw gen instance] h
      else continue [sendError c raw NotFound] h)
  | IRegister c t raw gen instance => register c t gen raw instance h
  | IExistsAgain c t raw sid => match resolve (fault inp) h t with
                                | None => continue [IDrop c t (Some (raw, NotFound))] h
                                | Some instance => continue [ICanAgain c t raw sid instance] h
                                end
  | ICanAgain c t raw sid instance => on h c (fun x =>
      if can (fault inp) h (cUser x) (actionOf t) instance then continue [IOpen c t sid] h
      else continue [IDrop c t (Some (raw, NotFound))] h)
  | IOpen c t sid => openSource c t sid inp h
  | IAck c t sid replay =>
      pushLossless c (One (Some t) 0 (SubscribedMsg (wire t) (default 0%N (sReplayed <$> objects h !! sid))))
        ((match replay with [] => [] | _ => [IReplay c t replay] end) ++ [IUnlock sid]) [IUnlock sid] inp h
  | IReplay c t replay => pushLossless c (Whole t replay) [] [] inp h
  | IUnlock sid => match objects h !! sid with Some s => continue [] (setSub sid (lock false s) h) | None => None end
  | IUnsubscribe c raw => match Parse raw with
                          | None => continue [sendError c raw InvalidParameter] h
                          | Some t => continue [IDrop c t None] h
                          end
  | IDrop c t why => on h c (fun x =>
      match subs x !! t with
      | None => continue [] h
      | Some sid => continue (IEnd sid :: match why with Some (topic, code) => [sendError c topic code] | None => [] end)
                      (setConn c (withSubs (delete t) (grantGen x) x) h)
      end)
  | IEnd sid => match objects h !! sid with
                | Some s => if sLocked s then None
                            else continue [] (setSub sid (mkSub (sConn s) (sTopic s) (sInstance s) false false true (sReplayed s) (sNextSeq s)) h)
                | None => None
                end
  | ICommand c instance => on h c (fun x =>
      continue [sendError c "" (if bool_decide (instance = "") || negb (can (fault inp) h (cUser x) CommandsSend instance)
                                then NotFound else Unsupported)] h)
  | ISend c p => on h c (fun x => select (pick inp)
      [(room (lossless x), continue [] (setConn c (withQueues id (fun l => l ++ [One None 0 p]) x) h)); (negb (open_ x), continue [] h)])
  | ILossless c ob => pushLossless c ob [] [] inp h
  | ILossy c ob => pushLossy c ob inp h
  | IUnstick c => on h c (fun x => continue [] (setConn c (withStuck None x) h))
  | IStuck c ob => stuckTooLong c ob inp h
  | IDropOldest c ob => on h c (fun x => continue [ISecond c ob] (setConn c (withQueues tail id x) h))
  | ISecond c ob => on h c (fun x => continue [] (if room (lossy x) then setConn c (withQueues (fun l => l ++ [ob]) id x) h else h))
  | IOuter c => outer c h
  | IInner c => inner c inp h
  | IFrame c ob => writeFrame c ob h
  | IWrite c t l => write c t l inp h
  | ILoopEnd c => on h c (fun x => continue [] (setConn c (withLoops (pred (loops x)) (stopped x) x) h))
  | IPing c => on h c (fun x => if negb (open_ x) then continue [ILoopEnd c] h
                                else if fault inp then continue [IClose c StatusGoingAway; ILoopEnd c] h else continue [IPing c] h)
  | ILive c sid m => sendLive c sid m h
  | IPublish t m => continue ((fun c => IDeliver c t m) <$> snapshot h) h
  | IDeliver c t m => on h c (fun x => if bool_decide (is_Some (subs x !! t)) then continue [push c t (mSeq m) (mPayload m)] h else continue [] h)
  | IGrantChanged user instance => continue ((fun c => IRecheck c instance) <$> whoseUser h user) h
  | IRecheck c instance => on h c (fun x =>
      continue ((fun t => IRecheckOne c t instance) <$> hangingOn h instance x) (setConn c (withSubs id (grantGen x + 1) x) h))
  | IRecheckOne c t instance => on h c (fun x =>
      if can (fault inp) h (cUser x) (actionOf t) instance then continue [] h else continue [IDrop c t (Some (wire t, Forbidden))] h)
  | IInstanceDeleted instance => continue ((fun c => IDropInstance c instance) <$> snapshot h) h
  | IDropInstance c instance => on h c (fun x =>
      continue ((fun t => IDrop c t (Some (wire t, NotFound))) <$> hangingOn h instance x) h)
  | ISessionRevoked session => continue ((fun c => IClose c statusSessionExpired) <$> whoseSession h session) h
  | IUserRevoked user => continue ((fun c => IClose c statusSessionExpired) <$> whoseUser h user) h
  | IHubClose => continue [ICloseAll] (closeHub h)
  | ICloseAll => continue ((fun c => IClose c StatusGoingAway) <$> snapshot h) h
  end.

(** ** Steps *)

(** [ServeHTTP]'s refusals; a request that passes goes on to [add]. *)
Definition ServeHTTP (u : option User) (sessionID origin csrf : string) : result Code bool :=
  match u with
  | None => Err Unauthenticated
  | Some _ =>
      if bool_decide (sessionID = "") then Err Unauthenticated
      else if negb (bool_decide (origin = Origin_)) then Err OriginRejected
      else if negb (bool_decide (csrf = "")) && negb (csrfOK sessionID csrf) then Err CSRFFailed
      else Ok (negb (bool_decide (csrf = "")))
  end.

(** One step: a goroutine's next instruction, an upgrade, or a write of the rows by
    the rest of the panel, with the call of the hub that follows it. *)
Inductive Step :=
| SRun (n : nat) (inp : Input)
| SUpgrade (u : option User) (sessionID origin csrf : string) (at_ : Z)
| SLive (sid : nat) (m : Message)
| SPublish (t : Topic) (m : Message)
| SGrantWritten (user instance : string) (g : option Grant)
| SGrantAdded (user instance : string) (g : Grant)
| SGrantExpires (user instance : string)
| SInstanceMade (instance : string)
| SInstanceDeleted (instance : string)
| SJobMade (job instance : string)
| SSessionMade (session : string) (until : Z)
| SSessionDeleted (session : string)
| SUserRevoked (user : string)
| SShutdown.

Definition spawn (th : Thread) (h : Hub) : Hub := withThreads (fun l => l ++ [th]) h.
Definition withRows (g : gmap (string * string) Grant) (i gn : gset string) (j : gmap string string) (s : gmap string Z) (h : Hub) : Hub :=
  mkHub (conns h) (registered h) (closed h) (churn h) (objects h) (threads h) g i gn j s.

Definition step (s : Step) (h : Hub) : option Hub :=
  match s with
  | SRun n inp =>
      match threads h !! n with
      | Some (i :: rest) => match exec i inp h with
                            | Some (l, spawned, h) => Some (withThreads (fun ths => <[n := l ++ rest]> ths ++ spawned) h)
                            | None => None
                            end
      | _ => None
      end
  | SUpgrade u sessionID origin csrf at_ =>
      match ServeHTTP u sessionID origin csrf, u with
      | Ok done, Some u => if bool_decide (owner sessionID = userID u) then Some (spawn [IAdd u sessionID at_ done] h) else None
      | _, _ => Some h
      end
  | SLive sid m => match objects h !! sid with
                   | Some s => if sCancel s then Some (spawn [ILive (sConn s) sid m] h) else None
                   | None => None
                   end
  | SPublish t m => Some (spawn [IPublish t m] h)
  | SGrantWritten user instance g =>
      Some (spawn [IGrantChanged user instance]
              (withRows (partial_alter (fun _ => g) (user, instance) (grants h)) (instances h) (gone h) (jobs h) (sessions h) h))
  | SGrantAdded user instance g =>
      if bool_decide (grants h !! (user, instance) = None)
      then Some (withRows (<[(user, instance) := g]> (grants h)) (instances h) (gone h) (jobs h) (sessions h) h) else None
  | SGrantExpires user instance => Some (withRows (delete (user, instance) (grants h)) (instances h) (gone h) (jobs h) (sessions h) h)
  | SInstanceMade instance =>
      if bool_decide (instance ∉ gone h) && negb (bool_decide (instance = ""))
      then Some (withRows (grants h) ({[instance]} ∪ instances h) (gone h) (jobs h) (sessions h) h) else None
  | SInstanceDeleted instance =>
      if bool_decide (instance = "") then None
      else Some (spawn [IInstanceDeleted instance]
              (withRows (filter (fun kv => kv.1.2 <> instance) (grants h)) (instances h ∖ {[instance]}) ({[instance]} ∪ gone h)
                 ((fun i => if bool_decide (i = instance) then "" else i) <$> jobs h) (sessions h) h))
  | SJobMade job instance =>
      if bool_decide (jobs h !! job = None) && (bool_decide (instance ∈ instances h) || bool_decide (instance = ""))
      then Some (withRows (grants h) (instances h) (gone h) (<[job := instance]> (jobs h)) (sessions h) h) else None
  | SSessionMade session until =>
      Some (withRows (grants h) (instances h) (gone h) (jobs h) (<[session := until]> (sessions h)) h)
  | SSessionDeleted session =>
      Some (spawn [ISessionRevoked session] (withRows (grants h) (instances h) (gone h) (jobs h) (delete session (sessions h)) h))
  | SUserRevoked user =>
      Some (spawn [IUserRevoked user]
              (withRows (grants h) (instances h) (gone h) (jobs h) (filter (fun kv => owner kv.1 <> user) (sessions h)) h))
  | SShutdown => Some (spawn [IHubClose] h)
  end.

Fixpoint steps (l : list Step) (h : Hub) : option Hub :=
  match l with
  | [] => Some h
  | s :: l => match step s h with Some h => steps l h | None => None end
  end.
End Hub.

(** [New]. *)
Definition newHub : Hub := mkHub ∅ ∅ false (New 600 (60 * second_) 120) ∅ [] ∅ ∅ ∅ ∅ ∅.
