(* ===== verification/HubSafe.v ===== *)
(** What the hub promises under every interleaving of its goroutines, the clients, the
    sources and the rest of the panel. *)
From S2P Require Import Prelude GoBytes Authz Argon Auth Errcode Limiter Topic Ring Hub.

Open Scope Z_scope.

Section Safe.
(** The grants that run out, which nobody tells the hub. *)
Context (lapsed : string -> string -> Prop).

(** ** Pending work *)

Definition pending (P : Instr -> Prop) (h : Hub) : Prop := exists th i, th ∈ threads h /\ i ∈ th /\ P i.

(** Whose connection an instruction works on. *)
Definition mentions (i : Instr) : option nat :=
  match i with
  | IAdd _ _ _ _ | IEnd _ | IUnlock _ | IPublish _ _ | IGrantChanged _ _ | IInstanceDeleted _ | ISessionRevoked _ | IUserRevoked _
  | IHubClose | ICloseAll => None
  | IExpiry c | ILoops c | IRead c | IClose c _ | IWait c | IStop c | IUnsubscribeAll c | IRemove c | ITimer c _ | ITopics c _ _
  | ISubscribe c _ | IGen c _ _ | IExists c _ _ _ | ICan c _ _ _ _ | IRegister c _ _ _ _ | IExistsAgain c _ _ _ | ICanAgain c _ _ _ _
  | IOpen c _ _ | IAck c _ _ _ | IReplay c _ _ | IUnsubscribe c _ | IDrop c _ _ | ICommand c _ | ISend c _ | ILossless c _ | ILossy c _
  | IUnstick c | IStuck c _ | IDropOldest c _ | ISecond c _ | IOuter c | IInner c | IFrame c _ | IWrite c _ _ | ILoopEnd c | IPing c
  | ILive c _ _ | IDeliver c _ _ | IRecheck c _ | IRecheckOne c _ _ | IDropInstance c _ => Some c
  end.

(** What still decides about a subscription: a change of the grant not yet followed up,
    a recheck of the connection or of the topic, its removal, or the subscribing
    client's own second look. *)
Inductive settles (c : nat) (t : Topic) (sid : nat) (user instance : string) : Instr -> Prop :=
| settles_changed : settles c t sid user instance (IGrantChanged user instance)
| settles_recheck : settles c t sid user instance (IRecheck c instance)
| settles_one : settles c t sid user instance (IRecheckOne c t instance)
| settles_drop why : settles c t sid user instance (IDrop c t why)
| settles_exists raw : settles c t sid user instance (IExistsAgain c t raw sid)
| settles_can raw i : settles c t sid user instance (ICanAgain c t raw sid i).

Definition follows (c : nat) (user instance : string) (i : Instr) : Prop := i = IGrantChanged user instance \/ i = IRecheck c instance.

(** A topic hangs on this instance, as long as the instance is there. *)
Definition hangs (h : Hub) (t : Topic) (instance : string) : Prop :=
  instance ∉ gone h -> match kind t with KindJob => jobs h !! tid t = Some instance | _ => instance = tid t end.

Definition allowed (h : Hub) (x : Conn) (t : Topic) (instance : string) : Prop :=
  can false h (cUser x) (actionOf t) instance = true \/ lapsed (userID (cUser x)) instance.

Definition instrOK (h : Hub) (i : Instr) : Prop :=
  (forall c, mentions i = Some c -> is_Some (conns h !! c)) /\
  match i with
  | IExists c t raw gen => forall x, conns h !! c = Some x -> (gen <= grantGen x)%N
  | ICan c t raw gen instance => hangs h t instance /\ forall x, conns h !! c = Some x -> (gen <= grantGen x)%N
  | IRegister c t raw gen instance => hangs h t instance /\ forall x, conns h !! c = Some x -> (gen <= grantGen x)%N /\
      (closedWith x = None -> instance ∉ gone h -> gen = grantGen x ->
        allowed h x t instance \/ pending (follows c (userID (cUser x)) instance) h)
  | IExistsAgain c t raw sid => exists s, objects h !! sid = Some s /\ sTopic s = t
  | ICanAgain c t raw sid instance => exists s, objects h !! sid = Some s /\ sTopic s = t /\ (sInstance s ∉ gone h -> instance = sInstance s)
  | _ => True
  end.

(** A connection leaves the hub, or stops its timer, only once it is closed. *)
Definition isEnd (c : nat) (i : Instr) : Prop := i = IRemove c \/ i = IStop c.
Definition shut (h : Hub) (c : nat) : Prop := exists x, conns h !! c = Some x /\ closedWith x <> None.
Definition endsClosed (h : Hub) (th : Thread) : Prop :=
  forall pre i post c, th = pre ++ i :: post -> isEnd c i -> shut h c \/ exists code, IClose c code ∈ pre.

Record inv (h : Hub) : Prop := {
  inv_open : forall c x, conns h !! c = Some x -> closedWith x = None -> c ∈ registered h;
  inv_known : forall c, c ∈ registered h -> is_Some (conns h !! c);
  inv_ends : forall th, th ∈ threads h -> endsClosed h th;
  inv_instr : forall th i, th ∈ threads h -> i ∈ th -> instrOK h i;
  inv_object : forall sid s, objects h !! sid = Some s -> hangs h (sTopic s) (sInstance s) /\ is_Some (conns h !! sConn s);
  inv_sub : forall c x t sid, conns h !! c = Some x -> subs x !! t = Some sid -> exists s, objects h !! sid = Some s /\ sTopic s = t;
  inv_rows : (forall i, i ∈ instances h -> i ∉ gone h) /\ "" ∉ gone h;
  inv_main : forall c x t sid s, conns h !! c = Some x -> closedWith x = None -> subs x !! t = Some sid -> objects h !! sid = Some s ->
    sInstance s ∉ gone h -> allowed h x t (sInstance s) \/ pending (settles c t sid (userID (cUser x)) (sInstance s)) h
}.

(** ** After an instruction *)

Definition after (n : nat) (l rest : list Instr) (spawned : list Thread) (h : Hub) : Hub :=
  withThreads (fun ths => <[n := l ++ rest]> ths ++ spawned) h.

Section After.
Context (h h1 : Hub) (n : nat) (i : Instr) (l rest : list Instr) (spawned : list Thread).
Context (Hn : threads h !! n = Some (i :: rest)) (Hth : threads h1 = threads h).

Let h' := after n l rest spawned h1.

Lemma after_threads th : th ∈ threads h' -> th = l ++ rest \/ th ∈ spawned \/ th ∈ threads h.
Proof using Hn Hth.
  subst h'. unfold after, withThreads. cbn [threads]. rewrite Hth. intros [Ht|Ht]%elem_of_app; [|auto].
  apply list_elem_of_lookup in Ht as [m Hm]. destruct (decide (m = n)) as [->|Hne].
  - rewrite list_lookup_insert_eq in Hm by (by eapply lookup_lt_Some). injection Hm as <-. auto.
  - rewrite list_lookup_insert_ne in Hm by done. right. right. by eapply list_elem_of_lookup_2.
Qed.
Lemma after_instr th j : th ∈ threads h' -> j ∈ th -> j ∈ l \/ (exists th, th ∈ spawned /\ j ∈ th) \/ exists th, th ∈ threads h /\ j ∈ th.
Proof using Hn Hth.
  intros Ht Hj. apply after_threads in Ht as [->|[Ht|Ht]]; [|by eauto..]. apply elem_of_app in Hj as [Hj|Hj]; [auto|].
  right. right. exists (i :: rest). split; [by eapply list_elem_of_lookup_2|by right].
Qed.
Lemma after_head j : j ∈ l -> exists th, th ∈ threads h' /\ j ∈ th.
Proof using Hn Hth.
  intros Hj. exists (l ++ rest). split; [|apply elem_of_app; auto]. subst h'. unfold after, withThreads. cbn [threads]. rewrite Hth.
  apply elem_of_app. left. eapply list_elem_of_lookup_2, list_lookup_insert_eq. by eapply lookup_lt_Some.
Qed.
Lemma after_pending P : pending P h -> ~ P i -> pending P h'.
Proof using Hn Hth.
  intros (th & j & Ht & Hj & HP) Hi. apply list_elem_of_lookup in Ht as [m Hm]. destruct (decide (m = n)) as [->|Hne].
  - assert (th = i :: rest) as -> by congruence. apply elem_of_cons in Hj as [->|Hj]; [done|]. exists (l ++ rest), j.
    split_and!; [|apply elem_of_app; auto|done]. subst h'. unfold after, withThreads. cbn [threads]. rewrite Hth.
    apply elem_of_app. left. eapply list_elem_of_lookup_2, list_lookup_insert_eq. by eapply lookup_lt_Some.
  - exists th, j. split_and!; [|done..]. subst h'. unfold after, withThreads. cbn [threads]. rewrite Hth.
    apply elem_of_app. left. eapply list_elem_of_lookup_2. by rewrite list_lookup_insert_ne.
Qed.
Lemma after_new P j : j ∈ l -> P j -> pending P h'.
Proof using Hn Hth. intros Hj HP. destruct (after_head j Hj) as (th & Ht & Hj'). by exists th, j. Qed.
End After.

(** What an instruction may do to the rest. *)
Definition sameRows (h h1 : Hub) : Prop :=
  threads h1 = threads h /\ grants h1 = grants h /\ instances h1 = instances h /\ gone h1 = gone h /\ jobs h1 = jobs h /\ sessions h1 = sessions h.
Definition sameSub (s s' : Sub) : Prop := sTopic s' = sTopic s /\ sInstance s' = sInstance s /\ sConn s' = sConn s.
Definition grown (x x' : Conn) : Prop :=
  cUser x' = cUser x /\ cSession x' = cSession x /\ (grantGen x <= grantGen x')%N /\ (closedWith x' = None -> closedWith x = None).

Record evolves (h h1 : Hub) : Prop := {
  ev_rows : sameRows h h1;
  ev_conn : forall c x, conns h !! c = Some x -> exists x', conns h1 !! c = Some x' /\ grown x x';
  ev_object : forall sid s, objects h !! sid = Some s -> exists s', objects h1 !! sid = Some s' /\ sameSub s s'
}.

Lemma ev_back h h1 c x' : evolves h h1 -> conns h1 !! c = Some x' ->
  (exists x, conns h !! c = Some x /\ grown x x') \/ conns h !! c = None.
Proof.
  intros Hev Hx'. destruct (conns h !! c) as [x|] eqn:E; [left|by right].
  destruct (ev_conn _ _ Hev _ _ E) as (x2 & Hx2 & Hg). assert (x2 = x') as -> by congruence. by exists x.
Qed.
Lemma ev_shut h h1 c : evolves h h1 -> shut h c -> shut h1 c.
Proof.
  intros Hev (x & Hx & Hc). destruct (ev_conn _ _ Hev _ _ Hx) as (x' & Hx' & (_ & _ & _ & Hcl)). exists x'. split; [done|]. intros E. by apply Hc, Hcl.
Qed.
Lemma ev_hangs h h1 t instance : sameRows h h1 -> hangs h t instance -> hangs h1 t instance.
Proof. intros (_ & _ & _ & Eg & Ej & _). unfold hangs. by rewrite Eg, Ej. Qed.
Lemma allowed_same h h1 x x' t instance : grants h1 = grants h -> cUser x' = cUser x -> allowed h x t instance -> allowed h1 x' t instance.
Proof. intros Eg Eu. unfold allowed, can, table. by rewrite Eg, Eu. Qed.

Lemma endsClosed_app h l rest : (forall j c, j ∈ l -> isEnd c j -> shut h c) -> endsClosed h rest ->
  endsClosed h (l ++ rest).
Proof.
  intros Hl Hrest pre j post c E Hj. destruct (decide (length pre < length l)%nat) as [Hlt|Hge].
  - left. apply (Hl j c); [|done]. assert ((l ++ rest) !! length pre = Some j) as Hlk.
    { rewrite E, lookup_app_r, Nat.sub_diag by lia. done. }
    rewrite lookup_app_l in Hlk by done. by eapply list_elem_of_lookup_2.
  - assert (exists pre', pre = l ++ pre') as [pre' ->].
    { exists (drop (length l) pre). rewrite <- (take_drop (length l) pre) at 1. f_equal. apply (f_equal (take (length l))) in E.
      rewrite take_app_length, take_app_le in E by lia. congruence. }
    rewrite <- app_assoc in E. apply app_inv_head in E. destruct (Hrest _ _ _ _ E Hj) as [?|[code Hc]]; [by left|right; exists code].
    apply elem_of_app. by right.
Qed.

Lemma inv_exec h h1 n i l rest spawned : threads h !! n = Some (i :: rest) -> inv h -> evolves h h1 ->
  let h' := after n l rest spawned h1 in
  (forall c x', conns h1 !! c = Some x' -> closedWith x' = None -> c ∈ registered h1) ->
  (forall c, c ∈ registered h1 -> is_Some (conns h1 !! c)) ->
  (forall j, j ∈ l -> instrOK h' j) -> (forall th j, th ∈ spawned -> j ∈ th -> instrOK h' j) ->
  (endsClosed h1 rest -> endsClosed h1 (l ++ rest)) -> (forall th, th ∈ spawned -> endsClosed h1 th) ->
  (forall c code, i = IClose c code -> shut h1 c) ->
  (forall sid s', objects h1 !! sid = Some s' -> (exists s, objects h !! sid = Some s /\ sameSub s s') \/ hangs h1 (sTopic s') (sInstance s') /\ is_Some (conns h1 !! sConn s')) ->
  (forall c x' t sid, conns h1 !! c = Some x' -> subs x' !! t = Some sid ->
     (exists x, conns h !! c = Some x /\ subs x !! t = Some sid) \/
     (exists s, objects h1 !! sid = Some s /\ sTopic s = t /\
       (closedWith x' = None -> sInstance s ∉ gone h1 -> allowed h1 x' t (sInstance s) \/ pending (settles c t sid (userID (cUser x')) (sInstance s)) h'))) ->
  (forall c x x' t sid s, conns h !! c = Some x -> conns h1 !! c = Some x' -> closedWith x' = None -> subs x' !! t = Some sid ->
     objects h !! sid = Some s -> sTopic s = t -> sInstance s ∉ gone h -> settles c t sid (userID (cUser x)) (sInstance s) i ->
     allowed h1 x' t (sInstance s) \/ exists j, j ∈ l /\ settles c t sid (userID (cUser x)) (sInstance s) j) ->
  (forall c x x' instance, conns h !! c = Some x -> conns h1 !! c = Some x' -> closedWith x' = None -> follows c (userID (cUser x)) instance i ->
     IRecheck c instance ∈ l \/ (grantGen x < grantGen x')%N) ->
  inv h'.
Proof.
  intros Hn Hinv Hev h' Hopen Hknown Hl Hsp Hends Hspends Hclose Hobj Hsub Hsettle Hfollow.
  pose proof (ev_rows _ _ Hev) as Hrows. destruct Hrows as (Eth & Egr & Ein & Ego & Ejo & _).
  assert (forall P, pending P h -> ~ P i -> pending P h') as Hpend by (intros; by eapply after_pending).
  assert (forall P j, j ∈ l -> P j -> pending P h') as Hnew by (intros; by eapply after_new).
  split.
  - exact Hopen.
  - exact Hknown.
  - intros th Ht. destruct (after_threads _ _ _ _ _ _ _ Hn Eth _ Ht) as [->|[Hs|Ho]]; [|by apply Hspends|].
    + apply Hends. intros pre j post c E Hj.
      destruct (inv_ends _ Hinv _ (list_elem_of_lookup_2 _ _ _ Hn) (i :: pre) j post c) as [Hs|[code Hc]]; [by rewrite E|done|left; exact (ev_shut _ _ _ Hev Hs)|].
      apply elem_of_cons in Hc as [Hc|Hc]; [left; by eapply Hclose|right; by exists code].
    + intros pre j post c E Hj. destruct (inv_ends _ Hinv _ Ho pre j post c E Hj) as [Hs|?]; [left; exact (ev_shut _ _ _ Hev Hs)|by right].
  - intros th j Ht Hj. destruct (after_instr _ _ _ _ _ _ _ Hn Eth _ _ Ht Hj) as [?|[(th' & ? & ?)|(th' & Ht' & Hj')]]; [by apply Hl|by eapply Hsp|].
    destruct (inv_instr _ Hinv _ _ Ht' Hj') as [Hm Hok]. split.
    { intros c Hc. destruct (Hm c Hc) as [x Hx]. destruct (ev_conn _ _ Hev _ _ Hx) as (x' & Hx' & _). by exists x'. }
    assert (forall c gen x', is_Some (conns h !! c) -> (forall x, conns h !! c = Some x -> (gen <= grantGen x)%N) -> conns h1 !! c = Some x' -> (gen <= grantGen x')%N) as Hgen.
    { intros c gen x' [x Hx] Hg Hx'. destruct (ev_conn _ _ Hev _ _ Hx) as (x2 & Hx2 & (_ & _ & Hle & _)). assert (x2 = x') as -> by congruence. specialize (Hg x Hx). lia. }
    destruct j; try exact I; cbn [mentions] in Hm; pose proof (Hm _ eq_refl) as Hc.
    + intros x' Hx'. by eapply Hgen.
    + destruct Hok as [Hh Hg]. split; [exact (ev_hangs _ _ _ _ (ev_rows _ _ Hev) ltac:(eassumption))|]. intros x' Hx'. by eapply Hgen.
    + destruct Hok as [Hh Hg]. split; [exact (ev_hangs _ _ _ _ (ev_rows _ _ Hev) ltac:(eassumption))|]. intros x' Hx'. split; [eapply Hgen; [done| |done]; intros x Hx; by apply (Hg x Hx)|].
      intros Hop Hgone E. destruct Hc as [x Hx]. destruct (ev_conn _ _ Hev _ _ Hx) as (x2 & Hx2 & (Eu & _ & Hle & Hcl)). assert (x2 = x') as -> by (cbn in Hx'; congruence).
      destruct (Hg x Hx) as [Hge Hok]. change (gone h') with (gone h1) in Hgone. rewrite Ego in Hgone.
      destruct (Hok (Hcl Hop) Hgone ltac:(lia)) as [Ha|Hp]; [left; exact (allowed_same _ _ _ _ _ _ Egr Eu ltac:(eassumption))|right]. rewrite Eu.
      destruct (decide (i = IGrantChanged (userID (cUser x)) instance)) as [Ei|Hni]; [|destruct (decide (i = IRecheck c instance)) as [Ei|Hni2]].
      * destruct (Hfollow c x x' instance Hx Hx2 Hop (or_introl Ei)) as [Hin|Hlt]; [eapply Hnew; [exact Hin|by right]|lia].
      * destruct (Hfollow c x x' instance Hx Hx2 Hop (or_intror Ei)) as [Hin|Hlt]; [eapply Hnew; [exact Hin|by right]|lia].
      * apply Hpend; [done|]. by intros [?|?].
    + destruct Hok as (s & Hs & Et). destruct (ev_object _ _ Hev _ _ Hs) as (s' & Hs' & (E1 & E2 & _)). exists s'. split; [done|congruence].
    + destruct Hok as (s & Hs & Et & Hi). destruct (ev_object _ _ Hev _ _ Hs) as (s' & Hs' & (E1 & E2 & _)). exists s'. split_and!; [done|congruence|].
      rewrite E2. change (gone h') with (gone h1). by rewrite Ego.
  - intros sid s' Hs'. destruct (Hobj _ _ Hs') as [(s & Hs & (-> & -> & ->))|?]; [|done]. destruct (inv_object _ Hinv _ _ Hs) as [Hh [x Hx]]. split; [by apply (ev_hangs h h1); [apply Hev|]|].
    destruct (ev_conn _ _ Hev _ _ Hx) as (x' & Hx' & _). by exists x'.
  - intros c x' t sid Hx' Hsid. destruct (Hsub _ _ _ _ Hx' Hsid) as [(x & Hx & Hsid')|(s & Hs & Et & _)]; [|by exists s].
    destruct (inv_sub _ Hinv _ _ _ _ Hx Hsid') as (s & Hs & Et). destruct (ev_object _ _ Hev _ _ Hs) as (s' & Hs' & (E1 & E2 & _)). exists s'. split; [done|congruence].
  - change (instances h') with (instances h1). change (gone h') with (gone h1). rewrite Ein, Ego. apply Hinv.
  - intros c x' t sid s' Hx' Hop Hsid Hs' Hgone. change (gone h') with (gone h1) in Hgone.
    destruct (Hsub _ _ _ _ Hx' Hsid) as [(x & Hx & Hsid')|(s & Hs & Et & Hok)].
    2:{ assert (s = s') as -> by (cbn in Hs'; congruence). by apply Hok. }
    destruct (ev_conn _ _ Hev _ _ Hx) as (x2 & Hx2 & (Eu & _ & Hle & Hcl)). assert (x2 = x') as -> by (cbn in Hx'; congruence).
    destruct (inv_sub _ Hinv _ _ _ _ Hx Hsid') as (s & Hs & Et). destruct (ev_object _ _ Hev _ _ Hs) as (s2 & Hs2 & (E1 & E2 & _)).
    assert (s2 = s') as -> by (cbn in Hs'; congruence). rewrite E2 in *. rewrite Ego in Hgone. rewrite Eu.
    destruct (inv_main _ Hinv c x t sid s Hx (Hcl Hop) Hsid' Hs Hgone) as [Ha|Hp]; [left; exact (allowed_same _ _ _ _ _ _ Egr Eu ltac:(eassumption))|].
    destruct Hp as (th & j & Ht & Hj & HP). destruct (decide (j = i)) as [->|Hne].
    + destruct (Hsettle c x x' t sid s Hx Hx2 Hop Hsid Hs Et Hgone HP) as [?|(j & Hjl & HPj)]; [by left|right; by eapply Hnew].
    + right. assert (pending (fun k => k = j) h') as (th' & k & Ht' & Hk & ->) by (apply Hpend; [by exists th, j|congruence]). by exists th', j.
Qed.

(** ** Instructions that change nobody's topics but to drop them *)

Record calm (h h1 : Hub) : Prop := {
  calm_evolves : evolves h h1;
  calm_registered : registered h1 = registered h;
  calm_conn : forall c x', conns h1 !! c = Some x' -> exists x, conns h !! c = Some x /\ subs x' ⊆ subs x;
  calm_object : forall sid s', objects h1 !! sid = Some s' -> is_Some (objects h !! sid)
}.

Lemma sameRows_refl h : sameRows h h.
Proof. done. Qed.
Lemma same_conn x : grown x x.
Proof. split_and!; [done|done|lia|done]. Qed.

Lemma evolves_setConn c x x' h : conns h !! c = Some x -> grown x x' -> evolves h (setConn c x' h).
Proof.
  intros Hx Hg. split; [done| |intros sid s Hs; by exists s]. intros c' y Hy. cbn. destruct (decide (c' = c)) as [->|Hne].
  - rewrite lookup_insert_eq. assert (y = x) as -> by congruence. by eexists.
  - rewrite lookup_insert_ne by done. exists y. split; [done|apply same_conn].
Qed.
Lemma evolves_refl h : evolves h h.
Proof. split; [done|intros c x Hx; exists x; split; [done|apply same_conn]|intros sid s Hs; by exists s]. Qed.

Lemma calm_refl h : calm h h.
Proof. split; [apply evolves_refl|done|intros c x Hx; by exists x|by intros sid s ->]. Qed.
Lemma calm_setConn c x x' h : conns h !! c = Some x -> grown x x' -> subs x' ⊆ subs x -> calm h (setConn c x' h).
Proof.
  intros Hx Hg Hs. split; [by eapply evolves_setConn|done| |intros sid s Hs'; by exists s]. intros c' y Hy. cbn in Hy.
  apply lookup_insert_Some in Hy as [[<- <-]|[Hne Hy]]; [by exists x|by exists y].
Qed.
Lemma calm_setSub sid s s' h : objects h !! sid = Some s -> sameSub s s' -> calm h (setSub sid s' h).
Proof.
  intros Hs Hss. split; [split; [done| |]|done|intros c x Hx; by exists x|].
  - intros c x Hx. exists x. split; [done|apply same_conn].
  - intros k y Hy. cbn. destruct (decide (k = sid)) as [->|Hne].
    + rewrite lookup_insert_eq. assert (y = s) as -> by congruence. by eexists.
    + rewrite lookup_insert_ne by done. by exists y.
  - intros k y Hy. cbn in Hy. apply lookup_insert_Some in Hy as [[<- _]|[_ ->]]; by eexists.
Qed.
Lemma calm_churn l h : calm h (withChurn l h).
Proof. destruct (calm_refl h) as [[]]. by split. Qed.
Lemma calm_closeHub h : calm h (closeHub h).
Proof. destruct (calm_refl h) as [[]]. by split. Qed.

Definition plain (j : Instr) : Prop :=
  match j with
  | IExists _ _ _ _ | ICan _ _ _ _ _ | IRegister _ _ _ _ _ | IExistsAgain _ _ _ _ | ICanAgain _ _ _ _ _ | IRemove _ | IStop _ => False
  | _ => True
  end.
Definition fine (h : Hub) (j : Instr) : Prop := plain j /\ match mentions j with Some c => is_Some (conns h !! c) | None => True end.

(** The instructions that need a look of their own. *)
Definition special (i : Instr) : Prop :=
  match i with
  | IAdd _ _ _ _ | IRemove _ | IGen _ _ _ | IExists _ _ _ _ | ICan _ _ _ _ _ | IRegister _ _ _ _ _ | IExistsAgain _ _ _ _ | ICanAgain _ _ _ _ _
  | IDrop _ _ _ | IGrantChanged _ _ | IRecheck _ _ | IRecheckOne _ _ _ => True
  | _ => False
  end.

Lemma fine_ok h h' j : fine h j -> (forall c, is_Some (conns h !! c) -> is_Some (conns h' !! c)) -> instrOK h' j.
Proof.
  intros [Hp Hm] Hc. split; [intros c E; rewrite E in Hm; by apply Hc|]. by destruct j.
Qed.
Lemma plain_ends h l : Forall plain l -> forall j c, j ∈ l -> isEnd c j -> shut h c.
Proof. rewrite Forall_forall. intros Hl j c Hj%Hl [->| ->]; done. Qed.

Lemma inv_calm h h1 n i l rest spawned : threads h !! n = Some (i :: rest) -> inv h -> calm h h1 ->
  let h' := after n l rest spawned h1 in
  Forall plain l \/ Forall (fun j => ~ exists c, isEnd c j) l ->
  (forall j, j ∈ l -> instrOK h' j) -> Forall (Forall (fine h)) spawned ->
  (forall c code, i = IClose c code -> shut h1 c) ->
  (forall c x x' t sid s, conns h !! c = Some x -> conns h1 !! c = Some x' -> closedWith x' = None -> subs x' !! t = Some sid ->
     objects h !! sid = Some s -> sTopic s = t -> sInstance s ∉ gone h -> settles c t sid (userID (cUser x)) (sInstance s) i ->
     allowed h1 x' t (sInstance s) \/ exists j, j ∈ l /\ settles c t sid (userID (cUser x)) (sInstance s) j) ->
  (forall c x x' instance, conns h !! c = Some x -> conns h1 !! c = Some x' -> closedWith x' = None -> follows c (userID (cUser x)) instance i ->
     IRecheck c instance ∈ l \/ (grantGen x < grantGen x')%N) ->
  inv h'.
Proof.
  intros Hn Hinv Hcalm h' Hends Hl Hsp Hclose Hsettle Hfollow. pose proof (calm_evolves _ _ Hcalm) as Hev.
  assert (forall c, is_Some (conns h !! c) -> is_Some (conns h1 !! c)) as Hkeep.
  { intros c [x Hx]. destruct (ev_conn _ _ Hev _ _ Hx) as (x' & Hx' & _). by exists x'. }
  apply (inv_exec h h1 n i l rest spawned); try done.
  - intros c x' Hx' Hop. rewrite (calm_registered _ _ Hcalm). destruct (calm_conn _ _ Hcalm _ _ Hx') as (x & Hx & _).
    destruct (ev_conn _ _ Hev _ _ Hx) as (x2 & Hx2 & (_ & _ & _ & Hcl)). assert (x2 = x') as -> by congruence. exact (inv_open _ Hinv _ _ Hx (Hcl Hop)).
  - intros c Hc. rewrite (calm_registered _ _ Hcalm) in Hc. by apply Hkeep, Hinv.
  - intros th j Ht Hj. rewrite Forall_forall in Hsp. specialize (Hsp th Ht). rewrite Forall_forall in Hsp. eapply fine_ok; [by apply Hsp|done].
  - apply endsClosed_app. destruct Hends as [Hp|Hp]; [by apply plain_ends|]. rewrite Forall_forall in Hp. intros j c Hj Hje. destruct (Hp j Hj). by exists c.
  - intros th Ht. rewrite Forall_forall in Hsp. specialize (Hsp th Ht). intros pre j post c -> Hj. left.
    apply Forall_app in Hsp as [_ [Hf _]%Forall_cons]. destruct Hf as [Hf _]. by destruct Hj as [->| ->].
  - intros sid s' Hs'. left. destruct (calm_object _ _ Hcalm _ _ Hs') as [s Hs]. exists s. split; [done|].
    destruct (ev_object _ _ Hev _ _ Hs) as (s2 & Hs2 & Hss). assert (s2 = s') as -> by congruence. done.
  - intros c x' t sid Hx' Hsid. left. destruct (calm_conn _ _ Hcalm _ _ Hx') as (x & Hx & Hsub). exists x. split; [done|]. by eapply lookup_weaken.
Qed.

Section Steps.
Context (range : gmap string bucket -> list (string * bucket)) (order : gset nat -> list nat).
Context (Origin_ : string) (csrfOK : string -> string -> bool) (watch : bool) (owner : string -> string).
Context (order_ok : forall s c, c ∈ order s <-> c ∈ s).

Notation exec := (exec range order csrfOK watch).

Lemma on_Some h c k r : on h c k = Some r -> exists x, conns h !! c = Some x /\ k x = Some r.
Proof. unfold on. destruct (conns h !! c) as [x|]; [by exists x|done]. Qed.
Lemma select_Some n cases r : select n cases = Some r -> (true, Some r) ∈ cases.
Proof.
  unfold select. destruct (filter _ cases) as [|y ready] eqn:E; [done|]. destruct ((y :: ready) !! _) as [[b o]|] eqn:Ey; [|done]. cbn. intros ->.
  apply list_elem_of_lookup_2 in Ey. rewrite <- E in Ey. apply list_elem_of_filter in Ey as [Hb Hin]. cbn in Hb. by subst b.
Qed.

Lemma snapshot_known h c : inv h -> c ∈ snapshot order h -> is_Some (conns h !! c).
Proof. intros Hinv Hc. unfold snapshot in Hc. rewrite order_ok in Hc. by apply Hinv. Qed.

Lemma fine_map {A} h (f : A -> Instr) (l : list A) : (forall a, a ∈ l -> fine h (f a)) -> Forall (fine h) (f <$> l).
Proof. intros Hf. apply Forall_fmap, Forall_forall. exact Hf. Qed.

(** What an ordinary instruction answers. *)
Definition quiet (h : Hub) (o : Out) : Prop :=
  match o with
  | None => True
  | Some (l, spawned, h1) => calm h h1 /\ Forall (fine h) l /\ Forall (Forall (fine h)) spawned
  end.

Lemma quiet_on h c k : (forall x, conns h !! c = Some x -> quiet h (k x)) -> quiet h (on h c k).
Proof. unfold on. destruct (conns h !! c) as [x|]; [|done]. intros Hk. by apply Hk. Qed.
Lemma quiet_continue h l h1 : calm h h1 -> Forall (fine h) l -> quiet h (continue l h1).
Proof. intros Hc Hl. by split_and!. Qed.
Lemma quiet_select h n cases : Forall (fun b => quiet h b.2) cases -> quiet h (select n cases).
Proof.
  intros Hc. destruct (select n cases) as [r|] eqn:E; [|done]. apply select_Some in E. rewrite Forall_forall in Hc. exact (Hc _ E).
Qed.
Lemma calm_open h c x x' : conns h !! c = Some x -> cUser x' = cUser x -> cSession x' = cSession x -> grantGen x' = grantGen x -> closedWith x' = closedWith x -> subs x' = subs x ->
  calm h (setConn c x' h).
Proof. intros Hx Eu Ese Eg Ec Es. eapply calm_setConn; [done|split_and!; [done|done|lia|by rewrite Ec]|by rewrite Es]. Qed.

Ltac fine_tac :=
  repeat match goal with
  | |- Forall _ (_ ++ _) => apply Forall_app; split
  | |- Forall _ (_ :: _) => constructor
  | |- Forall _ [] => constructor
  | |- Forall _ (match ?x with _ => _ end) => destruct x
  | |- Forall _ (if ?x then _ else _) => destruct x
  end;
  repeat match goal with
  | |- fine _ (if ?x then _ else _) => destruct x
  | |- fine _ _ => split; [exact I|cbn; first [exact I|eauto]]
  end.
Ltac calm_tac :=
  first [ apply calm_refl | apply calm_churn | apply calm_closeHub
        | eapply calm_open; [eassumption|reflexivity..]
        | eapply calm_setConn; [eassumption|split_and!; [reflexivity|reflexivity|cbn; lia|cbn; repeat case_match; done]
                               |first [reflexivity|apply map_empty_subseteq]]
        | eapply calm_setSub; [eassumption|by split_and!] ].
Ltac quiet_tac :=
  repeat match goal with
  | |- quiet _ (on _ _ _) => apply quiet_on; intros ?x ?Hx
  | |- quiet _ (continue _ _) => apply quiet_continue; [calm_tac|fine_tac]
  | |- quiet _ (select _ _) => apply quiet_select; repeat first [apply Forall_nil_2|apply Forall_cons_2]; cbn [snd]
  | |- quiet _ None => exact I
  | |- quiet _ (Some (_, _, _)) => split_and!; [calm_tac|fine_tac..]
  | |- quiet _ (match ?x with _ => _ end) => destruct x eqn:?
  | |- quiet _ (if ?x then _ else _) => destruct x eqn:?
  | |- quiet _ (let '(_, _) := ?x in _) => destruct x eqn:?
  end.

Lemma push_fine h c t seq p x : conns h !! c = Some x -> fine h (push c t seq p).
Proof. intros Hx. unfold push. destruct (classOf t); split; cbn; eauto. Qed.

Lemma exec_quiet i inp h : inv h -> (forall c, mentions i = Some c -> is_Some (conns h !! c)) -> ~ special i -> quiet h (exec i inp h).
Proof.
  intros Hinv Hm Hs. destruct i; try (by destruct Hs); cbn [Hub.exec];
    try (destruct (Hm _ eq_refl) as [y Hy]); clear Hm;
    unfold expiryCheck, readLoop, subscribe, openSource, pushLossless, pushLossy, stuckTooLong, outer, inner, writeFrame, write, sendLive, dispatch;
    quiet_tac.
  - apply fine_map. intros sid _. by split.
  - destruct (room (lossy x)); quiet_tac.
  - by eapply push_fine.
  - apply fine_map. intros c Hc. split; [exact I|]. by apply snapshot_known.
  - by eapply push_fine.
  - apply fine_map. intros c Hc. split; [exact I|]. by apply snapshot_known.
  - apply fine_map. intros t _. split; [exact I|]. by eexists.
  - apply fine_map. intros c [_ Hc]%list_elem_of_filter. split; [exact I|]. by apply snapshot_known.
  - apply fine_map. intros c [_ Hc]%list_elem_of_filter. split; [exact I|]. by apply snapshot_known.
  - apply fine_map. intros c Hc. split; [exact I|]. by apply snapshot_known.
Qed.

Lemma after_keeps h h1 n l rest spawned c : evolves h h1 -> is_Some (conns h !! c) -> is_Some (conns (after n l rest spawned h1) !! c).
Proof. intros Hev [x Hx]. destruct (ev_conn _ _ Hev _ _ Hx) as (x' & Hx' & _). by exists x'. Qed.

Lemma fine_plain h l : Forall (fine h) l -> Forall plain l.
Proof. intros Hl. eapply Forall_impl; [exact Hl|]. by intros j []. Qed.

Lemma close_shuts inp h c code l spawned h1 : exec (IClose c code) inp h = Some (l, spawned, h1) -> shut h1 c.
Proof.
  cbn. intros (x & Hx & [= <- <- <-])%on_Some. exists (closeConn code x). split; [apply lookup_insert_eq|]. cbn. by destruct (closedWith x).
Qed.

Lemma inv_ordinary h n i rest inp l spawned h1 : threads h !! n = Some (i :: rest) -> inv h -> ~ special i ->
  exec i inp h = Some (l, spawned, h1) -> inv (after n l rest spawned h1).
Proof.
  intros Hn Hinv Hs E. assert (instrOK h i) as [Hm _] by (eapply inv_instr; [done|by eapply list_elem_of_lookup_2|by left]).
  pose proof (exec_quiet i inp h Hinv Hm Hs) as Hq. rewrite E in Hq. destruct Hq as (Hcalm & Hl & Hsp).
  apply (inv_calm h h1 n i l rest spawned); try done.
  - left. by eapply fine_plain.
  - rewrite Forall_forall in Hl. intros j Hj. eapply fine_ok; [by apply Hl|]. intros c. by apply after_keeps, Hcalm.
  - intros c code ->. by eapply close_shuts.
  - intros c x x' t sid s _ _ _ _ _ _ _ Hset. exfalso. by inversion Hset; subst.
  - intros c x x' instance _ _ _ [-> | ->]; by destruct Hs.
Qed.

(** ** The instructions that look or subscribe *)

(** An instruction that leaves the hub as it is. *)
Lemma inv_still h n i l rest : threads h !! n = Some (i :: rest) -> inv h -> (forall c code, i <> IClose c code) ->
  Forall (fun j => ~ exists c, isEnd c j) l -> (forall j, j ∈ l -> instrOK (after n l rest [] h) j) ->
  (forall c x t sid s, conns h !! c = Some x -> closedWith x = None -> subs x !! t = Some sid -> objects h !! sid = Some s -> sTopic s = t ->
     sInstance s ∉ gone h -> settles c t sid (userID (cUser x)) (sInstance s) i ->
     allowed h x t (sInstance s) \/ exists j, j ∈ l /\ settles c t sid (userID (cUser x)) (sInstance s) j) ->
  (forall c x instance, conns h !! c = Some x -> closedWith x = None -> follows c (userID (cUser x)) instance i -> IRecheck c instance ∈ l) ->
  inv (after n l rest [] h).
Proof.
  intros Hn Hinv Hnc Hends Hl Hsettle Hfollow. apply (inv_calm h h n i l rest []); try done.
  - apply calm_refl.
  - by right.
  - intros c code E. by destruct (Hnc c code).
  - intros c x x' t sid s Hx Hx'. assert (x' = x) as -> by congruence. by apply Hsettle.
  - intros c x x' instance Hx Hx'. assert (x' = x) as -> by congruence. intros Hop Hf. left. by eapply Hfollow.
Qed.

Ltac no_end := repeat first [apply Forall_nil_2 | apply Forall_cons_2]; try (intros [? [?|?]]; discriminate).
Ltac no_reason := intros; exfalso;
  match goal with
  | H : settles _ _ _ _ _ _ |- _ => by inversion H
  | H : follows _ _ _ _ |- _ => destruct H; discriminate
  end.

Lemma fine_after h n l rest j : fine h j -> instrOK (after n l rest [] h) j.
Proof. intros Hf. eapply fine_ok; [exact Hf|done]. Qed.
Lemma fine_send h c x p : conns h !! c = Some x -> fine h (ISend c p).
Proof. intros Hx. split; [exact I|by eexists]. Qed.

Lemma inv_gen h n c t raw rest inp l spawned h1 : threads h !! n = Some (IGen c t raw :: rest) -> inv h ->
  exec (IGen c t raw) inp h = Some (l, spawned, h1) -> inv (after n l rest spawned h1).
Proof.
  intros Hn Hinv. cbn. intros (x & Hx & [= <- <- <-])%on_Some. apply (inv_still h n (IGen c t raw)); try done; [no_end| |no_reason..].
  intros j ->%list_elem_of_singleton. split; [intros c' [= <-]; by eexists|]. intros x' Hx'. cbn in Hx'. assert (x' = x) as -> by congruence. lia.
Qed.

Lemma resolve_hangs h f t instance : inv h -> resolve f h t = Some instance -> hangs h t instance.
Proof.
  unfold resolve, hangs. intros Hinv. destruct f; [done|]. destruct (kind t); try (case_bool_decide; [|done]; intros [= <-]; done). done.
Qed.

Lemma inv_exists h n c t raw gen rest inp l spawned h1 : threads h !! n = Some (IExists c t raw gen :: rest) -> inv h ->
  exec (IExists c t raw gen) inp h = Some (l, spawned, h1) -> inv (after n l rest spawned h1).
Proof.
  intros Hn Hinv. destruct (inv_instr _ Hinv _ _ (list_elem_of_lookup_2 _ _ _ Hn) (list_elem_of_here _ _)) as [Hm Hg].
  destruct (Hm c eq_refl) as [x Hx]. cbn. destruct (resolve (fault inp) h t) as [instance|] eqn:E; intros [= <- <- <-];
    (apply (inv_still h n (IExists c t raw gen)); try done; [no_end| |no_reason..]); intros j ->%list_elem_of_singleton.
  - split; [intros c' [= <-]; by eexists|]. split; [exact (resolve_hangs _ _ _ _ Hinv E)|exact Hg].
  - apply fine_after. by eapply fine_send.
Qed.

Lemma can_sure f h u act instance : can f h u act instance = true -> can false h u act instance = true.
Proof.
  unfold can, Can, decide_. destruct f; [|done]. destruct (Disabled u); [done|]. case_bool_decide; [done|].
  case_bool_decide; [done|]. case_bool_decide; [done|]. done.
Qed.

Lemma inv_can h n c t raw gen instance rest inp l spawned h1 : threads h !! n = Some (ICan c t raw gen instance :: rest) -> inv h ->
  exec (ICan c t raw gen instance) inp h = Some (l, spawned, h1) -> inv (after n l rest spawned h1).
Proof.
  intros Hn Hinv. destruct (inv_instr _ Hinv _ _ (list_elem_of_lookup_2 _ _ _ Hn) (list_elem_of_here _ _)) as [Hm [Hh Hg]].
  cbn. intros (x & Hx & E)%on_Some. destruct (can (fault inp) h (cUser x) (actionOf t) instance) eqn:Ec; injection E as <- <- <-;
    (apply (inv_still h n (ICan c t raw gen instance)); try done; [no_end| |no_reason..]); intros j ->%list_elem_of_singleton.
  - split; [intros c' [= <-]; by eexists|]. split; [exact Hh|]. intros x' Hx'. cbn in Hx'. assert (x' = x) as -> by congruence.
    split; [by apply Hg|]. intros _ _ _. left. left. by eapply can_sure.
  - apply fine_after. by eapply fine_send.
Qed.

Lemma inv_exists_again h n c t raw sid rest inp l spawned h1 : threads h !! n = Some (IExistsAgain c t raw sid :: rest) -> inv h ->
  exec (IExistsAgain c t raw sid) inp h = Some (l, spawned, h1) -> inv (after n l rest spawned h1).
Proof.
  intros Hn Hinv. destruct (inv_instr _ Hinv _ _ (list_elem_of_lookup_2 _ _ _ Hn) (list_elem_of_here _ _)) as [Hm (s & Hs & Et)].
  destruct (Hm c eq_refl) as [x Hx]. cbn. destruct (resolve (fault inp) h t) as [instance|] eqn:E; intros [= <- <- <-];
    (apply (inv_still h n (IExistsAgain c t raw sid)); try done; [no_end| | |no_reason]); try (intros j ->%list_elem_of_singleton).
  - split; [intros c' [= <-]; by eexists|]. exists s. split_and!; try done. intros Hgone. change (gone (after _ _ _ _ h)) with (gone h) in Hgone.
    pose proof (proj1 (inv_object _ Hinv _ _ Hs) Hgone) as Hobj. rewrite Et in Hobj. unfold resolve in E. destruct (fault inp); [done|].
    destruct (kind t); [case_bool_decide; [|done]; congruence..|congruence].
  - intros c' x' t' sid' s' _ _ _ _ _ _ Hset. inversion Hset; subst. right. eexists. split; [by left|]. constructor.
  - split; [intros c' [= <-]; by eexists|exact I].
  - intros c' x' t' sid' s' _ _ _ _ _ _ Hset. inversion Hset; subst. right. eexists. split; [by left|]. constructor.
Qed.

Lemma inv_can_again h n c t raw sid instance rest inp l spawned h1 : threads h !! n = Some (ICanAgain c t raw sid instance :: rest) -> inv h ->
  exec (ICanAgain c t raw sid instance) inp h = Some (l, spawned, h1) -> inv (after n l rest spawned h1).
Proof.
  intros Hn Hinv. destruct (inv_instr _ Hinv _ _ (list_elem_of_lookup_2 _ _ _ Hn) (list_elem_of_here _ _)) as [Hm (s & Hs & Et & Hi)].
  cbn. intros (x & Hx & E)%on_Some. destruct (can (fault inp) h (cUser x) (actionOf t) instance) eqn:Ec; injection E as <- <- <-;
    (apply (inv_still h n (ICanAgain c t raw sid instance)); try done; [no_end| | |no_reason]); try (intros j ->%list_elem_of_singleton).
  - apply fine_after. split; [exact I|by eexists].
  - intros c' x' t' sid' s' Hx' _ _ Hs' _ Hgone Hset. inversion Hset; subst c' t' sid'. left. assert (x' = x) as -> by congruence. assert (s' = s) as -> by congruence.
    unfold allowed. rewrite <- (Hi Hgone). left. by eapply can_sure.
  - apply fine_after. split; [exact I|by eexists].
  - intros c' x' t' sid' s' _ _ _ _ _ _ Hset. inversion Hset; subst. right. eexists. split; [by left|]. constructor.
Qed.

Lemma inv_recheck_one h n c t instance rest inp l spawned h1 : threads h !! n = Some (IRecheckOne c t instance :: rest) -> inv h ->
  exec (IRecheckOne c t instance) inp h = Some (l, spawned, h1) -> inv (after n l rest spawned h1).
Proof.
  intros Hn Hinv. cbn. intros (x & Hx & E)%on_Some. destruct (can (fault inp) h (cUser x) (actionOf t) instance) eqn:Ec; injection E as <- <- <-.
  - apply (inv_still h n (IRecheckOne c t instance)); [done|done|done|no_end|by intros j ?%elem_of_nil| |no_reason].
    intros c' x' t' sid' s' Hx' _ _ _ _ _ Hset. inversion Hset; subst c' t' instance. left. assert (x' = x) as -> by congruence. left. exact (can_sure _ _ _ _ _ Ec).
  - apply (inv_still h n (IRecheckOne c t instance)); [done|done|done|no_end| | |no_reason].
    + intros j ->%list_elem_of_singleton. apply fine_after. split; [exact I|by eexists].
    + intros c' x' t' sid' s' _ _ _ _ _ _ Hset. inversion Hset; subst. right. eexists. split; [by left|]. constructor.
Qed.

Lemma whoseUser_in h c x u : inv h -> conns h !! c = Some x -> closedWith x = None -> userID (cUser x) = u -> c ∈ whoseUser order h u.
Proof.
  intros Hinv Hx Hop Hu. unfold whoseUser. apply list_elem_of_filter. split; [|unfold snapshot; apply order_ok; by eapply inv_open].
  rewrite Hx. cbn. by rewrite Hu.
Qed.

Lemma inv_grant_changed h n u instance rest inp l spawned h1 : threads h !! n = Some (IGrantChanged u instance :: rest) -> inv h ->
  exec (IGrantChanged u instance) inp h = Some (l, spawned, h1) -> inv (after n l rest spawned h1).
Proof.
  intros Hn Hinv. cbn. intros [= <- <- <-]. apply (inv_still h n (IGrantChanged u instance)); try done.
  - apply Forall_fmap, Forall_forall. intros c _ [? [?|?]]; discriminate.
  - intros j (c & -> & [_ Hc]%list_elem_of_filter)%list_elem_of_fmap. apply fine_after. split; [exact I|]. by apply snapshot_known.
  - intros c x t sid s Hx Hop _ _ _ _ Hset. inversion Hset; subst. right. exists (IRecheck c (sInstance s)). split; [|constructor].
    apply list_elem_of_fmap. exists c. split; [done|by eapply whoseUser_in].
  - intros c x i Hx Hop [[= -> ->]|?]; [|done]. apply list_elem_of_fmap. exists c. split; [done|by eapply whoseUser_in].
Qed.

(** ** Drops, rechecks and registrations *)

Lemma inv_drop h n c t why rest inp l spawned h1 : threads h !! n = Some (IDrop c t why :: rest) -> inv h ->
  exec (IDrop c t why) inp h = Some (l, spawned, h1) -> inv (after n l rest spawned h1).
Proof.
  intros Hn Hinv. cbn. intros (x & Hx & E)%on_Some. destruct (subs x !! t) as [sid|] eqn:Et; injection E as <- <- <-.
  - assert (calm h (setConn c (withSubs (delete t) (grantGen x) x) h)) as Hcalm.
    { eapply calm_setConn; [done|split_and!; [done|done|cbn; lia|done]|apply delete_subseteq]. }
    assert (Forall (fine h) (IEnd sid :: match why with Some (topic, code) => [sendError c topic code] | None => [] end)) as Hl.
    { constructor; [by split|]. destruct why as [[topic code]|]; constructor; [by eapply fine_send|constructor]. }
    apply (inv_calm h _ n (IDrop c t why)); try done.
    + left. by eapply fine_plain.
    + rewrite Forall_forall in Hl. intros j Hj. eapply fine_ok; [by apply Hl|]. intros c'. by apply after_keeps, Hcalm.
    + intros c' x' x2 t' sid' s Hx' Hx2 _ Hsid _ _ _ Hset. inversion Hset; subst c' t'. cbn in Hx2. rewrite lookup_insert_eq in Hx2. injection Hx2 as <-.
      cbn in Hsid. by rewrite lookup_delete_eq in Hsid.
    + by intros c' x' x2 i _ _ _ [?|?].
  - apply (inv_still h n (IDrop c t why)); [done|done|done|no_end|by intros j ?%elem_of_nil| |no_reason].
    intros c' x' t' sid' s Hx' _ Hsid _ _ _ Hset. inversion Hset; subst c' t'. congruence.
Qed.

Lemma hangingOn_in h instance x t sid s : subs x !! t = Some sid -> objects h !! sid = Some s -> sInstance s = instance -> t ∈ hangingOn h instance x.
Proof.
  intros Ht Hs Hi. unfold hangingOn. apply list_elem_of_bind. exists t. rewrite Ht, Hs. cbn. rewrite Hi, bool_decide_eq_true_2 by done. split; [by left|].
  apply list_elem_of_fmap. exists (t, sid). split; [done|]. by apply elem_of_map_to_list.
Qed.

Lemma inv_recheck h n c instance rest inp l spawned h1 : threads h !! n = Some (IRecheck c instance :: rest) -> inv h ->
  exec (IRecheck c instance) inp h = Some (l, spawned, h1) -> inv (after n l rest spawned h1).
Proof.
  intros Hn Hinv. cbn. intros (x & Hx & [= <- <- <-])%on_Some.
  assert (calm h (setConn c (withSubs id (grantGen x + 1) x) h)) as Hcalm.
  { eapply calm_setConn; [done|split_and!; [done|done|cbn; lia|done]|reflexivity]. }
  assert (Forall (fine h) ((fun t => IRecheckOne c t instance) <$> hangingOn h instance x)) as Hl.
  { apply fine_map. intros t _. split; [exact I|by eexists]. }
  apply (inv_calm h _ n (IRecheck c instance)); try done.
  - left. by eapply fine_plain.
  - rewrite Forall_forall in Hl. intros j Hj. eapply fine_ok; [by apply Hl|]. intros c'. by apply after_keeps, Hcalm.
  - intros c' x' x2 t sid s Hx' Hx2 _ Hsid Hs Et _ Hset. inversion Hset; subst c' instance. right. exists (IRecheckOne c t (sInstance s)). split; [|constructor].
    apply list_elem_of_fmap. exists t. split; [done|]. cbn in Hx2. rewrite lookup_insert_eq in Hx2. injection Hx2 as <-. by eapply hangingOn_in.
  - intros c' x' x2 i Hx' Hx2 _ [?|[= <- <-]]; [done|]. right. cbn in Hx2. rewrite lookup_insert_eq in Hx2. injection Hx2 as <-.
    assert (x' = x) as -> by congruence. cbn. lia.
Qed.

Lemma follows_settles c t sid u instance i : follows c u instance i -> settles c t sid u instance i.
Proof. intros [->| ->]; constructor. Qed.
Lemma pending_impl (P Q : Instr -> Prop) h : (forall i, P i -> Q i) -> pending P h -> pending Q h.
Proof. intros HPQ (th & i & Ht & Hi & HP). exists th, i. split_and!; try done. by apply HPQ. Qed.

Lemma inv_register h n c t raw gen instance rest inp l spawned h1 : threads h !! n = Some (IRegister c t raw gen instance :: rest) -> inv h ->
  exec (IRegister c t raw gen instance) inp h = Some (l, spawned, h1) -> inv (after n l rest spawned h1).
Proof.
  intros Hn Hinv. destruct (inv_instr _ Hinv _ _ (list_elem_of_lookup_2 _ _ _ Hn) (list_elem_of_here _ _)) as [_ [Hh Hg]].
  cbn. unfold register. intros (x & Hx & E)%on_Some. case_bool_decide as Hraced.
  { injection E as <- <- <-. apply (inv_still h n (IRegister c t raw gen instance)); first [done | by intros j ?%elem_of_nil | no_reason]. }
  set (sid := fresh (dom (objects h))) in *. set (s0 := mkSub c t instance false false false 0 0) in *. set (x1 := withSubs <[t:=sid]> (grantGen x) x) in *.
  set (h2 := setSub sid s0 (setConn c x1 h)) in *. destruct (Hg x Hx) as [Hle Hok].
  assert (exists j, l = [j] /\ spawned = [] /\ h1 = h2 /\ (j = IExistsAgain c t raw sid \/ (j = IOpen c t sid /\ gen = grantGen x))) as (j & -> & -> & -> & Hj).
  { destruct (bool_decide_reflect (grantGen x = gen)) as [Eg|Eg]; injection E as <- <- <-; eexists; split_and!; try done; [right|left]; auto. }
  assert (objects h !! sid = None) as Hfresh by (apply not_elem_of_dom, is_fresh).
  assert (evolves h h2) as Hev.
  { split; [done| |].
    - intros c' y Hy. destruct (ev_conn _ _ (evolves_setConn c x x1 h Hx (same_conn x)) c' y Hy) as (y' & Hy' & Hgr). by exists y'.
    - intros k s Hs. exists s. split; [|done]. cbn. rewrite lookup_insert_ne; [done|]. intros <-. congruence. }
  assert (forall c' y, conns h2 !! c' = Some y -> (c' = c /\ y = x1) \/ conns h !! c' = Some y) as Hback.
  { intros c' y Hy. cbn in Hy. apply lookup_insert_Some in Hy as [[<- <-]|[_ Hy]]; auto. }
  apply (inv_exec h h2 n (IRegister c t raw gen instance) [j] rest []); try done.
  - intros c' y Hy Hop. change (registered h2) with (registered h). destruct (Hback _ _ Hy) as [[-> ->]|Hy']; [exact (inv_open _ Hinv _ _ Hx Hop)|exact (inv_open _ Hinv _ _ Hy' Hop)].
  - intros c' Hc'. destruct (inv_known _ Hinv c' Hc') as [y Hy]. destruct (ev_conn _ _ Hev _ _ Hy) as (y' & Hy' & _). by eexists.
  - intros k ->%list_elem_of_singleton. assert (is_Some (conns h2 !! c)) as Hc by (destruct (ev_conn _ _ Hev _ _ Hx) as (y' & Hy' & _); by eexists).
    destruct Hj as [->|[-> _]]; (split; [by intros c' [= <-]|]); [|exact I]. exists s0. split; [apply lookup_insert_eq|done].
  - by intros th k ?%elem_of_nil.
  - apply endsClosed_app. intros k c' ->%list_elem_of_singleton Hk. by destruct Hj as [->|[-> _]], Hk.
  - by intros th ?%elem_of_nil.
  - intros k s' Hs'. cbn in Hs'. apply lookup_insert_Some in Hs' as [[<- <-]|[_ Hs']]; [right; split; [exact Hh|]|left; by exists s'].
    destruct (ev_conn _ _ Hev _ _ Hx) as (y' & Hy' & _). by exists y'.
  - intros c' y t' sid' Hy Hsid. destruct (Hback _ _ Hy) as [[-> ->]|Hy']; [|left; by exists y]. cbn in Hsid.
    apply lookup_insert_Some in Hsid as [[<- <-]|[_ Hsid]]; [right|left; by exists x]. exists s0. split; [apply lookup_insert_eq|]. split; [done|].
    intros Hop Hgone. cbn [sInstance s0] in *. destruct Hj as [->|[-> Eg]].
    + right. eapply after_new; [exact Hn|done|by left|constructor].
    + destruct (Hok Hop Hgone Eg) as [Ha|Hp]; [left; exact Ha|right]. eapply after_pending; [exact Hn|done| |by inversion 1].
      eapply pending_impl; [|exact Hp]. intros i. apply follows_settles.
  - intros c' y y' t' sid' s _ _ _ _ _ _ _ Hset. by inversion Hset.
  - by intros c' y y' i _ _ _ [?|?].
Qed.

(** ** Connections come and go *)

Lemma endsClosed_close h A c code B rest : Forall (fun j => ~ exists c, isEnd c j) A -> (forall j c', j ∈ B -> isEnd c' j -> c' = c) ->
  endsClosed h rest -> endsClosed h (A ++ IClose c code :: B ++ rest).
Proof.
  intros HA HB Hrest. apply endsClosed_app; [rewrite Forall_forall in HA; intros j c' Hj Hje; destruct (HA j Hj); by exists c'|].
  intros pre j post c' E Hj. destruct pre as [|k pre]; [injection E as <- _; by destruct Hj|]. injection E as <- E.
  destruct (decide (length pre < length B)%nat) as [Hlt|Hge].
  - right. exists code. assert (c' = c) as ->; [|by left]. apply (HB j); [|done]. assert ((B ++ rest) !! length pre = Some j) as Hlk.
    { rewrite E, lookup_app_r, Nat.sub_diag by lia. done. }
    rewrite lookup_app_l in Hlk by done. by eapply list_elem_of_lookup_2.
  - assert (exists pre', pre = B ++ pre') as [pre' ->].
    { exists (drop (length B) pre). rewrite <- (take_drop (length B) pre) at 1. f_equal. apply (f_equal (take (length B))) in E.
      rewrite take_app_length, take_app_le in E by lia. congruence. }
    rewrite <- app_assoc in E. apply app_inv_head in E. destruct (Hrest _ _ _ _ E Hj) as [?|[code' Hc]]; [by left|right; exists code'].
    right. apply elem_of_app. by right.
Qed.

Lemma older_in h b c (l : list nat) : (exists y, b = Some y /\ y ∈ l) \/ b = None -> c ∈ l -> exists y, older h b c = Some y /\ y ∈ l.
Proof. intros [(y & -> & Hy)| ->] Hc; cbn; [destruct (_ <? _); by eexists|by eexists]. Qed.
Lemma oldest_in h l v : oldest h l = Some v -> v ∈ l.
Proof.
  unfold oldest. assert (forall done b l', (exists y, b = Some y /\ y ∈ done ++ l') \/ b = None -> forall v, fold_left (older h) l' b = Some v -> v ∈ done ++ l') as Hgen.
  { intros done b l'. revert done b. induction l' as [|c l' IH]; intros done b Hb v' E; cbn in E.
    - destruct Hb as [(y & -> & Hy)| ->]; [by injection E as <-|done].
    - replace (done ++ c :: l') with ((done ++ [c]) ++ l') by (by rewrite <- app_assoc). eapply IH; [|exact E]. left.
      rewrite <- app_assoc. cbn. apply older_in; [exact Hb|]. apply elem_of_app. right. by left. }
  apply (Hgen [] None l). by right.
Qed.

Lemma serve_split c : exists A B, serve watch c = A ++ IClose c StatusNormalClosure :: B /\
  Forall (fun j => (~ exists c, isEnd c j) /\ mentions j = Some c) A /\
  Forall (fun j => mentions j = Some c /\ forall h, is_Some (conns h !! c) -> instrOK h j) B.
Proof.
  exists ((if watch then [IExpiry c] else []) ++ [ILoops c; IRead c]), [IWait c; IStop c; IUnsubscribeAll c; IRemove c].
  split; [unfold serve; by rewrite <- app_assoc|]. split.
  - apply Forall_app. split; [destruct watch|]; repeat constructor; intros [? [?|?]]; discriminate.
  - repeat constructor; intros c' [= <-]; done.
Qed.

Lemma serve_ok h c j : is_Some (conns h !! c) -> j ∈ serve watch c -> instrOK h j.
Proof.
  intros Hc Hj. assert (fine h j \/ j = IStop c \/ j = IRemove c) as [Hf|[->| ->]]; [|by eapply fine_ok|by split; [intros c' [= <-]|]..].
  unfold serve in Hj. destruct watch; cbn in Hj; repeat (apply elem_of_cons in Hj as [->|Hj]; [first [left; by split|by right; left|by right; right]|]); by apply elem_of_nil in Hj.
Qed.

Lemma inv_add h n u session at_ csrf rest inp l spawned h1 : threads h !! n = Some (IAdd u session at_ csrf :: rest) -> inv h ->
  exec (IAdd u session at_ csrf) inp h = Some (l, spawned, h1) -> inv (after n l rest spawned h1).
Proof.
  intros Hn Hinv. cbn. unfold add. set (c := fresh (dom (conns h))). set (x0 := newConn u session at_ csrf).
  assert (conns h !! c = None) as Hfresh by (apply not_elem_of_dom, is_fresh).
  intros E. assert (exists x (A : list Instr), conns h1 = <[c := x]> (conns h) /\ subs x = ∅ /\ sameRows h h1 /\ objects h1 = objects h /\ spawned = [] /\
    registered h ⊆ registered h1 /\ (forall c', c' ∈ registered h1 -> c' ∈ registered h \/ c' = c) /\ (closedWith x = None -> c ∈ registered h1) /\
    l = A ++ serve watch c /\ Forall (fun j => exists v code, j = IClose v code /\ v ∈ registered h1) A)
    as (x & A & Ec & Esub & Hrows & Eo & -> & Hr1 & Hr2 & Hop & -> & HA).
  { destruct (closed h) eqn:Ecl.
    - injection E as <- <- <-. exists (closeConn StatusGoingAway x0), []. split_and!; try done. intros c' Hc'. by left.
    - injection E as <- <- <-. exists x0. eexists. split_and!; try done; cbn; try set_solver.
      match goal with |- Forall _ (match ?o with _ => _ end) => destruct o as [v|] eqn:Ev end; constructor; [|constructor]. exists v, StatusPolicyViolation. split; [done|].
      assert (v ∈ snapshot order (withRegistered (fun r => {[c]} ∪ r) (setConn c x0 h))) as Hv.
      { repeat case_match; try done; apply oldest_in in Ev; unfold whoseUser in Ev; rewrite ?list_elem_of_filter in Ev; tauto. }
      unfold snapshot in Hv. by rewrite order_ok in Hv. }
  assert (evolves h h1) as Hev.
  { split; [done| |intros sid s Hs; exists s; by rewrite Eo]. intros c' y Hy. exists y. rewrite Ec, lookup_insert_ne by congruence. split; [done|apply same_conn]. }
  assert (forall c', c' ∈ registered h1 -> is_Some (conns h1 !! c')) as Hknown.
  { intros c' [Hc'| ->]%Hr2; rewrite Ec; [|rewrite lookup_insert_eq; by eexists]. destruct (decide (c' = c)) as [->|Hne]; [rewrite lookup_insert_eq; by eexists|].
    rewrite lookup_insert_ne by done. by apply Hinv. }
  assert (forall c' y, conns h1 !! c' = Some y -> (c' = c /\ y = x) \/ conns h !! c' = Some y) as Hback.
  { intros c' y. rewrite Ec. intros [[<- <-]|[_ Hy]]%lookup_insert_Some; auto. }
  destruct (serve_split c) as (A' & B & Es & HA' & HB).
  apply (inv_exec h h1 n (IAdd u session at_ csrf)); try done.
  - intros c' y Hy Hcl. destruct (Hback _ _ Hy) as [[-> ->]|Hy']; [by apply Hop|]. by apply Hr1, (inv_open _ Hinv _ _ Hy').
  - rewrite Forall_forall in HA. intros j [Hj|Hj]%elem_of_app; [|eapply serve_ok; [|exact Hj]; cbn; rewrite Ec, lookup_insert_eq; by eexists].
    destruct (HA j Hj) as (v & code & -> & Hv). split; [intros c' [= <-]; by apply Hknown|exact I].
  - by intros th j ?%elem_of_nil.
  - intros Hrest. rewrite Es, <- !app_assoc. cbn [app]. rewrite (app_assoc A). apply endsClosed_close; [|rewrite Forall_forall in HB|done].
    + apply Forall_app. split; [eapply Forall_impl; [exact HA|]; intros j (v & code & -> & _) [c' [?|?]]; discriminate|].
      eapply Forall_impl; [exact HA'|]. by intros j [? _].
    + intros j c' Hj Hje. destruct (HB j Hj) as [Hm _]. destruct Hje as [->| ->]; cbn in Hm; congruence.
  - by intros th ?%elem_of_nil.
  - intros sid s. rewrite Eo. intros Hs. left. by exists s.
  - intros c' y t sid Hy Hsid. left. destruct (Hback _ _ Hy) as [[-> ->]|Hy']; [by rewrite Esub in Hsid|by exists y].
  - intros c' y y' t sid s _ _ _ _ _ _ _ Hset. by inversion Hset.
  - by intros c' y y' i _ _ _ [?|?].
Qed.

Lemma inv_remove h n c rest inp l spawned h1 : threads h !! n = Some (IRemove c :: rest) -> inv h ->
  exec (IRemove c) inp h = Some (l, spawned, h1) -> inv (after n l rest spawned h1).
Proof.
  intros Hn Hinv. cbn. intros [= <- <- <-].
  destruct (inv_ends _ Hinv _ (list_elem_of_lookup_2 _ _ _ Hn) [] (IRemove c) rest c eq_refl (or_introl eq_refl)) as [(x & Hx & Hcl)|[code ?%elem_of_nil]]; [|done].
  set (h1 := withRegistered _ h). assert (evolves h h1) as Hev by (destruct (evolves_refl h); by split).
  apply (inv_exec h h1 n (IRemove c) [] rest []); try done.
  - intros c' y Hy Hop. cbn in Hy |- *. apply elem_of_difference. split; [by eapply inv_open|]. intros ->%elem_of_singleton. congruence.
  - intros c' Hc'. cbn in Hc' |- *. apply Hinv. by apply elem_of_difference in Hc' as [? _].
  - by intros j ?%elem_of_nil.
  - by intros th j ?%elem_of_nil.
  - by intros th ?%elem_of_nil.
  - intros sid s Hs. left. by exists s.
  - intros c' y t sid Hy Hsid. left. by exists y.
  - intros c' y y' t sid s _ _ _ _ _ _ _ Hset. by inversion Hset.
  - by intros c' y y' i _ _ _ [?|?].
Qed.

Lemma inv_run h n i rest inp l spawned h1 : threads h !! n = Some (i :: rest) -> inv h ->
  exec i inp h = Some (l, spawned, h1) -> inv (after n l rest spawned h1).
Proof.
  intros Hn Hinv E. destruct i; try (eapply inv_ordinary; [exact Hn|exact Hinv|exact (fun x => x)|exact E]).
  - by eapply inv_add.
  - by eapply inv_remove.
  - by eapply inv_gen.
  - by eapply inv_exists.
  - by eapply inv_can.
  - by eapply inv_register.
  - by eapply inv_exists_again.
  - by eapply inv_can_again.
  - by eapply inv_drop.
  - by eapply inv_grant_changed.
  - by eapply inv_recheck.
  - by eapply inv_recheck_one.
Qed.

(** ** The rest of the panel *)

Lemma inv_outside h h' extra : threads h' = threads h ++ extra -> conns h' = conns h -> registered h' = registered h -> objects h' = objects h ->
  inv h -> Forall (Forall (fine h)) extra ->
  (forall t instance, hangs h t instance -> hangs h' t instance) ->
  (forall i, i ∉ gone h' -> i ∉ gone h) -> (forall i, i ∈ instances h' -> i ∉ gone h') -> "" ∉ gone h' ->
  (forall u act instance, instance ∉ gone h' -> can false h u act instance = true ->
     can false h' u act instance = true \/ lapsed (userID u) instance \/ [IGrantChanged (userID u) instance] ∈ extra) ->
  inv h'.
Proof.
  intros Eth Ec Er Eo Hinv Hex Hh Hgone Hin Hempty Hcan.
  assert (forall P, pending P h -> pending P h') as Hp.
  { intros P (th & i & Ht & Hi & HP). exists th, i. split_and!; try done. rewrite Eth. apply elem_of_app. by left. }
  assert (forall x t instance (P : Instr -> Prop), instance ∉ gone h' -> allowed h x t instance -> P (IGrantChanged (userID (cUser x)) instance) ->
    allowed h' x t instance \/ pending P h') as Hall.
  { intros x t instance P Hg [Ha|Ha] HP; [|left; by right]. destruct (Hcan _ _ _ Hg Ha) as [?|[?|Hx]]; [left; by left|left; by right|right]. exists [IGrantChanged (userID (cUser x)) instance]. eexists.
    split_and!; [rewrite Eth; apply elem_of_app; by right|by left|done]. }
  split.
  - rewrite Ec, Er. apply Hinv.
  - rewrite Ec, Er. apply Hinv.
  - intros th Ht. rewrite Eth in Ht. apply elem_of_app in Ht as [Ht|Ht].
    + intros pre j post c E Hj. destruct (inv_ends _ Hinv _ Ht _ _ _ _ E Hj) as [(x & Hx & Hcl)|?]; [left|by right]. exists x. by rewrite Ec.
    + rewrite Forall_forall in Hex. specialize (Hex th Ht). intros pre j post c -> Hj. apply Forall_app in Hex as [_ [[Hf _] _]%Forall_cons]. by destruct Hj as [->| ->].
  - intros th i Ht Hi. rewrite Eth in Ht. apply elem_of_app in Ht as [Ht|Ht].
    + destruct (inv_instr _ Hinv _ _ Ht Hi) as [Hm Hok]. split; [by rewrite Ec|]. destruct i; try exact I; rewrite ?Ec, ?Eo.
      * done.
      * destruct Hok as [? ?]. split; [by apply Hh|done].
      * destruct Hok as [Hok1 Hok2]. split; [by apply Hh|]. intros x Hx. destruct (Hok2 x Hx) as [Hle Hrest]. split; [done|]. intros Hop Hg Eg.
        destruct (Hrest Hop (Hgone _ Hg) Eg) as [Ha|?]; [|right; by apply Hp]. eapply Hall; [exact Hg|exact Ha|by left].
      * done.
      * destruct Hok as (s & Hs & Et & Hi'). exists s. split_and!; try done. intros Hg. by apply Hi', Hgone.
    + rewrite Forall_forall in Hex. specialize (Hex th Ht). rewrite Forall_forall in Hex. eapply fine_ok; [by apply Hex|]. by rewrite Ec.
  - rewrite Eo, Ec. intros sid s Hs. destruct (inv_object _ Hinv _ _ Hs). split; [by apply Hh|done].
  - rewrite Ec, Eo. apply Hinv.
  - done.
  - rewrite Ec, Eo. intros c x t sid s Hx Hop Hsid Hs Hg. destruct (inv_main _ Hinv c x t sid s Hx Hop Hsid Hs (Hgone _ Hg)) as [Ha|?]; [|right; by apply Hp].
    eapply Hall; [exact Hg|exact Ha|constructor].
Qed.

Lemma can_grants h h' u act instance : (Disabled u = false -> userRole u <> RoleAdmin -> grants h' !! (userID u, instance) = grants h !! (userID u, instance)) ->
  can false h' u act instance = can false h u act instance.
Proof.
  intros E. unfold can, Can, decide_, table. cbn [GrantFor]. destruct (Disabled u); [done|]. case_bool_decide; [done|]. by rewrite E.
Qed.

Definition allows (s : Step) : Prop := match s with SGrantExpires user instance => lapsed user instance | _ => True end.

Notation step := (step range order Origin_ csrfOK watch owner).
Notation steps := (steps range order Origin_ csrfOK watch owner).

Ltac outside := eapply inv_outside; [cbn; first [reflexivity|symmetry; apply app_nil_r]|reflexivity..|done| | | | | |]; cbn.

Lemma inv_step s h h' : allows s -> inv h -> step s h = Some h' -> inv h'.
Proof.
  intros Hne Hinv. pose proof (inv_rows _ Hinv) as [Hrows Hempty]. destruct s; cbn [Hub.step].
  - destruct (threads h !! n) as [[|i rest]|] eqn:Hn; try done. destruct (exec i inp h) as [[[l spawned] h1]|] eqn:E; [|done]. intros [= <-]. by eapply inv_run.
  - destruct (ServeHTTP _ _ _ _) as [done_|]; [|by intros [= <-]]. destruct u as [u|]; [|by intros [= <-]]. case_bool_decide; [|done]. intros [= <-].
    outside; auto. repeat constructor.
  - destruct (objects h !! sid) as [s|] eqn:Es; [|done]. destruct (sCancel s); [|done]. intros [= <-]. outside; auto.
    repeat constructor. cbn. apply (inv_object _ Hinv _ _ Es).
  - intros [= <-]. outside; auto. repeat constructor.
  - intros [= <-]. outside; auto; [repeat constructor|]. intros u act i Hi Hcan. destruct (decide (user = userID u /\ instance = i)) as [[-> ->]|Hne'].
    + right. right. by left.
    + left. rewrite <- Hcan. apply can_grants. intros _ _. cbn. apply lookup_partial_alter_ne. naive_solver.
  - case_bool_decide as Hnone; [|done]. intros [= <-]. outside; auto. intros u act i Hi Hcan. left.
    destruct (decide (user = userID u /\ instance = i)) as [[-> ->]|Hne'].
    + unfold can, Can, decide_, table in *. cbn [GrantFor grants] in *. destruct (Disabled u); [done|]. case_bool_decide; [done|].
      case_bool_decide; [done|]. case_bool_decide; [done|]. by rewrite Hnone in Hcan.
    + rewrite <- Hcan. apply can_grants. intros _ _. cbn. apply lookup_insert_ne. naive_solver.
  - intros [= <-]. outside; auto. intros u act i Hi Hcan. destruct (decide (user = userID u /\ instance = i)) as [[-> ->]|Hne']; [right; by left|left].
    rewrite <- Hcan. apply can_grants. intros _ _. cbn. apply lookup_delete_ne. naive_solver.
  - destruct (_ && _) eqn:Eg; [|done]. apply andb_true_iff in Eg as [Eg _]. apply bool_decide_eq_true in Eg. intros [= <-]. outside; auto.
    intros i [->%elem_of_singleton|Hi]%elem_of_union; auto.
  - case_bool_decide as Hi; [done|]. intros [= <-]. outside; auto; [repeat constructor|..].
    + intros t i Hh. unfold hangs in *. cbn. intros [Hni Hg]%not_elem_of_union. rewrite elem_of_singleton in Hni. specialize (Hh Hg).
      destruct (kind t); try done. rewrite lookup_fmap, Hh. cbn. by rewrite bool_decide_eq_false_2.
    + intros i [_ Hg]%not_elem_of_union. done.
    + intros i [Hin Hni]%elem_of_difference [?|?]%elem_of_union; [done|]. by eapply Hrows.
    + set_solver.
    + intros u act i [Hni _]%not_elem_of_union Hcan. left. rewrite elem_of_singleton in Hni. rewrite <- Hcan. apply can_grants. intros _ _. cbn.
      destruct (grants h !! (userID u, i)) as [g|] eqn:Eg; [by apply map_lookup_filter_Some|].
      apply map_lookup_filter_None. by left.
  - destruct (_ && _) eqn:Eg; [|done]. apply andb_true_iff in Eg as [Eg _]. apply bool_decide_eq_true in Eg. intros [= <-]. outside; auto.
    intros t i Hh Hg. specialize (Hh Hg). cbn in *. destruct (kind t); try done. rewrite lookup_insert_ne by congruence. done.
  - intros [= <-]. outside; auto.
  - intros [= <-]. outside; auto. repeat constructor.
  - intros [= <-]. outside; auto. repeat constructor.
  - intros [= <-]. outside; auto. repeat constructor.
Qed.

Lemma inv_new : inv newHub.
Proof. split; cbn; try (intros; set_solver). Qed.

Lemma inv_steps ss h h' : Forall allows ss -> inv h -> steps ss h = Some h' -> inv h'.
Proof.
  intros Hne. revert h. induction Hne as [|s ss Hs Hne IH]; intros h Hinv; cbn; [by intros [= <-]|].
  destruct (step s h) as [h1|] eqn:E; [|done]. apply IH. by eapply inv_step.
Qed.

(** ** Connections end *)

(** A close for a reason, not the one at the end of [serve]. *)
Definition closing (c : nat) (i : Instr) : Prop := exists code, i = IClose c code /\ code <> StatusNormalClosure.

Definition shuts (c : nat) (i : Instr) : Prop := i = ICloseAll \/ closing c i.
Definition signsOut (c : nat) (x : Conn) (i : Instr) : Prop :=
  i = ISessionRevoked (cSession x) \/ i = IUserRevoked (userID (cUser x)) \/ i = IExpiry c \/ closing c i.

Record ends (h : Hub) : Prop := {
  ends_shut : forall c x, conns h !! c = Some x -> closedWith x = None -> closed h = true -> pending (shuts c) h;
  ends_session : forall c x, conns h !! c = Some x -> closedWith x = None -> watch = true -> sessions h !! cSession x = None -> pending (signsOut c x) h;
  ends_owner : forall c x, conns h !! c = Some x -> owner (cSession x) = userID (cUser x);
  ends_add : forall th u session at_ csrf, th ∈ threads h -> IAdd u session at_ csrf ∈ th -> owner session = userID u
}.

(** What [exec] may do to connections, whatever the instruction. *)
Definition arrives (h : Hub) (i : Instr) (l : list Instr) (c : nat) (x : Conn) : Prop :=
  exists u session at_ csrf, i = IAdd u session at_ csrf /\ cUser x = u /\ cSession x = session /\
    (closed h = true -> closedWith x <> None) /\ (watch = true -> IExpiry c ∈ l).

Definition noAdd (j : Instr) : Prop := match j with IAdd _ _ _ _ => False | _ => True end.
Definition traced (h : Hub) (i : Instr) (o : Out) : Prop :=
  match o with
  | None => True
  | Some (l, spawned, h1) =>
      sameRows h h1 /\ (closed h1 = closed h \/ i = IHubClose) /\ Forall noAdd l /\ Forall (Forall noAdd) spawned /\
      (forall c x', conns h1 !! c = Some x' -> (exists x, conns h !! c = Some x /\ grown x x') \/ arrives h i l c x')
  end.

Lemma traced_on h i c k : (forall x, conns h !! c = Some x -> traced h i (k x)) -> traced h i (on h c k).
Proof. unfold on. destruct (conns h !! c) as [x|]; [|done]. intros Hk. by apply Hk. Qed.
Lemma traced_select h i n cases : Forall (fun b => traced h i b.2) cases -> traced h i (select n cases).
Proof.
  intros Hc. destruct (select n cases) as [r|] eqn:E; [|done]. apply select_Some in E. rewrite Forall_forall in Hc. exact (Hc _ E).
Qed.
Lemma traced_some h i l spawned h1 : sameRows h h1 -> closed h1 = closed h \/ i = IHubClose -> Forall noAdd l -> Forall (Forall noAdd) spawned ->
  (forall c x', conns h1 !! c = Some x' -> exists x, conns h !! c = Some x /\ grown x x') -> traced h i (Some (l, spawned, h1)).
Proof. intros. split_and!; try done. intros c x' Hx'. left. eauto. Qed.
Lemma back_same h c x' : conns h !! c = Some x' -> exists x, conns h !! c = Some x /\ grown x x'.
Proof. intros Hx. exists x'. split; [done|apply same_conn]. Qed.
Lemma back_set h c x y : conns h !! c = Some x -> grown x y -> forall c' x', <[c := y]> (conns h) !! c' = Some x' ->
  exists x, conns h !! c' = Some x /\ grown x x'.
Proof. intros Hx Hg c' x' [[<- <-]|[_ Hx']]%lookup_insert_Some; [by eexists|by apply back_same]. Qed.

Lemma noAdd_map {A} (f : A -> Instr) (l : list A) : (forall a, noAdd (f a)) -> Forall noAdd (f <$> l).
Proof. intros Hf. apply Forall_fmap, Forall_forall. intros a _. apply Hf. Qed.
Lemma noAdd_push c t seq p : noAdd (push c t seq p).
Proof. unfold push. by destruct (classOf t). Qed.

Ltac no_add :=
  repeat match goal with
  | |- Forall _ (_ <$> _) => apply noAdd_map; intros; exact I
  | |- Forall _ (_ ++ _) => apply Forall_app; split
  | |- Forall _ (_ :: _) => constructor
  | |- Forall _ [] => constructor
  | |- Forall _ (match ?x with _ => _ end) => destruct x
  | |- Forall _ (if ?x then _ else _) => destruct x
  | |- noAdd (if ?x then _ else _) => destruct x
  | |- noAdd (push _ _ _ _) => apply noAdd_push
  | |- noAdd _ => exact I
  end.
Ltac back :=
  cbn; first [ apply back_same
             | eapply back_set; [eassumption|split_and!; [reflexivity|reflexivity|cbn; lia|cbn; repeat case_match; done]] ].
Ltac traced_tac :=
  repeat match goal with
  | |- traced _ _ (on _ _ _) => apply traced_on; intros ?x ?Hx
  | |- traced _ _ (select _ _) => apply traced_select; repeat first [apply Forall_nil_2|apply Forall_cons_2]; cbn [snd]
  | |- traced _ _ None => exact I
  | |- traced _ _ (match ?x with _ => _ end) => destruct x eqn:?
  | |- traced _ _ (if ?x then _ else _) => destruct x eqn:?
  | |- traced _ _ (let '(_, _) := ?x in _) => destruct x eqn:?
  | |- traced _ _ (continue _ (if ?x then _ else _)) => destruct x eqn:?
  | |- traced _ _ (continue _ _) => apply traced_some; [done|first [by left|by right]|no_add|constructor|back]
  | |- traced _ _ (Some _) => apply traced_some; [done|by left|no_add|no_add|back]
  end.

Lemma exec_traced i inp h : (forall u s a f, i <> IAdd u s a f) -> traced h i (exec i inp h).
Proof.
  intros Hna. destruct i; try (exfalso; by eapply Hna); cbn [Hub.exec];
    unfold expiryCheck, readLoop, subscribe, register, openSource, pushLossless, pushLossy, stuckTooLong, outer, inner, writeFrame, write, sendLive, dispatch;
    traced_tac.
Qed.

Lemma whoseSession_in h c x session : inv h -> conns h !! c = Some x -> closedWith x = None -> cSession x = session -> c ∈ whoseSession order h session.
Proof.
  intros Hinv Hx Hop Hs. unfold whoseSession. apply list_elem_of_filter. split; [|unfold snapshot; apply order_ok; by eapply inv_open].
  rewrite Hx. cbn. by rewrite Hs.
Qed.

Lemma add_arrives h u session at_ csrf inp l spawned h1 : exec (IAdd u session at_ csrf) inp h = Some (l, spawned, h1) ->
  sameRows h h1 /\ closed h1 = closed h /\ Forall noAdd l /\ spawned = [] /\
  forall c x', conns h1 !! c = Some x' -> (exists x, conns h !! c = Some x /\ grown x x') \/ arrives h (IAdd u session at_ csrf) l c x'.
Proof.
  assert (forall c, Forall noAdd (serve watch c)) as Hs by (intros c; unfold serve; no_add).
  assert (forall c A, watch = true -> IExpiry c ∈ A ++ serve watch c) as Hw.
  { intros c A ->. apply elem_of_app. right. by left. }
  cbn. unfold add. set (c := fresh (dom (conns h))). destruct (closed h) eqn:Ecl; intros [= <- <- <-]; (split; [done|]); (split; [done|]).
  - split; [apply Hs|]. split; [done|]. intros c' x' Hx'. cbn in Hx'. apply lookup_insert_Some in Hx' as [[<- <-]|[_ Hx']]; [right|left; by apply back_same].
    exists u, session, at_, csrf. split_and!; try done. exact (Hw c []).
  - split; [apply Forall_app; split; [|apply Hs]; match goal with |- Forall _ (match ?o with _ => _ end) => destruct o end; no_add|]. split; [done|].
    intros c' x' Hx'. cbn in Hx'. apply lookup_insert_Some in Hx' as [[<- <-]|[_ Hx']]; [right|left; by apply back_same].
    exists u, session, at_, csrf. split_and!; try done; [congruence|]. apply Hw.
Qed.

Lemma exec_all i inp h l spawned h1 : exec i inp h = Some (l, spawned, h1) ->
  sameRows h h1 /\ (closed h1 = closed h \/ i = IHubClose) /\ Forall noAdd l /\ Forall (Forall noAdd) spawned /\
  (forall c x', conns h1 !! c = Some x' -> (exists x, conns h !! c = Some x /\ grown x x') \/ arrives h i l c x').
Proof.
  intros E. assert ((exists u s a f, i = IAdd u s a f) \/ forall u s a f, i <> IAdd u s a f) as [(u & s & a & f & ->)|Hna].
  { destruct i; try (right; discriminate). left. by eexists _, _, _, _. }
  - destruct (add_arrives _ _ _ _ _ _ _ _ _ E) as (? & ? & ? & -> & ?). split_and!; auto.
  - pose proof (exec_traced i inp h Hna) as Ht. by rewrite E in Ht.
Qed.

Lemma ends_run h n i rest inp l spawned h1 : threads h !! n = Some (i :: rest) -> inv h -> ends h ->
  exec i inp h = Some (l, spawned, h1) -> ends (after n l rest spawned h1).
Proof.
  intros Hn Hinv Hends E. destruct (exec_all _ _ _ _ _ _ E) as ((Eth & _ & _ & _ & _ & Ese) & Hcl & Hl & Hsp & Hback).
  assert (forall P, pending P h -> ~ P i -> pending P (after n l rest spawned h1)) as Hpend by (intros; by eapply after_pending).
  assert (forall P j, j ∈ l -> P j -> pending P (after n l rest spawned h1)) as Hnew by (intros; by eapply after_new).
  assert (forall c x', i = IClose c x' -> forall y, conns h1 !! c = Some y -> closedWith y <> None) as Hclose.
  { intros c code -> y Hy. destruct (close_shuts _ _ _ _ _ _ _ E) as (z & Hz & Hzc). congruence. }
  assert (forall th u session at_ csrf, th ∈ threads (after n l rest spawned h1) -> IAdd u session at_ csrf ∈ th -> owner session = userID u) as Hadd.
  { intros th u session at_ csrf Ht Hj. destruct (after_instr _ _ _ _ _ _ _ Hn Eth _ _ Ht Hj) as [Hj'|[(th' & Ht' & Hj')|(th' & Ht' & Hj')]].
    - rewrite Forall_forall in Hl. by destruct (Hl _ Hj').
    - rewrite Forall_forall in Hsp. specialize (Hsp _ Ht'). rewrite Forall_forall in Hsp. by destruct (Hsp _ Hj').
    - by eapply ends_add. }
  split; [..|exact Hadd].
  - intros c x' Hx' Hop Hclosed. cbn in Hx'. change (closed h1 = true) in Hclosed. destruct (Hback _ _ Hx') as [(x & Hx & (_ & _ & _ & Hmono))|(u & s & a & f & -> & _ & _ & Hc & _)].
    2:{ destruct Hcl as [Hcl|?]; [|done]. exfalso. apply Hc; congruence. }
    specialize (Hmono Hop). destruct (decide (i = IHubClose)) as [->|Hni].
    { eapply (Hnew _ ICloseAll); [|by left]. cbn in E. injection E as <- _ _. by left. }
    destruct Hcl as [Hcl|?]; [|done]. rewrite Hcl in Hclosed. pose proof (ends_shut _ Hends _ _ Hx Hmono Hclosed) as Hp.
    destruct (decide (i = ICloseAll)) as [->|Hni2].
    + cbn in E. injection E as <- _ _. eapply (Hnew _ (IClose c StatusGoingAway)); [|right; by exists StatusGoingAway].
      apply list_elem_of_fmap. exists c. split; [done|]. unfold snapshot. apply order_ok. by eapply inv_open.
    + apply Hpend; [exact Hp|]. intros [->|(code & -> & _)]; [done|]. by eapply Hclose.
  - intros c x' Hx' Hop Hw Hnone. cbn in Hx'. change (sessions h1 !! cSession x' = None) in Hnone. rewrite Ese in Hnone.
    destruct (Hback _ _ Hx') as [(x & Hx & (Eu & Es & _ & Hmono))|(u & s & a & f & -> & _ & _ & _ & Hexp)].
    2:{ eapply (Hnew _ (IExpiry c)); [by apply Hexp|]. right. right. by left. }
    specialize (Hmono Hop). rewrite Es in Hnone. pose proof (ends_session _ Hends _ _ Hx Hmono Hw Hnone) as Hp.
    assert (forall j, signsOut c x j -> signsOut c x' j) as Himp by (unfold signsOut; by rewrite Es, Eu).
    apply (pending_impl (signsOut c x)); [exact Himp|].
    assert (IClose c statusSessionExpired ∈ l -> pending (signsOut c x) (after n l rest spawned h1)) as Hdone.
    { intros Hin. eapply Hnew; [exact Hin|]. right. right. right. by exists statusSessionExpired. }
    destruct (decide (i = ISessionRevoked (cSession x))) as [->|H1].
    { apply Hdone. cbn in E. injection E as <- _ _. apply list_elem_of_fmap. exists c. split; [done|]. by eapply whoseSession_in. }
    destruct (decide (i = IUserRevoked (userID (cUser x)))) as [->|H2].
    { apply Hdone. cbn in E. injection E as <- _ _. apply list_elem_of_fmap. exists c. split; [done|]. by eapply whoseUser_in. }
    destruct (decide (i = IExpiry c)) as [->|H3].
    { apply Hdone. cbn in E. unfold expiryCheck, on in E. rewrite Hx, Hnone in E. destruct (fault inp); injection E as <- _ _; by left. }
    apply Hpend; [exact Hp|]. intros [?|[?|[?|(code & -> & _)]]]; try done. by eapply Hclose.
  - intros c x' Hx'. cbn in Hx'. destruct (Hback _ _ Hx') as [(x & Hx & (Eu & Es & _))|(u & s & a & f & -> & -> & -> & _)].
    + rewrite Eu, Es. by eapply ends_owner.
    + eapply ends_add; [exact Hends|by eapply list_elem_of_lookup_2|by left].
Qed.

Lemma ends_outside h h' extra : threads h' = threads h ++ extra -> conns h' = conns h -> closed h' = closed h -> ends h ->
  (forall th u session at_ csrf, th ∈ extra -> IAdd u session at_ csrf ∈ th -> owner session = userID u) ->
  (forall session, sessions h' !! session = None -> sessions h !! session = None \/ [ISessionRevoked session] ∈ extra \/ [IUserRevoked (owner session)] ∈ extra) ->
  ends h'.
Proof.
  intros Eth Ec Ecl Hends Hadd Hsess.
  assert (forall P, pending P h -> pending P h') as Hp.
  { intros P (th & i & Ht & Hi & HP). exists th, i. split_and!; try done. rewrite Eth. apply elem_of_app. by left. }
  assert (forall P i, [i] ∈ extra -> P i -> pending P h') as Hnew.
  { intros P i Hi HP. exists [i], i. split_and!; [rewrite Eth; apply elem_of_app; by right|by left|done]. }
  split; rewrite ?Ec.
  - intros c x Hx Hop. rewrite Ecl. intros Hcl. by eapply Hp, ends_shut.
  - intros c x Hx Hop Hw Hnone. destruct (Hsess _ Hnone) as [Hn|[Hi|Hi]].
    + by eapply Hp, ends_session.
    + eapply Hnew; [exact Hi|by left].
    + eapply Hnew; [exact Hi|]. right. left. by rewrite (ends_owner _ Hends _ _ Hx).
  - apply Hends.
  - intros th u session at_ csrf Ht Hj. rewrite Eth in Ht. apply elem_of_app in Ht as [Ht|Ht]; [by eapply ends_add|by eapply Hadd].
Qed.

Lemma ends_step s h h' : inv h -> ends h -> step s h = Some h' -> ends h'.
Proof.
  intros Hinv Hends. destruct s; cbn [Hub.step].
  1: { destruct (threads h !! n) as [[|i rest]|] eqn:Hn; try done. destruct (exec i inp h) as [[[l spawned] h1]|] eqn:E; [|done]. intros [= <-]. by eapply ends_run. }
  all: repeat case_match; try done; intros [= <-]; try exact Hends;
    (eapply ends_outside; [cbn; first [reflexivity|symmetry; apply app_nil_r]|reflexivity|reflexivity|exact Hends|..]); cbn;
    try (intros th u' session' at' csrf' Ht Hj; repeat (apply elem_of_cons in Ht as [->|Ht]); try (by apply elem_of_nil in Ht);
         repeat (apply elem_of_cons in Hj as [Hj|Hj]; [try discriminate|]); try (by apply elem_of_nil in Hj)); auto.
  - injection Hj as -> -> _ _. by match goal with H : bool_decide _ = true |- _ => apply bool_decide_eq_true in H end.
  - intros s Hs. left. apply lookup_insert_None in Hs. tauto.
  - intros s Hs. destruct (decide (session = s)) as [->|Hne]; [right; left; by left|left]. by rewrite lookup_delete_ne in Hs.
  - intros s Hs. destruct (decide (owner s = user)) as [<-|Hne]; [right; right; by left|left]. apply map_lookup_filter_None in Hs as [?|Hs]; [done|].
    destruct (sessions h !! s) as [y|] eqn:E; [|done]. by destruct (Hs y eq_refl).
Qed.

Lemma reached ss h : Forall allows ss -> steps ss newHub = Some h -> inv h /\ ends h.
Proof.
  assert (ends newHub) as Hnew by (split; cbn; try done; intros; set_solver). generalize inv_new, Hnew. generalize newHub. intros h0 Hinv Hends Hall. revert h0 Hinv Hends.
  induction Hall as [|s ss Hs Hall IH]; intros h0 Hinv Hends; cbn; [by intros [= <-]|].
  destruct (step s h0) as [h1|] eqn:E; [|done]. apply IH; [by eapply inv_step|by eapply ends_step].
Qed.
End Steps.
End Safe.

Section Reached.
Context (range : gmap string bucket -> list (string * bucket)) (order : gset nat -> list nat).
Context (Origin_ : string) (csrfOK : string -> string -> bool) (watch : bool) (owner : string -> string).

(** C5. No grant is lost sight of: after any interleaving of clients, sources,
    writers and the panel's writes, a topic an open connection holds is one its user
    may see now, or one whose instance is gone, or whose grant ran out by itself, or
    something has still to decide about it: the grant's change not yet announced or
    its recheck under way, or the subscribing client's second look.  So a change
    that races a subscription is never missed by both. *)
Theorem grants_followed ss h c x t sid :
  (forall s c, c ∈ order s <-> c ∈ s) -> steps range order Origin_ csrfOK watch owner ss newHub = Some h ->
  conns h !! c = Some x -> closedWith x = None -> subs x !! t = Some sid ->
  exists s, objects h !! sid = Some s /\ sTopic s = t /\
    (sInstance s ∉ gone h -> SGrantExpires (userID (cUser x)) (sInstance s) ∉ ss ->
       can false h (cUser x) (actionOf t) (sInstance s) = true \/ pending (settles c t sid (userID (cUser x)) (sInstance s)) h).
Proof.
  intros Horder Hrun Hx Hop Hsid. set (lapsed := fun u i => SGrantExpires u i ∈ ss).
  assert (Forall (allows lapsed) ss) as Hall by (apply Forall_forall; intros s Hs; by destruct s).
  destruct (reached lapsed _ _ _ _ _ _ Horder ss h Hall Hrun) as [Hinv _]. destruct (inv_sub _ _ Hinv _ _ _ _ Hx Hsid) as (s & Hs & Et).
  exists s. split_and!; [done..|]. intros Hgone Hnl. destruct (inv_main _ _ Hinv c x t sid s Hx Hop Hsid Hs Hgone) as [[?|?]|?]; [by left|done|by right].
Qed.

End Reached.

(** ** What the writer tells *)

(** The frames the writer makes of one topic's messages, from what it saw last. *)
Fixpoint framed (last : gmap Topic N) (t : Topic) (l : list (N * Payload)) : list Payload :=
  match l with
  | [] => []
  | (seq, p) :: l => let '(gap, last) := gapBefore last t seq in (match gap with Some g => [g] | None => [] end) ++ p :: framed last t l
  end.
(** The numbers a client of the console accounts for. *)
Definition from (first count : N) : list N := (fun i => (first + N.of_nat i)%N) <$> seq 0 (N.to_nat count).
Definition told (p : Payload) : list N :=
  match p with ConsoleMsg _ seq _ _ _ => [seq] | GapMsg _ dropped first => from first dropped | _ => [] end.

Lemma from_add a n m : from a (n + m) = from a n ++ from (a + n) m.
Proof.
  unfold from. rewrite N2Nat.inj_add, seq_app, fmap_app. f_equal. rewrite Nat.add_0_l. rewrite <- (Nat.add_0_r (N.to_nat n)) at 1.
  rewrite <- fmap_add_seq, <- list_fmap_compose. apply list_fmap_ext. intros i y _. cbn. lia.
Qed.

Lemma from_one a : from a 1 = [a].
Proof. unfold from. change (N.to_nat 1) with 1%nat. cbn [seq fmap list_fmap]. by rewrite N.add_0_r. Qed.

(** Lines numbered upwards from [seen], no gap too wide for an int32. *)
Fixpoint climbs (seen : N) (l : list Entry) : Prop :=
  match l with
  | [] => True
  | e :: l => (seen < eSeq e <= seen + MaxInt32 + 1)%N /\ climbs (eSeq e) l
  end.
Fixpoint topmost (seen : N) (l : list Entry) : N := match l with [] => seen | e :: l => topmost (eSeq e) l end.

Lemma topmost_le seen l : climbs seen l -> (seen <= topmost seen l)%N.
Proof. revert seen. induction l as [|e l IH]; intros seen; cbn; [lia|]. intros [Hs Hl]. specialize (IH _ Hl). lia. Qed.

