(* ===== verification/HubWitness.v ===== *)
(** Concrete runs of the hub: those the properties are tried on, and those in which it
    does not do what its comments say. *)
From S2P Require Import Prelude GoBytes Authz Argon Auth Errcode Limiter Topic Ring Hub HubSafe.

Open Scope Z_scope.

Definition ann : User := mkUser "u1" "member" false.
Definition everyMember (session : string) : string := "u1".
Definition goodToken (session token : string) : bool := bool_decide (token = "tok").
Definition run (ss : list Step) (h : Hub) : option Hub := steps inOrder elements "https://panel" goodToken true everyMember ss h.
Lemma elements_ok (s : gset nat) (c : nat) : c ∈ elements s <-> c ∈ s.
Proof. apply elem_of_elements. Qed.

(** The clock, and what goes right. *)
Definition inp (m : ReadResult) (r : list Message) : Input := mkInput 10 false 0 m r.
Definition go (n : nat) : Step := SRun n (inp NotText []).
Definition says (n : nat) (typ : string) (topics : list string) : Step := SRun n (inp (ClientSent (mkClientMsg typ topics "" "")) []).

(** A panel with one server, one viewer of it, and her browser connected. *)
Definition connect (n : nat) : list Step := [SUpgrade (Some ann) "s1" "https://panel" "tok" 5; go n; go n; go n].
Definition opening : list Step :=
  [SInstanceMade "i1"; SGrantAdded "u1" "i1" (mkGrant "viewer" []); SSessionMade "s1" 1000] ++ connect 0.

Definition line (n : N) : Message := consoleMessage "i1" (mkEntry n false (mkLine 0 "stdout" "text")).
Definition many (k : nat) (s : Step) : list Step := replicate k s.
Definition subscribed (t : string) (r : list Message) : list Step :=
  says 0 "subscribe" [t] :: many 6 (go 0) ++ [SRun 0 (inp NotText r)] ++ many 2 (go 0) ++ (if bool_decide (r = []) then [] else [go 0]).
(** A live message, on goroutine [n]. *)
Definition live (n : nat) (m : Message) : list Step := SLive 0 m :: many 4 (go n).
Definition drain (k : nat) : list Step := many k (go 2).
Definition wrote (h : Hub) : list Payload := default [] (written <$> conns h !! 0%nat).

(** ** Where the hub strays *)

(** A stream that restarts is announced by a message without a number, which the hub
    numbers as the subscription's first; the next line then looks 56 lines away. *)
Example reset_reports_a_gap :
  wrote <$> run (opening ++ subscribed "instance.i1.console" [line 57] ++ drain 8 ++
    live 4 (consoleLive "i1" (mkEntry 57 true (mkLine 0 "" ""))) ++ drain 5 ++ live 5 (line 58) ++ drain 5) newHub =
  Some [SubscribedMsg "instance.i1.console" 57; mPayload (line 57); ResetMsg "instance.i1.console";
        GapMsg "instance.i1.console" 56 2; mPayload (line 58)].
Proof. vm_compute. reflexivity. Qed.

(** A writer that has found no lossless frame waits on both queues: what a source
    sends right after a subscription can overtake its acknowledgement and replay, and
    the line after it is reported as a gap. *)
Example live_overtakes_replay :
  wrote <$> run (opening ++ drain 1 ++ subscribed "instance.i1.console" [line 57] ++ live 4 (line 58) ++
    [SRun 2 (mkInput 10 false 1 NotText [])] ++ drain 3 ++ drain 8 ++ live 5 (line 59) ++ drain 5) newHub =
  Some [mPayload (line 58); SubscribedMsg "instance.i1.console" 57; mPayload (line 57);
        GapMsg "instance.i1.console" 1 58; mPayload (line 59)].
Proof. vm_compute. reflexivity. Qed.

(** A grant that runs out is announced by nobody: the console goes on. *)
Example expired_grant_keeps_streaming :
  (fun h => (can false h ann ConsoleRead "i1", wrote h)) <$>
    run (opening ++ subscribed "instance.i1.console" [] ++ drain 4 ++ [SGrantExpires "u1" "i1"] ++ live 4 (line 1) ++ drain 5) newHub =
  Some (false, [SubscribedMsg "instance.i1.console" 0; mPayload (line 1)]).
Proof. vm_compute. reflexivity. Qed.

(** The deletion of an instance does not tell a subscription that was let through and
    not yet registered: it stays, on an instance that is gone, and nothing is left to
    end it. *)
Example deleted_instance_keeps_topic :
  (fun h => (size <$> (subs <$> conns h !! 0%nat), elements (instances h), hd [] (threads h) !! 0%nat, threads h !! 4%nat)) <$>
    run (opening ++ says 0 "subscribe" ["instance.i1.console"] :: many 5 (go 0) ++ [SInstanceDeleted "i1"; go 4; go 4] ++ many 4 (go 0)) newHub =
  Some (Some 1%nat, [], Some (ITopics 0 true []), Some []).
Proof. vm_compute. reflexivity. Qed.

(** The ninth connection closes the oldest, and so does the tenth, which is the same
    one while its socket lingers: twelve upgrades leave eleven connections open. *)
Definition upgrade (k : nat) : list Step := [SUpgrade (Some ann) "s1" "https://panel" "tok" (Z.of_nat k); go k; go k].
Definition openOnes (h : Hub) : nat := size (filter (fun kv => closedWith kv.2 = None) (conns h)).
Example caps_miss_lingering :
  openOnes <$> run (SSessionMade "s1" 1000 :: concat (upgrade <$> [0; 2; 4; 6; 8; 10; 12; 14; 16; 17; 18; 19]%nat)) newHub = Some 11%nat /\
  (maxConnectionsPerSession < 11)%nat.
Proof. split; [vm_compute; reflexivity|unfold maxConnectionsPerSession; lia]. Qed.

(** ** The properties at a race *)

(** A subscription let through, its grant taken away and the recheck done, then
    registered: the second look is still to come. *)
Definition race : list Step :=
  opening ++ says 0 "subscribe" ["instance.i1.console"] :: many 5 (go 0) ++ [SGrantWritten "u1" "i1" None; go 4; go 4] ++ many 1 (go 0).

Lemma run_at ss (f : Hub -> bool) : f <$> run ss newHub = Some true -> exists h, run ss newHub = Some h /\ f h = true.
Proof. destruct (run ss newHub) as [h|]; [|done]. intros [= E]. by exists h. Qed.

Example grants_followed_witness :
  exists h x sid, run race newHub = Some h /\ conns h !! 0%nat = Some x /\ subs x !! ConsoleTopic "i1" = Some sid /\
    can false h ann ConsoleRead "i1" = false /\ exists s, objects h !! sid = Some s /\
    pending (settles 0 (ConsoleTopic "i1") sid "u1" (sInstance s)) h.
Proof.
  destruct (run_at race (fun h => match conns h !! 0%nat with
    | Some x => bool_decide (cUser x = ann) && bool_decide (closedWith x = None) && negb (can false h ann ConsoleRead "i1") &&
        match subs x !! ConsoleTopic "i1" with
        | Some sid => bool_decide ((sInstance <$> objects h !! sid) = Some "i1") && bool_decide ("i1" ∉ gone h)
        | None => false
        end
    | None => false
    end)) as (h & Hrun & Hf); [vm_compute; reflexivity|].
  destruct (conns h !! 0%nat) as [x|] eqn:Hx; [|discriminate Hf]. destruct (subs x !! ConsoleTopic "i1") as [sid|] eqn:Hsid; [|by rewrite !andb_false_r in Hf].
  rewrite !andb_true_iff, !bool_decide_eq_true, negb_true_iff in Hf. destruct Hf as [[[Hu Hop] Hcan] [Hi Hg]].
  exists h, x, sid. split; [exact Hrun|]. split; [exact Hx|]. split; [exact Hsid|]. split; [exact Hcan|].
  destruct (grants_followed inOrder elements "https://panel" goodToken true everyMember race h 0 x (ConsoleTopic "i1") sid elements_ok Hrun Hx Hop Hsid)
    as (s & Hs & _ & Hok). exists s. split; [exact Hs|].
  rewrite Hs in Hi. cbn in Hi. injection Hi as Hi. rewrite Hi, Hu in *.
  destruct (Hok Hg) as [Hc|Hp]; [intros Hin; apply list_elem_of_In in Hin; vm_compute in Hin; repeat destruct Hin as [Hin|Hin]; try discriminate Hin; destruct Hin| |exact Hp].
  cbn [actionOf ConsoleTopic kind] in Hc. rewrite Hcan in Hc. discriminate Hc.
Defined.

(** A session signed out while its browser listens. *)
Definition signedOut : list Step := opening ++ [SSessionDeleted "s1"].

