(* ===== verification/Lease.v ===== *)
(** internal/store/lease.go: one daemon per database, by a file lock on its own host
    and a heartbeat row that reaches a second one.

    The two kv rows are read as the JSON they hold; [Unreadable] is text that does not
    decode.  A lock belongs to a data root: two paths are one root exactly when they
    are the same directory on the same host. *)
From S2P Require Import Prelude Lifecycle Sql.

Open Scope Z_scope.

(** ** The rows *)

Record Lease := mkLease { Owner : string; Host : string; PID : Z; ExpiresAt : Z }.
#[export] Instance Lease_eq_dec : EqDecision Lease.
Proof. solve_decision. Defined.

Inductive stored (A : Type) := Missing | Unreadable | Held (a : A).
Arguments Missing {A}. Arguments Unreadable {A}. Arguments Held {A} a.

Record LDB := mkLDB { panelID : stored string; leaseRow : stored Lease }.
Definition withLease (l : stored Lease) (db : LDB) : LDB := mkLDB (panelID db) l.
Definition withPanel (p : stored string) (db : LDB) : LDB := mkLDB p (leaseRow db).

Definition heldBy : string := "daemon lease held by another process".
Definition ErrLeaseHeld : TxErr := EHook heldBy.
Definition ErrDecode : TxErr := EHook "decode".
(** A data root, or its lock file, that does not open. *)
Definition ErrRoot : TxErr := EHook "open data.root".

Definition withLeaseRow (fn : option Lease -> Tx LDB unit) : Tx LDB unit :=
  inTx (let! raw := readq leaseRow in
        match raw with
        | Missing => fn None
        | Unreadable => tfail ErrDecode
        | Held cur => fn (Some cur)
        end).

Definition claim (owner host : string) (pid ttl now : Z) : Tx LDB unit := withLeaseRow (fun cur =>
  if match cur with Some l => negb (bool_decide (Owner l = owner)) && (now <? ExpiresAt l) | None => false end
  then tfail ErrLeaseHeld
  else writeq (withLease (Held (mkLease owner host pid (now + ttl))))).

Definition releaseRow (owner : string) : Tx LDB unit := withLeaseRow (fun cur =>
  if match cur with Some l => negb (bool_decide (Owner l = owner)) | None => false end then tret tt
  else writeq (withLease Missing)).

(** [Owner]; [newID] and [bootID] are what [randomID] draws. *)
Definition OwnerOf (newID bootID : string) : Tx LDB string :=
  let! panel := readq panelID in
  match panel with
  | Held p => tret (p +:+ ":" +:+ bootID)
  | Unreadable => tfail ErrDecode
  | Missing => let! _ := writeq (withPanel (Held newID)) in tret (newID +:+ ":" +:+ bootID)
  end.

(** ** Daemons *)

(** [DaemonLease]; [until] is the expiry it last wrote, which it need not have
    written for long. *)
Record Daemon := mkDaemon { root : string; owner : string; host : string; pid : Z; ttl : Z; until : Z }.
Definition renewed (now : Z) (d : Daemon) : Daemon := mkDaemon (root d) (owner d) (host d) (pid d) (ttl d) (now + ttl d).

(** The database, who holds each root's lock, the daemons there are, the owners there
    have been and the latest reading of the clock. *)
Record World := mkWorld {
  table : LDB; flocks : gmap string nat; daemons : gmap nat Daemon; owners : gset string; clock : Z
}.
Definition withTable (t : LDB) (w : World) : World := mkWorld t (flocks w) (daemons w) (owners w) (clock w).
Definition withFlocks (f : gmap string nat -> gmap string nat) (w : World) : World :=
  mkWorld (table w) (f (flocks w)) (daemons w) (owners w) (clock w).
Definition withDaemons (f : gmap nat Daemon -> gmap nat Daemon) (w : World) : World :=
  mkWorld (table w) (flocks w) (f (daemons w)) (owners w) (clock w).

Definition AcquireDaemonLease (n : nat) (d : Daemon) (opens : bool) (now : Z) (fs : faults) (w : World) : result TxErr unit * World :=
  if negb opens then (Err ErrRoot, w)
  else match flocks w !! root d with
       | Some _ => (Err ErrLeaseHeld, w)
       | None =>
           match claim (owner d) (host d) (pid d) (ttl d) now (table w, fs) with
           | (Err e, (t, _)) => (Err e, withTable t w)
           | (Ok _, (t, _)) => (Ok tt, withDaemons <[n := renewed now d]> (withFlocks <[root d := n]> (withTable t w)))
           end
       end.

(** One tick of [Renew]: what it returns, if it returns. *)
Definition renewTick (n : nat) (d : Daemon) (now : Z) (fs : faults) (w : World) : option TxErr * World :=
  match claim (owner d) (host d) (pid d) (ttl d) now (table w, fs) with
  | (Ok _, (t, _)) => (None, withDaemons <[n := renewed now d]> (withTable t w))
  | (Err (EHook m), (t, _)) => (if bool_decide (m = heldBy) then Some ErrLeaseHeld else None, withTable t w)
  | (Err _, (t, _)) => (None, withTable t w)
  end.

(** The lock goes with the process, closed or killed. *)
Definition unlock (n : nat) (d : Daemon) (w : World) : World := withDaemons (delete n) (withFlocks (delete (root d)) w).
Definition Release (n : nat) (d : Daemon) (fs : faults) (w : World) : result TxErr unit * World :=
  let '(r, (t, _)) := releaseRow (owner d) (table w, fs) in (r, unlock n d (withTable t w)).

Definition DaemonRunning (dataRoot : string) (opens : bool) (w : World) : result TxErr bool :=
  if negb opens then Err ErrRoot else Ok (bool_decide (is_Some (flocks w !! dataRoot))).

(** ** Steps *)

(** Every daemon reads one clock; [randomID] does not repeat itself. *)
Inductive Step :=
| Start (n : nat) (r h newID bootID : string) (p t : Z) (opens : bool) (now : Z) (fs fs' : faults)
| Renew (n : nat) (now : Z) (fs : faults)
| Stop (n : nat) (fs : faults)
| Die (n : nat)
| Pass (now : Z).

Definition step (s : Step) (w : World) : option World :=
  match s with
  | Start n r h newID bootID p t opens now fs fs' =>
      if bool_decide (is_Some (daemons w !! n)) || (now <? clock w) then None
      else match OwnerOf newID bootID (table w, fs) with
           | (Err _, (tb, _)) => Some (withTable tb w)
           | (Ok o, (tb, _)) =>
               if bool_decide (o ∈ owners w) then None
               else Some (AcquireDaemonLease n (mkDaemon r o h p t 0) opens now fs'
                            (mkWorld tb (flocks w) (daemons w) ({[o]} ∪ owners w) now)).2
           end
  | Renew n now fs =>
      match daemons w !! n with
      | Some d => if now <? clock w then None
                  else Some (renewTick n d now fs (mkWorld (table w) (flocks w) (daemons w) (owners w) now)).2
      | None => None
      end
  | Stop n fs => match daemons w !! n with Some d => Some (Release n d fs w).2 | None => None end
  | Die n => match daemons w !! n with Some d => Some (unlock n d w) | None => None end
  | Pass now => if now <? clock w then None else Some (mkWorld (table w) (flocks w) (daemons w) (owners w) now)
  end.

Fixpoint steps (l : list Step) (w : World) : option World :=
  match l with
  | [] => Some w
  | s :: l => match step s w with Some w => steps l w | None => None end
  end.

(** A database no daemon has opened, with whatever rows it has. *)
Definition fresh (db : LDB) (now : Z) : World := mkWorld db ∅ ∅ ∅ now.

(** ** Laws *)

Lemma withLeaseRow_Err fn s e s' : withLeaseRow fn s = (Err e, s') -> s'.1 = s.1.
Proof. apply inTx_Err. Qed.

Lemma withLeaseRow_Ok fn s s' : withLeaseRow fn s = (Ok tt, s') ->
  exists cur fs1 s1, match leaseRow s.1 with Missing => cur = None | Held l => cur = Some l | Unreadable => False end /\
    fn cur (s.1, fs1) = (Ok tt, s1) /\ s'.1 = s1.1.
Proof.
  intros (fs & s1 & H & Hs)%inTx_Ok. apply tbind_Ok in H as (raw & s2 & Hr & H). apply readq_Ok in Hr as [-> E].
  destruct s2 as [t fs2]. cbn [fst] in *. subst t. destruct (leaseRow s.1); [|done|]; eexists _, _, _; (split; [done|]); by split.
Qed.

Lemma claim_Ok o h p t now s s' : claim o h p t now s = (Ok tt, s') ->
  s'.1 = withLease (Held (mkLease o h p (now + t))) s.1 /\
  match leaseRow s.1 with Held l => Owner l = o \/ ExpiresAt l <= now | Missing => True | Unreadable => False end.
Proof.
  intros (cur & fs & s1 & Hc & H & Hs)%withLeaseRow_Ok. destruct (leaseRow s.1) as [| |l]; [|done|]; subst cur.
  - apply writeq_cases in H as [[_ H]|[[e ?] _]]; [|done]. by rewrite Hs, H.
  - destruct (_ && _) eqn:E in H; [done|]. apply writeq_cases in H as [[_ H]|[[e ?] _]]; [|done]. rewrite Hs, H. split; [done|].
    apply andb_false_iff in E as [E|E]; [left; by prop_bool|right; by apply Z.ltb_ge in E].
Qed.

Lemma claim_Err o h p t now s e s' : claim o h p t now s = (Err e, s') -> s'.1 = s.1.
Proof. apply withLeaseRow_Err. Qed.

Lemma releaseRow_cases o s r s' : releaseRow o s = (r, s') ->
  s'.1 = s.1 \/ (s'.1 = withLease Missing s.1 /\ forall l, leaseRow s.1 = Held l -> Owner l = o).
Proof.
  destruct r as [[]|e]; [|intros H%withLeaseRow_Err; by left]. intros (cur & fs & s1 & Hc & H & Hs)%withLeaseRow_Ok.
  destruct (match cur with Some l => _ | None => _ end) eqn:E in H; [injection H as <-; by left|].
  apply writeq_cases in H as [[_ H]|[[e ?] _]]; [|done]. right. rewrite Hs, H. split; [done|]. intros l Hl. rewrite Hl in Hc. subst cur.
  by prop_bool.
Qed.

Lemma OwnerOf_lease newID bootID s r s' : OwnerOf newID bootID s = (r, s') -> leaseRow s'.1 = leaseRow s.1.
Proof.
  unfold OwnerOf, tbind. destruct (readq panelID s) as [[p|e] s1] eqn:E; apply readq_state in E.
  - destruct p; [|intros [= <- <-]; by rewrite E..]. destruct (writeq _ s1) as [r1 s2] eqn:E2.
    apply writeq_cases in E2 as [[-> E2]|[[e ->] E2]]; intros [= <- <-]; by rewrite E2, <- E.
  - intros [= <- <-]. by rewrite E.
Qed.

(** What holds throughout: a lock belongs to one daemon, and an unexpired claim is on
    record. *)
Record worldOK (w : World) : Prop := {
  ok_lock : forall n d, daemons w !! n = Some d -> flocks w !! root d = Some n;
  ok_owner : forall n d, daemons w !! n = Some d -> owner d ∈ owners w;
  ok_apart : forall n m d e, daemons w !! n = Some d -> daemons w !! m = Some e -> owner d = owner e -> n = m;
  ok_row : forall n d, daemons w !! n = Some d -> clock w < until d ->
    exists l, leaseRow (table w) = Held l /\ Owner l = owner d /\ ExpiresAt l = until d
}.

Lemma claimed_ok n d now w fs t fs' : (forall m e, daemons w !! m = Some e -> m <> n -> flocks w !! root e = Some m) ->
  flocks w !! root d = None \/ flocks w !! root d = Some n ->
  (forall m e, daemons w !! m = Some e -> m <> n -> owner e <> owner d /\ owner e ∈ owners w) -> owner d ∈ owners w ->
  (forall m e, daemons w !! m = Some e -> m <> n -> now < until e ->
     exists l, leaseRow (table w) = Held l /\ Owner l = owner e /\ ExpiresAt l = until e) ->
  (forall m m' e e', daemons w !! m = Some e -> daemons w !! m' = Some e' -> owner e = owner e' -> m = m') ->
  claim (owner d) (host d) (pid d) (ttl d) now (table w, fs) = (Ok tt, (t, fs')) ->
  worldOK (mkWorld t (<[root d := n]> (flocks w)) (<[n := renewed now d]> (daemons w)) (owners w) now).
Proof.
  intros Hl Hr Ho Hod Hrow Hap [Ht Hold]%claim_Ok. cbn [fst] in Ht, Hold. split; cbn [table flocks daemons owners clock].
  - intros m e [[<- <-]|[Hne Hm]]%lookup_insert_cases; [apply lookup_insert_eq|]. rewrite lookup_insert_ne; [by apply Hl|].
    intros E. specialize (Hl _ _ Hm ltac:(congruence)). rewrite <- E in Hl. destruct Hr; congruence.
  - intros m e [[<- <-]|[Hne Hm]]%lookup_insert_cases; [done|]. by apply (Ho m).
  - intros m m' e e' [[<- <-]|[Hne Hm]]%lookup_insert_cases [[<- <-]|[Hne' Hm']]%lookup_insert_cases E; [done|..].
    + by destruct (Ho _ _ Hm' ltac:(congruence)) as [[] _].
    + by destruct (Ho _ _ Hm ltac:(congruence)) as [[] _].
    + by apply (Hap m m' e e').
  - intros m e [[<- <-]|[Hne Hm]]%lookup_insert_cases Hlive; [rewrite Ht; by eexists|]. exfalso.
    destruct (Hrow _ _ Hm ltac:(congruence) Hlive) as (l & El & Eo & Ee). rewrite El in Hold. destruct (Ho _ _ Hm ltac:(congruence)) as [Hno _].
    destruct Hold; [congruence|lia].
Qed.

(** The tables may change under a world as long as the unexpired claims stay. *)
Lemma ok_later t now os w : worldOK w -> clock w <= now -> owners w ⊆ os -> leaseRow t = leaseRow (table w) ->
  worldOK (mkWorld t (flocks w) (daemons w) os now).
Proof.
  intros [H1 H2 H3 H4] Hle Hos Ht. split; cbn [table flocks daemons owners clock]; [done| |done|].
  - intros n d Hd. apply Hos. by apply (H2 n).
  - intros n d Hd Hlive. rewrite Ht. apply (H4 n d Hd). lia.
Qed.

Lemma unlock_ok n d w : worldOK w -> daemons w !! n = Some d -> worldOK (unlock n d w).
Proof.
  intros [H1 H2 H3 H4] Hd. split; cbn [table flocks daemons owners clock unlock withDaemons withFlocks].
  - intros m e [Hne Hm]%lookup_delete_Some. rewrite lookup_delete_ne; [by apply H1|]. intros E. apply H1 in Hm, Hd. congruence.
  - intros m e [Hne Hm]%lookup_delete_Some. by apply (H2 m).
  - intros m m' e e' [_ Hm]%lookup_delete_Some [_ Hm']%lookup_delete_Some. by apply H3.
  - intros m e [Hne Hm]%lookup_delete_Some. by apply (H4 m).
Qed.

Lemma step_ok s w w' : worldOK w -> step s w = Some w' -> worldOK w'.
Proof.
  intros Hok. destruct s; cbn [step].
  - destruct (_ || _) eqn:E; [done|]. apply orb_false_iff in E as [Hn Hnow%Z.ltb_ge]. rewrite bool_decide_eq_false in Hn.
    destruct (OwnerOf _ _ _) as [[o|e] [tb f1]] eqn:Eo; apply OwnerOf_lease in Eo; cbn [fst] in Eo.
    2: { intros [= <-]. apply (ok_later tb (clock w) (owners w)); [done|lia|done|done]. }
    destruct (bool_decide_reflect (o ∈ owners w)) as [|Hfresh]; [done|]. intros [= <-].
    assert (worldOK (mkWorld tb (flocks w) (daemons w) ({[o]} ∪ owners w) now)) as Hok' by (apply ok_later; [done|done|set_solver|done]).
    unfold AcquireDaemonLease. destruct opens; [|done]. cbn [negb flocks root table]. destruct (flocks w !! r) eqn:Hr; [done|].
    destruct (claim _ _ _ _ _ _) as [[[]|e] [t' f2]] eqn:Ec.
    + eapply (claimed_ok n (mkDaemon r o h p t 0) now (mkWorld tb (flocks w) (daemons w) ({[o]} ∪ owners w) now));
        cbn [flocks daemons owners root owner]; [| | | | | |exact Ec]; [|by left| |set_solver|..].
      * intros m e Hm _. by apply (ok_lock _ Hok).
      * intros m e Hm _. apply (ok_owner _ Hok) in Hm. split; [congruence|set_solver].
      * intros m e Hm _ Hlive. by apply (ok_row _ Hok' m).
      * apply (ok_apart _ Hok).
    + apply claim_Err in Ec. cbn [fst table] in Ec. subst t'. exact Hok'.
  - destruct (daemons w !! n) as [d|] eqn:Hd; [|done]. destruct (now <? clock w) eqn:Hnow; [done|]. apply Z.ltb_ge in Hnow. intros [= <-].
    assert (worldOK (mkWorld (table w) (flocks w) (daemons w) (owners w) now)) as Hok' by (apply ok_later; done).
    unfold renewTick. cbn [table]. destruct (claim _ _ _ _ _ _) as [[[]|e] [t' f2]] eqn:Ec.
    + assert (<[root d := n]> (flocks w) = flocks w) as <-.
      { apply insert_id. by apply (ok_lock _ Hok). }
      eapply (claimed_ok n d now (mkWorld (table w) (flocks w) (daemons w) (owners w) now)); cbn [flocks daemons owners]; [| | | | | |exact Ec].
      * intros m e Hm _. by apply (ok_lock _ Hok).
      * right. by apply (ok_lock _ Hok).
      * intros m e Hm Hne. split; [|by apply (ok_owner _ Hok m)]. intros E. apply Hne. by apply (ok_apart _ Hok m n e d).
      * by apply (ok_owner _ Hok n).
      * intros m e Hm _ Hlive. by apply (ok_row _ Hok' m).
      * apply (ok_apart _ Hok).
    + apply claim_Err in Ec. cbn [fst table] in Ec. subst t'. by destruct e.
  - destruct (daemons w !! n) as [d|] eqn:Hd; [|done]. unfold Release. destruct (releaseRow _ _) as [r [t' f]] eqn:E. intros [= <-].
    apply releaseRow_cases in E. cbn [fst] in E. destruct (unlock_ok n d w Hok Hd) as [H1 H2 H3 H4].
    split; cbn [table flocks daemons owners clock unlock withDaemons withFlocks withTable] in *; [done..|].
    intros m e Hm Hlive. destruct (H4 m e Hm Hlive) as (l & El & Eo & Ee). exists l.
    destruct E as [->|[-> Hown]]; [done|]. specialize (Hown l El). apply lookup_delete_Some in Hm as [Hne Hm].
    destruct Hne. apply (ok_apart _ Hok n m d e); [done|done|congruence].
  - destruct (daemons w !! n) as [d|] eqn:Hd; [|done]. intros [= <-]. by apply unlock_ok.
  - destruct (now <? clock w) eqn:Hnow; [done|]. apply Z.ltb_ge in Hnow. intros [= <-]. by apply ok_later.
Qed.

Lemma steps_ok l w w' : worldOK w -> steps l w = Some w' -> worldOK w'.
Proof.
  revert w. induction l as [|s l IH]; intros w Hok; cbn [steps]; [by intros [= <-]|].
  destruct (step s w) as [w1|] eqn:E; [|done]. apply IH. by apply (step_ok s w).
Qed.

(** C2. One daemon: after any starts, renewals, stops and kills, with any driver
    faults, no two running daemons are under one data root, and no two hold a claim
    that has not expired, on one host or on several. *)
Theorem one_daemon db now l w n m d e : steps l (fresh db now) = Some w ->
  daemons w !! n = Some d -> daemons w !! m = Some e -> root d = root e \/ clock w < until d /\ clock w < until e -> n = m.
Proof.
  intros Hrun Hd He H. assert (worldOK w) as Hok by (eapply steps_ok; [|exact Hrun]; by split).
  destruct H as [H|[H1 H2]].
  - apply (ok_lock _ Hok) in Hd, He. congruence.
  - destruct (ok_row _ Hok n d Hd H1) as (l1 & E1 & O1 & _). destruct (ok_row _ Hok m e He H2) as (l2 & E2 & O2 & _).
    apply (ok_apart _ Hok n m d e); [done|done|congruence].
Qed.

(** A start with a working database succeeds exactly where the root's lock is free and
    the row is missing, expired or its own; a killed daemon's claim delays one until it
    expires and no longer. *)
Lemma AcquireDaemonLease_decides n d now w :
  is_ok (AcquireDaemonLease n d true now [] w).1 =
  bool_decide (flocks w !! root d = None) &&
  match leaseRow (table w) with Missing => true | Unreadable => false | Held l => bool_decide (Owner l = owner d) || (ExpiresAt l <=? now) end.
Proof.
  unfold AcquireDaemonLease. cbn [negb]. destruct (flocks w !! root d); [done|]. rewrite bool_decide_eq_true_2 by done. cbn [andb].
  unfold claim, withLeaseRow. rewrite inTx_run. unfold tbind. destruct (leaseRow (table w)) as [| |lr] eqn:E.
  - cbn. by rewrite E.
  - cbn. by rewrite E.
  - cbn -[Z.add Z.ltb]. rewrite E. destruct (bool_decide_reflect (Owner lr = owner d)); cbn [negb andb orb]; [done|].
    rewrite Z.leb_antisym. by destruct (now <? ExpiresAt lr).
Qed.

(** Two hosts: the second is refused while the first renews, and takes over when it
    has not renewed for its time to live. *)
Definition onHost (n : nat) (r boot : string) (now : Z) : Step := Start n r r "panel" boot 1 30 true now [] [].
Definition twoHosts : list Step := [onHost 0 "hostA" "b1" 0; Renew 0 10 []; onHost 1 "hostB" "b2" 39; onHost 2 "hostB" "b3" 40; Pass 41].
Example one_daemon_witness :
  exists w d, steps twoHosts (fresh (mkLDB Missing Missing) 0) = Some w /\ daemons w !! 2%nat = Some d /\ clock w < until d /\
    daemons w !! 1%nat = None /\ ~ (exists e, daemons w !! 0%nat = Some e /\ clock w < until e).
Proof.
  destruct (steps twoHosts (fresh (mkLDB Missing Missing) 0)) as [w|] eqn:Hrun; [|discriminate Hrun].
  assert (exists d, daemons w !! 2%nat = Some d) as [d Hd] by (vm_compute in Hrun; injection Hrun as <-; by eexists).
  exists w, d. split; [done|]. split; [done|].
  assert (clock w < until d) as Hlive by (vm_compute in Hrun; injection Hrun as <-; vm_compute in Hd; by injection Hd as <-).
  split; [done|]. split; [by vm_compute in Hrun; injection Hrun as <-|]. intros (e & He & Hlive').
  discriminate (one_daemon (mkLDB Missing Missing) 0 twoHosts w 0 2 e d Hrun He Hd (or_intror (conj Hlive' Hlive))).
Defined.
