(* ===== verification/Launch.v ===== *)
(** internal/instance: the launch rules (validate.go), the game's argv and the
    container a server runs in (container.go).

    The digest of a spec's JSON and the decoding of the modifiers object are the
    standard library's. *)
From Stdlib Require Import Floats.SpecFloat.
From S2P Require Import Prelude GoBytes Argon Limiter.

Open Scope Z_scope.

(** ** Rules *)

Definition MinPasswordLength : Z := 5.
Definition MinMemoryLimitMB : Z := 4096.

Inductive LaunchRule := RulePasswordTooShort | RulePasswordInName | RuleWorldSameAsServer.
Inductive ResourceRule := RuleMemoryBelowMinimum | RuleCPUNonPositive.
#[export] Instance LaunchRule_eq_dec : EqDecision LaunchRule.
Proof. solve_decision. Defined.

Definition ValidateLaunch (serverName worldName password : string) : list (string * LaunchRule) :=
  (if Z.of_nat (String.length password) <? MinPasswordLength then [("password", RulePasswordTooShort)] else []) ++
  (if negb (bool_decide (password = "")) && (contains (L password) (L serverName) || contains (L password) (L worldName))
   then [("password", RulePasswordInName)] else []) ++
  (if negb (bool_decide (serverName = "")) && bool_decide (serverName = worldName) then [("world_name", RuleWorldSameAsServer)] else []).

Definition ValidateResources (memLimitMB : Z) (cpuLimit : option spec_float) : list (string * ResourceRule) :=
  (if memLimitMB <? MinMemoryLimitMB then [("mem_limit_mb", RuleMemoryBelowMinimum)] else []) ++
  (if match cpuLimit with Some f => SFleb f (S754_zero false) | None => false end then [("cpu_limit", RuleCPUNonPositive)] else []).

(** ** The spec *)

Record LaunchSpec := mkLaunch {
  InstanceID : string; DataDir : string; BasePort : Z; ServerName : string; WorldName : string; Password : string;
  Public : bool; Crossplay : bool; CrossplayInstanceID : string; Preset : string; Modifiers : string; ExtraArgs : string;
  Backups : Z; MemLimitMB : Z; CPULimit : option spec_float
}.

Record Bind := mkBind { HostPath : string; ContainerPath : string; ReadOnly : bool }.
Record Port := mkPort { HostPort : Z; ContainerPort : Z; Proto : string }.
Record ContainerSpec := mkSpec {
  cName : string; Image : string; Entrypoint : list string; Cmd : list string; Env : list string; cLabels : gmap string string; cUser : string;
  OpenStdin : bool; StdinOnce : bool; TTY : bool; StopSignal : string; StopTimeout : Z; Binds : list Bind; Ports : list Port;
  NetworkDisabled : bool; Network : string; RestartPolicy : string; MemoryBytes : Z; NanoCPUs : Z; LogMaxBytes : Z; LogMaxFiles : Z
}.
Definition withLabels (l : gmap string string) (c : ContainerSpec) : ContainerSpec :=
  mkSpec (cName c) (Image c) (Entrypoint c) (Cmd c) (Env c) l (cUser c) (OpenStdin c) (StdinOnce c) (TTY c) (StopSignal c) (StopTimeout c)
    (Binds c) (Ports c) (NetworkDisabled c) (Network c) (RestartPolicy c) (MemoryBytes c) (NanoCPUs c) (LogMaxBytes c) (LogMaxFiles c).

Definition containerUser : string := "10000:10000".
Definition entrypoint : list string := ["/usr/local/bin/valmin-entrypoint"].
Definition steamAppID : string := "SteamAppId=892970".
Definition LabelManaged : string := "io.valmin.managed".
Definition LabelSchema : string := "io.valmin.schema".
Definition LabelInstanceID : string := "io.valmin.instance.id".
Definition LabelBasePort : string := "io.valmin.base-port".
Definition LabelSpecHash : string := "io.valmin.spec.hash".
Definition logFileBytes : Z := 10 * 2 ^ 20.
Definition logFiles : Z := 2.

(** [strconv.Itoa]. *)
Definition Itoa (n : Z) : string := S_ (if n <? 0 then "-"%char :: itoa (- n) else itoa n).

Definition Labels (instanceID : string) (basePort : Z) : gmap string string :=
  <[LabelManaged := "true"]> (<[LabelSchema := "1"]> (<[LabelInstanceID := instanceID]> {[LabelBasePort := Itoa basePort]})).
Definition ContainerName (instanceID : string) : string := "valmin-" +:+ instanceID.

Definition nanoCPUs (limit : option spec_float) : Z :=
  match limit with None => 0 | Some f => trunc (fmul f (float64 1000000000)) end.

Definition publicFlag (public : bool) : string := if public then "1" else "0".

(** launch.go's world keys and the game's own count of backups. *)
Definition WorldKeys : list string := ["nobuildcost"; "playerevents"; "fire"; "passivemobs"; "nomap"].
Definition IsWorldKey (key : string) : bool := bool_decide (key ∈ WorldKeys).
Definition savesBackups : Z := 4.

(** [strings.Fields]: the runs between white space. *)
Fixpoint fieldsFrom (fuel : nat) (cur s : bytes) : list bytes :=
  let close := match cur with [] => [] | _ => [rev cur] end in
  match fuel with
  | O => close
  | S fuel =>
      match stripSpace s with
      | Some s' => close ++ fieldsFrom fuel [] s'
      | None => match s with [] => close | c :: s' => fieldsFrom fuel (c :: cur) s' end
      end
  end.
Definition Fields (s : bytes) : list bytes := fieldsFrom (S (length s)) [] s.

Section Build.
Context (decodeModifiers : string -> option (gmap string string)) (digest : ContainerSpec -> string).

Definition modifierArgs (raw : string) : option (list string) :=
  if bool_decide (raw = "") then Some []
  else (fun mods : gmap string string =>
          merge_sort String.le (map_to_list mods).*1 ≫= (fun k =>
            if IsWorldKey k then ["-setkey"; k] else ["-modifier"; k; default "" (mods !! k)])) <$> decodeModifiers raw.

Definition launchArgs (s : LaunchSpec) : option (list string) :=
  match modifierArgs (Modifiers s) with
  | None => None
  | Some mods => Some (
      ["-nographics"; "-batchmode"; "-name"; ServerName s; "-port"; Itoa (BasePort s); "-world"; WorldName s; "-password"; Password s;
       "-public"; publicFlag (Public s); "-savedir"; "/opt/valheim/worlds"] ++
      (if Crossplay s then ["-crossplay"] else []) ++ ["-instanceid"; CrossplayInstanceID s] ++
      (if bool_decide (Preset s = "") then [] else ["-preset"; Preset s]) ++
      (if (Backups s =? 0) || (Backups s =? savesBackups) then [] else ["-backups"; Itoa (Backups s)]) ++
      mods ++ (S_ <$> Fields (L (ExtraArgs s))))
  end.

Inductive BuildErr :=
| InvalidLaunchConfigError (v : list (string * LaunchRule))
| InvalidResourceConfigError (v : list (string * ResourceRule))
| ErrModifiers.

(** The spec before its hash is stamped on it. *)
Definition unstamped (s : LaunchSpec) (args : list string) (image network : string) (stopTimeout : Z) : ContainerSpec :=
  mkSpec (ContainerName (InstanceID s)) image entrypoint args [steamAppID] (Labels (InstanceID s) (BasePort s)) containerUser
    true false false "SIGINT" stopTimeout
    [mkBind (DataDir s +:+ "/server") "/opt/valheim/server" false; mkBind (DataDir s +:+ "/worlds") "/opt/valheim/worlds" false;
     mkBind (DataDir s +:+ "/logs") "/opt/valheim/logs" false]
    [mkPort (BasePort s) (BasePort s) "udp"; mkPort (BasePort s + 1) (BasePort s + 1) "udp"]
    false network "unless-stopped" (wrap64 (Z.shiftl (MemLimitMB s) 20)) (nanoCPUs (CPULimit s)) logFileBytes logFiles.

Definition BuildSpec (s : LaunchSpec) (image network : string) (stopTimeout : Z) : result BuildErr ContainerSpec :=
  match ValidateLaunch (ServerName s) (WorldName s) (Password s) with
  | (_ :: _) as v => Err (InvalidLaunchConfigError v)
  | [] =>
      match ValidateResources (MemLimitMB s) (CPULimit s) with
      | (_ :: _) as v => Err (InvalidResourceConfigError v)
      | [] =>
          match launchArgs s with
          | None => Err ErrModifiers
          | Some args =>
              let spec := unstamped s args image network stopTimeout in
              Ok (withLabels (<[LabelSpecHash := digest spec]> (cLabels spec)) spec)
          end
      end
  end.

Definition hashOf (c : ContainerSpec) : option string := cLabels c !! LabelSpecHash.

(** ** Laws *)

Lemma BuildSpec_Ok s image network stop c : BuildSpec s image network stop = Ok c ->
  exists args, launchArgs s = Some args /\ ValidateLaunch (ServerName s) (WorldName s) (Password s) = [] /\
    ValidateResources (MemLimitMB s) (CPULimit s) = [] /\
    c = withLabels (<[LabelSpecHash := digest (unstamped s args image network stop)]> (Labels (InstanceID s) (BasePort s)))
          (unstamped s args image network stop).
Proof.
  unfold BuildSpec. destruct (ValidateLaunch _ _ _); [|done]. destruct (ValidateResources _ _); [|done].
  destruct (launchArgs s) as [args|]; [|done]. intros [= <-]. by exists args.
Qed.

Lemma BuildSpec_hash s image network stop c : BuildSpec s image network stop = Ok c -> hashOf c = Some (digest (withLabels (Labels (InstanceID s) (BasePort s)) c)).
Proof.
  intros (args & _ & _ & _ & ->)%BuildSpec_Ok. unfold hashOf. cbn [cLabels withLabels]. rewrite lookup_insert_eq. reflexivity.
Qed.

(** C0. A container carries the hash of the settings it was made from and of nothing
    else: two specs carry one hash exactly when they are the same container, and
    then the settings behind them agree on the names, the password, the port, the
    visibility, the world's directory and every argument and limit.  So a start
    whose container has the row's hash runs the row's settings. *)
Theorem BuildSpec_hash_exact s1 s2 image1 image2 network1 network2 stop1 stop2 c1 c2 :
  (forall a1 a2, launchArgs s1 = Some a1 -> launchArgs s2 = Some a2 ->
     digest (unstamped s1 a1 image1 network1 stop1) = digest (unstamped s2 a2 image2 network2 stop2) ->
     unstamped s1 a1 image1 network1 stop1 = unstamped s2 a2 image2 network2 stop2) ->
  BuildSpec s1 image1 network1 stop1 = Ok c1 -> BuildSpec s2 image2 network2 stop2 = Ok c2 ->
  (hashOf c1 = hashOf c2 <-> c1 = c2) /\
  (c1 = c2 -> ServerName s1 = ServerName s2 /\ WorldName s1 = WorldName s2 /\ Password s1 = Password s2 /\ BasePort s1 = BasePort s2 /\
     publicFlag (Public s1) = publicFlag (Public s2) /\ Public s1 = Public s2 /\ image1 = image2 /\ network1 = network2 /\ stop1 = stop2 /\
     launchArgs s1 = launchArgs s2 /\ nanoCPUs (CPULimit s1) = nanoCPUs (CPULimit s2)).
Proof.
  intros Hinj H1 H2. apply BuildSpec_Ok in H1 as (a1 & Ha1 & _ & _ & ->), H2 as (a2 & Ha2 & _ & _ & ->). split.
  - split; [|by intros ->]. unfold hashOf. cbn [cLabels withLabels]. rewrite !lookup_insert_eq. intros [= E]. pose proof (Hinj _ _ Ha1 Ha2 E) as E'.
    assert (Labels (InstanceID s1) (BasePort s1) = Labels (InstanceID s2) (BasePort s2)) as -> by exact (f_equal cLabels E').
    by rewrite E'.
  - intros E. assert (a1 = a2) as <- by exact (f_equal Cmd E).
    pose proof Ha1 as Hb1. pose proof Ha2 as Hb2. unfold launchArgs in Hb1, Hb2.
    destruct (modifierArgs (Modifiers s1)), (modifierArgs (Modifiers s2)); [|done..]. injection Hb1 as <-. injection Hb2 as Hw Hp Hn Hs Hf _.
    pose proof (f_equal Ports E) as [= Hport _]. split_and!; try done; try congruence.
    + destruct (Public s1), (Public s2); done.
    + exact (f_equal Image E).
    + exact (f_equal Network E).
    + exact (f_equal StopTimeout E).
    + exact (f_equal NanoCPUs E).
Qed.

(** A spec is refused exactly for what the rules name. *)
Lemma ValidateLaunch_spec name world password :
  ValidateLaunch name world password = [] <->
  5 <= Z.of_nat (String.length password) /\ contains (L password) (L name) = false /\ contains (L password) (L world) = false /\
  (name = "" \/ name <> world).
Proof.
  unfold ValidateLaunch, MinPasswordLength. split.
  - intros [H1 [H2 H3]%app_eq_nil]%app_eq_nil. destruct (_ <? 5) eqn:E1; [done|]. apply Z.ltb_ge in E1.
    destruct (bool_decide_reflect (password = "")) as [->|Hne]; [cbn in E1; lia|]. cbn [negb andb] in H2.
    destruct (_ || _) eqn:E2; [done|]. apply orb_false_iff in E2 as [E2 E3]. split_and!; [done..|].
    destruct (bool_decide_reflect (name = "")); [by left|]. cbn [negb andb] in H3. case_bool_decide; [done|by right].
  - intros (H1 & H2 & H3 & H4). rewrite (proj2 (Z.ltb_ge _ _)) by done. rewrite H2, H3, andb_false_r. cbn [app].
    destruct H4 as [->|H4]; [done|]. rewrite (bool_decide_eq_false_2 (name = world)) by done. by rewrite andb_false_r.
Qed.
End Build.

(** A server and its copy under another name. *)
Definition aServer (name : string) : LaunchSpec :=
  mkLaunch "i1" "/data/i1" 2456 name "Midgard" "secret" true false "i1" "" "" "-console" 4 4096 None.
Definition toyDigest (c : ContainerSpec) : string := cName c +:+ String.concat " " (Cmd c).
Example BuildSpec_hash_exact_witness :
  exists c1 c2, BuildSpec (fun _ => None) toyDigest (aServer "Asgard") "valheim" "valmin" 120 = Ok c1 /\
    BuildSpec (fun _ => None) toyDigest (aServer "Vanaheim") "valheim" "valmin" 120 = Ok c2 /\ hashOf c1 <> hashOf c2.
Proof.
  destruct (BuildSpec (fun _ => None) toyDigest (aServer "Asgard") "valheim" "valmin" 120) as [c1|] eqn:E1; [|discriminate E1].
  destruct (BuildSpec (fun _ => None) toyDigest (aServer "Vanaheim") "valheim" "valmin" 120) as [c2|] eqn:E2; [|discriminate E2].
  exists c1, c2. split; [reflexivity|]. split; [reflexivity|]. intros E.
  destruct (BuildSpec_hash_exact (fun _ => None) toyDigest (aServer "Asgard") (aServer "Vanaheim") "valheim" "valheim" "valmin" "valmin" 120 120 c1 c2) as [[H _] Hs].
  - intros a1 a2 [= <-] [= <-] Hd. vm_compute in Hd. discriminate Hd.
  - exact E1.
  - exact E2.
  - destruct (Hs (H E)) as [Hn _]. discriminate Hn.
Defined.
