(* ===== verification/PanelRows.v ===== *)
(** internal/store: the columns of an instances row that Store leaves out
    (instances.go), the queue of mod installs (mod_queue.go) and what else the
    control jobs read, over the tables of RemoteStore. *)
From Stdlib Require Import Floats.SpecFloat.
From S2P Require Import Prelude Authz Lifecycle Sql Store RemoteStore Launch.

(** ** Tables *)

(** The settings of an instance; an empty text is the NULL of the optional ones. *)
Record Cols := mkCols {
  kDataDir : string; kBasePort : Z; kServerName : string; kWorldName : string; kPublic : bool; kCrossplay : bool;
  kCrossplayID : string; kPreset : string; kModifiers : string; kExtraArgs : string; kGameBackups : Z; kMemLimitMB : Z;
  kCPULimit : option spec_float; kModded : bool; kBackupOnRestart : bool; kPassword : string
}.

(** [queued_mod_installs], keyed by instance and package. *)
Record QueuedModInstall := mkQueued { qVersion : string; qSource : string; qRequestedBy : option string; qCreated : Time }.
#[export] Instance QueuedModInstall_eq_dec : EqDecision QueuedModInstall.
Proof. solve_decision. Defined.

(** An [instance_mods] row, less what no statement here reads. *)
Record InstanceMod := mkInstanceMod { mVersion : string; mSource : string; mEnabled : bool; mLocked : bool }.

(** With [queued_mod_starts] (who asked), the instances with an open definition
    operation, the planned power cuts, [instance_mods], and the rows a decision
    reads: each user's role and whether it is disabled, and each live grant by user and
    instance. *)
Record PDB := mkPDB {
  pR : RDB; pCols : gmap string Cols; pQueue : gmap (string * string) QueuedModInstall;
  pStarts : gmap string (option string); pOps : gset string; pCuts : list Time;
  pMods : gmap (string * string) InstanceMod; pUsers : gmap string (string * bool); pGrants : gmap (string * string) Grant
}.
Definition withR (r : RDB) (db : PDB) : PDB :=
  mkPDB r (pCols db) (pQueue db) (pStarts db) (pOps db) (pCuts db) (pMods db) (pUsers db) (pGrants db).
Definition withQueue (f : gmap (string * string) QueuedModInstall -> gmap (string * string) QueuedModInstall) (db : PDB) : PDB :=
  mkPDB (pR db) (pCols db) (f (pQueue db)) (pStarts db) (pOps db) (pCuts db) (pMods db) (pUsers db) (pGrants db).
Definition withStarts (f : gmap string (option string) -> gmap string (option string)) (db : PDB) : PDB :=
  mkPDB (pR db) (pCols db) (pQueue db) (f (pStarts db)) (pOps db) (pCuts db) (pMods db) (pUsers db) (pGrants db).

Abbreviation PTx := (Sql.Tx PDB).

(** A statement or transaction of the archive tables, or of the job tables, in the
    whole database. *)
Definition onR {A} (m : RTx A) : PTx A := fun s =>
  match m (pR s.1, s.2) with (r, (b, fs)) => (r, (withR b s.1, fs)) end.
Definition onI {A} (m : Sql.Tx DB A) : PTx A := onR (onBase m).

Definition base (db : PDB) : DB := rBase (pR db).
Definition stateOf (id : string) (db : PDB) : option State := iState <$> instances (base db) !! id.

(** ** instances.go *)

(** An instance row, both halves. *)
Record Instance_ := mkInstance { nID : string; nRow : Inst; nCols : Cols }.

Definition instanceByID (id : string) (db : PDB) : option Instance_ :=
  match instances (base db) !! id, pCols db !! id with Some i, Some c => Some (mkInstance id i c) | _, _ => None end.
Definition InstanceByID (id : string) : PTx (option Instance_) := readq (instanceByID id).
(** [InstancePassword]: the sealed text; no row is an error. *)
Definition InstancePassword (id : string) : PTx string :=
  let! c := readq (fun db => pCols db !! id) in
  match c with Some c => tret (kPassword c) | None => tfail (EHook "no rows") end.

(** [instance.SetStateTx]: the validated compare-and-swap. *)
Definition SetStateTx (now : Time) (id : string) (from to : State) : PTx bool :=
  match ValidateTransition from to with
  | Err e => tfail (EState e)
  | Ok _ => onI (TxUpdateInstanceState now id from to)
  end.

(** ** backups.go *)

(** [WorldBaseline]: the size and the time of the archive a new world is compared with. *)
Definition worldBaseline (instanceID worldName : string) (db : RDB) : option (Z * Time) :=
  let own := archivesOf instanceID db in
  let snaps := bCreated ∘ snd <$> filter (fun kv => SnapshotTrigger (bTrigger kv.2) = true) own in
  let measured := filter (fun kv => bWorld kv.2 = worldName /\ is_Some (bWorldBytes kv.2) /\ bAttention kv.2 = [] /\
                                    SnapshotTrigger (bTrigger kv.2) = false /\ forallb (fun s => (s <? bCreated kv.2)%Z) snaps = true) own in
  match measured with
  | kv :: _ => (fun n => (n, bCreated kv.2)) <$> bWorldBytes kv.2
  | [] => None
  end.

(** ** mod_queue.go *)

Definition queueRow (now : Time) (id name version source requestedBy : string) (db : PDB) : result TxErr (unit * PDB) :=
  let by_ := nullIf requestedBy in
  if bool_decide (is_Some (instances (base db) !! id)) && refOk (users (base db)) by_
  then Ok (tt, withQueue (fun q => <[(id, name) := mkQueued version source by_
                                       (match q !! (id, name) with Some old => qCreated old | None => now end)]> q) db)
  else Err EConstraint.
Definition QueueModInstall (now : Time) (id name version source requestedBy : string) : PTx unit :=
  stmt (queueRow now id name version source requestedBy).
Fixpoint queueEach (now : Time) (id : string) (l : list (string * string * string * string)) : PTx unit :=
  match l with
  | [] => tret tt
  | (name, version, source, by_) :: l => let! _ := QueueModInstall now id name version source by_ in queueEach now id l
  end.
Definition QueueModInstalls (now : Time) (id : string) (l : list (string * string * string * string)) : PTx unit := inTx (queueEach now id l).

(** [ORDER BY created_at, full_name]. *)
Definition queued_le (x y : string * QueuedModInstall) : Prop :=
  (qCreated x.2 < qCreated y.2)%Z \/ (qCreated x.2 = qCreated y.2 /\ String.le x.1 y.1).
#[export] Instance queued_le_dec x y : Decision (queued_le x y).
Proof. unfold queued_le. apply _. Defined.
Definition queuedOf (id : string) (db : PDB) : list (string * QueuedModInstall) :=
  merge_sort queued_le ((fun kv : (string * string) * QueuedModInstall => (kv.1.2, kv.2)) <$> filter (fun kv => kv.1.1 = id) (map_to_list (pQueue db))).
Definition QueuedModInstalls (id : string) : PTx (list (string * QueuedModInstall)) := readq (queuedOf id).

Definition UnqueueModInstall (id name : string) : PTx bool :=
  stmt (fun db => Ok (bool_decide (is_Some (pQueue db !! (id, name))), withQueue (delete (id, name)) db)).
Fixpoint unqueueEach (id : string) (names : list string) : PTx unit :=
  match names with
  | [] => tret tt
  | name :: names => let! _ := UnqueueModInstall id name in unqueueEach id names
  end.
Definition UnqueueModInstalls (id : string) (names : list string) : PTx unit := inTx (unqueueEach id names).

Definition InstancesWithModQueue : PTx (list string) :=
  readq (fun db => elements (set_map fst (dom (pQueue db)) ∪ dom (pStarts db) : gset string)).

Definition TxQueueModStart (id requestedBy : string) : PTx unit := stmt (fun db =>
  let by_ := nullIf requestedBy in
  if bool_decide (is_Some (instances (base db) !! id)) && refOk (users (base db)) by_
  then Ok (tt, withStarts (fun m => match m !! id with Some _ => m | None => <[id := by_]> m end) db)
  else Err EConstraint).
Definition QueuedModStart (id : string) : PTx (bool * string) :=
  readq (fun db => match pStarts db !! id with Some by_ => (true, default "" by_) | None => (false, "") end).
Definition ClearQueuedModStart (id : string) : PTx unit := writeq (withStarts (delete id)).

(** ** operations.go and shutdowns.go *)

Definition OpenOperation (id : string) : PTx bool := readq (fun db => bool_decide (id ∈ pOps db)).
Definition PowerCutWithin (now window : Time) : PTx bool :=
  readq (fun db => existsb (fun t => (now <? t)%Z && (t <=? now + window)%Z) (pCuts db)).

(** ** instance_mods.go, users.go, grants.go, jobs.go *)

(** [InstanceMods], and [InstanceModVersion] with its source. *)
Definition modsOf (id : string) (db : PDB) : list (string * InstanceMod) :=
  (fun kv : (string * string) * InstanceMod => (kv.1.2, kv.2)) <$> filter (fun kv => kv.1.1 = id) (map_to_list (pMods db)).
Definition InstanceMods (id : string) : PTx (list (string * InstanceMod)) := readq (modsOf id).
Definition InstanceModVersion (id name : string) : PTx (option (string * string)) :=
  readq (fun db => (fun m => (mVersion m, mSource m)) <$> pMods db !! (id, name)).
Definition userOf (id : string) (db : PDB) : option User := (fun u => mkUser id u.1 u.2) <$> pUsers db !! id.
Definition UserByID (id : string) : PTx (option User) := readq (userOf id).
Definition GrantOf (user id : string) : PTx (option Grant) := readq (fun db => pGrants db !! (user, id)).
Definition HeldLockKeys : PTx (gset string) := readq (fun db => dom (locks (base db))).

(** ** Laws *)

Lemma onR_run {A} (m : RTx A) s r s' : onR m s = (r, s') -> exists b, m (pR s.1, s.2) = (r, (b, s'.2)) /\ s'.1 = withR b s.1.
Proof. unfold onR. destruct (m _) as [r0 [b fs]]. intros [= <- <-]. by exists b. Qed.
Lemma onBase_run {A} (m : Sql.Tx DB A) s r s' : onBase m s = (r, s') ->
  exists b, m (rBase s.1, s.2) = (r, (b, s'.2)) /\ s'.1 = withBase b s.1.
Proof. unfold onBase. destruct (m _) as [r0 [b fs]]. intros [= <- <-]. by exists b. Qed.
Lemma onI_run {A} (m : Sql.Tx DB A) s r s' : onI m s = (r, s') ->
  exists b, m (base s.1, s.2) = (r, (b, s'.2)) /\ s'.1 = withR (withBase b (pR s.1)) s.1.
Proof.
  intros (b & H & ->)%onR_run. apply onBase_run in H as (d & H & E). cbn [fst snd] in *. exists d. split; [done|]. by rewrite E.
Qed.

(** What the compare-and-swap does to the states. *)
Lemma SetStateTx_cases now id from to s r s' : SetStateTx now id from to s = (r, s') ->
  (r = Ok true /\ Valid from to = true /\ stateOf id s.1 = Some from /\ stateOf id s'.1 = Some to) \/
  ((r = Ok false /\ stateOf id s.1 <> Some from \/ exists e, r = Err e) /\ s'.1 = s.1).
Proof.
  unfold SetStateTx, ValidateTransition. destruct (Valid from to) eqn:E; cbn [negb]; [|by intros [= <- <-]; right; eauto].
  intros (b & H & Hs)%onI_run. unfold TxUpdateInstanceState, casInstance in H. destruct r as [m|e].
  - apply stmt_Ok in H as [H _]. cbn [fst] in H. unfold stateOf. destruct (instances (base s.1) !! id) as [i|] eqn:Hi.
    + destruct (bool_decide_reflect (iState i = from)) as [Hf|Hf].
      * case_bool_decide; [|done]. injection H as <- <-. left. rewrite Hs. split_and!; [done|done|by rewrite <- Hf|].
        unfold base. cbn. by rewrite lookup_insert_eq.
      * injection H as <- <-. right. split; [left; split; [done|]; cbn; congruence|]. rewrite Hs. by destruct s as [[[] ? ? ? ? ? ? ? ?] ?].
    + injection H as <- <-. right. split; [by left|]. rewrite Hs. by destruct s as [[[] ? ? ? ? ? ? ? ?] ?].
  - apply stmt_Err in H as [H _]. cbn [fst] in H. right. split; [by eauto|]. rewrite Hs, H. by destruct s as [[[] ? ? ? ? ? ? ? ?] ?].
Qed.

(** A queued install stays queued, or is replaced, until it is taken off. *)
Lemma UnqueueModInstall_cases id name s r s' : UnqueueModInstall id name s = (r, s') ->
  s'.1 = s.1 /\ (exists e, r = Err e) \/ s'.1 = withQueue (delete (id, name)) s.1 /\ exists b, r = Ok b.
Proof.
  unfold UnqueueModInstall. destruct r as [b|e]; [intros [H _]%stmt_Ok|intros [H _]%stmt_Err; by left; eauto].
  right. injection H as _ <-. eauto.
Qed.

(** ** What a computation takes from the faults *)

Class Drains {D A} (m : Sql.Tx D A) : Prop := drains : forall s, exists k, (m s).2.2 = drop k s.2.

#[export] Instance tret_drains {D A} (a : A) : Drains (@tret D A a).
Proof. intros s. by exists 0%nat. Qed.
#[export] Instance tfail_drains {D A} e : Drains (@tfail D A e).
Proof. intros s. by exists 0%nat. Qed.
#[export] Instance tbind_drains {D A B} (m : Sql.Tx D A) (k : A -> Sql.Tx D B) : Drains m -> (forall a, Drains (k a)) -> Drains (tbind m k).
Proof.
  intros Hm Hk s. unfold tbind. specialize (Hm s). destruct (m s) as [[a|e] s1]; [|exact Hm]. destruct Hm as [i Hi], (Hk a s1) as [j Hj].
  exists (i + j)%nat. cbn [snd] in Hi. by rewrite Hj, Hi, drop_drop.
Qed.
#[export] Instance stmt_drains {D A} (f : D -> result TxErr (A * D)) : Drains (stmt f).
Proof. intros [db fs]. exists 1%nat. destruct fs as [|[] fs]; cbn; [destruct (f db) as [[]|]; done|done|destruct (f db) as [[]|]; by rewrite ?drop_0]. Qed.
#[export] Instance readq_drains {D A} (f : D -> A) : Drains (readq f).
Proof. apply stmt_drains. Qed.
#[export] Instance writeq_drains {D} (f : D -> D) : Drains (writeq f).
Proof. apply stmt_drains. Qed.
#[export] Instance must_drains {D} n e : Drains (@must D n e).
Proof. destruct n; apply _. Qed.
#[export] Instance if_drains {D A} (b : bool) (m m' : Sql.Tx D A) : Drains m -> Drains m' -> Drains (if b then m else m').
Proof. by destruct b. Qed.
#[export] Hint Extern 3 (Drains (match ?x with _ => _ end)) => destruct x : typeclass_instances.
#[export] Instance onR_drains {A} (m : RTx A) : Drains m -> Drains (onR m).
Proof. intros Hm s. unfold onR. destruct (Hm (pR s.1, s.2)) as [k Hk]. destruct (m _) as [r [b fs]]. by exists k. Qed.
#[export] Instance onBase_drains {A} (m : Sql.Tx DB A) : Drains m -> Drains (onBase m).
Proof. intros Hm s. unfold onBase. destruct (Hm (rBase s.1, s.2)) as [k Hk]. destruct (m _) as [r [b fs]]. by exists k. Qed.

(** Where nothing fails, a legal move of an instance in its state succeeds. *)
Lemma SetStateTx_moves now id from to db fs : Forall (eq false) fs -> Valid from to = true -> to ∈ states -> stateOf id db = Some from ->
  (SetStateTx now id from to (db, fs)).1 = Ok true.
Proof.
  intros Hfs Hv Hto Hs. unfold SetStateTx, ValidateTransition. rewrite Hv. cbn [negb]. unfold onI, onR, onBase, TxUpdateInstanceState, casInstance.
  unfold stateOf, base in Hs. cbn [fst snd]. destruct (instances (rBase (pR db)) !! id) as [i|] eqn:Hi; [|done]. injection Hs as Hs.
  unfold stmt. destruct Hfs as [|? ? <- Hfs]; cbn [fst snd]; rewrite Hi, !bool_decide_eq_true_2 by done; done.
Qed.
