(* ===== verification/Runners.v ===== *)
(** internal/instance/control: the submissions of the lifecycle jobs (submissions.go)
    and the runners of start, stop, restart and backup (start.go, stop.go,
    restart.go, backup.go, running.go).

    A runner is a function on a world: the tables, what the driver fails, what
    everybody else writes meanwhile ([wOthers], one change before each of the runner's
    statements), everything outside the database, and a trace.  Docker, the logs, the
    archiver and the clock are the interface [Outside]; each of its operations may
    fail, and its state may change by itself.  Progress lines are logged only: the
    row they update is Engine's. *)
From S2P Require Import Prelude Kinds Lifecycle Sql Store Engine RemoteStore Retention Pruner Errcode Launch PanelRows.

Open Scope Z_scope.

(** ** Outside the database *)

(** [runtime.ErrNotFound], or any other failure of the engine. *)
Inductive RtErr := ErrNotFound | ErrEngine.
(** What an inspection shows; [None] is the zero time or no label. *)
Record Container := mkContainer { Running : bool; StartedAt : option Z; ExitCode : Z; OOMKilled : bool; SpecHash : option string }.
Definition Attention : Type := string * string.
Record Verified := mkVerified { WorldBytes : Z; vAttention : list Attention; Unchecked : bool }.
(** Why an archive is refused: it cannot be vouched for, or the panel failed. *)
Inductive ArchErr := Unverifiable | ArchFailed.

Class Outside (D : Type) := {
  Clock : D -> Z * D;
  Inspect : string -> D -> result RtErr Container * D;
  ListInstance : string -> D -> result RtErr (list (string * option string)) * D;   (* id and spec hash of the containers labelled so *)
  Create : ContainerSpec -> D -> result RtErr string * D;
  StartContainer : string -> D -> result RtErr unit * D;
  StopContainer : string -> string -> Z -> D -> result RtErr unit * D;
  Remove : string -> D -> result RtErr unit * D;
  AwaitReady : string -> Z -> D -> result unit bool * D;
  AwaitPluginLoad : string -> Z -> D -> bool * D;
  LogTail : string -> D -> option string * D;
  SawSaveLine : string -> Z -> D -> option bool * D;
  SettleIn : string -> D -> bool * D;
  HasDoorstop : string -> D -> option bool * D;
  Archive : bool -> string -> string -> D -> result ArchErr (Z * string) * D;        (* live or cold, source, destination: size and sum *)
  Verify : string -> string -> D -> result ArchErr Verified * D;
  RemoveFile : string -> D -> D
}.

(** What the trace keeps. *)
Inductive Ev :=
| EStop (cid : string) (ok : bool) | ESave (seen : bool) | EInspect (cid : string) (r : result RtErr Container)
| ESubmit (spec : Spec) (r : result EngineErr string) | EPublish (id : string) | EStep (i : nat) (begins : bool)
| EStart (cid : string) (ok : bool) | ECreate (cid : string) | ERemove (cid : string) | EArchive (dest : string) (consistent ok : bool).

(** ** Outcomes *)

(** What runs once the finish has committed. *)
Inductive After := ACleanup (instanceID : string) (pruned : list Entry) | AStart (instanceID containerID : string).

Record Outcome := mkOutcome {
  oStatus : string; oCode : option Code; oError : string; oClean : option bool; oFinish : option (Time -> PTx unit); oAfter : list After
}.
Definition failed (code : Code) (msg : string) (finish : option (Time -> PTx unit)) : Outcome :=
  mkOutcome StatusFailed (Some code) msg None finish [].
Definition withAfter (l : list After) (o : Outcome) : Outcome := mkOutcome (oStatus o) (oCode o) (oError o) (oClean o) (oFinish o) l.
Definition withClean (b : bool) (o : Outcome) : Outcome := mkOutcome (oStatus o) (oCode o) (oError o) (Some b) (oFinish o) (oAfter o).

Definition finishToError (id : string) (from : State) : Time -> PTx unit := fun now =>
  let! _ := SetStateTx now id from StateError in tret tt.
(** The move a finish insists on. *)
Definition finishMove (id : string) (from to : State) : Time -> PTx unit := fun now =>
  let! ok := SetStateTx now id from to in must ok (EState (NotInState id from)).
Definition chainFinish (first : option (Time -> PTx unit)) (second : Time -> PTx unit) : Time -> PTx unit := fun now =>
  let! _ := match first with Some f => f now | None => tret tt end in second now.

(** ** Submissions *)

(** [transitionClaim], in the job tables. *)
Definition transitionClaim (now : Time) (id : string) (from to : State) : Sql.Tx DB unit :=
  match ValidateTransition from to with
  | Err e => tfail (EState e)
  | Ok _ => let! ok := TxUpdateInstanceState now id from to in must ok (EHook "instance not in its state at claim")
  end.

(** Who asks: the person, the schedule and the audit entry. *)
Record Origin := mkOrigin { RequestedBy : string; ScheduleID : string; oAudit : option AuditEntry }.
Definition lifecycleSpec (kind : Kind) (inst : Instance_) (by_ : Origin) (payload : string) (resume : bool) (claim : option (Sql.Tx DB unit)) : Spec :=
  Engine.mkSpec kind (InstanceLockKey (nID inst)) [] (Some (nID inst)) (iName (nRow inst)) (Some payload) (RequestedBy by_) (ScheduleID by_) resume claim
    (oAudit by_).
Definition startSpec (now : Time) (inst : Instance_) (by_ : Origin) : Spec :=
  lifecycleSpec KindStart inst by_ "{}" false (Some (transitionClaim now (nID inst) StateStopped StateStarting)).
Definition stopSpec (now : Time) (inst : Instance_) (by_ : Origin) (payload : string) : Spec :=
  lifecycleSpec KindStop inst by_ payload false (Some (transitionClaim now (nID inst) StateRunning StateStopping)).
Definition restartSpec (now : Time) (inst : Instance_) (by_ : Origin) : Spec :=
  lifecycleSpec KindRestart inst by_ "{}" false (Some (transitionClaim now (nID inst) StateRunning StateStopping)).

Inductive BackupMode := BackupQuiesced | BackupHot.
#[export] Instance BackupMode_eq_dec : EqDecision BackupMode.
Proof. solve_decision. Defined.
Definition quiescingOf (mode : BackupMode) (inst : Instance_) : bool :=
  bool_decide (mode = BackupQuiesced) && bool_decide (iState (nRow inst) = StateRunning).
Definition triggerOf (by_ : Origin) (trigger : string) : string :=
  if bool_decide (trigger = "") then if bool_decide (ScheduleID by_ = "") then "manual" else "scheduled" else trigger.
Definition backupSpec (now : Time) (inst : Instance_) (mode : BackupMode) (by_ : Origin) (payload : string) : Spec :=
  let quiescing := quiescingOf mode inst in
  lifecycleSpec KindBackup inst by_ payload quiescing
    (Some (if quiescing then transitionClaim now (nID inst) StateRunning StateStopping else tret tt)).
Definition gameUpdateSpec (now : Time) (inst : Instance_) (by_ : Origin) (payload : string) : Spec :=
  lifecycleSpec KindGameUpdate inst by_ payload false (Some (transitionClaim now (nID inst) StateStopped StateUpdating)).
(** The hold a resumed delete or provision takes: no edge, only the state. *)
Definition claimFrom (now : Time) (id : string) (from to : State) : Sql.Tx DB unit :=
  if bool_decide (from = to)
  then let! ok := TxUpdateInstanceState now id to to in must ok (EHook "instance not in its state at claim")
  else transitionClaim now id from to.
Definition provisionSpec (now : Time) (inst : Instance_) (from : State) (by_ : Origin) (payload : string) : Spec :=
  lifecycleSpec KindProvision inst by_ payload false (Some (claimFrom now (nID inst) from StateProvisioning)).

(** ** Runners *)

(** The configuration, the sealed passwords' opening (Keeper's [Decrypt]), the
    decoding of modifiers and the digest of a spec (Launch), and the id a queued
    remote copy draws. *)
Class Control := {
  HostRoot : string; Image_ : string; Network_ : string;
  StopTimeout_ : Z; ReadySettle : Z; ReadyTimeout : Z; PluginLoadWindow : Z;
  openPassword : string -> string -> option string;
  decodeModifiers : string -> option (gmap string string);
  digest : ContainerSpec -> string;
  newCopy : string
}.

(** What a submission asks of the engine beyond the tables. *)
Class Submitting (D : Type) := {
  Refuses : Kind -> D -> option EngineErr * D;     (* no room on the disk, or shutting down *)
  NewID : D -> string * D;
  Owner : string;
  LeaseTTL_ : Z
}.

Section Runners.
Context {D : Type} `{Outside D} `{Control}.

Record World := mkWorld { wDB : PDB; wFaults : faults; wOthers : list (PDB -> PDB); wOut : D; wLog : list string; wTrace : list Ev }.
Definition withDB (db : PDB) (fs : faults) (w : World) : World := mkWorld db fs (wOthers w) (wOut w) (wLog w) (wTrace w).
Definition withOut (d : D) (w : World) : World := mkWorld (wDB w) (wFaults w) (wOthers w) d (wLog w) (wTrace w).

Definition M (A : Type) := World -> A * World.
Definition mret {A} (a : A) : M A := fun w => (a, w).
Definition mbind_ {A B} (m : M A) (k : A -> M B) : M B := fun w => let '(a, w') := m w in k a w'.
Notation "'do!' x := m 'in' k" := (mbind_ m (fun x => k)) (at level 10, x pattern, m at level 100, k at level 200) : go_scope.

(** Everyone else's next change, then the statement. *)
Definition others (w : World) : World :=
  mkWorld (match wOthers w with f :: _ => f (wDB w) | [] => wDB w end) (wFaults w) (tail (wOthers w)) (wOut w) (wLog w) (wTrace w).
Definition tx {A} (m : PTx A) : M (result TxErr A) := fun w =>
  let w := others w in let '(r, (db, fs)) := m (wDB w, wFaults w) in (r, withDB db fs w).
Definition out {A} (f : D -> A * D) : M A := fun w => let '(a, d) := f (wOut w) in (a, withOut d w).
Definition say (line : string) : M unit := fun w => (tt, mkWorld (wDB w) (wFaults w) (wOthers w) (wOut w) (wLog w ++ [line]) (wTrace w)).
Definition note (e : Ev) : M unit := fun w => (tt, mkWorld (wDB w) (wFaults w) (wOthers w) (wOut w) (wLog w) (wTrace w ++ [e])).

(** The calls, each on its record. *)
Definition inspect (cid : string) : M (result RtErr Container) := do! r := out (Inspect cid) in do! _ := note (EInspect cid r) in mret r.
Definition start_ (cid : string) : M (result RtErr unit) := do! r := out (StartContainer cid) in do! _ := note (EStart cid (is_ok r)) in mret r.
Definition stop_ (cid : string) : M (result RtErr unit) :=
  do! r := out (StopContainer cid "SIGINT" StopTimeout_) in do! _ := note (EStop cid (is_ok r)) in mret r.
Definition create (spec : ContainerSpec) : M (result RtErr string) :=
  do! r := out (Create spec) in do! _ := match r with Ok id => note (ECreate id) | Err _ => mret tt end in mret r.
Definition remove (cid : string) : M (result RtErr unit) := do! r := out (Remove cid) in do! _ := note (ERemove cid) in mret r.
(** [instance.SetState], at the clock's reading. *)
Definition setState_ (id : string) (from to : State) : M (result TxErr bool) := do! now := out Clock in tx (SetStateTx now id from to).

(** [settleConfigs]. *)
Definition settleConfigs (id : string) : M unit :=
  do! r := tx (InstanceByID id) in
  match r with
  | Ok None => mret tt
  | Ok (Some inst) => do! ok := out (SettleIn (kDataDir (nCols inst))) in
                      if ok then mret tt else say "warning: config edits saved while the server ran could not be reapplied"
  | Err _ => say "warning: config edits saved while the server ran could not be reapplied"
  end.

(** [runningInDocker]. *)
Definition runningInDocker (inst : Instance_) : M (result string bool) :=
  match iContainerID (nRow inst) with
  | None => mret (Ok false)
  | Some cid =>
      do! c := inspect cid in
      mret (match c with Ok c => Ok (Running c) | Err ErrNotFound => Ok false | Err ErrEngine => Err "check whether the instance is running" end)
  end.

(** *** start.go *)

Definition launchSpecFor (inst : Instance_) (password : string) : LaunchSpec :=
  let c := nCols inst in
  mkLaunch (nID inst) (HostRoot +:+ "/instances/" +:+ nID inst) (kBasePort c) (kServerName c) (kWorldName c) password (kPublic c) (kCrossplay c)
    (kCrossplayID c) (kPreset c) (kModifiers c) (kExtraArgs c) (kGameBackups c) (kMemLimitMB c) (kCPULimit c).

Definition DecryptPassword (id : string) : M (result string string) :=
  do! sealed := tx (InstancePassword id) in
  mret (match sealed with
        | Err _ => Err "read encrypted password"
        | Ok envelope => match openPassword id envelope with Some p => Ok p | None => Err "decrypt password" end
        end).
Definition SpecFor (inst : Instance_) : M (result string ContainerSpec) :=
  do! password := DecryptPassword (nID inst) in
  mret (match password with
        | Err e => Err e
        | Ok p => match BuildSpec decodeModifiers digest (launchSpecFor inst p) Image_ Network_ StopTimeout_ with
                  | Ok spec => Ok spec
                  | Err _ => Err "build container spec"
                  end
        end).

(** The loop of [replaceContainer] over the labelled containers. *)
Fixpoint removeStale (hash : option string) (keep : string) (l : list (string * option string)) : M (result string string) :=
  match l with
  | [] => mret (Ok keep)
  | (cid, h) :: l =>
      if bool_decide (keep = "") && bool_decide (h = hash) then removeStale hash cid l
      else do! r := remove cid in
           match r with
           | Err ErrEngine => mret (Err "remove container")
           | _ => removeStale hash keep l
           end
  end.
Definition specInstance (spec : ContainerSpec) : string := default "" (cLabels spec !! LabelInstanceID).
Definition replaceContainer (spec : ContainerSpec) : M (result string string) :=
  do! found := out (ListInstance (specInstance spec)) in
  match found with
  | Err _ => mret (Err "find instance container")
  | Ok containers =>
      do! keep := removeStale (hashOf spec) "" containers in
      match keep with
      | Err e => mret (Err e)
      | Ok keep =>
          if negb (bool_decide (keep = "")) then mret (Ok keep)
          else do! id := create spec in mret (match id with Ok id => Ok id | Err _ => Err "create instance container" end)
      end
  end.

Definition rebuildIfDrifted (jobID id containerID : string) : M (result string string) :=
  do! row := tx (InstanceByID id) in
  match row with
  | Err _ => mret (Err "load instance")
  | Ok None => mret (Err "instance no longer exists")
  | Ok (Some inst) =>
      do! spec := SpecFor inst in
      match spec with
      | Err e => mret (Err e)
      | Ok spec =>
          do! live := inspect containerID in
          let rebuild :=
            do! _ := say "settings changed since this server was last created; rebuilding its container" in
            do! r := replaceContainer spec in
            match r with
            | Err _ => mret (Err "recreate container")
            | Ok newID =>
                do! now := out Clock in
                do! r := tx (onI (SetInstanceContainerID now id newID)) in
                match r with
                | Err _ => mret (Err "repoint instance at its rebuilt container")
                | Ok _ =>
                    do! r := tx (onI (UpdateJobCheckpoint jobID "container_rebuilt")) in
                    mret (match r with Err _ => Err "checkpoint rebuild" | Ok _ => Ok newID end)
                end
            end in
          match live with
          | Err ErrEngine => mret (Err "inspect container")
          | Err ErrNotFound => rebuild
          | Ok c => if bool_decide (SpecHash c = hashOf spec) then mret (Ok containerID) else rebuild
          end
      end
  end.

Definition assertPluginsLoaded (id containerID : string) : M bool :=
  do! row := tx (InstanceByID id) in
  match row with
  | Ok (Some inst) =>
      if negb (kModded (nCols inst)) then mret true
      else do! ok := out (AwaitPluginLoad containerID PluginLoadWindow) in
           if ok then mret true
           else do! _ := say "warning: this server is modded, but BepInEx never reported a plugin count" in mret false
  | _ => mret true
  end.

Definition startAndAwaitReady (jobID id containerID : string) : M Outcome :=
  do! r := rebuildIfDrifted jobID id containerID in
  match r with
  | Err e => mret (failed Internal e (Some (finishToError id StateStarting)))
  | Ok containerID =>
      do! _ := settleConfigs id in
      do! r := start_ containerID in
      match r with
      | Err _ => mret (failed Internal "start container" (Some (finishToError id StateStarting)))
      | Ok _ =>
          do! _ := say "waiting for readiness" in
          do! ready := out (AwaitReady containerID ReadySettle) in
          match ready with
          | Err _ =>
              do! tail := out (LogTail containerID) in
              do! _ := match tail with Some t => say t | None => mret tt end in
              mret (failed Internal "the server did not become ready" (Some (finishToError id StateStarting)))
          | Ok confirmed =>
              do! plugins := assertPluginsLoaded id containerID in
              do! _ := say ((if confirmed then "running" else "running (registration unconfirmed)") +:+
                            (if plugins then "" else "; BepInEx did not report loading any plugins")) in
              mret (mkOutcome StatusSucceeded None "" None (Some (fun now => onI (FinishStartTx now id StateStarting StateRunning))) [])
          end
      end
  end.
Definition startRun (jobID id containerID : string) : M Outcome :=
  do! _ := say "starting container" in startAndAwaitReady jobID id containerID.

(** *** stop.go *)

Definition awaitSignalHonoured (cid : string) : M unit :=
  do! c := inspect cid in
  match c with
  | Ok c => match StartedAt c with
            | Some at_ =>
                if negb (Running c) then mret tt
                else do! now := out Clock in
                     let left := ReadyTimeout - (now - at_) in
                     if left <=? 0 then mret tt else do! _ := out (AwaitReady cid left) in mret tt
            | None => mret tt
            end
  | Err _ => mret tt
  end.
Definition forceKilled (cid : string) (start : Z) : M bool :=
  do! c := inspect cid in
  match c with
  | Ok c => if Running c then do! now := out Clock in mret (StopTimeout_ <=? now - start)
            else mret ((ExitCode c =? 137) && negb (OOMKilled c))
  | Err _ => do! now := out Clock in mret (StopTimeout_ <=? now - start)
  end.
(** Whether the save line was seen and whether Docker killed it. *)
Definition stopContainer (cid : string) : M (result string (bool * bool)) :=
  if StopTimeout_ <=? 0 then mret (Err "stop container: no stop timeout configured, refusing to kill without a save")
  else
    do! _ := awaitSignalHonoured cid in
    do! start := out Clock in
    do! r := stop_ cid in
    match r with
    | Err _ => mret (Err "stop container")
    | Ok _ =>
        do! killed := forceKilled cid start in
        if killed then mret (Ok (false, true))
        else do! saw := out (SawSaveLine cid start) in
             do! _ := note (ESave (default false saw)) in
             mret (Ok (default false saw, false))
    end.

Definition stopFailure (id : string) (r : result string (bool * bool)) : M (option Outcome) :=
  match r with
  | Err e => mret (Some (failed Internal e (Some (finishToError id StateStopping))))
  | Ok (_, true) =>
      do! _ := say "stop timeout exceeded; Docker escalated to SIGKILL" in
      mret (Some (failed Internal "the server did not stop within the timeout and was force-killed" (Some (finishToError id StateStopping))))
  | Ok (_, false) => mret None
  end.
Definition cleanOf (r : result string (bool * bool)) : bool := match r with Ok (clean, _) => clean | Err _ => false end.

Definition stopRun (id containerID : string) : M Outcome :=
  do! _ := say "stopping container" in
  do! r := stopContainer containerID in
  do! _ := (if is_ok r then settleConfigs id else mret tt) in
  do! bad := stopFailure id r in
  match bad with
  | Some o => mret o
  | None =>
      do! _ := say (if cleanOf r then "stopped" else "stopped (world save not confirmed)") in
      mret (mkOutcome StatusSucceeded None "" (Some (cleanOf r)) (Some (finishMove id StateStopping StateStopped)) [])
  end.

(** *** backup.go *)

Definition archiveFailureCode (e : ArchErr) : Code := match e with Unverifiable => BackupUnverifiable | ArchFailed => Internal end.

Definition Shrunk (bytes baseline : Z) : bool := (0 <? baseline) && (2 * bytes <? baseline).
Definition shrinkage (inst : Instance_) (worldBytes : Z) : M (list Attention) :=
  do! r := tx (readq (fun db => worldBaseline (nID inst) (kWorldName (nCols inst)) (pR db))) in
  match r with
  | Err _ => do! _ := say "could not compare the world with earlier backups" in mret []
  | Ok (Some (baseline, _)) => mret (if Shrunk worldBytes baseline then [("world_shrunk", "the world is under half of its last archive")] else [])
  | Ok None => mret []
  end.
Definition archiveAndVerify (inst : Instance_) (dest trigger : string) (consistent : bool) : M (result ArchErr BackupRow) :=
  do! r := out (Archive (negb consistent) (kDataDir (nCols inst) +:+ "/worlds") dest) in
  do! _ := note (EArchive dest consistent (is_ok r)) in
  match r with
  | Err e => mret (Err e)
  | Ok (size, sum) =>
      let row := fun bytes attention => mkBackup (nID inst) dest size sum (kWorldName (nCols inst)) trigger consistent 0 bytes attention in
      if SnapshotTrigger trigger then mret (Ok (row None []))
      else
        do! found := out (Verify dest (kWorldName (nCols inst))) in
        match found with
        | Err e => do! _ := (fun w => (tt, withOut (RemoveFile dest (wOut w)) w)) in mret (Err e)
        | Ok found =>
            do! shrunk := shrinkage inst (WorldBytes found) in
            do! _ := (if Unchecked found then say "the world was not checked" else mret tt) in
            mret (Ok (row (Some (WorldBytes found)) (vAttention found ++ shrunk)))
        end
  end.

(** [Pruner.Select] with the new archive, whose scan ends within the catalogue. *)
Definition selectPruned (inst : Instance_) (backupID : string) (row : BackupRow) : M (list Entry) :=
  do! now := out Clock in
  do! r := tx (fun s => onR (Select (S (length (archivesOf (nID inst) (pR s.1)))) now (nID inst) (colsOf (nID inst) (pR s.1)) (Some (backupID, row))) s) in
  match r with
  | Ok (Some l) => mret l
  | _ => do! _ := say "could not prune old archives" in mret []
  end.
Definition backupFinish (inst : Instance_) (quiescing : bool) (backupID : string) (row : BackupRow) (pruned : list Entry) : Time -> PTx unit := fun now =>
  onR (finishBackup newCopy now (nID inst) quiescing backupID row pruned).

(** [consistencyClaim]: whether the archive may be recorded as consistent, or the
    outcome of a backup that cannot be taken. *)
Definition consistencyClaim (inst : Instance_) (mode : BackupMode) (wasRunning : bool) (resume : list After) : M (result Outcome bool) :=
  if bool_decide (mode = BackupHot) && wasRunning then mret (Ok false)
  else
    do! running := runningInDocker inst in
    match running with
    | Err e => mret (Err (withAfter resume (failed Internal e None)))
    | Ok false => mret (Ok true)
    | Ok true =>
        if bool_decide (mode = BackupHot) then do! _ := say "the server is running although this instance is recorded as stopped" in mret (Ok false)
        else mret (Err (withAfter resume (failed BackupUnverifiable "the server is running although this instance is recorded as stopped" None)))
    end.

(** [quiesce]: the outcome it ends with, and whether the instance is parked. *)
Definition quiesce (id containerID : string) : M (option (Outcome * bool)) :=
  do! _ := say "stopping the server" in
  do! r := stopContainer containerID in
  do! bad := stopFailure id r in
  match bad with
  | Some o => mret (Some (o, true))
  | None =>
      do! moved := setState_ id StateStopping StateStopped in
      match moved with
      | Err _ => mret (Some (failed Internal "move instance to stopped" None, false))
      | Ok _ =>
          if negb (cleanOf r)
          then mret (Some (withClean false (failed BackupUnverifiable "the server stopped without confirming it had written the world" None), false))
          else do! moved := setState_ id StateStopped StateBackingUp in
               match moved with
               | Err _ => mret (Some (failed Internal "move instance to backing_up" None, false))
               | Ok _ => mret None
               end
      end
  end.

Definition abandonBackup (id : string) (quiescing : bool) (o : Outcome) : M Outcome :=
  if negb quiescing || bool_decide (is_Some (oFinish o)) then mret o
  else
    do! r := setState_ id StateBackingUp StateStopped in
    mret (match r with
          | Err _ => mkOutcome (oStatus o) (oCode o) (oError o +:+ " (and the instance could not be returned to stopped)") (oClean o) (oFinish o) (oAfter o)
          | Ok _ => o
          end).

(** Whether a cancel was asked for; a failed read answers no. *)
Definition cancelRequested (jobID : string) : M bool :=
  do! r := tx (readq (fun db => match JobByID jobID (base db) with Some j => bool_decide (is_Some (CancelRequestedAt j)) | None => false end)) in
  mret (match r with Ok b => b | Err _ => false end).

Definition backupRun (jobID : string) (inst : Instance_) (containerID : string) (mode : BackupMode) (backupID dest trigger : string) (wasRunning : bool) : M Outcome :=
  let quiescing := bool_decide (mode = BackupQuiesced) && wasRunning in
  let resume := if quiescing then [AStart (nID inst) containerID] else [] in
  do! stopped := (if quiescing then quiesce (nID inst) containerID else mret None) in
  match stopped with
  | Some (o, parked) => mret (if parked then o else withAfter resume o)
  | None =>
      do! claim := consistencyClaim inst mode wasRunning resume in
      match claim with
      | Err o => mret o
      | Ok consistent =>
          do! cancelled := cancelRequested jobID in
          if cancelled then abandonBackup (nID inst) quiescing (mkOutcome StatusCancelled None "" None None resume)
          else
            do! _ := say "archiving the world" in
            do! row := archiveAndVerify inst dest trigger consistent in
            match row with
            | Err e => abandonBackup (nID inst) quiescing (withAfter resume (failed (archiveFailureCode e) "archive the world" None))
            | Ok row =>
                do! pruned := selectPruned inst backupID row in
                do! _ := say (if consistent then "backup complete" else "hot copy complete") in
                mret (mkOutcome StatusSucceeded None "" None (Some (backupFinish inst quiescing backupID row pruned)) (ACleanup (nID inst) pruned :: resume))
            end
      end
  end.

(** *** restart.go *)

Definition archiveOnRestart (inst : Instance_) (clean : bool) (backupID dest : string) : M (option (Time -> PTx unit) * list After) :=
  if negb (kBackupOnRestart (nCols inst)) then mret (None, [])
  else if negb clean then do! _ := say "no archive was taken on this restart" in mret (None, [])
  else
    do! _ := say "archiving the world" in
    do! row := archiveAndVerify inst dest "manual" true in
    match row with
    | Err _ => do! _ := say "no archive was taken on this restart" in mret (None, [])
    | Ok row => do! pruned := selectPruned inst backupID row in
                mret (Some (backupFinish inst false backupID row pruned), [ACleanup (nID inst) pruned])
    end.

Definition stopForQueue (id requestedBy : string) (clean : bool) (archived : option (Time -> PTx unit)) (cleanup : list After) : M Outcome :=
  do! _ := settleConfigs id in
  do! _ := say "stopped; installing queued mods, then starting" in
  let finish := fun now => let! _ := finishMove id StateStopping StateStopped now in TxQueueModStart id requestedBy in
  mret (mkOutcome StatusSucceeded None "" (Some clean) (Some (match archived with Some a => chainFinish (Some finish) a | None => finish end)) cleanup).

(** [hasQueue]: a mod queue is wired. *)
Definition restartRun (hasQueue : bool) (jobID : string) (inst : Instance_) (containerID requestedBy backupID dest : string) : M Outcome :=
  let id := nID inst in
  do! _ := say "stopping container" in
  do! r := stopContainer containerID in
  do! bad := stopFailure id r in
  match bad with
  | Some o => mret o
  | None =>
      let clean := cleanOf r in
      do! (archived, cleanup) := archiveOnRestart inst clean backupID dest in
      do! queued := (if hasQueue then
                       do! q := tx (QueuedModInstalls id) in
                       match q with
                       | Ok l => mret (negb (bool_decide (l = [])))
                       | Err _ => do! _ := say "warning: could not read the mod install queue, restarting without it" in mret false
                       end
                     else mret false) in
      if queued then stopForQueue id requestedBy clean archived cleanup
      else
        do! moved := setState_ id StateStopping StateStarting in
        match moved with
        | Err _ => mret (withClean clean (failed Internal "move instance to starting" None))
        | Ok _ =>
            do! _ := say "starting container" in
            do! o := startAndAwaitReady jobID id containerID in
            let o := withClean clean o in
            mret (match archived with
                  | Some a => mkOutcome (oStatus o) (oCode o) (oError o) (oClean o) (Some (chainFinish (oFinish o) a)) (cleanup ++ oAfter o)
                  | None => o
                  end)
        end
  end.

(** *** Submitting

    The engine's [Submit] as a caller sees it: its own refusals, then the claim in the
    tables.  The job it starts is one of the others. *)
Context `{Submitting D}.
Definition submitRow (spec : Spec) (payload : string) : M (result EngineErr string) :=
  do! id := out NewID in
  do! auditID := out NewID in
  do! now := out Clock in
  do! r := tx (onI (ClaimJobWithLocks (submittedJob spec id payload) (sLockKeys spec) Owner (now + LeaseTTL_) now (claimHook spec id auditID now))) in
  mret (match r with
        | Ok j => Ok (ID j)
        | Err (EConflict holder kind) => Err (ErrConflict holder kind)
        | Err e => Err (ErrStore e)
        end).
Definition submit (spec : Spec) : M (result EngineErr string) :=
  do! refusal := out (Refuses (sKind spec)) in
  do! r := match refusal, sPayload spec with
           | Some e, _ => mret (Err e)
           | None, None => mret (Err ErrPayload)
           | None, Some payload => submitRow spec payload
           end in
  do! _ := note (ESubmit spec r) in mret r.
(** [busy]: another job holds the instance. *)
Definition busy (e : EngineErr) : bool := match e with ErrConflict _ _ => true | _ => false end.
End Runners.
Arguments World D : clear implicits.
Arguments M D A : clear implicits.
