(* ===== verification/FinishLaws.v ===== *)
(** The finishes of the lifecycle jobs: where each takes its instance, and that it commits
    where the driver fails nothing. *)
From S2P Require Import Prelude Kinds Lifecycle Sql Store Engine RemoteStore Retention Pruner Errcode Launch PanelRows Runners.

Open Scope Z_scope.

(** ** Writes that move no instance *)

Class StateFrame {A} (m : PTx A) : Prop := state_frame : forall id s r s', m s = (r, s') -> stateOf id s'.1 = stateOf id s.1.

#[export] Instance tret_state {A} (a : A) : StateFrame (tret a).
Proof. by intros id s r s' [= <- <-]. Qed.
#[export] Instance readq_state_frame {A} (f : PDB -> A) : StateFrame (readq f).
Proof. intros id s r s' H%readq_state. by rewrite H. Qed.
#[export] Instance tbind_state {A B} (m : PTx A) (k : A -> PTx B) : StateFrame m -> (forall a, StateFrame (k a)) -> StateFrame (tbind m k).
Proof.
  intros Hm Hk id s r s'. unfold tbind. destruct (m s) as [[a|e] s1] eqn:E; [|intros [= <- <-]; by apply (Hm id) in E].
  intros H. rewrite (Hk a id _ _ _ H). exact (Hm id _ _ _ E).
Qed.
#[export] Instance tfail_state {A} e : StateFrame (@tfail PDB A e).
Proof. by intros id s r s' [= <- <-]. Qed.

#[export] Hint Extern 3 (StateFrame (match ?x with _ => _ end)) => destruct x : typeclass_instances.

(** Those of the archive tables leave the job tables as they are. *)
Definition sameBase (b : DB) (db : RDB) : Prop := rBase db = b.
Lemma onR_state {A} (m : RTx A) : (forall b, Inv (sameBase b) m) -> StateFrame (onR m).
Proof.
  intros Hm id s r s' (b & H & ->)%onR_run. pose proof (Hm (rBase (pR s.1)) _ _ _ H eq_refl) as E. cbn [fst] in E.
  unfold stateOf, base. cbn. by rewrite E.
Qed.
Lemma onI_state {A} (m : Sql.Tx DB A) : (forall db a db' fs fs', m (db, fs) = (a, (db', fs')) -> iState <$> instances db' = iState <$> instances db) -> StateFrame (onI m).
Proof.
  intros Hm id s r s' (b & H & ->)%onI_run. apply Hm in H. unfold stateOf, base. cbn.
  rewrite <- !(lookup_fmap iState), H. done.
Qed.

Lemma updateInstance_states id f db a db' fs fs' : (forall i, iState (f i) = iState i) ->
  updateInstance id f (db, fs) = (a, (db', fs')) -> iState <$> instances db' = iState <$> instances db.
Proof.
  intros Hf H. unfold updateInstance in H. destruct a as [u|e]; [apply stmt_Ok in H as [H _]|apply stmt_Err in H as [H _]; by cbn in H; subst].
  cbn [fst] in H. injection H as _ <-. cbn [instances withInstances]. destruct (instances db !! id) as [i|] eqn:Hi; [|done].
  rewrite fmap_insert, Hf. apply insert_id. by rewrite lookup_fmap, Hi.
Qed.
#[export] Instance SetInstanceContainerID_state now id cid : StateFrame (onI (SetInstanceContainerID now id cid)).
Proof. apply onI_state. intros db a db' fs fs' H. by eapply updateInstance_states in H. Qed.
#[export] Instance UpdateJobCheckpoint_state jobID c : StateFrame (onI (UpdateJobCheckpoint jobID c)).
Proof.
  apply onI_state. intros db a db' fs fs' H. unfold UpdateJobCheckpoint, updateRun, tbind in H.
  destruct (stmt _ (db, fs)) as [[b|e] s1] eqn:E.
  - apply stmt_Ok in E as [E _]. destruct s1 as [d1 f1]. cbn [fst] in E. injection H as _ <- _. 
    repeat (case_match; simplify_eq; try done).
  - apply stmt_Err in E as [E _]. destruct s1. cbn in E. subst. by injection H as _ <- _.
Qed.

#[export] Instance readEntries_base b now id rows : Inv (sameBase b) (readEntries now id rows).
Proof. induction rows; cbn [readEntries]; apply _. Qed.
Lemma readPages_base b fuel limit now id c l : Inv (sameBase b) (readPages fuel limit now id c l).
Proof. revert c l. induction fuel as [|fuel IH]; intros c l; cbn [readPages]; apply _. Qed.
#[export] Instance Select_state fuel now id cols fresh : StateFrame (onR (Select fuel now id cols fresh)).
Proof.
  apply onR_state. intros b. unfold Select. apply tbind_Inv; [apply readPages_base|]. intros; apply _.
Qed.

#[export] Instance TxCreateBackup_base b newCopy now id row : Inv (sameBase b) (TxCreateBackup newCopy now id row).
Proof.
  unfold TxCreateBackup, createBackup. apply tbind_Inv; [|intros _]; apply stmt_Inv; intros db u db' H Hb.
  - destruct (decide _); [done|]. destruct (negb _); [done|]. by injection H as _ <-.
  - by repeat (case_match; simplify_eq).
Qed.
#[export] Instance TxDeleteBackup_base b now i id : Inv (sameBase b) (TxDeleteBackup now i id).
Proof.
  unfold TxDeleteBackup. apply tbind_Inv; [|intros; unfold deleteBackupRow; apply writeq_Inv; intros db Hb; by repeat case_match].
  unfold TxCheckRemoteProtection. apply _.
Qed.
Lemma pruneRows_base b now id l : Inv (sameBase b) (pruneRows now id l).
Proof.
  induction l as [|a l IH]; cbn [pruneRows]; [apply _|]. apply tbind_Inv; [|done]. intros s r s' H Hb. unfold pruneBackupRow in H.
  destruct (TxDeleteBackup now id (eID a) s) as [[u|e] s1] eqn:E; pose proof (TxDeleteBackup_base b _ _ _ _ _ _ E Hb); [by injection H as _ <-|].
  case_match; by injection H as _ <-.
Qed.

(** A backup's finish moves its own instance only where it was stopped for it. *)
Lemma backupFinish_state `{HC : Control} inst q bid row pruned now s s' id : backupFinish inst q bid row pruned now s = (Ok tt, s') ->
  stateOf id s'.1 = if q && bool_decide (id = nID inst) then Some StateStopped else stateOf id s.1.
Proof.
  intros (b & H & ->)%onR_run. unfold finishBackup in H. apply tbind_Ok in H as (u & s1 & H1 & H). apply tbind_Ok in H as (v & s2 & H2 & H).
  pose proof (TxCreateBackup_base (rBase (pR s.1)) _ _ _ _ _ _ _ H1 eq_refl) as E1. pose proof (pruneRows_base (rBase (pR s.1)) _ _ _ _ _ _ H2 E1) as E2.
  unfold sameBase in E2. destruct q; cbn [andb].
  - unfold ValidateTransition in H. replace (Valid StateBackingUp StateStopped) with true in H by (vm_compute; reflexivity). cbn [negb] in H.
    apply tbind_Ok in H as (m & s3 & H3 & H). destruct m; [|done]. injection H as ->. apply onBase_run in H3 as (d & H3 & Hs3). cbn [fst] in Hs3. subst b.
    unfold TxUpdateInstanceState, casInstance in H3. apply stmt_Ok in H3 as [H3 _]. cbn [fst] in H3. rewrite E2 in H3.
    destruct (instances (rBase (pR s.1)) !! nID inst) as [i|] eqn:Hi; [|done]. case_bool_decide; [|done]. case_bool_decide; [|done]. injection H3 as <-.
    unfold stateOf, base. cbn. case_bool_decide as Hid; [subst; by rewrite lookup_insert_eq|]. by rewrite lookup_insert_ne.
  - injection H as ->. cbn [fst] in E2. unfold stateOf, base. cbn. by rewrite E2.
Qed.

(** ** Without failures *)

Definition quiet (fs : faults) : Prop := Forall (eq false) fs.
Lemma stmt_quiet {T A} (f : T -> result TxErr (A * T)) s : quiet s.2 ->
  stmt f s = match f s.1 with Ok (a, d) => (Ok a, (d, tail s.2)) | Err e => (Err e, (s.1, tail s.2)) end.
Proof. destruct s as [d [|x l]]; [done|]. intros Hq. inversion Hq; subst. done. Qed.
Lemma quiet_tail fs : quiet fs -> quiet (tail fs).
Proof. destruct 1; [constructor|done]. Qed.
Lemma drained {T A} (m : Sql.Tx T A) s r s' : Drains m -> m s = (r, s') -> quiet s.2 -> quiet s'.2.
Proof. intros Hm E Hq. destruct (Hm s) as [k Hk]. rewrite E in Hk. cbn in Hk. rewrite Hk. by apply Forall_drop. Qed.

(** What a finish reads besides the instance. *)
Definition rest (db : PDB) : gmap string BackupRow * gmap string CopyRow * gmap string string :=
  (rBackups (pR db), rCopies (pR db), users (base db)).
Lemma casInstance_rest id from to f s r s' : onI (casInstance id from to f) s = (r, s') -> rest s'.1 = rest s.1.
Proof.
  intros (b & H & E)%onI_run. rewrite E. unfold rest, base. cbn. enough (users b = users (rBase (pR s.1))) as -> by done.
  unfold casInstance in H. destruct r as [m|e]; [apply stmt_Ok in H as [H _]|apply stmt_Err in H as [H _]; by cbn in H; subst].
  cbn [fst] in H. repeat (case_match; simplify_eq; try done).
Qed.
Lemma SetStateTx_rest now id from to s r s' : SetStateTx now id from to s = (r, s') -> rest s'.1 = rest s.1.
Proof. unfold SetStateTx. destruct (ValidateTransition from to); [apply casInstance_rest|by intros [= <- <-]]. Qed.

(** ** Where a finish takes the instance *)

(** From [from], committed, it leaves [to]; and it commits where the driver fails nothing
    and the tables have what it needs. *)
Definition landsIn (id : string) (from to : State) (needs : PDB -> Prop) (f : Time -> PTx unit) : Prop := forall now s r s',
  stateOf id s.1 = Some from -> f now s = (r, s') -> (r = Ok tt -> stateOf id s'.1 = Some to) /\ (quiet s.2 -> needs s.1 -> r = Ok tt).
Definition nothing_ (db : PDB) : Prop := True.

Lemma landsIn_weaken id from to (P Q : PDB -> Prop) f : (forall db, Q db -> P db) -> landsIn id from to P f -> landsIn id from to Q f.
Proof. intros HPQ Hl now s r s' Hs E. destruct (Hl now s r s' Hs E). split; auto. Qed.
Lemma setState_finish now id from to s r s' : Valid from to = true -> to ∈ states -> stateOf id s.1 = Some from -> SetStateTx now id from to s = (r, s') ->
  (r = Ok true /\ stateOf id s'.1 = Some to) \/ (exists e, r = Err e) /\ ~ quiet s.2.
Proof.
  intros Hv Hto Hs E. pose proof (SetStateTx_moves now id from to s.1 s.2) as Hm. rewrite <- surjective_pairing, E in Hm.
  apply SetStateTx_cases in E as [(-> & _ & _ & H)|[[[-> H]|[e ->]] _]]; [by left|done|]. right. split; [by eauto|]. intros Hq. specialize (Hm Hq Hv Hto Hs). done.
Qed.

Lemma finishToError_lands id from : Valid from StateError = true -> landsIn id from StateError nothing_ (finishToError id from).
Proof.
  intros Hv now s r s' Hs E. unfold finishToError, tbind in E. destruct (SetStateTx now id from StateError s) as [r1 s1] eqn:E1.
  apply setState_finish in E1 as [[-> H]|[[e ->] H]]; [| |done|by apply (bool_decide_unpack _)|done]; injection E as <- <-; by split.
Qed.
Lemma finishMove_lands id from to : Valid from to = true -> to ∈ states -> landsIn id from to nothing_ (finishMove id from to).
Proof.
  intros Hv Hto now s r s' Hs E. unfold finishMove, tbind in E. destruct (SetStateTx now id from to s) as [r1 s1] eqn:E1.
  apply setState_finish in E1 as [[-> H]|[[e ->] H]]; [| |done..]; injection E as <- <-; by split.
Qed.
Lemma finishStart_lands id : landsIn id StateStarting StateRunning nothing_ (fun now => onI (FinishStartTx now id StateStarting StateRunning)).
Proof.
  intros now s r s' Hs E. apply onI_run in E as (b & H1 & ->). unfold FinishStartTx, ValidateTransition in H1.
  replace (Valid StateStarting StateRunning) with true in H1 by (vm_compute; reflexivity). cbn [negb] in H1.
  unfold stateOf in Hs. destruct (instances (base s.1) !! id) as [i|] eqn:Hi; [|done]. injection Hs as Hs.
  unfold TxFinishStart, tbind in H1. destruct (casInstance _ _ _ _ _) as [r1 s1] eqn:E1. split.
  - intros ->. destruct r1 as [m|e]; [|done]. destruct m; [|done]. injection H1 as ->. unfold casInstance in E1. apply stmt_Ok in E1 as [E1 _].
    cbn [fst] in E1. rewrite Hi, !bool_decide_eq_true_2 in E1 by (done || by apply (bool_decide_unpack _)). injection E1 as <-.
    unfold stateOf, base. cbn. by rewrite lookup_insert_eq.
  - intros Hq _. unfold casInstance in E1. rewrite stmt_quiet in E1 by done. cbn [fst] in E1.
    rewrite Hi, !bool_decide_eq_true_2 in E1 by (done || by apply (bool_decide_unpack _)). injection E1 as <- <-. by injection H1 as <-.
Qed.

(** *** Archives *)
Section Archived.
Context `{HC : Control}.

(** An archive and a copy of these ids are free. *)
Definition room (bid : string) (db : PDB) : Prop := rBackups (pR db) !! bid = None /\ rCopies (pR db) !! newCopy = None.
Lemma rest_room bid db db' : rest db' = rest db -> room bid db -> room bid db'.
Proof. intros E. injection E as E1 E2 _. unfold room. by rewrite E1, E2. Qed.

Lemma TxCreateBackup_quiet now bid row s r s' : quiet s.2 -> bTrigger row ∈ triggers -> is_Some (instances (rBase s.1) !! bInstance row) ->
  rBackups s.1 !! bid = None -> rCopies s.1 !! newCopy = None -> TxCreateBackup newCopy now bid row s = (r, s') -> r = Ok tt.
Proof.
  intros Hq Ht Hi Hb Hc E. unfold TxCreateBackup, createBackup, tbind in E. rewrite stmt_quiet in E by done.
  rewrite decide_False, !bool_decide_eq_true_2 in E by (done || by apply eq_None_not_Some). cbn [andb negb] in E.
  unfold enqueueRemoteCopy in E. rewrite stmt_quiet in E by (by apply quiet_tail). cbn [fst] in E.
  repeat case_match; simplify_eq; try done. cbn [rCopies withBackups] in *. by apply eq_None_not_Some in Hc.
Qed.
Lemma pruneRows_quiet now id l s r s' : quiet s.2 -> pruneRows now id l s = (r, s') -> r = Ok tt.
Proof.
  revert s. induction l as [|a l IH]; intros s Hq E; cbn [pruneRows] in E; [by injection E as <-|]. unfold tbind in E.
  destruct (pruneBackupRow now id (eID a) s) as [r1 s1] eqn:E1.
  assert (r1 = Ok tt /\ quiet s1.2) as [-> Hq1]; [|by apply IH in E].
  unfold pruneBackupRow in E1. destruct (TxDeleteBackup now id (eID a) s) as [r2 s2] eqn:E2.
  assert (quiet s2.2) as Hq2 by (apply (drained (TxDeleteBackup now id (eID a)) s r2); [unfold TxDeleteBackup, TxCheckRemoteProtection, deleteBackupRow; apply _|done..]).
  assert (r2 = Ok tt \/ r2 = Err ErrBackupProtected) as [->| ->].
  { unfold TxDeleteBackup, TxCheckRemoteProtection, deleteBackupRow, readq, writeq, tbind in E2. rewrite stmt_quiet in E2 by done.
    cbn beta iota in E2. destruct (protected _ _ _ _); [injection E2 as <- _; by right|]. unfold tret in E2. rewrite stmt_quiet in E2 by (by apply quiet_tail).
    injection E2 as <- _. by left. }
  - by injection E1 as <- <-.
  - rewrite decide_True in E1 by done. by injection E1 as <- <-.
Qed.
#[export] Instance pruneRows_drains now id l : Drains (pruneRows now id l).
Proof.
  induction l as [|a l IH]; cbn [pruneRows]; [apply _|]. apply tbind_drains; [|by intros]. intros s. unfold pruneBackupRow.
  assert (Drains (TxDeleteBackup now id (eID a))) as Hd by (unfold TxDeleteBackup, TxCheckRemoteProtection, deleteBackupRow; apply _).
  destruct (Hd s) as [k Hk]. exists k. destruct (TxDeleteBackup now id (eID a) s) as [[u|e] s1]; [done|]. by case_decide.
Qed.

Lemma backupFinish_quiet inst (q : bool) bid row pruned now s r s' :
  quiet s.2 -> bTrigger row ∈ triggers -> bInstance row = nID inst -> room bid s.1 ->
  is_Some (stateOf (nID inst) s.1) -> (q = true -> stateOf (nID inst) s.1 = Some StateBackingUp) ->
  backupFinish inst q bid row pruned now s = (r, s') -> r = Ok tt.
Proof.
  intros Hq Ht Hi [Hb Hc] Hs Hbk E. unfold backupFinish in E. apply onR_run in E as (b & E & _). unfold finishBackup, tbind in E.
  destruct (TxCreateBackup _ _ _ _ _) as [r1 s1] eqn:E1.
  assert (r1 = Ok tt) as ->.
  { apply (TxCreateBackup_quiet now bid row (pR s.1, s.2) r1 s1); try done. rewrite Hi. unfold stateOf, base in Hs. by apply fmap_is_Some in Hs. }
  pose proof (TxCreateBackup_base (rBase (pR s.1)) _ _ _ _ _ _ _ E1 eq_refl) as B1.
  apply drained in E1 as Q1; [|unfold TxCreateBackup, createBackup, enqueueRemoteCopy; apply _|done].
  destruct (pruneRows now (nID inst) pruned s1) as [r2 s2] eqn:E2. pose proof (pruneRows_base _ _ _ _ _ _ _ E2 B1) as B2.
  apply drained in E2 as Q2; [|apply _|done]. apply pruneRows_quiet in E2 as ->; [|done]. destruct q; [|by injection E as <-].
  unfold ValidateTransition in E. replace (Valid StateBackingUp StateStopped) with true in E by (vm_compute; reflexivity). cbn [negb] in E.
  destruct (onBase _ s2) as [r3 s3] eqn:E3. apply onBase_run in E3 as (d & E3 & _).
  unfold TxUpdateInstanceState, casInstance in E3. rewrite stmt_quiet in E3 by done. cbn [fst] in E3. unfold sameBase in B2. rewrite B2 in E3.
  specialize (Hbk eq_refl). unfold stateOf, base in Hbk. destruct (instances (rBase (pR s.1)) !! nID inst) as [i|]; [|done]. injection Hbk as Hbk.
  rewrite !bool_decide_eq_true_2 in E3 by (done || by apply (bool_decide_unpack _)). injection E3 as <- _ _. by injection E as <-.
Qed.
End Archived.
