(* ===== verification/RunnersSafe.v ===== *)
(** What the lifecycle jobs promise: where a run and its finish leave the instance,
    what a backup gives back, what an archive recorded as consistent was taken of, and
    what a rebuild leaves of the containers. *)
From S2P Require Import Prelude Kinds Lifecycle Sql Store Engine RemoteStore Retention Pruner Errcode Launch PanelRows Runners FinishLaws.

Open Scope Z_scope.

Section Safe.
Context {D : Type} `{Outside D} `{Control}.

(** ** The frame of a runner

    The instance is in a state and nobody else moves it: what the lock is for. *)
Definition keeps (id : string) (f : PDB -> PDB) : Prop := forall db, stateOf id (f db) = stateOf id db.
Definition inState (id : string) (s : State) (w : World D) : Prop := stateOf id (wDB w) = Some s /\ Forall (keeps id) (wOthers w).

(** A runner's own computations move no instance of theirs and only add to the trace. *)
Class Keeps {A} (m : M D A) : Prop := keeps_both : forall w a w', m w = (a, w') ->
  (forall id s, inState id s w -> inState id s w') /\ wTrace w `prefix_of` wTrace w'.
Lemma keeps_state {A} (m : M D A) id s w a w' : Keeps m -> m w = (a, w') -> inState id s w -> inState id s w'.
Proof. intros Hm E. apply (Hm _ _ _ E). Qed.

#[local] Instance mret_keeps {A} (a : A) : Keeps (mret a).
Proof. intros w b w' [= <- <-]. by split. Qed.
#[local] Instance bind_keeps {A B} (m : M D A) (k : A -> M D B) : Keeps m -> (forall a, Keeps (k a)) -> Keeps (mbind_ m k).
Proof.
  intros Hm Hk w b w'. unfold mbind_. destruct (m w) as [a w1] eqn:E. intros [K2 P2]%(Hk a). apply Hm in E as [K1 P1].
  split; [by auto|by etrans].
Qed.
#[local] Instance out_keeps {A} (f : D -> A * D) : Keeps (out f).
Proof. intros w a w'. unfold out. destruct (f _). intros [= <- <-]. by split. Qed.
#[local] Instance say_keeps l : Keeps (say l).
Proof. intros w a w' [= <- <-]. by split. Qed.
#[local] Instance note_keeps e : Keeps (note e).
Proof. intros w a w' [= <- <-]. split; [done|]. by eexists. Qed.
Lemma others_in id s w : inState id s w -> inState id s (others w).
Proof.
  intros [Hs Ho]. unfold others, inState. cbn [wDB wOthers]. destruct (wOthers w) as [|f l]; [done|]. inversion_clear Ho. split; [|done].
  by rewrite H1.
Qed.
#[local] Instance tx_keeps {A} (m : PTx A) : StateFrame m -> Keeps (tx m).
Proof.
  intros Hm w a w'. unfold tx. destruct (m _) as [r [db fs]] eqn:E. intros [= <- <-]. split; [|done]. intros id s Hs.
  apply others_in in Hs as [Hs Ho]. apply (Hm id) in E. cbn [fst] in E. split; [|done]. cbn. by rewrite E.
Qed.
#[local] Instance if_keeps {A} (b : bool) (m m' : M D A) : Keeps m -> Keeps m' -> Keeps (if b then m else m').
Proof. by destruct b. Qed.
#[local] Hint Extern 3 (Keeps (match ?x with _ => _ end)) => destruct x : typeclass_instances.

#[local] Instance inspect_keeps cid : Keeps (inspect cid).
Proof. unfold inspect. apply _. Qed.
#[local] Instance settleConfigs_keeps id : Keeps (settleConfigs id).
Proof. unfold settleConfigs, InstanceByID. apply _. Qed.
#[local] Instance SpecFor_keeps inst : Keeps (SpecFor inst).
Proof. unfold SpecFor, DecryptPassword, InstancePassword. apply _. Qed.
#[local] Instance removeStale_keeps h keep l : Keeps (removeStale h keep l).
Proof. revert keep. induction l as [|[cid h'] l IH]; intros keep; cbn [removeStale]; unfold remove; apply _. Qed.
#[local] Instance replaceContainer_keeps spec : Keeps (replaceContainer spec).
Proof. unfold replaceContainer, create. apply _. Qed.
#[local] Instance rebuildIfDrifted_keeps j id cid : Keeps (rebuildIfDrifted j id cid).
Proof. unfold rebuildIfDrifted, InstanceByID. apply _. Qed.
#[local] Instance assertPluginsLoaded_keeps id cid : Keeps (assertPluginsLoaded id cid).
Proof. unfold assertPluginsLoaded, InstanceByID. apply _. Qed.
#[local] Instance startAndAwaitReady_keeps j id cid : Keeps (startAndAwaitReady j id cid).
Proof. unfold startAndAwaitReady, start_. apply _. Qed.
#[local] Instance awaitSignalHonoured_keeps cid : Keeps (awaitSignalHonoured cid).
Proof. unfold awaitSignalHonoured. apply _. Qed.
#[local] Instance stopContainer_keeps cid : Keeps (stopContainer cid).
Proof. unfold stopContainer, stop_, forceKilled. apply _. Qed.
#[local] Instance stopFailure_keeps id r : Keeps (stopFailure id r).
Proof. unfold stopFailure. apply _. Qed.
#[local] Instance shrinkage_keeps inst n : Keeps (shrinkage inst n).
Proof. unfold shrinkage. apply _. Qed.
#[local] Instance RemoveFile_keeps dest : Keeps (fun w : World D => (tt, withOut (RemoveFile dest (wOut w)) w)).
Proof. intros w a w' [= <- <-]. by split. Qed.
#[local] Instance archiveAndVerify_keeps inst dest t c : Keeps (archiveAndVerify inst dest t c).
Proof. unfold archiveAndVerify. apply _. Qed.
#[local] Instance selectPruned_keeps inst b row : Keeps (selectPruned inst b row).
Proof.
  unfold selectPruned. apply bind_keeps; [apply _|]. intros now. apply bind_keeps; [|intros; apply _]. apply tx_keeps.
  intros id s r s' E. exact (Select_state _ _ _ _ _ id _ _ _ E).
Qed.
#[local] Instance archiveOnRestart_keeps inst c b dest : Keeps (archiveOnRestart inst c b dest).
Proof. unfold archiveOnRestart. apply _. Qed.
#[local] Instance runningInDocker_keeps inst : Keeps (runningInDocker inst).
Proof. unfold runningInDocker. apply _. Qed.
#[local] Instance consistencyClaim_keeps inst mode was resume : Keeps (consistencyClaim inst mode was resume).
Proof. unfold consistencyClaim. apply _. Qed.
#[local] Instance cancelRequested_keeps j : Keeps (cancelRequested j).
Proof. unfold cancelRequested. apply _. Qed.

(** ** What a computation answers, whatever happens *)

Definition returns {A} (P : A -> Prop) (m : M D A) : Prop := forall w, P (m w).1.
Lemma returns_ret {A} (P : A -> Prop) a : P a -> returns P (mret a).
Proof. by intros HP w. Qed.
Lemma returns_bind {A B} (P : B -> Prop) (m : M D A) k : (forall a, returns P (k a)) -> returns P (mbind_ m k).
Proof. intros Hk w. unfold mbind_. destruct (m w) as [a w1]. apply Hk. Qed.
Lemma returns_run {A} (P : A -> Prop) (m : M D A) w a w' : returns P m -> m w = (a, w') -> P a.
Proof. intros Hm E. specialize (Hm w). by rewrite E in Hm. Qed.
Ltac answers :=
  repeat match goal with
  | |- returns _ (mbind_ _ _) => apply returns_bind; intros
  | |- returns _ (mret _) => apply returns_ret
  | |- returns _ (match ?x with _ => _ end) => destruct x
  end.

(** ** What follows a step of a runner *)

Lemma step_in {A B} (m : M D A) (k : A -> M D B) id s w b w' : Keeps m -> mbind_ m k w = (b, w') -> inState id s w ->
  exists a w1, m w = (a, w1) /\ inState id s w1 /\ k a w1 = (b, w').
Proof. intros Hm. unfold mbind_. destruct (m w) as [a w1] eqn:E. intros Hk Hs. exists a, w1. split_and!; [done|exact (keeps_state m id s w a w1 Hm E Hs)|done]. Qed.
Lemma step_grows {A B} (m : M D A) (k : A -> M D B) w b w' : Keeps m -> mbind_ m k w = (b, w') ->
  exists a w1, m w = (a, w1) /\ wTrace w `prefix_of` wTrace w1 /\ k a w1 = (b, w').
Proof. intros Hm. unfold mbind_. destruct (m w) as [a w1] eqn:E. intros Hk. exists a, w1. split_and!; [done|apply (Hm _ _ _ E)|done]. Qed.

(** An event of the run from [w] to [w']. *)
Definition adds (w w' : World D) (e : Ev) : Prop := exists l, wTrace w' = wTrace w ++ l /\ e ∈ l.
Lemma adds_prefix w0 w1 w2 w3 e : wTrace w0 `prefix_of` wTrace w1 -> adds w1 w2 e -> wTrace w2 `prefix_of` wTrace w3 -> adds w0 w3 e.
Proof.
  intros [l0 E0] (l & E & Hin) [l3 E3]. exists (l0 ++ l ++ l3). rewrite E3, E, E0, !app_assoc. split; [done|].
  rewrite !elem_of_app. by left; right.
Qed.

(** A run that ended in [w] with [o]: the state its instance is in once [o] is finished. *)
Definition ends (id : string) (o : Outcome) (w : World D) (to : State) (needs : PDB -> Prop) : Prop := exists s, inState id s w /\
  match oFinish o with Some f => landsIn id s to needs f | None => s = to end.

(** A finish of the start's: it reads and writes nothing but its instance. *)
Definition plain (f : Time -> PTx unit) : Prop := forall now, Drains (f now) /\ forall s r s', f now s = (r, s') -> rest s'.1 = rest s.1.
Lemma SetStateTx_drains now id from to : Drains (SetStateTx now id from to).
Proof. unfold SetStateTx, onI, TxUpdateInstanceState, casInstance. apply _. Qed.
Lemma finishToError_plain id from : plain (finishToError id from).
Proof.
  intros now. split; [apply tbind_drains; [apply SetStateTx_drains|intros; apply _]|]. intros s r s' E. unfold finishToError, tbind in E.
  destruct (SetStateTx now id from StateError s) as [[m|e] s1] eqn:E1; injection E as _ <-; by apply SetStateTx_rest in E1.
Qed.
Lemma finishMove_plain id from to : plain (finishMove id from to).
Proof.
  intros now. split; [apply tbind_drains; [apply SetStateTx_drains|intros; apply _]|]. intros s r s' E. unfold finishMove, tbind in E.
  destruct (SetStateTx now id from to s) as [[[]|e] s1] eqn:E1; injection E as _ <-; by apply SetStateTx_rest in E1.
Qed.
Lemma finishStart_plain id from to : plain (fun now => onI (FinishStartTx now id from to)).
Proof.
  intros now. split; [unfold onI, FinishStartTx, TxFinishStart, casInstance; apply _|]. intros s r s' E.
  apply onI_run in E as (b & E & ->). unfold FinishStartTx in E. destruct (ValidateTransition from to); [|injection E as _ <- _; by destruct s as [[[] ? ? ? ? ? ? ? ?] ?]].
  unfold TxFinishStart, tbind in E.
  destruct (casInstance _ _ _ _ _) as [r1 [d fs1]] eqn:E1. assert (b = d) as -> by (destruct r1 as [[]|]; cbn [must] in E; unfold tret, tfail in E; congruence).
  eapply (casInstance_rest id from to _ (s.1, s.2) r1 (withR (withBase d (pR s.1)) s.1, fs1)).
  unfold onI, onR, onBase. cbn [fst snd]. unfold base in E1. by rewrite E1.
Qed.

(** The finish of a start or of a queue, followed by an archive's. *)
Lemma chainFinish_lands id from to (needs : PDB -> Prop) first inst bid row pruned : id = nID inst -> bTrigger row ∈ triggers -> bInstance row = nID inst ->
  landsIn id from to needs first -> (forall now, Drains (first now)) -> (forall now s r s', first now s = (r, s') -> rest s'.1 = rest s.1) ->
  landsIn id from to (fun db => needs db /\ room bid db) (chainFinish (Some first) (backupFinish inst false bid row pruned)).
Proof.
  intros -> Ht Hi Hl Hd Hr now s r s' Hs E. unfold chainFinish, tbind in E. destruct (first now s) as [r1 s1] eqn:E1.
  destruct (Hl now s r1 s1 Hs E1) as [H1 H2]. split.
  - intros ->. destruct r1 as [[]|e]; [|done]. apply (backupFinish_state inst false bid row pruned now s1 s' (nID inst)) in E. rewrite E. by apply H1.
  - intros Hq [Hn Hroom]. rewrite (H2 Hq Hn) in *. eapply (backupFinish_quiet inst false); [..|exact E]; try done.
    + by apply (drained (first now) s (Ok tt) s1).
    + apply Hr in E1. by apply (rest_room _ s.1).
    + by rewrite (H1 eq_refl).
Qed.
#[local] Instance TxQueueModStart_frame id by_ : StateFrame (TxQueueModStart id by_).
Proof.
  intros i s r s' E. unfold TxQueueModStart in E. destruct r as [u|e]; [apply stmt_Ok in E as [E _]|apply stmt_Err in E as [E _]; by rewrite E].
  destruct (_ && _); [|done]. by injection E as _ <-.
Qed.

(** *** start *)
Definition started (id : string) (o : Outcome) : Prop := oAfter o = [] /\ exists f, oFinish o = Some f /\ plain f /\
  ((oStatus o = StatusFailed /\ landsIn id StateStarting StateError nothing_ f) \/
   (oStatus o = StatusSucceeded /\ landsIn id StateStarting StateRunning nothing_ f)).
Lemma start_parked id msg : started id (failed Internal msg (Some (finishToError id StateStarting))).
Proof.
  split; [done|]. eexists. split; [done|]. split; [apply finishToError_plain|]. left. split; [done|].
  apply finishToError_lands. vm_compute. reflexivity.
Qed.
Lemma startAndAwaitReady_started j id cid w o w' : startAndAwaitReady j id cid w = (o, w') ->
  started id o /\ (oStatus o = StatusSucceeded -> exists c, adds w w' (EStart c true)).
Proof.
  intros E. unfold startAndAwaitReady in E. apply step_grows in E as (r & w1 & _ & P1 & E); [|apply _]. destruct r as [c|e].
  2: { injection E as <- <-. by split; [apply start_parked|]. }
  apply step_grows in E as (? & w2 & _ & P2 & E); [|apply _]. unfold start_ in E. unfold mbind_ at 1 2 in E.
  destruct (out (StartContainer c) w2) as [r w3] eqn:E3. assert (wTrace w3 = wTrace w2) as T3 by (unfold out in E3; destruct (StartContainer c _); by injection E3 as _ <-).
  destruct r as [u|e]; cbn [note mbind_ mret is_ok] in E.
  2: { injection E as <- <-. by split; [apply start_parked|]. }
  apply step_grows in E as (? & w5 & _ & P5 & E); [|apply _]. apply step_grows in E as (ready & w6 & _ & P6 & E); [|apply _].
  destruct ready as [confirmed|e].
  2: { do 2 (apply step_grows in E as (? & ? & _ & _ & E); [|apply _]). injection E as <- <-. by split; [apply start_parked|]. }
  apply step_grows in E as (plugins & w7 & _ & P7 & E); [|apply _]. apply step_grows in E as (? & w8 & _ & P8 & E); [|apply _].
  injection E as <- <-. split.
  - split; [done|]. eexists. split; [done|]. split; [apply finishStart_plain|]. right. split; [done|]. apply finishStart_lands.
  - intros _. exists c. apply (adds_prefix w w2 (mkWorld (wDB w3) (wFaults w3) (wOthers w3) (wOut w3) (wLog w3) (wTrace w3 ++ [EStart c true])) w8); [by etrans| |by repeat (etrans; [eassumption|])].
    exists [EStart c true]. cbn. rewrite T3. split; [done|by left].
Qed.
Definition lands (o : Outcome) (good : State) : State := if bool_decide (oStatus o = StatusSucceeded) then good else StateError.
Lemma started_ends id o w : started id o -> inState id StateStarting w -> ends id o w (lands o StateRunning) nothing_.
Proof.
  intros [_ (f & Hf & _ & H1)] Hs. exists StateStarting. split; [done|]. rewrite Hf. unfold lands. by destruct H1 as [[-> H1]|[-> H1]].
Qed.

(** ** What a runner takes from the faults *)

Class Draws {A} (m : M D A) : Prop := draws : forall w a w', m w = (a, w') -> exists k, wFaults w' = drop k (wFaults w).
#[local] Instance mret_draws {A} (a : A) : Draws (mret a).
Proof. intros w b w' [= <- <-]. by exists 0%nat. Qed.
#[local] Instance bind_draws {A B} (m : M D A) (k : A -> M D B) : Draws m -> (forall a, Draws (k a)) -> Draws (mbind_ m k).
Proof.
  intros Hm Hk w b w'. unfold mbind_. destruct (m w) as [a w1] eqn:E. intros Hb. apply Hm in E as [i Hi]. apply Hk in Hb as [j Hj].
  exists (i + j)%nat. by rewrite Hj, Hi, drop_drop.
Qed.
#[local] Instance out_draws {A} (f : D -> A * D) : Draws (out f).
Proof. intros w a w'. unfold out. destruct (f _). intros [= <- <-]. by exists 0%nat. Qed.
#[local] Instance say_draws l : Draws (say l).
Proof. intros w a w' [= <- <-]. by exists 0%nat. Qed.
#[local] Instance note_draws e : Draws (note e).
Proof. intros w a w' [= <- <-]. by exists 0%nat. Qed.
#[local] Instance tx_draws {A} (m : PTx A) : Drains m -> Draws (tx m).
Proof.
  intros Hm w a w'. unfold tx. specialize (Hm (wDB (others w), wFaults (others w))). destruct (m _) as [r [db fs]]. intros [= <- <-]. exact Hm.
Qed.
#[local] Instance if_draws {A} (b : bool) (m m' : M D A) : Draws m -> Draws m' -> Draws (if b then m else m').
Proof. by destruct b. Qed.
#[local] Hint Extern 3 (Draws (match ?x with _ => _ end)) => destruct x : typeclass_instances.
#[local] Instance inspect_draws cid : Draws (inspect cid).
Proof. unfold inspect. apply _. Qed.
#[local] Instance awaitSignalHonoured_draws cid : Draws (awaitSignalHonoured cid).
Proof. unfold awaitSignalHonoured. apply _. Qed.
#[local] Instance stopContainer_draws cid : Draws (stopContainer cid).
Proof. unfold stopContainer, stop_, forceKilled. apply _. Qed.
#[local] Instance stopFailure_draws id r : Draws (stopFailure id r).
Proof. unfold stopFailure. apply _. Qed.
#[local] Instance setState_draws id from to : Draws (setState_ id from to).
Proof. unfold setState_. pose proof SetStateTx_drains. apply _. Qed.
#[local] Instance consistencyClaim_draws inst mode was resume : Draws (consistencyClaim inst mode was resume).
Proof. unfold consistencyClaim, runningInDocker. apply _. Qed.
#[local] Instance cancelRequested_draws j : Draws (cancelRequested j).
Proof. unfold cancelRequested. apply _. Qed.
#[local] Instance shrinkage_draws inst n : Draws (shrinkage inst n).
Proof. unfold shrinkage. apply _. Qed.
#[local] Instance RemoveFile_draws dest : Draws (fun w : World D => (tt, withOut (RemoveFile dest (wOut w)) w)).
Proof. intros w a w' [= <- <-]. by exists 0%nat. Qed.
#[local] Instance archiveAndVerify_draws inst dest t c : Draws (archiveAndVerify inst dest t c).
Proof. unfold archiveAndVerify. apply _. Qed.

#[local] Instance readEntries_drains now id rows : Drains (readEntries now id rows).
Proof. induction rows; cbn [readEntries]; apply _. Qed.
Lemma readPages_drains fuel limit now id c l : Drains (readPages fuel limit now id c l).
Proof. revert c l. induction fuel as [|fuel IH]; intros c l; cbn [readPages]; apply _. Qed.
#[local] Instance selectPruned_draws inst bid row : Draws (selectPruned inst bid row).
Proof.
  unfold selectPruned. apply bind_draws; [apply _|]. intros now. apply bind_draws; [|intros; apply _]. apply tx_draws.
  intros s. assert (forall fuel, Drains (onR (Select fuel now (nID inst) (colsOf (nID inst) (pR s.1)) (Some (bid, row))))) as Hd.
  { intros fuel. apply onR_drains. unfold Select. apply tbind_drains; [apply readPages_drains|]. intros; apply _. }
  apply Hd.
Qed.
#[local] Instance archiveOnRestart_draws inst c bid dest : Draws (archiveOnRestart inst c bid dest).
Proof. unfold archiveOnRestart. apply _. Qed.
Lemma hush {A} (m : M D A) w a w' : Draws m -> m w = (a, w') -> quiet (wFaults w) -> quiet (wFaults w').
Proof. intros Hm E Hw. apply Hm in E as [k Hk]. rewrite Hk. by apply Forall_drop. Qed.


(** *** stop *)

(** Docker's answer after the stop, where it is taken for a kill. *)
Definition killed (c : result RtErr Container) : Prop :=
  match c with Ok c => Running c = true \/ (ExitCode c = 137 /\ OOMKilled c = false) | Err _ => True end.
(** The stop failed, or Docker killed the server: its saving was never asked about. *)
Definition badStop (cid : string) (w w' : World D) : Prop := exists l, wTrace w' = wTrace w ++ l /\ (forall b, ESave b ∉ l) /\
  (StopTimeout_ <= 0 \/ last l = Some (EStop cid false) \/ exists c, last l = Some (EInspect cid c) /\ killed c).
(** It stopped by itself, having written the world or not. *)
Definition goodStop (cid : string) (clean : bool) (w w' : World D) : Prop := adds w w' (EStop cid true) /\ adds w w' (ESave clean).

Lemma out_trace {A} (f : D -> A * D) w a w' : out f w = (a, w') -> wTrace w' = wTrace w.
Proof. unfold out. destruct (f _). by intros [= _ <-]. Qed.
Lemma inspect_trace cid w r w' : inspect cid w = (r, w') -> wTrace w' = wTrace w ++ [EInspect cid r].
Proof. unfold inspect, mbind_. destruct (out _ w) as [c w1] eqn:E. apply out_trace in E. intros [= <- <-]. cbn. by rewrite E. Qed.
Lemma awaitSignalHonoured_trace cid w u w' : awaitSignalHonoured cid w = (u, w') -> exists l, wTrace w' = wTrace w ++ l /\ forall b, ESave b ∉ l.
Proof.
  unfold awaitSignalHonoured. unfold mbind_ at 1. destruct (inspect cid w) as [c w1] eqn:E. apply inspect_trace in E. intros E'.
  exists [EInspect cid c]. split; [|set_solver]. rewrite <- E. destruct c as [c|]; [|by injection E' as _ <-].
  destruct (StartedAt c); [|by injection E' as _ <-]. destruct (negb _); [by injection E' as _ <-|]. unfold mbind_ in E'.
  destruct (out Clock w1) as [now w2] eqn:E2. apply out_trace in E2. cbv zeta in E'. destruct (_ <=? 0); [by injection E' as _ <-|].
  destruct (out _ w2) as [x w3] eqn:E3. apply out_trace in E3. injection E' as _ <-. congruence.
Qed.
Lemma forceKilled_trace cid start w b w' : forceKilled cid start w = (b, w') ->
  exists c, wTrace w' = wTrace w ++ [EInspect cid c] /\ (b = true -> killed c).
Proof.
  unfold forceKilled. unfold mbind_ at 1. destruct (inspect cid w) as [c w1] eqn:E. apply inspect_trace in E. intros E'. exists c. rewrite <- E.
  destruct c as [c|]; [destruct (Running c) eqn:Hr|]; unfold mbind_ in E'; cbn [killed]; rewrite ?Hr.
  - destruct (out _ w1) as [now w2] eqn:E2. apply out_trace in E2. injection E' as _ <-. auto.
  - injection E' as <- <-. split; [done|]. intros [H1 H2]%andb_true_iff. right. split; [by apply Z.eqb_eq|by apply negb_true_iff].
  - destruct (out _ w1) as [now w2] eqn:E2. apply out_trace in E2. by injection E' as _ <-.
Qed.
Lemma stopContainer_trace cid w r w' : stopContainer cid w = (r, w') ->
  match r with Ok (clean, false) => goodStop cid clean w w' | _ => badStop cid w w' end.
Proof.
  unfold stopContainer. destruct (Z.leb_spec StopTimeout_ 0) as [Ht|Ht].
  { intros [= <- <-]. exists []. rewrite app_nil_r. split; [done|]. split; [intros b ?%elem_of_nil; done|by left]. }
  intros E. unfold mbind_ at 1 2 3 in E. destruct (awaitSignalHonoured cid w) as [u w1] eqn:E1. apply awaitSignalHonoured_trace in E1 as (l & T1 & Hl).
  destruct (out Clock w1) as [start w2] eqn:E2. apply out_trace in E2. unfold stop_ in E. unfold mbind_ at 1 2 in E.
  destruct (out _ w2) as [r1 w3] eqn:E3. apply out_trace in E3. cbn [note mret] in E.
  set (w4 := mkWorld _ _ _ _ _ _) in E. assert (wTrace w4 = wTrace w ++ l ++ [EStop cid (is_ok r1)]) as T4 by (cbn; by rewrite E3, E2, T1, app_assoc).
  destruct r1 as [v|e]; cbn [is_ok] in T4.
  2: { injection E as <- <-. exists (l ++ [EStop cid false]). split; [done|]. split; [set_solver|]. right. left. apply last_snoc. }
  unfold mbind_ at 1 in E. destruct (forceKilled cid start w4) as [b w5] eqn:E5. apply forceKilled_trace in E5 as (c & T5 & Hk). destruct b.
  { injection E as <- <-. exists ((l ++ [EStop cid true]) ++ [EInspect cid c]). rewrite T5, T4, !app_assoc. split; [done|].
    split; [set_solver|]. right. right. exists c. split; [apply last_snoc|by apply Hk]. }
  unfold mbind_ in E. destruct (out _ w5) as [saw w6] eqn:E6. apply out_trace in E6. cbn [note mret] in E. injection E as <- <-.
  split; exists (l ++ [EStop cid true] ++ [EInspect cid c] ++ [ESave (default false saw)]); cbn [wTrace]; rewrite E6, T5, T4, <- !app_assoc; (split; [done|set_solver]).
Qed.

Lemma stopFailure_some id r (w : World D) o w' : stopFailure id r w = (Some o, w') ->
  oStatus o = StatusFailed /\ oAfter o = [] /\ oFinish o = Some (finishToError id StateStopping) /\ wTrace w' = wTrace w /\
  match r with Ok (_, false) => False | _ => True end.
Proof.
  unfold stopFailure. destruct r as [[clean []]|e]; [|done|].
  - unfold mbind_. cbn. by intros [= <- <-].
  - by intros [= <- <-].
Qed.
Lemma stopFailure_none id r (w : World D) w' : stopFailure id r w = (None, w') -> w' = w /\ exists clean, r = Ok (clean, false).
Proof.
  unfold stopFailure. destruct r as [[clean []]|e]; [|intros [= <-]; by eauto|done].
  unfold mbind_. cbn. done.
Qed.
Lemma parked_ends id o w : oFinish o = Some (finishToError id StateStopping) -> inState id StateStopping w -> ends id o w StateError nothing_.
Proof. intros Hf Hs. exists StateStopping. split; [done|]. rewrite Hf. apply finishToError_lands. vm_compute. reflexivity. Qed.

(** The stop every other job starts with: it parks the server, or goes on. *)
Lemma stopped_or_parked {A} id cid (k : result string (bool * bool) -> option Outcome -> M D A) w b w' :
  mbind_ (stopContainer cid) (fun r => mbind_ (stopFailure id r) (k r)) w = (b, w') -> inState id StateStopping w ->
  exists r bad w1, k r bad w1 = (b, w') /\ inState id StateStopping w1 /\ (quiet (wFaults w) -> quiet (wFaults w1)) /\
    match bad with
    | Some o => oStatus o = StatusFailed /\ oAfter o = [] /\ ends id o w1 StateError nothing_ /\ badStop cid w w1
    | None => exists clean, r = Ok (clean, false) /\ goodStop cid clean w w1
    end.
Proof.
  intros E Hs. apply (step_in _ _ id StateStopping) in E as (r & w1 & E1 & Hs1 & E); [|apply _|done]. pose proof (hush _ _ _ _ (stopContainer_draws _) E1) as L1. apply stopContainer_trace in E1.
  apply (step_in _ _ id StateStopping) in E as (bad & w2 & E2 & Hs2 & E); [|apply _|done]. exists r, bad, w2. split; [done|]. split; [done|].
  split; [intros Hq; by apply (hush _ _ _ _ (stopFailure_draws _ _) E2), L1|].
  destruct bad as [o|].
  - apply stopFailure_some in E2 as (H1 & H2 & H3 & T2 & Hr). split; [done|]. split; [done|]. split; [by apply parked_ends|].
    assert (badStop cid w w1) as (l & Tl & Hb) by (destruct r as [[? []]|]; done). exists l. by rewrite T2.
  - apply stopFailure_none in E2 as [-> [clean ->]]. by exists clean.
Qed.

Lemma settleConfigs_trace id (w : World D) u w' : settleConfigs id w = (u, w') -> wTrace w' = wTrace w.
Proof.
  unfold settleConfigs, mbind_. destruct (tx _ w) as [r w1] eqn:E. unfold tx in E. destruct (InstanceByID id _) as [r1 [db fs]]. injection E as <- <-.
  destruct r1 as [[inst|]|e]; [|by intros [= _ <-]..]. destruct (out _ _) as [ok w2] eqn:E2. apply out_trace in E2. destruct ok; intros [= _ <-]; by rewrite ?E2.
Qed.
Lemma prefix_cons_adds (w0 w1 w2 : World D) e : adds w0 w1 e -> wTrace w1 `prefix_of` wTrace w2 -> adds w0 w2 e.
Proof. intros H1 H2. by apply (adds_prefix w0 w0 w1 w2). Qed.
(** A stop job succeeds exactly where the server stopped by itself, and lands in stopped;
    otherwise it is parked in error. *)
Lemma stop_ends id cid w o w' : stopRun id cid w = (o, w') -> inState id StateStopping w ->
  oAfter o = [] /\ ((oStatus o = StatusSucceeded /\ ends id o w' StateStopped nothing_ /\ exists clean, goodStop cid clean w w') \/
                    (oStatus o = StatusFailed /\ ends id o w' StateError nothing_ /\ badStop cid w w')).
Proof.
  intros E Hs. apply (step_in _ _ id StateStopping) in E as (? & w1 & E1 & Hs1 & E); [|apply _|done]. injection E1 as _ T1.
  apply (step_in _ _ id StateStopping) in E as (r & w2 & E2 & Hs2 & E); [|apply _|done]. apply stopContainer_trace in E2.
  apply (step_in _ _ id StateStopping) in E as (? & w3 & E3 & Hs3 & E); [|apply _|done].
  assert (wTrace w3 = wTrace w2) as T3 by (destruct (is_ok r); [by apply settleConfigs_trace in E3|by injection E3 as _ <-]).
  apply (step_in _ _ id StateStopping) in E as (bad & w4 & Eb & Hs4 & E); [|apply _|done].
  assert (wTrace w1 = wTrace w) as T1' by (rewrite <- T1; done). destruct bad as [o'|].
  - injection E as -> ->. apply stopFailure_some in Eb as (H1 & H2 & H3 & T4 & Hr). split; [done|]. right. split; [done|]. split; [by apply parked_ends|].
    assert (badStop cid w1 w2) as (l & Tl & Hb) by (destruct r as [[? []]|]; done). exists l. by rewrite T4, T3, Tl, T1'.
  - apply stopFailure_none in Eb as [-> [clean ->]].
    apply (step_grows _ _) in E as (? & w5 & E5 & P5 & E); [|apply _]. injection E as <- <-. split; [done|]. left. split; [done|]. split.
    + exists StateStopping. split; [|by apply finishMove_lands; [vm_compute|apply (bool_decide_unpack _)]]. by injection E5 as _ <-.
    + exists clean. destruct E2 as [G1 G2]. rewrite T3 in P5. split; apply (adds_prefix w w1 w2 w5); rewrite ?T1'; done.
Qed.

(** *** restart *)
Lemma setState_cases id from to w r w' : setState_ id from to w = (r, w') -> Valid from to = true -> to ∈ states -> inState id from w ->
  wTrace w' = wTrace w /\ ((r = Ok true /\ inState id to w') \/ ((exists e, r = Err e) /\ inState id from w' /\ ~ quiet (wFaults w))).
Proof.
  intros E Hv Hto Hs. unfold setState_, mbind_ in E. destruct (out Clock w) as [now w1] eqn:E1. pose proof E1 as Ef. apply out_trace in E1.
  unfold out in Ef. destruct (Clock _) in Ef. injection Ef as _ <-.
  set (w1 := withOut d w) in *. assert (inState id from w1) as Hs1 by done. apply others_in in Hs1 as [Hs1 Ho].
  unfold tx in E. destruct (SetStateTx _ _ _ _ _) as [r' [db fs]] eqn:Ec. injection E as <- <-. split; [exact E1|]. pose proof Ec as Ed.
  apply setState_finish in Ec as [[-> H1]|[[e ->] Hq]]; [| |done..]; cbn [fst snd] in *.
  - left. split; [done|]. by split.
  - right. split; [by eauto|]. split; [|exact Hq]. apply SetStateTx_cases in Ed as [(? & _)|[_ Hdb]]; [done|]. cbn [fst] in Hdb. split; [cbn; by rewrite Hdb|done].
Qed.

(** A finish that records the start the server is owed. *)
Definition owes (id : string) (f : Time -> PTx unit) : Prop := forall now s s', f now s = (Ok tt, s') -> is_Some (pStarts s'.1 !! id).

Lemma onR_starts {A} (m : RTx A) s r s' : onR m s = (r, s') -> pStarts s'.1 = pStarts s.1.
Proof. intros (b & _ & ->)%onR_run. done. Qed.
Lemma TxQueueModStart_owes id by_ s s' : TxQueueModStart id by_ s = (Ok tt, s') -> is_Some (pStarts s'.1 !! id).
Proof.
  intros [H1 _]%stmt_Ok. cbv zeta in H1. destruct (_ && _); [|done]. injection H1 as <-. cbn. destruct (pStarts s.1 !! id) eqn:E; [by rewrite E|].
  rewrite lookup_insert_eq. by eexists.
Qed.

(** Whoever asked is still a user. *)
Definition known (by_ : string) (db : PDB) : Prop := refOk (users (base db)) (nullIf by_) = true.
Definition queueFinish (id by_ : string) : Time -> PTx unit := fun now =>
  let! _ := finishMove id StateStopping StateStopped now in TxQueueModStart id by_.
Lemma TxQueueModStart_rest id by_ s r s' : TxQueueModStart id by_ s = (r, s') -> rest s'.1 = rest s.1.
Proof.
  unfold TxQueueModStart. destruct r as [u|e]; [intros [E _]%stmt_Ok|intros [-> _]%stmt_Err; done]. cbv zeta in E.
  destruct (_ && _); [|done]. by injection E as _ <-.
Qed.
Lemma queueFinish_rest id by_ now s r s' : queueFinish id by_ now s = (r, s') -> rest s'.1 = rest s.1.
Proof.
  unfold queueFinish, tbind. destruct (finishMove id StateStopping StateStopped now s) as [[u|e] s1] eqn:E1; apply finishMove_plain in E1; [|by intros [= _ <-]].
  intros E. apply TxQueueModStart_rest in E. congruence.
Qed.
#[local] Instance queueFinish_drains id by_ now : Drains (queueFinish id by_ now).
Proof. unfold queueFinish. apply tbind_drains; [apply finishMove_plain|]. intros _. unfold TxQueueModStart. apply _. Qed.
Lemma queueFinish_lands id by_ : landsIn id StateStopping StateStopped (known by_) (queueFinish id by_).
Proof.
  intros now s r s' Hs E. unfold queueFinish, tbind in E. destruct (finishMove id StateStopping StateStopped now s) as [r1 s1] eqn:E1.
  destruct (finishMove_lands id StateStopping StateStopped ltac:(by vm_compute) ltac:(by apply (bool_decide_unpack _)) now s r1 s1 Hs E1) as [H1 H2].
  destruct r1 as [[]|e].
  - specialize (H1 eq_refl). split.
    + intros ->. by rewrite (TxQueueModStart_frame id by_ id _ _ _ E).
    + intros Hq Hk. apply finishMove_plain in E1 as Hr. assert (quiet s1.2) as Hq1 by (apply (drained (finishMove id StateStopping StateStopped now) s (Ok tt) s1); [apply finishMove_plain|done..]).
      unfold TxQueueModStart in E. rewrite stmt_quiet in E by done. cbv zeta in E. unfold known in Hk. injection Hr as _ _ Hu. rewrite Hu, Hk in E.
      unfold stateOf in H1. rewrite bool_decide_eq_true_2 in E by (apply fmap_is_Some with iState; by rewrite H1). by injection E as <- _.
  - injection E as <- <-. split; [done|]. intros Hq _. by specialize (H2 Hq I).
Qed.

(** What a restart's run from [w0] ends with: parked by the stop; or the stop was good and
    the start failed, or the move to starting could not be written; or it succeeded. *)
Definition restarted (id cid by_ bid : string) (w0 : World D) (o : Outcome) (w : World D) : Prop :=
  let needs db := room bid db /\ known by_ db in
  (oStatus o = StatusFailed /\ ends id o w StateError needs /\
     (badStop cid w0 w \/ (exists clean, goodStop cid clean w0 w) /\ inState id StateStarting w)) \/
  (oStatus o = StatusFailed /\ oFinish o = None /\ ends id o w StateStopping needs /\ ~ quiet (wFaults w0)) \/
  (oStatus o = StatusSucceeded /\ (exists clean, goodStop cid clean w0 w) /\ ends id o w StateRunning needs /\ exists c, adds w0 w (EStart c true)) \/
  (oStatus o = StatusSucceeded /\ (exists clean, goodStop cid clean w0 w) /\ ends id o w StateStopped needs /\ exists f, oFinish o = Some f /\ owes id f).
Lemma ends_weaken id o w to (P Q : PDB -> Prop) : (forall db, Q db -> P db) -> ends id o w to P -> ends id o w to Q.
Proof. intros HPQ (s & Hs & Hf). exists s. split; [done|]. destruct (oFinish o); [by eapply landsIn_weaken|done]. Qed.

(** The finish an archive on restart adds is one of its own or none. *)
Definition archivedBy (inst : Instance_) (bid : string) (a : option (Time -> PTx unit)) : Prop :=
  a = None \/ exists row pruned, a = Some (backupFinish inst false bid row pruned) /\ bTrigger row ∈ triggers /\ bInstance row = nID inst.
Lemma archiveAndVerify_row inst dest trigger c w row w' : archiveAndVerify inst dest trigger c w = (Ok row, w') ->
  bTrigger row = trigger /\ bInstance row = nID inst.
Proof.
  unfold archiveAndVerify. intros E. apply step_grows in E as (r & w1 & _ & _ & E); [|apply _]. apply step_grows in E as (? & w2 & _ & _ & E); [|apply _].
  destruct r as [[size sum]|e]; [|done]. cbv zeta in E. destruct (SnapshotTrigger trigger); [by injection E as <-|].
  apply step_grows in E as (found & w3 & _ & _ & E); [|apply _]. destruct found as [found|e].
  - apply step_grows in E as (shrunk & w4 & _ & _ & E); [|apply _]. apply step_grows in E as (? & w5 & _ & _ & E); [|apply _]. by injection E as <- _.
  - by apply step_grows in E as (? & w4 & _ & _ & E); [|apply _].
Qed.
Lemma archiveOnRestart_by inst c bid dest w r w' : archiveOnRestart inst c bid dest w = (r, w') -> archivedBy inst bid r.1.
Proof.
  unfold archiveOnRestart. destruct (negb _); [intros [= <- _]; by left|]. destruct (negb c).
  { intros E. apply step_grows in E as (? & ? & _ & _ & E); [|apply _]. injection E as <- _. by left. }
  intros E. apply step_grows in E as (? & w1 & _ & _ & E); [|apply _]. apply step_grows in E as (row & w2 & Er & _ & E); [|apply _]. destruct row as [row|e].
  - apply step_grows in E as (pruned & w3 & _ & _ & E); [|apply _]. injection E as <- _. apply archiveAndVerify_row in Er as [Ht Hi].
    right. exists row, pruned. split; [done|]. split; [rewrite Ht; by apply (bool_decide_unpack _)|done].
  - apply step_grows in E as (? & ? & _ & _ & E); [|apply _]. injection E as <- _. by left.
Qed.

Lemma stopForQueue_ends inst cid by_ bid clean c archived cleanup w0 w o w' :
  stopForQueue (nID inst) by_ c archived cleanup w = (o, w') -> archivedBy inst bid archived -> goodStop cid clean w0 w ->
  inState (nID inst) StateStopping w -> restarted (nID inst) cid by_ bid w0 o w'.
Proof.
  intros E Ha [G1 G2] Hs. unfold stopForQueue in E. pose proof E as Eg.
  apply (step_in _ _ (nID inst) StateStopping) in E as (? & w1 & _ & Hs1 & E); [|apply _|done].
  apply (step_in _ _ (nID inst) StateStopping) in E as (? & w2 & _ & Hs2 & E); [|apply _|done]. injection E as <- <-.
  assert (wTrace w `prefix_of` wTrace w2) as P.
  { apply step_grows in Eg as (? & v1 & _ & P1 & Eg); [|apply _]. apply step_grows in Eg as (? & v2 & _ & P2 & Eg); [|apply _]. injection Eg as <-. by etrans. }
  right. right. right. split; [done|]. split; [exists clean; split; by eapply prefix_cons_adds|]. fold (queueFinish (nID inst) by_). split.
  - exists StateStopping. split; [done|]. cbn [oFinish]. destruct Ha as [->|(row & pruned & -> & Ht & Hi)].
    + eapply landsIn_weaken; [|apply queueFinish_lands]. by intros db [_ ?].
    + apply (landsIn_weaken _ _ _ (fun db => known by_ db /\ room bid db)); [by intros db [? ?]|].
      apply chainFinish_lands; [reflexivity|exact Ht|exact Hi|apply queueFinish_lands|intros now; apply _|intros now s r s'; apply queueFinish_rest].
  - eexists. split; [done|]. destruct Ha as [->|(row & pruned & -> & _)]; intros now s s' H1.
    + apply tbind_Ok in H1 as (v & s2 & _ & H1). exact (TxQueueModStart_owes _ _ _ _ H1).
    + apply tbind_Ok in H1 as ([] & s1 & H1 & H2). apply onR_starts in H2. rewrite H2. apply tbind_Ok in H1 as (v & s2 & _ & H1).
      exact (TxQueueModStart_owes _ _ _ _ H1).
Qed.

(** A restart's last outcome: the start's, with the archive's finish after it. *)
Definition withArchive (clean : bool) (archived : option (Time -> PTx unit)) (cleanup : list After) (o : Outcome) : Outcome :=
  let o := withClean clean o in
  match archived with
  | Some a => mkOutcome (oStatus o) (oCode o) (oError o) (oClean o) (Some (chainFinish (oFinish o) a)) (cleanup ++ oAfter o)
  | None => o
  end.
Lemma archived_ends inst by_ bid archived o f w to clean cleanup : archivedBy inst bid archived -> oFinish o = Some f -> plain f ->
  landsIn (nID inst) StateStarting to nothing_ f -> inState (nID inst) StateStarting w ->
  ends (nID inst) (withArchive clean archived cleanup o) w to (fun db => room bid db /\ known by_ db).
Proof.
  intros Ha Hf Hp Hl Hs. exists StateStarting. split; [done|]. destruct Ha as [->|(row & pruned & -> & Ht & Hi)]; cbn [withArchive withClean oFinish]; rewrite Hf.
  - eapply landsIn_weaken; [|exact Hl]. done.
  - apply (landsIn_weaken _ _ _ (fun db => nothing_ db /\ room bid db)); [by intros db [? _]|].
    apply chainFinish_lands; [reflexivity|exact Ht|exact Hi|exact Hl|intros now; apply Hp|intros now; apply Hp].
Qed.

Lemma restart_ends q j inst cid by_ bid dest w o w' : restartRun q j inst cid by_ bid dest w = (o, w') ->
  inState (nID inst) StateStopping w -> restarted (nID inst) cid by_ bid w o w'.
Proof.
  intros E Hs. unfold restartRun in E. cbv zeta in E.
  apply (step_in _ _ (nID inst) StateStopping) in E as (? & w1 & E1 & Hs1 & E); [|apply _|done].
  pose proof (hush _ _ _ _ (say_draws _) E1) as L1. injection E1 as _ T1. assert (wTrace w1 = wTrace w) as T1' by (by rewrite <- T1). clear T1.
  apply stopped_or_parked in E as (r & bad & w3 & E & Hs3 & L3 & Hb); [|done]. destruct bad as [o'|].
  { injection E as <- <-. destruct Hb as (H1 & _ & H3 & l & Hl). left. split; [done|]. split; [by eapply ends_weaken; [|exact H3]|]. left. exists l. by rewrite <- T1'. }
  destruct Hb as (clean & -> & Hg). cbn [cleanOf] in E.
  apply (step_in _ _ (nID inst) StateStopping) in E as ([archived cleanup] & w4 & Ea & Hs4 & E); [|apply _|done].
  pose proof (hush _ _ _ _ (archiveOnRestart_draws _ _ _ _) Ea) as L4.
  apply (archiveOnRestart_keeps inst clean bid dest) in Ea as P4. destruct P4 as [_ P4]. apply archiveOnRestart_by in Ea. cbn [fst] in Ea.
  pose proof E as Eg. apply (step_in _ _ (nID inst) StateStopping) in E as (queued & w5 & E5 & Hs5 & E); [|unfold QueuedModInstalls; apply _|done].
  assert (wTrace w4 `prefix_of` wTrace w5) as P5.
  { revert E5. destruct q; [|by intros [= _ <-]]. intros E5. apply step_grows in E5 as (qr & v & _ & Pv & E5); [|unfold QueuedModInstalls; apply _].
    destruct qr; [injection E5 as _ <-; done|]. apply step_grows in E5 as (? & v2 & _ & Pv2 & E5); [|apply _]. injection E5 as _ <-. by etrans. }
  assert (quiet (wFaults w4) -> quiet (wFaults w5)) as L5.
  { intros Hq. exact (hush _ _ _ _ _ E5 Hq). }
  assert (goodStop cid clean w w5) as Hg5.
  { destruct Hg as [G1 G2]. split; (eapply adds_prefix; [by rewrite <- T1'|eassumption|by etrans]). }
  destruct queued; [by apply (stopForQueue_ends _ cid _ bid clean _ _ _ w) in E|].
  unfold mbind_ at 1 in E. destruct (setState_ (nID inst) StateStopping StateStarting w5) as [moved w6] eqn:Em.
  apply setState_cases in Em as [T6 [[-> Hs6]|[[e ->] [Hs6 Hq]]]]; [| |by vm_compute|by apply (bool_decide_unpack _)|done].
  2: { injection E as <- <-. right. left. split; [done|]. split; [done|]. split; [exists StateStopping; by split|]. intros Hw. by apply Hq, L5, L4, L3, L1. }
  apply (step_in _ _ (nID inst) StateStarting) in E as (? & w7 & E7 & Hs7 & E); [|apply _|done].
  assert (wTrace w7 = wTrace w5) as T7 by (injection E7 as _ <-; done).
  apply (step_in _ _ (nID inst) StateStarting) in E as (o' & w8 & Eo & Hs8 & E); [|apply _|done]. injection E as <- <-.
  apply (startAndAwaitReady_keeps j (nID inst) cid) in Eo as P8. destruct P8 as [_ P8].
  apply startAndAwaitReady_started in Eo as [(_ & f & Hf & Hp & Hst) Hadd].
  pose proof (fun to Hl => archived_ends inst by_ bid archived o' f w8 to clean cleanup Ea Hf Hp Hl Hs8) as Hends.
  rewrite T7 in P8. destruct Hst as [[Hst Hl]|[Hst Hl]].
  - left. split; [by destruct archived|]. split; [by apply Hends|]. right. split; [|done]. exists clean. destruct Hg5; split; by eapply prefix_cons_adds.
  - right. right. left. split; [by destruct archived|]. split; [exists clean; destruct Hg5; split; by eapply prefix_cons_adds|].
    split; [by apply Hends|]. destruct (Hadd Hst) as [c Hc]. exists c. apply (adds_prefix w w7 w8 w8); [|done..].
    rewrite T7. destruct Hg5 as [(l & -> & _) _]. by exists l.
Qed.
(** A runner's world in which the instance is in a state and the driver fails nothing. *)
Definition calm (id : string) (s : State) (w : World D) : Prop := inState id s w /\ quiet (wFaults w).
Lemma unfailing_step {A B} (m : M D A) (k : A -> M D B) id s w b w' : Keeps m -> Draws m -> mbind_ m k w = (b, w') -> calm id s w ->
  exists a w1, m w = (a, w1) /\ calm id s w1 /\ wTrace w `prefix_of` wTrace w1 /\ k a w1 = (b, w').
Proof.
  intros Hm Hd E [Hs Hf]. pose proof E as Eg. apply (step_in _ _ id s) in E as (a & w1 & E1 & Hs1 & E); [|done..].
  exists a, w1. split_and!; [done| |apply (Hm _ _ _ E1)|done]. split; [done|]. by apply (hush _ _ _ _ Hd E1).
Qed.
Lemma setState_calm id from to w r w' : setState_ id from to w = (r, w') -> Valid from to = true -> to ∈ states -> calm id from w ->
  r = Ok true /\ calm id to w' /\ wTrace w' = wTrace w.
Proof.
  intros E Hv Hto [Hs Hf]. pose proof (hush _ _ _ _ (setState_draws _ _ _) E Hf) as Hf'.
  apply setState_cases in E as [T [[-> Hs']|[_ [_ Hq]]]]; [|by destruct (Hq Hf)|exact Hv|exact Hto|exact Hs].
  split; [reflexivity|]. split; [split; assumption|exact T].
Qed.

(** *** backup *)

(** An answer of Docker by which a server is down, or may still be up. *)
Definition down (c : result RtErr Container) : bool :=
  match c with Err ErrNotFound => true | Err ErrEngine => false | Ok c => negb (Running c) end.
(** Docker cannot be asked, or says that the server is up, and the code of each. *)
Definition notDown (c : result RtErr Container) (code : option Code) : Prop :=
  (c = Err ErrEngine /\ code = Some Internal) \/ exists c', c = Ok c' /\ Running c' = true /\ code = Some BackupUnverifiable.
Lemma consistencyClaim_cases inst mode was resume (w : World D) r w' : consistencyClaim inst mode was resume w = (r, w') ->
  match r with
  | Err o => oFinish o = None /\ oAfter o = resume /\ oStatus o = StatusFailed /\
      exists cid c, iContainerID (nRow inst) = Some cid /\ last (wTrace w') = Some (EInspect cid c) /\ notDown c (oCode o)
  | Ok true => iContainerID (nRow inst) = None /\ wTrace w' = wTrace w \/
      exists cid c, iContainerID (nRow inst) = Some cid /\ wTrace w' = wTrace w ++ [EInspect cid c] /\ down c = true
  | Ok false => mode = BackupHot
  end.
Proof.
  unfold consistencyClaim. destruct (bool_decide_reflect (mode = BackupHot)) as [->|Hm]; [destruct was; [by intros [= <- <-]|]|]; cbn [andb];
    unfold runningInDocker; (destruct (iContainerID (nRow inst)) as [cid|]; [|intros [= <- <-]; by left]);
    unfold inspect, mbind_, out; destruct (Inspect cid (wOut w)) as [c d]; cbn [note mret];
    destruct c as [c|[]]; cbn; try destruct (Running c) eqn:Er; intros [= <- <-]; try done; try (right; eexists _, _; split_and!; [done|done|cbn; by rewrite ?Er]);
    (split_and!; [done..|]; eexists _, _; split_and!; [done|cbn; apply last_snoc|first [by left|right; by eexists]]).
Qed.

Lemma abandon_ends id o (w : World D) o' w' : abandonBackup id true o w = (o', w') -> oFinish o = None -> calm id StateBackingUp w ->
  oAfter o' = oAfter o /\ oStatus o' = oStatus o /\ wTrace w' = wTrace w /\ forall needs, ends id o' w' StateStopped needs.
Proof.
  intros E Hf Hc. unfold abandonBackup in E. rewrite Hf in E. cbn in E. unfold mbind_ in E. destruct (setState_ _ _ _ _) as [r w1] eqn:Es.
  apply setState_calm in Es as (-> & [Hs _] & T); [|vm_compute; reflexivity|by apply (bool_decide_unpack _)|done]. injection E as <- <-.
  split_and!; [done..|]. intros needs. exists StateStopped. split; [done|]. by rewrite Hf.
Qed.

Lemma quiesce_ends id cid (w : World D) r w' : quiesce id cid w = (r, w') -> calm id StateStopping w ->
  match r with
  | Some (o, true) => oStatus o = StatusFailed /\ oAfter o = [] /\ ends id o w' StateError nothing_ /\ badStop cid w w'
  | Some (o, false) => oFinish o = None /\ oStatus o = StatusFailed /\ inState id StateStopped w' /\ goodStop cid false w w'
  | None => calm id StateBackingUp w' /\ goodStop cid true w w'
  end.
Proof.
  intros E Hc. unfold quiesce in E. apply (unfailing_step _ _ id StateStopping) in E as (? & w1 & E1 & [Hs1 Hq1] & _ & E); [|apply _..|done].
  injection E1 as _ T1. assert (wTrace w1 = wTrace w) as T by (by rewrite <- T1). clear T1.
  apply stopped_or_parked in E as (r1 & bad & w3 & E & Hs3 & L3 & Hb); [|done]. destruct bad as [o|].
  { injection E as <- <-. destruct Hb as (H1 & H2 & H3 & l & Hl). split_and!; [done..|]. exists l. by rewrite <- T. }
  destruct Hb as (clean & -> & G1 & G2). unfold adds in G1, G2. rewrite T in G1, G2. cbn [cleanOf] in E.
  unfold mbind_ at 1 in E. destruct (setState_ _ _ _ w3) as [moved w4] eqn:Em.
  apply setState_calm in Em as (-> & Hc4 & T4); [|vm_compute; reflexivity|by apply (bool_decide_unpack _)|split; auto].
  destruct clean; cbn [negb] in E; [|injection E as <- <-; split; [done|]; split; [done|]; split; [apply Hc4|]; unfold goodStop, adds; by rewrite T4].
  unfold mbind_ in E. destruct (setState_ _ _ _ w4) as [moved w5] eqn:Em.
  apply setState_calm in Em as (-> & Hc5 & T5); [|vm_compute; reflexivity|by apply (bool_decide_unpack _)|done]. injection E as <- <-.
  split; [done|]. unfold goodStop, adds. by rewrite T5, T4.
Qed.

Lemma backupFinish_lands inst bid row pruned : bTrigger row ∈ triggers -> bInstance row = nID inst ->
  landsIn (nID inst) StateBackingUp StateStopped (room bid) (backupFinish inst true bid row pruned).
Proof.
  intros Ht Hi now s r s' Hs E. split.
  - intros ->. apply (backupFinish_state inst true bid row pruned now s s' (nID inst)) in E. rewrite E. by rewrite bool_decide_eq_true_2.
  - intros Hq Hr. eapply (backupFinish_quiet inst true); [exact Hq|exact Ht|exact Hi|exact Hr| | |exact E]; rewrite Hs; done.
Qed.
Lemma archiveAndVerify_adds inst dest trigger c w row w' : archiveAndVerify inst dest trigger c w = (Ok row, w') -> adds w w' (EArchive dest c true).
Proof.
  unfold archiveAndVerify. unfold mbind_ at 1 2. destruct (out _ w) as [r w1] eqn:E1. apply out_trace in E1. intros E.
  destruct r as [[size sum]|e]; [|done]. cbn [is_ok] in E. set (w2 := (note (EArchive dest c true) w1).2) in E.
  apply (prefix_cons_adds w w2); [exists [EArchive dest c true]; cbn; rewrite E1; split; [done|by left]|]. cbn [note] in E. cbv zeta in E.
  change (mkWorld (wDB w1) (wFaults w1) (wOthers w1) (wOut w1) (wLog w1) (wTrace w1 ++ [EArchive dest c true])) with w2 in E.
  destruct (SnapshotTrigger trigger); [by injection E as _ <-|]. apply step_grows in E as (found & w3 & _ & P3 & E); [|apply _]. destruct found as [found|e].
  - apply step_grows in E as (shrunk & w4 & _ & P4 & E); [|apply _]. apply step_grows in E as (? & w5 & _ & P5 & E); [|apply _]. injection E as _ <-.
    by repeat (etrans; [eassumption|]).
  - by apply step_grows in E as (? & w4 & _ & _ & E); [|apply _].
Qed.


End Safe.
