(* ===== verification/RunnersWitness.v ===== *)
(** Concrete runs of the lifecycle jobs: those their properties are tried on, and a
    backup that strands its server. *)
From S2P Require Import Prelude Kinds Lifecycle Sql Store RemoteStore Retention Pruner Errcode Launch PanelRows Runners FinishLaws RunnersSafe.

Open Scope Z_scope.

(** ** A host

    One container, the inspections Docker answers differently, and the clock. *)
Record Host := mkHost { hNow : Z; hBox : option Container; hAnswers : list (option (result RtErr Container)); hReady : bool; hArchives : bool }.
Definition later (h : Host) : Host := mkHost (hNow h + 1) (hBox h) (hAnswers h) (hReady h) (hArchives h).
Definition withBox (c : option Container) (h : Host) : Host := mkHost (hNow h) c (hAnswers h) (hReady h) (hArchives h).
Definition toBox (f : Container -> Container) (h : Host) : result RtErr unit * Host :=
  match hBox h with Some c => (Ok tt, withBox (Some (f c)) h) | None => (Err ErrNotFound, h) end.

#[export] Instance HostOutside : Outside Host := {
  Clock h := (hNow h, later h);
  Inspect _ h := (match hAnswers h, hBox h with
                  | Some r :: _, _ => r
                  | _, Some c => Ok c
                  | _, None => Err ErrNotFound
                  end, mkHost (hNow h) (hBox h) (tail (hAnswers h)) (hReady h) (hArchives h));
  ListInstance _ h := (Ok (match hBox h with Some c => [("c1", SpecHash c)] | None => [] end), h);
  Create spec h := (Ok "c2", withBox (Some (mkContainer false None 0 false (hashOf spec))) h);
  StartContainer _ h := toBox (fun c => mkContainer true (Some (hNow h)) 0 false (SpecHash c)) h;
  StopContainer _ _ _ h := toBox (fun c => mkContainer false (StartedAt c) 0 false (SpecHash c)) h;
  Remove _ h := (Ok tt, withBox None h);
  AwaitReady _ _ h := (if hReady h then Ok true else Err tt, h);
  AwaitPluginLoad _ _ h := (true, h);
  LogTail _ h := (None, h);
  SawSaveLine _ _ h := (Some true, h);
  SettleIn _ h := (true, h);
  HasDoorstop _ h := (Some false, h);
  Archive _ _ _ h := (if hArchives h then Ok (10, "sum") else Err ArchFailed, h);
  Verify _ _ h := (Ok (mkVerified 10 [] false), h);
  RemoveFile _ h := h
}.
#[export] Instance HostControl : Control := {
  HostRoot := "/data"; Image_ := "valheim"; Network_ := "valmin"; StopTimeout_ := 120; ReadySettle := 60; ReadyTimeout := 300;
  PluginLoadWindow := 30; openPassword _ p := Some p; decodeModifiers _ := None; digest := toyDigest; newCopy := "copy1"
}.

(** ** A panel with one server *)
Definition box (up : bool) : Container := mkContainer up (Some 1) 0 false (Some "old").
Definition host (up : bool) (answers : list (option (result RtErr Container))) (ready archives : bool) : Host := mkHost 1000 (Some (box up)) answers ready archives.
Definition rowIn (s : State) : Inst := mkInst "midgard" s (Some "c1") None false false None 0.
Definition colsMidgard : Cols := mkCols "/data/i1" 2456 "Asgard" "Midgard" true false "i1" "" "" "" 4 4096 None false true "secret".
Definition instIn (s : State) : Instance_ := mkInstance "i1" (rowIn s) colsMidgard.
Definition panel (s : State) : PDB :=
  mkPDB (mkRDB (mkDB ∅ ∅ {[ "i1" := rowIn s ]} ∅ ∅ ∅) ∅ ∅ ∅ ∅ {[ "i1" := defaultCols ]}) {[ "i1" := colsMidgard ]} ∅ ∅ ∅ [] ∅ ∅ ∅.
Definition world (s : State) (others : list (PDB -> PDB)) (h : Host) : World Host := mkWorld (panel s) [] others h [] [].
Definition landed (o : Outcome) (w : World Host) : option State :=
  match oFinish o with
  | Some f => match f 2000 (wDB w, []) with (Ok _, s) => stateOf "i1" s.1 | (Err _, _) => None end
  | None => stateOf "i1" (wDB w)
  end.
Lemma world_calm s others h : Forall (keeps "i1") others -> calm "i1" s (world s others h).
Proof. intros Ho. split; [split; [|done]; vm_compute; reflexivity|constructor]. Qed.

(** ** The runs *)

Definition backup_ (h : Host) : Outcome * World Host :=
  backupRun "j1" (instIn StateRunning) "c1" BackupQuiesced "b1" "/data/backups/b1" "manual" true (world StateStopping [] h).
Definition summary (r : Outcome * World Host) : string * option State * list After := (oStatus r.1, landed r.1 r.2, oAfter r.1).

Example a_backup : summary (backup_ (host true [] true true)) = (StatusSucceeded, Some StateStopped, [ACleanup "i1" []; AStart "i1" "c1"]).
Proof. vm_compute. reflexivity. Qed.
Example a_failed_backup : summary (backup_ (host true [] true false)) = (StatusFailed, Some StateStopped, [AStart "i1" "c1"]).
Proof. vm_compute. reflexivity. Qed.

(** Docker answers the readiness check and the force-kill check, and is away for the
    next question: the backup leaves its instance in backing_up, where the start it
    owes is refused and the observer finds an interrupted backup and moves it to
    stopped.  The server stays down. *)
Definition strandedFrom : World Host := world StateStopping [] (host true [None; None; Some (Err ErrEngine)] true true).
Definition stranded : Outcome * World Host := backup_ (host true [None; None; Some (Err ErrEngine)] true true).
Example failed_backup_strands_server :
  summary stranded = (StatusFailed, Some StateBackingUp, [AStart "i1" "c1"]) /\
  (transitionClaim 2000 "i1" StateStopped StateStarting (PanelRows.base (wDB stranded.2), [])).1 = Err (EHook "instance not in its state at claim") /\
  To (Observe StateBackingUp (mkReality true false false 0 false)) = StateStopped.
Proof. split_and!; vm_compute; reflexivity. Qed.

(** ** Witnesses *)


(** A start whose server never becomes ready, a stop, and a restart with a mod queued
    by somebody else while the server stopped. *)
Definition queueMod (db : PDB) : PDB := withQueue <[("i1", "Author-Mod") := mkQueued "1.0.0" "" None 5]> db.
Lemma queueMod_keeps : keeps "i1" queueMod.
Proof. by intros db. Qed.
Definition aStart : Outcome * World Host := startRun "j1" "i1" "c1" (world StateStarting [] (host false [] false true)).
Definition aStop : Outcome * World Host := stopRun "i1" "c1" (world StateStopping [] (host true [] true true)).
Definition aRestart (others : list (PDB -> PDB)) : Outcome * World Host :=
  restartRun true "j1" (instIn StateStopping) "c1" "u1" "b1" "/data/backups/b1" (world StateStopping others (host true [] true true)).
Example the_runs : summary aStart = (StatusFailed, Some StateError, []) /\ summary aStop = (StatusSucceeded, Some StateStopped, []) /\
  summary (aRestart []) = (StatusSucceeded, Some StateRunning, [ACleanup "i1" []]).
Proof. split_and!; vm_compute; reflexivity. Qed.

