(* ===== verification/ModQueue.v ===== *)
(** internal/instance/control/mod_queue.go: the installs queued while a server ran,
    submitted once it has stopped, and the start it is owed after them.

    The supervisor drains the queue on one goroutine; others write between its
    statements.  The catalogue behind [PendingUpdates], the staging directory and the
    two encoders are the interface [Mods]. *)
From S2P Require Import Prelude Semver Authz Kinds Lifecycle Sql Store Engine RemoteStore PowerCut Launch PanelRows Runners.

Open Scope Z_scope.

Notation "'do!' x := m 'in' k" := (mbind_ m (fun x => k)) (at level 10, x pattern, m at level 100, k at level 200) : go_scope.

(** ** Updates and installs (mods/manager) *)

Record UpdateTarget := mkTarget { tName : string; tSource : string; tFrom : string; tVersion : string }.
Record InstallPayload := mkInstallPayload {
  pyName : string; pyVersion : string; pySource : string; pyUpdates : list UpdateTarget; pyBackup : bool
}.

Class Mods (D : Type) := {
  PendingNames : string -> PDB -> D -> result unit (list string) * D;   (* the packages Update all would offer *)
  EnabledSources : list string;
  Stage : D -> option string * D;
  Unstage : string -> D -> D;
  encodePayload : InstallPayload -> string -> option string;
  encodeUpdates : list UpdateTarget -> option string;
  encodeInstall : string -> string -> string -> string -> option string
}.

Definition newer (candidate installed : string) : bool :=
  match ParseVersion (L candidate), ParseVersion (L installed) with
  | Some c, Some i => 0 <? Compare c i
  | _, _ => false
  end.

(** [CheckUpdateTargets] on the rows it read: the targets that pass, in order. *)
Fixpoint checkTargets (enabled : list string) (rows : list (string * InstanceMod)) (seen : gset string) (targets : list UpdateTarget) : list UpdateTarget :=
  match targets with
  | [] => []
  | t :: targets =>
      let rest := checkTargets enabled rows ({[tName t]} ∪ seen) targets in
      if bool_decide (tName t ∈ seen) then rest
      else
        match (list_to_map (reverse rows) : gmap string InstanceMod) !! tName t with
        | Some row =>
            if mEnabled row && negb (mLocked row) && bool_decide (tSource t = mSource row) && bool_decide (mSource row ∈ enabled) &&
               newer (tVersion t) (mVersion row)
            then mkTarget (tName t) (tSource t) (mVersion row) (tVersion t) :: rest
            else rest
        | None => rest
        end
  end.

(** ** The queue *)

Inductive QErr := QStore (e : TxErr) | QSubmit (e : EngineErr) | QPending | QStage | QEncode.

Section ModQueue.
Context {D : Type} `{!Outside D} `{!Control} `{!Submitting D} `{!Mods D}.

(** A step that may fail. *)
Definition Q (A : Type) := M D (result QErr A).
Definition qret {A} (a : A) : Q A := mret (Ok a).
Definition qfail {A} (e : QErr) : Q A := mret (Err e).
Definition qbind {A B} (m : Q A) (k : A -> Q B) : Q B := do! r := m in match r with Ok a => k a | Err e => mret (Err e) end.
Notation "'let*' x := m 'in' k" := (qbind m (fun x => k)) (at level 10, x pattern, m at level 100, k at level 200) : go_scope.
Definition read {A} (m : PTx A) : Q A := do! r := tx m in mret (match r with Ok a => Ok a | Err e => Err (QStore e) end).
Definition ofOption {A} (e : QErr) (o : option A) : Q A := match o with Some a => qret a | None => qfail e end.

Definition PendingUpdates (id : string) : Q (list string) := fun w =>
  let '(r, d) := PendingNames id (wDB w) (wOut w) in (match r with Ok l => Ok l | Err _ => Err QPending end, withOut d w).
Definition CheckUpdateTargets (id : string) (targets : list UpdateTarget) : Q (list UpdateTarget) :=
  match targets with
  | [] => qret []
  | _ => let* rows := read (InstanceMods id) in qret (checkTargets EnabledSources rows ∅ targets)
  end.

(** [Installer.Submit], to the claim: the lock, and the instance still stopped. *)
Definition modInstallSpec (now : Time) (inst : Instance_) (requestedBy : string) (audit : option AuditEntry) (payload : option string) : Spec :=
  Engine.mkSpec KindModInstall (InstanceLockKey (nID inst)) [] (Some (nID inst)) (iName (nRow inst)) payload requestedBy "" false
    (Some (claimFrom now (nID inst) StateStopped StateStopped)) audit.
Definition SubmitInstall (inst : Instance_) (requestedBy : string) (audit : AuditEntry) (payload : InstallPayload) : Q (result EngineErr string) :=
  do! staging := out Stage in
  let* staging := ofOption QStage staging in
  do! now := out Clock in
  do! r := submit (modInstallSpec now inst requestedBy (Some audit) (encodePayload payload staging)) in
  do! _ := match r with Ok _ => mret tt | Err _ => (fun w => (tt, withOut (Unstage staging (wOut w)) w)) end in
  qret r.

(** [mayInstall]: the authority the requester has now. *)
Definition needsGrant (u : option User) : bool :=
  match u with Some u => negb (Disabled u) && negb (bool_decide (userRole u = RoleAdmin)) | None => false end.
Definition theGrant (g : option (option Grant)) : Grants := {| GrantFor _ _ := g; GrantedInstances _ := None |}.
Definition mayInstall (id user : string) : Q bool :=
  if bool_decide (user = "") then qret false
  else
    let* u := read (UserByID user) in
    do! g := (if needsGrant u then do! r := tx (GrantOf user id) in mret (match r with Ok g => Some g | Err _ => None end) else mret None) in
    qret (@Can (theGrant g) u ModsManage id).

(** Whose install an entry is; the NULL is the empty id. *)
Definition by_ (e : string * QueuedModInstall) : string := default "" (qRequestedBy e.2).

Definition publish (id : string) : M D unit := note (EPublish id).
Definition drop_ (id : string) (entry : string * QueuedModInstall) : Q unit :=
  let* _ := read (UnqueueModInstall id entry.1) in
  do! _ := publish id in qret tt.

(** [updateBatch]'s candidates: the entries of the head's requester that are offered,
    each from its own source or the installed one's. *)
Fixpoint candidates (id requester : string) (offered : list string) (queued : list (string * QueuedModInstall)) : Q (list UpdateTarget) :=
  match queued with
  | [] => qret []
  | e :: queued =>
      if negb (bool_decide (by_ e = requester)) || negb (bool_decide (e.1 ∈ offered)) then candidates id requester offered queued
      else
        let* src := (if bool_decide (qSource e.2 = "") then let* v := read (InstanceModVersion id e.1) in qret (default "" (snd <$> v))
                     else qret (qSource e.2)) in
        let* rest := candidates id requester offered queued in
        qret (mkTarget e.1 src "" (qVersion e.2) :: rest)
  end.
Definition updateBatch (id : string) (head : string * QueuedModInstall) (queued : list (string * QueuedModInstall)) : Q (list UpdateTarget) :=
  let* offered := PendingUpdates id in
  if negb (bool_decide (head.1 ∈ offered)) then qret []
  else
    let* cands := candidates id (by_ head) offered queued in
    let* checked := CheckUpdateTargets id cands in
    if existsb (fun t => bool_decide (tName t = head.1)) checked then qret checked else qret [].

Definition auditOf (user id action detail : string) : AuditEntry := mkAudit "" user id action detail "" "" "" "" "".

(** [submitted] remembers the instance for [announceFinished]; [inFlight] is passed
    along, and each step answers whether it submitted. *)
Definition installUpdates (inst : Instance_) (head : string * QueuedModInstall) (targets : list UpdateTarget) : Q bool :=
  let id := nID inst in
  let* allowed := mayInstall id (by_ head) in
  if negb allowed then let* _ := drop_ id head in qret false
  else
    let* detail := ofOption QEncode (encodeUpdates targets) in
    let* r := SubmitInstall inst (by_ head) (auditOf (by_ head) id "instances.mods.update" detail) (mkInstallPayload "" "" "" targets true) in
    match r with
    | Err e => if busy e then qret false else qfail (QSubmit e)
    | Ok _ =>
        let* _ := read (UnqueueModInstalls id (tName <$> targets)) in
        do! _ := publish id in qret true
    end.
Definition installNext (inst : Instance_) (next : string * QueuedModInstall) : Q bool :=
  let id := nID inst in
  let* allowed := mayInstall id (by_ next) in
  if negb allowed then let* _ := drop_ id next in qret false
  else
    let* v := read (InstanceModVersion id next.1) in
    let src := if bool_decide (qSource next.2 = "") then default "" (snd <$> v) else qSource next.2 in
    let* detail := ofOption QEncode (encodeInstall next.1 (default "" (fst <$> v)) (qVersion next.2) src) in
    let* r := SubmitInstall inst (by_ next) (auditOf (by_ next) id "instances.mods.install" detail)
                (mkInstallPayload next.1 (qVersion next.2) (qSource next.2) [] false) in
    match r with
    | Err e => if busy e then qret false else qfail (QSubmit e)
    | Ok _ =>
        let* _ := read (UnqueueModInstall id next.1) in
        do! _ := publish id in qret true
    end.

Definition startOwed (inst : Instance_) : Q bool :=
  let* owed := read (QueuedModStart (nID inst)) in
  if negb owed.1 then qret false
  else
    do! now := out Clock in
    let* r := match iContainerID (nRow inst) with
              | None => qret (Ok "")
              | Some _ => do! r := submit (startSpec now inst (mkOrigin owed.2 "" None)) in qret r
              end in
    match r with
    | Err e => if busy e then qret false else qfail (QSubmit e)
    | Ok _ => let* _ := read (ClearQueuedModStart (nID inst)) in qret false
    end.

Definition step (id : string) : Q bool :=
  let* inst := read (InstanceByID id) in
  match inst with
  | None => qret false
  | Some inst =>
      let st := iState (nRow inst) in
      if negb (bool_decide (st = StateStopped)) then
        if bool_decide (st = StateRunning) || bool_decide (st = StateStarting) then let* _ := read (ClearQueuedModStart id) in qret false
        else qret false
      else
        let* op := read (OpenOperation id) in
        if op then qret false
        else
          do! now := out Clock in
          let* soon := read (PowerCutWithin now ShutdownQuietLead) in
          if soon then qret false
          else
            let* queued := read (QueuedModInstalls id) in
            match queued with
            | [] => startOwed inst
            | head :: _ =>
                let* targets := updateBatch id head queued in
                if (length targets <? 2)%nat then installNext inst head else installUpdates inst head targets
            end
  end.

(** [Drain]'s loop: a step that fails is retried by a later pass. *)
Fixpoint steps (ids : list string) (inFlight : gset string) : M D (gset string) :=
  match ids with
  | [] => mret inFlight
  | id :: ids => do! r := step id in steps ids (match r with Ok true => {[id]} ∪ inFlight | _ => inFlight end)
  end.
Fixpoint announce (held : gset string) (ids : list string) (inFlight : gset string) : M D (gset string) :=
  match ids with
  | [] => mret inFlight
  | id :: ids =>
      if bool_decide (InstanceLockKey id ∈ held) then announce held ids inFlight
      else do! _ := publish id in announce held ids (inFlight ∖ {[id]})
  end.
Definition announceFinished (inFlight : gset string) : M D (gset string) :=
  if bool_decide (inFlight = ∅) then mret inFlight
  else
    do! held := tx HeldLockKeys in
    match held with Err _ => mret inFlight | Ok held => announce held (elements inFlight) inFlight end.
Definition Drain (inFlight : gset string) : M D (gset string) :=
  do! ids := tx InstancesWithModQueue in
  match ids with
  | Err _ => mret inFlight
  | Ok ids => do! inFlight := steps ids inFlight in announceFinished inFlight
  end.
End ModQueue.
