(* ===== verification/ModQueueSafe.v ===== *)
(** What the mod queue promises: an install is submitted on the authority its requester
    has now, with a stopped server, and leaves the queue only so. *)
From S2P Require Import Prelude Authz Kinds Lifecycle Sql Store Engine RemoteStore PowerCut Launch PanelRows Runners ModQueue.

Open Scope Z_scope.

Notation "'do!' x := m 'in' k" := (mbind_ m (fun x => k)) (at level 10, x pattern, m at level 100, k at level 200) : go_scope.
Notation "'let*' x := m 'in' k" := (qbind m (fun x => k)) (at level 10, x pattern, m at level 100, k at level 200) : go_scope.

(** ** The rows a decision needs *)

Definition grantsOf (db : PDB) : Grants := {| GrantFor user id := Some (pGrants db !! (user, id)); GrantedInstances _ := None |}.
Lemma Can_read db db' user id : @Can (theGrant (Some (pGrants db !! (user, id)))) (userOf user db') ModsManage id = @Can (grantsOf db) (userOf user db') ModsManage id.
Proof. unfold Can, decide_, userOf. by destruct (pUsers db' !! user) as [[]|]. Qed.
Lemma Can_unneeded (g g' : Grants) u id : needsGrant u = false -> @Can g u ModsManage id = @Can g' u ModsManage id.
Proof.
  unfold needsGrant, Can, decide_. destruct u as [u|]; [|done]. destruct (Disabled u); [done|]. cbn [negb andb]. by case_bool_decide.
Qed.

Lemma Can_unread u id : needsGrant u = true -> @Can (theGrant None) u ModsManage id = false.
Proof.
  unfold needsGrant, Can, decide_. destruct u as [u|]; [|done]. destruct (Disabled u), (bool_decide (userRole u = RoleAdmin)); try done. intros _.
  repeat case_match; done.
Qed.

Lemma queuedOf_elem id db e : e ∈ queuedOf id db <-> pQueue db !! (id, e.1) = Some e.2.
Proof.
  unfold queuedOf. rewrite merge_sort_Permutation, list_elem_of_fmap. split.
  - intros ([[i n] q] & -> & [Hi Hin]%list_elem_of_filter). apply elem_of_map_to_list in Hin. cbn in *. by subst.
  - intros He. destruct e as [n q]. exists ((id, n), q). split; [done|]. apply list_elem_of_filter. split; [done|]. by apply elem_of_map_to_list.
Qed.

Section Safe.
Context {D : Type} `{!Outside D} `{!Control} `{!Submitting D} `{!Mods D}.

(** ** Running a step while others write *)

Definition post {A} (m : M D A) (w : World D) (P : A -> World D -> Prop) : Prop := P (m w).1 (m w).2.
Lemma post_run {A} (m : M D A) w P a w' : post m w P -> m w = (a, w') -> P a w'.
Proof. unfold post. intros HP E. by rewrite E in HP. Qed.
Lemma post_ret {A} (a : A) w P : P a w -> post (mret a) w P.
Proof. done. Qed.
Lemma post_bind {A B} (m : M D A) (k : A -> M D B) w P : post m w (fun a w1 => post (k a) w1 P) -> post (mbind_ m k) w P.
Proof. unfold post, mbind_. destruct (m w) as [a w1]. done. Qed.
Lemma post_weaken {A} (m : M D A) w (P R : A -> World D -> Prop) : post m w P -> (forall a w1, P a w1 -> R a w1) -> post m w R.
Proof. unfold post. auto. Qed.

(** The tables as they are after the first writes of the others, which is what a
    statement of the step reads until the step itself writes. *)
Definition after (w0 : World D) (n : nat) : PDB := fold_left (fun db f => f db) (take n (wOthers w0)) (wDB w0).
Definition moment (w0 : World D) (db : PDB) : Prop := exists n, db = after w0 n.

(** The step itself has written nothing since [w0]. *)
Definition same (w0 w : World D) : Prop := (exists n, wDB w = after w0 n /\ wOthers w = drop n (wOthers w0)) /\
  wTrace w = wTrace w0 /\ exists k, wFaults w = drop k (wFaults w0).
Lemma same_refl w : same w w.
Proof. split; [by exists 0%nat|]. split; [done|by exists 0%nat]. Qed.
Lemma same_out w0 w d : same w0 w -> same w0 (withOut d w).
Proof. done. Qed.
Lemma after_next w0 n : match drop n (wOthers w0) with f :: _ => f (after w0 n) | [] => after w0 n end = after w0 (S n) /\
  tail (drop n (wOthers w0)) = drop (S n) (wOthers w0).
Proof.
  unfold after. destruct (drop n (wOthers w0)) as [|f fs] eqn:E.
  - assert (length (wOthers w0) <= n)%nat by (apply (f_equal length) in E; rewrite length_drop in E; cbn in E; lia).
    rewrite !take_ge, drop_ge by lia. done.
  - assert (wOthers w0 !! n = Some f) as Hf by (rewrite <- (Nat.add_0_r n), <- lookup_drop, E; done).
    rewrite (take_S_r _ _ _ Hf), fold_left_app. split; [done|]. replace (S n) with (n + 1)%nat by lia. by rewrite <- drop_drop, E.
Qed.
Lemma same_others w0 w : same w0 w -> same w0 (others w).
Proof.
  intros ((n & Hdb & Ho) & Ht & Hf). split; [|by split]. exists (S n). unfold others. cbn [wDB wOthers]. rewrite Ho, Hdb. apply after_next.
Qed.

(** What nobody else touches of the queue. *)
Definition keepsKey (key : string * string) (f : PDB -> PDB) : Prop := forall db, pQueue (f db) !! key = pQueue db !! key.
Definition queueKept (w0 w : World D) : Prop := forall key, Forall (keepsKey key) (wOthers w0) -> pQueue (wDB w) !! key = pQueue (wDB w0) !! key.
Definition suffix_ (w0 w : World D) : Prop := exists n, wOthers w = drop n (wOthers w0).
Lemma fold_kept key (l : list (PDB -> PDB)) db : Forall (keepsKey key) l -> pQueue (fold_left (fun db f => f db) l db) !! key = pQueue db !! key.
Proof. intros Hall. revert db. induction Hall as [|f l Hf _ IH]; intros db; [done|]. cbn. by rewrite IH. Qed.
Lemma after_kept w0 n key : Forall (keepsKey key) (wOthers w0) -> pQueue (after w0 n) !! key = pQueue (wDB w0) !! key.
Proof. intros Hall. by apply fold_kept, Forall_take. Qed.
Lemma same_kept w0 w : same w0 w -> queueKept w0 w /\ suffix_ w0 w.
Proof. intros ((n & Hdb & Ho) & _). split; [|by exists n]. intros key Hk. rewrite Hdb. by apply after_kept. Qed.
Lemma others_kept w0 w : queueKept w0 w -> suffix_ w0 w -> queueKept w0 (others w) /\ suffix_ w0 (others w).
Proof.
  intros Hq [n Ho]. unfold others. split.
  - intros key Hk. cbn [wDB]. destruct (wOthers w) as [|f fs] eqn:E; [by apply Hq|]. rewrite <- (Hq key Hk).
    assert (Forall (keepsKey key) (f :: fs)) as Hff by (rewrite Ho; by apply Forall_drop). by inversion Hff.
  - exists (S n). cbn [wOthers]. rewrite Ho. apply after_next.
Qed.

Lemma post_out {A} (f : D -> A * D) w0 w (P : A -> World D -> Prop) : same w0 w -> (forall a w1, same w0 w1 -> P a w1) -> post (out f) w P.
Proof. intros Hs HP. unfold post, out. destruct (f (wOut w)) as [a d]. apply HP. exact Hs. Qed.

Lemma next_fault (b : bool) fs F k : b :: fs = drop k F -> fs = drop (S k) F.
Proof. intros E. replace (S k) with (k + 1)%nat by lia. by rewrite <- drop_drop, <- E. Qed.
Definition faulty (w : World D) : Prop := true ∈ wFaults w.
Lemma post_tx_readq {A} (f : PDB -> A) w0 w (P : result TxErr A -> World D -> Prop) : same w0 w ->
  (forall db w1, moment w0 db -> same w0 w1 -> P (Ok (f db)) w1) -> (forall e w1, faulty w0 -> same w0 w1 -> P (Err e) w1) -> post (tx (readq f)) w P.
Proof.
  intros Hs Hok Herr. unfold post, tx. apply same_others in Hs. set (v := others w) in *. clearbody v.
  destruct Hs as ((n & Hdb & Ho) & Ht & k & Hk). unfold readq, stmt.
  destruct (wFaults v) as [|[] fs] eqn:E; cbn [fst snd].
  - apply Hok; [by exists n|]. split; [by exists n|]. split; [done|by exists k].
  - apply Herr; [|split; [by exists n|split; [done|exists (S k); by eapply next_fault]]].
    unfold faulty. rewrite <- (take_drop k (wFaults w0)), <- Hk. apply elem_of_app. right. by left.
  - apply Hok; [by exists n|]. split; [by exists n|]. split; [done|exists (S k); by eapply next_fault].
Qed.

Lemma post_qbind {A B} (m : Q (D := D) A) (k : A -> Q (D := D) B) w P :
  post m w (fun r w1 => match r with Ok a => post (k a) w1 P | Err e => P (Err e) w1 end) -> post (qbind m k) w P.
Proof. intros Hm. apply post_bind. eapply post_weaken; [exact Hm|]. by intros [a|e] w1. Qed.
Lemma post_read {A} (f : PDB -> A) w0 w (P : result QErr A -> World D -> Prop) : same w0 w ->
  (forall db w1, moment w0 db -> same w0 w1 -> P (Ok (f db)) w1) -> (forall e w1, same w0 w1 -> P (Err e) w1) -> post (read (readq f)) w P.
Proof.
  intros Hs Hok Herr. apply post_bind. eapply post_tx_readq; [exact Hs|..].
  - intros db w1 Hm H1. apply post_ret. by apply Hok.
  - intros e w1 _ H1. apply post_ret. by apply Herr.
Qed.

(** *** The decision *)

(** The requester may change the server's mods: the account and its grant as they are
    when they are read. *)
Definition mayNow (w0 : World D) (id user : string) : Prop := user <> "" /\ exists db db', moment w0 db /\ moment w0 db' /\
  @Can (grantsOf db') (userOf user db) ModsManage id = true.
(** They say the requester may not, or the driver failed a statement. *)
Definition mayNot (w0 : World D) (id user : string) : Prop := user = "" \/ faulty w0 \/ exists db db', moment w0 db /\ moment w0 db' /\
  @Can (grantsOf db') (userOf user db) ModsManage id = false.
Lemma mayInstall_post id user (w0 w : World D) (P : result QErr bool -> World D -> Prop) : same w0 w ->
  (forall (b : bool) w1, same w0 w1 -> (if b then mayNow w0 id user else mayNot w0 id user) -> P (Ok b) w1) ->
  (forall e w1, same w0 w1 -> P (Err e) w1) -> post (mayInstall id user) w P.
Proof.
  intros Hs Hok Herr. unfold mayInstall. case_bool_decide as Hu; [apply post_ret, Hok; [done|by left]|].
  apply post_qbind, (post_read _ w0); [done| |done]. intros db w1 Hm H1. apply post_bind.
  assert (forall db' w2 (b : bool), moment w0 db' -> same w0 w2 -> @Can (grantsOf db') (userOf user db) ModsManage id = b -> P (Ok b) w2) as Hend.
  { intros db' w2 b Hm' H2 Hc. apply Hok; [done|]. destruct b; [split; [done|by exists db, db']|right; right; by exists db, db']. }
  destruct (needsGrant _) eqn:Hn.
  - apply post_bind, (post_tx_readq _ w0); [done|intros db' w2 Hm' H2|intros e w2 Hf H2]; apply post_ret, post_ret.
    + rewrite Can_read. by apply (Hend db').
    + rewrite Can_unread by done. apply Hok; [done|]. right. by left.
  - apply post_ret, post_ret. apply (Hend db); [done..|]. by apply Can_unneeded.
Qed.

(** *** The batch *)
Definition batched (db : PDB) (id : string) (head : string * QueuedModInstall) (l : list UpdateTarget) : Prop :=
  l = [] \/ (exists t, t ∈ l /\ tName t = head.1) /\
    forall t, t ∈ l -> exists e, pQueue db !! (id, tName t) = Some e /\ qVersion e = tVersion t /\ default "" (qRequestedBy e) = by_ head.

Lemma checkTargets_sub enabled rows seen l t : t ∈ checkTargets enabled rows seen l -> exists t0, t0 ∈ l /\ tName t = tName t0 /\ tVersion t = tVersion t0.
Proof.
  revert seen. induction l as [|x l IH]; intros seen; cbn [checkTargets]; [by intros ?%not_elem_of_nil|].
  assert (t ∈ checkTargets enabled rows ({[tName x]} ∪ seen) l -> exists t0, t0 ∈ x :: l /\ tName t = tName t0 /\ tVersion t = tVersion t0) as Hrest.
  { intros (t0 & Ht & Hn)%IH. exists t0. split; [by right|done]. }
  case_bool_decide; [done|]. destruct (_ !! tName x) as [row|]; [|done]. destruct (_ && _); [|done].
  intros [->|Ht]%elem_of_cons; [exists x; split; [by left|done]|by apply Hrest].
Qed.

Lemma candidates_post id who offered queued (w0 w : World D) (P : result QErr (list UpdateTarget) -> World D -> Prop) : same w0 w ->
  (forall l w1, same w0 w1 -> (forall t, t ∈ l -> exists e, e ∈ queued /\ tName t = e.1 /\ tVersion t = qVersion e.2 /\ by_ e = who) -> P (Ok l) w1) ->
  (forall e w1, same w0 w1 -> P (Err e) w1) -> post (candidates id who offered queued) w P.
Proof.
  revert w P. induction queued as [|e queued IH]; intros w P Hs Hok Herr; cbn [candidates]; [apply post_ret, Hok; [done|by intros t ?%not_elem_of_nil]|].
  destruct (_ || _) eqn:Hb.
  { apply IH; [done| |done]. intros l w1 H1 Hl. apply Hok; [done|]. intros t (x & Hx & Hr)%Hl. exists x. split; [by right|done]. }
  apply orb_false_iff in Hb as [Hb%negb_false_iff%bool_decide_eq_true _].
  assert (forall src w1, same w0 w1 -> post (let* rest := candidates id who offered queued in qret (mkTarget e.1 src "" (qVersion e.2) :: rest)) w1 P) as Hk.
  { intros src w1 H1. apply post_qbind, IH; [done| |done]. intros l w2 H2 Hl. apply post_ret, Hok; [done|].
    intros t [->|(x & Hx & Hr)%Hl]%elem_of_cons; [exists e; split; [by left|done]|exists x; split; [by right|done]]. }
  apply post_qbind. case_bool_decide.
  - apply post_qbind, (post_read _ w0); [done| |done]. intros db w1 _ H1. apply post_ret. by apply Hk.
  - apply post_ret. by apply Hk.
Qed.
Lemma updateBatch_post id head db (w0 w : World D) (P : result QErr (list UpdateTarget) -> World D -> Prop) : same w0 w ->
  (forall l w1, same w0 w1 -> batched db id head l -> P (Ok l) w1) -> (forall e w1, same w0 w1 -> P (Err e) w1) ->
  post (updateBatch id head (queuedOf id db)) w P.
Proof.
  intros Hs Hok Herr. unfold updateBatch. apply post_qbind. unfold post at 1, PendingUpdates. destruct (PendingNames id (wDB w) (wOut w)) as [[offered|] d]; [|by apply Herr].
  pose proof (same_out w0 w d Hs) as H1. cbn [fst snd]. case_bool_decide; cbn [negb]; [|apply post_ret, Hok; [done|by left]].
  apply post_qbind, (candidates_post _ _ _ _ w0); [done| |done]. intros l w2 H2 Hl. apply post_qbind.
  assert (forall checked w3, same w0 w3 -> (forall t, t ∈ checked -> exists t0, t0 ∈ l /\ tName t = tName t0 /\ tVersion t = tVersion t0) ->
    post (if existsb (fun t => bool_decide (tName t = head.1)) checked then qret checked else qret []) w3 P) as Hk.
  { intros checked w3 H3 Hc. destruct (existsb _ checked) eqn:Ex; apply post_ret, Hok; [done| |done|by left]. right. split.
    - apply existsb_exists in Ex as (t & Ht & Hn%bool_decide_eq_true). exists t. split; [by apply list_elem_of_In|done].
    - intros t (t0 & (e & He & Hn & Hv & Hby)%Hl & Hn0 & Hv0)%Hc. exists e.2. apply queuedOf_elem in He. rewrite Hn0, Hn. split_and!; [done|congruence|done]. }
  destruct l as [|t l]; [apply post_ret, Hk; [done|by intros t ?%not_elem_of_nil]|].
  apply post_qbind, (post_read _ w0); [done| |done]. intros db' w3 _ H3. apply post_ret, Hk; [done|]. intros x. apply checkTargets_sub.
Qed.

(** *** What a step leaves *)

Definition names (p : InstallPayload) : list string := match pyUpdates p with [] => [pyName p] | l => tName <$> l end.
(** Each guard passed when the step read it: the instance stopped, no open operation,
    and no power cut near at a reading of the clock. *)
Definition ready (w0 : World D) (id : string) : Prop :=
  (exists db, moment w0 db /\ stateOf id db = Some StateStopped) /\ (exists db, moment w0 db /\ id ∉ pOps db) /\
  exists db d, moment w0 db /\ let now := (@Clock D _ d).1 in existsb (fun t => (now <? t) && (t <=? now + ShutdownQuietLead)) (pCuts db) = false.
(** What it submits for: the head of the queue alone, or a batch with it in. *)
Definition wanted (db : PDB) (id : string) (head : string * QueuedModInstall) (p : InstallPayload) : Prop :=
  p = mkInstallPayload head.1 (qVersion head.2) (qSource head.2) [] false \/
  (2 <= length (pyUpdates p))%nat /\ batched db id head (pyUpdates p).
(** The submission of a payload for the head: the server's lock and claim, in the
    requester's name. *)
Definition installOf (id : string) (head : string * QueuedModInstall) (p : InstallPayload) (spec : Spec) : Prop :=
  exists now inst action detail staging, nID inst = id /\
    spec = modInstallSpec now inst (by_ head) (Some (auditOf (by_ head) id action detail)) (encodePayload p staging).
Definition startOf (id who : string) (spec : Spec) : Prop := exists now inst, nID inst = id /\ spec = startSpec now inst (mkOrigin who "" None).
Definition requested (w0 : World D) (id : string) (spec : Spec) : Prop :=
  (exists db head rest p, moment w0 db /\ queuedOf id db = head :: rest /\ wanted db id head p /\ mayNow w0 id (by_ head) /\ installOf id head p spec) \/
  (exists db db' who, moment w0 db /\ queuedOf id db = [] /\ moment w0 db' /\ pStarts db' !! id = Some who /\ startOf id (default "" who) spec).

(** The payload installs this entry, at the version queued. *)
Definition carries (p : InstallPayload) (name : string) (e : QueuedModInstall) : Prop :=
  pyUpdates p = [] /\ pyName p = name /\ pyVersion p = qVersion e \/ exists t, t ∈ pyUpdates p /\ tName t = name /\ tVersion t = qVersion e.
Lemma wanted_carries w0 db id head rest p name e : moment w0 db -> Forall (keepsKey (id, name)) (wOthers w0) -> pQueue (wDB w0) !! (id, name) = Some e ->
  queuedOf id db = head :: rest -> wanted db id head p -> name ∈ names p -> carries p name e.
Proof.
  intros [n ->] Hk He Hq Hw Hin. rewrite <- (after_kept w0 n) in He by done. destruct Hw as [->|[Hl [Hb|[_ Hb]]]]; [| |].
  - left. cbn in Hin. apply list_elem_of_singleton in Hin as ->. split_and!; [done..|].
    assert (head ∈ queuedOf id (after w0 n)) as Hh%queuedOf_elem by (rewrite Hq; by left). cbn in *. congruence.
  - rewrite Hb in Hl. cbn in Hl. lia.
  - right. unfold names in Hin. destruct (pyUpdates p) as [|t0 ts] eqn:Ep; [cbn in Hl; lia|]. apply list_elem_of_fmap in Hin as (t & -> & Ht).
    exists t. split_and!; [done..|]. destruct (Hb t Ht) as (e' & He' & Hv & _). congruence.
Qed.

Definition lost (db db' : PDB) (key : string * string) (e : QueuedModInstall) : Prop := pQueue db !! key = Some e /\ pQueue db' !! key <> Some e.
(** Why an entry may be gone: it was submitted and accepted, or it was the head and its
    requester may no longer install. *)
Definition gone (id : string) (w0 : World D) (evs : list Ev) (key : string * string) (e : QueuedModInstall) : Prop :=
  (exists spec j head p, ESubmit spec (Ok j) ∈ evs /\ installOf id head p spec /\ carries p key.2 e) \/
  (exists db rest, moment w0 db /\ queuedOf id db = (key.2, e) :: rest /\ mayNot w0 id (default "" (qRequestedBy e))).
Definition kept (id : string) (w0 w : World D) : Prop := exists evs, wTrace w = wTrace w0 ++ evs /\
  (forall spec x, ESubmit spec x ∈ evs -> ready w0 id /\ requested w0 id spec) /\
  (forall key e, Forall (keepsKey key) (wOthers w0) -> lost (wDB w0) (wDB w) key e -> key.1 = id /\ gone id w0 evs key e).

(** Only the keys of [nms] may have moved on the step's own account. *)
Definition keptBut (id : string) (nms : list string) (w0 w : World D) : Prop := forall key, (key.1 <> id \/ key.2 ∉ nms) ->
  Forall (keepsKey key) (wOthers w0) -> pQueue (wDB w) !! key = pQueue (wDB w0) !! key.
Lemma queueKept_but id nms w0 w : queueKept w0 w -> keptBut id nms w0 w.
Proof. intros Hq key _. apply Hq. Qed.
Lemma keptBut_none id w0 w : keptBut id [] w0 w -> queueKept w0 w.
Proof. intros Hq key. apply Hq. right. set_solver. Qed.

Lemma kept_quiet id w0 w evs : queueKept w0 w -> wTrace w = wTrace w0 ++ evs -> (forall spec x, ESubmit spec x ∈ evs -> ready w0 id /\ requested w0 id spec) -> kept id w0 w.
Proof. intros Hq Ht He. exists evs. split_and!; [done..|]. intros key e Hk [H1 H2]. by rewrite Hq in H2. Qed.
Lemma kept_unchanged id w0 w : same w0 w -> kept id w0 w.
Proof.
  intros Hs. pose proof (same_kept _ _ Hs) as [Hq _]. destruct Hs as (_ & Ht & _). apply (kept_quiet _ _ _ []); [done|by rewrite app_nil_r|by intros ? ? ?%not_elem_of_nil].
Qed.

(** After the submission: it is on record, and the queue is as the others leave it. *)
Definition submitted (spec : Spec) (r : result EngineErr string) (w0 w : World D) : Prop :=
  queueKept w0 w /\ suffix_ w0 w /\ wTrace w = wTrace w0 ++ [ESubmit spec r].
Lemma submit_post spec (w0 w : World D) (P : result EngineErr string -> World D -> Prop) : same w0 w ->
  (forall r w1, submitted spec r w0 w1 -> P r w1) -> post (submit spec) w P.
Proof.
  intros Hs HP. unfold submit. apply post_bind, (post_out _ w0); [done|]. intros refusal w1 H1. apply post_bind.
  assert (forall r w2, queueKept w0 w2 -> suffix_ w0 w2 -> wTrace w2 = wTrace w0 -> post (do! _ := note (ESubmit spec r) in mret r) w2 P) as Hend.
  { intros r w2 Hq Ho Ht. apply post_bind. unfold post at 1. cbn. apply post_ret, HP. split_and!; [done..|]. cbn. by rewrite Ht. }
  assert (forall r w2, same w0 w2 -> post (do! _ := note (ESubmit spec r) in mret r) w2 P) as Hsame.
  { intros r w2 H2. pose proof (same_kept _ _ H2) as [Hq Ho]. destruct H2 as (_ & Ht & _). by apply Hend. }
  destruct refusal as [e|]; [by apply post_ret, Hsame|]. destruct (sPayload spec) as [payload|]; [|by apply post_ret, Hsame].
  unfold submitRow. apply post_bind, (post_out _ w0); [done|]. intros jobID w2 H2. apply post_bind, (post_out _ w0); [done|]. intros auditID w3 H3.
  apply post_bind, (post_out _ w0); [done|]. intros now w4 H4. apply post_bind. unfold post at 1, tx.
  apply same_others in H4. set (v := others w4) in *. clearbody v. pose proof (same_kept _ _ H4) as [Hq Ho].
  destruct (onI _ _) as [r [db fs]] eqn:E. apply onI_run in E as (b & _ & E). cbn [fst] in E. subst db. cbn [fst snd].
  apply post_ret, Hend; [exact Hq|exact Ho|by destruct H4 as (_ & Ht & _)].
Qed.

Lemma SubmitInstall_post inst who audit p (w0 w : World D) (P : result QErr (result EngineErr string) -> World D -> Prop) : same w0 w ->
  (forall now staging r w1, submitted (modInstallSpec now inst who (Some audit) (encodePayload p staging)) r w0 w1 -> P (Ok r) w1) ->
  (forall e w1, same w0 w1 -> P (Err e) w1) -> post (SubmitInstall inst who audit p) w P.
Proof.
  intros Hs HP Herr. unfold SubmitInstall. apply post_bind, (post_out _ w0); [done|]. intros [staging|] w1 H1; cbn [ofOption]; [|by apply Herr].
  apply post_qbind, post_ret, post_bind, (post_out _ w0); [done|]. intros now w2 H2. apply post_bind, (submit_post _ w0); [done|].
  intros r w3 (Hq & Ho & Ht). apply post_bind. destruct r as [j|e]; eapply HP; by split_and!.
Qed.

(** The entries taken off afterwards. *)
Lemma unqueued_queue id nms s s' : unqueueEach id nms s = (Ok tt, s') -> forall key, (key.1 <> id \/ key.2 ∉ nms) -> pQueue s'.1 !! key = pQueue s.1 !! key.
Proof.
  revert s. induction nms as [|n nms IH]; intros s; cbn [unqueueEach]; [intros [= <-]; done|].
  intros (b & s1 & H1 & H2)%tbind_Ok key Hk. rewrite (IH _ H2) by (destruct Hk as [?|Hk]; [by left|right; set_solver]).
  apply UnqueueModInstall_cases in H1 as [[_ [e ?]]|[-> _]]; [done|]. cbn. apply lookup_delete_ne. destruct Hk as [Hk|Hk]; [intros <-; by apply Hk|intros <-; set_solver].
Qed.
Definition takes (id : string) (nms : list string) {A} (m : PTx A) : Prop := forall s r s', m s = (r, s') ->
  forall key, (key.1 <> id \/ key.2 ∉ nms) -> pQueue s'.1 !! key = pQueue s.1 !! key.
Lemma takes_one id n : takes id [n] (UnqueueModInstall id n).
Proof.
  intros s r s' [[-> _]|[-> _]]%UnqueueModInstall_cases key Hk; [done|]. cbn. apply lookup_delete_ne. intros <-. destruct Hk as [Hk|Hk]; [done|set_solver].
Qed.
Lemma takes_each id nms : takes id nms (UnqueueModInstalls id nms).
Proof.
  intros s [[]|e] s' E key Hk; [|by rewrite (inTx_Err _ _ _ _ E)]. apply inTx_Ok in E as (fs & s1 & E & ->). by rewrite (unqueued_queue _ _ _ _ E key Hk).
Qed.
Lemma takes_clear id : takes id [] (ClearQueuedModStart id).
Proof. intros s r s' [[_ ->]|[_ ->]]%writeq_cases key _; done. Qed.

Lemma post_takes {A} (m : PTx A) id nms (w0 w1 : World D) (P : result QErr A -> World D -> Prop) : takes id nms m ->
  queueKept w0 w1 -> suffix_ w0 w1 -> (forall r w2, keptBut id nms w0 w2 -> wTrace w2 = wTrace w1 -> P r w2) -> post (read m) w1 P.
Proof.
  intros Hm Hq Ho HP. unfold read. apply post_bind. unfold post at 1, tx. destruct (others_kept _ _ Hq Ho) as [Hq1 _]. change (wTrace w1) with (wTrace (others w1)) in HP.
  set (v := others w1) in *. clearbody v. destruct (m _) as [r [db fs]] eqn:E. apply post_ret, HP; [|done].
  intros key Hk Hf. pose proof (Hm _ _ _ E key Hk) as H1. cbn in *. rewrite H1. by apply Hq1.
Qed.

(** An install submitted, then taken off. *)
Lemma kept_install id db head rest p spec r (w0 w : World D) pub : ready w0 id -> moment w0 db -> queuedOf id db = head :: rest ->
  mayNow w0 id (by_ head) -> wanted db id head p -> installOf id head p spec -> wTrace w = wTrace w0 ++ ESubmit spec r :: pub ->
  (forall spec x, ESubmit spec x ∉ pub) -> (queueKept w0 w \/ is_ok r = true /\ keptBut id (names p) w0 w) -> kept id w0 w.
Proof.
  intros Hr Hdb Hq Ha Hw Hi Ht Hpub Hn. exists (ESubmit spec r :: pub). split; [done|]. split.
  - intros spec' x [[= -> ->]|Hin]%elem_of_cons; [|by apply Hpub in Hin]. split; [done|]. left. by exists db, head, rest, p.
  - intros key e Hk [H1 H2]. destruct Hn as [Hn|[Hok Hn]]; [by rewrite Hn in H2|].
    destruct (decide (key.1 <> id \/ key.2 ∉ names p)) as [Hd|Hd]; [by rewrite Hn in H2|].
    assert (key.1 = id /\ key.2 ∈ names p) as [Hid Hin] by (destruct (decide (key.1 = id)), (decide (key.2 ∈ names p)); tauto). split; [done|]. left.
    destruct r as [j|]; [|done]. exists spec, j, head, p. split_and!; [by left|done|]. destruct key as [k1 k2]. cbn in *. subst k1. by eapply wanted_carries.
Qed.

Lemma kept_drop id db head rest (w0 w : World D) pub : moment w0 db -> queuedOf id db = head :: rest -> mayNot w0 id (by_ head) ->
  wTrace w = wTrace w0 ++ pub -> (forall spec x, ESubmit spec x ∉ pub) -> keptBut id [head.1] w0 w -> kept id w0 w.
Proof.
  intros [n ->] Hq Hno Ht Hpub Hl. exists pub. split; [done|]. split; [by intros spec x ?%Hpub|]. intros key e Hk [H1 H2].
  destruct (decide (key.1 <> id \/ key.2 ∉ [head.1])) as [Hd|Hd]; [by rewrite Hl in H2|].
  assert (key.1 = id /\ key.2 = head.1) as [Hid Hn] by (destruct (decide (key.1 = id)), (decide (key.2 ∈ [head.1])); set_solver). split; [done|]. right.
  assert (head ∈ queuedOf id (after w0 n)) as Hin%queuedOf_elem by (rewrite Hq; by left). rewrite <- (after_kept w0 n) in H1 by done.
  destruct key as [k1 k2]. cbn in *. subst. rewrite H1 in Hin. injection Hin as ->. exists (after w0 n), rest. split; [by exists n|].
  split; [|done]. rewrite Hq. by destruct head.
Qed.

Section Step.
Context (id : string) (w0 : World D).
Abbreviation P := (fun _ w1 => kept id w0 w1) (only parsing).

Lemma dropped_kept db head rest (w : World D) : same w0 w -> moment w0 db -> queuedOf id db = head :: rest -> mayNot w0 id (by_ head) ->
  post (let* _ := drop_ id head in qret false) w P.
Proof.
  intros Hs Hdb Hq Hno. pose proof (same_kept _ _ Hs) as [Hqk Ho]. destruct Hs as (_ & Ht & _).
  apply post_qbind. unfold drop_. apply post_qbind. eapply (post_takes _ id [head.1] w0 w); [apply takes_one|done..|]. intros [b|e] w1 Hl Ht1.
  - apply post_bind. unfold post at 1. cbn. apply (kept_drop id db head rest _ _ [EPublish id]); [done..| |set_solver|done]. cbn. by rewrite Ht1, Ht.
  - apply (kept_drop id db head rest _ _ []); [done..|by rewrite Ht1, Ht, app_nil_r|set_solver|done].
Qed.

(** After the submission of [p]: busy, refused, or taken off the queue. *)
Lemma submitted_kept {A} db head rest p spec r (m : PTx A) (w : World D) : ready w0 id -> moment w0 db -> queuedOf id db = head :: rest ->
  mayNow w0 id (by_ head) -> wanted db id head p -> installOf id head p spec -> takes id (names p) m -> submitted spec r w0 w ->
  post (match r with
        | Err e => if busy e then qret false else qfail (QSubmit e)
        | Ok _ => let* _ := read m in do! _ := publish id in qret true
        end) w P.
Proof.
  intros Hr Hdb Hq Ha Hw Hi Hm (Hq1 & Ho1 & Ht1). destruct r as [j|e].
  - apply post_qbind. eapply (post_takes m id (names p) w0 w); [done..|]. intros [a|e] w1 Hl Ht2.
    + apply post_bind. unfold post at 1. cbn. apply post_ret. eapply (kept_install id db head rest p spec (Ok j) _ _ [EPublish id]); try done; [|set_solver|by right].
      cbn. by rewrite Ht2, Ht1, <- app_assoc.
    + eapply (kept_install id db head rest p spec (Ok j) _ _ []); try done; [by rewrite Ht2, Ht1|set_solver|by right].
  - assert (kept id w0 w) as Hkept by (eapply (kept_install id db head rest p spec (Err e) _ _ []); try done; [set_solver|by left]).
    by destruct (busy e).
Qed.

Lemma installNext_kept db inst head rest (w : World D) : nID inst = id -> same w0 w -> ready w0 id -> moment w0 db -> queuedOf id db = head :: rest ->
  post (installNext inst head) w P.
Proof.
  intros Hid Hs Hr Hdb Hq. unfold installNext. rewrite Hid. apply post_qbind, (mayInstall_post _ _ w0); [done| |intros; by apply kept_unchanged].
  intros [] w1 H1 Ha; cbn [negb]; [|by eapply dropped_kept]. apply post_qbind, (post_read _ w0); [done| |intros; by apply kept_unchanged]. intros db2 w2 _ H2.
  apply post_qbind. destruct (encodeInstall _ _ _ _) as [detail|]; cbn [ofOption]; [|apply post_ret; by apply kept_unchanged]. apply post_ret.
  apply post_qbind, (SubmitInstall_post _ _ _ _ w0); [done| |intros; by apply kept_unchanged]. intros now staging r w3 H3.
  eapply (submitted_kept db head rest (mkInstallPayload head.1 (qVersion head.2) (qSource head.2) [] false)); [done..| | |apply takes_one|done]; [by left|].
  repeat eexists; done.
Qed.
Lemma installUpdates_kept db inst head rest targets (w : World D) : nID inst = id -> same w0 w -> ready w0 id -> moment w0 db -> queuedOf id db = head :: rest ->
  batched db id head targets -> (2 <= length targets)%nat -> post (installUpdates inst head targets) w P.
Proof.
  intros Hid Hs Hr Hdb Hq Hb Hl. unfold installUpdates. rewrite Hid. apply post_qbind, (mayInstall_post _ _ w0); [done| |intros; by apply kept_unchanged].
  intros [] w1 H1 Ha; cbn [negb]; [|by eapply dropped_kept].
  apply post_qbind. destruct (encodeUpdates _) as [detail|]; cbn [ofOption]; [|apply post_ret; by apply kept_unchanged]. apply post_ret.
  apply post_qbind, (SubmitInstall_post _ _ _ _ w0); [done| |intros; by apply kept_unchanged]. intros now staging r w3 H3.
  assert (names (mkInstallPayload "" "" "" targets true) = tName <$> targets) as Hn by (destruct targets; [cbn in Hl; lia|done]).
  eapply (submitted_kept db head rest (mkInstallPayload "" "" "" targets true)); [done..| | |rewrite Hn; apply takes_each|done]; [by right|]. repeat eexists; done.
Qed.

Lemma cleared_kept evs (w1 : World D) : (forall spec x, ESubmit spec x ∈ evs -> ready w0 id /\ requested w0 id spec) ->
  queueKept w0 w1 -> suffix_ w0 w1 -> wTrace w1 = wTrace w0 ++ evs -> post (let* _ := read (ClearQueuedModStart id) in qret false) w1 P.
Proof.
  intros He Hq Ho Ht. apply post_qbind. eapply (post_takes _ id [] w0 w1); [apply takes_clear|done..|]. intros r w2 Hl Ht2.
  assert (kept id w0 w2) as Hk by (apply (kept_quiet _ _ _ evs); [by eapply keptBut_none|by rewrite Ht2|done]). by destruct r.
Qed.
Lemma startOwed_kept db inst (w : World D) : nID inst = id -> same w0 w -> ready w0 id -> moment w0 db -> queuedOf id db = [] -> post (startOwed inst) w P.
Proof.
  intros Hid Hs Hr Hdb Hq. unfold startOwed. rewrite Hid. apply post_qbind, (post_read _ w0); [done| |intros; by apply kept_unchanged]. intros db1 w1 Hdb1 H1.
  destruct (pStarts db1 !! id) as [who|] eqn:Eo; cbn [fst snd negb]; [|apply post_ret; by apply kept_unchanged].
  apply post_bind, (post_out _ w0); [done|]. intros now w2 H2. apply post_qbind. destruct (iContainerID (nRow inst)) as [cid|].
  - apply post_bind, (submit_post _ w0); [done|]. intros r w3 (Hq3 & Ho3 & Ht3). apply post_ret.
    set (evs := [ESubmit _ r]) in *. assert (forall spec x, ESubmit spec x ∈ evs -> ready w0 id /\ requested w0 id spec) as He.
    { intros spec x [= -> ->]%list_elem_of_singleton. split; [done|]. right. exists db, db1, who. split_and!; [done..|]. by exists now, inst. }
    destruct r as [j|e]; [by eapply cleared_kept|]. assert (kept id w0 w3) by by eapply kept_quiet. by destruct (busy e).
  - apply post_ret. pose proof (same_kept _ _ H2) as [Hq2 Ho2]. destruct H2 as (_ & Ht & _).
    eapply (cleared_kept []); [by intros ? ? ?%not_elem_of_nil|done..|by rewrite app_nil_r].
Qed.
End Step.

End Safe.
