(* ===== verification/ModQueueWitness.v ===== *)
(** Concrete passes over the mod queue. *)
From S2P Require Import Prelude Authz Kinds Lifecycle Sql Store Engine RemoteStore PowerCut Launch PanelRows Runners RunnersWitness ModQueue ModQueueSafe.

Open Scope Z_scope.

(** The engine accepts, ids count up with the clock, and one package has an update. *)
#[export] Instance HostSubmitting : Submitting Host := {
  Refuses _ h := (None, h);
  NewID h := (S_ (Argon.itoa (hNow h)), later h);
  Owner := "process1"; LeaseTTL_ := 30
}.
#[export] Instance HostMods : Mods Host := {
  PendingNames _ _ h := (Ok ["Author-Old"; "Author-Older"], h);
  EnabledSources := ["thunderstore"];
  Stage h := (Some "/data/staging/install-1", h);
  Unstage _ h := h;
  encodePayload p staging := Some (pyName p +:+ pyVersion p +:+ String.concat "," (tName <$> pyUpdates p) +:+ staging);
  encodeUpdates _ := Some "{}";
  encodeInstall _ _ _ _ := Some "{}"
}.

(** A stopped server: two updates and an install by ann, who may manage its mods, and
    an update by bob, whose grant is gone; the start is owed. *)
Definition queuedBy (user version source : string) (at_ : Z) : QueuedModInstall := mkQueued version source (Some user) at_.
Definition mod_ (v : string) : InstanceMod := mkInstanceMod v "thunderstore" true false.
Definition queuePanel (q : gmap (string * string) QueuedModInstall) : PDB :=
  mkPDB (mkRDB (mkDB ∅ ∅ {[ "i1" := rowIn StateStopped ]} {[ "u1" := "ann"; "u2" := "bob" ]} ∅ ∅) ∅ ∅ ∅ ∅ {[ "i1" := defaultCols ]})
    {[ "i1" := colsMidgard ]} q {[ "i1" := Some "u1" ]} ∅ []
    {[ ("i1", "Author-Old") := mod_ "1.0.0"; ("i1", "Author-Older") := mod_ "0.9.0" ]}
    {[ "u1" := ("member", false); "u2" := ("member", false) ]} {[ ("u1", "i1") := mkGrant "viewer" [name ModsManage] ]}.
Definition someQueue : gmap (string * string) QueuedModInstall :=
  {[ ("i1", "Author-Old") := queuedBy "u1" "1.1.0" "" 1; ("i1", "Author-Older") := queuedBy "u1" "1.0.0" "" 2;
     ("i1", "Author-New") := queuedBy "u1" "2.0.0" "thunderstore" 3; ("i1", "Author-Other") := queuedBy "u2" "1.0.0" "thunderstore" 4 ]}.
Definition at_rest (db : PDB) (fs : faults) : World Host := mkWorld db fs [] (host false [] true true) [] [].
Definition pass (w : World Host) : result QErr bool * World Host := step "i1" w.

(** What a pass has submitted, and what is left in the queue. *)
Definition kinds (w : World Host) : list (string * bool) :=
  omap (fun e => match e with ESubmit spec r => Some (default "" (sPayload spec), is_ok r) | _ => None end) (wTrace w).
Definition left_ (w : World Host) : list string := fst <$> queuedOf "i1" (wDB w).

(** The two updates go as one job; while it runs the lock is held and the next pass
    waits. *)
Example first_pass : let w := (pass (at_rest (queuePanel someQueue) [])).2 in
  (kinds w, left_ w) = ([("Author-Old,Author-Older/data/staging/install-1", true)], ["Author-New"; "Author-Other"]) /\
  (let w' := (pass w).2 in (kinds w', left_ w') = (kinds w ++ [("Author-New2.0.0/data/staging/install-1", false)], left_ w)).
Proof. split; vm_compute; reflexivity. Qed.
(** Bob's grant is gone; and with an empty queue the start is submitted. *)
Definition bobsQueue : gmap (string * string) QueuedModInstall := {[ ("i1", "Author-Other") := queuedBy "u2" "1.0.0" "thunderstore" 4 ]}.
Example bob_is_refused : let w := (pass (at_rest (queuePanel bobsQueue) [])).2 in (kinds w, left_ w) = ([], []).
Proof. vm_compute. reflexivity. Qed.
Example start_is_owed : let w := (pass (at_rest (queuePanel ∅) [])).2 in (kinds w, pStarts (wDB w) !! "i1", stateOf "i1" (wDB w)) = ([("{}", true)], None, Some StateStarting).
Proof. vm_compute. reflexivity. Qed.

(** The driver fails once, where ann's grant is read: her install is dropped, as if the
    grant were gone. *)
Definition annsQueue : gmap (string * string) QueuedModInstall := {[ ("i1", "Author-New") := queuedBy "u1" "2.0.0" "thunderstore" 3 ]}.
Example failed_read_drops_install :
  (let w := (pass (at_rest (queuePanel annsQueue) [])).2 in (kinds w, left_ w)) = ([("Author-New2.0.0/data/staging/install-1", true)], []) /\
  (let w := (pass (at_rest (queuePanel annsQueue) [false; false; false; false; false; true])).2 in (kinds w, left_ w)) = ([], []) /\
  @Can (grantsOf (queuePanel annsQueue)) (userOf "u1" (queuePanel annsQueue)) ModsManage "i1" = true.
Proof. split_and!; vm_compute; reflexivity. Qed.

(** Ann asks for another version of the package after the queue is read: the version
    read is submitted, and her new entry goes with it although nothing installs it. *)
Definition asksAgain (db : PDB) : PDB := match queueRow 9 "i1" "Author-New" "3.0.0" "thunderstore" "u1" db with Ok (_, db') => db' | Err _ => db end.
Definition while_asking (f : PDB -> PDB) : World Host := mkWorld (queuePanel annsQueue) [] (replicate 8 (fun db => db) ++ [f]) (host false [] true true) [] [].
Example replaced_entry_lost :
  qVersion <$> pQueue (asksAgain (queuePanel annsQueue)) !! ("i1", "Author-New") = Some "3.0.0" /\
  (let w := (pass (while_asking asksAgain)).2 in (kinds w, left_ w)) = ([("Author-New2.0.0/data/staging/install-1", true)], []).
Proof. split; vm_compute; reflexivity. Qed.

(** The first pass, while somebody else queues another package after each statement. *)
Definition asksOther (db : PDB) : PDB := match queueRow 9 "i1" "Author-More" "1.0.0" "thunderstore" "u1" db with Ok (_, db') => db' | Err _ => db end.
Definition busyPanel : World Host := mkWorld (queuePanel someQueue) [] (replicate 5 asksOther) (host false [] true true) [] [].
