(* ===== verification/Rcon.v ===== *)
(** internal/command/rcon.go: the packets of a Source RCON connection and the
    exchange that sends one command.

    A connection is the pieces in which the peer's bytes arrive before the stream
    ends or the deadline passes, what each write does, and the bytes written so
    far.  The peer answers what it likes, so its script is arbitrary. *)
From S2P Require Import Prelude GoBytes.

Open Scope Z_scope.

(** ** encoding/binary and io *)

(** [PutUint32] and [Uint32] of [LittleEndian], and Go's conversion to [int32]. *)
Fixpoint putLE (n : nat) (z : Z) : bytes :=
  match n with O => [] | S n => ascii_of_N (Z.to_N (z mod 256)) :: putLE n (z / 256) end.
Fixpoint getLE (s : bytes) : Z := match s with [] => 0 | c :: s => Z.of_N (code c) + 256 * getLE s end.
Definition uint32 (z : Z) : Z := z mod 2 ^ 32.
Definition int32 (z : Z) : Z := (z + 2 ^ 31) mod 2 ^ 32 - 2 ^ 31.

(** [io.ReadFull]: [n] bytes of what arrives, or an error that has consumed it all. *)
Fixpoint readFull (n : nat) (incoming : list bytes) : option bytes * list bytes :=
  match n, incoming with
  | O, _ => (Some [], incoming)
  | _, [] => (None, [])
  | _, c :: rest =>
      if (n <=? length c)%nat then (Some (take n c), drop n c :: rest)
      else let '(r, rest) := readFull (n - length c) rest in (app c <$> r, rest)
  end.

(** ** Packets *)

Definition packetResponse : Z := 0.
Definition packetLogin : Z := 3.
Definition packetCommand : Z := 2.
Definition maxPacketSize : Z := Z.shiftl 64 10.

Record packet := mkPacket { id : Z; typ : Z; body : bytes }.
#[export] Instance packet_eq_dec : EqDecision packet.
Proof. solve_decision. Defined.

Definition zero : ascii := "000"%char.
Definition len (s : bytes) : Z := Z.of_nat (length s).

(** The bytes [writePacket] hands to the connection; [None] is its refusal. *)
Definition rawPacket (p : packet) : option bytes :=
  let length_ := 4 + 4 + len (body p) + 2 in
  if maxPacketSize <? length_ then None
  else Some (putLE 4 (uint32 length_) ++ putLE 4 (uint32 (id p)) ++ putLE 4 (uint32 (typ p)) ++ body p ++ [zero; zero]).

Definition readPacket (incoming : list bytes) : option packet * list bytes :=
  match readFull 4 incoming with
  | (None, rest) => (None, rest)
  | (Some sizeRaw, rest) =>
      let size := getLE sizeRaw in
      if (size <? 10) || (maxPacketSize <? size) then (None, rest)
      else
        match readFull (Z.to_nat size) rest with
        | (None, rest) => (None, rest)
        | (Some raw, rest) =>
            let n := length raw in
            if negb (bool_decide (raw !! (n - 2)%nat = Some zero)) || negb (bool_decide (raw !! (n - 1)%nat = Some zero)) then (None, rest)
            else (Some (mkPacket (int32 (getLE (take 4 raw))) (int32 (getLE (take 4 (drop 4 raw)))) (take (n - 10) (drop 8 raw))), rest)
        end
  end.

(** ** The exchange *)

Record Conn := mkConn { incoming : list bytes; writes : list (option nat); wire : bytes; deadlineFails : bool }.
Definition withIncoming (l : list bytes) (c : Conn) : Conn := mkConn l (writes c) (wire c) (deadlineFails c).
(** [Write]: all of it, or a failure after some of it. *)
Definition write (b : bytes) (c : Conn) : bool * Conn :=
  match writes c with
  | Some k :: ws => (false, mkConn (incoming c) ws (wire c ++ take k b) (deadlineFails c))
  | _ => (true, mkConn (incoming c) (tail (writes c)) (wire c ++ b) (deadlineFails c))
  end.

(** What [errors.Is] tells apart. *)
Inductive RconErr := ErrAuthentication | ErrNoReply | ErrRcon.
#[export] Instance RconErr_eq_dec : EqDecision RconErr.
Proof. solve_decision. Defined.

Definition writePacket (p : packet) (c : Conn) : bool * Conn :=
  match rawPacket p with None => (false, c) | Some raw => write raw c end.
Definition readOne (c : Conn) : option packet * Conn :=
  let '(r, rest) := readPacket (incoming c) in (r, withIncoming rest c).
Definition readLoginReply (c : Conn) : option packet * Conn :=
  let '(login, c) := readOne c in
  match login with
  | Some p => if bool_decide (typ p = packetResponse) && bool_decide (body p = []) then readOne c else (login, c)
  | None => (login, c)
  end.

Definition loginPacket (password : bytes) : packet := mkPacket 1 packetLogin password.
Definition commandPacket (command : bytes) : packet := mkPacket 2 packetCommand command.

Definition executeRCON (password command : bytes) (c : Conn) : result RconErr bytes * Conn :=
  if deadlineFails c then (Err ErrRcon, c)
  else
    match writePacket (loginPacket password) c with
    | (false, c) => (Err ErrRcon, c)
    | (true, c) =>
        match readLoginReply c with
        | (None, c) => (Err ErrRcon, c)
        | (Some login, c) =>
            if bool_decide (id login = -1) then (Err ErrAuthentication, c)
            else if negb (bool_decide (id login = 1)) || negb (bool_decide (typ login = packetCommand)) then (Err ErrRcon, c)
            else
              match writePacket (commandPacket command) c with
              | (false, c) => (Err ErrNoReply, c)
              | (true, c) =>
                  match readOne c with
                  | (None, c) => (Err ErrNoReply, c)
                  | (Some response, c) =>
                      if negb (bool_decide (id response = 2)) ||
                         negb (bool_decide (typ response = packetCommand) || bool_decide (typ response = packetResponse))
                      then (Err ErrNoReply, c)
                      else (Ok (body response), c)
                  end
              end
        end
    end.

(** ** Laws *)

Lemma putLE_length n z : length (putLE n z) = n.
Proof. revert z. induction n as [|n IH]; intros z; cbn; [done|]. by rewrite IH. Qed.
Lemma getLE_putLE n z : 0 <= z < 256 ^ Z.of_nat n -> getLE (putLE n z) = z.
Proof.
  revert z. induction n as [|n IH]; intros z Hz; [cbn in *; lia|]. rewrite Nat2Z.inj_succ, Z.pow_succ_r in Hz by lia.
  cbn [putLE getLE]. pose proof (Z.mod_pos_bound z 256 eq_refl) as Hm. rewrite IH by (split; [apply Z.div_pos; lia|apply Z.div_lt_upper_bound; lia]).
  unfold code. rewrite N_ascii_embedding by lia. rewrite Z2N.id by lia. pose proof (Z.div_mod z 256). lia.
Qed.
Lemma code_bound c : (code c < 256)%N.
Proof. destruct c as [[] [] [] [] [] [] [] []]; vm_compute; reflexivity. Qed.
Lemma getLE_bound s : 0 <= getLE s < 256 ^ len s.
Proof.
  unfold len. induction s as [|c s IH]; [cbn; lia|]. cbn [getLE length]. rewrite Nat2Z.inj_succ, Z.pow_succ_r by lia. pose proof (code_bound c). lia.
Qed.
Lemma putLE_getLE s : putLE (length s) (getLE s) = s.
Proof.
  induction s as [|c s IH]; [done|]. cbn [length putLE getLE]. pose proof (code_bound c).
  replace ((Z.of_N (code c) + 256 * getLE s) mod 256) with (Z.of_N (code c)) by (rewrite (Z.mul_comm 256), Z.mod_add by lia; symmetry; apply Z.mod_small; lia).
  replace ((Z.of_N (code c) + 256 * getLE s) / 256) with (getLE s) by (rewrite (Z.mul_comm 256), Z.div_add by lia; rewrite Z.div_small by lia; lia).
  rewrite IH, N2Z.id. unfold code. by rewrite ascii_N_embedding.
Qed.

Lemma uint32_int32 z : uint32 (int32 z) = uint32 z.
Proof.
  unfold uint32, int32. rewrite <- (Zminus_mod_idemp_l _ (2 ^ 31)), Zmod_mod, Zminus_mod_idemp_l. f_equal. lia.
Qed.
Lemma int32_uint32 z : - 2 ^ 31 <= z < 2 ^ 31 -> int32 (uint32 z) = z.
Proof. intros Hz. unfold uint32, int32. rewrite Zplus_mod_idemp_l. rewrite Z.mod_small; lia. Qed.

(** Reading across the pieces is reading their concatenation. *)
Lemma readFull_Some n inc s inc' : readFull n inc = (Some s, inc') -> length s = n /\ concat inc = s ++ concat inc'.
Proof.
  revert n s. induction inc as [|c inc IH]; intros [|n] s; cbn [readFull]; [by intros [= <- <-]|done|by intros [= <- <-]|].
  destruct (S n <=? length c)%nat eqn:E.
  - apply Nat.leb_le in E. intros [= <- <-]. rewrite length_take. split; [lia|]. cbn [concat]. by rewrite app_assoc, take_drop.
  - apply Nat.leb_gt in E. destruct (readFull _ inc) as [[r|] rest] eqn:Er; [|done]. intros [= <- <-]. apply IH in Er as [Hl Hc].
    rewrite length_app. split; [lia|]. cbn [concat]. by rewrite Hc, app_assoc.
Qed.
Lemma readFull_enough n inc s rest : length s = n -> concat inc = s ++ rest -> exists inc', readFull n inc = (Some s, inc') /\ concat inc' = rest.
Proof.
  revert n s. induction inc as [|c inc IH]; intros n s <- Hc.
  - cbn in Hc. symmetry in Hc. apply app_eq_nil in Hc as [-> ->]. cbn. by eexists.
  - destruct s as [|a s]; [cbn; eexists; split; [done|]; exact Hc|]. cbn [concat] in Hc. cbn [readFull length].
    destruct (S (length s) <=? length c)%nat eqn:E.
    + apply Nat.leb_le in E. eexists. assert (take (S (length s)) (c ++ concat inc) = a :: s) as Ht by (rewrite Hc; exact (take_app_length (a :: s) rest)).
      rewrite take_app_le in Ht by lia. rewrite Ht. split; [done|]. cbn [concat].
      assert (drop (S (length s)) (c ++ concat inc) = rest) as Hd by (rewrite Hc; exact (drop_app_length (a :: s) rest)).
      rewrite drop_app_le in Hd by lia. exact Hd.
    + apply Nat.leb_gt in E. assert (a :: s = c ++ drop (length c) (a :: s)) as Hs.
      { assert (take (length c) (c ++ concat inc) = take (length c) ((a :: s) ++ rest)) as Ht by by rewrite Hc.
        rewrite take_app_length, take_app_le in Ht by (cbn; lia). rewrite Ht at 1. by rewrite take_drop. }
      assert (concat inc = drop (length c) (a :: s) ++ rest) as Hc2 by (rewrite Hs, <- app_assoc in Hc; by apply app_inv_head in Hc).
      apply (IH (S (length s) - length c)%nat) in Hc2 as (inc' & Hr & Hr'); [|rewrite length_drop; cbn; lia]. rewrite Hr. eexists. split; [|done]. cbn. by rewrite <- Hs.
Qed.

(** ** Framing *)

(** A packet whose numbers are Go's [int32]s. *)
Definition packet_ok (p : packet) : Prop := - 2 ^ 31 <= id p < 2 ^ 31 /\ - 2 ^ 31 <= typ p < 2 ^ 31.

Lemma int32_range z : - 2 ^ 31 <= int32 z < 2 ^ 31.
Proof. unfold int32. pose proof (Z.mod_pos_bound (z + 2 ^ 31) (2 ^ 32) eq_refl). lia. Qed.
Lemma word_split (s : bytes) n : length s = (4 + (4 + n))%nat -> exists a b r, s = a ++ b ++ r /\ length a = 4%nat /\ length b = 4%nat /\ length r = n.
Proof.
  intros Hl. exists (take 4 s), (take 4 (drop 4 s)), (drop 4 (drop 4 s)). rewrite !take_drop, !length_take, !length_drop. split_and!; [done|lia..].
Qed.
Lemma last_two (r : bytes) n : length r = (n + 2)%nat -> r !! n = Some zero -> r !! (n + 1)%nat = Some zero -> r = take n r ++ [zero; zero].
Proof.
  intros Hl H1 H2. rewrite <- (take_drop n r) at 1. f_equal. rewrite (drop_S _ _ _ H1). f_equal. replace (S n) with (n + 1)%nat by lia.
  rewrite (drop_S _ _ _ H2). f_equal. apply nil_length_inv. rewrite length_drop. lia.
Qed.

Lemma readPacket_raw inc p inc' : readPacket inc = (Some p, inc') ->
  packet_ok p /\ exists raw, rawPacket p = Some raw /\ concat inc = raw ++ concat inc'.
Proof.
  unfold readPacket. destruct (readFull 4 inc) as [[sz|] r1] eqn:E1; [|done]. apply readFull_Some in E1 as [Hsz Hc1].
  destruct (_ || _) eqn:Hb; [done|]. apply orb_false_iff in Hb as [Hlo%Z.ltb_ge Hhi%Z.ltb_ge].
  destruct (readFull (Z.to_nat _) r1) as [[raw|] r2] eqn:E2; [|done]. apply readFull_Some in E2 as [Hraw Hc2].
  destruct (_ || _) eqn:Ht; [done|]. apply orb_false_iff in Ht as [Ht1%negb_false_iff%bool_decide_eq_true Ht2%negb_false_iff%bool_decide_eq_true].
  intros [= <- <-]. split; [split; apply int32_range|].
  destruct (word_split raw (length raw - 8)) as (a & b & r & -> & Ha & Hbl & Hr); [lia|].
  rewrite !length_app in *. rewrite Ha, Hbl in *. set (n := (length r - 2)%nat) in *.
  assert (length r = (n + 2)%nat) as Hr' by lia.
  rewrite lookup_app_r, lookup_app_r in Ht1, Ht2 by lia. rewrite Ha, Hbl in Ht1, Ht2.
  replace (4 + (4 + length r) - 2 - 4 - 4)%nat with n in Ht1 by lia. replace (4 + (4 + length r) - 1 - 4 - 4)%nat with (n + 1)%nat in Ht2 by lia.
  pose proof (last_two r n Hr' Ht1 Ht2) as Hrr.
  assert (take 4 (a ++ b ++ r) = a) as T1 by (rewrite <- Ha; apply take_app_length).
  assert (drop 4 (a ++ b ++ r) = b ++ r) as D1 by (rewrite <- Ha; apply drop_app_length).
  assert (drop 8 (a ++ b ++ r) = r) as D2 by (change 8%nat with (4 + 4)%nat; rewrite <- drop_drop, D1, <- Hbl; apply drop_app_length).
  assert (take 4 (b ++ r) = b) as T2 by (rewrite <- Hbl; apply take_app_length).
  rewrite T1, D1, T2, D2. unfold rawPacket. cbn [id typ body]. set (bd := take (4 + (4 + length r) - 10) r).
  assert (bd = take n r) as -> by (unfold bd; f_equal; lia).
  assert (len (take n r) = Z.of_nat n) as Hlen by (unfold len; rewrite length_take; lia).
  pose proof (getLE_bound sz) as Hsb. unfold len in Hsb. rewrite Hsz in Hsb.
  assert (4 + 4 + len (take n r) + 2 = getLE sz) as Hsize by (rewrite Hlen; lia).
  rewrite Hsize, (proj2 (Z.ltb_ge _ _) Hhi). eexists. split; [done|]. rewrite !uint32_int32. unfold uint32.
  pose proof (getLE_bound a) as Hab. pose proof (getLE_bound b) as Hbb. unfold len in Hab, Hbb. rewrite Ha in Hab. rewrite Hbl in Hbb.
  rewrite !Z.mod_small by (cbn in *; lia).
  assert (forall s, length s = 4%nat -> putLE 4 (getLE s) = s) as Hw by (intros s <-; apply putLE_getLE). rewrite !Hw by done.
  rewrite Hc1, Hc2. rewrite Hrr at 1. by rewrite !app_assoc.
Qed.

Lemma rawPacket_read inc p raw rest : packet_ok p -> rawPacket p = Some raw -> concat inc = raw ++ rest ->
  exists inc', readPacket inc = (Some p, inc') /\ concat inc' = rest.
Proof.
  intros [Hid Hty] Hraw Hc. unfold rawPacket in Hraw. destruct (maxPacketSize <? _) eqn:Hmax; [done|]. apply Z.ltb_ge in Hmax. apply (inj Some) in Hraw as <-.
  rewrite <- app_assoc in Hc. unfold readPacket.
  destruct (readFull_enough 4 inc _ _ (putLE_length 4 _) Hc) as (r1 & -> & Hc1). rewrite getLE_putLE by (unfold uint32; apply Z.mod_pos_bound; done).
  set (m := 4 + 4 + len (body p) + 2) in *. assert (uint32 m = m) as ->. { unfold uint32. apply Z.mod_small. change maxPacketSize with 65536 in Hmax. unfold m, len in *. lia. }
  assert ((m <? 10) || (maxPacketSize <? m) = false) as -> by (apply orb_false_iff; split; apply Z.ltb_ge; unfold m, len in *; lia).
  set (b := putLE 4 (uint32 (id p)) ++ putLE 4 (uint32 (typ p)) ++ body p ++ [zero; zero]) in *.
  assert (length b = (8 + length (body p) + 2)%nat) as Hlb by (unfold b; rewrite !length_app, !putLE_length; cbn; lia).
  destruct (readFull_enough (Z.to_nat m) r1 b rest) as (r2 & -> & Hc2); [unfold m, len; lia|done|].
  assert (b !! (length b - 2)%nat = Some zero) as ->.
  { rewrite Hlb. unfold b. rewrite !app_assoc, lookup_app_r; rewrite !length_app, !putLE_length; [|lia]. by replace (_ - _)%nat with 0%nat by lia. }
  assert (b !! (length b - 1)%nat = Some zero) as ->.
  { rewrite Hlb. unfold b. rewrite !app_assoc, lookup_app_r; rewrite !length_app, !putLE_length; [|lia]. by replace (_ - _)%nat with 1%nat by lia. }
  rewrite !bool_decide_eq_true_2 by done. cbn [negb orb]. exists r2. split; [|done]. f_equal. f_equal.
  assert (take 4 b = putLE 4 (uint32 (id p))) as -> by (unfold b; rewrite take_app_le by (rewrite putLE_length; lia); apply take_ge; rewrite putLE_length; lia).
  assert (drop 4 b = putLE 4 (uint32 (typ p)) ++ body p ++ [zero; zero]) as D1 by (unfold b; rewrite drop_app_ge by (rewrite putLE_length; lia); by rewrite putLE_length).
  assert (drop 8 b = body p ++ [zero; zero]) as -> by (change 8%nat with (4 + 4)%nat; rewrite <- drop_drop, D1, drop_app_ge by (rewrite putLE_length; lia); by rewrite putLE_length).
  rewrite D1. assert (take 4 (putLE 4 (uint32 (typ p)) ++ body p ++ [zero; zero]) = putLE 4 (uint32 (typ p))) as ->
    by (rewrite take_app_le by (rewrite putLE_length; lia); apply take_ge; rewrite putLE_length; lia).
  rewrite !getLE_putLE by (unfold uint32; apply Z.mod_pos_bound; done). rewrite !int32_uint32 by done.
  rewrite Hlb. replace (8 + length (body p) + 2 - 10)%nat with (length (body p)) by lia. rewrite take_app_length. by destruct p.
Qed.

(** Reading so many packets one after the other. *)
Fixpoint readPackets (n : nat) (incoming : list bytes) : option (list packet) * list bytes :=
  match n with
  | O => (Some [], incoming)
  | S n =>
      match readPacket incoming with
      | (None, rest) => (None, rest)
      | (Some p, rest) => let '(ps, rest) := readPackets n rest in (cons p <$> ps, rest)
      end
  end.

(** C22. The framing loses and invents nothing.  Packets written one after another are
    read back as they were, wherever the network cuts the bytes, and what follows them
    stays unread; and whatever the reader accepts is what the writer writes for the
    packet it returns, so a frame with a wrong size, no terminator or a missing byte is
    never accepted. *)
Theorem packets_roundtrip ps raws rest incoming : Forall packet_ok ps -> mapM rawPacket ps = Some raws -> concat incoming = concat raws ++ rest ->
  (exists incoming', readPackets (length ps) incoming = (Some ps, incoming') /\ concat incoming' = rest) /\
  (forall p incoming', readPacket incoming = (Some p, incoming') -> packet_ok p /\
     exists raw, rawPacket p = Some raw /\ concat incoming = raw ++ concat incoming').
Proof.
  intros Hok Hraw Hc. split; [|by intros; apply readPacket_raw]. revert raws incoming Hraw Hc.
  induction Hok as [|p ps Hp _ IH]; intros raws incoming; [intros [= <-]; cbn; by eauto|]. intros Hraw Hc.
  apply mapM_Some in Hraw. apply Forall2_cons_inv_l in Hraw as (raw & raws' & Hr & Hrs & ->). apply mapM_Some in Hrs.
  cbn [concat] in Hc. rewrite <- app_assoc in Hc. destruct (rawPacket_read _ _ _ _ Hp Hr Hc) as (inc1 & E1 & Hc1).
  destruct (IH _ _ Hrs Hc1) as (inc2 & E2 & Hc2). cbn [length readPackets]. rewrite E1, E2. by eexists.
Qed.

(** ** What goes out *)

Lemma write_wire b c ok c' : write b c = (ok, c') -> incoming c' = incoming c /\
  (if ok then wire c' = wire c ++ b else exists k, wire c' = wire c ++ take k b).
Proof. unfold write. destruct (writes c) as [|[k|] ws]; intros [= <- <-]; cbn; by eauto. Qed.
Lemma writePacket_wire p c ok c' : writePacket p c = (ok, c') -> incoming c' = incoming c /\
  (if ok then exists raw, rawPacket p = Some raw /\ wire c' = wire c ++ raw
   else exists k, wire c' = wire c ++ take k (default [] (rawPacket p))).
Proof.
  unfold writePacket. destruct (rawPacket p) as [raw|].
  - intros [Hi Hw]%write_wire. split; [done|]. destruct ok; [by eauto|done].
  - intros [= <- <-]. split; [done|]. exists 0%nat. by rewrite app_nil_r.
Qed.
Lemma readOne_wire c r c' : readOne c = (r, c') -> wire c' = wire c.
Proof. unfold readOne. destruct (readPacket _). by intros [= _ <-]. Qed.
Lemma readLoginReply_wire c r c' : readLoginReply c = (r, c') -> wire c' = wire c.
Proof.
  unfold readLoginReply. destruct (readOne c) as [[p|] c1] eqn:E; [|intros [= _ <-]; by eapply readOne_wire].
  apply readOne_wire in E. destruct (_ && _); [intros H%readOne_wire; congruence|by intros [= _ <-]].
Qed.

(** The peer's answer to the login: perhaps an empty response, then the reply. *)
Definition answersLogin (incoming : list bytes) (reply : packet) : Prop := exists skip raw rest,
  (skip = [] \/ exists p, rawPacket p = Some skip /\ typ p = packetResponse /\ body p = []) /\
  rawPacket reply = Some raw /\ concat incoming = skip ++ raw ++ rest.
Lemma readLoginReply_answer c p c' : readLoginReply c = (Some p, c') -> answersLogin (incoming c) p.
Proof.
  unfold readLoginReply, readOne. destruct (readPacket (incoming c)) as [[q|] r1] eqn:E1; [|done].
  apply readPacket_raw in E1 as (_ & raw1 & H1 & Hc1). destruct (_ && _) eqn:Es.
  - apply andb_true_iff in Es as [Ht%bool_decide_eq_true Hb%bool_decide_eq_true]. cbn [incoming withIncoming].
    destruct (readPacket r1) as [[q'|] r2] eqn:E2; [|done]. intros [= <- _]. apply readPacket_raw in E2 as (_ & raw2 & H2 & Hc2).
    exists raw1, raw2, (concat r2). split; [right; by eauto|]. split; [done|]. by rewrite Hc1, Hc2.
  - intros [= <- _]. exists [], raw1, (concat r1). split_and!; [by left|done|done].
Qed.

(** What an exchange has put on the wire, by its result. *)
Definition sent (password command : bytes) (r : result RconErr bytes) (s : bytes) : Prop :=
  let login := rawPacket (loginPacket password) in
  let cmd := rawPacket (commandPacket command) in
  match r with
  | Ok _ => exists l c, login = Some l /\ cmd = Some c /\ s = l ++ c
  | Err ErrNoReply => exists l k, login = Some l /\ s = l ++ take k (default [] cmd)
  | Err _ => exists k, s = take k (default [] login)
  end.

Lemma executeRCON_sent password command c r c' : executeRCON password command c = (r, c') ->
  exists s, wire c' = wire c ++ s /\ sent password command r s /\
    (match r with Err ErrNoReply | Ok _ => exists p, answersLogin (incoming c) p /\ id p = 1 /\ typ p = packetCommand | _ => True end).
Proof.
  unfold executeRCON, sent. destruct (deadlineFails c); [intros [= <- <-]; exists []; rewrite app_nil_r; split_and!; [done|by exists 0%nat|done]|].
  destruct (writePacket (loginPacket password) c) as [[] c1] eqn:E1; apply writePacket_wire in E1 as [Hi1 Hw1];
    [|destruct Hw1 as [k Hw1]; intros [= <- <-]; eexists; split_and!; [exact Hw1|by exists k|done]].
  destruct Hw1 as (raw & Hraw & Hw1). rewrite Hraw. cbn [default id].
  destruct (readLoginReply c1) as [[p|] c2] eqn:E2; pose proof (readLoginReply_wire _ _ _ E2) as Hw2.
  2: { intros [= <- <-]. exists raw. split_and!; [by rewrite Hw2|exists (length raw); symmetry; by apply take_ge|done]. }
  pose proof (readLoginReply_answer _ _ _ E2) as Hans. rewrite Hi1 in Hans.
  assert (forall e : RconErr, e <> ErrNoReply -> exists s, wire c2 = wire c ++ s /\
    match e with ErrNoReply => exists l k, Some raw = Some l /\ s = l ++ take k (default [] (rawPacket (commandPacket command))) | _ => exists k, s = take k raw end /\
    (match e with ErrNoReply => exists p, answersLogin (incoming c) p /\ id p = 1 /\ typ p = packetCommand | _ => True end)) as Hno.
  { intros e He. exists raw. split; [by rewrite Hw2|]. destruct e; [|done|]; (split; [exists (length raw); symmetry; by apply take_ge|done]). }
  case_bool_decide; [intros [= <- <-]; exact (Hno ErrAuthentication ltac:(done))|].
  destruct (_ || _) eqn:Hl; [intros [= <- <-]; exact (Hno ErrRcon ltac:(done))|]. clear Hno.
  apply orb_false_iff in Hl as [Hl1%negb_false_iff%bool_decide_eq_true Hl2%negb_false_iff%bool_decide_eq_true].
  assert (exists p, answersLogin (incoming c) p /\ id p = 1 /\ typ p = packetCommand) as Hp by by exists p.
  destruct (writePacket (commandPacket command) c2) as [[] c3] eqn:E3; apply writePacket_wire in E3 as [Hi3 Hw3].
  2: { destruct Hw3 as [k Hw3]. intros [= <- <-]. eexists. split_and!; [rewrite Hw3, Hw2, Hw1, <- app_assoc; done|by exists raw, k|done]. }
  destruct Hw3 as (cmd & Hcmd & Hw3). rewrite Hcmd. cbn [default id].
  assert (forall c4, wire c4 = wire c3 -> wire c4 = wire c ++ raw ++ cmd) as Hend by (intros c4 ->; by rewrite Hw3, Hw2, Hw1, <- app_assoc).
  destruct (readOne c3) as [[q|] c4] eqn:E4; apply readOne_wire in E4; apply Hend in E4.
  2: { intros [= <- <-]. exists (raw ++ cmd). split_and!; [done|exists raw, (length cmd); change (default [] (Some cmd)) with cmd; by rewrite (take_ge cmd)|done]. }
  destruct (_ || _); intros [= <- <-]; exists (raw ++ cmd); split_and!; try done.
  - exists raw, (length cmd). change (default [] (Some cmd)) with cmd. by rewrite (take_ge cmd).
  - by exists raw, cmd.
Qed.

(** ** A connection *)
Definition aPacket (i t : Z) (b : string) : bytes := default [] (rawPacket (mkPacket i t (L b))).
(** The peer answers the login and the command, a few bytes at a time. *)
Definition talk : bytes := aPacket 0 0 "" ++ aPacket 1 2 "" ++ aPacket 2 0 "saved".
Definition aConn : Conn := mkConn [take 3 talk; []; take 20 (drop 3 talk); drop 23 talk] [] [] false.
Example a_reply : (executeRCON (L "pw") (L "save") aConn).1 = Ok (L "saved").
Proof. vm_compute. reflexivity. Qed.

Definition answers : list packet := [mkPacket 1 2 []; mkPacket (-1) 2 (L "no")].
Example packets_roundtrip_witness : exists incoming' raws,
  mapM rawPacket answers = Some raws /\ readPackets 2 [take 5 (concat raws); drop 5 (concat raws) ++ L "rest"] = (Some answers, incoming') /\
  concat incoming' = L "rest".
Proof.
  destruct (mapM rawPacket answers) as [raws|] eqn:E; [|discriminate E].
  destruct (packets_roundtrip answers raws (L "rest") [take 5 (concat raws); drop 5 (concat raws) ++ L "rest"]) as [(inc & H1 & H2) _].
  - repeat constructor; cbn; lia.
  - exact E.
  - cbn [concat]. rewrite app_nil_r, app_assoc, take_drop. reflexivity.
  - exists inc, raws. split_and!; [reflexivity|exact H1|exact H2].
Defined.
