(* ===== verification/Command.v ===== *)
(** internal/command/manager.go: which commands may be sent, the plugin's
    configuration file, and one command sent over a fresh connection. *)
From Stdlib Require Import Floats.SpecFloat.
From S2P Require Import Prelude GoBytes Lifecycle Store Argon Limiter PanelRows CfgDoc Paths InstallFS Netip Rcon.

Open Scope Z_scope.

(** ** Validate *)

Definition maxCommandBytes : nat := 1024.
Definition AllowedCommands : list string := ["save"; "kick"; "ban"; "unban"; "banned"; "ping"].
Inductive Scope_ := ScopeOperator | ScopeAny.
#[export] Instance Scope_eq_dec : EqDecision Scope_.
Proof. solve_decision. Defined.

Definition lineBreaks : bytes := [cr; nl; zero].
Inductive SendErr :=
| ErrUnsupported | ErrInvalidState | ErrInvalidCommand | ErrCommandForbidden | ErrRateLimited | ErrRCON (e : RconErr) | ErrSend.
#[export] Instance SendErr_eq_dec : EqDecision SendErr.
Proof. solve_decision. Defined.

Definition firstWord (command : bytes) : bytes := match cut " "%char command with Some (name, _) => name | None => command end.
Definition Validate (raw : bytes) (scope : Scope_) : result SendErr bytes :=
  let command := trimSpace raw in
  if bool_decide (command = []) || (maxCommandBytes <? length command)%nat || containsAny lineBreaks command then Err ErrInvalidCommand
  else if bool_decide (scope = ScopeAny) then Ok command
  else if existsb (fun allowed => equalFold (firstWord command) (L allowed)) AllowedCommands then Ok command
  else Err ErrCommandForbidden.

(** ** The configuration file

    [os.Root] keeps every name below the server directory; the trees are those of
    InstallFS. *)

Definition ConfigPath : path := [L "BepInEx"; L "config"; L "org.tristan.rcon.cfg"].
Definition configSection : bytes := L "1. Rcon".
Definition keyPort : bytes := L "Port".
Definition keyPassword : bytes := L "Password".
Definition DefaultRCONPort : Z := 2455.

Inductive CfgErr := CfgFs (e : FsErr) | ErrNotRegular | ErrRandom | ErrPort | ErrNoPort | ErrSetPassword (e : SetError).

(** The operations that may also fail outside the file system. *)
Definition C (A : Type) := World -> result CfgErr A * World.
Definition cret {A} (a : A) : C A := fun w => (Ok a, w).
Definition cfail {A} (e : CfgErr) : C A := fun w => (Err e, w).
Definition cbind {A B} (m : C A) (k : A -> C B) : C B := fun w => match m w with (Ok a, w') => k a w' | (Err e, w') => (Err e, w') end.
Definition ofs {A} (m : Fs A) : C A := fun w => match m w with (Ok a, w') => (Ok a, w') | (Err e, w') => (Err (CfgFs e), w') end.
Notation "'let?' x := m 'in' k" := (cbind m (fun x => k)) (at level 10, x pattern, m at level 100, k at level 200) : go_scope.

Definition openRoot : Fs unit := call (fun fs => match server fs with Some _ => Ok (tt, fs) | None => Err ENOENT end).
Definition readFile (rel : path) : Fs bytes := call (fun fs =>
  match nodeAt (treeOf Server fs) rel with
  | Ok (NFile c) => Ok (c, fs)
  | Ok NDir => Err EISDIR
  | Ok NOther => Err EIO
  | Err e => Err e
  end).
(** [os.ReadFile] after an [Lstat] that a name which is not regular does not pass. *)
Definition readConfig : C bytes :=
  let? n := ofs (lstat Server ConfigPath) in
  match n with NFile _ => ofs (readFile ConfigPath) | _ => cfail ErrNotRegular end.

Section Config.
Context `{UnicodeTables} `{TempNames}.

(** [newPassword], from the 32 random bytes, or [rand.Read]'s failure. *)
Definition newPassword (random : option bytes) : option bytes := EncodeToString urlAlphabet <$> random.

Definition newConfig (password : bytes) : bytes :=
  L "[1. Rcon]" ++ nl :: L "Port = 2455" ++ nl :: L "Password = " ++ password ++ nl :: L "Whitelist IP mask =" ++ nl :: L "Blacklist IP mask =" ++ [nl].

(** What a file that is there gives: the port, the password and the text to write. *)
Definition adopt (random : option bytes) (raw : bytes) : result CfgErr (Z * bytes * bytes * bool) :=
  let doc := Parse raw in
  match Get doc configSection keyPort with
  | None => Err ErrNoPort
  | Some value =>
      match Atoi (trimSpace value) with
      | None => Err ErrPort
      | Some port =>
          if (port <? 1) || (65535 <? port) then Err ErrPort
          else
            let password := trimSpace (default [] (Get doc configSection keyPassword)) in
            if negb (bool_decide (password = [])) then Ok (port, password, raw, false)
            else
              match newPassword random with
              | None => Err ErrRandom
              | Some password =>
                  match Set_ doc configSection keyPassword password with
                  | Err e => Err (ErrSetPassword e)
                  | Ok doc => Ok (port, password, Bytes doc, true)
                  end
              end
      end
  end.
Definition readOrCreateConfig (random : option bytes) : C (Z * bytes * bytes * bool) := fun w =>
  match readConfig w with
  | (Err (CfgFs ENOENT), w') =>
      match newPassword random with
      | None => (Err ErrRandom, w')
      | Some password => (Ok (DefaultRCONPort, password, newConfig password, true), w')
      end
  | (Err e, w') => (Err e, w')
  | (Ok raw, w') => (adopt random raw, w')
  end.

Definition settings (random : option bytes) : C (Z * bytes) :=
  let? _ := ofs openRoot in
  let? (port, password, raw, changed) := readOrCreateConfig random in
  if changed then
    let? _ := ofs (mkdirEach Server (upTo (parent ConfigPath))) in
    let? _ := ofs (replaceFile Server ConfigPath (Ok raw)) in
    cret (port, password)
  else cret (port, password).

(** [Configure]: nothing for an instance without the plugin. *)
Definition Configure (installed : option bool) (random : option bytes) : C unit :=
  match installed with
  | Some true => let? _ := settings random in cret tt
  | Some false => cret tt
  | None => cfail (CfgFs EIO)
  end.

Definition ClearPassword : C unit :=
  let? _ := ofs openRoot in
  let? n := ofs (ftry (lstat Server ConfigPath)) in
  match n with
  | Err ENOENT => cret tt
  | Err e => cfail (CfgFs e)
  | Ok (NFile _) =>
      let? raw := ofs (readFile ConfigPath) in
      let doc := Parse raw in
      match Get doc configSection keyPassword with
      | None => cret tt
      | Some _ =>
          match Set_ doc configSection keyPassword [] with
          | Err e => cfail (ErrSetPassword e)
          | Ok doc => ofs (replaceFile Server ConfigPath (Ok (Bytes doc)))
          end
      end
  | Ok _ => cfail ErrNotRegular
  end.
End Config.

(** ** Sending *)

(** [rconAddress]: the container's address, never the unspecified one, and the port. *)
Definition IsUnspecified (a : Addr) : bool := bool_decide (a = A4 0) || bool_decide (a = A6 0 []).
Definition JoinHostPort (host port : bytes) : bytes :=
  if containsAny (L ":%") host then L "[" ++ host ++ L "]:" ++ port else host ++ L ":" ++ port.
Definition rconAddress (raw : bytes) (port : Z) : option bytes :=
  match ParseAddr raw with
  | Some a => if IsUnspecified a then None else Some (JoinHostPort (AddrString a) (itoa port))
  | None => None
  end.

(** The mods table, Docker, the dialer, the clock and [crypto/rand]; each may fail. *)
Class Net (D : Type) := {
  EnabledMod : string -> D -> option bool * D;                      (* whether the plugin is installed and enabled *)
  InspectNet : string -> D -> option (bool * list bytes) * D;       (* running, and its network addresses *)
  Dial : bytes -> D -> option Conn * D;
  Now : D -> Z * D;
  Random32 : D -> option bytes * D
}.

Section Send.
Context `{UnicodeTables} `{TempNames} {D : Type} `{Net D} (range : gmap string bucket -> list (string * bucket)).

(** The panel: the two budgets, each data directory's trees, and every exchange made. *)
Record Panel := mkPanel { people : Limiter; panel : Limiter; files : string -> World; outside : D; exchanges : list (Conn * Conn) }.
Definition withFiles (f : string -> World) (p : Panel) : Panel := mkPanel (people p) (panel p) f (outside p) (exchanges p).
Definition withOutside (d : D) (p : Panel) : Panel := mkPanel (people p) (panel p) (files p) d (exchanges p).

Inductive Budget := People | PanelsOwn.
Definition budget (b : Budget) (p : Panel) : Limiter := match b with People => people p | PanelsOwn => panel p end.
Definition withBudget (b : Budget) (l : Limiter) (p : Panel) : Panel :=
  match b with
  | People => mkPanel l (panel p) (files p) (outside p) (exchanges p)
  | PanelsOwn => mkPanel (people p) l (files p) (outside p) (exchanges p)
  end.
Definition withExchange (before after : Conn) (p : Panel) : Panel :=
  mkPanel (people p) (panel p) (files p) (outside p) (exchanges p ++ [(before, after)]).

(** A call on the outside. *)
Definition ask {A B} (f : D -> A * D) (k : A -> Panel -> B * Panel) (p : Panel) : B * Panel :=
  let '(a, d) := f (outside p) in k a (withOutside d p).

Definition send (inst : Instance_) (raw : bytes) (scope : Scope_) (b : Budget) (p : Panel) : result SendErr bytes * Panel :=
  match Validate raw scope with
  | Err e => (Err e, p)
  | Ok command =>
      match iContainerID (nRow inst) with
      | None => (Err ErrInvalidState, p)
      | Some cid =>
          if negb (bool_decide (iState (nRow inst) = StateRunning)) then (Err ErrInvalidState, p)
          else
            ask Now (fun now p =>
            let '((ok, _), l) := Allow range now (nID inst) (budget b p) in
            let p := withBudget b l p in
            if negb ok then (Err ErrRateLimited, p)
            else
              ask (EnabledMod (nID inst)) (fun available p =>
              match available with
              | None => (Err ErrSend, p)
              | Some false => (Err ErrUnsupported, p)
              | Some true =>
                  ask Random32 (fun random p =>
                  let dir := kDataDir (nCols inst) in
                  let '(conf, fs) := settings random (files p dir) in
                  let p := withFiles (fun d => if bool_decide (d = dir) then fs else files p d) p in
                  match conf with
                  | Err _ => (Err ErrSend, p)
                  | Ok (port, password) =>
                      ask (InspectNet cid) (fun container p =>
                      match container with
                      | None => (Err ErrSend, p)
                      | Some (false, _) | Some (_, []) => (Err ErrInvalidState, p)
                      | Some (true, address :: _) =>
                          match rconAddress address port with
                          | None => (Err ErrSend, p)
                          | Some address =>
                              ask (Dial address) (fun conn p =>
                              match conn with
                              | None => (Err ErrSend, p)
                              | Some conn =>
                                  let '(r, conn') := executeRCON password command conn in
                                  (match r with Ok reply => Ok reply | Err e => Err (ErrRCON e) end, withExchange conn conn' p)
                              end) p
                          end
                      end) p
                  end) p
              end) p) p
      end
  end.
Definition Send (inst : Instance_) (raw : bytes) : Panel -> result SendErr bytes * Panel := send inst raw ScopeAny PanelsOwn.
Definition SendAs (inst : Instance_) (raw : bytes) (scope : Scope_) : Panel -> result SendErr bytes * Panel := send inst raw scope People.
End Send.

