(* ===== verification/CommandSafe.v ===== *)
(** What the command channel promises: one password, kept; and only what may be sent,
    once. *)
From S2P Require Import Prelude GoBytes Lifecycle Store Argon Limiter PanelRows CfgDoc Paths InstallFS InstallLaws Netip Rcon Command.

Open Scope Z_scope.

(** ** Passwords *)

Definition visible (c : ascii) : Prop := (32 < code c < 127)%N.
#[export] Instance visible_dec c : Decision (visible c).
Proof. unfold visible. apply _. Defined.

Lemma enc_visible s : visible (enc1 urlAlphabet s).
Proof. destruct s as [[[[[a b] c] d] e] f]. destruct a, b, c, d, e, f; by apply (bool_decide_unpack _); vm_compute. Qed.
Lemma b64_visible s : Forall visible (EncodeToString urlAlphabet s).
Proof. unfold EncodeToString. apply Forall_map, Forall_true. apply enc_visible. Qed.

Lemma visible_notin l c : visible c -> Forall (fun x => ~ visible x) l -> c ∉ l.
Proof. intros Hc Hl Hin. rewrite Forall_forall in Hl. by apply (Hl c). Qed.
Ltac unseen := by apply (bool_decide_unpack _); vm_compute.

Lemma stripSpace_visible c s : visible c -> stripSpace (c :: s) = None.
Proof. intros Hc. exact (stripSpace_upto c [] s Hc). Qed.
Lemma stripSpaceRight_visible s c : visible c -> stripSpaceRight (s ++ [c]) = None.
Proof.
  intros Hc. unfold stripSpaceRight. destruct (list_find _ spaces) as [[i sp]|] eqn:E; [|done]. exfalso.
  apply list_find_Some in E as (Hi & Hp & _). apply list_elem_of_lookup_2 in Hi. apply hasSuffix_spec in Hp as [k Hk].
  pose proof (spaces_not_nil sp Hi) as Hne. destruct sp as [|x sp _] using rev_ind; [done|]. rewrite app_assoc in Hk. apply app_inj_tail in Hk as [_ <-].
  apply (spaces_no c _ Hc Hi). apply elem_of_app. right. by left.
Qed.
Lemma trimSpace_visible s : Forall visible s -> trimSpace s = s.
Proof.
  intros Hs. unfold trimSpace. assert (forall strip n, strip s = None -> iterTrim strip n s = s) as Hid by (intros strip [|n] Hn; cbn; [done|by rewrite Hn]).
  rewrite (Hid stripSpace).
  - apply Hid. destruct s as [|c s _] using rev_ind; [done|]. apply stripSpaceRight_visible. apply Forall_app in Hs as [_ Hc]. by inversion Hc.
  - destruct Hs; [done|]. by apply stripSpace_visible.
Qed.
Lemma visible_trimmed s : s <> [] -> Forall visible s -> trimmed s.
Proof.
  intros Hne Hs. assert (Forall (fun x => ~ visible x) blank /\ Forall (fun x => ~ visible x) blankEnd /\ ~ visible nl) as (H1 & H2 & H3) by (split_and!; unseen).
  split_and!; [done| | |].
  - destruct Hs as [|c s Hc _]; [done|]. by apply visible_notin.
  - destruct s as [|c s _] using rev_ind; [done|]. unfold lastNotIn. rewrite rev_app_distr. cbn. apply visible_notin; [|done].
    apply Forall_app in Hs as [_ Hc]. by inversion Hc.
  - intros Hin. rewrite Forall_forall in Hs. by apply H3, Hs.
Qed.

Definition drawn (random : option bytes) : Prop := forall r, random = Some r -> length r = 32%nat.
Lemma newPassword_visible random p : drawn random -> newPassword random = Some p -> p <> [] /\ Forall visible p.
Proof.
  intros Hd. unfold newPassword. destruct random as [r|]; [|done]. specialize (Hd r eq_refl). intros [= <-]. split; [|apply b64_visible].
  destruct r as [|[] r]; [done|]. unfold EncodeToString. by destruct r as [|[] [|[] r]].
Qed.

Section Settings.
Context `{HU : !UnicodeTables} `{!UnicodeLaws} `{!TempNames}.

Lemma password_key d i ln : doc_ok d -> lineAt d configSection keyPassword = Some (i, ln) -> hasPrefix (L "[") (key ln) = false.
Proof.
  intros Hd Hl. destruct (lineAt_setting _ _ _ _ _ Hd Hl) as [_ Hk]. injection Hk as _ Hk. destruct (key ln) as [|c s]; [done|].
  cbn [hasPrefix L String.list_ascii_of_string]. rewrite andb_true_r. apply is_byte_false. intros ->.
  destruct (toLower_head "["%char s) as [s' Hs']; [done|]. rewrite Hs' in Hk. by vm_compute in Hk.
Qed.

(** A password set in a parsed file is read back, beside what else the file says. *)
Lemma set_password text p d : p <> [] -> Forall visible p -> Set_ (Parse text) configSection keyPassword p = Ok d ->
  Parse (Bytes d) = d /\ Get d configSection keyPassword = Some p /\
  (forall sec k, (sec, toLower k) <> (configSection, toLower keyPassword) -> Get d sec k = Get (Parse text) sec k).
Proof.
  intros Hne Hv HS. pose proof (Set_get _ _ _ _ _ (Parse_ok text) HS) as (_ & Hg & Hf). split_and!; [|done|done].
  symmetry. apply (Set_parsed _ _ _ _ _ (parsed_Parse text) (visible_trimmed _ Hne Hv) HS). intros i ln. by apply password_key, Parse_ok.
Qed.
Lemma port_apart : (configSection, toLower keyPort) <> (configSection, toLower keyPassword).
Proof. intros [=]. Qed.

(** A file that keeps its password and whose port is good is adopted as it is. *)
Definition sound (raw : bytes) (port : Z) (p : bytes) : Prop := 1 <= port <= 65535 /\ p <> [] /\ forall random, adopt random raw = Ok (port, p, raw, false).

Lemma adopt_unchanged random raw port p raw' : adopt random raw = Ok (port, p, raw', false) -> raw' = raw /\ sound raw port p.
Proof.
  unfold adopt. destruct (Get (Parse raw) configSection keyPort) as [v|] eqn:Eg; [|done]. destruct (Atoi _) as [n|] eqn:Ea; [|done].
  destruct (_ || _) eqn:Eb; [done|]. case_bool_decide as Hp; cbn [negb]; [destruct (newPassword random); [by destruct (Set_ _ _ _ _)|done]|].
  intros [= <- <- <-]. split; [done|]. apply orb_false_iff in Eb as [H1%Z.ltb_ge H2%Z.ltb_ge]. split_and!; [lia..|done|].
  intros r. unfold adopt. rewrite Eg, Ea, bool_decide_eq_false_2 by done. cbn [negb]. rewrite (proj2 (Z.ltb_ge _ _)), (proj2 (Z.ltb_ge _ _)) by lia. done.
Qed.
Lemma adopt_changed random raw port p raw' : drawn random -> adopt random raw = Ok (port, p, raw', true) ->
  sound raw' port p /\ Forall visible p /\ trimSpace (default [] (Get (Parse raw) configSection keyPassword)) = [] /\
  (forall sec k, (sec, toLower k) <> (configSection, toLower keyPassword) -> Get (Parse raw') sec k = Get (Parse raw) sec k).
Proof.
  intros Hd. unfold adopt at 1. destruct (Get (Parse raw) configSection keyPort) as [v|] eqn:Eg; [|done]. destruct (Atoi _) as [n|] eqn:Ea; [|done].
  destruct (_ || _) eqn:Eb; [done|]. case_bool_decide as Hp; cbn [negb]; [|done]. destruct (newPassword random) as [q|] eqn:En; [|done].
  destruct (Set_ _ _ _ _) as [d|] eqn:ES; [|done]. intros [= <- <- <-]. destruct (newPassword_visible _ _ Hd En) as [Hne Hv].
  destruct (set_password _ _ _ Hne Hv ES) as (Hpd & Hg & Hf). rewrite Hpd. split_and!; [|done|done|done].
  apply orb_false_iff in Eb as [H1%Z.ltb_ge H2%Z.ltb_ge]. split_and!; [lia..|done|]. intros r. unfold adopt.
  rewrite Hpd, (Hf _ _ port_apart), Eg, Ea, Hg. cbn [default id]. rewrite (proj2 (Z.ltb_ge _ _)), (proj2 (Z.ltb_ge _ _)) by lia. cbn [orb].
  change (default [] (Some q)) with q. rewrite trimSpace_visible, bool_decide_eq_false_2 by done. done.
Qed.

(** The file a server without one gets. *)
Definition template : bytes := newConfig (L "x").
Lemma Bytes_setValue d i ln v : docLines d !! i = Some ln -> Bytes (mkDoc (<[i := setValue v ln]> (docLines d)) (index d)) =
  concat (map raw (take i (docLines d))) ++ take (valStart ln) (raw ln) ++ v ++ drop (valEnd ln) (raw ln) ++ concat (map raw (drop (S i) (docLines d))).
Proof.
  intros Hi. unfold Bytes. cbn [docLines]. rewrite insert_take_drop by by eapply lookup_lt_Some. rewrite map_app, concat_app. cbn [map concat setValue raw].
  by rewrite <- !app_assoc.
Qed.
Lemma newConfig_set p : Forall visible p -> exists d, Set_ (Parse template) configSection keyPassword p = Ok d /\ Bytes d = newConfig p.
Proof.
  intros Hv. assert (nl ∉ p) as Hnl. { intros Hin. rewrite Forall_forall in Hv. assert (~ visible nl) as Hn by unseen. by apply Hn, Hv. }
  destruct (lineAt (Parse template) configSection keyPassword) as [[i ln]|] eqn:El; [|by vm_compute in El].
  eexists. split; [by apply (Set_run _ _ _ _ i ln)|]. pose proof El as Hi. apply lineAt_Some in Hi as [_ Hi]; [|apply Parse_ok].
  rewrite (Bytes_setValue _ _ _ _ Hi). clear Hi.
  assert (i = 2%nat /\ take (valStart ln) (raw ln) = L "Password = " /\ drop (valEnd ln) (raw ln) = [nl]) as (-> & -> & ->)
    by (vm_compute in El; injection El as <- <-; split_and!; vm_compute; reflexivity).
  reflexivity.
Qed.
Lemma newConfig_sound p : p <> [] -> Forall visible p -> sound (newConfig p) DefaultRCONPort p.
Proof.
  intros Hne Hv. destruct (newConfig_set p Hv) as (d & HS & Hb). destruct (set_password _ _ _ Hne Hv HS) as (Hpd & Hg & Hf).
  split_and!; [unfold DefaultRCONPort; lia..|done|]. intros r. unfold adopt. rewrite <- Hb, Hpd, (Hf _ _ port_apart), Hg.
  assert (Get (Parse template) configSection keyPort = Some (L "2455")) as -> by (vm_compute; reflexivity).
  change (default [] (Some p)) with p. rewrite (trimSpace_visible p), bool_decide_eq_false_2 by done. vm_compute. reflexivity.
Qed.

(** *** The file *)

Abbreviation config w := (leaf (treeOf Server w.1) ConfigPath).

Lemma config_noTemp : isTemp ConfigPath = false.
Proof. vm_compute. reflexivity. Qed.

Lemma leaf_file t p c : t !! p = Some (NFile c) -> leaf t p = Some (NFile c).
Proof. unfold leaf. by intros ->. Qed.

Lemma ofs_inv {A} (m : Fs A) w r w' : ofs m w = (r, w') -> exists r', m w = (r', w') /\ r = match r' with Ok a => Ok a | Err e => Err (CfgFs e) end.
Proof. unfold ofs. destruct (m w) as [[a|e] w1]; intros [= <- <-]; by eexists. Qed.
Lemma cbind_inv {A B} (m : C A) (k : A -> C B) w r w' : cbind m k w = (r, w') ->
  (exists a w1, m w = (Ok a, w1) /\ k a w1 = (r, w')) \/ (exists e, m w = (Err e, w') /\ r = Err e).
Proof. unfold cbind. destruct (m w) as [[a|e] w1]; intros E; [left; by eauto|]. injection E as <- <-. right; by eauto. Qed.

Lemma openRoot_inv w r w' : openRoot w = (r, w') -> w'.1 = w.1.
Proof. intros [(a & _ & E)|(e & _ & -> & _)]%call_inv; [|done]. destruct (server w.1); [|done]. by injection E as _ ->. Qed.

(** What a read of the file says. *)
Lemma readConfig_cases w r w' : readConfig w = (r, w') -> w'.1 = w.1 /\
  match r with Ok raw => config w = Some (NFile raw) | Err (CfgFs ENOENT) => config w = None | Err _ => True end.
Proof.
  intros [(n & w1 & E1 & E)|(e & E & ->)]%cbind_inv.
  - apply ofs_inv in E1 as ([n'|] & E1 & [= ->]). apply call_inv in E1 as [(a & [= <-] & E1)|(e & ? & _)]; [|done].
    destruct (nodeAt (treeOf Server w.1) ConfigPath) as [m|] eqn:En; [|done]. injection E1 as <- Hw1. rewrite Hw1 in *. clear Hw1.
    apply nodeAt_Ok in En as [[? _]|[_ En]]; [done|]. unfold leaf. rewrite En. destruct m as [c| |]; [|by injection E as <- <-|by injection E as <- <-].
    apply ofs_inv in E as (r' & E & ->). apply call_inv in E as [(a & -> & E)|(e & -> & -> & He)].
    + destruct (nodeAt _ _) as [[c'| |]|] eqn:En2; [|done..]. injection E as <- Hw2. split; [done|].
      apply nodeAt_Ok in En2 as [[? _]|[_ En2]]; [done|]. by rewrite En in En2; injection En2 as <-.
    + split; [done|]. destruct He as [->|He]; [done|]. destruct (nodeAt _ _) as [[]|e'] eqn:En2; [done| | |]; [by injection He as <-|by injection He as <-|].
      injection He as <-. destruct e'; try done. apply nodeAt_ENOENT in En2 as [_ En2]. congruence.
  - apply ofs_inv in E as ([|e'] & E & [= ->]). apply call_inv in E as [(? & ? & _)|(e2 & [= <-] & -> & He)]; [done|]. split; [done|].
    destruct He as [->|He]; [done|]. destruct (nodeAt _ _) as [|e3] eqn:En; [done|]. injection He as ->. destruct e'; try done.
    apply nodeAt_ENOENT in En as [_ En]. unfold leaf. by rewrite En.
Qed.
Lemma readConfig_run t fs raw : treeOf Server fs = t -> wf t -> leaf t ConfigPath = Some (NFile raw) -> readConfig (fs, []) = (Ok raw, (fs, [])).
Proof.
  intros <- Hwf Hl. unfold leaf in Hl. destruct (treeOf Server fs !! ConfigPath) as [[c| |]|] eqn:E; [|done..]. injection Hl as <-.
  pose proof (nodeAt_wf _ _ _ Hwf E) as Hn. unfold readConfig, cbind, ofs, lstat, readFile, call. by rewrite Hn; cbn [tail]; rewrite Hn.
Qed.

(** Writing it, its directory first. *)
Lemma writeConfig_cases {A} (a : A) raw w r w' :
  (let? _ := ofs (mkdirEach Server (upTo (parent ConfigPath))) in let? _ := ofs (replaceFile Server ConfigPath (Ok raw)) in cret a) w = (r, w') ->
  Frame (only Server (pubFoot ConfigPath true)) w.1 w'.1 /\
  (r = Ok a /\ config w' = Some (NFile raw) \/ (exists e, r = Err e) /\ config w' = config w).
Proof.
  set (F := only Server (pubFoot ConfigPath true)).
  assert (forall b w1 w2, Frame (only Server (pubFoot ConfigPath b)) w1 w2 -> Frame F w1 w2) as Hweak.
  { intros b w1 w2 Hf. eapply Frame_weaken; [|exact Hf]. intros sd. unfold F, only. destruct (decide _); [|by split_and!]. split_and!; [|done|done].
    cbn. by intros q [_ ->]. }
  assert (forall w1 w2, Frame (only Server (pubFoot ConfigPath false)) w1 w2 -> leaf (treeOf Server w2) ConfigPath = leaf (treeOf Server w1) ConfigPath) as Hleaf.
  { intros w1 w2 Hf. specialize (Hf Server). exact (fr_leaf _ _ _ Hf ConfigPath ltac:(by intros [? _]) config_noTemp). }
  assert (forall w1 r1 w2, mkdirEach Server (upTo (parent ConfigPath)) w1 = (r1, w2) -> Frame (only Server (pubFoot ConfigPath false)) w1.1 w2.1) as Hmk.
  { intros w1 r1 w2. refine (Keeps_mkdirEach _ Server _ _ w1 r1 w2). intros q Hq. unfold only. by rewrite decide_True. }
  intros [([] & w1 & E1 & E)|(e & E1 & ->)]%cbind_inv; apply ofs_inv in E1 as (r1 & E1 & _); apply Hmk in E1.
  2: { split; [by eapply Hweak|]. right. split; [by eexists|by apply Hleaf]. }
  apply cbind_inv in E as [([] & w2 & E2 & E)|(e & E2 & ->)]; apply ofs_inv in E2 as (r2 & E2 & Er); apply replaceFile_spec in E2 as [Hf Hok]; [|apply config_noTemp|..|apply config_noTemp].
  - destruct r2 as [[]|]; [|done]. injection E as <- <-. split; [eapply Frame_trans; eapply Hweak; eassumption|]. left. split; [done|].
    destruct (Hok eq_refl) as (c & [= <-] & Hc). by apply leaf_file.
  - destruct r2 as [[]|e2]; [done|]. split; [eapply Frame_trans; eapply Hweak; eassumption|]. right. split; [by eexists|].
    rewrite (Hleaf _ _ Hf). by apply Hleaf.
Qed.

(** C21. The plugin's file and the password in it.  Whichever calls fail, settings
    changes no other file of the server, and when it errs it has not changed this one.
    When it answers, the port is one that can be dialled, the password is not empty,
    and both are on disk: every later reading gives the same two and has nothing to
    write, so the game and the panel never disagree.  A password that was there is
    kept with every byte of the file; otherwise one is minted and every other setting
    keeps its value. *)
Theorem settings_stable random w r w' : drawn random -> wf (treeOf Server w.1) -> settings random w = (r, w') ->
  (forall p, p <> ConfigPath -> isTemp p = false -> leaf (treeOf Server w'.1) p = leaf (treeOf Server w.1) p) /\
  match r with
  | Err _ => config w' = config w
  | Ok (port, password) =>
      1 <= port <= 65535 /\ password <> [] /\ exists raw,
      config w' = Some (NFile raw) /\
      (forall random', readOrCreateConfig random' (w'.1, []) = (Ok (port, password, raw, false), (w'.1, []))) /\
      match config w with
      | Some (NFile old) =>
          (trimSpace (default [] (Get (Parse old) configSection keyPassword)) <> [] -> raw = old) /\
          (forall sec k, (sec, toLower k) <> (configSection, toLower keyPassword) -> Get (Parse raw) sec k = Get (Parse old) sec k)
      | None => port = DefaultRCONPort /\ raw = newConfig password
      | Some _ => False
      end
  end.
Proof.
  intros Hd Hwf [([] & w1 & E1 & E)|(e & E1 & ->)]%cbind_inv; apply ofs_inv in E1 as (r1 & E1 & _); apply openRoot_inv in E1; [|by rewrite E1].
  rewrite <- E1 in *. clear E1 w.
  apply cbind_inv in E as [([[[port p] raw] changed] & w2 & E2 & E)|(e & E2 & ->)].
  2: { unfold readOrCreateConfig in E2. destruct (readConfig w1) as [[raw|e'] w2] eqn:Er; apply readConfig_cases in Er as [Hw _].
       - injection E2 as _ <-. by rewrite Hw.
       - assert (w' = w2) as ->. { destruct e' as [e2| | | | |]; [destruct e2|..]; try (by simplify_eq); destruct (newPassword random); by simplify_eq. } by rewrite Hw. }
  assert (w2.1 = w1.1 /\ sound raw port p /\ (changed = false -> config w1 = Some (NFile raw)) /\
    match config w1 with
    | Some (NFile old) => (trimSpace (default [] (Get (Parse old) configSection keyPassword)) <> [] -> raw = old) /\
        (forall sec k, (sec, toLower k) <> (configSection, toLower keyPassword) -> Get (Parse raw) sec k = Get (Parse old) sec k)
    | None => port = DefaultRCONPort /\ raw = newConfig p
    | Some _ => False end) as (Hw2 & Hs & Hun & Hold).
  { unfold readOrCreateConfig in E2. destruct (readConfig w1) as [[old|e'] w3] eqn:Er; apply readConfig_cases in Er as [Hw Hc].
    - injection E2 as E2 <-. split; [done|]. rewrite Hc. destruct changed.
      + apply adopt_changed in E2 as (Hs & Hv & Hno & Hf); [|done]. split_and!; [done|done|done|done].
      + apply adopt_unchanged in E2 as [-> Hs]. by split_and!.
    - destruct e' as [[]| | | | |]; try done. destruct (newPassword random) as [q|] eqn:En; [|done]. injection E2 as <- <- <- <- <-.
      destruct (newPassword_visible _ _ Hd En). rewrite Hc. split_and!; [done|by apply newConfig_sound|done|done|done]. }
  rewrite <- Hw2 in *. clear E2.
  assert (forall raw', wf (treeOf Server w'.1) -> config w' = Some (NFile raw') -> sound raw' port p ->
    forall random', readOrCreateConfig random' (w'.1, []) = (Ok (port, p, raw', false), (w'.1, []))) as Hread.
  { intros raw' Hwf' Hc (_ & _ & Ha) random'. unfold readOrCreateConfig. rewrite (readConfig_run _ _ raw' eq_refl Hwf' Hc), Ha. done. }
  destruct changed.
  - apply writeConfig_cases in E as [Hf Hr]. split; [intros q Hq Ht; apply (fr_leaf _ _ _ (Hf Server)); [by intros [_ ?]|done]|].
    destruct Hr as [[-> Hc]|[[e ->] Hc]]; [|done]. destruct Hs as (H1 & H2 & H3). split_and!; [lia..|done|]. exists raw. split; [done|].
    split; [|done]. apply Hread; [by apply (fr_wf _ _ _ (Hf Server))|done|exact (conj H1 (conj H2 H3))].
  - injection E as <- <-. split; [done|]. destruct Hs as (H1 & H2 & H3). split_and!; [lia..|done|]. exists raw. split; [by apply Hun|].
    split; [|done]. apply Hread; [done|by apply Hun|exact (conj H1 (conj H2 H3))].
Qed.
End Settings.

(** ** Sending *)

(** What the rules let through. *)
Lemma Validate_Ok raw scope command : Validate raw scope = Ok command ->
  command = trimSpace raw /\ command <> [] /\ (length command <= maxCommandBytes)%nat /\ (forall c, c ∈ lineBreaks -> c ∉ command) /\
  (scope = ScopeOperator -> exists allowed, allowed ∈ AllowedCommands /\ equalFold (firstWord command) (L allowed) = true).
Proof.
  unfold Validate. destruct (_ || _) eqn:Hb; [done|]. apply orb_false_iff in Hb as [[Hne%bool_decide_eq_false Hlen%Nat.ltb_ge]%orb_false_iff Hbr].
  assert (forall c, c ∈ lineBreaks -> c ∉ trimSpace raw) as Hbreaks.
  { intros c Hc Hin. assert (containsAny lineBreaks (trimSpace raw) = true); [|congruence]. apply existsb_exists. exists c.
    split; [by apply list_elem_of_In|by apply one_of_spec]. }
  case_bool_decide as Hs; [intros [= <-]; split_and!; [done..|by rewrite Hs]|].
  destruct (existsb _ AllowedCommands) eqn:Ha; [|done]. intros [= <-]. split_and!; [done..|]. intros _.
  apply existsb_exists in Ha as (a & Hin & Ha). exists a. split; [by apply list_elem_of_In|done].
Qed.

Section Sending.
Context `{HU : !UnicodeTables} `{!TempNames} {D : Type} `{!Net D} (range : gmap string bucket -> list (string * bucket)).

Definition other (b : Budget) : Budget := match b with People => PanelsOwn | PanelsOwn => People end.
Lemma budget_other b l (p : Panel (D := D)) : budget (other b) (withBudget b l p) = budget (other b) p.
Proof. by destruct b. Qed.

(** A send either makes no exchange, or one, of the command it validated. *)
Definition exchanged (inst : Instance_) (b : Budget) (command : bytes) (p : Panel (D := D)) (r : result SendErr bytes) (p' : Panel (D := D)) : Prop :=
  exists c c' password q, exchanges p' = exchanges p ++ [(c, c')] /\ executeRCON password command c = (q, c') /\
    r = (match q with Ok reply => Ok reply | Err e => Err (ErrRCON e) end) /\
    iState (nRow inst) = StateRunning /\ exists now, (Allow range now (nID inst) (budget b p)).1.1 = true.
Definition silent (p : Panel (D := D)) (r : result SendErr bytes) (p' : Panel (D := D)) : Prop :=
  exchanges p' = exchanges p /\ exists e, r = Err e /\ forall x, e <> ErrRCON x.

Lemma send_cases inst raw scope b (p : Panel (D := D)) r p' : send range inst raw scope b p = (r, p') ->
  match Validate raw scope with
  | Err e => r = Err e /\ p' = p
  | Ok command => budget (other b) p' = budget (other b) p /\ (silent p r p' \/ exchanged inst b command p r p')
  end.
Proof.
  unfold send. destruct (Validate raw scope) as [command|e] eqn:Ev; [|by intros [= <- <-]].
  assert (forall (q : Panel (D := D)) e, budget (other b) q = budget (other b) p -> exchanges q = exchanges p -> (forall x, e <> ErrRCON x) ->
    forall r2 p2, (Err e, q) = (r2, p2) -> budget (other b) p2 = budget (other b) p /\ (silent p r2 p2 \/ exchanged inst b command p r2 p2)) as Hno.
  { intros q e Hb Hx He r2 p2 [= <- <-]. split; [done|]. left. split; [done|]. by exists e. }
  destruct (iContainerID (nRow inst)) as [cid|]; [|by apply Hno]. case_bool_decide as Hrun; cbn [negb]; [|by apply Hno].
  unfold ask. destruct (Now (outside p)) as [now d1]. change (budget b (withOutside d1 p)) with (budget b p).
  destruct (Allow range now (nID inst) (budget b p)) as [[ok wait] l] eqn:Ea. set (p1 := withBudget b l (withOutside d1 p)).
  assert (budget (other b) p1 = budget (other b) p /\ exchanges p1 = exchanges p) as [Hb1 Hx1] by (by destruct b).
  destruct ok; cbn [negb]; [|by apply Hno].
  destruct (EnabledMod _ _) as [[[]|] d2]; [|by apply Hno; destruct b..].
  destruct (Random32 _) as [random d3]. cbn zeta. destruct (settings random _) as [[[port password]|e] fs]; [|by apply Hno; destruct b].
  destruct (InspectNet _ _) as [[[[] addrs]|] d4]; [|by apply Hno; destruct b..]. destruct addrs as [|address addrs]; [by apply Hno; destruct b|].
  destruct (rconAddress address port) as [a|]; [|by apply Hno; destruct b]. destruct (Dial a _) as [[conn|] d5]; [|by apply Hno; destruct b].
  destruct (executeRCON password command conn) as [q conn'] eqn:Ex. intros [= <- <-]. split; [by destruct b|]. right.
  exists conn, conn', password, q. split_and!; [by destruct b|done|done|done|]. exists now. by rewrite Ea.
Qed.

(** C20. What a person can make a server run.  A line that is not one allowed command
    reaches nothing: no file, no budget, no connection.  Otherwise a send makes at most
    one exchange, and only with a running server and a token of its own budget, never
    of the other's, so the console cannot hold up the panel's warnings; and what goes
    out is the login and, after the server has accepted it, one packet with exactly the
    trimmed line, which has no line break or zero byte in it and whose first word is on
    the list for an operator. *)
Theorem send_guarded inst raw scope b (p : Panel (D := D)) r p' : send range inst raw scope b p = (r, p') ->
  budget (other b) p' = budget (other b) p /\
  ((exists e, Validate raw scope = Err e) -> p' = p) /\
  (exchanges p' = exchanges p \/
   exists c c' password q s, exchanges p' = exchanges p ++ [(c, c')] /\ wire c' = wire c ++ s /\
     sent password (trimSpace raw) q s /\ r = (match q with Ok reply => Ok reply | Err e => Err (ErrRCON e) end) /\
     match q with Err ErrNoReply | Ok _ => exists reply, answersLogin (incoming c) reply /\ id reply = 1 /\ typ reply = packetCommand | _ => True end /\
     iState (nRow inst) = StateRunning /\ (exists now, (Allow range now (nID inst) (budget b p)).1.1 = true) /\
     (0 < length (trimSpace raw) <= 1024)%nat /\ (forall x, x ∈ lineBreaks -> x ∉ trimSpace raw) /\
     (scope = ScopeOperator -> exists allowed, allowed ∈ AllowedCommands /\ equalFold (firstWord (trimSpace raw)) (L allowed) = true)).
Proof.
  intros E. apply send_cases in E. destruct (Validate raw scope) as [command|e] eqn:Ev; [|by destruct E as [_ ->]; split_and!; [|done|left]].
  destruct E as [Hb E]. split; [done|]. split; [by intros [? ?]|]. destruct E as [[Hx _]|(c & c' & pw & q & Hx & Hex & -> & Hrun & Hnow)]; [by left|]. right.
  apply Validate_Ok in Ev as (-> & Hne & Hlen & Hbr & Hal). apply executeRCON_sent in Hex as (s & Hw & Hs & Hans).
  exists c, c', pw, q, s. split_and!; try done. destruct (trimSpace raw); [done|cbn; lia].
Qed.
End Sending.
