(* ===== verification/Chain.v ===== *)
(** internal/instance/control/chain.go, chain_steps.go and chain_wait.go: a list of
    steps run against one server in order, each lifecycle step as the job it normally
    is.

    The command channel, the waits on other jobs and on the server's log, and the
    context are the interface [Chaining].  A wait that reads the tables again at each
    wake is given the wakes that arrive before its timer fires. *)
From S2P Require Import Prelude GoBytes Kinds Lifecycle Sql Store Engine RemoteStore Errcode Launch PanelRows Runners ModQueue Rcon Command.

Open Scope Z_scope.

(** ** Steps *)

Inductive StepType := StepCommand | StepWait | StepWaitFor | StepBackup | StepStop | StepStart | StepRestart | StepGameUpdate | StepOther (t : string).
#[export] Instance StepType_eq_dec : EqDecision StepType.
Proof. solve_decision. Defined.
Definition ConditionReady : string := "ready".
Definition ConditionEmpty : string := "empty".
Definition MaxChainSteps : nat := 20.
Definition MaxWaitSeconds : Z := 3600.

Record ChainStep := mkStep { Type_ : StepType; cCommand : bytes; cSeconds : Z; cCondition : string; MustSend : bool; cTrigger : string }.
Definition withCommand (line : bytes) (s : ChainStep) : ChainStep := mkStep (Type_ s) line (cSeconds s) (cCondition s) (MustSend s) (cTrigger s).

Inductive Problem := ProblemRequired | ProblemInvalid | ProblemOutOfRange.
(** The step's index and field, and the reason. *)
Definition StepProblem : Type := option nat * string * Problem.

Definition secondsProblem (i : nat) (seconds : Z) : list StepProblem :=
  if (1 <=? seconds) && (seconds <=? MaxWaitSeconds) then [] else [(Some i, "seconds", ProblemOutOfRange)].
(** The problems of a step, and the step with its command trimmed. *)
Definition validateStep (i : nat) (s : ChainStep) : list StepProblem * ChainStep :=
  match Type_ s with
  | StepBackup | StepStop | StepStart | StepRestart | StepGameUpdate => ([], s)
  | StepWait => (secondsProblem i (cSeconds s), s)
  | StepWaitFor =>
      ((if bool_decide (cCondition s <> ConditionReady) && bool_decide (cCondition s <> ConditionEmpty) then [(Some i, "condition", ProblemInvalid)] else []) ++
       secondsProblem i (cSeconds s), s)
  | StepCommand =>
      match Validate (cCommand s) ScopeAny with
      | Err _ => ([(Some i, "command", ProblemInvalid)], s)
      | Ok line => ([], withCommand line s)
      end
  | StepOther _ => ([(Some i, "type", ProblemInvalid)], s)
  end.
Definition ValidateSteps (steps : list ChainStep) : list StepProblem * list ChainStep :=
  match steps with
  | [] => ([(None, "steps", ProblemRequired)], steps)
  | _ => if (MaxChainSteps <? length steps)%nat then ([(None, "steps", ProblemOutOfRange)], steps)
         else let l := imap validateStep steps in (concat l.*1, l.*2)
  end.
Definition StopsServer (steps : list ChainStep) : bool :=
  existsb (fun s => match Type_ s with StepBackup | StepStop | StepRestart | StepGameUpdate => true | _ => false end) steps.

(** ** What a chain waits on *)

(** What [errors.Is] and [errors.As] find in a step's error. *)
Inductive ChErr :=
| CancelRequested_ | ShuttingDown_ | CtxErr | errWrongState | errCommandFailed | childJobError (kind status code : string) | Conflict_ | ChOther.
#[export] Instance ChErr_eq_dec : EqDecision ChErr.
Proof. solve_decision. Defined.

Inductive Wake := WakeCtx | WakeCancel | WakeChanged.

Class Chaining (D : Type) := {
  CtxDone : D -> bool * D;                                       (* ctx.Err() != nil *)
  WaitEnded : D -> bool * D;                                     (* the same of a context that a cancel ends too *)
  Sleep : Z -> D -> option ChErr * D;                            (* [None] once it has slept *)
  hasCommands : bool;
  SendLine : Instance_ -> bytes -> D -> result SendErr bytes * D;
  Naps : D -> list (option ChErr) * D;                           (* the naps that end within the send window *)
  WaitJob : string -> D -> result ChErr (string * string * string) * D;   (* the ended job's kind, status and code *)
  Wakes : Z -> D -> list Wake * D;                               (* until the timer fires *)
  Players : D -> option Z * D;
  Settle : Z
}.
Definition defaultChainSettle : Z := 10 * 60 * 1000000000.

Section Chain.
Context {D : Type} `{!Outside D} `{!Control} `{!Submitting D} `{!Chaining D}.

Definition SM (A : Type) := M D (result ChErr A).
Definition sret {A} (a : A) : SM A := mret (Ok a).
Definition sfail {A} (e : ChErr) : SM A := mret (Err e).
Definition sbind {A B} (m : SM A) (k : A -> SM B) : SM B := do! r := m in match r with Ok a => k a | Err e => mret (Err e) end.
Notation "'let*' x := m 'in' k" := (sbind m (fun x => k)) (at level 10, x pattern, m at level 100, k at level 200) : go_scope.

(** What the chain runs for: the instance, and who asked. *)
Record ChainSubmission := mkChain {
  chInstance : string; chSteps : list ChainStep; chKind : Kind; chScheduleID : string; chRequestedBy : string; chFrom : State
}.
Definition origin (sub : ChainSubmission) : Origin := mkOrigin (chRequestedBy sub) (chScheduleID sub) None.

Definition fresh (id : string) : SM Instance_ :=
  do! r := tx (InstanceByID id) in
  mret (match r with Ok (Some inst) => Ok inst | _ => Err ChOther end).
Definition requireState (id : string) (want : State) : SM unit :=
  if bool_decide (want = "") then sret tt
  else let* inst := fresh id in if bool_decide (iState (nRow inst) = want) then sret tt else sfail errWrongState.

(** *** Submitting a step's job *)

(** [errSatisfied] is the answer [None]. *)
Definition submitted_ (spec : Spec) : SM (option string) :=
  do! r := submit spec in
  mret (match r with Ok j => Ok (Some j) | Err e => Err (if busy e then Conflict_ else match e with ErrShuttingDown => ShuttingDown_ | _ => ChOther end) end).
Definition submitStop (inst : Instance_) (by_ : Origin) : SM (option string) :=
  if bool_decide (iState (nRow inst) = StateStopped) then sret None
  else if negb (bool_decide (iState (nRow inst) = StateRunning)) then sfail errWrongState
  else do! now := out Clock in submitted_ (stopSpec now inst by_ "{}").
Definition submitStart (inst : Instance_) (by_ : Origin) : SM (option string) :=
  if bool_decide (iState (nRow inst) = StateRunning) then sret None
  else if negb (bool_decide (iState (nRow inst) = StateStopped)) || bool_decide (default "" (iContainerID (nRow inst)) = "") then sfail errWrongState
  else do! now := out Clock in submitted_ (startSpec now inst by_).
Definition submitRestart (inst : Instance_) (by_ : Origin) : SM (option string) :=
  if negb (bool_decide (iState (nRow inst) = StateRunning)) then sfail errWrongState
  else if bool_decide (default "" (iContainerID (nRow inst)) = "") then sfail ChOther
  else do! now := out Clock in submitted_ (restartSpec now inst by_).
Definition submitGameUpdate (inst : Instance_) (by_ : Origin) : SM (option string) :=
  if negb (bool_decide (iState (nRow inst) = StateStopped)) then sfail errWrongState
  else do! now := out Clock in submitted_ (gameUpdateSpec now inst by_ "{}").
Definition submitBackup (inst : Instance_) (step : ChainStep) (by_ : Origin) : SM (option string) :=
  do! now := out Clock in submitted_ (backupSpec now inst BackupQuiesced by_ (triggerOf by_ (cTrigger step))).
Definition SubmitStep (inst : Instance_) (step : ChainStep) (by_ : Origin) : SM (option string) :=
  match Type_ step with
  | StepBackup => submitBackup inst step by_
  | StepStop => submitStop inst by_
  | StepStart => submitStart inst by_
  | StepRestart => submitRestart inst by_
  | StepGameUpdate => submitGameUpdate inst by_
  | _ => sfail ChOther
  end.

Definition waitChild (job : string) : SM unit :=
  do! r := out (WaitJob job) in
  mret (match r with
        | Err e => Err e
        | Ok (kind, status, code) => if bool_decide (status = StatusSucceeded) then Ok tt else Err (childJobError kind status code)
        end).

(** [awaitState]: the row is read at once and at every wake. *)
Fixpoint awaitWakes (id : string) (want : State) (wakes : list Wake) : SM unit :=
  let* inst := fresh id in
  let state := iState (nRow inst) in
  if bool_decide (state = want) then sret tt
  else if bool_decide (state = StateError) then sfail errWrongState
  else match wakes with
       | [] => sfail errWrongState
       | WakeCtx :: _ => sfail CtxErr
       | WakeCancel :: _ => sfail CancelRequested_
       | WakeChanged :: wakes => awaitWakes id want wakes
       end.
Definition awaitState (id : string) (want : State) : SM unit :=
  do! wakes := out (Wakes (if Settle <=? 0 then defaultChainSettle else Settle)) in awaitWakes id want wakes.

(** *** Commands *)

Definition retryableSend (e : SendErr) : bool :=
  match e with
  | ErrUnsupported | ErrInvalidCommand | ErrCommandForbidden | ErrInvalidState | ErrRCON ErrNoReply => false
  | _ => true
  end.
(** [sendWhenReady]: again after each nap, until the window has passed. *)
Fixpoint sendTries (inst : Instance_) (line : bytes) (naps : list (option ChErr)) : M D (result (SendErr + ChErr) bytes) :=
  do! r := out (SendLine inst line) in
  match r with
  | Ok reply => mret (Ok reply)
  | Err e =>
      if negb (retryableSend e) then mret (Err (inl e))
      else match naps with
           | [] => mret (Err (inl e))
           | Some stop :: _ => mret (Err (inr stop))
           | None :: naps => sendTries inst line naps
           end
  end.
Definition sendWhenReady (inst : Instance_) (line : bytes) : M D (result (SendErr + ChErr) bytes) :=
  do! naps := out Naps in sendTries inst line naps.

Definition skipOrFail (step : ChainStep) (reason : string) : SM unit :=
  if MustSend step then sfail errCommandFailed else do! _ := say ("skipped: " +:+ reason) in sret tt.
Definition sendCommand (id : string) (step : ChainStep) : SM unit :=
  let* inst := fresh id in
  if negb (bool_decide (iState (nRow inst) = StateRunning)) then skipOrFail step "the server is not running"
  else if negb hasCommands then skipOrFail step "no command channel is configured"
  else
    do! r := sendWhenReady inst (cCommand step) in
    match r with
    | Ok _ => do! _ := say "sent" in sret tt
    | Err (inr CancelRequested_) => sfail CancelRequested_
    | Err e =>
        do! ended := out CtxDone in
        if ended then sfail CtxErr
        else match e with
             | inl ErrUnsupported => skipOrFail step "the server has no RCON mod"
             | inl ErrInvalidState => skipOrFail step "the server is not running"
             | _ => sfail errCommandFailed
             end
    end.

(** *** Waiting for the server *)

Definition waitReady (cid : string) (limit : Z) : SM unit :=
  do! ready := out (AwaitReady cid limit) in
  do! ended := out WaitEnded in
  if ended then sfail CtxErr
  else match ready with
       | Err _ => sfail errWrongState
       | Ok true => do! _ := say "the server is ready" in sret tt
       | Ok false => do! _ := say "warning: the server did not report ready; continuing" in sret tt
       end.
Fixpoint emptyWakes (id : string) (wakes : list Wake) : SM unit :=
  let* _ := requireState id StateRunning in
  do! players := out Players in
  if bool_decide (players = Some 0) then do! _ := say "no players are connected" in sret tt
  else match wakes with
       | [] => do! _ := say "warning: players were still connected; continuing" in sret tt
       | WakeCtx :: _ | WakeCancel :: _ => sfail CtxErr
       | WakeChanged :: wakes => emptyWakes id wakes
       end.
Definition waitEmpty (id : string) (limit : Z) : SM unit := do! wakes := out (Wakes limit) in emptyWakes id wakes.
Definition waitFor (id : string) (step : ChainStep) : SM unit :=
  let* inst := fresh id in
  match iContainerID (nRow inst) with
  | Some cid =>
      if negb (bool_decide (iState (nRow inst) = StateRunning)) then do! _ := say "skipped: the server is not running" in sret tt
      else
        do! r := (if bool_decide (cCondition step = ConditionReady) then waitReady cid (cSeconds step)
                  else if bool_decide (cCondition step = ConditionEmpty) then waitEmpty id (cSeconds step)
                  else sfail ChOther) in
        match r with
        | Ok _ => sret tt
        | Err e =>
            if negb (bool_decide (cCondition step = ConditionReady)) && negb (bool_decide (cCondition step = ConditionEmpty)) then sfail e
            else
              do! ended := out CtxDone in
              do! waitEnded := out WaitEnded in
              if negb ended && waitEnded then sfail CancelRequested_ else sfail e
        end
  | None => do! _ := say "skipped: the server is not running" in sret tt
  end.

(** *** The chain *)

Definition lifecycleStep (sub : ChainSubmission) (step : ChainStep) : SM unit :=
  let* inst := fresh (chInstance sub) in
  let* job := SubmitStep inst step (origin sub) in
  match job with
  | None => do! _ := say "nothing to do" in sret tt
  | Some job =>
      let* _ := waitChild job in
      if bool_decide (Type_ step = StepBackup) && bool_decide (iState (nRow inst) = StateRunning)
      then awaitState (nID inst) StateRunning else sret tt
  end.
Definition runStep (sub : ChainSubmission) (step : ChainStep) : SM unit :=
  match Type_ step with
  | StepWait => do! r := out (Sleep (cSeconds step)) in mret (match r with Some e => Err e | None => Ok tt end)
  | StepCommand => sendCommand (chInstance sub) step
  | StepWaitFor => waitFor (chInstance sub) step
  | _ => lifecycleStep sub step
  end.

Definition chainFailureCode (e : ChErr) : string :=
  match e with
  | childJobError _ _ code => if bool_decide (code = "") then codeName Internal else code
  | Conflict_ => codeName JobInProgress
  | errWrongState => codeName InvalidState
  | errCommandFailed => codeName Unavailable
  | _ => codeName Internal
  end.

(** What a chain job ends with: its status and its error code. *)
Definition ChainOutcome : Type := string * string.

(** [Run]'s loop from the step of that number. *)
Fixpoint runSteps (jobID : string) (sub : ChainSubmission) (i : nat) (steps : list ChainStep) : M D ChainOutcome :=
  match steps with
  | [] => mret (StatusSucceeded, "")
  | step :: steps =>
      do! cancelled := cancelRequested jobID in
      if cancelled then mret (StatusCancelled, "")
      else
        do! _ := note (EStep i true) in
        do! r := runStep sub step in
        match r with
        | Ok _ => do! _ := note (EStep i false) in runSteps jobID sub (i + 1) steps
        | Err CancelRequested_ => mret (StatusCancelled, "")
        | Err e =>
            do! ended := out CtxDone in
            if ended || bool_decide (e = ShuttingDown_) then mret (StatusFailed, codeName Interrupted)
            else mret (StatusFailed, chainFailureCode e)
        end
  end.
Definition chainRun (jobID : string) (sub : ChainSubmission) : M D ChainOutcome :=
  do! r := requireState (chInstance sub) (chFrom sub) in
  match r with
  | Err _ => mret (StatusFailed, codeName InvalidState)
  | Ok _ => runSteps jobID sub 0 (chSteps sub)
  end.

(** [Submit]: a game update of a modded server is refused. *)
Definition ConfirmModded (inst : Instance_) (confirmed : bool) : SM unit :=
  if confirmed then sret tt
  else do! modded := out (HasDoorstop (kDataDir (nCols inst))) in
       mret (match modded with Some false => Ok tt | _ => Err ChOther end).
Definition chainSpec (inst : Instance_) (sub : ChainSubmission) (payload : string) (audit : option AuditEntry) : Spec :=
  Engine.mkSpec (chKind sub) (ChainLockKey (nID inst)) [] (Some (nID inst)) (iName (nRow inst)) (Some payload) (chRequestedBy sub) (chScheduleID sub) false None audit.
Definition ChainSubmit (inst : Instance_) (sub : ChainSubmission) (payload : string) (audit : option AuditEntry) : SM string :=
  let* _ := (if existsb (fun s => bool_decide (Type_ s = StepGameUpdate)) (chSteps sub) then ConfirmModded inst false else sret tt) in
  do! r := submit (chainSpec inst sub payload audit) in
  mret (match r with Ok j => Ok j | Err e => Err (if busy e then Conflict_ else ChOther) end).
End Chain.
