(* ===== verification/ChainSafe.v ===== *)
(** What a chain promises: its steps in order and no further than the first that
    fails, a server back up before the step after a backup, and each command sent
    once. *)
From S2P Require Import Prelude GoBytes CfgDoc InstallFS Kinds Lifecycle Sql Store Engine RemoteStore Errcode Limiter Launch PanelRows Rcon Command CommandSafe Runners Chain.

Open Scope Z_scope.

Notation "'do!' x := m 'in' k" := (mbind_ m (fun x => k)) (at level 10, x pattern, m at level 100, k at level 200) : go_scope.

(** ** What a chain may do, as a relation *)

Definition kindOf (t : StepType) : option Kind :=
  match t with
  | StepBackup => Some KindBackup | StepStop => Some KindStop | StepStart => Some KindStart | StepRestart => Some KindRestart
  | StepGameUpdate => Some KindGameUpdate | _ => None
  end.
(** A step submits at most its own job, for the chain's server and in its name. *)
Definition stepEvents (sub : ChainSubmission) (step : ChainStep) (evs : list Ev) : Prop :=
  evs = [] \/ exists spec r, evs = [ESubmit spec r] /\ kindOf (Type_ step) = Some (sKind spec) /\ sLockKey spec = InstanceLockKey (chInstance sub) /\
    sRequestedBy spec = chRequestedBy sub /\ sScheduleID spec = chScheduleID sub.

(** The steps from number [i]: all done, or stopped at one. *)
Inductive follows (sub : ChainSubmission) : nat -> list ChainStep -> list Ev -> ChainOutcome -> Prop :=
| follows_end i : follows sub i [] [] (StatusSucceeded, "")
| follows_cancel i step steps : follows sub i (step :: steps) [] (StatusCancelled, "")
| follows_stop i step steps evs o : stepEvents sub step evs -> o.1 <> StatusSucceeded -> follows sub i (step :: steps) (EStep i true :: evs) o
| follows_step i step steps evs evs' o : stepEvents sub step evs -> follows sub (i + 1) steps evs' o ->
    follows sub i (step :: steps) (EStep i true :: evs ++ EStep i false :: evs') o.

(** Where it succeeded, every step was begun and done, in order. *)
Fixpoint marks (i n : nat) : list (nat * bool) := match n with O => [] | S n => (i, true) :: (i, false) :: marks (i + 1) n end.
Definition stepMarks (evs : list Ev) : list (nat * bool) := omap (fun e => match e with EStep i b => Some (i, b) | _ => None end) evs.
Lemma stepEvents_marks sub step evs : stepEvents sub step evs -> stepMarks evs = [].
Proof. by intros [->|(spec & r & -> & _)]. Qed.
Lemma follows_all sub i steps evs o : follows sub i steps evs o -> o.1 = StatusSucceeded -> stepMarks evs = marks i (length steps).
Proof.
  induction 1 as [| |i step steps evs o Hs Ho|i step steps evs evs' o Hs _ IH]; [done|done|done|]. intros Ho. cbn. unfold stepMarks. rewrite omap_app.
  pose proof (stepEvents_marks _ _ _ Hs) as Hm. unfold stepMarks in Hm. rewrite Hm. cbn. f_equal. f_equal. by apply IH.
Qed.

Section Order.
Context {D : Type} `{!Outside D} `{!Control} `{!Submitting D} `{!Chaining D}.

(** ** What a computation adds to the trace *)

Definition adds {A} (P : list Ev -> Prop) (m : M D A) : Prop := forall w a w', m w = (a, w') -> exists evs, wTrace w' = wTrace w ++ evs /\ P evs.
Definition nothing (evs : list Ev) : Prop := evs = [].
Class Mute {A} (m : M D A) : Prop := mute : adds nothing m.
#[local] Instance mret_mute {A} (a : A) : Mute (mret a).
Proof. intros w b w' [= <- <-]. exists []. by rewrite app_nil_r. Qed.
#[local] Instance bind_mute {A B} (m : M D A) (k : A -> M D B) : Mute m -> (forall a, Mute (k a)) -> Mute (mbind_ m k).
Proof.
  intros Hm Hk w b w'. unfold mbind_. destruct (m w) as [a w1] eqn:E. intros Hb. apply Hm in E as (e1 & E & ->). apply Hk in Hb as (e2 & Hb & ->).
  exists []. by rewrite Hb, E, !app_nil_r.
Qed.
#[local] Instance out_mute {A} (f : D -> A * D) : Mute (out f).
Proof. intros w a w'. unfold out. destruct (f _). intros [= <- <-]. exists []. by rewrite app_nil_r. Qed.
#[local] Instance say_mute l : Mute (say l).
Proof. intros w a w' [= <- <-]. exists []. by rewrite app_nil_r. Qed.
#[local] Instance tx_mute {A} (m : PTx A) : Mute (tx m).
Proof. intros w a w'. unfold tx. destruct (m _) as [r [db fs]]. intros [= <- <-]. exists []. by rewrite app_nil_r. Qed.
#[local] Instance if_mute {A} (b : bool) (m m' : M D A) : Mute m -> Mute m' -> Mute (if b then m else m').
Proof. by destruct b. Qed.
#[local] Hint Extern 3 (Mute (match ?x with _ => _ end)) => destruct x : typeclass_instances.
#[local] Hint Extern 2 (Mute (sbind _ _)) => unfold sbind : typeclass_instances.
#[local] Hint Extern 2 (Mute (sret _)) => unfold sret : typeclass_instances.
#[local] Hint Extern 2 (Mute (sfail _)) => unfold sfail : typeclass_instances.

#[local] Instance fresh_mute id : Mute (fresh id).
Proof. unfold fresh. apply _. Qed.
#[local] Instance requireState_mute id want : Mute (requireState id want).
Proof. unfold requireState. apply _. Qed.
#[local] Instance skipOrFail_mute step reason : Mute (skipOrFail step reason).
Proof. unfold skipOrFail. apply _. Qed.
#[local] Instance sendTries_mute inst line naps : Mute (sendTries inst line naps).
Proof. induction naps as [|[e|] naps IH]; cbn [sendTries]; apply _. Qed.
#[local] Instance sendCommand_mute id step : Mute (sendCommand id step).
Proof. unfold sendCommand, sendWhenReady. apply _. Qed.
#[local] Instance awaitWakes_mute id want wakes : Mute (awaitWakes id want wakes).
Proof. induction wakes as [|[] wakes IH]; cbn [awaitWakes]; apply _. Qed.
#[local] Instance emptyWakes_mute id wakes : Mute (emptyWakes id wakes).
Proof. induction wakes as [|[] wakes IH]; cbn [emptyWakes]; apply _. Qed.
#[local] Instance waitFor_mute id step : Mute (waitFor id step).
Proof. unfold waitFor, waitReady, waitEmpty. apply _. Qed.
#[local] Instance cancelRequested_mute j : Mute (cancelRequested j).
Proof. unfold cancelRequested. apply _. Qed.
#[local] Instance submitRow_mute spec payload : Mute (submitRow spec payload).
Proof. unfold submitRow. apply _. Qed.

Lemma mute_then {A B} (P : list Ev -> Prop) (m : M D A) (k : A -> M D B) : Mute m -> (forall a, adds P (k a)) -> adds P (mbind_ m k).
Proof.
  intros Hm Hk w b w'. unfold mbind_. destruct (m w) as [a w1] eqn:E. intros Hb. apply Hm in E as (e1 & E & ->). apply Hk in Hb as (e2 & Hb & H2).
  exists e2. by rewrite Hb, E, app_nil_r.
Qed.
Lemma then_mute {A B} (P : list Ev -> Prop) (m : M D A) (k : A -> M D B) : adds P m -> (forall a, Mute (k a)) -> adds P (mbind_ m k).
Proof.
  intros Hm Hk w b w'. unfold mbind_. destruct (m w) as [a w1] eqn:E. intros Hb. apply Hm in E as (e1 & E & H1). apply Hk in Hb as (e2 & Hb & ->).
  exists e1. by rewrite Hb, E, app_nil_r.
Qed.
Lemma adds_mute {A} (P : list Ev -> Prop) (m : M D A) : P [] -> Mute m -> adds P m.
Proof. intros HP Hm w a w' E. apply Hm in E as (e & E & ->). by exists []. Qed.

(** ** Its steps *)

Lemma submit_adds spec : adds (fun evs => exists r, evs = [ESubmit spec r]) (submit spec).
Proof.
  unfold submit. apply mute_then; [apply _|]. intros refusal. apply mute_then; [apply _|]. intros r w a w' [= <- <-].
  exists [ESubmit spec r]. split; [done|by eexists].
Qed.

Definition ours (sub : ChainSubmission) (k : option Kind) (evs : list Ev) : Prop :=
  evs = [] \/ exists spec r, evs = [ESubmit spec r] /\ k = Some (sKind spec) /\ sLockKey spec = InstanceLockKey (chInstance sub) /\
    sRequestedBy spec = chRequestedBy sub /\ sScheduleID spec = chScheduleID sub.
Lemma submitted_adds sub k spec : k = Some (sKind spec) -> sLockKey spec = InstanceLockKey (chInstance sub) ->
  sRequestedBy spec = chRequestedBy sub -> sScheduleID spec = chScheduleID sub -> adds (ours sub k) (submitted_ spec).
Proof.
  intros H1 H2 H3 H4. unfold submitted_. apply then_mute; [|apply _]. intros w a w' E. apply submit_adds in E as (evs & E & r & ->).
  exists [ESubmit spec r]. split; [done|]. right. by exists spec, r.
Qed.
Lemma SubmitStep_adds sub inst step : nID inst = chInstance sub -> adds (ours sub (kindOf (Type_ step))) (SubmitStep inst step (origin sub)).
Proof.
  intros Hid. unfold SubmitStep. destruct (Type_ step); cbn [kindOf]; try (apply adds_mute; [by left|apply _]).
  - unfold submitBackup. apply mute_then; [apply _|]. intros now. apply submitted_adds; cbn; by rewrite ?Hid.
  - unfold submitStop. case_bool_decide; [apply adds_mute; [by left|apply _]|]. destruct (negb _); [apply adds_mute; [by left|apply _]|].
    apply mute_then; [apply _|]. intros now. apply submitted_adds; cbn; by rewrite ?Hid.
  - unfold submitStart. case_bool_decide; [apply adds_mute; [by left|apply _]|]. destruct (_ || _); [apply adds_mute; [by left|apply _]|].
    apply mute_then; [apply _|]. intros now. apply submitted_adds; cbn; by rewrite ?Hid.
  - unfold submitRestart. destruct (negb _); [apply adds_mute; [by left|apply _]|]. case_bool_decide; [apply adds_mute; [by left|apply _]|].
    apply mute_then; [apply _|]. intros now. apply submitted_adds; cbn; by rewrite ?Hid.
  - unfold submitGameUpdate. destruct (negb _); [apply adds_mute; [by left|apply _]|].
    apply mute_then; [apply _|]. intros now. apply submitted_adds; cbn; by rewrite ?Hid.
Qed.

Lemma instanceByID_id id db inst : instanceByID id db = Some inst -> nID inst = id /\ stateOf id db = Some (iState (nRow inst)).
Proof.
  unfold instanceByID, stateOf. destruct (instances _ !! id) as [i|]; [|done]. destruct (pCols db !! id); [|done]. by intros [= <-].
Qed.
(** What [fresh] reads is in the tables it leaves. *)
Lemma fresh_read id (w : Runners.World D) inst w' : fresh id w = (Ok inst, w') -> nID inst = id /\ stateOf id (wDB w') = Some (iState (nRow inst)).
Proof.
  unfold fresh, mbind_, tx. destruct (InstanceByID id _) as [r [db fs]] eqn:E. cbn. destruct r as [[i|]|e]; [|done..]. intros [= <- <-].
  unfold InstanceByID in E. apply readq_Ok in E as [E Hdb]. cbn in *. subst db. by apply instanceByID_id.
Qed.
Lemma fresh_then {A} (P : list Ev -> Prop) id (k : Instance_ -> SM (D := D) A) : P [] -> (forall inst, nID inst = id -> adds P (k inst)) -> adds P (sbind (fresh id) k).
Proof.
  intros HP Hk w a w'. unfold sbind, mbind_. destruct (fresh id w) as [[inst|e] w1] eqn:E.
  - intros Ha. pose proof (fresh_read _ _ _ _ E) as [Hid _]. apply fresh_mute in E as (e1 & E & ->). apply (Hk inst Hid) in Ha as (e2 & Ha & H2).
    exists e2. by rewrite Ha, E, app_nil_r.
  - intros [= <- <-]. apply fresh_mute in E as (e1 & E & ->). by exists [].
Qed.
Lemma runStep_adds sub step : adds (stepEvents sub step) (runStep sub step).
Proof.
  assert (adds (stepEvents sub step) (lifecycleStep sub step)) as Hl.
  { unfold lifecycleStep. apply fresh_then; [by left|]. intros inst Hid. unfold sbind at 1. apply then_mute.
    - intros w a w' E. by apply (SubmitStep_adds sub inst step Hid) in E.
    - intros [[job|]|e]; [|apply _..]. unfold waitChild, awaitState. apply _. }
  unfold runStep. destruct (Type_ step); try exact Hl; (apply adds_mute; [by left|apply _]).
Qed.

Lemma note_trace e (w : Runners.World D) u w' : note e w = (u, w') -> wTrace w' = wTrace w ++ [e].
Proof. by intros [= _ <-]. Qed.
Lemma runSteps_follows j sub steps : forall i (w : Runners.World D) o w', runSteps j sub i steps w = (o, w') ->
  exists evs, wTrace w' = wTrace w ++ evs /\ follows sub i steps evs o.
Proof.
  induction steps as [|step steps IH]; intros i w o w'; cbn [runSteps]; [intros [= <- <-]; exists []; rewrite app_nil_r; split; [done|constructor]|].
  unfold mbind_ at 1. destruct (cancelRequested j w) as [c w1] eqn:Ec. apply cancelRequested_mute in Ec as (e1 & Ec & ->). rewrite app_nil_r in Ec.
  destruct c; [intros [= <- <-]; exists []; rewrite Ec, app_nil_r; split; [done|constructor]|].
  unfold mbind_ at 1. destruct (note (EStep i true) w1) as [u w2] eqn:En. apply note_trace in En.
  unfold mbind_ at 1. destruct (runStep sub step w2) as [r w3] eqn:Er. apply runStep_adds in Er as (evs & Er & Hs). rewrite En, Ec in Er.
  assert (forall (o : ChainOutcome) (w' : World D), wTrace w' = wTrace w3 -> o.1 <> StatusSucceeded ->
    exists evs, wTrace w' = wTrace w ++ evs /\ follows sub i (step :: steps) evs o) as Hstop.
  { intros o1 w4 Hw Ho. exists (EStep i true :: evs). split; [by rewrite Hw, Er, <- app_assoc|by constructor]. }
  destruct r as [[]|e].
  - unfold mbind_ at 1. destruct (note (EStep i false) w3) as [u2 w4] eqn:En2. apply note_trace in En2. intros E.
    apply IH in E as (evs' & E & Hf). exists (EStep i true :: evs ++ EStep i false :: evs'). split; [|by constructor].
    rewrite E, En2, Er. by rewrite <- !app_assoc.
  - assert (forall (o : ChainOutcome) (w' : World D), mbind_ (out CtxDone) (fun ended => if ended || bool_decide (e = ShuttingDown_) then mret (StatusFailed, codeName Interrupted)
      else mret (StatusFailed, chainFailureCode e)) w3 = (o, w') -> exists evs, wTrace w' = wTrace w ++ evs /\ follows sub i (step :: steps) evs o) as Hend.
    { intros o1 w4. unfold mbind_, out. destruct (CtxDone _) as [b d]. destruct (_ || _); intros [= <- <-]; by apply Hstop. }
    destruct e; try (intros E; by apply Hend in E). intros [= <- <-]. by apply Hstop.
Qed.


(** ** After a backup *)

Lemma awaitWakes_reached id want wakes (w : Runners.World D) w' : awaitWakes id want wakes w = (Ok tt, w') -> stateOf id (wDB w') = Some want.
Proof.
  revert w. induction wakes as [|x wakes IH]; intros w; cbn [awaitWakes]; unfold sbind at 1, mbind_ at 1; destruct (fresh id w) as [[inst|e] w1] eqn:E; try done;
    (case_bool_decide as Hs; [intros [= <-]; apply fresh_read in E as [_ E]; by rewrite E, Hs|]); (case_bool_decide; [done|]); [done|].
  destruct x; [done..|]. apply IH.
Qed.

(** The step after a backup finds the server as the backup did: a backup step that
    took a running server down is done only once the server has been read running
    again; a server that lands in error, a timer that fires and a cancel end the
    chain instead. *)
Theorem backup_step_waits sub step (w : Runners.World D) w' : Type_ step = StepBackup -> runStep sub step w = (Ok tt, w') ->
  exists evs, wTrace w' = wTrace w ++ evs /\
  (forall spec r, ESubmit spec r ∈ evs -> sResumeAfter spec = true -> stateOf (chInstance sub) (wDB w') = Some StateRunning).
Proof.
  intros Ht E. pose proof E as Et. apply runStep_adds in Et as (evs & Et & _). exists evs. split; [done|]. revert Et.
  unfold runStep in E. rewrite Ht in E. unfold lifecycleStep in E. unfold sbind at 1, mbind_ at 1 in E. destruct (fresh _ w) as [[inst|e] w1] eqn:Ef; [|done].
  pose proof (fresh_read _ _ _ _ Ef) as [Hid _]. apply fresh_mute in Ef as (e1 & Ef & ->). rewrite app_nil_r in Ef.
  unfold sbind at 1, mbind_ at 1 in E. destruct (SubmitStep _ _ _ w1) as [[[job|]|e] w2] eqn:Es; [| |done].
  - unfold sbind at 1, mbind_ at 1 in E. destruct (waitChild job w2) as [[[]|e] w3] eqn:Ew; [|done]. rewrite bool_decide_eq_true_2 in E by done. cbn [andb] in E.
    intros Et spec r Hin Hres. case_bool_decide as Hrun.
    + unfold awaitState, mbind_ at 1 in E. destruct (out _ w3) as [wakes w4]. apply awaitWakes_reached in E. by rewrite <- Hid.
    + injection E as <-. exfalso. unfold SubmitStep in Es. rewrite Ht in Es. unfold submitBackup, mbind_ at 1 in Es. destruct (out Clock w1) as [now w5] eqn:Eo.
      assert (wTrace w5 = wTrace w1) as H5 by (apply out_mute in Eo as (? & Eo & ->); by rewrite app_nil_r in Eo).
      unfold submitted_, mbind_ at 1 in Es. destruct (submit _ w5) as [r2 w6] eqn:Eb. apply submit_adds in Eb as (es & Eb & r3 & ->).
      injection Es as _ <-. assert (wTrace w3 = wTrace w6) as H3.
      { assert (Mute (waitChild job)) as Hm by (unfold waitChild; apply _). apply Hm in Ew as (? & Ew & ->). by rewrite app_nil_r in Ew. }
      rewrite H3, Eb, H5, Ef in Et. apply app_inv_head in Et. subst evs. apply list_elem_of_singleton in Hin as [= -> _]. cbn in Hres.
      unfold quiescingOf in Hres. rewrite andb_true_iff in Hres. destruct Hres as [_ Hres%bool_decide_eq_true]. done.
  - intros Et spec r Hin _. exfalso. unfold SubmitStep in Es. rewrite Ht in Es. unfold submitBackup, mbind_ at 1 in Es. destruct (out Clock w1) as [now w5].
    unfold submitted_, mbind_ at 1 in Es. destruct (submit _ w5) as [[] w6]; done.
Qed.
End Order.

(** ** Commands *)

(** What the sender promises a chain: after a call the server may have run the line
    exactly where the answer is a reply or says that none arrived, and then once. *)
Definition mayHaveRun (r : result SendErr bytes) : bool := match r with Ok _ | Err (ErrRCON ErrNoReply) => true | _ => false end.
Class Delivery (D : Type) `{!Chaining D} := {
  delivered : D -> list bytes;
  whole : bytes -> bytes;                                          (* what a line is on the wire *)
  send_delivers inst line d r d' : SendLine inst line d = (r, d') -> exists new, delivered d' = delivered d ++ new /\
    (length new <= if mayHaveRun r then 1 else 0)%nat /\ (is_ok r = true -> new = [whole line]);
  naps_deliver_nothing d : delivered (Naps d).2 = delivered d
}.

Section Once.
Context {D : Type} `{!Outside D} `{!Control} `{!Submitting D} `{!Chaining D} `{!Delivery D}.

Definition fromSend (r : result (SendErr + ChErr) bytes) (new : list bytes) : Prop := (length new <= 1)%nat /\
  match r with Ok _ => True | Err (inl e) => mayHaveRun (Err e) = false -> new = [] | Err (inr _) => new = [] end.
Lemma sendTries_once inst line naps (w : World D) r w' : sendTries inst line naps w = (r, w') ->
  exists new, delivered (wOut w') = delivered (wOut w) ++ new /\ fromSend r new /\ (is_ok r = true -> new = [whole line]).
Proof.
  revert w. induction naps as [|nap naps IH]; intros w; cbn [sendTries]; unfold mbind_ at 1, out at 1; destruct (SendLine inst line (wOut w)) as [[reply|e] d] eqn:E;
    pose proof (send_delivers _ _ _ _ _ E) as (new & Hd & Hl & Hok).
  1,3: intros [= <- <-]; exists new; split; [done|]; split; [by split|done].
  all: assert (mayHaveRun (Err e) = false -> new = []) as Hno by (intros Hm; rewrite Hm in Hl; by destruct new; [|cbn in Hl; lia]).
  all: assert (forall x, x = (@Err (SendErr + ChErr) bytes (inl e), withOut d w) -> x = (r, w') ->
    exists new, delivered (wOut w') = delivered (wOut w) ++ new /\ fromSend r new /\ (is_ok r = true -> new = [whole line])) as Hend.
  1,3: intros x -> [= <- <-]; exists new; split; [done|]; split; [split; [destruct (mayHaveRun _); lia|done]|done].
  - destruct (negb _); by apply Hend.
  - destruct (retryableSend e) eqn:Hr; cbn [negb]; [|by apply Hend].
    assert (new = []) as -> by (apply Hno; by destruct e as [| | | | |[]|]). rewrite app_nil_r in Hd.
    destruct nap as [stop|]; [intros [= <- <-]; exists []; rewrite app_nil_r; split; [done|]; split; [split; [cbn; lia|done]|done]|].
    intros H1. apply IH in H1 as (new & Hd1 & H1). exists new. by rewrite Hd1, <- Hd.
Qed.

(** C11. However often a send is tried, the server gets the command at most once: the
    panel tries again only after an answer that means it cannot have run, a delivered
    reply is that of the one whole line sent, and a cancel that ends the waiting leaves
    nothing sent. *)
Theorem command_sent_once inst line (w : World D) r w' : sendWhenReady inst line w = (r, w') ->
  exists new, delivered (wOut w') = delivered (wOut w) ++ new /\ (length new <= 1)%nat /\
  match r with
  | Ok _ => new = [whole line]
  | Err (inl e) => mayHaveRun (Err e) = false -> new = []
  | Err (inr _) => new = []
  end.
Proof.
  unfold sendWhenReady, mbind_ at 1, out at 1. destruct (Naps (wOut w)) as [naps d] eqn:En. intros (new & Hd & [Hl Hm] & Hok)%sendTries_once.
  pose proof (naps_deliver_nothing (wOut w)) as Hn. rewrite En in Hn. cbn in Hn, Hd. exists new. rewrite <- Hn. split; [done|]. split; [done|].
  destruct r as [reply|[e|e]]; [by apply Hok|done|done].
Qed.
End Once.

(** ** The panel's own channel keeps the promise *)

Section Panel.
Context `{HU : !UnicodeTables} `{!TempNames} {E : Type} `{!Net E} `{HC : !Chaining E} (range : gmap string bucket -> list (string * bucket)).

Definition onOutside {A} (f : E -> A * E) (p : Panel (D := E)) : A * Panel (D := E) := let '(a, d) := f (outside p) in (a, withOutside d p).
#[local] Instance PanelChaining : Chaining (Panel (D := E)) := {
  CtxDone := onOutside CtxDone; WaitEnded := onOutside WaitEnded; Sleep n := onOutside (Sleep n); hasCommands := true;
  SendLine inst line := Send range inst line;
  Naps := onOutside Naps; WaitJob j := onOutside (WaitJob j); Wakes n := onOutside (Wakes n); Players := onOutside Players; Settle := Settle
}.

(** The bytes of an exchange after its first whole packet, the login. *)
Definition commandBytes (x : Conn * Conn) : option bytes :=
  match readPacket [List.skipn (length (wire x.1)) (wire x.2)] with
  | (Some _, rest) => if bool_decide (concat rest = []) then None else Some (concat rest)
  | (None, _) => None
  end.

Lemma after_login password raw s : rawPacket (loginPacket password) = Some raw -> exists rest, readPacket [raw ++ s] = (Some (loginPacket password), rest) /\ concat rest = s.
Proof.
  intros Hr. apply (rawPacket_read _ _ raw s); [|done|by cbn; rewrite app_nil_r]. split; cbn; unfold packetLogin; lia.
Qed.
Lemma part_of_login password k p rest : readPacket [take k (default [] (rawPacket (loginPacket password)))] = (Some p, rest) -> concat rest = [].
Proof.
  intros Hp. destruct (rawPacket (loginPacket password)) as [raw|] eqn:Er; cbn in Hp; [|rewrite take_nil in Hp; by vm_compute in Hp].
  pose proof Hp as Hp'. apply readPacket_raw in Hp' as (Hok & raw' & Hr' & Hc). cbn in Hc. rewrite app_nil_r in Hc.
  destruct (after_login password raw [] Er) as (r1 & E1 & Hr1). rewrite app_nil_r in E1.
  destruct (rawPacket_read [raw] p raw' (concat rest ++ drop k raw) Hok Hr') as (r2 & E2 & Hr2).
  { cbn. rewrite app_nil_r, app_assoc, <- Hc. by rewrite take_drop. }
  rewrite E1 in E2. assert (r2 = r1) as -> by congruence. rewrite Hr1 in Hr2. symmetry in Hr2. by apply app_eq_nil in Hr2 as [-> _].
Qed.

Lemma exchange_bytes password command c r c' : executeRCON password command c = (r, c') ->
  match commandBytes (c, c') with
  | Some s => (match r with Ok _ | Err ErrNoReply => True | _ => False end) /\ (is_ok r = true -> Some s = rawPacket (commandPacket command))
  | None => is_ok r = false
  end.
Proof.
  intros (s & Hw & Hs & _)%executeRCON_sent. unfold commandBytes. cbn [fst snd]. rewrite Hw.
  assert (List.skipn (length (wire c)) (wire c ++ s) = s) as -> by apply drop_app_length.
  assert (forall k, s = take k (default [] (rawPacket (loginPacket password))) ->
    match readPacket [s] with (Some _, rest) => (if bool_decide (concat rest = []) then None else Some (concat rest)) = None | (None, _) => True end) as Hlogin.
  { intros k ->. destruct (readPacket _) as [[p|] rest] eqn:Ep; [|done]. apply part_of_login in Ep. by rewrite bool_decide_eq_true_2. }
  unfold sent in Hs. destruct r as [reply|[]].
  - destruct Hs as (raw & cmd & Hr & Hcmd & ->). destruct (after_login password raw cmd Hr) as (rest & -> & Hrest). rewrite Hrest, Hcmd.
    case_bool_decide as Hn; [|done]. exfalso. rewrite Hn in Hcmd. unfold rawPacket in Hcmd. destruct (_ <? _); [done|]. apply (inj Some) in Hcmd. discriminate.
  - destruct Hs as [k Hs]. specialize (Hlogin k Hs). destruct (readPacket [s]) as [[p|] rest]; [by rewrite Hlogin|done].
  - destruct (readPacket [s]) as [[p|] rest]; [by case_bool_decide|done].
  - destruct Hs as [k Hs]. specialize (Hlogin k Hs). destruct (readPacket [s]) as [[p|] rest]; [by rewrite Hlogin|done].
Qed.

(** Its sends are those exchanges. *)
Definition deliveredBy (p : Panel (D := E)) : list bytes := omap commandBytes (exchanges p).
Lemma Send_delivers inst line (p : Panel (D := E)) r p' : Send range inst line p = (r, p') -> exists new, deliveredBy p' = deliveredBy p ++ new /\
  (length new <= if mayHaveRun r then 1 else 0)%nat /\ (is_ok r = true -> new = [default [] (rawPacket (commandPacket (trimSpace line)))]).
Proof.
  intros H1%send_cases. unfold deliveredBy. destruct (Validate line ScopeAny) as [command|e] eqn:Ev.
  2: { destruct H1 as [-> ->]. exists []. rewrite app_nil_r. split_and!; [done|cbn; lia|done]. }
  destruct H1 as [_ [[-> (e & -> & _)]|(c & c' & pw & q & -> & Hex & -> & _)]].
  { exists []. rewrite app_nil_r. split_and!; [done|cbn; lia|done]. }
  apply Validate_Ok in Ev as (-> & _). rewrite omap_app. apply exchange_bytes in Hex. cbn [omap list_omap].
  destruct (commandBytes (c, c')) as [s|].
  - destruct Hex as [Hm Hok]. exists [s]. split; [done|]. split; [destruct q as [?|[]]; cbn; [lia|done|lia|done]|]. intros Hq. destruct q as [reply|]; [|done].
    by rewrite <- (Hok eq_refl).
  - exists []. split; [done|]. split; [cbn; lia|]. by destruct q.
Qed.
Lemma Naps_quiet (p : Panel (D := E)) : deliveredBy (Naps p).2 = deliveredBy p.
Proof. unfold Naps, PanelChaining, onOutside. by destruct (Chain.Naps (outside p)). Qed.
#[local] Instance PanelDelivery : Delivery (Panel (D := E)) := {
  delivered := deliveredBy; whole line := default [] (rawPacket (commandPacket (trimSpace line)));
  send_delivers := Send_delivers; naps_deliver_nothing := Naps_quiet
}.
End Panel.
