(* ===== verification/ChainWitness.v ===== *)
(** Concrete chains and commands: a panel with one server whose console answers. *)
From S2P Require Import Prelude GoBytes CfgDoc Paths InstallFS InstallLaws InstallWitness Kinds Lifecycle Sql Store Engine RemoteStore Errcode Limiter Launch PanelRows Rcon Command CommandSafe Runners RunnersWitness ModQueueWitness Chain ChainSafe.

Open Scope Z_scope.

#[local] Existing Instance ascii_tables.
#[local] Existing Instance ascii_tables_laws.

(** ** A site

    The host, the connections the next dials find, how the jobs waited for end, and
    the wakes and naps of the next waits. *)
Record Site := mkSite { sHost : Host; sConns : list (option Conn); sEnds : list (string * string * string); sNaps : list (option ChErr); sWakes : list Wake }.
Definition hosted {A} (f : Host -> A * Host) (s : Site) : A * Site :=
  let '(a, h) := f (sHost s) in (a, mkSite h (sConns s) (sEnds s) (sNaps s) (sWakes s)).

#[local] Instance SiteNet : Net Site := {
  EnabledMod _ s := (Some true, s);
  InspectNet _ s := (Some (true, [L "172.18.0.2"]), s);
  Dial _ s := (match sConns s with c :: _ => c | [] => None end, mkSite (sHost s) (tail (sConns s)) (sEnds s) (sNaps s) (sWakes s));
  Now := hosted Clock;
  Random32 s := (Some (replicate 32 "a"%char), s)
}.
#[local] Instance SiteChaining : Chaining Site := {
  CtxDone s := (false, s); WaitEnded s := (false, s); Sleep _ s := (None, s); hasCommands := false;
  SendLine _ _ s := (Err ErrUnsupported, s);
  Naps s := (sNaps s, s);
  WaitJob _ s := (match sEnds s with e :: _ => Ok e | [] => Err CancelRequested_ end, mkSite (sHost s) (sConns s) (tail (sEnds s)) (sNaps s) (sWakes s));
  Wakes _ s := (sWakes s, s); Players s := (Some 0, s); Settle := 0
}.

(** The panel's channel stands between the chain and the site. *)
Abbreviation P := (Panel (D := Site)).
#[local] Instance PanelOutside : Outside P := {
  Clock := onOutside (hosted Clock); Inspect c := onOutside (hosted (Inspect c)); ListInstance i := onOutside (hosted (ListInstance i));
  Create s := onOutside (hosted (Create s)); StartContainer c := onOutside (hosted (StartContainer c));
  StopContainer c s t := onOutside (hosted (StopContainer c s t)); Remove c := onOutside (hosted (Remove c));
  AwaitReady c t := onOutside (hosted (AwaitReady c t)); AwaitPluginLoad c t := onOutside (hosted (AwaitPluginLoad c t));
  LogTail c := onOutside (hosted (LogTail c)); SawSaveLine c t := onOutside (hosted (SawSaveLine c t)); SettleIn c := onOutside (hosted (SettleIn c));
  HasDoorstop d := onOutside (hosted (HasDoorstop d)); Archive l s d := onOutside (hosted (Archive l s d)); Verify a b := onOutside (hosted (Verify a b));
  RemoveFile f p := (onOutside (hosted (fun h => (tt, RemoveFile f h))) p).2
}.
#[local] Instance PanelSubmitting : Submitting P := {
  Refuses k := onOutside (hosted (Refuses k)); NewID := onOutside (hosted NewID); Owner := Owner (D := Host); LeaseTTL_ := LeaseTTL_ (D := Host)
}.
#[local] Instance ThePanelChaining : Chaining P := PanelChaining inOrder.
#[local] Instance ThePanelDelivery : Delivery P := PanelDelivery inOrder.

(** ** The server's files and its console *)

Definition cfgText : bytes := L "[1. Rcon]" ++ nl :: L "Port = 2456" ++ nl :: L "Password = hunter2" ++ [nl].
Definition noPassword : bytes := L "[1. Rcon]" ++ nl :: L "Port = 2456" ++ nl :: L "Password =" ++ nl :: L "Whitelist IP mask = 10.0.0.0" ++ [nl].
Definition withConfig (text : bytes) : tree :=
  <[ConfigPath := NFile text]> (<[[L "BepInEx"; L "config"] := NDir]> (<[[L "BepInEx"] := NDir]> ∅)).
Lemma withConfig_wf text : wf (withConfig text).
Proof.
  intros p n. unfold withConfig. do 3 (intros [[<- <-]|[_ Hp]]%lookup_insert_cases; [split; [done|by vm_compute]|revert Hp]). by rewrite lookup_empty.
Qed.
Definition diskWith (text : bytes) : InstallFS.World := (mkFS (Some (withConfig text)) ∅, []).

Definition frame (p : packet) : bytes := default [] (rawPacket p).
(** It answers the login after an empty packet, and the command in two pieces. *)
Definition answering : Conn :=
  let s := frame (mkPacket 1 packetResponse []) ++ frame (mkPacket 1 packetCommand []) ++ frame (mkPacket 2 packetResponse (L "World saved")) in
  mkConn [take 20 s; drop 20 s] [] [] false.
(** It accepts the login and dies. *)
Definition dying : Conn := mkConn [frame (mkPacket 1 packetCommand [])] [] [] false.
Definition site (conns : list (option Conn)) (ends : list (string * string * string)) (wakes : list Wake) : Site :=
  mkSite (host true [] true true) conns ends [None; None] wakes.
Definition panel_ (s : Site) : P := mkPanel (New 10 (60 * second_) 10) (New 10 (60 * second_) 10) (fun _ => diskWith cfgText) s [].

Lemma packets_of_answering : (readPackets 3 (incoming answering)).1 =
  Some [mkPacket 1 packetResponse []; mkPacket 1 packetCommand []; mkPacket 2 packetResponse (L "World saved")].
Proof. vm_compute. reflexivity. Qed.

(** ** Commands *)

Definition aSend (line : string) (scope : Scope_) (c : Conn) : result SendErr bytes * P :=
  send inOrder (instIn StateRunning) (L line) scope People (panel_ (site [Some c] [] [])).
Example sends : (aSend " save " ScopeOperator answering).1 = Ok (L "World saved") /\
  (aSend "Kick bob" ScopeOperator dying).1 = Err (ErrRCON ErrNoReply) /\
  (aSend "shutdown" ScopeOperator answering).1 = Err ErrCommandForbidden /\
  (aSend "shutdown" ScopeAny answering).1 = Ok (L "World saved").
Proof. split_and!; vm_compute; reflexivity. Qed.

Example send_guarded_witness : let r := aSend " save " ScopeOperator answering in
  budget PanelsOwn r.2 = New 10 (60 * second_) 10 /\ (exchanges r.2 = [] \/ exists c c' s, exchanges r.2 = [(c, c')] /\ wire c' = wire c ++ s).
Proof.
  destruct (send_guarded inOrder (instIn StateRunning) (L " save ") ScopeOperator People (panel_ (site [Some answering] [] []))
    (aSend " save " ScopeOperator answering).1 (aSend " save " ScopeOperator answering).2) as (H1 & _ & H2).
  - exact (surjective_pairing _).
  - split; [exact H1|]. destruct H2 as [H2|(c & c' & pw & q & s & H2 & H3 & _)]; [left; exact H2|right; exists c, c', s; split; [exact H2|exact H3]].
Defined.

Definition minted : result CfgErr (Z * bytes) * InstallFS.World := settings (Some (replicate 32 "a"%char)) (diskWith noPassword).
Lemma minted_Ok : minted.1 = Ok (2456, default [] (newPassword (Some (replicate 32 "a"%char)))).
Proof. vm_compute. reflexivity. Qed.
Example settings_stable_witness :
  match minted.1 with
  | Ok (port, password) => 1 <= port <= 65535 /\ password <> [] /\ exists raw, leaf (treeOf Server minted.2.1) ConfigPath = Some (NFile raw) /\
      (forall random, readOrCreateConfig random (minted.2.1, []) = (Ok (port, password, raw, false), (minted.2.1, [])))
  | Err _ => False
  end.
Proof.
  destruct (settings_stable (Some (replicate 32 "a"%char)) (diskWith noPassword) minted.1 minted.2) as (_ & H).
  - intros r [= <-]. reflexivity.
  - exact (withConfig_wf noPassword).
  - exact (surjective_pairing _).
  - rewrite minted_Ok in *. destruct H as (H1 & H2 & raw & H3 & H4 & _). split; [exact H1|]. split; [exact H2|]. exists raw. split; [exact H3|exact H4].
Defined.
(** A file with a port and no password line is refused, not completed. *)
Example missing_key_refused : (settings (Some (replicate 32 "a"%char)) (diskWith (L "[1. Rcon]" ++ nl :: L "Port = 2456" ++ [nl]))).1 = Err (ErrSetPassword ErrNoSuchSetting) /\
  (settings (Some (replicate 32 "a"%char)) (diskWith (L "[1. Rcon]" ++ nl :: L "Password = x" ++ [nl]))).1 = Err ErrNoPort.
Proof. split; vm_compute; reflexivity. Qed.

(** ** Chains *)

Definition worldOf (s : State) (others : list (PDB -> PDB)) (d : Site) : Runners.World P := mkWorld (panel s) [] others (panel_ d) [] [].

(** The first dial fails, so the save goes out at the second. *)
Definition secondTry : result (SendErr + ChErr) bytes * Runners.World P :=
  sendWhenReady (instIn StateRunning) (L "save") (worldOf StateRunning [] (site [None; Some answering] [] [])).
Example command_sent_once_witness : exists new,
  delivered (wOut secondTry.2) = [] ++ new /\ (length new <= 1)%nat /\ secondTry.1 = Ok (L "World saved").
Proof.
  destruct (command_sent_once (instIn StateRunning) (L "save") (worldOf StateRunning [] (site [None; Some answering] [] [])) secondTry.1 secondTry.2)
    as (new & H1 & H2 & _).
  - exact (surjective_pairing _).
  - exists new. split; [exact H1|]. split; [exact H2|]. vm_compute. reflexivity.
Defined.

Definition step_ (t : StepType) : ChainStep := mkStep t (L "save") 1 ConditionReady true "".
Definition sub_ (steps : list ChainStep) : ChainSubmission := mkChain "i1" steps KindChain "" "" StateRunning.
(** Others take the row where the backup job would: down, and up again at last. *)
Definition up (s : State) (db : PDB) : PDB := withR (mkRDB (mkDB ∅ ∅ {[ "i1" := rowIn s ]} ∅ ∅ ∅) ∅ ∅ ∅ ∅ {[ "i1" := defaultCols ]}) db.
Definition ended (k : Kind) (status code : string) : string * string * string := (kindName k, status, code).
Definition kept (db : PDB) : PDB := db.

(** A save, a backup that takes the server down and gives it back, and a wait.  The
    tables are read for the chain's start, the cancel flag, the instance, the flag, the
    instance and the claim; then the job's own writes are seen. *)
Definition steps3 : list ChainStep := [step_ StepCommand; step_ StepBackup; step_ StepWait].
Definition aChain (steps : list ChainStep) (others : list (PDB -> PDB)) (s : Site) : ChainOutcome * Runners.World P :=
  chainRun "j1" (sub_ steps) (worldOf StateRunning others s).
Definition backAgain : list (PDB -> PDB) := replicate 6 kept ++ [up StateBackingUp; up StateStopped; up StateRunning].
Definition good : Site := site [Some answering] [ended KindBackup StatusSucceeded ""] [WakeChanged; WakeChanged; WakeChanged].
Definition traceOf (r : ChainOutcome * Runners.World P) : ChainOutcome * list (nat * bool) * list (string * bool) :=
  (r.1, stepMarks (wTrace r.2), omap (fun e => match e with ESubmit spec x => Some (kindName (sKind spec), is_ok x) | _ => None end) (wTrace r.2)).
Example a_chain : traceOf (aChain steps3 backAgain good) =
  ((StatusSucceeded, ""), [(0, true); (0, false); (1, true); (1, false); (2, true); (2, false)]%nat, [("backup", true)]).
Proof. vm_compute. reflexivity. Qed.
(** The backup's job fails, and its code ends the chain. *)
Example a_failed_chain : traceOf (aChain steps3 backAgain (site [Some answering] [ended KindBackup StatusFailed "ERR_DISK_FULL"] [])) =
  ((StatusFailed, "ERR_DISK_FULL"), [(0, true); (0, false); (1, true)]%nat, [("backup", true)]).
Proof. vm_compute. reflexivity. Qed.


Definition aBackupStep : result ChErr unit * Runners.World P :=
  runStep (sub_ steps3) (step_ StepBackup) (worldOf StateRunning [kept; kept; up StateBackingUp; up StateStopped; up StateRunning] good).
Example backup_step_waits_witness : exists evs, wTrace aBackupStep.2 = [] ++ evs /\
  (forall spec r, ESubmit spec r ∈ evs -> sResumeAfter spec = true -> stateOf "i1" (wDB aBackupStep.2) = Some StateRunning).
Proof.
  refine (backup_step_waits (sub_ steps3) (step_ StepBackup) (worldOf StateRunning [kept; kept; up StateBackingUp; up StateStopped; up StateRunning] good) aBackupStep.2 _ _).
  - reflexivity.
  - vm_compute. reflexivity.
Defined.
